(* ===== verification/_CoqProject ===== *)
-Q . S2P
Prelude.v
Hoare.v
PyValue.v
JsonCanonical.v
NetBox.v
NetBoxFrame.v
Discovery.v
SourceIdentity.v
Metadata.v
Calendar.v
SourceConfig.v
SyncPlan.v
PlanTheory.v
VmApply.v
VmConverge.v
VmRun.v
Planning.v
PlanningExact.v
Schema.v
PyUuid.v
PyBytes.v
PyIp.v
EsxiIdentity.v
InventoryOrder.v
InventoryConflicts.v
Prerequisites.v
NetworkScopes.v
HostMapping.v
HardwareIdentity.v
VirtualDisks.v
GuestPlacement.v
Disappearance.v
LxcApply.v
GuestNetwork.v
HostApply.v
FullSync.v
RunHistory.v
Scheduling.v
Orchestrator.v
Confirmation.v
SourceOperations.v
Registry.v
SourceLifecycle.v
Retirement.v
HostRegistration.v
IdentityReview.v
SourceRecovery.v
RetirementSpec.v
RunReconciliation.v
Coordinator.v
CoordinatorOutcome.v
GuardTransport.v
GuardRefusal.v
RemovalQueue.v
FairCursor.v
RemovalTick.v
RetirementSystem.v
HostIdentity.v
SecretBroker.v
Onboarding.v
RegistrationJobs.v
RegistrationRoute.v
