(* ===== verification/Prelude.v ===== *)
(** * NetBox Sync: a verification development

    NetBox Sync reads the inventory of Proxmox and ESXi sources and writes it to
    NetBox. A source is a registry row; an API process, a scheduler and a few
    privileged workers act on it, all through one PostgreSQL schema. This
    development models the core that decides what may be written, by whom and
    when, and proves that those decisions are safe.

    ** The program and the files that model it

    Values and records:
    - [Prelude] (this file): results and exceptions, the state-and-exception
      monad [M], transactions, the calculus [moves R m s] ("whether it returns or
      raises, [m] relates the states by [R]") with its hint database and
      tactics, and sorting.
    - [PyValue], [JsonCanonical]: Python and JSON values, [==], truth, [repr],
      [json.dumps] with sorted keys and what its text determines, and the JSON
      operators of PostgreSQL. [PyUuid]: reading and printing UUIDs. [PyIp]:
      [ipaddress.ip_interface] and its text. [PyBytes]: UTF-8 and Base64.
    - [Hoare]: pre- and postconditions for [M], beside [moves].
    - [Discovery] (discovery.py): the provider-neutral records.
    - [SourceIdentity] (source_identity.py): the versioned identity by which a
      source owns a NetBox object; matching ranks, merging, selection.
    - [Metadata] (netbox_metadata.py, netbox_vm_metadata.py,
      netbox_lxc_metadata.py, netbox_vm_interface_metadata.py): the custom fields
      an update writes and how objects are matched by them.
    - [Calendar] (calendar_schedule.py): the Gregorian calendar, schedules and
      [next_slot]; the Moscow time zone is the class [MoscowZone], whose laws are
      [MoscowLaws].
    - [SourceConfig] (source_config.py): configurations and their validation.

    Planning and writing:
    - [NetBox]: the interface [NetBoxApi] the executors use, what they rely on
      ([NetBoxLaws], [NetBoxQueries]) and a store that meets it. [NetBoxFrame]:
      what a program over it can do, as preorders carried through every call,
      triples and the evolution of the tables under a policy.
    - [InventoryOrder], [InventoryConflicts] (application/inventory_order.py,
      application/inventory_conflicts.py, application/ip_observations.py): the
      canonical inventory, its conflicts and what is withheld because of them.
    - [NetworkScopes] (network_scopes.py), [Prerequisites] (prerequisites.py),
      [HostMapping] (host_mapping.py), [HardwareIdentity] (hardware_identity.py,
      selectel_host_match.py): what is checked against NetBox before a run.
    - [SyncPlan] (application/sync_plan.py and the records it is built from),
      [PlanTheory]: plans, their canonical text and digest.
    - [VmApply] (netbox_vm_apply.py, vm_apply_*.py, netbox_vm_name.py,
      netbox_record_values.py, selectel_authority.py), [VmConverge], [VmRun]: the
      executor of virtual machines.
    - [Planning] (application/planning_netbox.py), [PlanningExact]: the recording
      facade, itself a [NetBoxApi], and the executor run on it.
    - [HostApply] (netbox_apply.py, host_apply_*.py), [LxcApply]
      (netbox_lxc_apply.py, lxc_apply_*.py), [GuestNetwork]
      (netbox_vm_network_apply.py, vm_network_*.py and their LXC counterparts),
      [GuestPlacement] (guest_placement.py), [VirtualDisks] (virtual_disks.py),
      [Disappearance] (netbox_disappearance.py, disappearance_*.py): the other
      executors and the report of what disappeared.
    - [FullSync] (netbox_full_apply.py, the write boundary of apply_worker.py): all
      stages, simulated on a facade and then run.

    Sources and their database:
    - [Schema] (migrations/versions): the tables as finite maps, constraints,
      views, triggers, and the database state [db].
    - [RunHistory] (run_history.py, run_gates.py): the record of runs.
    - [Scheduling] (application/scheduling.py): the cadence policy.
    - [Orchestrator] (orchestrator.py, scheduled_failure.py,
      scheduler_runtime.py): isolated execution of sources and the tick.
    - [Confirmation] (application/confirmation.py, application/manual_sync.py):
      single-use confirmations and the manual run.
    - [SourceOperations] (source_operations.py): the lifecycle gate and the store
      of PLAN and DISCOVERY operations, with the interleaving of any number of
      processes as the step relation [op_step].
    - [SourceLifecycle] (source_lifecycle.py): rename, removal, cleanup of
      credential files.
    - [Retirement] (retirement_journal.py, source_archive.py,
      retirement_codes.py, migrations 0013 to 0016): the retirement journal as the
      step relation [journal_step], the archive and the purge of a generation;
      [RetirementSpec]: the claims a journal stands for.
    - [RunReconciliation] (run_reconciliation.py): the accepted baseline after
      unproved writes.
    - [Coordinator], [CoordinatorOutcome] (retirement_coordinator.py): review and
      execution of a retirement against the class [GuardRemote].
    - [GuardTransport], [GuardRefusal] (retirement_transport.py,
      retirement_worker.py, local_control.py): the HTTP client of the guard, the
      child process, the worker and its socket, an instance of [GuardRemote].
    - [RemovalQueue], [FairCursor], [RemovalTick], [RetirementSystem]
      (removal_queue.py, retirement_continuation.py): the queued removal, the
      rotation that serves it, the tick, and all of it as one system.

    Registering sources:
    - [Registry] (source_registry.py): rows and configurations, reads, creation and
      the optimistic update.
    - [EsxiIdentity] (the identity of a host in esxi_discovery.py, anchors of
      host_registration.py), [HostRegistration] (host_registration.py,
      legacy_admission.py), [IdentityReview] (source_identity_verification.py,
      placement_control.py, provider_evidence.py), [HostIdentity]: which source
      claims which host, as the step relation [identity_step].
    - [SourceRecovery] (source_recovery.py): bringing a removed source back.
    - [SecretBroker] (secret_broker.py): the credential files, their extended
      attributes and the requests of the broker; any system call may fail.
    - [Onboarding] (application/onboarding.py, api/onboarding_adapters.py, the
      registration adapter of api/lifecycle_adapters.py, source_view of
      application/sources.py): the handoff of tested credentials, the
      broker client, the registry adapter and a registration. Its state [station]
      has the database, the files and the oracles: what each connection to the
      broker and to the database does, the clock and random texts.
    - [RegistrationJobs] (registration_jobs.py, the request of
      api/onboarding_dto.py, the broker client of lifecycle_worker.py): durable
      jobs, staging, attestation and the background continuation, proved against
      the classes [Completion] and [Attestation] of its two callbacks.
    - [RegistrationRoute] (api/onboarding_routes.py, api/catalog.py,
      registration_namespace.py and the rest of the onboarding service): the
      completion of a registration, which is an instance of [Completion], and
      POST /sources.

    ** How code becomes definitions

    A function keeps its Python name where Rocq allows it; a leading underscore
    is dropped, and where two components use one name the file tells them apart.
    A dataclass or a row is a [Record], an enumeration an [Inductive], a handler a
    computation in [M]: [raise] is the first failing guard in the order of the
    code, [atomic] is [with connect()] (commit on return, roll back on an
    exception), [catch] is [try ... except], [finally] is [try ... finally]. The
    state reached is kept when a handler raises, so that what earlier
    transactions committed stays. The clock, UUIDs, random tokens, hashes, time
    zones, rendered timestamps, [urlsplit], the parsing of a request by Pydantic
    (it keeps a text field, [ParsesSource]), the remote guard, the bootstrap
    worker and the authentication service (they touch neither store, [Outside]),
    the locks of other sessions, the work that executes a source and the deletion
    of files by a lifecycle cleanup are parameters; the theorems hold for all of
    them.
    Session locks are part of [db]; the locks of one transaction need no state,
    since a transaction is one step. A Python [str] is a sequence of code points
    below 256 and numbers are integers; microseconds are exact.

    ** What the theorems show

    - The boundary of a run: nothing is written before every stage has passed on a
      facade of the unchanged NetBox ([full_sync_checks_before_writing]), and the
      answer of the child that applies a Proxmox plan says truly whether the
      boundary was crossed and why not ([apply_child_reports_truly]).
    - Ownership in NetBox: no executor takes over a device, an interface, an
      address or a guest that belongs to something else ([hosts_never_take_over],
      [networks_never_take_an_address], [placement_never_takes_over],
      [disk_writes_are_scoped]).
    - Inventories: order does not matter ([canonical_hosts_order_free]), disputed
      addresses are withheld and every withheld fact is kept as an observation
      ([observe_mode_leaves_no_conflict]), and the report of what disappeared is
      exact ([disappearance_report_exact]).
    - Writes to NetBox: a run of the machine executor touches only the rows of its
      own machines and never the fields it does not own
      ([vm_apply_touches_only_its_machines]); a run that succeeded leaves nothing
      to do for the next, when no two machines share an identity or a record
      ([vm_apply_converges]); and the run is the replay of what
      the same code recorded on the facade, which is what the operator was shown
      ([dry_run_is_exact]).
    - Plans: the canonical text determines the plan and does not depend on order
      or on the clock of a reading ([canonical_text_binds],
      [canonical_text_order_free], [plan_ignores_reading_time]); the items of a plan
      stand for the recorded mutations and for every other reviewed object, each
      once ([plan_is_exact]).
    - Concurrency: however API calls, schedulers and executions interleave, an
      execution owns its generation and its completion lands on it
      ([executions_fenced]), and a plan that is reviewed or applied is current,
      intact and the one whose digest was reviewed ([reviewed_plan_intact]).
    - Retirement: in every reachable journal at most one retirement is in flight,
      its source stays disabled unless the registry re-enables it, and success is
      recorded only with a receipt that names the manifest's objects
      ([retirement_journal_safe]); records only move forward
      ([retirement_record_final]); finalization erases or archives exactly one
      source and keeps every row of the others, the audit and the team assignments
      included ([finalization_exact]). A call sends at most one mutating request,
      after a durable intent ([mutation_has_durable_intent]), touches no other
      source ([execute_isolates_sources]) and records a refusal only where the
      worker, and below it NetBox, definitely refused
      ([blocked_only_by_refusal], [blocked_leaves_netbox_untouched]). The whole
      system of reviews, executions, queue and maintenance refines the abstract
      claims ([system_refines_claims]), and every queued removal is served
      ([queue_serves_every_request]).
    - Unproved writes: a failure after writes were possible is recorded as
      uncertain unless a stable code says otherwise
      ([possible_writes_recorded_uncertain]), blocks the next scheduled
      run ([unresolved_outcome_blocks_execution]), and is cleared only by an
      accepted baseline that unschedules the source ([baseline_accepted],
      [confirm_refused_unchanged]).
    - Removal: [remove_confirmed], [cleanup_exclusive], [enqueue_fences].
    - The registry hands out only valid configurations
      ([registry_hands_out_admitted]), reads back what was created
      ([created_reads_back]) and updates one row whose timestamp has not moved
      ([update_is_optimistic]).
    - Hosts: through reservation, registration, legacy decisions, verification and
      recovery a host has at most one claimant ([hosts_have_one_claimant]), except
      that saving a placement does not look: what it does is the same whatever the
      other sources have registered ([placement_save_unchecked]). A removed source
      comes back only as reviewed, with exactly the rows of its completion changed
      ([restored_as_reviewed]), and attempts
      only move forward ([attempts_move_one_way]).
    - Credentials: a request to the broker changes at most the files it may
      ([broker_touches_only_its_files]), a stored secret answers its own operation
      again and refuses every other operation or value ([secret_replays]), and the broker's loops end
      ([broker_loops_end]). A registration never leaves a row without its
      credentials, whatever answer is lost ([registration_keeps_credentials]); the
      continuation completes a job only on evidence
      ([turn_completes_on_evidence]) and starves none ([no_job_starves]); and an
      accepted POST /sources has its row, its completed job and the files of its
      provider, while a
      refused one loses nothing ([accepted_registration_is_complete]).
    - Orchestration and history: [run_sources_isolates], [tick_runs_eligible],
      a recorded run is kept and moves once to its end, unless its source is purged
      ([history_append_only]), [failure_always_recorded], [list_runs_pages],
      [eligible_iff], [next_slot_is_next_occurrence].
    - Manual runs: [capability_single_use], [apply_invokes_confirmed_plan].
    - Ownership: a merge keeps every foreign record, leaves one record of its own
      namespace and is what the matcher finds again ([merge_owns_one_namespace],
      [merge_then_rank_v2], [select_best_is_argmax]); the custom fields written
      match their own object at the highest rank and leave other sources'
      identities alone ([built_fields_match_v2], [built_fields_isolate_sources]).

    ** Bounds

    Two loops of the broker have fuel, and [broker_loops_end] shows that it is never
    exhausted: writing takes one turn per byte, since a turn that writes nothing
    raises, and receiving at most [MAX_REQUEST_BYTES + 2] turns, since every turn
    adds a byte or ends. [trailing_zeros] of [PyIp] takes one turn per bit of an
    address. Every other definition is structurally recursive. The searches
    are bounded as in the code ([next_slot] looks 63 days ahead, which the proof
    shows to be enough for every valid calendar between the laws' bounds;
    [list_runs] returns at most 200 rows, [evidence] 50, a review 100 runs). Run
    counters are checked against the 32-bit columns.

    ** What is not modelled

    Provider clients and their probes, the other HTTP routes, pydantic's parsing and
    the authentication, the bootstrap worker, process supervision and the opening of
    sockets and directories, one-off migrations, deployment and the NetBox plugin:
    glue to live services, or not done yet. NetBox itself is not part of the
    repository and is an interface with laws. In order of importance, next are: the
    bootstrap worker with its catalog journal, the supervisor of the apply worker,
    the ESXi runtime and the runtime plan. *)

From stdpp Require Import base list strings gmap sorting pretty.
From Stdlib Require Import ZArith Lia Ascii.
#[export] Set Warnings "-clear-no-such-hyp,-register-all".

(** ** Results, exceptions and the two monads of the development *)


Inductive result (E A : Type) : Type :=
| Ok (a : A)
| Err (e : E).
Arguments Ok {E A} a.
Arguments Err {E A} e.

#[global] Instance result_ret {E} : MRet (result E) := λ A a, Ok a.
#[global] Instance result_bind {E} : MBind (result E) := λ A B k m,
  match m with Ok a => k a | Err e => Err e end.

(** The exceptions the modelled Python code raises, by class; where the class
    carries a stable code (and an optional reason) so does the constructor. *)
Inductive exn : Type :=
| ValueError (msg : string)
| TypeError (msg : string)
| KeyError (key : string)
| RuntimeError (msg : string)
| LifecycleError (code : string)
| OperationError (code : string) (reason : option string)
| ConfirmationError (code : string)
| ManualSyncError (code : string)
| ControlError (code : string)
| DatabaseError (code : string)
| HostRegistrationConflict (code : string) (source : option string) (conflicts : list (string * string)) (truncated : bool)
| OtherException (cls : string) (code : option string).

Lemma Ok_inj {E A} (a b : A) : (Ok a : result E A) = Ok b → a = b.
Proof. by intros [= ->]. Qed.

#[global] Instance exn_eq_dec : EqDecision exn.
Proof. solve_decision. Defined.

#[global] Instance result_eq_dec {E A} `{EqDecision E} `{EqDecision A} :
  EqDecision (result E A).
Proof. solve_decision. Defined.

(** A computation over a state [S] that may raise: the state reached is kept
    also when it raises, as a Python handler that committed earlier
    transactions does. *)
Definition M (S E A : Type) : Type := S → result E A * S.

#[global] Instance M_ret {S E} : MRet (M S E) := λ A a s, (Ok a, s).
#[global] Instance M_bind {S E} : MBind (M S E) := λ A B k m s,
  match m s with
  | (Ok a, s') => k a s'
  | (Err e, s') => (Err e, s')
  end.

Section Primitives.
Context {S E : Type}.

(** [raise e]. *)
Definition raise {A} (e : E) : M S E A := λ s, (Err e, s).
(** [if cond: raise e]. *)
Definition raise_if (cond : bool) (e : E) : M S E unit := λ s,
  if cond then (Err e, s) else (Ok tt, s).
(** A query. *)
Definition gets {A} (f : S → A) : M S E A := λ s, (Ok (f s), s).
(** A statement that changes the state. *)
Definition modify (f : S → S) : M S E unit := λ s, (Ok tt, f s).
(** A pure computation that may raise. *)
Definition lift {A} (r : result E A) : M S E A := λ s, (r, s).
(** [with connect() as connection]: commit on success, roll back on an
    exception. *)
Definition atomic {A} (m : M S E A) : M S E A := λ s,
  match m s with
  | (Ok a, s') => (Ok a, s')
  | (Err e, _) => (Err e, s)
  end.
(** [try: m; except e: h e]. *)
Definition catch {A} (m : M S E A) (h : E → M S E A) : M S E A := λ s,
  match m s with
  | (Ok a, s') => (Ok a, s')
  | (Err e, s') => h e s'
  end.
(** [try: m; finally: f]. *)
Definition finally {A} (m : M S E A) (f : S → S) : M S E A := λ s, let '(r, s') := m s in (r, f s').
(** The row a query must find. *)
Definition require {A} (o : option A) (e : E) : M S E A :=
  match o with Some a => mret a | None => raise e end.
End Primitives.

(** ** Inversion of computations *)

Section Inversion.
Context {S E : Type}.
Implicit Types (s : S) (e : E).

Lemma bind_Ok {A B} (m : M S E A) (k : A → M S E B) s b s' :
  (m ≫= k) s = (Ok b, s') ↔ ∃ a s1, m s = (Ok a, s1) ∧ k a s1 = (Ok b, s').
Proof.
  unfold mbind, M_bind. destruct (m s) as [[a|e] s1]; split.
  - eauto.
  - intros (a' & s2 & H & Hk). by simplify_eq.
  - done.
  - intros (a' & s2 & H & Hk). done.
Qed.

(** A sequence stops at its first computation or goes on. *)
Lemma bind_cases {A B} (m : M S E A) (k : A → M S E B) s r s' :
  (m ≫= k) s = (r, s') →
  (∃ e, m s = (Err e, s') ∧ r = Err e) ∨ (∃ a s1, m s = (Ok a, s1) ∧ k a s1 = (r, s')).
Proof. unfold mbind, M_bind. destruct (m s) as [[a|e] s1]; intros H; [right; eauto|left; naive_solver]. Qed.

(** Runs the first computation of a sequence. *)
Lemma bind_step {A B} (m : M S E A) (k : A → M S E B) s a s1 : m s = (Ok a, s1) → (m ≫= k) s = k a s1.
Proof. unfold mbind, M_bind. by intros ->. Qed.

Lemma ret_Ok {A} (a : A) s b s' :
  (mret a : M S E A) s = (Ok b, s') ↔ b = a ∧ s' = s.
Proof. unfold mret, M_ret. naive_solver. Qed.

Lemma raise_Ok {A} e s (b : A) s' : (raise e : M S E A) s = (Ok b, s') ↔ False.
Proof. unfold raise. naive_solver. Qed.

Lemma raise_if_Ok c e s b s' :
  (raise_if c e : M S E unit) s = (Ok b, s') ↔ c = false ∧ s' = s.
Proof. unfold raise_if. destruct c, b; naive_solver. Qed.

Lemma gets_Ok {A} (f : S → A) s b s' :
  (gets f : M S E A) s = (Ok b, s') ↔ b = f s ∧ s' = s.
Proof. unfold gets. naive_solver. Qed.

Lemma modify_Ok (f : S → S) s b s' :
  (modify f : M S E unit) s = (Ok b, s') ↔ s' = f s.
Proof. unfold modify. destruct b. naive_solver. Qed.

Lemma lift_Ok {A} (r : result E A) s b s' :
  (lift r : M S E A) s = (Ok b, s') ↔ r = Ok b ∧ s' = s.
Proof. unfold lift. naive_solver. Qed.

Lemma require_Ok {A} (o : option A) e s b s' :
  (require o e : M S E A) s = (Ok b, s') ↔ o = Some b ∧ s' = s.
Proof.
  destruct o; simpl; [rewrite ret_Ok | rewrite raise_Ok]; naive_solver.
Qed.

Lemma atomic_Ok {A} (m : M S E A) s b s' :
  atomic m s = (Ok b, s') ↔ m s = (Ok b, s').
Proof. unfold atomic. destruct (m s) as [[?|?] ?]; naive_solver. Qed.

(** A transaction that raises leaves the database as it found it. *)
Lemma atomic_Err {A} (m : M S E A) s e s' :
  atomic m s = (Err e, s') → s' = s.
Proof. unfold atomic. destruct (m s) as [[?|?] ?]; naive_solver. Qed.

Lemma catch_Ok {A} (m : M S E A) h s b s' :
  catch m h s = (Ok b, s') ↔
  m s = (Ok b, s') ∨ ∃ e s1, m s = (Err e, s1) ∧ h e s1 = (Ok b, s').
Proof.
  unfold catch. destruct (m s) as [[a|e] s1]; split; intros H.
  - by left.
  - destruct H as [H|(?&?&?&?)]; [by rewrite H | done].
  - right. eauto.
  - destruct H as [H|(?&?&?&?)]; [done | by simplify_eq].
Qed.

Lemma finally_Ok {A} (m : M S E A) f s b s' :
  finally m f s = (Ok b, s') ↔ ∃ s1, m s = (Ok b, s1) ∧ s' = f s1.
Proof. unfold finally. destruct (m s) as [r s1]. naive_solver. Qed.

Lemma bind_Err {A B} (m : M S E A) (k : A → M S E B) s e s' :
  (m ≫= k) s = (Err e, s') ↔ m s = (Err e, s') ∨ ∃ a s1, m s = (Ok a, s1) ∧ k a s1 = (Err e, s').
Proof. unfold mbind, M_bind. destruct (m s) as [[a|e1] s1]; naive_solver. Qed.

Lemma if_Ok {A} (c : bool) (m1 m2 : M S E A) s b s' :
  (if c then m1 else m2) s = (Ok b, s') ↔
  (c = true ∧ m1 s = (Ok b, s')) ∨ (c = false ∧ m2 s = (Ok b, s')).
Proof. destruct c; naive_solver. Qed.
End Inversion.

Lemma result_bind_Ok {E A B} (m : result E A) (k : A → result E B) b :
  m ≫= k = Ok b ↔ ∃ a, m = Ok a ∧ k a = Ok b.
Proof. destruct m; unfold mbind, result_bind; naive_solver. Qed.

(** [inv_m H] turns [H : m s = (Ok b, s')] into the facts its success gives:
    one equation per guard passed, per query answered and per statement run. *)
Ltac inv_m_step :=
  match goal with
  | H : ∃ _, _ |- _ => destruct H
  | H : _ ∧ _ |- _ => destruct H
  | H : (_ ≫= _) _ = (Ok _, _) |- _ => apply bind_Ok in H
  | H : mret _ _ = (Ok _, _) |- _ => apply ret_Ok in H
  | H : raise _ _ = (Ok _, _) |- _ => by apply raise_Ok in H
  | H : raise_if _ _ _ = (Ok _, _) |- _ => apply raise_if_Ok in H
  | H : gets _ _ = (Ok _, _) |- _ => apply gets_Ok in H
  | H : modify _ _ = (Ok _, _) |- _ => apply modify_Ok in H
  | H : lift _ _ = (Ok _, _) |- _ => apply lift_Ok in H
  | H : require _ _ _ = (Ok _, _) |- _ => apply require_Ok in H
  | H : atomic _ _ = (Ok _, _) |- _ => rewrite atomic_Ok in H
  | H : _ ≫= _ = Ok _ |- _ => apply result_bind_Ok in H
  end.
Ltac inv_m := repeat (inv_m_step; subst); simplify_eq.

(** Boolean guards to propositions. *)
Ltac inv_bool :=
  repeat match goal with
  | H : _ || _ = false |- _ => apply orb_false_iff in H as [? ?]
  | H : _ && _ = true |- _ => apply andb_true_iff in H as [? ?]
  | H : negb _ = true |- _ => apply negb_true_iff in H
  | H : negb _ = false |- _ => apply negb_false_iff in H
  | H : bool_decide _ = true |- _ => apply bool_decide_eq_true in H
  | H : bool_decide _ = false |- _ => apply bool_decide_eq_false in H
  | H : is_Some _ |- _ => destruct H
  end.

(** ** How a computation moves the state

    [moves R m s]: whether it returns or raises, [m] run at [s] reaches a state
    related to [s] by the preorder [R]. An invariant [I] is the preorder
    [keeps I]; a property that only grows is a preorder of its own. *)

Section Moves.
Context {S E : Type} (R : relation S) `{!PreOrder R}.
Implicit Types (s : S) (e : E).

Definition moves {A} (m : M S E A) (s : S) : Prop := R s (m s).2.

Lemma moves_bind {A B} (m : M S E A) (k : A → M S E B) s :
  moves m s → (∀ a s1, m s = (Ok a, s1) → moves (k a) s1) → moves (m ≫= k) s.
Proof.
  unfold moves, mbind, M_bind. destruct (m s) as [[a|e] s1]; simpl; intros H1 H2; [|done].
  etrans; [done|]. by apply H2.
Qed.

Lemma moves_end {A} (m : M S E A) s r s' : moves m s → m s = (r, s') → R s s'.
Proof. unfold moves. intros H Hr. by rewrite Hr in H. Qed.

Lemma moves_ret {A} (a : A) s : moves (mret a : M S E A) s.
Proof. unfold moves. reflexivity. Qed.
Lemma moves_raise {A} e s : moves (raise e : M S E A) s.
Proof. unfold moves. reflexivity. Qed.
Lemma moves_raise_if c e s : moves (raise_if c e : M S E unit) s.
Proof. unfold moves, raise_if. destruct c; reflexivity. Qed.
Lemma moves_gets {A} (f : S → A) s : moves (gets f : M S E A) s.
Proof. unfold moves. reflexivity. Qed.
Lemma moves_lift {A} (r : result E A) s : moves (lift r : M S E A) s.
Proof. unfold moves. reflexivity. Qed.
Lemma moves_require {A} (o : option A) e s : moves (require o e : M S E A) s.
Proof. unfold moves. destruct o; reflexivity. Qed.
Lemma moves_modify f s : R s (f s) → moves (modify f : M S E unit) s.
Proof. done. Qed.
Lemma moves_atomic {A} (m : M S E A) s : moves m s → moves (atomic m) s.
Proof. unfold moves, atomic. destruct (m s) as [[a|e] s1]; simpl; [done|reflexivity]. Qed.
Lemma moves_catch {A} (m : M S E A) h s :
  moves m s → (∀ e s1, m s = (Err e, s1) → moves (h e) s1) → moves (catch m h) s.
Proof.
  unfold moves, catch. destruct (m s) as [[a|e] s1]; simpl; intros H1 H2; [done|].
  etrans; [done|]. by apply H2.
Qed.
Lemma moves_finally {A} (m : M S E A) f s :
  moves m s → (∀ r s1, m s = (r, s1) → R s1 (f s1)) → moves (finally m f) s.
Proof. unfold moves, finally. destruct (m s) as [r s1]; simpl; intros H1 H2. etrans; [done|]. by eapply H2. Qed.
Lemma moves_if {A} (c : bool) (m1 m2 : M S E A) s :
  (c = true → moves m1 s) → (c = false → moves m2 s) → moves (if c then m1 else m2) s.
Proof. destruct c; auto. Qed.
End Moves.

Definition keeps {S} (I : S → Prop) (s s' : S) : Prop := I s → I s'.
#[export] Instance keeps_preorder {S} (I : S → Prop) : PreOrder (keeps I).
Proof. split; unfold keeps; repeat intro; auto. Qed.

(** The lemmas [moves R m s] of the operations a component has dealt with. *)
Create HintDb moves.

(** One step through a handler; the guards passed on the way become
    hypotheses. What remains is one goal per statement that changes the state. *)
Ltac moves_step :=
  match goal with
  | |- moves ?R (_ ≫= _) _ => apply (moves_bind R); [|intros ? ? ?; inv_m]
  | |- moves ?R (mret _) _ => apply (moves_ret R)
  | |- moves ?R (raise _) _ => apply (moves_raise R)
  | |- moves ?R (raise_if _ _) _ => apply (moves_raise_if R)
  | |- moves ?R (gets _) _ => apply (moves_gets R)
  | |- moves ?R (lift _) _ => apply (moves_lift R)
  | |- moves ?R (require _ _) _ => apply (moves_require R)
  | |- moves ?R (atomic _) _ => apply (moves_atomic R)
  | |- moves ?R (if _ then _ else _) _ => apply (moves_if R); intros ?
  | |- moves ?R (modify _) _ => apply (moves_modify R)
  | |- moves _ _ _ => solve [eauto with moves]
  end.
Ltac moves := repeat moves_step.

(** ** What a computation may raise

    [fails P r] and [raises P m s]: an exception of [r], or of [m] run at [s], has
    property [P]. *)

Definition fails {E A} (P : E → Prop) (r : result E A) : Prop := match r with Ok _ => True | Err e => P e end.
Definition raises {S E A} (P : E → Prop) (m : M S E A) (s : S) : Prop := fails P (m s).1.

Section Raises.
Context {S E : Type} (P : E → Prop).
Implicit Types (s : S) (e : E).

Lemma fails_bind {A B} (r : result E A) (k : A → result E B) : fails P r → (∀ a, r = Ok a → fails P (k a)) → fails P (r ≫= k).
Proof. destruct r; simpl; auto. Qed.
Lemma raises_bind {A B} (m : M S E A) (k : A → M S E B) s :
  raises P m s → (∀ a s1, m s = (Ok a, s1) → raises P (k a) s1) → raises P (m ≫= k) s.
Proof. unfold raises, mbind, M_bind. destruct (m s) as [[a|e] s1]; simpl; auto. Qed.
Lemma raises_ret {A} (a : A) s : raises P (mret a : M S E A) s.
Proof. done. Qed.
Lemma raises_raise {A} e s : P e → raises P (raise e : M S E A) s.
Proof. done. Qed.
Lemma raises_raise_if c e s : (c = true → P e) → raises P (raise_if c e : M S E unit) s.
Proof. unfold raises, raise_if. destruct c; simpl; auto. Qed.
Lemma raises_gets {A} (f : S → A) s : raises P (gets f : M S E A) s.
Proof. done. Qed.
Lemma raises_modify f s : raises P (modify f : M S E unit) s.
Proof. done. Qed.
Lemma raises_lift {A} (r : result E A) s : fails P r → raises P (lift r : M S E A) s.
Proof. done. Qed.
Lemma raises_require {A} (o : option A) e s : P e → raises P (require o e : M S E A) s.
Proof. by destruct o. Qed.
Lemma raises_atomic {A} (m : M S E A) s : raises P m s → raises P (atomic m) s.
Proof. unfold raises, atomic. by destruct (m s) as [[a|e] s1]. Qed.
Lemma raises_if {A} (c : bool) (m1 m2 : M S E A) s :
  (c = true → raises P m1 s) → (c = false → raises P m2 s) → raises P (if c then m1 else m2) s.
Proof. destruct c; auto. Qed.
Lemma raises_Err {A} (m : M S E A) s e s' : raises P m s → m s = (Err e, s') → P e.
Proof. unfold raises. by intros H E'; rewrite E' in H. Qed.
End Raises.

Create HintDb raises.
Ltac raises_step :=
  match goal with
  | |- raises ?P (_ ≫= _) _ => apply (raises_bind P); [|intros ? ? ?]
  | |- raises ?P (mret _) _ => apply (raises_ret P)
  | |- raises ?P (raise _) _ => apply (raises_raise P)
  | |- raises ?P (raise_if _ _) _ => apply (raises_raise_if P); intros _
  | |- raises ?P (gets _) _ => apply (raises_gets P)
  | |- raises ?P (modify _) _ => apply (raises_modify P)
  | |- raises ?P (lift _) _ => apply (raises_lift P)
  | |- raises ?P (require _ _) _ => apply (raises_require P)
  | |- raises ?P (atomic _) _ => apply (raises_atomic P)
  | |- raises ?P (if _ then _ else _) _ => apply (raises_if P); intros _
  | |- raises _ (match ?x with _ => _ end) _ => destruct x
  | |- raises _ _ _ => solve [eauto with raises]
  | |- fails ?P (_ ≫= _) => apply (fails_bind P); [|intros ? _]
  | |- fails _ (Ok _) => exact I
  | |- fails _ (if ?c then _ else _) => destruct c
  | |- fails _ (match ?x with _ => _ end) => destruct x
  | |- fails _ _ => solve [eauto with raises]
  end.
Ltac raises := repeat raises_step.

(** A closed decidable fact. *)
Ltac decided := refine (bool_decide_eq_true_1 _ _); vm_compute; reflexivity.

(** ** Loops over lists *)

Fixpoint forM {S E A} (l : list A) (body : A → M S E unit) : M S E unit :=
  match l with
  | [] => mret tt
  | x :: l' => body x ≫= λ _, forM l' body
  end.

Lemma moves_forM {S E A} (R : relation S) `{!PreOrder R} (l : list A) (body : A → M S E unit) s :
  (∀ x s1, x ∈ l → moves R (body x) s1) → moves R (forM l body) s.
Proof.
  revert s. induction l as [|x l IH]; intros s Hb; simpl; [apply (moves_ret R)|].
  apply (moves_bind R); [apply Hb; left|]. intros. apply IH. intros y s2 Hy. apply Hb. by right.
Qed.

Fixpoint mapR {E A B} (f : A → result E B) (l : list A) : result E (list B) :=
  match l with
  | [] => Ok []
  | x :: l' => f x ≫= λ y, mapR f l' ≫= λ ys, Ok (y :: ys)
  end.

(** A comprehension with a condition that may raise. *)
Fixpoint filterR {E A} (f : A → result E bool) (l : list A) : result E (list A) :=
  match l with
  | [] => Ok []
  | x :: l' => f x ≫= λ b, filterR f l' ≫= λ rest, Ok (if (b : bool) then x :: rest else rest)
  end.

Lemma mapR_Ok {E A B} (f : A → result E B) l ys :
  mapR f l = Ok ys ↔ Forall2 (λ x y, f x = Ok y) l ys.
Proof.
  revert ys. induction l as [|x l IH]; intros ys; simpl.
  - split; [intros [= <-]; constructor | by inversion 1].
  - rewrite result_bind_Ok. setoid_rewrite result_bind_Ok. split.
    + intros (y & Hy & zs & Hzs & [= <-]). constructor; [done|]. by apply IH.
    + inversion 1; subst. eexists; split; [done|]. eexists; split; [by apply IH|done].
Qed.

(** ** Lists *)

Lemma NoDup_fmap_filter {A B} (f : A → B) (P : A → Prop) `{∀ x, Decision (P x)} (l : list A) : NoDup (f <$> l) → NoDup (f <$> filter P l).
Proof.
  induction l as [|x l IH]; [done|]. rewrite fmap_cons, NoDup_cons. intros [Hx Hl]. rewrite filter_cons. case_decide; [|by apply IH].
  rewrite fmap_cons. constructor; [|by apply IH]. intros (y & E & [_ Hy]%list_elem_of_filter)%list_elem_of_fmap. apply Hx. rewrite E.
  by apply list_elem_of_fmap_2.
Qed.

Lemma filter_none {A} (P : A → Prop) `{∀ x, Decision (P x)} (l : list A) :
  (∀ x, x ∈ l → ¬ P x) → filter P l = [].
Proof.
  induction l as [|x l IH]; intros Hl; [done|].
  rewrite filter_cons, decide_False by (apply Hl; left).
  apply IH. intros y ?. apply Hl. by right.
Qed.

Lemma filter_all {A} (P : A → Prop) `{∀ x, Decision (P x)} (l : list A) :
  (∀ x, x ∈ l → P x) → filter P l = l.
Proof.
  induction l as [|x l IH]; intros Hl; [done|].
  rewrite filter_cons, decide_True by (apply Hl; left). f_equal.
  apply IH. intros y ?. apply Hl. by right.
Qed.

(** ** Python's ordering of strings and its stable [sorted] *)

Lemma N_compare_trans_le (a b c : N) :
  (a ?= b)%N ≠ Gt → (b ?= c)%N ≠ Gt → (a ?= c)%N ≠ Gt.
Proof. rewrite !N.compare_le_iff. lia. Qed.

Lemma string_leb_cons a1 s1 a2 s2 :
  String.leb (String a1 s1) (String a2 s2) = true ↔
  (N_of_ascii a1 < N_of_ascii a2)%N ∨ (a1 = a2 ∧ String.leb s1 s2 = true).
Proof.
  unfold String.leb. simpl. unfold Ascii.compare.
  destruct (N.compare_spec (N_of_ascii a1) (N_of_ascii a2)) as [H|H|H].
  - split; [|intros [?|[??]]; [lia|done]].
    intros. right. split; [|done].
    by rewrite <-(ascii_N_embedding a1), <-(ascii_N_embedding a2), H.
  - naive_solver.
  - split; [done|]. intros [?|[-> ?]]; lia.
Qed.

Lemma string_leb_refl s : String.leb s s = true.
Proof. by destruct (String.leb_total s s). Qed.

Lemma string_leb_trans s1 s2 s3 :
  String.leb s1 s2 = true → String.leb s2 s3 = true → String.leb s1 s3 = true.
Proof.
  revert s2 s3. induction s1 as [|a1 s1 IH]; intros [|a2 s2] [|a3 s3]; try done.
  rewrite !string_leb_cons. intros [?|[-> ?]] [?|[-> ?]]; eauto; left; lia.
Qed.

Definition string_le (s1 s2 : string) : Prop := String.leb s1 s2 = true.

Section Sorting.
Context {A : Type} (leb : A → A → bool).

Fixpoint insert_sorted (x : A) (l : list A) : list A :=
  match l with
  | [] => [x]
  | y :: l' => if leb x y then x :: l else y :: insert_sorted x l'
  end.

(** [sorted]: stable, since each element goes before the equal ones that
    followed it. *)
Fixpoint isort (l : list A) : list A :=
  match l with
  | [] => []
  | x :: l' => insert_sorted x (isort l')
  end.

Definition lebR (x y : A) : Prop := leb x y = true.

Lemma insert_sorted_Permutation x l : insert_sorted x l ≡ₚ x :: l.
Proof.
  induction l as [|y l IH]; simpl; [done|]. destruct (leb x y); [done|].
  rewrite IH. constructor.
Qed.

Lemma isort_Permutation l : isort l ≡ₚ l.
Proof.
  induction l as [|x l IH]; simpl; [done|].
  by rewrite insert_sorted_Permutation, IH.
Qed.

Lemma length_isort l : length (isort l) = length l.
Proof. by rewrite isort_Permutation. Qed.

Lemma elem_of_isort x l : x ∈ isort l ↔ x ∈ l.
Proof. by rewrite isort_Permutation. Qed.

Hypothesis leb_total : ∀ x y, leb x y = true ∨ leb y x = true.
Hypothesis leb_trans : ∀ x y z, leb x y = true → leb y z = true → leb x z = true.

Lemma insert_sorted_StronglySorted x l :
  StronglySorted lebR l → StronglySorted lebR (insert_sorted x l).
Proof.
  induction 1 as [|y l Hl IH Hy]; simpl; [by repeat constructor|].
  destruct (leb x y) eqn:E.
  - constructor; [by constructor|]. constructor; [done|].
    eapply Forall_impl; [exact Hy|]. intros z Hz. by eapply leb_trans.
  - constructor; [done|]. rewrite insert_sorted_Permutation.
    constructor; [|done]. destruct (leb_total x y) as [?|?]; [congruence|done].
Qed.

Lemma isort_StronglySorted l : StronglySorted lebR (isort l).
Proof. induction l; simpl; [constructor|by apply insert_sorted_StronglySorted]. Qed.

Lemma insert_sorted_head x l :
  Forall (λ y, leb x y = true) l → insert_sorted x l = x :: l.
Proof. destruct l; simpl; [done|]. intros [E _]%Forall_cons. by rewrite E. Qed.

Lemma isort_sorted l : StronglySorted lebR l → isort l = l.
Proof.
  induction 1 as [|x l Hl IH Hx]; simpl; [done|]. rewrite IH.
  by apply insert_sorted_head.
Qed.

Lemma isort_idem l : isort (isort l) = isort l.
Proof. apply isort_sorted, isort_StronglySorted. Qed.

(** Stability: sorting a prefix first changes nothing, and sorting commutes
    with dropping elements. *)
Lemma insert_sorted_comm x y l :
  leb x y = false → insert_sorted y (insert_sorted x l) = insert_sorted x (insert_sorted y l).
Proof.
  intros Hxy. assert (leb y x = true) as Hyx
    by (destruct (leb_total x y); congruence).
  induction l as [|z l IH]; simpl; [by rewrite Hyx, Hxy|].
  destruct (leb x z) eqn:Hxz; simpl.
  - assert (leb y z = true) as -> by eauto. simpl. by rewrite Hyx, Hxy, Hxz.
  - destruct (leb y z) eqn:Hyz; simpl; rewrite ?Hxy, ?Hxz; congruence.
Qed.

Lemma isort_app l r : isort (l ++ r) = foldr insert_sorted (isort r) l.
Proof. induction l; simpl; congruence. Qed.

Lemma foldr_insert_sorted x l r :
  foldr insert_sorted r (insert_sorted x l) = insert_sorted x (foldr insert_sorted r l).
Proof.
  induction l as [|y l IH]; simpl; [done|]. destruct (leb x y) eqn:E; simpl; [done|].
  by rewrite IH, insert_sorted_comm.
Qed.

Lemma isort_isort_app l r : isort (isort l ++ r) = isort (l ++ r).
Proof.
  rewrite !isort_app. induction l as [|x l IH]; simpl; [done|].
  by rewrite foldr_insert_sorted, IH.
Qed.

Lemma filter_insert_sorted (P : A → Prop) `{∀ x, Decision (P x)} x l :
  StronglySorted lebR l →
  filter P (insert_sorted x l) =
  if decide (P x) then insert_sorted x (filter P l) else filter P l.
Proof.
  induction 1 as [|y l Hl IH Hy]; simpl.
  - rewrite filter_cons. by case_decide.
  - destruct (leb x y) eqn:E.
    + rewrite !filter_cons. repeat case_decide; try done; simpl.
      * by rewrite E.
      * rewrite insert_sorted_head; [done|]. apply Forall_forall.
        intros z [_ Hz]%list_elem_of_filter. rewrite Forall_forall in Hy.
        eapply leb_trans; [exact E|]. by apply Hy.
    + rewrite !filter_cons, IH. repeat case_decide; try done. simpl. by rewrite E.
Qed.

Lemma filter_isort (P : A → Prop) `{∀ x, Decision (P x)} (l : list A) :
  filter P (isort l) = isort (filter P l).
Proof.
  induction l as [|x l IH]; simpl; [done|].
  rewrite filter_insert_sorted by apply isort_StronglySorted.
  rewrite filter_cons, IH. by case_decide.
Qed.

(** Two stable sorts that agree on each class of equal keys agree: here, when
    no two distinct elements have equal keys. *)
Lemma sorted_unique l1 l2 :
  (∀ x y, x ∈ l1 → y ∈ l1 → leb x y = true → leb y x = true → x = y) →
  StronglySorted lebR l1 → StronglySorted lebR l2 → l1 ≡ₚ l2 → l1 = l2.
Proof.
  intros Hanti H1. revert l2. induction H1 as [|x l1 H1 IH Hx]; intros l2 H2 Hp.
  - by apply Permutation_nil in Hp.
  - destruct H2 as [|y l2 H2 Hy]; [by symmetry in Hp; apply Permutation_nil_cons in Hp|].
    assert (x = y) as <-.
    { assert (y ∈ x :: l1) as Hyin by (rewrite Hp; left).
      assert (x ∈ y :: l2) as Hxin by (rewrite <-Hp; left).
      apply elem_of_cons in Hxin as [->|Hxin]; [done|].
      apply elem_of_cons in Hyin as [->|Hyin]; [done|].
      rewrite Forall_forall in Hx, Hy. apply Hanti; [left|by right|..].
      - by apply Hx.
      - by apply Hy. }
    f_equal. apply IH; [|done|].
    + intros a b ??. apply Hanti; by right.
    + by apply Permutation_cons_inv in Hp.
Qed.
End Sorting.

(** Sorting commutes with a map that keeps the order. *)
Lemma isort_map {A B} (leb : A → A → bool) (leb' : B → B → bool) (h : A → B) l :
  (∀ x y, leb' (h x) (h y) = leb x y) → isort leb' (h <$> l) = h <$> isort leb l.
Proof.
  intros Hh. assert (∀ x l', insert_sorted leb' (h x) (h <$> l') = h <$> insert_sorted leb x l') as E.
  { intros x l'. induction l' as [|y l' IH]; [done|]. rewrite fmap_cons. cbn [insert_sorted]. rewrite Hh.
    destruct (leb x y); [done|]. by rewrite fmap_cons, IH. }
  induction l as [|x l IH]; [done|]. rewrite fmap_cons. cbn [isort]. by rewrite IH, E.
Qed.
