(* ===== verification/Hoare.v ===== *)
(** * Pre- and postconditions

    [hoare P m Q R]: run at a state of [P], [m] returns with [Q] or raises with
    [R]. The rules read a computation from its first statement on. *)

From S2P Require Import Prelude.
From stdpp Require Import base tactics relations list.

Section Hoare.
Context {S E : Type}.
Implicit Types (P : S → Prop) (R : E → S → Prop).

Definition hoare {A} (P : S → Prop) (m : M S E A) (Q : A → S → Prop) (R : E → S → Prop) : Prop :=
  ∀ s, P s → match m s with (Ok a, s') => Q a s' | (Err e, s') => R e s' end.

Lemma hoare_bind {A B} P (m : M S E A) (k : A → M S E B) Q' Q R :
  hoare P m Q' R → (∀ a, hoare (Q' a) (k a) Q R) → hoare P (m ≫= k) Q R.
Proof. intros Hm Hk s Hs. unfold mbind, M_bind. specialize (Hm s Hs). destruct (m s) as [[a|e] s1]; [by apply Hk|done]. Qed.

Lemma hoare_conseq {A} (P P' : S → Prop) (m : M S E A) (Q Q' : A → S → Prop) (R R' : E → S → Prop) :
  hoare P' m Q' R' → (∀ s, P s → P' s) → (∀ a s, Q' a s → Q a s) → (∀ e s, R' e s → R e s) → hoare P m Q R.
Proof. intros H HP HQ HR s Hs. specialize (H s (HP s Hs)). destruct (m s) as [[a|e] s1]; auto. Qed.

Lemma hoare_ret {A} (a : A) P (Q : A → S → Prop) R : (∀ s, P s → Q a s) → hoare P (mret a) Q R.
Proof. intros H s Hs. by apply H. Qed.
Lemma hoare_raise {A} e P (Q : A → S → Prop) R : (∀ s, P s → R e s) → hoare P (raise e) Q R.
Proof. intros H s Hs. by apply H. Qed.
Lemma hoare_raise_if c e P (Q : () → S → Prop) R :
  (∀ s, c = true → P s → R e s) → (∀ s, c = false → P s → Q tt s) → hoare P (raise_if c e) Q R.
Proof. intros H1 H2 s Hs. unfold raise_if. destruct c; auto. Qed.
Lemma hoare_gets {A} (f : S → A) P (Q : A → S → Prop) R : (∀ s, P s → Q (f s) s) → hoare P (gets f) Q R.
Proof. intros H s Hs. by apply H. Qed.
Lemma hoare_modify f P (Q : () → S → Prop) R : (∀ s, P s → Q tt (f s)) → hoare P (modify f) Q R.
Proof. intros H s Hs. by apply H. Qed.
Lemma hoare_lift {A} (r : result E A) P (Q : A → S → Prop) R :
  (∀ a s, r = Ok a → P s → Q a s) → (∀ e s, r = Err e → P s → R e s) → hoare P (lift r) Q R.
Proof. intros H1 H2 s Hs. unfold lift. destruct r; auto. Qed.
(** The value of a pure computation, remembered. *)
Lemma hoare_lift_eq {A} (r : result E A) P R :
  (∀ e s, r = Err e → P s → R e s) → hoare P (lift r) (λ a s, r = Ok a ∧ P s) R.
Proof. intros H. by apply hoare_lift. Qed.
Lemma hoare_pure {A} (φ : Prop) P (m : M S E A) Q R : (φ → hoare P m Q R) → hoare (λ s, φ ∧ P s) m Q R.
Proof. intros H s [Hφ Hs]. by apply H. Qed.
Lemma hoare_require {A} (o : option A) e P (Q : A → S → Prop) R :
  (∀ a s, o = Some a → P s → Q a s) → (∀ s, o = None → P s → R e s) → hoare P (require o e) Q R.
Proof. intros H1 H2 s Hs. destruct o; [by apply H1|by apply H2]. Qed.
Lemma hoare_catch {A} P (m : M S E A) h Q R' R :
  hoare P m Q R' → (∀ e, hoare (R' e) (h e) Q R) → hoare P (catch m h) Q R.
Proof. intros Hm Hh s Hs. unfold catch. specialize (Hm s Hs). destruct (m s) as [[a|e] s1]; [done|by apply Hh]. Qed.
Lemma hoare_if {A} (c : bool) P (m1 m2 : M S E A) Q R :
  (c = true → hoare P m1 Q R) → (c = false → hoare P m2 Q R) → hoare P (if c then m1 else m2) Q R.
Proof. destruct c; auto. Qed.

(** A computation that moves the state only as a relation [P] is closed under. *)
Lemma hoare_moves {A} (T : relation S) P (m : M S E A) :
  (∀ s s', P s → T s s' → P s') → (∀ s, moves T m s) → hoare P m (λ _, P) (λ _, P).
Proof.
  intros HP Hm s Hs. specialize (Hm s). unfold moves in Hm. destruct (m s) as [[a|e] s1]; by eapply HP.
Qed.

Lemma hoare_run {A} P (m : M S E A) Q R s r s' :
  hoare P m Q R → P s → m s = (r, s') → match r with Ok a => Q a s' | Err e => R e s' end.
Proof. intros H Hs E1. specialize (H s Hs). by rewrite E1 in H. Qed.

(** [m] with its exception as a value. *)
Definition attempt {A} (m : M S E A) : M S E (result E A) := λ s, let '(r, s') := m s in (Ok r, s').

Lemma attempt_Ok {A} (m : M S E A) s r s' : attempt m s = (Ok r, s') → m s = (r, s').
Proof. unfold attempt. destruct (m s). naive_solver. Qed.
Lemma attempt_returns {A} (m : M S E A) s e s' : attempt m s = (Err e, s') → False.
Proof. unfold attempt. by destruct (m s). Qed.
Lemma attempt_moves {A} (T : relation S) (m : M S E A) s : moves T m s → moves T (attempt m) s.
Proof. unfold moves, attempt. by destruct (m s). Qed.
Lemma hoare_attempt {A} P (m : M S E A) (Q : result E A → S → Prop) R :
  hoare P m (λ a, Q (Ok a)) (λ e, Q (Err e)) → hoare P (attempt m) Q R.
Proof. intros H s Hs. unfold attempt. specialize (H s Hs). by destruct (m s) as [[]]. Qed.

Lemma finally_cases {A} (m : M S E A) f s r s' : finally m f s = (r, s') → ∃ s1, m s = (r, s1) ∧ s' = f s1.
Proof. unfold finally. destruct (m s) as [r1 s1]. intros [= <- <-]. eauto. Qed.
End Hoare.
