(* ===== verification/PyValue.v ===== *)
(** * Python and JSON values

    The values that cross NetBox Sync's boundaries: JSON objects read from
    NetBox, PostgreSQL JSONB columns and request payloads. A [dict] keeps its
    insertion order, and [py_eqb] is Python's [==] on such values (order of keys
    irrelevant, [True == 1]). A [str] is a Rocq string whose characters are the
    code points U+0000 to U+00FF; numbers are the integers. *)

From S2P Require Import Prelude.
From stdpp Require Import base list strings pretty.
From Stdlib Require Import ZArith Lia Ascii.
Local Open Scope string_scope.

Inductive pyval : Type :=
| PNone
| PBool (b : bool)
| PInt (z : Z)
| PStr (s : string)
| PList (l : list pyval)
| PDict (d : list (string * pyval)).

Abbreviation pydict := (list (string * pyval)).

(** ** Induction and decidable equality *)

Section PyvalInd.
Context (P : pyval → Prop).
Hypothesis HNone : P PNone.
Hypothesis HBool : ∀ b, P (PBool b).
Hypothesis HInt : ∀ z, P (PInt z).
Hypothesis HStr : ∀ s, P (PStr s).
Hypothesis HList : ∀ l, Forall P l → P (PList l).
Hypothesis HDict : ∀ d, Forall (λ kv, P kv.2) d → P (PDict d).

Fixpoint pyval_ind' (v : pyval) : P v :=
  match v with
  | PNone => HNone
  | PBool b => HBool b
  | PInt z => HInt z
  | PStr s => HStr s
  | PList l => HList l ((fix go l : Forall P l :=
      match l with
      | [] => Forall_nil_2 P
      | x :: l' => Forall_cons_2 P x l' (pyval_ind' x) (go l')
      end) l)
  | PDict d => HDict d ((fix go d : Forall (λ kv, P kv.2) d :=
      match d with
      | [] => Forall_nil_2 (λ kv, P kv.2)
      | (k, x) :: d' => Forall_cons_2 (λ kv : string * pyval, P kv.2) (k, x) d' (pyval_ind' x) (go d')
      end) d)
  end.
End PyvalInd.

#[global] Instance pyval_eq_dec : EqDecision pyval.
Proof.
  refine (fix go (v w : pyval) : Decision (v = w) :=
    match v, w with
    | PNone, PNone => left eq_refl
    | PBool b, PBool c => cast_if (decide (b = c))
    | PInt b, PInt c => cast_if (decide (b = c))
    | PStr b, PStr c => cast_if (decide (b = c))
    | PList b, PList c => cast_if (@list_eq_dec _ go b c)
    | PDict b, PDict c => cast_if (@list_eq_dec _ (@prod_eq_dec _ _ _ go) b c)
    | _, _ => right _
    end); clear go; abstract congruence.
Defined.

(** ** Dictionaries *)

(** [d.get(k)] with [None] where the key is absent; [dlookup] tells the two
    apart, as [d[k]] does. *)
Fixpoint dlookup (k : string) (d : pydict) : option pyval :=
  match d with
  | [] => None
  | (k', v) :: d' => if bool_decide (k = k') then Some v else dlookup k d'
  end.

Definition dget (k : string) (d : pydict) : pyval := default PNone (dlookup k d).

(** [d[k] = v]: an existing key keeps its position. *)
Fixpoint dset (k : string) (v : pyval) (d : pydict) : pydict :=
  match d with
  | [] => [(k, v)]
  | (k', v') :: d' => if bool_decide (k = k') then (k', v) :: d' else (k', v') :: dset k v d'
  end.

(** [d.update(e)]. *)
Definition dupdate (d e : pydict) : pydict := foldl (λ acc kv, dset kv.1 kv.2 acc) d e.

(** [d.pop(k, None)]. *)
Definition dpop (k : string) (d : pydict) : pydict := filter (λ kv, kv.1 ≠ k) d.

Definition dkeys (d : pydict) : list string := d.*1.

(** [v.get(k)] for a [v] known to be a [dict]; on another value Python raises
    AttributeError, which [py_get] leaves to its callers' [isinstance] checks. *)
Definition py_get (k : string) (v : pyval) : pyval :=
  match v with PDict d => dget k d | _ => PNone end.

(** [v.get(k)], [v.get(k, dflt)] and [v[k]], with the exception Python raises
    where [v] is not a [dict] or has no such key. *)
Definition attr_get (k : string) (v : pyval) : result exn pyval :=
  match v with PDict d => Ok (dget k d) | _ => Err (OtherException "AttributeError" None) end.
Definition attr_get_or (k : string) (dflt : pyval) (v : pyval) : result exn pyval :=
  match v with PDict d => Ok (default dflt (dlookup k d)) | _ => Err (OtherException "AttributeError" None) end.
Definition py_item (k : string) (v : pyval) : result exn pyval :=
  match v with
  | PDict d => match dlookup k d with Some x => Ok x | None => Err (KeyError k) end
  | _ => Err (TypeError "indices must be integers")
  end.

(** [for item in v]. *)
Fixpoint chars (s : string) : list pyval :=
  match s with EmptyString => [] | String c s' => PStr (String c "") :: chars s' end.
Definition py_iter (v : pyval) : result exn (list pyval) :=
  match v with
  | PList l => Ok l
  | PDict d => Ok (PStr <$> dkeys d)
  | PStr s => Ok (chars s)
  | _ => Err (TypeError "object is not iterable")
  end.

Lemma dlookup_dset k v d k' :
  dlookup k' (dset k v d) = if decide (k' = k) then Some v else dlookup k' d.
Proof.
  induction d as [|[k1 v1] d IH]; simpl.
  - repeat case_bool_decide; case_decide; congruence.
  - repeat case_bool_decide; simpl; repeat case_bool_decide; subst; try rewrite IH;
      repeat case_decide; congruence.
Qed.

Lemma dget_dset_eq k v d : dget k (dset k v d) = v.
Proof. unfold dget. rewrite dlookup_dset, decide_True; done. Qed.

Lemma dget_dset_ne k k' v d : k' ≠ k → dget k' (dset k v d) = dget k' d.
Proof. intros. unfold dget. rewrite dlookup_dset, decide_False; done. Qed.

Lemma dlookup_dupdate_ne k d e :
  k ∉ dkeys e → dlookup k (dupdate d e) = dlookup k d.
Proof.
  unfold dupdate. revert d. induction e as [|[k1 v1] e IH]; intros d Hk; simpl; [done|].
  unfold dkeys in *. simpl in Hk. apply not_elem_of_cons in Hk as [? ?].
  rewrite IH by done. rewrite dlookup_dset, decide_False; done.
Qed.

(** ** Truth, equality *)

Definition truthy (v : pyval) : bool :=
  match v with
  | PNone => false
  | PBool b => b
  | PInt z => negb (Z.eqb z 0)
  | PStr s => negb (bool_decide (s = ""))
  | PList l => negb (bool_decide (l = []))
  | PDict d => negb (bool_decide (d = []))
  end.

Definition is_str (v : pyval) : bool := match v with PStr _ => true | _ => false end.
Definition is_dict (v : pyval) : bool := match v with PDict _ => true | _ => false end.
Definition is_list (v : pyval) : bool := match v with PList _ => true | _ => false end.
(** [type(v) is bool], [type(v) is int] and [v is True]. *)
Definition is_bool (v : pyval) : bool := match v with PBool _ => true | _ => false end.
Definition is_int (v : pyval) : bool := match v with PInt _ => true | _ => false end.
Definition is_True (v : pyval) : bool := match v with PBool true => true | _ => false end.

(** The integer a number denotes: [bool] is a subclass of [int]. *)
Definition as_number (v : pyval) : option Z :=
  match v with
  | PInt z => Some z
  | PBool b => Some (if b then 1 else 0)%Z
  | _ => None
  end.

Fixpoint py_eqb (v w : pyval) {struct v} : bool :=
  match v, w with
  | PNone, PNone => true
  | PStr a, PStr b => bool_decide (a = b)
  | PList a, PList b =>
      (fix go (a b : list pyval) :=
         match a, b with
         | [], [] => true
         | x :: a', y :: b' => py_eqb x y && go a' b'
         | _, _ => false
         end) a b
  | PDict a, PDict b =>
      Nat.eqb (length a) (length b) &&
      (fix go (a : pydict) :=
         match a with
         | [] => true
         | (k, x) :: a' =>
             match dlookup k b with Some y => py_eqb x y | None => false end && go a'
         end) a
  | (PInt _ | PBool _), (PInt _ | PBool _) => bool_decide (as_number v = as_number w)
  | _, _ => false
  end.

(** [v < w]: texts, numbers, and lists by their first difference. *)
Fixpoint py_ltb (v w : pyval) {struct v} : result exn bool :=
  match v, w with
  | PStr a, PStr b => Ok (negb (String.leb b a))
  | (PInt _ | PBool _), (PInt _ | PBool _) =>
      match as_number v, as_number w with Some a, Some b => Ok (a <? b)%Z | _, _ => Err (TypeError "not supported") end
  | PList a, PList b =>
      (fix go (a b : list pyval) : result exn bool :=
         match a, b with
         | _, [] => Ok false
         | [], _ :: _ => Ok true
         | x :: a', y :: b' => if py_eqb x y then go a' b' else py_ltb x y
         end) a b
  | _, _ => Err (TypeError "not supported")
  end.

Fixpoint py_insert (x : pyval) (l : list pyval) : result exn (list pyval) :=
  match l with
  | [] => Ok [x]
  | y :: l' => less ← py_ltb y x; if (less : bool) then rest ← py_insert x l'; Ok (y :: rest) else Ok (x :: y :: l')
  end.
(** [sorted(l)]. *)
Fixpoint py_sorted (l : list pyval) : result exn (list pyval) :=
  match l with [] => Ok [] | x :: l' => rest ← py_sorted l'; py_insert x rest end.

(** [sorted(l, key=key)]: stable. *)
Fixpoint py_insert_by {A} (key : A → pyval) (x : A) (l : list A) : result exn (list A) :=
  match l with
  | [] => Ok [x]
  | y :: l' => less ← py_ltb (key y) (key x); if (less : bool) then rest ← py_insert_by key x l'; Ok (y :: rest) else Ok (x :: y :: l')
  end.
Fixpoint py_sorted_by {A} (key : A → pyval) (l : list A) : result exn (list A) :=
  match l with [] => Ok [] | x :: l' => rest ← py_sorted_by key l'; py_insert_by key x rest end.

(** Well-formed values: a dictionary has no key twice, at any depth. *)
Fixpoint wf_pyval (v : pyval) : Prop :=
  match v with
  | PList l => (fix go l := match l with [] => True | x :: l' => wf_pyval x ∧ go l' end) l
  | PDict d => NoDup (dkeys d) ∧
      (fix go (d : pydict) := match d with [] => True | (_, x) :: d' => wf_pyval x ∧ go d' end) d
  | _ => True
  end.

(** A test for it, for concrete values. *)
Fixpoint wf_pyvalb (v : pyval) : bool :=
  match v with
  | PList l => (fix go l := match l with [] => true | x :: l' => wf_pyvalb x && go l' end) l
  | PDict d => bool_decide (NoDup (dkeys d)) &&
      (fix go (d : pydict) := match d with [] => true | (_, x) :: d' => wf_pyvalb x && go d' end) d
  | _ => true
  end.
Lemma wf_pyvalb_sound v : wf_pyvalb v = true → wf_pyval v.
Proof.
  induction v as [| | | |l IH|d IH] using pyval_ind'; try done.
  - cbn [wf_pyvalb wf_pyval]. induction IH as [|x l Hx _ IHl]; [done|]. intros [H1 H2]%andb_prop. split; [by apply Hx|by apply IHl].
  - cbn [wf_pyvalb wf_pyval]. intros [Hnd%bool_decide_eq_true Hd]%andb_prop. split; [done|]. clear Hnd.
    induction IH as [|[k x] d Hx _ IHd]; [done|]. simpl in Hx. apply andb_prop in Hd as [H1 H2]. split; [by apply Hx|by apply IHd].
Qed.

Lemma dlookup_elem k v d : dlookup k d = Some v → (k, v) ∈ d.
Proof.
  induction d as [|[k1 v1] d IH]; [done|]. cbn [dlookup]. case_bool_decide as E; [subst; intros [= ->]; left|]. right. by apply IH.
Qed.

Lemma dlookup_NoDup k v d : NoDup (dkeys d) → (k, v) ∈ d → dlookup k d = Some v.
Proof.
  induction d as [|[k1 v1] d IH]; intros Hd Hin; [by apply elem_of_nil in Hin|].
  unfold dkeys in *. simpl in *. apply NoDup_cons in Hd as [Hk1 Hd].
  case_bool_decide; subst.
  - apply elem_of_cons in Hin as [[= <-]|Hin]; [done|].
    destruct Hk1. apply list_elem_of_fmap. by exists (k1, v).
  - apply elem_of_cons in Hin as [[= <- <-]|Hin]; [done|]. by apply IH.
Qed.

Lemma dlookup_dpop k k' d : dlookup k' (dpop k d) = if decide (k' = k) then None else dlookup k' d.
Proof.
  unfold dpop. induction d as [|[j v] d IH]; [by case_decide|]. rewrite filter_cons. simpl. destruct (decide (j ≠ k)) as [Hj|Hj].
  - simpl. case_bool_decide; [subst; by rewrite decide_False|exact IH].
  - apply dec_stable in Hj as ->. rewrite IH. case_decide; [done|]. by rewrite bool_decide_eq_false_2.
Qed.

Lemma dlookup_dupdate k d e : NoDup (dkeys e) → dlookup k (dupdate d e) = match dlookup k e with Some v => Some v | None => dlookup k d end.
Proof.
  unfold dupdate. revert d. induction e as [|[k1 v1] e IH]; intros d Hnd; [done|]. unfold dkeys in Hnd. simpl in Hnd.
  apply NoDup_cons in Hnd as [Hk Hnd]. cbn [foldl dlookup fst snd]. rewrite IH by done. rewrite dlookup_dset.
  destruct (decide (k = k1)) as [->|]; [|by rewrite bool_decide_eq_false_2]. rewrite bool_decide_eq_true_2 by done.
  destruct (dlookup k1 e) as [v|] eqn:E; [|done]. destruct Hk. apply dlookup_elem in E. apply list_elem_of_fmap. by exists (k1, v).
Qed.

Lemma dset_dset k v w d : dset k v (dset k w d) = dset k v d.
Proof. induction d as [|[k1 u] d IH]; simpl; repeat case_bool_decide; simpl; rewrite ?bool_decide_eq_true_2 by done; try done.
  - by rewrite bool_decide_eq_false_2, IH.
Qed.
Lemma elem_of_dkeys_dset k v d k' : k' ∈ dkeys (dset k v d) ↔ k' = k ∨ k' ∈ dkeys d.
Proof.
  unfold dkeys. induction d as [|[k1 u] d IH]; cbn [dset]; [by rewrite fmap_cons, elem_of_cons|].
  case_bool_decide as E; rewrite !fmap_cons, !elem_of_cons; simpl; [subst; naive_solver|]. rewrite IH. naive_solver.
Qed.
Lemma NoDup_dset k v d : NoDup (dkeys d) → NoDup (dkeys (dset k v d)).
Proof.
  unfold dkeys. induction d as [|[k1 u] d IH]; [intros _; apply NoDup_singleton|]. cbn [dset]. rewrite fmap_cons. intros [H1 H2]%NoDup_cons.
  case_bool_decide; rewrite fmap_cons; constructor; [subst; exact H1|exact H2| |by apply IH].
  intros Hin. fold (dkeys (dset k v d)) in Hin. apply elem_of_dkeys_dset in Hin as [Hin|Hin]; [simpl in *; congruence|by apply H1].
Qed.
Lemma NoDup_dupdate d e : NoDup (dkeys d) → NoDup (dkeys (dupdate d e)).
Proof. unfold dupdate. revert d. induction e as [|[k v] e IH]; intros d Hd; [done|]. apply IH. by apply NoDup_dset. Qed.

Lemma dkeys_dset k v d w : dlookup k d = Some w → dkeys (dset k v d) = dkeys d.
Proof.
  induction d as [|[k1 u] d IH]; [done|]. cbn [dlookup dset]. case_bool_decide; [by subst|]. intros Hk. exact (f_equal (cons k1) (IH Hk)).
Qed.

Lemma wf_dset k v d : wf_pyval v → wf_pyval (PDict d) → wf_pyval (PDict (dset k v d)).
Proof.
  intros Hv. cbn [wf_pyval]. intros [Hnd Hd]. split.
  - clear Hd. induction d as [|[k1 u] d IH]; [apply NoDup_singleton|]. cbn [dset]. unfold dkeys in *. simpl in Hnd.
    apply NoDup_cons in Hnd as [Hk Hnd]. case_bool_decide as E; [by constructor|]. simpl. constructor; [|by apply IH].
    intros Hin. apply Hk. clear -Hin E. induction d as [|[k2 w] d IH]; simpl in *.
    + apply list_elem_of_singleton in Hin. congruence.
    + revert Hin. case_bool_decide; subst; simpl; [done|]. rewrite !elem_of_cons. naive_solver.
  - clear Hnd. induction d as [|[k1 u] d IH]; [by split|]. cbn [dset]. destruct Hd as [Hu Hd]. case_bool_decide; [exact (conj Hv Hd)|exact (conj Hu (IH Hd))].
Qed.

Lemma py_eqb_refl v : wf_pyval v → py_eqb v v = true.
Proof.
  induction v as [|b|z|s|l IH|d IH] using pyval_ind'; intros Hwf; simpl;
    try done; try by rewrite bool_decide_true.
  - simpl in Hwf. induction IH as [|x l Hx _ IHl]; [done|]. destruct Hwf.
    rewrite Hx by done. by apply IHl.
  - rewrite Nat.eqb_refl. simpl. destruct Hwf as [Hnd Hwf].
    enough (∀ e, (∀ kv, kv ∈ e → kv ∈ d) →
      (fix go (e : pydict) := match e with [] => True | (_, x) :: e' => wf_pyval x ∧ go e' end) e →
      Forall (λ kv : string * pyval, wf_pyval kv.2 → py_eqb kv.2 kv.2 = true) e →
      (fix go (a : pydict) := match a with [] => true | (k, x) :: a' =>
         match dlookup k d with Some y => py_eqb x y | None => false end && go a' end) e = true)
      as Hgo by (by apply Hgo).
    induction e as [|[k x] e IHe]; intros Hsub Hwe He; [done|].
    destruct Hwe as [Hwx Hwe]. apply Forall_cons in He as [Hx He]. simpl in Hx.
    rewrite (dlookup_NoDup k x d) by (done || apply Hsub; left).
    rewrite Hx by done. apply IHe; try done. intros. apply Hsub. by right.
Qed.

(** ** Text *)

(** [str.isspace] on the Latin-1 code points. *)
Definition is_space (c : ascii) : bool :=
  let n := nat_of_ascii c in
  (Nat.leb 9 n && Nat.leb n 13) || (Nat.leb 28 n && Nat.leb n 32) || Nat.eqb n 133 || Nat.eqb n 160.

Fixpoint all_chars (p : ascii → bool) (s : string) : bool :=
  match s with EmptyString => true | String c s' => p c && all_chars p s' end.

(** [not value.strip()]. *)
Definition blank (s : string) : bool := all_chars is_space s.

Definition in_range (lo hi c : ascii) : bool :=
  Nat.leb (nat_of_ascii lo) (nat_of_ascii c) && Nat.leb (nat_of_ascii c) (nat_of_ascii hi).
Definition is_lower (c : ascii) : bool := in_range "a" "z" c.
Definition is_upper (c : ascii) : bool := in_range "A" "Z" c.
Definition is_digit (c : ascii) : bool := in_range "0" "9" c.
Definition one_of (cs : string) (c : ascii) : bool :=
  (fix go cs := match cs with
                | EmptyString => false
                | String d cs' => bool_decide (c = d) || go cs'
                end) cs.

(** [[a-f0-9]{64}] as a full match. *)
Definition is_digest (s : string) : bool :=
  Nat.eqb (String.length s) 64 && all_chars (λ c, in_range "a" "f" c || is_digit c) s.

Fixpoint join (sep : string) (l : list string) : string :=
  match l with
  | [] => ""
  | [s] => s
  | s :: l' => s +:+ sep +:+ join sep l'
  end.

Definition hex_digit (n : nat) : ascii :=
  ascii_of_nat (if Nat.ltb n 10 then n + 48 else n + 87).
Definition hex2 (n : nat) : string :=
  String (hex_digit (Nat.div n 16)) (String (hex_digit (Nat.modulo n 16)) EmptyString).

Fixpoint concat_chars (f : ascii → string) (s : string) : string :=
  match s with EmptyString => "" | String c s' => f c +:+ concat_chars f s' end.

(** [s[:n]]. *)
Fixpoint take_chars (n : nat) (s : string) : string :=
  match n, s with S n', String c s' => String c (take_chars n' s') | _, _ => "" end.

Fixpoint has_char (d : ascii) (s : string) : bool :=
  match s with EmptyString => false | String c s' => bool_decide (c = d) || has_char d s' end.

Definition quote1 : ascii := "'"%char.
Definition quote2 : ascii := ascii_of_nat 34.
Definition backslash : ascii := ascii_of_nat 92.

(** [repr] of a [str]: double quotes only when the text has a single quote and
    no double one. *)
Definition repr_str (s : string) : string :=
  let q := if has_char quote1 s && negb (has_char quote2 s) then quote2 else quote1 in
  let esc (c : ascii) : string :=
    let n := nat_of_ascii c in
    if bool_decide (c = q) || bool_decide (c = backslash) then String backslash (String c "")
    else if Nat.eqb n 9 then String backslash "t"
    else if Nat.eqb n 10 then String backslash "n"
    else if Nat.eqb n 13 then String backslash "r"
    else if (Nat.leb 32 n && Nat.ltb n 127) || (Nat.leb 161 n && negb (Nat.eqb n 173)) then String c ""
    else String backslash ("x" +:+ hex2 n) in
  String q (concat_chars esc s +:+ String q "").

Fixpoint py_repr (v : pyval) : string :=
  match v with
  | PNone => "None"
  | PBool true => "True"
  | PBool false => "False"
  | PInt z => pretty z
  | PStr s => repr_str s
  | PList l => "[" +:+ join ", " (map py_repr l) +:+ "]"
  | PDict d => "{" +:+ join ", " (map (λ kv, repr_str kv.1 +:+ ": " +:+ py_repr kv.2) d) +:+ "}"
  end.

(** [str(v)]. *)
Definition py_str (v : pyval) : string :=
  match v with PStr s => s | _ => py_repr v end.

Definition key_leb (a b : string * pyval) : bool := String.leb a.1 b.1.

(** [repr(sorted(d.items()))]: the keys differ, so the values are never
    compared. *)
Definition repr_sorted_items (d : pydict) : string :=
  "[" +:+ join ", " (map (λ kv, "(" +:+ repr_str kv.1 +:+ ", " +:+ py_repr kv.2 +:+ ")") (isort key_leb d)) +:+ "]".

(** ** [json.dumps(..., sort_keys=True, ensure_ascii=True)] *)

Definition json_escape (c : ascii) : string :=
  let n := nat_of_ascii c in
  if bool_decide (c = quote2) || bool_decide (c = backslash) then String backslash (String c "")
  else if Nat.eqb n 8 then String backslash "b"
  else if Nat.eqb n 9 then String backslash "t"
  else if Nat.eqb n 10 then String backslash "n"
  else if Nat.eqb n 12 then String backslash "f"
  else if Nat.eqb n 13 then String backslash "r"
  else if Nat.leb 32 n && Nat.leb n 126 then String c ""
  else String backslash ("u00" +:+ hex2 n).
Definition json_string (s : string) : string :=
  String quote2 (concat_chars json_escape s +:+ String quote2 "").

(** The text with the given [separators]; the texts are rendered before the pairs
    are sorted, which the sort by key cannot tell. *)
Fixpoint json_with (sep colon : string) (v : pyval) : string :=
  match v with
  | PNone => "null"
  | PBool true => "true"
  | PBool false => "false"
  | PInt z => pretty z
  | PStr s => json_string s
  | PList l => "[" +:+ join sep (map (json_with sep colon) l) +:+ "]"
  | PDict d =>
      let rendered := map (λ kv, (kv.1, json_string kv.1 +:+ colon +:+ json_with sep colon kv.2)) d in
      "{" +:+ join sep (isort (λ a b : string * string, String.leb a.1 b.1) rendered).*2 +:+ "}"
  end.
(** [separators=(",", ":")], and the default ones. *)
Definition json_dumps : pyval → string := json_with "," ":".
Definition json_spaced : pyval → string := json_with ", " ": ".

Example json_dumps_ex :
  json_dumps (PDict [("b", PList [PInt (-3); PNone]); ("a", PStr "x/y")]) =
  "{" +:+ json_string "a" +:+ ":" +:+ json_string "x/y" +:+ "," +:+ json_string "b" +:+ ":[-3,null]}".
Proof. vm_compute. reflexivity. Qed.

(** ** JSON in PostgreSQL *)

(** The text [j ->> k] gives for a member: NULL for JSON null, a string without
    its quotes, and the JSON text of anything else. *)
Definition json_text (v : pyval) : option string :=
  match v with PNone => None | PStr s => Some s | _ => Some (json_dumps v) end.

(** [j -> k]: NULL when there is no such member. *)
Definition json_member (k : string) (v : pyval) : option pyval :=
  match v with PDict d => dlookup k d | _ => None end.
Definition json_member_text (k : string) (v : pyval) : option string := json_member k v ≫= json_text.

(** Equality of jsonb values, which tells booleans from numbers and ignores the
    order of keys: that of their canonical texts. *)
Definition jsonb_eqb (v w : pyval) : bool := bool_decide (json_dumps v = json_dumps w).
