(* ===== verification/JsonCanonical.v ===== *)
(** * Canonical JSON is injective

    Revisions, digests and fingerprints are hashes of
    [json.dumps(value, sort_keys=True, separators=(",", ":"))]. Two values have the
    same text exactly when they are the same up to the order of keys, so equal
    hashes without a collision mean equal content. *)

From S2P Require Import Prelude PyValue.
From stdpp Require Import base list strings pretty.
From Stdlib Require Import ZArith Lia Ascii.
Local Open Scope string_scope.

(** The value with its keys in order, at every depth. *)
Fixpoint canon (v : pyval) : pyval :=
  match v with
  | PList l => PList (map canon l)
  | PDict d => PDict (isort key_leb (map (λ kv, (kv.1, canon kv.2)) d))
  | _ => v
  end.

(** ** Concatenation *)

Lemma cons_append c (a b : string) : String c a +:+ b = String c (a +:+ b).
Proof. done. Qed.
Lemma nil_append (b : string) : "" +:+ b = b.
Proof. done. Qed.
Lemma string_app_assoc (a b c : string) : (a +:+ b) +:+ c = a +:+ (b +:+ c).
Proof. induction a as [|x a IH]; [done|]. exact (f_equal (String x) IH). Qed.

(** A run of characters of one class is told from what follows it. *)
Definition stops (p : ascii → bool) (r : string) : Prop := match r with EmptyString => True | String c _ => p c = false end.

Lemma run_split p a b r r' :
  all_chars p a = true → all_chars p b = true → stops p r → stops p r' → a +:+ r = b +:+ r' → a = b ∧ r = r'.
Proof.
  revert b. induction a as [|x a IH]; intros [|y b] Ha Hb Hr Hr' E; cbn [all_chars] in *; rewrite ?cons_append, ?nil_append in E.
  - done.
  - subst r. apply andb_true_iff in Hb as [Hy _]. simpl in Hr. congruence.
  - subst r'. apply andb_true_iff in Ha as [Hx _]. simpl in Hr'. congruence.
  - apply andb_true_iff in Ha as [_ Ha]. apply andb_true_iff in Hb as [_ Hb]. injection E as -> E.
    destruct (IH b Ha Hb Hr Hr' E) as [-> ->]. done.
Qed.

(** ** Numbers *)

Definition num_char (c : ascii) : bool := is_digit c || bool_decide (c = "-"%char).

Lemma pretty_N_go_num x s : all_chars num_char s = true → all_chars num_char (pretty_N_go x s) = true.
Proof.
  revert s. induction (N.lt_wf_0 x) as [x _ IH]; intros s Hs.
  destruct (decide (x = 0)%N) as [->|Hx]; [by rewrite pretty_N_go_0|].
  rewrite pretty_N_go_step by lia. apply IH; [apply N.div_lt; lia|]. cbn [all_chars]. rewrite Hs, andb_true_r.
  unfold pretty_N_char. by repeat case_match.
Qed.
Lemma pretty_num (z : Z) : all_chars num_char (pretty z) = true.
Proof.
  assert (∀ n : N, all_chars num_char (pretty n) = true) as H.
  { intros n. unfold pretty, pretty_N. case_decide; [done|]. by apply pretty_N_go_num. }
  unfold pretty, pretty_Z. destruct z; try done; apply H.
Qed.

(** ** Texts *)

(** The character an escape stands for, and the rest. *)
Definition hex_nibble (c : ascii) : nat := let n := nat_of_ascii c in if is_digit c then n - 48 else n - 87.
Definition unescape (s : string) : option (ascii * string) :=
  match s with
  | String c s' =>
      if bool_decide (c = quote2) then None
      else if bool_decide (c = backslash) then
        match s' with
        | String "b" t => Some (ascii_of_nat 8, t)
        | String "t" t => Some (ascii_of_nat 9, t)
        | String "n" t => Some (ascii_of_nat 10, t)
        | String "f" t => Some (ascii_of_nat 12, t)
        | String "r" t => Some (ascii_of_nat 13, t)
        | String "u" (String _ (String _ (String h (String l t)))) => Some (ascii_of_nat (16 * hex_nibble h + hex_nibble l), t)
        | String e t => Some (e, t)
        | EmptyString => None
        end
      else Some (c, s')
  | EmptyString => None
  end.

Lemma unescape_escape c r : unescape (json_escape c +:+ r) = Some (c, r).
Proof. destruct c as [[] [] [] [] [] [] [] []]; reflexivity. Qed.

Lemma json_string_split s t r r' : json_string s +:+ r = json_string t +:+ r' → s = t ∧ r = r'.
Proof.
  unfold json_string. rewrite !cons_append, !string_app_assoc. intros [= E]. revert t E.
  induction s as [|c s IH]; intros [|d t] E; cbn [concat_chars] in E; rewrite ?string_app_assoc, ?nil_append in E.
  - by injection E.
  - apply (f_equal unescape) in E. rewrite unescape_escape in E. done.
  - apply (f_equal unescape) in E. rewrite unescape_escape in E. done.
  - apply (f_equal unescape) in E. rewrite !unescape_escape in E. injection E as -> E. by destruct (IH t E) as [-> ->].
Qed.

(** ** Lists and dictionaries *)

Lemma append_inj_l (u a b : string) : u +:+ a = u +:+ b → a = b.
Proof. induction u as [|c u IH]; [done|]. rewrite !cons_append. intros [= E]. by apply IH. Qed.

Lemma join_cons sep x l r :
  PyValue.join sep (x :: l) +:+ r = x +:+ (match l with [] => r | _ => sep +:+ (PyValue.join sep l +:+ r) end).
Proof. destruct l; [done|]. cbn [PyValue.join]. by rewrite !string_app_assoc. Qed.

Definition head_of (s : string) : ascii := match s with String c _ => c | EmptyString => zero end.

(** Elements rendered by [f] and told apart up to [g]. *)
Definition tells {A B} (f : A → string) (g : A → B) (x : A) : Prop :=
  ∀ y r r', stops num_char r → stops num_char r' → f x +:+ r = f y +:+ r' → g x = g y ∧ r = r'.

(** The first character tells the kinds of values apart and is no closing bracket. *)
Definition opens (v : pyval) (c : ascii) : bool :=
  match v with
  | PNone => bool_decide (c = "n"%char)
  | PBool true => bool_decide (c = "t"%char)
  | PBool false => bool_decide (c = "f"%char)
  | PInt _ => num_char c
  | PStr _ => bool_decide (c = quote2)
  | PList _ => bool_decide (c = "["%char)
  | PDict _ => bool_decide (c = "{"%char)
  end.

Lemma pretty_nonempty (z : Z) : pretty z ≠ "".
Proof.
  assert (∀ x s, s ≠ "" → pretty_N_go x s ≠ "") as H.
  { intros x. induction (N.lt_wf_0 x) as [x _ IH]; intros s Hs. destruct (decide (x = 0)%N) as [->|Hx]; [by rewrite pretty_N_go_0|].
    rewrite pretty_N_go_step by lia. apply IH; [apply N.div_lt; lia|done]. }
  assert (∀ n : N, pretty n ≠ "") as Hn.
  { intros n. unfold pretty, pretty_N. case_decide; [done|]. rewrite pretty_N_go_step by lia. by apply H. }
  unfold pretty, pretty_Z. destruct z; try done; apply Hn.
Qed.

Definition alike (v w : pyval) : Prop :=
  match v, w with
  | PNone, PNone | PInt _, PInt _ | PStr _, PStr _ | PList _, PList _ | PDict _, PDict _ => True
  | PBool a, PBool b => a = b
  | _, _ => False
  end.
Lemma opens_same v w c : opens v c = true → opens w c = true → alike v w.
Proof.
  intros Hv Hw. destruct v as [|[]| | | |], w as [|[]| | | |]; try done; exfalso; cbn [opens] in Hv, Hw;
    (apply bool_decide_eq_true in Hv as -> || apply bool_decide_eq_true in Hw as ->); revert Hv Hw || revert Hv || revert Hw; vm_compute; done.
Qed.

Definition canon_pair (kv : string * pyval) : string * pyval := (kv.1, canon kv.2).
Lemma canon_dict d : canon (PDict d) = PDict (canon_pair <$> isort key_leb d).
Proof. cbn [canon]. f_equal. by apply (isort_map key_leb). Qed.

(** Any separator of elements that starts with a comma, any of keys. *)
Section Separators.
Context (sep_tail colon : string).
Abbreviation sep := (String "," sep_tail).
Abbreviation dumps := (json_with sep colon).

Lemma join_tells {A B} (f : A → string) (g : A → B) close l l' r r' :
  num_char close = false → close ≠ ","%char → (∀ y t, head_of (f y +:+ t) ≠ close) → Forall (tells f g) l →
  PyValue.join sep (f <$> l) +:+ String close r = PyValue.join sep (f <$> l') +:+ String close r' → g <$> l = g <$> l' ∧ r = r'.
Proof.
  intros Hnum Hcomma Hclose Hl. revert l'. induction Hl as [|x l Hx Hl IH]; intros [|y l'] E.
  - by injection E.
  - exfalso. rewrite fmap_cons, join_cons in E. cbn [PyValue.join fmap list_fmap] in E. rewrite nil_append in E.
    by apply (Hclose y _ (f_equal head_of (eq_sym E))).
  - exfalso. rewrite fmap_cons, join_cons in E. cbn [PyValue.join fmap list_fmap] in E. rewrite nil_append in E.
    by apply (Hclose x _ (f_equal head_of E)).
  - rewrite !fmap_cons, !join_cons in E. apply Hx in E as [Eg E].
    + rewrite !fmap_cons, Eg. destruct l as [|x1 l], l' as [|y1 l']; simpl in E; rewrite ?cons_append in E.
      * by injection E as ->.
      * injection E as E _. done.
      * injection E as E _. done.
      * injection E as E. apply append_inj_l in E. destruct (IH (y1 :: l') E) as [-> ->]. done.
    + destruct l; simpl; [done|reflexivity].
    + destruct l'; simpl; [done|reflexivity].
Qed.

Definition render_pair (kv : string * pyval) : string := json_string kv.1 +:+ colon +:+ dumps kv.2.

Lemma json_dict d : dumps (PDict d) = "{" +:+ PyValue.join sep (render_pair <$> isort key_leb d) +:+ "}".
Proof.
  cbn [json_with]. do 3 f_equal.
  change (map _ d) with ((λ kv : string * pyval, (kv.1, render_pair kv)) <$> d).
  rewrite (isort_map key_leb) by done. by rewrite <-list_fmap_compose.
Qed.

Lemma dumps_opens v r : ∃ c t, dumps v +:+ r = String c t ∧ opens v c = true.
Proof.
  destruct v as [|[]|z|s|l|d]; try (by eexists _, _).
  - pose proof (pretty_num z) as Hn. pose proof (pretty_nonempty z) as Hz. cbn [json_with]. destruct (pretty z) as [|c t]; [done|].
    exists c, (t +:+ r). split; [done|]. cbn [all_chars] in Hn. by apply andb_true_iff in Hn as [? _].
Qed.
Lemma dumps_head v t c : opens v c = false → head_of (dumps v +:+ t) ≠ c.
Proof. destruct (dumps_opens v t) as (d & u & -> & Hd). intros Hc E. simpl in E. congruence. Qed.

Lemma pair_tells kv : tells dumps canon kv.2 → tells render_pair canon_pair kv.
Proof.
  intros Hv [k w] r r' Hr Hr' E. unfold render_pair in E. rewrite !string_app_assoc in E.
  apply json_string_split in E as [Ek E]. apply append_inj_l in E. destruct (Hv w r r' Hr Hr' E) as [Ec ->].
  unfold canon_pair. by rewrite Ek, Ec.
Qed.

Lemma same_kind v w r r' : dumps v +:+ r = dumps w +:+ r' → alike v w.
Proof.
  intros E. destruct (dumps_opens v r) as (c & t & E1 & O1). destruct (dumps_opens w r') as (c' & t' & E2 & O2).
  rewrite E1, E2 in E. injection E as <- _. by apply (opens_same v w c).
Qed.

Lemma dumps_tells v : tells dumps canon v.
Proof.
  induction v as [|b|z|s|l IH|d IH] using pyval_ind'; intros w r r' Hr Hr' E;
    pose proof (same_kind _ _ _ _ E) as Hk; destruct w as [|b'|z'|s'|l'|d']; try done.
  - by injection E.
  - simpl in Hk. subst b'. split; [done|]. destruct b; by injection E.
  - apply (run_split num_char) in E as [E ->]; [|apply pretty_num|apply pretty_num|done|done].
    cbn [json_with] in E. by apply (inj (pretty (A := Z))) in E as ->.
  - apply json_string_split in E as [-> ->]. done.
  - cbn [json_with] in E. rewrite !string_app_assoc, !cons_append, !nil_append in E. injection E as E.
    change (map dumps) with (fmap (M := list) dumps) in E.
    apply (join_tells dumps canon) in E as [E ->]; [|done|done| |done].
    + split; [|done]. cbn [canon]. by f_equal.
    + intros y u. apply dumps_head. by destruct y as [|[]| | | |].
  - rewrite !json_dict in E. rewrite !string_app_assoc, !cons_append, !nil_append in E. injection E as E.
    apply (join_tells render_pair canon_pair) in E as [E ->]; [|done|done|by intros|].
    + split; [|done]. by rewrite !canon_dict, E.
    + rewrite isort_Permutation. eapply Forall_impl; [exact IH|]. apply pair_tells.
Qed.

(** The canonical form has the same text. *)
Lemma dumps_canon v : dumps (canon v) = dumps v.
Proof.
  induction v as [|b|z|s|l IH|d IH] using pyval_ind'; try done.
  - cbn [canon json_with]. do 2 f_equal. f_equal. induction IH as [|x l Hx _ IHl]; [done|]. simpl. by rewrite Hx, IHl.
  - rewrite canon_dict, !json_dict. do 3 f_equal.
    rewrite (isort_map key_leb key_leb canon_pair) by done.
    rewrite isort_idem by (unfold key_leb; intros; (apply String.leb_total || by eapply string_leb_trans)).
    rewrite <-list_fmap_compose. apply list_fmap_ext. intros i kv Hi. unfold compose, render_pair, canon_pair. simpl.
    do 2 f_equal. apply list_elem_of_lookup_2 in Hi. rewrite elem_of_isort in Hi. rewrite Forall_forall in IH. by apply IH.
Qed.

Lemma dumps_iff v w : dumps v = dumps w ↔ canon v = canon w.
Proof.
  split; intros E.
  - apply (dumps_tells v w "" ""); [done|done|]. by rewrite E.
  - by rewrite <-(dumps_canon v), E, dumps_canon.
Qed.
End Separators.

(** The canonical text determines the value and nothing but the order of keys is
    forgotten; the text with the default separators does as well. *)
Lemma json_canonical v w : json_dumps v = json_dumps w ↔ canon v = canon w.
Proof. apply dumps_iff. Qed.
Lemma json_spaced_canonical v w : json_spaced v = json_spaced w ↔ canon v = canon w.
Proof. apply dumps_iff. Qed.
