(* ===== verification/NetBox.v ===== *)
(** * NetBox as the executors see it

    The executors read lists of records and write through [create] and [update].
    NetBox itself is not part of the repository: [NetBoxApi] is the interface the
    code uses and [NetBoxLaws] what it relies on, that a read returns what is
    stored and that a successful write stores what was sent. A plain store shows
    that the laws can be met, and the helpers of netbox_record_values.py read the
    values of a record. *)

From S2P Require Import Prelude PyValue.
From stdpp Require Import base list strings gmap.
From Stdlib Require Import ZArith Lia.
Local Open Scope string_scope.

(** A record: its id and what [serialize()] gives. *)
Record nb_record := mkRec { rec_id : Z; rec_data : pydict }.
Definition field (k : string) (r : nb_record) : pyval := dget k (rec_data r).

(** [getattr(record, "custom_fields", None) or {}]. *)
Definition custom_fields (r : nb_record) : option pydict :=
  match field "custom_fields" r with PDict d => Some d | _ => None end.

(** [object_id] and [choice_value]. *)
Definition object_id (v : pyval) : pyval :=
  match v with
  | PInt _ | PBool _ => v
  | PDict d => dget "id" d
  | _ => PNone
  end.
Definition choice_value (v : pyval) : pyval :=
  match v with PDict d => dget "value" d | _ => v end.

Class NetBoxApi (W : Type) := {
  nb_all : string → M W exn (list nb_record);
  nb_filter : string → pydict → M W exn (list nb_record);
  nb_get : string → pydict → M W exn (option nb_record);
  nb_create : string → pydict → M W exn nb_record;
  nb_update : string → Z → pydict → M W exn unit }.

(** The stored records of an endpoint, by id. *)
Abbreviation table := (gmap Z pydict).
Definition records (t : table) : list nb_record := (λ e, mkRec e.1 e.2) <$> map_to_list t.

(** Two texts of a record that agree on every field but the id. *)
Definition reads_as (d e : pydict) : Prop := ∀ k, k ≠ "id" → dget k d = dget k e.
(** A record after [update(changes)]. *)
Definition updated (changes d d' : pydict) : Prop := reads_as d' (dupdate d changes).

(** A record after [create(fields)]: what was sent reads back, in the custom fields the
    keys that were sent, and a tenant that was not sent is not set. Every other field
    and custom field has a default of NetBox, which may be anything. *)
Definition created_as (d fields : pydict) : Prop :=
  (∀ k, k ∈ dkeys fields → k ∉ ["id"; "custom_fields"] → dget k d = dget k fields) ∧
  (∀ sent, dlookup "custom_fields" fields = Some (PDict sent) →
     ∃ cf, dget "custom_fields" d = PDict cf ∧ ∀ k, k ∈ dkeys sent → dlookup k cf = dlookup k sent) ∧
  ("tenant" ∉ dkeys fields → dget "tenant" d = PNone).

(** A new row for the given fields under an unused id, and a row with the given
    changes; every other row of every table is kept. *)
Definition kept_tables (e : string) (before after : string → table) : Prop := ∀ e', e' ≠ e → after e' = before e'.
Definition inserted (e : string) (fields : pydict) (i : Z) (before after : string → table) : Prop :=
  before e !! i = None ∧ (∃ data, created_as data fields ∧ after e = <[i := data]> (before e)) ∧ kept_tables e before after.
Definition patched (e : string) (changes : pydict) (i : Z) (before after : string → table) : Prop :=
  (∃ data data', before e !! i = Some data ∧ updated changes data data' ∧ after e = <[i := data']> (before e)) ∧ kept_tables e before after.

(** The machines of a cluster. *)
Definition in_cluster (cluster : Z) (r : nb_record) : Prop := py_eqb (object_id (field "cluster" r)) (PInt cluster) = true.
#[export] Instance in_cluster_dec cluster r : Decision (in_cluster cluster r).
Proof. unfold in_cluster. apply _. Defined.

(** Reads change nothing and return what is stored. A write that succeeds has
    stored what was sent; one that fails may have. The stored records have the
    fields a client can set: what NetBox computes of them, such as the URL or the
    time of the last change, is not part of them. *)
Class NetBoxLaws (W : Type) `{!NetBoxApi W} (contents : W → string → table) := {
  all_reads e w r w' : nb_all e w = (r, w') → contents w' = contents w ∧ ∀ l, r = Ok l → l ≡ₚ records (contents w e);
  filter_reads e q w r w' : nb_filter e q w = (r, w') → contents w' = contents w ∧
    ∀ l c, r = Ok l → q = [("cluster_id", PInt c)] → l ≡ₚ filter (in_cluster c) (records (contents w e));
  get_reads e q w r w' : nb_get e q w = (r, w') → contents w' = contents w;
  create_stores e fields w r w' : nb_create e fields w = (r, w') →
    match r with
    | Ok x => inserted e fields (rec_id x) (contents w) (contents w')
    | Err _ => contents w' = contents w ∨ ∃ i, inserted e fields i (contents w) (contents w')
    end;
  update_stores e i changes w r w' : nb_update e i changes w = (r, w') →
    match r with
    | Ok _ => patched e changes i (contents w) (contents w')
    | Err _ => contents w' = contents w ∨ patched e changes i (contents w) (contents w')
    end }.

Lemma elem_of_records r t : r ∈ records t ↔ t !! rec_id r = Some (rec_data r).
Proof.
  unfold records. rewrite list_elem_of_fmap. split.
  - intros ([i d] & -> & H). by apply elem_of_map_to_list in H.
  - intros H. exists (rec_id r, rec_data r). split; [by destruct r|]. by apply elem_of_map_to_list.
Qed.

Lemma records_NoDup t : NoDup (rec_id <$> records t).
Proof. unfold records. rewrite <-list_fmap_compose. apply (NoDup_fst_map_to_list t). Qed.

(** ** A store that meets the laws *)

Record store := mkStore { st_tables : gmap string table }.
Definition st_contents (s : store) (e : string) : table := default ∅ (st_tables s !! e).
Definition st_put (e : string) (i : Z) (d : pydict) (s : store) : store := mkStore (<[e := <[i := d]> (st_contents s e)]> (st_tables s)).

Definition matches_field (r : nb_record) (q : string * pyval) : bool :=
  py_eqb (if decide (q.1 = "cluster_id") then object_id (field "cluster" r) else if decide (q.1 = "id") then PInt (rec_id r) else field q.1 r) q.2.
Definition matching (q : pydict) (t : table) : list nb_record := filter (λ r, forallb (matches_field r) q = true) (records t).

#[export] Instance store_api : NetBoxApi store := {|
  nb_all e := gets (λ s, records (st_contents s e));
  nb_filter e q := gets (λ s, matching q (st_contents s e));
  nb_get e q := rows ← gets (λ s, matching q (st_contents s e));
    match rows with [] => mret None | [r] => mret (Some r) | _ => raise (ValueError "get() returned more than one result") end;
  nb_create e fields := λ s,
    let i := fresh (dom (st_contents s e)) in
    (Ok (mkRec i (dset "id" (PInt i) fields)), st_put e i (dset "id" (PInt i) fields) s);
  nb_update e i changes := λ s,
    match st_contents s e !! i with
    | Some d => (Ok tt, st_put e i (dupdate d changes) s)
    | None => (Err (OtherException "RequestError" None), s)
    end |}.

Lemma st_put_here e i d s : st_contents (st_put e i d s) e = <[i := d]> (st_contents s e).
Proof. unfold st_put, st_contents. simpl. by rewrite lookup_insert_eq. Qed.
Lemma st_put_other e e' i d s : e' ≠ e → st_contents (st_put e i d s) e' = st_contents s e'.
Proof. intros H. unfold st_put, st_contents. simpl. by rewrite lookup_insert_ne. Qed.

Lemma matching_cluster c t : matching [("cluster_id", PInt c)] t = filter (in_cluster c) (records t).
Proof.
  unfold matching. apply list_filter_iff. intros x. cbn [forallb]. rewrite andb_true_r. unfold matches_field. cbn [fst snd]. by rewrite decide_True.
Qed.

#[export] Instance store_laws : NetBoxLaws store st_contents.
Proof.
  split.
  - intros e w r w' [= <- <-]. split; [done|]. by intros l [= <-].
  - intros e q w r w' [= <- <-]. split; [done|]. intros l c [= <-] ->. by rewrite matching_cluster.
  - intros e q w r w'. cbn [nb_get store_api]. unfold mbind, M_bind, gets. destruct (matching _ _) as [|? [|]]; by intros [= _ <-].
  - intros e fields w r w' [= <- <-]. cbn [rec_id]. split_and!; [apply not_elem_of_dom, is_fresh| |intros e' He; by apply st_put_other].
    exists (dset "id" (PInt (fresh (dom (st_contents w e)))) fields). split; [|apply st_put_here].
    split_and!.
    + intros k _ Hk. apply dget_dset_ne. intros ->. apply Hk. left.
    + intros sent Hs. exists sent. split; [|done]. rewrite dget_dset_ne by done. unfold dget. by rewrite Hs.
    + intros Ht. rewrite dget_dset_ne by done. unfold dget. destruct (dlookup "tenant" fields) as [v|] eqn:E; [|done].
      destruct Ht. apply dlookup_elem in E. apply list_elem_of_fmap. by exists ("tenant", v).
  - intros e i changes w r w'. cbn [nb_update store_api]. destruct (st_contents w e !! i) as [d|] eqn:E; intros [= <- <-]; [|by left].
    split; [|intros e' He; by apply st_put_other].
    exists d, (dupdate d changes). split_and!; [done|by intros k _|apply st_put_here].
Qed.

(** A [filter] is a function of what is stored, and [get] is its only row. *)
Class NetBoxQueries (W : Type) `{!NetBoxApi W} (contents : W → string → table) := {
  nb_rows : string → pydict → table → list nb_record;
  filter_rows e q w l w' : nb_filter e q w = (Ok l, w') → l ≡ₚ nb_rows e q (contents w e);
  get_rows e q w r w' : nb_get e q w = (Ok r, w') →
    match nb_rows e q (contents w e) with [] => r = None | [x] => r = Some x | _ => False end;
  rows_stored e q t : (∀ x, x ∈ nb_rows e q t → x ∈ records t) ∧ NoDup (rec_id <$> nb_rows e q t);
  cluster_rows e c t : nb_rows e [("cluster_id", PInt c)] t ≡ₚ filter (in_cluster c) (records t);
  id_rows e i t x : x ∈ nb_rows e [("id", PInt i)] t → rec_id x = i }.

#[export] Instance store_queries : NetBoxQueries store st_contents.
Proof.
  refine {| nb_rows e q t := matching q t |}.
  - intros e q w l w' [= <- <-]. done.
  - intros e q w r w'. cbn [nb_get store_api]. unfold mbind, M_bind, gets. destruct (matching q (st_contents w e)) as [|x [|]]; by intros [= <- <-].
  - intros _ q t. split; [by intros x [_ ?]%list_elem_of_filter|]. by apply NoDup_fmap_filter, records_NoDup.
  - intros _ c t. by rewrite (matching_cluster c).
  - intros _ i t x [H _]%list_elem_of_filter. cbn [forallb] in H. rewrite andb_true_r in H. unfold matches_field in H. cbn [fst snd] in H.
    rewrite decide_False, decide_True in H by done. cbn in H. apply bool_decide_eq_true in H. by injection H.
Defined.
