(* ===== verification/NetBoxFrame.v ===== *)
(** * What a program over NetBox can do to it

    The executors are programs over [NetBoxApi]: whatever each call of the interface
    guarantees of the state before and after it, the whole program guarantees, whether
    it returns or raises. [ReadsMove] is the guarantee for the reads and [OpsMove] for
    the writes as well; the tactic [frame] carries either through a program. *)

From S2P Require Import Prelude PyValue NetBox.
From stdpp Require Import base list strings gmap.

Class ReadsMove {W} `{!NetBoxApi W} (R : relation W) := {
  reads_preorder :: PreOrder R;
  all_moves e w : moves R (nb_all e) w;
  filter_moves e q w : moves R (nb_filter e q) w;
  get_moves e q w : moves R (nb_get e q) w }.
Class OpsMove {W} `{!NetBoxApi W} (R : relation W) := {
  ops_reads :: ReadsMove R;
  create_moves e fields w : moves R (nb_create e fields) w;
  update_moves e i changes w : moves R (nb_update e i changes) w }.
#[export] Hint Extern 1 (moves _ (nb_all _) _) => apply all_moves : moves.
#[export] Hint Extern 1 (moves _ (nb_filter _ _) _) => apply filter_moves : moves.
#[export] Hint Extern 1 (moves _ (nb_get _ _) _) => apply get_moves : moves.
#[export] Hint Extern 1 (moves _ (nb_create _ _) _) => apply create_moves : moves.
#[export] Hint Extern 1 (moves _ (nb_update _ _ _) _) => apply update_moves : moves.

#[export] Hint Extern 1 (ReadsMove _) => apply _ : moves.
#[export] Hint Extern 1 (OpsMove _) => apply _ : moves.

(** Through binds, loops and every case distinction, forgetting what was read. *)
Ltac frame_step :=
  lazymatch goal with
  | |- moves ?R (_ ≫= _) _ => apply (moves_bind R); [|intros ? ? _]
  | |- moves ?R (mret _) _ => apply (moves_ret R)
  | |- moves ?R (raise _) _ => apply (moves_raise R)
  | |- moves ?R (raise_if _ _) _ => apply (moves_raise_if R)
  | |- moves ?R (gets _) _ => apply (moves_gets R)
  | |- moves ?R (lift _) _ => apply (moves_lift R)
  | |- moves ?R (require _ _) _ => apply (moves_require R)
  | |- moves ?R (forM _ _) _ => apply (moves_forM R); intros ? ? _
  | |- moves ?R (match ?x with _ => _ end) _ => destruct x
  | |- moves _ _ _ => solve [eauto with moves]
  end.
Ltac frame := repeat frame_step.

(** Reading leaves the contents, and so does any program of reads. *)
Definition contents_kept {W} (contents : W → string → table) (w w' : W) : Prop := contents w' = contents w.
#[export] Instance contents_kept_preorder {W} (contents : W → string → table) : PreOrder (contents_kept contents).
Proof. split; unfold contents_kept; repeat intro; congruence. Qed.
#[export] Instance reads_same {W} `{!NetBoxApi W} contents `{!NetBoxLaws W contents} : ReadsMove (contents_kept contents).
Proof.
  split; [apply _|..]; intros; unfold moves, contents_kept.
  - destruct (nb_all e w) as [r w'] eqn:E. by apply all_reads in E as [? _].
  - destruct (nb_filter e q w) as [r w'] eqn:E. by apply filter_reads in E as [? _].
  - destruct (nb_get e q w) as [r w'] eqn:E. by apply get_reads in E.
Qed.

(** A preorder that the contents decide needs no thought about reads. *)
Lemma reads_of_contents {W} `{!NetBoxApi W} contents `{!NetBoxLaws W contents} (R : relation W) `{!PreOrder R} :
  (∀ w w', contents w' = contents w → R w w') → ReadsMove R.
Proof.
  intros HR. split; [done|..]; intros; apply HR; [apply (all_moves (R := contents_kept contents))|apply (filter_moves (R := contents_kept contents))|
    apply (get_moves (R := contents_kept contents))].
Qed.

(** ** Triples

    [triple I m Q]: from a state of the invariant [I], [m] reaches one whether it
    returns or raises, and what it returns satisfies [Q] there. *)
Section Triple.
Context {S E : Type} (I : S → Prop).
Definition triple {A} (m : M S E A) (Q : A → S → Prop) : Prop :=
  ∀ s r s', I s → m s = (r, s') → I s' ∧ ∀ a, r = Ok a → Q a s'.

Lemma triple_ret {A} (a : A) (Q : A → S → Prop) : (∀ s, I s → Q a s) → triple (mret a) Q.
Proof. intros H s r s' Hs [= <- <-]. split; [done|]. intros ? [= <-]. auto. Qed.
Lemma triple_raise {A} e (Q : A → S → Prop) : triple (raise e) Q.
Proof. intros s r s' Hs [= <- <-]. done. Qed.
Lemma triple_lift {A} (x : result E A) (Q : A → S → Prop) : (∀ a s, x = Ok a → I s → Q a s) → triple (lift x) Q.
Proof. intros H s r s' Hs [= <- <-]. split; [done|]. intros a ->. auto. Qed.
Lemma triple_raise_if c e (Q : () → S → Prop) : (∀ s, c = false → I s → Q tt s) → triple (raise_if c e) Q.
Proof. intros H s r s' Hs. unfold raise_if. destruct c; intros [= <- <-]; [done|]. split; [done|]. intros [] _. auto. Qed.
Lemma triple_require {A} (o : option A) e (Q : A → S → Prop) : (∀ a s, o = Some a → I s → Q a s) → triple (require o e) Q.
Proof. intros H s r s' Hs. destruct o; intros [= <- <-]; [|done]. split; [done|]. intros ? [= <-]. auto. Qed.
Lemma triple_bind {A B} (m : M S E A) (k : A → M S E B) (Q : A → S → Prop) (Q' : B → S → Prop) :
  triple m Q → (∀ a s, Q a s → I s → ∀ r s', k a s = (r, s') → I s' ∧ ∀ b, r = Ok b → Q' b s') → triple (m ≫= k) Q'.
Proof.
  intros Hm Hk s r s' Hs. unfold mbind, M_bind. destruct (m s) as [[a|e] s1] eqn:E1; [|intros [= <- <-]; by destruct (Hm _ _ _ Hs E1)].
  destruct (Hm _ _ _ Hs E1) as [HI HQ]. by apply Hk; [apply HQ|].
Qed.
(** When what is known of the value does not mention the state. *)
Lemma triple_then {A B} (m : M S E A) (k : A → M S E B) (Q : A → Prop) (Q' : B → S → Prop) :
  triple m (λ a _, Q a) → (∀ a, Q a → triple (k a) Q') → triple (m ≫= k) Q'.
Proof. intros Hm Hk. eapply triple_bind; [exact Hm|]. intros a s Ha Hs r s' E1. exact (Hk a Ha s r s' Hs E1). Qed.
Lemma triple_impl {A} (m : M S E A) (Q Q' : A → S → Prop) : triple m Q → (∀ a s, Q a s → Q' a s) → triple m Q'.
Proof. intros H HQ s r s' Hs E1. destruct (H _ _ _ Hs E1) as [? HQs]. split; [done|]. intros a ->. auto. Qed.
Lemma triple_any {A} (m : M S E A) (Q : A → S → Prop) : triple m Q → triple m (λ _ _, True).
Proof. intros H s r s' Hs E1. by destruct (H _ _ _ Hs E1). Qed.
Lemma triple_forM {A} (l : list A) (body : A → M S E unit) : (∀ x, x ∈ l → triple (body x) (λ _ _, True)) → triple (forM l body) (λ _ _, True).
Proof.
  induction l as [|x l IH]; intros H; cbn [forM]; [by apply triple_ret|].
  eapply (triple_then _ _ (λ _, True)); [apply H; left|]. intros _ _. apply IH. intros y Hy. apply H. by right.
Qed.
(** A program that moves the state as a preorder that keeps the invariant. *)
Lemma triple_moves {A} (R : relation S) (m : M S E A) : (∀ s s', I s → R s s' → I s') → (∀ s, moves R m s) → triple m (λ _ _, True).
Proof. intros HI Hm s r s' Hs E1. split; [|done]. eapply HI; [done|]. by eapply (moves_end R). Qed.
End Triple.

(** ** Evolution of the tables

    What a run may do to the rows there were, and where it may add rows. *)
Section Evolved.
Context {W : Type} `{!NetBoxApi W} (contents : W → string → table) `{!NetBoxLaws W contents}.
Context (creatable : string → bool) (may : string → Z → pydict → pydict → Prop) (may_refl : ∀ e i d, may e i d d) (t0 : string → table).

Definition evolved (w : W) : Prop := ∀ e,
  (∀ i d, t0 e !! i = Some d → ∃ d', contents w e !! i = Some d' ∧ may e i d d') ∧
  (creatable e = false → ∀ i, t0 e !! i = None → contents w e !! i = None).

Lemma evolved_start w : contents w = t0 → evolved w.
Proof. intros E e. rewrite E. split; [|done]. intros i d Hd. eauto. Qed.
Lemma evolved_same w w' : evolved w → contents w' = contents w → evolved w'.
Proof. unfold evolved. by intros H ->. Qed.

Lemma evolved_inserted e fields i w w' :
  creatable e = true → evolved w → inserted e fields i (contents w) (contents w') → evolved w' ∧ t0 e !! i = None.
Proof.
  intros Hc H (Hn & (data & _ & Ei) & Hk). split.
  - intros e'. destruct (decide (e' = e)) as [->|Hne]; [|rewrite (Hk e') by done; apply H].
    rewrite Ei. split; [|congruence]. intros j d Hd. destruct (proj1 (H e) j d Hd) as (d' & Hd' & Hm). exists d'. split; [|done].
    rewrite lookup_insert_ne; [done|]. intros ->. by rewrite Hn in Hd'.
  - destruct (t0 e !! i) as [d|] eqn:Ed; [|done]. destruct (proj1 (H e) i d Ed) as (d' & Hd' & _). by rewrite Hn in Hd'.
Qed.
Lemma evolved_patched e changes i w w' :
  (∀ d d1 d2, t0 e !! i = Some d → contents w e !! i = Some d1 → may e i d d1 → updated changes d1 d2 → may e i d d2) →
  evolved w → patched e changes i (contents w) (contents w') → evolved w'.
Proof.
  intros Hm H [(d1 & d2 & Hd1 & Hu & Ei) Hk] e'. destruct (decide (e' = e)) as [->|Hne]; [|rewrite (Hk e') by done; apply H].
  rewrite Ei. split.
  - intros j d Hd. destruct (proj1 (H e) j d Hd) as (d' & Hd' & Hold). destruct (decide (i = j)) as [->|Hne].
    + exists d2. rewrite lookup_insert_eq. split; [done|]. rewrite Hd1 in Hd'. injection Hd' as <-. by eapply Hm.
    + exists d'. by rewrite lookup_insert_ne.
  - intros Hc j Hj. rewrite lookup_insert_ne; [by apply (proj2 (H e))|]. intros <-. pose proof (proj2 (H e) Hc i Hj). congruence.
Qed.

Lemma create_triple e fields : creatable e = true → triple evolved (nb_create e fields) (λ x _, t0 e !! rec_id x = None).
Proof.
  intros Hc w r w' Hw E. apply create_stores in E. destruct r as [x|err].
  - destruct (evolved_inserted _ _ _ _ _ Hc Hw E) as [Hw' Hn]. split; [done|]. by intros ? [= <-].
  - split; [|done]. destruct E as [E|(i & E)]; [by eapply evolved_same|]. by destruct (evolved_inserted _ _ _ _ _ Hc Hw E).
Qed.
(** An update that keeps to what the rows may become, whatever they are by then. *)
Lemma update_triple e i changes :
  (∀ d d1 d2, t0 e !! i = Some d → may e i d d1 → updated changes d1 d2 → may e i d d2) →
  triple evolved (nb_update e i changes) (λ _ _, True).
Proof.
  intros Hm w r w' Hw E. apply update_stores in E. split; [|done].
  assert (∀ H : patched e changes i (contents w) (contents w'), evolved w') as Hp by (intros H; eapply evolved_patched; eauto).
  destruct r; [by apply Hp|]. destruct E as [E|E]; [by eapply evolved_same|by apply Hp].
Qed.
(** Programs of reads. *)
Lemma read_triple {A} (m : M W exn A) : (∀ w, moves (contents_kept contents) m w) → triple evolved m (λ _ _, True).
Proof. apply triple_moves. intros w w' Hw E. by eapply evolved_same. Qed.
End Evolved.
