(* ===== verification/Discovery.v ===== *)
(** * Discovery records (netbox_sync/discovery.py)

    The provider-neutral dataclasses that discovery produces and every planner
    and executor reads. Fields keep their Python names behind a prefix per
    class; an [Optional] field is an [option], an untyped one a [pyval], and the
    dataclass defaults are the [_default] values. *)

From S2P Require Import Prelude PyValue.
From stdpp Require Import base list strings.
From Stdlib Require Import ZArith.

Record DiscoveredDisk := mkDisk {
  disk_path : string;
  disk_model : option string;
  disk_serial : option string;
  disk_size_bytes : Z;
  disk_type : option string;
  disk_health : option string }.

Record DiscoveredStorage := mkStorage {
  storage_name : string;
  storage_type : option string;
  storage_content : option string;
  storage_total_bytes : Z;
  storage_used_bytes : Z;
  storage_available_bytes : Z;
  storage_active : bool }.

Record DiscoveredCPU := mkCPU {
  cpu_model : option string;
  cpu_vendor : option string;
  cpu_sockets : Z;
  cpu_cores : Z;
  cpu_logical_cpus : Z }.

Record DiscoveredHostInterface := mkHostInterface {
  hif_name : string;
  hif_interface_type : option string;
  hif_active : bool;
  hif_autostart : bool;
  hif_method : option string;
  hif_addresses : list string;
  hif_gateway : option string;
  hif_bridge_ports : list string;
  hif_vlan_id : option Z;
  hif_vlan_aware : bool;
  hif_comments : option string;
  hif_mac_address : option string;
  hif_management : bool }.

Record DiscoveredVirtualDisk := mkVirtualDisk {
  vdisk_name : string;
  vdisk_storage : option string;
  vdisk_size_bytes : Z;
  vdisk_external_id : option string }.

Record DiscoveredInterface := mkInterface {
  nic_name : string;
  nic_mac_address : option string;
  nic_bridge : option string;
  nic_vlan_id : option Z;
  nic_ip_addresses : list string;
  nic_external_id : option string;
  nic_network_observations : option pydict;
  nic_ip_vrf_id : option Z;
  nic_ip_scope_conflicts : list pydict;
  nic_mac_scope_conflicts : list pydict }.

Record DiscoveredVirtualMachine := mkVM {
  vm_source : string;
  vm_source_instance : string;
  vm_legacy_identity_owner : bool;
  vm_source_id : string;
  vm_node_source_id : string;
  vm_vmid : pyval;
  vm_original_name : string;
  vm_normalized_name : string;
  vm_status : string;
  vm_vcpus : Z;
  vm_memory_bytes : Z;
  vm_autostart : bool;
  vm_disks : list DiscoveredVirtualDisk;
  vm_interfaces : list DiscoveredInterface;
  vm_external_id : option string;
  vm_description : option string;
  vm_provider_object_id : option string;
  vm_esxi_instance_uuid : option string;
  vm_esxi_bios_uuid : option string }.

Record DiscoveredContainer := mkContainer {
  ct_source : string;
  ct_source_instance : string;
  ct_legacy_identity_owner : bool;
  ct_source_id : string;
  ct_node_source_id : string;
  ct_vmid : Z;
  ct_original_name : string;
  ct_normalized_name : string;
  ct_status : string;
  ct_architecture : option string;
  ct_os_type : option string;
  ct_vcpus : Z;
  ct_memory_bytes : Z;
  ct_swap_bytes : Z;
  ct_autostart : bool;
  ct_unprivileged : bool;
  ct_disks : list DiscoveredVirtualDisk;
  ct_interfaces : list DiscoveredInterface }.

Record DiscoveredHost := mkHost {
  host_source : string;
  host_source_instance : string;
  host_legacy_identity_owner : bool;
  host_source_id : string;
  host_original_name : string;
  host_normalized_name : string;
  host_management_ip : option string;
  host_hypervisor : string;
  host_hypervisor_version : option string;
  host_cpu : DiscoveredCPU;
  host_memory_bytes : Z;
  host_manufacturer : option string;
  host_model : option string;
  host_disks : list DiscoveredDisk;
  host_storages : list DiscoveredStorage;
  host_interfaces : list DiscoveredHostInterface;
  host_virtual_machines : list DiscoveredVirtualMachine;
  host_containers : list DiscoveredContainer;
  host_esxi_events : option pydict;
  host_esxi_host_network : option pydict;
  host_proxmox_host_network : option pydict;
  host_connection_management : option pydict;
  host_hardware_identity : option pydict }.

(** A guest is what the interface metadata code receives: either dataclass,
    told apart by [hasattr(vm, "architecture")], which only containers have. *)
Inductive Guest :=
| GuestVM (vm : DiscoveredVirtualMachine)
| GuestCT (ct : DiscoveredContainer).

Definition guest_source (g : Guest) : string :=
  match g with GuestVM v => vm_source v | GuestCT c => ct_source c end.
Definition guest_source_instance (g : Guest) : string :=
  match g with GuestVM v => vm_source_instance v | GuestCT c => ct_source_instance c end.
Definition guest_source_id (g : Guest) : string :=
  match g with GuestVM v => vm_source_id v | GuestCT c => ct_source_id c end.
Definition guest_legacy_identity_owner (g : Guest) : bool :=
  match g with GuestVM v => vm_legacy_identity_owner v | GuestCT c => ct_legacy_identity_owner c end.
Definition guest_vmid (g : Guest) : pyval :=
  match g with GuestVM v => vm_vmid v | GuestCT c => PInt (ct_vmid c) end.
Definition guest_interfaces (g : Guest) : list DiscoveredInterface :=
  match g with GuestVM v => vm_interfaces v | GuestCT c => ct_interfaces c end.
