(* ===== verification/SourceIdentity.v ===== *)
(** * Source identities (netbox_sync/source_identity.py)

    The versioned identity that owns a NetBox object, its JSON record, the
    ranked matching of v2 and legacy records, and the merge that keeps foreign
    and legacy records. The [__post_init__] checks are the constructor
    [mk_identity]. *)

From S2P Require Import Prelude PyValue Discovery.
From stdpp Require Import base list strings pretty.
From Stdlib Require Import ZArith Lia.
Local Open Scope string_scope.

Definition IDENTITY_SCHEMA_V2 : string := "v2".
Definition NO_IDENTITY_MATCH : nat := 0.
Definition LEGACY_IDENTITY_MATCH : nat := 1.
Definition V2_IDENTITY_MATCH : nat := 2.

Record SourceIdentity := mkSourceIdentity {
  si_schema : string;
  si_type : string;
  si_instance : string;
  si_kind : string;
  si_external_id : string }.

#[global] Instance SourceIdentity_eq_dec : EqDecision SourceIdentity.
Proof. solve_decision. Defined.

(** [_required_text]. *)
Definition required_text (v : pyval) (field : string) : result exn string :=
  match v with
  | PStr s => if blank s then Err (ValueError (field +:+ " must be a non-empty string")) else Ok s
  | _ => Err (ValueError (field +:+ " must be a non-empty string"))
  end.

(** The dataclass constructor with [__post_init__]; the fields arrive as
    arbitrary values. *)
Definition mk_identity (schema type instance kind external_id : pyval) : result exn SourceIdentity :=
  if negb (py_eqb schema (PStr IDENTITY_SCHEMA_V2)) then Err (ValueError "unsupported source identity schema")
  else
    t ← required_text type "type";
    i ← required_text instance "instance";
    k ← required_text kind "kind";
    e ← required_text external_id "external_id";
    Ok (mkSourceIdentity IDENTITY_SCHEMA_V2 t i k e).

Definition to_record (d : SourceIdentity) : pydict :=
  [("schema", PStr (si_schema d)); ("type", PStr (si_type d)); ("instance", PStr (si_instance d));
   ("kind", PStr (si_kind d)); ("external_id", PStr (si_external_id d))].

(** [value[k]] inside [from_record]'s [try]. *)
Definition subscript (k : string) (d : pydict) : result exn pyval :=
  match dlookup k d with Some v => Ok v | None => Err (KeyError k) end.

(** [from_record]: [Ok None] for another schema; every failure to parse a v2
    record is one [ValueError]. *)
Definition from_record (value : pyval) : result exn (option SourceIdentity) :=
  match value with
  | PDict d =>
      if negb (py_eqb (dget "schema" d) (PStr IDENTITY_SCHEMA_V2)) then Ok None
      else
        match (schema ← subscript "schema" d;
               type ← subscript "type" d;
               instance ← subscript "instance" d;
               kind ← subscript "kind" d;
               external_id ← subscript "external_id" d;
               mk_identity schema type instance kind (PStr (py_str external_id))) with
        | Ok i => Ok (Some i)
        | Err _ => Err (ValueError "invalid source identity v2 record")
        end
  | _ => Ok None
  end.

(** [_identity]. *)
Definition identity (source source_instance kind external_id : string) : result exn SourceIdentity :=
  mk_identity (PStr IDENTITY_SCHEMA_V2) (PStr source) (PStr source_instance) (PStr kind) (PStr external_id).

Definition host_source_identity (h : DiscoveredHost) : result exn SourceIdentity :=
  identity (host_source h) (host_source_instance h) "host" (host_source_id h).

Definition qemu_source_identity (vm : DiscoveredVirtualMachine) : result exn SourceIdentity :=
  identity (vm_source vm) (vm_source_instance vm) "qemu" (py_str (vm_vmid vm)).

Definition lxc_source_identity (ct : DiscoveredContainer) : result exn SourceIdentity :=
  identity (ct_source ct) (ct_source_instance ct) "lxc" (pretty (ct_vmid ct)).

(** [x or y] on an optional text. *)
Definition or_text (x : option string) (y : string) : string :=
  match x with Some s => if bool_decide (s = "") then y else s | None => y end.

Definition qemu_nic_source_identity (vm : DiscoveredVirtualMachine) (nic : DiscoveredInterface) :
    result exn SourceIdentity :=
  identity (vm_source vm) (vm_source_instance vm) "qemu-nic"
    (py_str (vm_vmid vm) +:+ ":" +:+ or_text (nic_external_id nic) (nic_name nic)).

Definition virtual_machine_source_identity (vm : DiscoveredVirtualMachine) : result exn SourceIdentity :=
  if bool_decide (vm_source vm = "esxi") then
    identity (vm_source vm) (vm_source_instance vm) "vm" (or_text (vm_external_id vm) (py_str (vm_vmid vm)))
  else qemu_source_identity vm.

Definition virtual_machine_nic_source_identity (vm : DiscoveredVirtualMachine) (nic : DiscoveredInterface) :
    result exn SourceIdentity :=
  if bool_decide (vm_source vm = "esxi") then
    identity (vm_source vm) (vm_source_instance vm) "vm-nic"
      (or_text (vm_external_id vm) (py_str (vm_vmid vm)) +:+ ":" +:+
       or_text (nic_external_id nic) (nic_name nic))
  else qemu_nic_source_identity vm nic.

Definition lxc_nic_source_identity (ct : DiscoveredContainer) (nic : DiscoveredInterface) :
    result exn SourceIdentity :=
  identity (ct_source ct) (ct_source_instance ct) "lxc-nic"
    (pretty (ct_vmid ct) +:+ ":" +:+ or_text (nic_external_id nic) (nic_name nic)).

Definition original_name_key (i : SourceIdentity) : string :=
  si_type i +:+ "/" +:+ si_instance i +:+ "/" +:+ si_kind i.

(** [dict(custom_fields or {})]. *)
Definition fields_of (custom_fields : option pydict) : pydict := default [] custom_fields.

(** The first loop of [source_identity_match_rank]: a v2 record equal to the
    desired identity, an invalid v2 record met before it raising. *)
Fixpoint has_v2_match (values : list pyval) (desired : SourceIdentity) : result exn bool :=
  match values with
  | [] => Ok false
  | v :: vs =>
      p ← from_record v;
      if bool_decide (p = Some desired) then Ok true else has_v2_match vs desired
  end.

(** One step of the second loop: a non-v2 record of the same type whose legacy
    id ([source_id], else [id]) is wanted. *)
Definition legacy_match (wanted : list string) (desired : SourceIdentity) (v : pyval) : bool :=
  match v with
  | PDict d =>
      negb (py_eqb (dget "schema" d) (PStr IDENTITY_SCHEMA_V2)) &&
      py_eqb (dget "source" d) (PStr (si_type desired)) &&
      bool_decide (py_str (match dlookup "source_id" d with Some x => x | None => dget "id" d end) ∈ wanted)
  | _ => false
  end.

Definition source_identity_match_rank (custom_fields : option pydict) (desired : SourceIdentity)
    (legacy_source_ids : list string) (legacy_identity_owner : bool) : result exn nat :=
  match dget "sync_identities" (fields_of custom_fields) with
  | PList identities =>
      found ← has_v2_match identities desired;
      if (found : bool) then Ok V2_IDENTITY_MATCH
      else if negb legacy_identity_owner then Ok NO_IDENTITY_MATCH
      else if existsb (legacy_match legacy_source_ids desired) identities then Ok LEGACY_IDENTITY_MATCH
      else Ok NO_IDENTITY_MATCH
  | _ => Ok NO_IDENTITY_MATCH
  end.

Definition same_namespace (p desired : SourceIdentity) : bool :=
  bool_decide (si_type p = si_type desired ∧ si_instance p = si_instance desired ∧ si_kind p = si_kind desired).

(** The loop of [merge_source_identities]: the records that stay. *)
Fixpoint foreign_records (values : list pyval) (desired : SourceIdentity) : result exn (list pydict) :=
  match values with
  | [] => Ok []
  | v :: vs =>
      match v with
      | PDict d =>
          p ← from_record v;
          rest ← foreign_records vs desired;
          Ok (match p with
              | Some i => if same_namespace i desired then rest else d :: rest
              | None => d :: rest
              end)
      | _ => Err (ValueError "sync_identities contains an unsupported value")
      end
  end.

(** The sort key of the merged list. *)
Definition record_leb (a b : pydict) : bool := String.leb (repr_sorted_items a) (repr_sorted_items b).

Definition merge_source_identities (custom_fields : option pydict) (desired : SourceIdentity) :
    result exn (list pydict) :=
  match default (PList []) (dlookup "sync_identities" (fields_of custom_fields)) with
  | PList identities =>
      kept ← foreign_records identities desired;
      Ok (isort record_leb (kept ++ [to_record desired]))
  | _ => Err (ValueError "sync_identities must be a JSON list")
  end.

Definition merge_original_name (custom_fields : option pydict) (desired : SourceIdentity)
    (original_name : string) : result exn pydict :=
  match default (PDict []) (dlookup "sync_original_names" (fields_of custom_fields)) with
  | PDict values => Ok (dset (original_name_key desired) (PStr original_name) values)
  | _ => Err (ValueError "sync_original_names must be a JSON object")
  end.

(** [select_best_identity_matches]: one pass keeping the best rank so far. *)
Fixpoint select_best_loop {A} (ranker : A → result exn nat) (candidates : list A) (best_rank : nat)
    (matches : list A) : result exn (list A) :=
  match candidates with
  | [] => Ok matches
  | c :: cs =>
      rank ← ranker c;
      if Nat.ltb best_rank rank then select_best_loop ranker cs rank [c]
      else if negb (Nat.eqb rank 0) && Nat.eqb rank best_rank then
        select_best_loop ranker cs best_rank (matches ++ [c])%list
      else select_best_loop ranker cs best_rank matches
  end.

Definition select_best_identity_matches {A} (candidates : list A) (ranker : A → result exn nat) :
    result exn (list A) :=
  select_best_loop ranker candidates NO_IDENTITY_MATCH [].

(** What is selected is one of the candidates. *)
Lemma select_best_sound {A} (ranker : A → result exn nat) cs ms x : select_best_identity_matches cs ranker = Ok ms → x ∈ ms → x ∈ cs.
Proof.
  unfold select_best_identity_matches. intros H Hx. cut (x ∈ @nil A ∨ x ∈ cs); [by intros [?%elem_of_nil|?]|].
  revert H. generalize NO_IDENTITY_MATCH (@nil A). induction cs as [|c cs IH]; intros best acc; cbn [select_best_loop]; [intros [= ->]; by left|].
  intros (r & _ & H)%result_bind_Ok. destruct (Nat.ltb best r); [|destruct (_ && _)]; apply IH in H; rewrite ?elem_of_app, ?list_elem_of_singleton in H;
    rewrite elem_of_cons; naive_solver.
Qed.

(** ** Facts about identities and their records *)

Definition valid_identity (i : SourceIdentity) : bool :=
  bool_decide (si_schema i = IDENTITY_SCHEMA_V2) && negb (blank (si_type i)) && negb (blank (si_instance i)) &&
  negb (blank (si_kind i)) && negb (blank (si_external_id i)).

Lemma required_text_Ok v f s : required_text v f = Ok s ↔ v = PStr s ∧ blank s = false.
Proof.
  destruct v as [| | |t| |]; simpl; try (split; [done|intros [[=] _]]).
  destruct (blank t) eqn:E; naive_solver congruence.
Qed.

Lemma mk_identity_Ok s t i k e r :
  mk_identity s t i k e = Ok r →
  valid_identity r = true ∧ t = PStr (si_type r) ∧ i = PStr (si_instance r) ∧
  k = PStr (si_kind r) ∧ e = PStr (si_external_id r).
Proof.
  unfold mk_identity. case_match; [done|]. intros Hm. inv_m.
  repeat match goal with H : required_text _ _ = Ok _ |- _ => apply required_text_Ok in H as [-> ?] end.
  unfold valid_identity. simpl. split; [|done].
  by repeat match goal with H : blank _ = false |- _ => rewrite H; clear H end.
Qed.

Lemma from_record_to_record i :
  valid_identity i = true → from_record (PDict (to_record i)) = Ok (Some i).
Proof.
  destruct i as [s t n k e]. unfold valid_identity. simpl. intros Hv.
  repeat rewrite andb_true_iff in Hv. destruct Hv as ((((Hs & Ht) & Hi) & Hk) & He).
  inv_bool. subst s. unfold mk_identity, required_text. simpl.
  by rewrite Ht, Hi, Hk, He.
Qed.

Lemma from_record_valid v i : from_record v = Ok (Some i) → valid_identity i = true.
Proof.
  unfold from_record. destruct v; try done. case_match; [done|].
  case_match eqn:E; [|done]. intros [= <-]. inv_m. by eapply mk_identity_Ok.
Qed.

(** A record parses when it is not a broken v2 record; [in_namespace desired]
    says it is a v2 record of the desired identity's namespace. *)
Definition parses (d : pydict) : bool :=
  match from_record (PDict d) with Ok _ => true | Err _ => false end.
Definition in_namespace (desired : SourceIdentity) (d : pydict) : bool :=
  match from_record (PDict d) with Ok (Some i) => same_namespace i desired | _ => false end.

Lemma in_namespace_eq desired d p :
  from_record (PDict d) = Ok p →
  in_namespace desired d = match p with Some i => same_namespace i desired | None => false end.
Proof. intros E. unfold in_namespace. by rewrite E. Qed.

Lemma foreign_records_Ok vs desired kept :
  foreign_records vs desired = Ok kept ↔
  ∃ ds, vs = map PDict ds ∧ Forall (λ d, parses d = true) ds ∧
        kept = filter (λ d, in_namespace desired d = false) ds.
Proof.
  revert kept. induction vs as [|v vs IH]; intros kept; simpl.
  - split.
    + intros [= <-]. exists []. done.
    + intros ([|??] & [=] & _ & ->). done.
  - split.
    + destruct v as [| | | | |d]; try done.
      intros (p & Hp & (rest & (ds & -> & Hds & ->)%IH & [= <-])%result_bind_Ok)%result_bind_Ok.
      exists (d :: ds).
      split; [done|]. split; [constructor; [|done]; cbv beta; unfold parses; by rewrite Hp|].
      rewrite filter_cons, (in_namespace_eq _ _ _ Hp).
      destruct p as [i|]; [destruct (same_namespace i desired)|]; done.
    + intros ([|d ds] & Hv & Hds & ->); [done|]. injection Hv as -> ->.
      apply Forall_cons in Hds as [Hd Hds]. unfold parses in Hd.
      destruct (from_record (PDict d)) as [p|] eqn:E; [|done].
      rewrite (proj2 (IH _)) by eauto. unfold mbind, result_bind. f_equal.
      rewrite filter_cons, (in_namespace_eq _ _ _ E).
      destruct p as [i|]; [destruct (same_namespace i desired)|]; done.
Qed.

Lemma has_v2_match_dicts ds desired :
  Forall (λ d, parses d = true) ds →
  has_v2_match (map PDict ds) desired =
  Ok (bool_decide (Exists (λ d, from_record (PDict d) = Ok (Some desired)) ds)).
Proof.
  induction 1 as [|d ds Hd _ IH]; [done|]. cbn [map has_v2_match]. unfold parses in Hd.
  destruct (from_record (PDict d)) as [p|] eqn:E; [|done].
  unfold mbind, result_bind. destruct (decide (p = Some desired)) as [Hp|Hp].
  - rewrite (bool_decide_true (p = _)) by done. rewrite bool_decide_true; [done|]. left. by rewrite E, Hp.
  - rewrite (bool_decide_false (p = _)) by done. rewrite IH. f_equal.
    apply bool_decide_ext. rewrite Exists_cons, E. naive_solver.
Qed.

(** The merged list, up to order: what was foreign, then the desired record. *)
Lemma merge_source_identities_Ok cf desired rs :
  merge_source_identities cf desired = Ok rs →
  ∃ ds, default (PList []) (dlookup "sync_identities" (fields_of cf)) = PList (map PDict ds) ∧
        Forall (λ d, parses d = true) ds ∧
        rs = isort record_leb (filter (λ d, in_namespace desired d = false) ds ++ [to_record desired]).
Proof.
  unfold merge_source_identities. destruct (default _ _) as [| | | |vs|] eqn:E; try done.
  intros (kept & (ds & -> & Hds & ->)%foreign_records_Ok & [= <-])%result_bind_Ok. eauto.
Qed.

Lemma in_namespace_to_record i j :
  valid_identity i = true → in_namespace j (to_record i) = same_namespace i j.
Proof. intros Hi. unfold in_namespace. by rewrite from_record_to_record. Qed.

Lemma same_namespace_refl i : same_namespace i i = true.
Proof. unfold same_namespace. by rewrite bool_decide_true. Qed.

Lemma parses_to_record i : valid_identity i = true → parses (to_record i) = true.
Proof. intros. unfold parses. by rewrite from_record_to_record. Qed.

Lemma record_leb_total a b : record_leb a b = true ∨ record_leb b a = true.
Proof. apply String.leb_total. Qed.
Lemma record_leb_trans a b c : record_leb a b = true → record_leb b c = true → record_leb a c = true.
Proof. apply string_leb_trans. Qed.

Lemma merged_parse cf desired rs :
  valid_identity desired = true → merge_source_identities cf desired = Ok rs →
  Forall (λ d, parses d = true) rs.
Proof.
  intros Hv (ds & _ & Hds & ->)%merge_source_identities_Ok.
  rewrite isort_Permutation. apply Forall_app. split.
  - apply Forall_forall. intros d [_ Hd]%list_elem_of_filter. rewrite Forall_forall in Hds. by apply Hds.
  - constructor; [by apply parses_to_record|done].
Qed.

(** [custom_fields] with the merged identities stored back. *)
Definition store_identities (cf : option pydict) (rs : list pydict) : option pydict :=
  Some (dset "sync_identities" (PList (map PDict rs)) (fields_of cf)).

Lemma stored_identities cf rs :
  dlookup "sync_identities" (fields_of (store_identities cf rs)) = Some (PList (map PDict rs)).
Proof. unfold store_identities. simpl. rewrite dlookup_dset, decide_True; done. Qed.

(** ** Theorems *)

(** C39: [merge_source_identities] owns exactly one record of the desired
    namespace (type, instance, kind), namely the desired identity's own record,
    and keeps every other record it was given, legacy ones and other sources'
    alike, as it was. *)
Theorem merge_owns_one_namespace cf desired rs :
  valid_identity desired = true →
  merge_source_identities cf desired = Ok rs →
  filter (λ d, in_namespace desired d = true) rs = [to_record desired] ∧
  ∃ ds, default (PList []) (dlookup "sync_identities" (fields_of cf)) = PList (map PDict ds) ∧
        filter (λ d, in_namespace desired d = false) rs ≡ₚ filter (λ d, in_namespace desired d = false) ds.
Proof.
  intros Hv (ds & Hds & _ & ->)%merge_source_identities_Ok.
  rewrite !(filter_isort record_leb record_leb_total record_leb_trans), !filter_app, !filter_cons, !filter_nil.
  rewrite in_namespace_to_record, same_namespace_refl by done. simpl.
  rewrite !list_filter_filter. split.
  - by rewrite filter_none by (intros d _ [? ?]; congruence).
  - exists ds. split; [done|]. rewrite isort_Permutation, app_nil_r.
    by rewrite (list_filter_iff _ (λ d, in_namespace desired d = false)) by naive_solver.
Qed.

(** A sample identity, a foreign record and a legacy one, for the witnesses. *)
Definition sample_identity : SourceIdentity :=
  mkSourceIdentity "v2" "proxmox" "pve-a" "qemu" "101".
Definition other_identity : SourceIdentity :=
  mkSourceIdentity "v2" "proxmox" "pve-b" "qemu" "101".
Definition legacy_record : pydict := [("source", PStr "proxmox"); ("source_id", PStr "node1:101")].
Definition sample_fields : option pydict :=
  Some [("cpu", PInt 4);
        ("sync_identities",
          PList [PDict (to_record other_identity); PDict legacy_record;
                 PDict (to_record (mkSourceIdentity "v2" "proxmox" "pve-a" "qemu" "7"))])].
Definition sample_merged : list pydict :=
  [to_record sample_identity; to_record other_identity; legacy_record].

Lemma sample_merge : merge_source_identities sample_fields sample_identity = Ok sample_merged.
Proof. vm_compute. reflexivity. Qed.

Lemma merge_owns_one_namespace_witness :
  filter (λ d, in_namespace sample_identity d = true) sample_merged = [to_record sample_identity].
Proof.
  refine (proj1 (merge_owns_one_namespace sample_fields sample_identity sample_merged _ _)).
  - vm_compute. reflexivity.
  - exact sample_merge.
Defined.

Lemma rank_of_dicts cf ds desired ids owner :
  dget "sync_identities" (fields_of cf) = PList (map PDict ds) →
  Forall (λ d, parses d = true) ds →
  source_identity_match_rank cf desired ids owner =
  Ok (if bool_decide (Exists (λ d, from_record (PDict d) = Ok (Some desired)) ds) then V2_IDENTITY_MATCH
      else if owner && existsb (legacy_match ids desired) (map PDict ds) then LEGACY_IDENTITY_MATCH
      else NO_IDENTITY_MATCH).
Proof.
  intros Hcf Hds. unfold source_identity_match_rank. rewrite Hcf, has_v2_match_dicts by done.
  unfold mbind, result_bind. destruct (bool_decide _); [done|]. by destruct owner; simpl; [case_match|].
Qed.

(** A record the merge drops or adds is v2, so no legacy record is involved. *)
Lemma legacy_match_in_namespace ids i desired d :
  in_namespace desired d = true → legacy_match ids i (PDict d) = false.
Proof.
  unfold in_namespace, from_record, legacy_match. by destruct (py_eqb (dget "schema" d) _).
Qed.

Lemma merge_then_rank cf desired rs ids owner :
  valid_identity desired = true →
  merge_source_identities cf desired = Ok rs →
  source_identity_match_rank (store_identities cf rs) desired ids owner = Ok V2_IDENTITY_MATCH.
Proof.
  intros Hv Hm. pose proof (merged_parse _ _ _ Hv Hm) as Hrs.
  rewrite (rank_of_dicts _ rs) by (try done; unfold dget; by rewrite stored_identities).
  rewrite bool_decide_true; [done|].
  apply Exists_exists. exists (to_record desired). split; [|by apply from_record_to_record].
  apply merge_source_identities_Ok in Hm as (ds & _ & _ & ->).
  apply elem_of_isort, elem_of_app. right. by left.
Qed.

(** The merge is a round trip for the matcher: an object whose custom
    fields hold the merged identities is matched by the same identity at the
    highest rank, whatever the legacy settings. *)
Theorem merge_then_rank_v2 cf desired rs ids owner :
  valid_identity desired = true →
  merge_source_identities cf desired = Ok rs →
  source_identity_match_rank (store_identities cf rs) desired ids owner = Ok V2_IDENTITY_MATCH.
Proof. apply merge_then_rank. Qed.

Lemma merge_then_rank_v2_witness :
  source_identity_match_rank (store_identities sample_fields sample_merged) sample_identity [] false =
  Ok V2_IDENTITY_MATCH.
Proof.
  apply merge_then_rank_v2; [vm_compute; reflexivity | exact sample_merge].
Defined.

(** A property no record of the namespace has holds of a merged record exactly
    when it held of an original one. *)
Lemma Exists_merged desired ds (Q : pydict → Prop) :
  valid_identity desired = true →
  (∀ d, in_namespace desired d = true → ¬ Q d) →
  Exists Q (isort record_leb (filter (λ d, in_namespace desired d = false) ds ++ [to_record desired])) ↔
  Exists Q ds.
Proof.
  intros Hv HQ. rewrite isort_Permutation, Exists_app, Exists_cons, Exists_nil, !Exists_exists. split.
  - intros [(d & [_ ?]%list_elem_of_filter & ?)|[HQd|[]]]; [by exists d|].
    destruct (HQ (to_record desired)); [|done]. by rewrite in_namespace_to_record, same_namespace_refl.
  - intros (d & ? & HQd). left. exists d. split; [|done]. apply list_elem_of_filter. split; [|done].
    destruct (in_namespace desired d) eqn:En; [by destruct (HQ d)|done].
Qed.

Lemma bool_decide_merged desired ds (Q : pydict → Prop) `{∀ d, Decision (Q d)} :
  valid_identity desired = true →
  (∀ d, in_namespace desired d = true → ¬ Q d) →
  bool_decide (Exists Q (isort record_leb
    (filter (λ d, in_namespace desired d = false) ds ++ [to_record desired]))) = bool_decide (Exists Q ds).
Proof. intros. apply bool_decide_ext. by apply Exists_merged. Qed.

Lemma existsb_dicts f ds : existsb f (map PDict ds) = bool_decide (Exists (λ d, f (PDict d) = true) ds).
Proof.
  induction ds as [|d ds IH]; [done|]. simpl. rewrite IH. destruct (f (PDict d)) eqn:E; simpl.
  - symmetry. apply bool_decide_eq_true. by left.
  - apply bool_decide_ext. rewrite Exists_cons, E. naive_solver.
Qed.

Lemma no_identities_rank cf other ids owner :
  dlookup "sync_identities" (fields_of cf) = None →
  source_identity_match_rank cf other ids owner = Ok NO_IDENTITY_MATCH.
Proof. intros H. unfold source_identity_match_rank, dget. by rewrite H. Qed.

Lemma merge_rank_isolated cf desired rs other ids owner :
  valid_identity desired = true →
  same_namespace other desired = false →
  merge_source_identities cf desired = Ok rs →
  source_identity_match_rank (store_identities cf rs) other ids owner =
  source_identity_match_rank cf other ids owner.
Proof.
  intros Hv Hns Hm. pose proof (merged_parse _ _ _ Hv Hm) as Hrs.
  apply merge_source_identities_Ok in Hm as (ds & Hcf & Hds & ->).
  rewrite (rank_of_dicts _ _) by (try done; unfold dget; by rewrite stored_identities).
  rewrite existsb_dicts.
  rewrite !bool_decide_merged; try done.
  2:{ intros d Hd E. by rewrite (legacy_match_in_namespace _ _ _ _ Hd) in E. }
  2:{ intros d Hd E. unfold in_namespace in Hd. rewrite E in Hd. congruence. }
  destruct (dlookup "sync_identities" (fields_of cf)) as [v|] eqn:Hget; simpl in Hcf.
  - rewrite (rank_of_dicts cf ds), existsb_dicts; [done|unfold dget; by rewrite Hget|done].
  - destruct ds; [|done]. rewrite no_identities_rank by done.
    rewrite !bool_decide_false by (intros []%Exists_nil). by rewrite andb_false_r.
Qed.

(** Identities of different namespaces do not interfere: merging one
    source's identity into an object leaves the rank of every identity of
    another source, instance or kind as it was, so that an object is never
    stolen from or lost to another source by a merge. *)
Theorem merge_isolates_namespaces cf desired rs other ids owner :
  valid_identity desired = true →
  same_namespace other desired = false →
  merge_source_identities cf desired = Ok rs →
  source_identity_match_rank (store_identities cf rs) other ids owner =
  source_identity_match_rank cf other ids owner.
Proof. apply merge_rank_isolated. Qed.

Lemma merge_isolates_namespaces_witness :
  source_identity_match_rank (store_identities sample_fields sample_merged) other_identity ["node1:101"] true =
  source_identity_match_rank sample_fields other_identity ["node1:101"] true.
Proof.
  apply (merge_isolates_namespaces sample_fields sample_identity);
    [vm_compute; reflexivity | vm_compute; reflexivity | exact sample_merge].
Defined.

(** A second merge of the same identity changes nothing, so that a repeated
    synchronization finds the identities it would write already there. *)
Theorem merge_idempotent cf desired rs :
  valid_identity desired = true →
  merge_source_identities cf desired = Ok rs →
  merge_source_identities (store_identities cf rs) desired = Ok rs.
Proof.
  intros Hv Hm. pose proof (merged_parse _ _ _ Hv Hm) as Hrs.
  apply merge_source_identities_Ok in Hm as (ds & _ & _ & ->).
  unfold merge_source_identities. rewrite stored_identities. cbn [from_option id].
  rewrite (proj2 (foreign_records_Ok _ _ _)) by eauto. unfold mbind, result_bind. f_equal.
  rewrite (filter_isort record_leb record_leb_total record_leb_trans), filter_app, list_filter_filter.
  rewrite (list_filter_iff _ (λ d, in_namespace desired d = false) ds) by naive_solver.
  rewrite filter_cons, in_namespace_to_record, same_namespace_refl, filter_nil, app_nil_r by done. simpl.
  by rewrite (isort_isort_app record_leb record_leb_total record_leb_trans).
Qed.

Lemma merge_idempotent_witness :
  merge_source_identities (store_identities sample_fields sample_merged) sample_identity = Ok sample_merged.
Proof. apply merge_idempotent; [vm_compute; reflexivity | exact sample_merge]. Defined.

(** ** Ranked selection *)

Lemma select_best_loop_spec {A} (ranker : A → result exn nat) (rank : A → nat) cs best ms :
  (∀ c, c ∈ cs → ranker c = Ok (rank c)) →
  select_best_loop ranker cs best ms =
  Ok (let top := foldr (λ c m, Nat.max (rank c) m) best cs in
      ((if bool_decide (top = best) then ms else []) ++
       (if bool_decide (top = 0) then [] else filter (λ c, rank c = top) cs))%list).
Proof.
  revert best ms. induction cs as [|c cs IH]; intros best ms Hr; simpl.
  - rewrite bool_decide_true by done. by case_bool_decide; rewrite app_nil_r.
  - rewrite Hr by left. unfold mbind, result_bind.
    assert (∀ c', c' ∈ cs → ranker c' = Ok (rank c')) as Hr' by (intros; apply Hr; by right).
    assert (∀ b, foldr (λ c m, Nat.max (rank c) m) b cs ≥ b) as Hge.
    { intros b. clear. induction cs; simpl; lia. }
    assert (∀ b, foldr (λ c m, Nat.max (rank c) m) (Nat.max (rank c) b) cs =
      Nat.max (rank c) (foldr (λ c m, Nat.max (rank c) m) b cs)) as Hmax.
    { intros b. clear. induction cs; simpl; lia. }
    pose proof (Hge best). specialize (Hmax best).
    set (top := foldr _ best cs) in *. rewrite filter_cons.
    destruct (Nat.ltb_spec best (rank c)); [|destruct (Nat.eqb_spec (rank c) 0);
      [|destruct (Nat.eqb_spec (rank c) best)]]; simpl; rewrite IH by done; cbv zeta.
    + rewrite Nat.max_l in Hmax by lia. rewrite Hmax. f_equal.
      repeat case_bool_decide; repeat case_decide; simpl; try lia; try done.
    + fold top. f_equal. replace (Nat.max (rank c) top) with top by lia.
      repeat case_bool_decide; repeat case_decide; simpl; try lia; done.
    + fold top. f_equal. replace (Nat.max (rank c) top) with top by lia.
      repeat case_bool_decide; repeat case_decide; simpl; try lia; rewrite <-?app_assoc; done.
    + fold top. f_equal. replace (Nat.max (rank c) top) with top by lia.
      repeat case_bool_decide; repeat case_decide; simpl; try lia; done.
Qed.

Definition top_rank {A} (rank : A → nat) (cs : list A) : nat := foldr (λ c m, Nat.max (rank c) m) 0 cs.

(** The one-pass selection equals its specification: the candidates of the
    highest rank, in their order and with duplicates, or none when no candidate
    has a rank above zero; a v2 match therefore always hides legacy ones. *)
Theorem select_best_is_argmax {A} (candidates : list A) (ranker : A → result exn nat) (rank : A → nat) :
  (∀ c, c ∈ candidates → ranker c = Ok (rank c)) →
  select_best_identity_matches candidates ranker =
  Ok (if bool_decide (top_rank rank candidates = 0) then []
      else filter (λ c, rank c = top_rank rank candidates) candidates).
Proof.
  intros Hr. unfold select_best_identity_matches, NO_IDENTITY_MATCH.
  rewrite (select_best_loop_spec ranker rank) by done. cbv zeta. fold (top_rank rank candidates).
  by repeat case_bool_decide.
Qed.

Lemma select_best_is_argmax_witness :
  select_best_identity_matches [1; 2; 0; 2] (λ n, Ok n) = Ok [2; 2].
Proof. rewrite (select_best_is_argmax [1; 2; 0; 2] (λ n, Ok n) (λ n, n)); [vm_compute; reflexivity | done]. Defined.
