(* ===== verification/Metadata.v ===== *)
(** * Managed custom fields (netbox_metadata.py, netbox_vm_metadata.py,
    netbox_lxc_metadata.py, netbox_vm_interface_metadata.py)

    How each kind of object is matched by its identities, and the custom fields
    an update writes. A NetBox record enters through its [custom_fields]. *)

From S2P Require Import Prelude PyValue Discovery SourceIdentity.
From stdpp Require Import base list strings pretty.
From Stdlib Require Import ZArith Lia.
Local Open Scope string_scope.

(** ** Texts and optional values as JSON *)

(** [s[len(prefix):]] when [s.startswith(prefix)]. *)
Fixpoint strip_prefix (p s : string) : option string :=
  match p, s with
  | EmptyString, _ => Some s
  | String a p', String b s' => if bool_decide (a = b) then strip_prefix p' s' else None
  | String _ _, EmptyString => None
  end.

Definition py_opt_str (o : option string) : pyval := match o with Some s => PStr s | None => PNone end.
Definition py_opt_int (o : option Z) : pyval := match o with Some z => PInt z | None => PNone end.

Definition MIB : Z := 1048576.

(** The source-local identifier: the provider prefix goes. *)
Definition local_source_id (source source_id : string) : string :=
  default source_id (strip_prefix (source +:+ ":") source_id).

(** ** Virtual machines *)

Definition vm_identity_source_id (vm : DiscoveredVirtualMachine) : string :=
  local_source_id (vm_source vm) (vm_source_id vm).

Definition vm_sync_identity_match_rank (cf : option pydict) (vm : DiscoveredVirtualMachine) : result exn nat :=
  desired ← virtual_machine_source_identity vm;
  source_identity_match_rank cf desired [vm_identity_source_id vm; vm_source_id vm] (vm_legacy_identity_owner vm).

Definition matches_vm_sync_identity (cf : option pydict) (vm : DiscoveredVirtualMachine) : result exn bool :=
  rank ← vm_sync_identity_match_rank cf vm; Ok (negb (Nat.eqb rank 0)).

Definition find_vm_sync_identity_matches {A} (custom_fields : A → option pydict) (candidates : list A)
    (vm : DiscoveredVirtualMachine) : result exn (list A) :=
  select_best_identity_matches candidates (λ c, vm_sync_identity_match_rank (custom_fields c) vm).

(** [if normalized.get(k) is None: normalized[k] = v]. *)
Definition dset_if_none (k : string) (v : pyval) (d : pydict) : pydict :=
  match dget k d with PNone => dset k v d | _ => d end.

Definition build_vm_custom_fields (vm : DiscoveredVirtualMachine) (existing : option pydict) : result exn pydict :=
  let existing := fields_of existing in
  let normalized := dset_if_none "sync_original_names" (PDict []) (dset_if_none "sync_identities" (PList []) existing) in
  desired ← virtual_machine_source_identity vm;
  identities ← merge_source_identities (Some normalized) desired;
  names ← merge_original_name (Some normalized) desired (vm_original_name vm);
  Ok (dupdate existing [("sync_identities", PList (map PDict identities)); ("sync_original_names", PDict names)]).

(** ** Containers *)

Definition lxc_identity_source_id (ct : DiscoveredContainer) : string :=
  local_source_id (ct_source ct) (ct_source_id ct).

Definition lxc_sync_identity_match_rank (cf : option pydict) (ct : DiscoveredContainer) : result exn nat :=
  desired ← lxc_source_identity ct;
  source_identity_match_rank cf desired [lxc_identity_source_id ct] (ct_legacy_identity_owner ct).

Definition matches_lxc_sync_identity (cf : option pydict) (ct : DiscoveredContainer) : result exn bool :=
  rank ← lxc_sync_identity_match_rank cf ct; Ok (negb (Nat.eqb rank 0)).

Definition find_lxc_sync_identity_matches {A} (custom_fields : A → option pydict) (candidates : list A)
    (ct : DiscoveredContainer) : result exn (list A) :=
  select_best_identity_matches candidates (λ c, lxc_sync_identity_match_rank (custom_fields c) ct).

Definition build_lxc_custom_fields (ct : DiscoveredContainer) (existing : option pydict) : result exn pydict :=
  let existing := fields_of existing in
  desired ← lxc_source_identity ct;
  identities ← merge_source_identities (Some existing) desired;
  names ← merge_original_name (Some existing) desired (ct_original_name ct);
  Ok (dupdate existing
        [("sync_identities", PList (map PDict identities)); ("sync_original_names", PDict names);
         ("guest_kind", PStr "lxc"); ("guest_architecture", py_opt_str (ct_architecture ct));
         ("guest_os_type", py_opt_str (ct_os_type ct)); ("swap_mb", PInt (ct_swap_bytes ct / MIB))]).

(** ** Hosts *)

Definition sync_identity_match_rank (cf : option pydict) (h : DiscoveredHost) : result exn nat :=
  desired ← host_source_identity h;
  source_identity_match_rank cf desired [host_source_id h] (host_legacy_identity_owner h).

Definition matches_sync_identity (cf : option pydict) (h : DiscoveredHost) : result exn bool :=
  rank ← sync_identity_match_rank cf h; Ok (negb (Nat.eqb rank 0)).

(** [if v is not None: result[k] = deepcopy(v)]. *)
Definition dset_some (k : string) (v : option pydict) (d : pydict) : pydict :=
  match v with Some x => dset k (PDict x) d | None => d end.

Definition build_device_custom_fields (h : DiscoveredHost) (existing : option pydict) : result exn pydict :=
  let existing := fields_of existing in
  desired ← host_source_identity h;
  identities ← merge_source_identities (Some existing) desired;
  names ← merge_original_name (Some existing) desired (host_original_name h);
  let result := dset_some "hardware_identity" (host_hardware_identity h) existing in
  let cpu := host_cpu h in
  let result := dupdate result
    [("sync_identities", PList (map PDict identities)); ("sync_original_names", PDict names);
     ("hypervisor_version", py_opt_str (host_hypervisor_version h));
     ("cpu_model", py_opt_str (cpu_model cpu)); ("cpu_vendor", py_opt_str (cpu_vendor cpu));
     ("cpu_sockets", PInt (cpu_sockets cpu)); ("cpu_cores", PInt (cpu_cores cpu));
     ("cpu_threads", PInt (cpu_logical_cpus cpu)); ("memory_mb", PInt (host_memory_bytes h / MIB))] in
  let result :=
    if bool_decide (host_source h = "esxi") then dset_some "esxi_host_network" (host_esxi_host_network h) result
    else result in
  Ok (if bool_decide (host_source h = "proxmox")
      then dset_some "proxmox_host_network" (host_proxmox_host_network h) result else result).

(** ** Guest interfaces *)

(** [vm_identity_source_id] reads only fields both guest classes have. *)
Definition guest_identity_source_id (g : Guest) : string :=
  local_source_id (guest_source g) (guest_source_id g).

Definition nic_identity_source_id (g : Guest) (nic : DiscoveredInterface) : string :=
  guest_identity_source_id g +:+ ":" +:+ nic_name nic.

(** The builder [hasattr(vm, "architecture")] chooses. *)
Definition guest_nic_source_identity (g : Guest) (nic : DiscoveredInterface) : result exn SourceIdentity :=
  match g with
  | GuestCT ct => lxc_nic_source_identity ct nic
  | GuestVM vm => virtual_machine_nic_source_identity vm nic
  end.

Definition nic_sync_identity_match_rank (cf : option pydict) (g : Guest) (nic : DiscoveredInterface) :
    result exn nat :=
  let wanted := nic_identity_source_id g nic in
  desired ← guest_nic_source_identity g nic;
  rank ← source_identity_match_rank cf desired [wanted] (guest_legacy_identity_owner g);
  let stable_key := or_text (nic_external_id nic) "" in
  if negb (Nat.eqb rank 0) || negb (bool_decide (si_type desired = "proxmox")) ||
     negb (bool_decide (si_kind desired = "lxc-nic")) || bool_decide (stable_key = "") ||
     bool_decide (stable_key = nic_name nic)
  then Ok rank
  else
    legacy_v2 ← mk_identity (PStr (si_schema desired)) (PStr (si_type desired)) (PStr (si_instance desired))
                  (PStr (si_kind desired)) (PStr (py_str (guest_vmid g) +:+ ":" +:+ nic_name nic));
    source_identity_match_rank cf legacy_v2 [] false.

Definition matches_nic_sync_identity (cf : option pydict) (g : Guest) (nic : DiscoveredInterface) :
    result exn bool :=
  rank ← nic_sync_identity_match_rank cf g nic; Ok (negb (Nat.eqb rank 0)).

Definition find_nic_sync_identity_matches {A} (custom_fields : A → option pydict) (candidates : list A)
    (g : Guest) (nic : DiscoveredInterface) : result exn (list A) :=
  select_best_identity_matches candidates (λ c, nic_sync_identity_match_rank (custom_fields c) g nic).

Definition build_nic_custom_fields (g : Guest) (nic : DiscoveredInterface) (existing : option pydict) :
    result exn pydict :=
  let existing := fields_of existing in
  desired ← guest_nic_source_identity g nic;
  identities ← merge_source_identities (Some existing) desired;
  names ← merge_original_name (Some existing) desired (nic_name nic);
  let result := dupdate existing
    [("sync_identities", PList (map PDict identities)); ("sync_original_names", PDict names);
     ("source_bridge", py_opt_str (nic_bridge nic)); ("source_vlan_id", py_opt_int (nic_vlan_id nic))] in
  match nic_network_observations nic with
  | None => Ok result
  | Some observations =>
      let previous := dget "sync_network_observations" existing in
      match (if truthy previous then previous else PDict []) with
      | PDict prev =>
          Ok (dset "sync_network_observations"
                (PDict (dset (guest_source_instance g) (PDict observations) prev)) result)
      | _ => Err (ValueError "Incompatible network observation field")
      end
  end.

(** ** What every managed kind promises *)

(** The interface the executors rely on: an identity, a ranked matcher and a
    builder of the custom fields to write. *)
Class ManagedObject (A : Type) := {
  identity_of : A → result exn SourceIdentity;
  match_rank : option pydict → A → result exn nat;
  build_fields : A → option pydict → result exn pydict;
  managed_keys : list string }.

(** The laws: the builder stores the merge of the object's identity into fields
    that rank as the existing ones did, the matcher prefers v2, and no
    unmanaged field changes. *)
Class ManagedLaws (A : Type) `{ManagedObject A} := {
  build_stores_merge : ∀ a e f, build_fields a e = Ok f →
    ∃ d base rs, identity_of a = Ok d ∧ merge_source_identities base d = Ok rs ∧
      (∀ i ids owner, source_identity_match_rank base i ids owner = source_identity_match_rank e i ids owner) ∧
      dget "sync_identities" f = PList (map PDict rs);
  match_prefers_v2 : ∀ a cf d, identity_of a = Ok d →
    (∀ ids owner, source_identity_match_rank cf d ids owner = Ok V2_IDENTITY_MATCH) →
    match_rank cf a = Ok V2_IDENTITY_MATCH;
  identity_valid : ∀ a d, identity_of a = Ok d → valid_identity d = true;
  build_keeps_others : ∀ a e f k, build_fields a e = Ok f → k ∉ managed_keys →
    dlookup k f = dlookup k (fields_of e) }.

Lemma rank_ext cf cf' d ids owner :
  dget "sync_identities" (fields_of cf) = dget "sync_identities" (fields_of cf') →
  source_identity_match_rank cf d ids owner = source_identity_match_rank cf' d ids owner.
Proof. intros E. unfold source_identity_match_rank. by rewrite E. Qed.

Lemma dget_stored cf rs : dget "sync_identities" (fields_of (store_identities cf rs)) = PList (map PDict rs).
Proof. unfold dget. by rewrite stored_identities. Qed.

Section Managed.
Context `{ManagedLaws A}.
Implicit Types (a : A).

Lemma built_matches a e f :
  build_fields a e = Ok f → match_rank (Some f) a = Ok V2_IDENTITY_MATCH.
Proof.
  intros (d & base & rs & Hd & Hm & _ & Hf)%build_stores_merge.
  eapply match_prefers_v2; [done|]. intros ids owner.
  rewrite <-(merge_then_rank _ _ _ ids owner (identity_valid _ _ Hd) Hm).
  apply rank_ext. by rewrite dget_stored.
Qed.

Lemma built_isolates a e f d other ids owner :
  build_fields a e = Ok f → identity_of a = Ok d → same_namespace other d = false →
  source_identity_match_rank (Some f) other ids owner = source_identity_match_rank e other ids owner.
Proof.
  intros (d' & base & rs & Hd & Hm & Hbase & Hf)%build_stores_merge Hd' Hns.
  assert (d' = d) as -> by congruence.
  rewrite <-Hbase, <-(merge_rank_isolated _ _ _ other ids owner (identity_valid _ _ Hd) Hns Hm).
  apply rank_ext. by rewrite dget_stored.
Qed.
End Managed.

(** ** The instances *)

#[export] Instance host_managed : ManagedObject DiscoveredHost := {|
  identity_of := host_source_identity;
  match_rank := sync_identity_match_rank;
  build_fields := build_device_custom_fields;
  managed_keys := ["hardware_identity"; "sync_identities"; "sync_original_names"; "hypervisor_version"; "cpu_model";
    "cpu_vendor"; "cpu_sockets"; "cpu_cores"; "cpu_threads"; "memory_mb"; "esxi_host_network"; "proxmox_host_network"] |}.

#[export] Instance vm_managed : ManagedObject DiscoveredVirtualMachine := {|
  identity_of := virtual_machine_source_identity;
  match_rank := vm_sync_identity_match_rank;
  build_fields := build_vm_custom_fields;
  managed_keys := ["sync_identities"; "sync_original_names"] |}.

#[export] Instance lxc_managed : ManagedObject DiscoveredContainer := {|
  identity_of := lxc_source_identity;
  match_rank := lxc_sync_identity_match_rank;
  build_fields := build_lxc_custom_fields;
  managed_keys := ["sync_identities"; "sync_original_names"; "guest_kind"; "guest_architecture"; "guest_os_type"; "swap_mb"] |}.

#[export] Instance nic_managed : ManagedObject (Guest * DiscoveredInterface) := {|
  identity_of p := guest_nic_source_identity p.1 p.2;
  match_rank cf p := nic_sync_identity_match_rank cf p.1 p.2;
  build_fields p e := build_nic_custom_fields p.1 p.2 e;
  managed_keys := ["sync_identities"; "sync_original_names"; "source_bridge"; "source_vlan_id"; "sync_network_observations"] |}.

Lemma identity_is_valid s i k e d : identity s i k e = Ok d → valid_identity d = true.
Proof. unfold identity. intros H. by eapply mk_identity_Ok. Qed.

Lemma vm_identity_is_valid vm d : virtual_machine_source_identity vm = Ok d → valid_identity d = true.
Proof.
  unfold virtual_machine_source_identity, qemu_source_identity. case_bool_decide; apply identity_is_valid.
Qed.

Lemma nic_identity_is_valid g nic d : guest_nic_source_identity g nic = Ok d → valid_identity d = true.
Proof.
  destruct g; simpl; unfold virtual_machine_nic_source_identity, qemu_nic_source_identity, lxc_nic_source_identity;
    repeat case_bool_decide; apply identity_is_valid.
Qed.

Lemma dget_dset_some_ne k k' v d : k' ≠ k → dlookup k' (dset_some k v d) = dlookup k' d.
Proof. destruct v; simpl; [|done]. intros. by rewrite dlookup_dset, decide_False. Qed.

Lemma dset_if_none_rank k v cf d ids owner :
  v = PList [] ∨ k ≠ "sync_identities" →
  source_identity_match_rank (Some (dset_if_none k v cf)) d ids owner =
  source_identity_match_rank (Some cf) d ids owner.
Proof.
  intros Hk. unfold source_identity_match_rank, fields_of, dset_if_none. cbn [from_option id].
  destruct (dget k cf) eqn:E; try done. destruct (decide (k = "sync_identities")) as [->|].
  - destruct Hk as [->|]; [|done]. rewrite dget_dset_eq, E. simpl. by destruct owner.
  - by rewrite dget_dset_ne.
Qed.

(** Reads a field of the built dictionary through the updates that made it. *)
Ltac read_fields :=
  unfold dget, dupdate; cbn [foldl fst snd];
  repeat first [ rewrite dlookup_dset | rewrite dget_dset_some_ne by (first [done | congruence]) ];
  repeat case_decide; try done; try congruence.

#[export] Instance host_laws : ManagedLaws DiscoveredHost.
Proof.
  split; simpl; unfold build_device_custom_fields.
  - intros h e f Hf. inv_m. do 3 eexists. split; [done|]. split; [done|]. split.
    + intros. by apply rank_ext.
    + repeat case_bool_decide; read_fields.
  - intros h cf d Hd Hr. unfold sync_identity_match_rank. rewrite Hd. apply Hr.
  - intros h d. apply identity_is_valid.
  - intros h e f k Hf Hk. inv_m. rewrite !not_elem_of_cons in Hk.
    destruct_and!. repeat case_bool_decide; read_fields.
Qed.

#[export] Instance vm_laws : ManagedLaws DiscoveredVirtualMachine.
Proof.
  split; simpl; unfold build_vm_custom_fields.
  - intros vm e f Hf. inv_m. do 3 eexists. split; [done|]. split; [done|]. split.
    + intros. rewrite !dset_if_none_rank by naive_solver. by apply rank_ext.
    + read_fields.
  - intros vm cf d Hd Hr. unfold vm_sync_identity_match_rank. rewrite Hd. apply Hr.
  - intros vm d. apply vm_identity_is_valid.
  - intros vm e f k Hf Hk. inv_m. rewrite !not_elem_of_cons in Hk. destruct_and!. read_fields.
Qed.

#[export] Instance lxc_laws : ManagedLaws DiscoveredContainer.
Proof.
  split; simpl; unfold build_lxc_custom_fields.
  - intros ct e f Hf. inv_m. do 3 eexists. split; [done|]. split; [done|]. split.
    + intros. by apply rank_ext.
    + read_fields.
  - intros ct cf d Hd Hr. unfold lxc_sync_identity_match_rank. rewrite Hd. apply Hr.
  - intros ct d. apply identity_is_valid.
  - intros ct e f k Hf Hk. inv_m. rewrite !not_elem_of_cons in Hk. destruct_and!. read_fields.
Qed.

#[export] Instance nic_laws : ManagedLaws (Guest * DiscoveredInterface).
Proof.
  split; simpl; unfold build_nic_custom_fields.
  - intros [g nic] e f Hf. simpl in Hf. inv_m. do 3 eexists. split; [done|]. split; [done|]. split.
    + intros. by apply rank_ext.
    + repeat case_match; simplify_eq; read_fields.
  - intros [g nic] cf d Hd Hr. simpl in *. unfold nic_sync_identity_match_rank. rewrite Hd. simpl.
    rewrite Hr. done.
  - intros [g nic] d. apply nic_identity_is_valid.
  - intros [g nic] e f k Hf Hk. simpl in Hf. inv_m. rewrite !not_elem_of_cons in Hk. destruct_and!.
    repeat case_match; simplify_eq; read_fields.
Qed.

(** ** The properties of the four kinds *)

(** Writing is matched by reading, for hosts, virtual machines, containers
    and guest interfaces: the custom fields built for an object, from whatever
    the NetBox record held before, match that object at the v2 rank. *)
Theorem built_fields_match_v2 :
  (∀ h e f, build_device_custom_fields h e = Ok f → sync_identity_match_rank (Some f) h = Ok V2_IDENTITY_MATCH) ∧
  (∀ vm e f, build_vm_custom_fields vm e = Ok f → vm_sync_identity_match_rank (Some f) vm = Ok V2_IDENTITY_MATCH) ∧
  (∀ ct e f, build_lxc_custom_fields ct e = Ok f → lxc_sync_identity_match_rank (Some f) ct = Ok V2_IDENTITY_MATCH) ∧
  (∀ g nic e f, build_nic_custom_fields g nic e = Ok f →
    nic_sync_identity_match_rank (Some f) g nic = Ok V2_IDENTITY_MATCH).
Proof.
  split_and!; [exact (λ h, built_matches h)|exact (λ h, built_matches h)|exact (λ h, built_matches h)|].
  exact (λ g nic, built_matches (g, nic)).
Qed.

Definition sample_ct : DiscoveredContainer := {|
  ct_source := "proxmox"; ct_source_instance := "pve-a"; ct_legacy_identity_owner := true;
  ct_source_id := "proxmox:node1:lxc:101"; ct_node_source_id := "node1"; ct_vmid := 101;
  ct_original_name := "web"; ct_normalized_name := "web"; ct_status := "running";
  ct_architecture := Some "amd64"; ct_os_type := Some "debian"; ct_vcpus := 2; ct_memory_bytes := 1073741824;
  ct_swap_bytes := 536870912; ct_autostart := true; ct_unprivileged := true; ct_disks := []; ct_interfaces := [] |}.
Definition sample_nic : DiscoveredInterface := {|
  nic_name := "eth0"; nic_mac_address := Some "AA:BB:CC:00:11:22"; nic_bridge := Some "vmbr0"; nic_vlan_id := Some 10%Z;
  nic_ip_addresses := []; nic_external_id := Some "net0"; nic_network_observations := Some [("state", PStr "seen")];
  nic_ip_vrf_id := None; nic_ip_scope_conflicts := []; nic_mac_scope_conflicts := [] |}.
Definition sample_ct_existing : option pydict :=
  Some [("owner", PStr "team-a");
        ("sync_identities", PList [PDict legacy_record; PDict (to_record other_identity)])].
Definition sample_ct_fields : pydict :=
  Eval vm_compute in
    match build_lxc_custom_fields sample_ct sample_ct_existing with Ok f => f | Err _ => [] end.
Definition sample_nic_fields : pydict :=
  Eval vm_compute in
    match build_nic_custom_fields (GuestCT sample_ct) sample_nic sample_ct_existing with Ok f => f | Err _ => [] end.

Lemma sample_ct_build : build_lxc_custom_fields sample_ct sample_ct_existing = Ok sample_ct_fields.
Proof. vm_compute. reflexivity. Qed.
Lemma sample_nic_build :
  build_nic_custom_fields (GuestCT sample_ct) sample_nic sample_ct_existing = Ok sample_nic_fields.
Proof. vm_compute. reflexivity. Qed.

Lemma built_fields_match_v2_witness :
  lxc_sync_identity_match_rank sample_ct_existing sample_ct = Ok 0 ∧
  lxc_sync_identity_match_rank (Some sample_ct_fields) sample_ct = Ok V2_IDENTITY_MATCH ∧
  nic_sync_identity_match_rank (Some sample_nic_fields) (GuestCT sample_ct) sample_nic = Ok V2_IDENTITY_MATCH.
Proof.
  destruct built_fields_match_v2 as (_ & _ & Hct & Hnic). split_and!.
  - vm_compute. reflexivity.
  - exact (Hct _ _ _ sample_ct_build).
  - exact (Hnic _ _ _ _ sample_nic_build).
Defined.

(** A write for one object leaves every identity of another source,
    instance or kind at the rank it had on that NetBox record, for all four
    kinds. *)
Theorem built_fields_isolate_sources other ids owner :
  (∀ h e f d, build_device_custom_fields h e = Ok f → host_source_identity h = Ok d → same_namespace other d = false →
    source_identity_match_rank (Some f) other ids owner = source_identity_match_rank e other ids owner) ∧
  (∀ vm e f d, build_vm_custom_fields vm e = Ok f → virtual_machine_source_identity vm = Ok d →
    same_namespace other d = false →
    source_identity_match_rank (Some f) other ids owner = source_identity_match_rank e other ids owner) ∧
  (∀ ct e f d, build_lxc_custom_fields ct e = Ok f → lxc_source_identity ct = Ok d → same_namespace other d = false →
    source_identity_match_rank (Some f) other ids owner = source_identity_match_rank e other ids owner) ∧
  (∀ g nic e f d, build_nic_custom_fields g nic e = Ok f → guest_nic_source_identity g nic = Ok d →
    same_namespace other d = false →
    source_identity_match_rank (Some f) other ids owner = source_identity_match_rank e other ids owner).
Proof.
  split_and!; [intros a e f d H1 H2 H3; exact (built_isolates a e f d other ids owner H1 H2 H3)..|].
  intros g nic e f d H1 H2 H3. exact (built_isolates (g, nic) e f d other ids owner H1 H2 H3).
Qed.

Lemma built_fields_isolate_sources_witness :
  source_identity_match_rank (Some sample_ct_fields) other_identity [] false =
  source_identity_match_rank sample_ct_existing other_identity [] false.
Proof.
  destruct (built_fields_isolate_sources other_identity [] false) as (_ & _ & Hct & _).
  eapply Hct; [exact sample_ct_build | vm_compute; reflexivity | vm_compute; reflexivity].
Defined.

(** An update writes no custom field it does not manage: every other field
    of the NetBox record is passed through unchanged, and an absent
    optional observation keeps what earlier runs stored. *)
Theorem built_fields_preserve_unmanaged k :
  (∀ h e f, build_device_custom_fields h e = Ok f →
    k ∉ ["hardware_identity"; "sync_identities"; "sync_original_names"; "hypervisor_version"; "cpu_model";
         "cpu_vendor"; "cpu_sockets"; "cpu_cores"; "cpu_threads"; "memory_mb"; "esxi_host_network";
         "proxmox_host_network"] → dlookup k f = dlookup k (fields_of e)) ∧
  (∀ vm e f, build_vm_custom_fields vm e = Ok f → k ∉ ["sync_identities"; "sync_original_names"] →
    dlookup k f = dlookup k (fields_of e)) ∧
  (∀ ct e f, build_lxc_custom_fields ct e = Ok f →
    k ∉ ["sync_identities"; "sync_original_names"; "guest_kind"; "guest_architecture"; "guest_os_type"; "swap_mb"] →
    dlookup k f = dlookup k (fields_of e)) ∧
  (∀ g nic e f, build_nic_custom_fields g nic e = Ok f →
    k ∉ ["sync_identities"; "sync_original_names"; "source_bridge"; "source_vlan_id"; "sync_network_observations"] →
    dlookup k f = dlookup k (fields_of e)).
Proof.
  split_and!; [intros a e f H1 H2; exact (build_keeps_others a e f k H1 H2)..|].
  intros g nic e f H1 H2. exact (build_keeps_others (g, nic) e f k H1 H2).
Qed.

Lemma built_fields_preserve_unmanaged_witness :
  dlookup "owner" sample_ct_fields = Some (PStr "team-a").
Proof.
  destruct (built_fields_preserve_unmanaged "owner") as (_ & _ & Hct & _).
  rewrite (Hct _ _ _ sample_ct_build); [reflexivity|]. by apply (bool_decide_unpack _).
Defined.

(** The network observations of an interface are kept per source instance:
    a write for one instance stores its observation and leaves those of the
    other instances in place; a field of another shape is refused, never
    overwritten. *)
Theorem nic_observations_per_instance g nic e obs :
  nic_network_observations nic = Some obs →
  (∀ f, build_nic_custom_fields g nic e = Ok f → ∃ after,
    dget "sync_network_observations" f = PDict after ∧
    dlookup (guest_source_instance g) after = Some (PDict obs) ∧
    ∀ i before, i ≠ guest_source_instance g → dget "sync_network_observations" (fields_of e) = PDict before →
      dlookup i after = dlookup i before) ∧
  (truthy (dget "sync_network_observations" (fields_of e)) = true →
   is_dict (dget "sync_network_observations" (fields_of e)) = false →
   ∀ f, build_nic_custom_fields g nic e ≠ Ok f).
Proof.
  intros Hobs. unfold build_nic_custom_fields. rewrite Hobs. split.
  - intros f Hf. inv_m. case_match eqn:E; simplify_eq. eexists. split; [by rewrite dget_dset_eq|].
    split; [by rewrite dlookup_dset, decide_True|]. intros i before Hi Hb.
    rewrite dlookup_dset, decide_False by done. rewrite Hb in E. destruct before; naive_solver.
  - intros Ht Hd f Hf. inv_m. rewrite Ht in *. by case_match eqn:E.
Qed.

Lemma nic_observations_per_instance_witness : ∃ after,
  dget "sync_network_observations" sample_nic_fields = PDict after ∧
  dlookup "pve-a" after = Some (PDict [("state", PStr "seen")]).
Proof.
  destruct (nic_observations_per_instance (GuestCT sample_ct) sample_nic sample_ct_existing
    [("state", PStr "seen")] eq_refl) as [H _].
  destruct (H _ sample_nic_build) as (after & H1 & H2 & _). exists after. split; [exact H1 | exact H2].
Defined.
