(* ===== verification/Calendar.v ===== *)
(** * Calendar schedules (netbox_sync/calendar_schedule.py)

    The proleptic Gregorian calendar of Python's [datetime], the validation of a
    daily, weekly or monthly Moscow schedule, and [next_slot]. An instant is a
    number of microseconds since 1970-01-01 UTC, a wall-clock time a number of
    microseconds since 1970-01-01 on that clock. The time zone database is not
    part of the program: the two conversions are the class [MoscowZone]. *)

From S2P Require Import Prelude PyValue.
From stdpp Require Import base list strings pretty.
From Stdlib Require Import ZArith Lia Ascii.
Local Open Scope string_scope.
Local Open Scope Z_scope.

(** ** [datetime.date]: years, months and ordinals *)

Definition is_leap (y : Z) : bool :=
  (y mod 4 =? 0) && (negb (y mod 100 =? 0) || (y mod 400 =? 0)).

(** [calendar.monthrange(year, month)[1]]. *)
Definition days_in_month (leap : bool) (m : Z) : Z :=
  if m =? 2 then (if leap then 29 else 28)
  else if (m =? 4) || (m =? 6) || (m =? 9) || (m =? 11) then 30 else 31.

Definition days_before_year (y : Z) : Z := (y - 1) * 365 + (y - 1) / 4 - (y - 1) / 100 + (y - 1) / 400.

Definition days_before_month (leap : bool) (m : Z) : Z :=
  nth (Z.to_nat m) [-1; 0; 31; 59; 90; 120; 151; 181; 212; 243; 273; 304; 334] 0 +
  (if (2 <? m) && leap then 1 else 0).

(** [date.toordinal]. *)
Definition ymd2ord (y m d : Z) : Z := days_before_year y + days_before_month (is_leap y) m + d.

(** The month and day of the [n]-th day (from 0) of a year. *)
Definition month_day (leap : bool) (n : Z) : Z * Z :=
  let month := Z.shiftr (n + 50) 5 in
  let preceding := days_before_month leap month in
  if n <? preceding then
    let month := month - 1 in (month, n - (preceding - days_in_month leap month) + 1)
  else (month, n - preceding + 1).

(** [date.fromordinal]. *)
Definition ord2ymd (ordinal : Z) : Z * Z * Z :=
  let n := ordinal - 1 in
  let n400 := n / 146097 in let n := n mod 146097 in
  let n100 := n / 36524 in let n := n mod 36524 in
  let n4 := n / 1461 in let n := n mod 1461 in
  let n1 := n / 365 in let n := n mod 365 in
  let year := n400 * 400 + 1 + n100 * 100 + n4 * 4 + n1 in
  if (n1 =? 4) || (n100 =? 4) then (year - 1, 12, 31)
  else
    let leap := (n1 =? 3) && (negb (n4 =? 24) || (n100 =? 3)) in
    let '(m, d) := month_day leap n in (year, m, d).

(** [date.isoweekday]. *)
Definition isoweekday (ordinal : Z) : Z := if ordinal mod 7 =? 0 then 7 else ordinal mod 7.

(** The ordinal of 9999-12-31, the last [date]. *)
Definition MAXORDINAL : Z := 3652059.
Definition EPOCH_ORDINAL : Z := 719163.
Definition US_SECOND : Z := 1000000.
Definition US_DAY : Z := 86400 * US_SECOND.

(** [datetime]: aware values are instants, naive ones wall-clock times. *)
Inductive datetime :=
| Aware (utc : Z)
| Naive (wall : Z).

(** ** Validation *)

(** [re.fullmatch("(?:[01][0-9]|2[0-3]):[0-5][0-9]", s)] with the hour and the
    minute that [map(int, s.split(":"))] reads off a matching text. *)
Definition digit_value (c : Ascii.ascii) : Z := Z.of_nat (Ascii.nat_of_ascii c) - 48.
Definition parse_time (s : string) : option (Z * Z) :=
  match s with
  | String h1 (String h2 (String colon (String m1 (String m2 EmptyString)))) =>
      if ((in_range "0" "1" h1 && is_digit h2) || (bool_decide (h1 = "2"%char) && in_range "0" "3" h2)) &&
         bool_decide (colon = ":"%char) && in_range "0" "5" m1 && is_digit m2
      then Some (10 * digit_value h1 + digit_value h2, 10 * digit_value m1 + digit_value m2)
      else None
  | _ => None
  end.

(** [set(value) == expected], for a dictionary without repeated keys. *)
Definition same_keys (d : pydict) (expected : list string) : bool :=
  forallb (λ k, bool_decide (k ∈ expected)) (dkeys d) && forallb (λ k, bool_decide (k ∈ dkeys d)) expected.

Definition validate_calendar (value : pyval) : result exn (option pydict) :=
  match value with
  | PNone => Ok None
  | PDict d =>
      match dget "mode" d with
      | PStr mode =>
          if negb (bool_decide (mode ∈ ["daily"; "weekly"; "monthly"])) then Err (ValueError "invalid calendar schedule")
          else
            let daily := bool_decide (mode = "daily") in
            let expected := (["mode"; "time"; "timezone"] ++ (if daily then [] else ["day"]))%list in
            if negb (same_keys d expected) || negb (py_eqb (dget "timezone" d) (PStr "Europe/Moscow"))
            then Err (ValueError "invalid calendar schedule")
            else
              match dget "time" d with
              | PStr time =>
                  match parse_time time with
                  | None => Err (ValueError "invalid calendar time")
                  | Some _ =>
                      if daily then Ok (Some d)
                      else
                        match dget "day" d with
                        | PInt day =>
                            if (1 <=? day) && (day <=? (if bool_decide (mode = "weekly") then 7 else 31)) then Ok (Some d)
                            else Err (ValueError "invalid calendar day")
                        | _ => Err (ValueError "invalid calendar day")
                        end
                  end
              | _ => Err (ValueError "invalid calendar time")
              end
      | _ => Err (ValueError "invalid calendar schedule")
      end
  | _ => Err (ValueError "invalid calendar schedule")
  end.

(** ** The next slot *)

(** [astimezone(MSK)] on instants, and [astimezone(timezone.utc)] on Moscow
    wall-clock times. *)
Class MoscowZone := {
  utc_to_wall : Z → Z;
  wall_to_utc : Z → Z }.

(** The two [continue] tests of the loop. *)
Definition day_matches (calendar : pydict) (ordinal : Z) : bool :=
  let '(y, m, d) := ord2ymd ordinal in
  if py_eqb (dget "mode" calendar) (PStr "weekly") then py_eqb (PInt (isoweekday ordinal)) (dget "day" calendar)
  else if py_eqb (dget "mode" calendar) (PStr "monthly") then
    match dget "day" calendar with
    | PInt day => d =? Z.min day (days_in_month (is_leap y) m)
    | _ => false
    end
  else true.

Definition wall_time (ordinal hour minute : Z) : Z :=
  (ordinal - EPOCH_ORDINAL) * US_DAY + (hour * 60 + minute) * 60 * US_SECOND.

Section NextSlot.
Context `{MoscowZone}.

Fixpoint search_slot (calendar : pydict) (hour minute local : Z) (offsets : list Z) : result exn Z :=
  match offsets with
  | [] => Err (ValueError "calendar occurrence unavailable")
  | offset :: rest =>
      let day := local / US_DAY + EPOCH_ORDINAL + offset in
      if MAXORDINAL <? day then Err (OtherException "OverflowError" None)
      else if negb (day_matches calendar day) then search_slot calendar hour minute local rest
      else
        let result := wall_time day hour minute in
        if local <? result then Ok (wall_to_utc result) else search_slot calendar hour minute local rest
  end.

Definition next_slot (value : pyval) (after : datetime) : result exn Z :=
  calendar ← validate_calendar value;
  match after with
  | Naive _ => Err (ValueError "timezone required")
  | Aware utc =>
      let local := utc_to_wall utc in
      match calendar with
      | None => Err (TypeError "'NoneType' object is not subscriptable")
      | Some d =>
          match dget "time" d with
          | PStr time =>
              match parse_time time with
              | Some (hour, minute) => search_slot d hour minute local (seqZ 0 63)
              | None => Err (ValueError "invalid literal for int()")
              end
          | _ => Err (TypeError "time")
          end
      end
  end.
End NextSlot.

(** ** Calendar arithmetic *)

Definition year_length (leap : bool) : Z := if leap then 366 else 365.

Definition valid_month_day (leap : bool) (md : Z * Z) : bool :=
  (1 <=? md.1) && (md.1 <=? 12) && (1 <=? md.2) && (md.2 <=? days_in_month leap md.1).

Lemma month_day_check :
  forallb (λ leap, forallb (λ n, valid_month_day leap (month_day leap n) &&
     (days_before_month leap (month_day leap n).1 + (month_day leap n).2 =? n + 1))
     (seqZ 0 (year_length leap))) [true; false] = true.
Proof. vm_compute. reflexivity. Qed.

Lemma month_day_spec leap n m d :
  0 ≤ n < year_length leap → month_day leap n = (m, d) →
  1 ≤ m ≤ 12 ∧ 1 ≤ d ≤ days_in_month leap m ∧ days_before_month leap m + d = n + 1.
Proof.
  intros Hn E. pose proof month_day_check as H.
  rewrite forallb_forall in H. specialize (H leap ltac:(destruct leap; simpl; tauto)).
  rewrite forallb_forall in H. specialize (H n). rewrite E in H.
  assert (In n (seqZ 0 (year_length leap))) as Hin by (apply list_elem_of_In, elem_of_seqZ; lia).
  specialize (H Hin). unfold valid_month_day in H. cbn [fst snd] in H. lia.
Qed.

(** [lia] with division and remainder by constants. *)
Local Ltac div_lia := Z.to_euclidean_division_equations; lia.

Lemma is_leap_spec y : is_leap y = true ↔ y mod 4 = 0 ∧ (y mod 100 ≠ 0 ∨ y mod 400 = 0).
Proof. unfold is_leap. rewrite andb_true_iff, orb_true_iff, negb_true_iff, !Z.eqb_eq, Z.eqb_neq. done. Qed.

Lemma is_leap_cycle a b c d :
  0 ≤ b < 4 → 0 ≤ c < 25 → 0 ≤ d < 4 →
  is_leap (a * 400 + 1 + b * 100 + c * 4 + d) = (d =? 3) && (negb (c =? 24) || (b =? 3)).
Proof.
  intros. apply eq_true_iff_eq.
  rewrite is_leap_spec, andb_true_iff, orb_true_iff, negb_true_iff, !Z.eqb_eq, Z.eqb_neq.
  set (y := a * 400 + 1 + b * 100 + c * 4 + d).
  assert (y mod 4 = (1 + d) mod 4) as -> by (subst y; div_lia).
  assert (y mod 100 = (1 + c * 4 + d) mod 100) as -> by (subst y; div_lia).
  assert (y mod 400 = (1 + b * 100 + c * 4 + d) mod 400) as -> by (subst y; div_lia).
  split; div_lia.
Qed.

Lemma days_before_year_cycle a b c d :
  0 ≤ b < 4 → 0 ≤ c < 25 → 0 ≤ d < 4 →
  days_before_year (a * 400 + 1 + b * 100 + c * 4 + d) = 146097 * a + 36524 * b + 1461 * c + 365 * d.
Proof. intros. unfold days_before_year. div_lia. Qed.

Lemma days_before_year_succ y : days_before_year (y + 1) = days_before_year y + year_length (is_leap y).
Proof.
  unfold days_before_year, year_length. pose proof (is_leap_spec y) as H.
  destruct (is_leap y); [destruct (proj1 H eq_refl)|];
    [|assert (¬ (y mod 4 = 0 ∧ (y mod 100 ≠ 0 ∨ y mod 400 = 0))) by (by rewrite <-H)]; div_lia.
Qed.

Definition valid_date (y m d : Z) : Prop := 1 ≤ m ≤ 12 ∧ 1 ≤ d ≤ days_in_month (is_leap y) m.

Lemma ord2ymd_spec n y m d : ord2ymd n = (y, m, d) → valid_date y m d ∧ ymd2ord y m d = n.
Proof.
  unfold ord2ymd, ymd2ord, valid_date. intros E.
  set (r := (n - 1) mod 146097) in *. set (a := (n - 1) / 146097) in *.
  set (r1 := r mod 36524) in *. set (b := r / 36524) in *.
  set (r2 := r1 mod 1461) in *. set (c := r1 / 1461) in *.
  set (e := r2 mod 365) in *. set (g := r2 / 365) in *.
  assert (n = 146097 * a + 36524 * b + 1461 * c + 365 * g + e + 1) as Hn by (subst r a r1 b r2 c e g; div_lia).
  assert (0 ≤ b ≤ 4 ∧ 0 ≤ c < 25 ∧ 0 ≤ g ≤ 4 ∧ 0 ≤ e < 365 ∧ (b = 4 → c = 0 ∧ g = 0 ∧ e = 0) ∧ (g = 4 → e = 0) ∧
    (g = 4 → c = 24 → b = 4 ∨ b = 3)) as (Hb & Hc & Hg & He & Hb4 & Hg4 & Hgc)
    by (subst r a r1 b r2 c e g; div_lia).
  clearbody r a r1 b r2 c e g. clear r r1 r2.
  destruct ((g =? 4) || (b =? 4)) eqn:Elast; simplify_eq.
  - assert (b ≠ 4 → g = 4) as Hgb by lia. clear Elast.
    pose (b' := if decide (b = 4) then 3 else b). pose (c' := if decide (b = 4) then 24 else c).
    assert (a * 400 + 1 + b * 100 + c * 4 + g - 1 = a * 400 + 1 + b' * 100 + c' * 4 + 3) as ->
      by (subst b' c'; case_decide; lia).
    assert (0 ≤ b' < 4 ∧ 0 ≤ c' < 25 ∧ (c' ≠ 24 ∨ b' = 3)) as (? & ? & ?) by (subst b' c'; case_decide; lia).
    rewrite days_before_year_cycle, is_leap_cycle by lia.
    replace ((3 =? 3) && (negb (c' =? 24) || (b' =? 3))) with true by lia.
    change (days_before_month true 12) with 335. change (days_in_month true 12) with 31.
    subst b' c'. case_decide; lia.
  - destruct (month_day _ e) as [m' d'] eqn:Emd. simplify_eq.
    rewrite days_before_year_cycle, is_leap_cycle by lia.
    apply month_day_spec in Emd; [lia|]. unfold year_length. case_match; lia.
Qed.

Lemma month_day_inv_check :
  forallb (λ leap, forallb (λ m, forallb (λ d,
    bool_decide (month_day leap (days_before_month leap m + d - 1) = (m, d)) &&
    (0 <=? days_before_month leap m + d - 1) && (days_before_month leap m + d - 1 <? year_length leap))
    (seqZ 1 (days_in_month leap m))) (seqZ 1 12)) [true; false] = true.
Proof. vm_compute. reflexivity. Qed.

Lemma month_day_inv leap m d :
  1 ≤ m ≤ 12 → 1 ≤ d ≤ days_in_month leap m →
  month_day leap (days_before_month leap m + d - 1) = (m, d) ∧
  0 ≤ days_before_month leap m + d - 1 < year_length leap.
Proof.
  intros Hm Hd. pose proof month_day_inv_check as H.
  rewrite forallb_forall in H. specialize (H leap ltac:(destruct leap; simpl; tauto)).
  rewrite forallb_forall in H. specialize (H m ltac:(apply list_elem_of_In, elem_of_seqZ; lia)).
  rewrite forallb_forall in H. specialize (H d ltac:(apply list_elem_of_In, elem_of_seqZ; lia)).
  rewrite !andb_true_iff in H. destruct H as [[H%bool_decide_eq_true ?] ?]. split; [done|lia].
Qed.

Lemma days_before_year_mono y y' : y < y' → days_before_year y + year_length (is_leap y) ≤ days_before_year y'.
Proof.
  intros. rewrite <-days_before_year_succ. unfold days_before_year. div_lia.
Qed.

Lemma ymd2ord_inj y m d y' m' d' :
  valid_date y m d → valid_date y' m' d' → ymd2ord y m d = ymd2ord y' m' d' → (y, m, d) = (y', m', d').
Proof.
  unfold ymd2ord. intros [Hm Hd] [Hm' Hd'] E.
  destruct (month_day_inv _ _ _ Hm Hd) as [E1 ?], (month_day_inv _ _ _ Hm' Hd') as [E2 ?].
  assert (y = y') as <-.
  { destruct (Z.lt_trichotomy y y') as [Hy|[Hy|Hy]]; [|done|]; apply days_before_year_mono in Hy; lia. }
  replace (days_before_month (is_leap y) m' + d') with (days_before_month (is_leap y) m + d) in E2 by lia.
  congruence.
Qed.

(** The date of an ordinal and the ordinal of a date are inverse. *)
Lemma ord2ymd_ymd2ord y m d : valid_date y m d → ord2ymd (ymd2ord y m d) = (y, m, d).
Proof.
  intros Hv. destruct (ord2ymd (ymd2ord y m d)) as [[y' m'] d'] eqn:E.
  apply ord2ymd_spec in E as [Hv' E]. symmetry. by apply ymd2ord_inj.
Qed.

Definition next_month (y m : Z) : Z * Z := if m =? 12 then (y + 1, 1) else (y, m + 1).

Lemma days_before_next_month leap m :
  1 ≤ m < 12 → days_before_month leap (m + 1) = days_before_month leap m + days_in_month leap m.
Proof.
  intros. assert (m ∈ [1; 2; 3; 4; 5; 6; 7; 8; 9; 10; 11]) as Hm.
  { change [1; 2; 3; 4; 5; 6; 7; 8; 9; 10; 11] with (seqZ 1 11). apply elem_of_seqZ. lia. }
  repeat (apply elem_of_cons in Hm as [->|Hm]; [by destruct leap|]). by apply elem_of_nil in Hm.
Qed.

Lemma ymd2ord_next_month y m d y' m' d' :
  1 ≤ m ≤ 12 → next_month y m = (y', m') →
  ymd2ord y' m' d' = ymd2ord y m d + (days_in_month (is_leap y) m - d) + d'.
Proof.
  unfold next_month, ymd2ord. intros Hm. destruct (Z.eqb_spec m 12) as [->|]; intros [= <- <-].
  - rewrite days_before_year_succ. change (days_before_month (is_leap (y + 1)) 1) with 0.
    unfold year_length. destruct (is_leap y); vm_compute (days_before_month _ _); vm_compute (days_in_month _ _); lia.
  - rewrite days_before_next_month by lia. lia.
Qed.

(** ** What a validated calendar says *)

Inductive calendar_mode (d : pydict) : Prop :=
| mode_daily : dget "mode" d = PStr "daily" → calendar_mode d
| mode_weekly day : dget "mode" d = PStr "weekly" → dget "day" d = PInt day → 1 ≤ day ≤ 7 → calendar_mode d
| mode_monthly day : dget "mode" d = PStr "monthly" → dget "day" d = PInt day → 1 ≤ day ≤ 31 → calendar_mode d.

Lemma in_range_digit lo hi c :
  in_range lo hi c = true → digit_value lo ≤ digit_value c ≤ digit_value hi.
Proof. unfold in_range, digit_value. rewrite andb_true_iff, !Nat.leb_le. lia. Qed.

Lemma parse_time_bounds s h m : parse_time s = Some (h, m) → 0 ≤ h < 24 ∧ 0 ≤ m < 60.
Proof.
  unfold parse_time. intros Hs. do 6 (case_match; try done). case_match eqn:E; [|done]. simplify_eq.
  unfold is_digit in E. rewrite !andb_true_iff, orb_true_iff, !andb_true_iff, !bool_decide_eq_true in E.
  destruct E as [[[[[H1 H2]|[-> H2]] _] H3%in_range_digit] H4%in_range_digit];
    [apply in_range_digit in H1|]; apply in_range_digit in H2;
    cbv [digit_value nat_of_ascii N_of_ascii N_of_digits N.to_nat] in *; simpl in *; lia.
Qed.

Lemma validate_calendar_Ok v d :
  validate_calendar v = Ok (Some d) →
  v = PDict d ∧ calendar_mode d ∧
  ∃ time h m, dget "time" d = PStr time ∧ parse_time time = Some (h, m) ∧ 0 ≤ h < 24 ∧ 0 ≤ m < 60.
Proof.
  unfold validate_calendar. intros Hv.
  destruct v as [| | | | |d']; try done.
  destruct (dget "mode" d') as [| | |mode| |] eqn:Emode; try done.
  destruct (negb (bool_decide (mode ∈ _))) eqn:Ein; [done|].
  destruct (negb _ || negb _) eqn:Ekeys; [done|].
  destruct (dget "time" d') as [| | |time| |] eqn:Etime; try done.
  destruct (parse_time time) as [[h m]|] eqn:Ep; [|done].
  pose proof (parse_time_bounds _ _ _ Ep). apply negb_false_iff, bool_decide_eq_true in Ein.
  assert (∃ t h m, dget "time" d' = PStr t ∧ parse_time t = Some (h, m) ∧ 0 ≤ h < 24 ∧ 0 ≤ m < 60) by eauto 8.
  case_bool_decide; simplify_eq.
  { split; [done|]. split; [by apply mode_daily|done]. }
  destruct (dget "day" d') as [| |day| | |] eqn:Eday; try done.
  rewrite !elem_of_cons, elem_of_nil in Ein. destruct ((1 <=? day) && _) eqn:Eb; simplify_eq.
  split; [done|]. split; [|done]. apply andb_true_iff in Eb as [? ?]. case_bool_decide; simplify_eq.
  - eapply mode_weekly; eauto; lia.
  - destruct Ein as [?|[?|[->|[]]]]; try done. eapply mode_monthly; eauto; lia.
Qed.

(** The occurrences of a calendar, as wall-clock times, in its own terms: each
    day, one day of each week, one day of each month or its last day. *)
Inductive occurs (d : pydict) : Z → Prop :=
| occurs_daily time h m o :
    dget "mode" d = PStr "daily" → dget "time" d = PStr time → parse_time time = Some (h, m) →
    occurs d (wall_time o h m)
| occurs_weekly day time h m o :
    dget "mode" d = PStr "weekly" → dget "day" d = PInt day → dget "time" d = PStr time →
    parse_time time = Some (h, m) → isoweekday o = day →
    occurs d (wall_time o h m)
| occurs_monthly day time h m y mo :
    dget "mode" d = PStr "monthly" → dget "day" d = PInt day → dget "time" d = PStr time →
    parse_time time = Some (h, m) → 1 ≤ mo ≤ 12 →
    occurs d (wall_time (ymd2ord y mo (Z.min day (days_in_month (is_leap y) mo))) h m).

Lemma days_in_month_bounds leap m : 28 ≤ days_in_month leap m ≤ 31.
Proof. unfold days_in_month. repeat case_match; lia. Qed.

Lemma day_matches_daily d o : dget "mode" d = PStr "daily" → day_matches d o = true.
Proof. unfold day_matches. intros ->. by destruct (ord2ymd o) as [[??]?]. Qed.

Lemma day_matches_weekly d o day :
  dget "mode" d = PStr "weekly" → dget "day" d = PInt day → day_matches d o = true ↔ isoweekday o = day.
Proof.
  unfold day_matches. intros -> ->. destruct (ord2ymd o) as [[??]?]. simpl.
  rewrite bool_decide_eq_true. naive_solver.
Qed.

Lemma day_matches_monthly d o day :
  dget "mode" d = PStr "monthly" → dget "day" d = PInt day → 1 ≤ day →
  day_matches d o = true ↔
  ∃ y mo, 1 ≤ mo ≤ 12 ∧ o = ymd2ord y mo (Z.min day (days_in_month (is_leap y) mo)).
Proof.
  unfold day_matches. intros -> -> Hday. destruct (ord2ymd o) as [[y m] dd] eqn:E.
  replace (py_eqb (PStr "monthly") (PStr "weekly")) with false by done.
  replace (py_eqb (PStr "monthly") (PStr "monthly")) with true by done. split.
  - intros ->%Z.eqb_eq. apply ord2ymd_spec in E as [[Hm _] <-]. eauto.
  - intros (y' & mo & Hmo & Ho). pose proof (days_in_month_bounds (is_leap y') mo).
    rewrite Ho, ord2ymd_ymd2ord in E by (split; lia). simplify_eq. lia.
Qed.

Lemma occurs_iff d w :
  calendar_mode d →
  occurs d w ↔ ∃ time h m o, dget "time" d = PStr time ∧ parse_time time = Some (h, m) ∧
    day_matches d o = true ∧ w = wall_time o h m.
Proof.
  intros Hmode. split.
  - destruct 1; do 4 eexists; (split; [eassumption|]); (split; [eassumption|]); (split; [|reflexivity]).
    + by apply day_matches_daily.
    + by eapply day_matches_weekly.
    + destruct Hmode as [?|??|day' ? Hday']; try congruence. assert (day' = day) as -> by congruence.
      eapply day_matches_monthly; [done|done|lia|eauto].
  - intros (time & h & m & o & Ht & Hp & Hd & ->). destruct Hmode as [Hm|day Hm Hday ?|day Hm Hday ?].
    + by eapply occurs_daily.
    + eapply occurs_weekly; eauto. by eapply day_matches_weekly.
    + apply (day_matches_monthly _ _ day) in Hd as (y & mo & ? & ->); [|done..|lia]. by eapply occurs_monthly.
Qed.

(** Some day among the next 61 matches. *)
Lemma matching_day_exists d o :
  calendar_mode d → ∃ k, 1 ≤ k ≤ 61 ∧ day_matches d (o + k) = true.
Proof.
  intros [Hm|day Hm Hday ?|day Hm Hday ?].
  - exists 1. split; [lia|]. by apply day_matches_daily.
  - exists (if (day - o) mod 7 =? 0 then 7 else (day - o) mod 7). split; [case_match; div_lia|].
    apply (day_matches_weekly _ _ day Hm Hday). unfold isoweekday.
    repeat case_match; rewrite ?Z.eqb_eq, ?Z.eqb_neq in *; div_lia.
  - destruct (ord2ymd o) as [[y m] dd] eqn:E. apply ord2ymd_spec in E as [[Hmo Hdd] <-].
    destruct (next_month y m) as [y' m'] eqn:En.
    assert (1 ≤ m' ≤ 12) by (unfold next_month in En; destruct (Z.eqb_spec m 12); simplify_eq; lia).
    pose proof (days_in_month_bounds (is_leap y) m). pose proof (days_in_month_bounds (is_leap y') m').
    exists (days_in_month (is_leap y) m - dd + Z.min day (days_in_month (is_leap y') m')). split; [lia|].
    apply (day_matches_monthly _ _ day Hm Hday); [lia|]. exists y', m'. split; [done|].
    rewrite (ymd2ord_next_month y m dd y' m') by done. lia.
Qed.

(** ** The search *)

Section NextSlotSpec.
Context `{MoscowZone}.
Implicit Types (d : pydict).

(** The offset [k] is a slot later than [local]. *)
Definition later_slot (d : pydict) (h m local k : Z) : Prop :=
  day_matches d (local / US_DAY + EPOCH_ORDINAL + k) = true ∧
  local < wall_time (local / US_DAY + EPOCH_ORDINAL + k) h m.

Lemma search_slot_first d h m local (n : nat) i :
  local / US_DAY + EPOCH_ORDINAL + i + Z.of_nat n ≤ MAXORDINAL + 1 →
  (∃ k, i ≤ k < i + Z.of_nat n ∧ later_slot d h m local k) →
  ∃ k, i ≤ k < i + Z.of_nat n ∧ later_slot d h m local k ∧
    (∀ k', i ≤ k' < k → ¬ later_slot d h m local k') ∧
    search_slot d h m local (seqZ i (Z.of_nat n)) =
      Ok (wall_to_utc (wall_time (local / US_DAY + EPOCH_ORDINAL + k) h m)).
Proof.
  unfold later_slot. revert i. induction n as [|n IH]; intros i Hmax (k & Hk & Hd & Hl); [lia|].
  replace (Z.of_nat (S n)) with (Z.succ (Z.of_nat n)) by lia. rewrite seqZ_cons by lia. cbn [search_slot].
  rewrite (proj2 (Z.ltb_ge _ _)) by lia. rewrite Z.pred_succ.
  set (here := local / US_DAY + EPOCH_ORDINAL + i).
  destruct (decide (day_matches d here = true ∧ local < wall_time here h m)) as [[Hm Hlt]|Hno].
  - exists i. rewrite Hm. simpl. rewrite (proj2 (Z.ltb_lt _ _)) by done.
    split_and!; try done; try lia.
  - assert (k ≠ i) by (intros ->; naive_solver).
    destruct (IH (Z.succ i)) as (k0 & Hk0 & Hs & Hmin & Heq).
    { lia. }
    { exists k. split_and!; try done; lia. }
    exists k0. split; [lia|]. split; [done|]. split.
    { intros k' Hk'. destruct (decide (k' = i)) as [->|]; [done|]. apply Hmin. lia. }
    rewrite <-Heq. destruct (day_matches d here); [|done]. simpl.
    by rewrite (proj2 (Z.ltb_ge _ _)) by (apply Z.nlt_ge; tauto).
Qed.

Lemma wall_time_day o h m : 0 ≤ h < 24 → 0 ≤ m < 60 →
  (o - EPOCH_ORDINAL) * US_DAY ≤ wall_time o h m < (o - EPOCH_ORDINAL + 1) * US_DAY.
Proof. unfold wall_time, US_DAY, US_SECOND. nia. Qed.

Lemma wall_time_lt o o' h m : wall_time o h m < wall_time o' h m ↔ o < o'.
Proof. unfold wall_time, US_DAY, US_SECOND. lia. Qed.

(** A later slot exists, the search returns the first, and it is an occurrence
    with none between it and [local]. *)
Lemma search_slot_spec d h m time local :
  calendar_mode d → dget "time" d = PStr time → parse_time time = Some (h, m) → 0 ≤ h < 24 → 0 ≤ m < 60 →
  local < (MAXORDINAL - 62 - EPOCH_ORDINAL) * US_DAY →
  ∃ w, search_slot d h m local (seqZ 0 63) = Ok (wall_to_utc w) ∧ occurs d w ∧
    local < w ≤ local + 63 * US_DAY ∧ ∀ w', local < w' < w → ¬ occurs d w'.
Proof.
  intros Hmode Ht Hp Hh Hm Hmax. set (base := local / US_DAY + EPOCH_ORDINAL).
  assert ((base - EPOCH_ORDINAL) * US_DAY ≤ local < (base - EPOCH_ORDINAL + 1) * US_DAY) as Hbase
    by (subst base; unfold US_DAY, US_SECOND; div_lia).
  assert (∃ k, 0 ≤ k < 63 ∧ later_slot d h m local k) as Hex.
  { destruct (matching_day_exists d base Hmode) as (k & Hk & Hd). exists k. split; [lia|]. split; [done|].
    fold base. pose proof (wall_time_day (base + k) h m Hh Hm). unfold US_DAY, US_SECOND in *. lia. }
  destruct (search_slot_first d h m local 63 0) as (k & Hk & [Hd Hl] & Hmin & Heq).
  { fold base. unfold US_DAY, US_SECOND in *. lia. }
  { exact Hex. }
  exists (wall_time (base + k) h m). split; [exact Heq|].
  pose proof (wall_time_day (base + k) h m Hh Hm). split_and!.
  - apply occurs_iff; eauto 8.
  - done.
  - unfold US_DAY, US_SECOND in *. lia.
  - intros w' Hw' (time' & h' & m' & o & Ht' & Hp' & Hd' & ->)%occurs_iff; [|done].
    assert (time' = time) as -> by congruence. assert (h' = h) as -> by congruence. assert (m' = m) as -> by congruence.
    assert (o < base + k) by (apply (wall_time_lt o (base + k) h m); lia).
    pose proof (wall_time_day o h m Hh Hm).
    assert (base ≤ o) by (unfold US_DAY, US_SECOND in *; lia).
    apply (Hmin (o - base)); [lia|]. unfold later_slot. fold base.
    replace (base + (o - base)) with o by lia. split; [done|lia].
Qed.
End NextSlotSpec.

(** ** The Moscow clock *)

Definition MSK_OFFSET : Z := 3 * 3600 * US_SECOND.
(** 2014-10-26T00:00:00Z: Moscow has been at UTC+3 since the evening before. *)
Definition MSK_FIXED_SINCE : Z := 1414281600 * US_SECOND.
(** The last instant for which 63 more days stay within year 9999. *)
Definition LAST_AFTER : Z := (MAXORDINAL - 63 - EPOCH_ORDINAL) * US_DAY.

(** What the time zone database says of Europe/Moscow. *)
Class MoscowLaws `{MoscowZone} : Prop := {
  msk_wall u : MSK_FIXED_SINCE ≤ u → utc_to_wall u = u + MSK_OFFSET;
  msk_utc w : MSK_FIXED_SINCE + MSK_OFFSET ≤ w → wall_to_utc w = w - MSK_OFFSET }.

(** C40: for every calendar that validation accepts and every instant from 2014-10-26,
    when the offset of Moscow became fixed, to the last one whose search stays below
    the year 10000, [next_slot] returns; its answer is strictly later than [after], at most 63
    days later, is an occurrence of the calendar on the Moscow clock (a missing
    day of a month standing for its last day), and no occurrence lies between. *)
Theorem next_slot_is_next_occurrence `{MoscowLaws} v d after :
  validate_calendar v = Ok (Some d) → MSK_FIXED_SINCE ≤ after ≤ LAST_AFTER →
  ∃ t, next_slot v (Aware after) = Ok t ∧ after < t ≤ after + 63 * US_DAY ∧
    occurs d (t + MSK_OFFSET) ∧ ∀ t', after < t' < t → ¬ occurs d (t' + MSK_OFFSET).
Proof.
  intros Hv [Hlo Hhi]. destruct (validate_calendar_Ok _ _ Hv) as (_ & Hmode & time & h & m & Ht & Hp & Hh & Hm).
  unfold next_slot. rewrite Hv. unfold mbind, result_bind. rewrite msk_wall, Ht, Hp by done.
  destruct (search_slot_spec d h m time (after + MSK_OFFSET)) as (w & -> & Hocc & Hw & Hmin); try done.
  { unfold LAST_AFTER, MSK_OFFSET, US_DAY, US_SECOND in *. lia. }
  exists (w - MSK_OFFSET). rewrite msk_utc by lia. split; [done|]. split; [lia|]. split.
  - by replace (w - MSK_OFFSET + MSK_OFFSET) with w by lia.
  - intros t' Ht'. apply Hmin. lia.
Qed.

Definition fixed_msk : MoscowZone := {| utc_to_wall u := u + MSK_OFFSET; wall_to_utc w := w - MSK_OFFSET |}.
Lemma fixed_msk_laws : @MoscowLaws fixed_msk.
Proof. split; done. Qed.

Definition sample_calendar : pydict :=
  [("mode", PStr "monthly"); ("time", PStr "03:30"); ("timezone", PStr "Europe/Moscow"); ("day", PInt 31)].

(** From 2023-02-01T00:00:00Z the next slot of "the 31st at 03:30" is
    2023-02-28T00:30:00Z. *)
Lemma next_slot_is_next_occurrence_witness :
  @next_slot fixed_msk (PDict sample_calendar) (Aware (1675209600 * US_SECOND)) = Ok (1677544200 * US_SECOND) ∧
  ∃ t, @next_slot fixed_msk (PDict sample_calendar) (Aware (1675209600 * US_SECOND)) = Ok t ∧
    occurs sample_calendar (t + MSK_OFFSET).
Proof.
  split; [vm_compute; reflexivity|].
  destruct (@next_slot_is_next_occurrence fixed_msk fixed_msk_laws (PDict sample_calendar) sample_calendar
    (1675209600 * US_SECOND)) as (t & H1 & _ & H2 & _);
    [vm_compute; reflexivity | split; vm_compute; discriminate | exists t; split; [exact H1 | exact H2]].
Defined.
