(* ===== verification/SourceConfig.v ===== *)
(** * Source configuration (netbox_sync/source_config.py)

    The immutable configuration of one source: its parts, the checks their
    [__post_init__] methods make, the HTTPS port, and the configuration read
    from the legacy environment variables. A dataclass is a record and a
    constructor function that makes the checks; where the code checks the
    dynamic type of a field, the constructor takes a Python value. *)

From S2P Require Import Prelude PyValue Calendar.
From stdpp Require Import base list strings gmap pretty.
From Stdlib Require Import ZArith Lia Ascii.
Local Open Scope string_scope.

(** ** Texts *)

Fixpoint lstrip (s : string) : string :=
  match s with
  | String c s' => if is_space c then lstrip s' else s
  | EmptyString => ""
  end.
Fixpoint rstrip (s : string) : string :=
  match s with
  | String c s' => if is_space c && blank s' then "" else String c (rstrip s')
  | EmptyString => ""
  end.
(** [s.strip()]. *)
Definition strip (s : string) : string := rstrip (lstrip s).

(** [s.lower()] on Latin-1. *)
Definition lower_char (c : ascii) : ascii :=
  let n := nat_of_ascii c in
  if is_upper c || (Nat.leb 192 n && Nat.leb n 222 && negb (Nat.eqb n 215)) then ascii_of_nat (n + 32) else c.
Fixpoint lower (s : string) : string :=
  match s with String c s' => String (lower_char c) (lower s') | EmptyString => "" end.

(** [s.casefold()] as far as comparisons go: the sharp s has two letters, the
    micro sign has no other Latin-1 form. *)
Definition casefold (s : string) : string :=
  concat_chars (λ c, if Nat.eqb (nat_of_ascii c) 223 then "ss" else String (lower_char c) "") s.

(** The digits of an [int] literal: single underscores may separate them. *)
Fixpoint int_digits (s : string) (acc : Z) (after_digit : bool) : option Z :=
  match s with
  | EmptyString => if after_digit then Some acc else None
  | String c s' =>
      if is_digit c then int_digits s' (10 * acc + digit_value c) true
      else if bool_decide (c = "_"%char) && after_digit then int_digits s' acc false
      else None
  end.

(** [int(s)] for a text; [None] is ValueError, also for a text of more than 4300
    digits. *)
Definition py_int (s : string) : option Z :=
  let s := strip s in
  let '(negative, body) :=
    match s with
    | String "-" s' => (true, s')
    | String "+" s' => (false, s')
    | _ => (false, s)
    end in
  if Nat.ltb 4300 (String.length (concat_chars (λ c, if is_digit c then String c "" else "") body)) then None
  else z ← int_digits body 0 false; Some (if negative : bool then (- z)%Z else z).

(** [SOURCE_INSTANCE_PATTERN.fullmatch] and [SOURCE_TYPE_PATTERN.fullmatch]. *)
Definition source_instance_ok (s : string) : bool :=
  match s with
  | String c s' =>
      (is_lower c || is_digit c) && all_chars (λ c, is_lower c || is_digit c || one_of "._-" c) s' &&
      Nat.leb 1 (String.length s') && Nat.leb (String.length s') 62
  | EmptyString => false
  end.
Definition source_type_ok (s : string) : bool :=
  match s with
  | String c s' =>
      is_lower c && all_chars (λ c, is_lower c || is_digit c || one_of "_-" c) s' &&
      Nat.leb 1 (String.length s') && Nat.leb (String.length s') 31
  | EmptyString => false
  end.

(** ** Parts *)

Definition source_port (source_type : string) (value : pyval) : result exn Z :=
  match value with
  | PNone => Ok (if bool_decide (source_type = "proxmox") then 8006 else 443)%Z
  | PInt z =>
      if (1 <=? z)%Z && (z <=? 65535)%Z then Ok z
      else Err (ValueError "HTTPS port must be an integer between 1 and 65535")
  | _ => Err (ValueError "HTTPS port must be an integer between 1 and 65535")
  end.

(** [_require_text] on a text. *)
Definition require_text (value field_name : string) : result exn unit :=
  if blank value then Err (ValueError (field_name +:+ " must be a non-empty string")) else Ok tt.

Record NetBoxTargetConfig := mkTarget {
  site_slug : string;
  device_role_slug : string;
  platform_slug : string;
  device_type_slug : string;
  cluster_type_slug : string;
  cluster_name : string;
  onboarding_mapping : pydict }.

(** [NetBoxTargetConfig.__post_init__]. *)
Definition new_target (t : NetBoxTargetConfig) : result exn NetBoxTargetConfig :=
  require_text (site_slug t) "site_slug";;
  require_text (device_role_slug t) "device_role_slug";;
  require_text (platform_slug t) "platform_slug";;
  require_text (device_type_slug t) "device_type_slug";;
  require_text (cluster_type_slug t) "cluster_type_slug";;
  require_text (cluster_name t) "cluster_name";;
  Ok t.

Record SecretReference := mkSecretReference { secret_provider : string; secret_key : string }.

#[global] Instance SecretReference_eq_dec : EqDecision SecretReference.
Proof. solve_decision. Defined.

(** [SecretReference.__post_init__]. *)
Definition new_secret_reference (provider key : string) : result exn SecretReference :=
  require_text provider "provider";;
  require_text key "key";;
  Ok (mkSecretReference provider key).

Record SourceCredentials := mkCredentials {
  cred_username : string;
  cred_token_id : SecretReference;
  cred_token_secret : SecretReference }.

(** [SourceCredentials.__post_init__]. *)
Definition new_credentials (username : string) (token_id token_secret : SecretReference) :
    result exn SourceCredentials :=
  require_text username "username";; Ok (mkCredentials username token_id token_secret).

Definition for_password (username : string) (password_reference : SecretReference) : result exn SourceCredentials :=
  new_credentials username password_reference password_reference.

Definition password_reference (c : SourceCredentials) : SecretReference := cred_token_secret c.

(** ** The configuration *)

Record SourceConfig := mkSourceConfig {
  cfg_id : string;
  cfg_source_instance : string;
  cfg_name : string;
  cfg_source_type : string;
  cfg_address : string;
  cfg_enabled : bool;
  cfg_sync_enabled : bool;
  cfg_sync_interval_seconds : Z;
  cfg_verify_ssl : bool;
  cfg_target : NetBoxTargetConfig;
  cfg_credentials : SourceCredentials;
  cfg_sync_calendar : pyval;
  cfg_schedule_changed_at : option Z;
  cfg_legacy_identity_owner : bool;
  cfg_settings : pydict }.

(** [dict(v)]: a mapping, or a list whose elements each iterate over two items,
    the first a text (dictionaries with other keys are not JSON objects). *)
Definition py_pair (v : pyval) : result exn (string * pyval) :=
  match v with
  | PList [PStr k; x] => Ok (k, x)
  | PStr (String a (String b EmptyString)) => Ok (String a "", PStr (String b ""))
  | PDict [(k, _); (x, _)] => Ok (k, PStr x)
  | PList _ | PStr _ | PDict _ => Err (ValueError "dictionary update sequence element has the wrong length")
  | PNone | PBool _ | PInt _ => Err (TypeError "cannot convert dictionary update sequence element to a sequence")
  end.
Definition py_dict (v : pyval) : result exn pydict :=
  match v with
  | PDict d => Ok d
  | PList l => pairs ← mapR py_pair l; Ok (dupdate [] pairs)
  | PStr _ => Err (ValueError "dictionary update sequence element has the wrong length")
  | _ => Err (TypeError "object is not iterable")
  end.

Definition with_mapping (t : NetBoxTargetConfig) (m : pydict) : NetBoxTargetConfig :=
  mkTarget (site_slug t) (device_role_slug t) (platform_slug t) (device_type_slug t) (cluster_type_slug t)
    (cluster_name t) m.

(** [SourceConfig(...)] with its [__post_init__]. *)
Definition new_source_config (id source_instance name source_type address : string) (enabled sync_enabled : bool)
    (sync_interval_seconds : pyval) (verify_ssl : bool) (target : NetBoxTargetConfig)
    (credentials : SourceCredentials) (sync_calendar : pyval) (schedule_changed_at : option Z)
    (legacy_identity_owner : bool) (settings : pyval) : result exn SourceConfig :=
  require_text id "id";;
  require_text name "name";;
  require_text address "address";;
  if negb (source_instance_ok source_instance)
  then Err (ValueError "source_instance must match ^[a-z0-9][a-z0-9._-]{1,62}$")
  else if negb (source_type_ok source_type)
  then Err (ValueError "source_type must match ^[a-z][a-z0-9_-]{1,31}$")
  else
    interval ← match sync_interval_seconds with
               | PInt z => if (z <=? 0)%Z then Err (ValueError "sync_interval_seconds must be a positive integer") else Ok z
               | _ => Err (ValueError "sync_interval_seconds must be a positive integer")
               end;
    validate_calendar sync_calendar;;
    match settings with
    | PDict s =>
        source_port source_type (dget "api_port" s);;
        target ← (if truthy (dget "onboarding_mapping" s)
                  then m ← py_dict (dget "onboarding_mapping" s); new_target (with_mapping target m)
                  else Ok target);
        Ok (mkSourceConfig id source_instance name source_type address enabled sync_enabled interval verify_ssl target
              credentials sync_calendar schedule_changed_at legacy_identity_owner s)
    | _ => Err (ValueError "settings must be a mapping")
    end.

Definition api_port (c : SourceConfig) : result exn Z :=
  source_port (cfg_source_type c) (dget "api_port" (cfg_settings c)).

(** ** The legacy environment *)

Abbreviation environ := (gmap string string).

Definition env_get (env : environ) (name dflt : string) : string := default dflt (env !! name).

Definition required_environment (env : environ) (variable_name : string) : result exn string :=
  let value := strip (env_get env variable_name "") in
  if bool_decide (value = "") then Err (ValueError (variable_name +:+ " must be configured")) else Ok value.

Definition environment_flag (env : environ) (variable_name dflt : string) : bool :=
  bool_decide (lower (strip (env_get env variable_name dflt)) = "true").

Definition legacy_secret_reference (env : environ) (variable_name : string) : result exn SecretReference :=
  let file_variable := variable_name +:+ "_FILE" in
  let file_path := strip (env_get env file_variable "") in
  if negb (bool_decide (file_path = "")) then new_secret_reference "file" file_path
  else if negb (bool_decide (strip (env_get env variable_name "") = ""))
  then new_secret_reference "environment" variable_name
  else Err (ValueError (variable_name +:+ " or " +:+ file_variable +:+ " must be configured")).

Definition or_str (a b : string) : string := if bool_decide (a = "") then b else a.

Definition from_legacy_environment (env : environ) : result exn SourceConfig :=
  source_instance ← required_environment env "SOURCE_INSTANCE";
  interval ← match py_int (env_get env "SOURCE_SYNC_INTERVAL_SECONDS" "600") with
             | Some z => Ok z
             | None => Err (ValueError "SOURCE_SYNC_INTERVAL_SECONDS must be an integer")
             end;
  address ← required_environment env "PVE_API_HOST";
  site ← required_environment env "NB_SITE_SLUG";
  role ← required_environment env "NB_DEVICE_ROLE_SLUG";
  platform ← required_environment env "NB_PLATFORM_SLUG";
  device_type ← required_environment env "NB_DEVICE_TYPE_SLUG";
  cluster_type ← required_environment env "NB_CLUSTER_TYPE_SLUG";
  cluster ← required_environment env "NB_CLUSTER_NAME";
  target ← new_target (mkTarget site role platform device_type cluster_type cluster []);
  username ← required_environment env "PVE_API_USER";
  token_id ← legacy_secret_reference env "PVE_API_TOKEN";
  token_secret ← legacy_secret_reference env "PVE_API_SECRET";
  credentials ← new_credentials username token_id token_secret;
  new_source_config (or_str (strip (env_get env "SOURCE_ID" "")) source_instance) source_instance
    (or_str (strip (env_get env "SOURCE_NAME" "")) source_instance) "proxmox" address
    (environment_flag env "SOURCE_ENABLED" "true") (environment_flag env "SOURCE_SYNC_ENABLED" "true")
    (PInt interval) (environment_flag env "PVE_API_VERIFY_SSL" "false") target credentials PNone None
    (environment_flag env "SOURCE_LEGACY_IDENTITY_OWNER" "true") (PDict []).

(** ** Every configuration is well formed *)

Definition valid_target (t : NetBoxTargetConfig) : bool :=
  negb (blank (site_slug t)) && negb (blank (device_role_slug t)) && negb (blank (platform_slug t)) &&
  negb (blank (device_type_slug t)) && negb (blank (cluster_type_slug t)) && negb (blank (cluster_name t)).

Record valid_config (c : SourceConfig) : Prop := {
  valid_texts : blank (cfg_id c) = false ∧ blank (cfg_name c) = false ∧ blank (cfg_address c) = false;
  valid_instance : source_instance_ok (cfg_source_instance c) = true;
  valid_type : source_type_ok (cfg_source_type c) = true;
  valid_interval : (0 < cfg_sync_interval_seconds c)%Z;
  valid_calendar : ∃ r, validate_calendar (cfg_sync_calendar c) = Ok r;
  valid_port : ∃ p, api_port c = Ok p ∧ (1 ≤ p ≤ 65535)%Z }.

Lemma require_text_Ok s f u : require_text s f = Ok u ↔ blank s = false.
Proof. unfold require_text. destruct (blank s), u; naive_solver. Qed.

Lemma source_port_Ok t v p : source_port t v = Ok p → (1 ≤ p ≤ 65535)%Z.
Proof.
  unfold source_port. destruct v; try done.
  - case_bool_decide; intros [= <-]; lia.
  - destruct (_ && _) eqn:E; [|done]. intros [= <-]. lia.
Qed.

Lemma new_source_config_Ok i si n st a e se iv vs t cr cal ch lo set c :
  new_source_config i si n st a e se iv vs t cr cal ch lo set = Ok c →
  valid_config c ∧ cfg_id c = i ∧ cfg_source_instance c = si ∧ cfg_source_type c = st ∧ cfg_sync_calendar c = cal ∧
  PInt (cfg_sync_interval_seconds c) = iv ∧ PDict (cfg_settings c) = set.
Proof.
  unfold new_source_config. intros Hc. inv_m. rewrite require_text_Ok in *.
  destruct (source_instance_ok si) eqn:Hsi; [|done]. destruct (source_type_ok st) eqn:Hst; [|done]. simpl in *.
  inv_m. destruct iv as [| |z| | |]; try done. destruct (z <=? 0)%Z eqn:Hpos; [done|].
  inv_m. destruct set; try done. inv_m.
  match goal with Hp : source_port _ _ = Ok _ |- _ => pose proof (source_port_Ok _ _ _ Hp) end.
  split; [|done]. split; simpl; eauto. lia.
Qed.

(** A configuration built from the legacy environment is well formed: its
    instance matches the registry pattern, its interval is positive, its
    calendar validates and its HTTPS port is between 1 and 65535; the source is
    a Proxmox one without a calendar, named after its instance by default. *)
Theorem legacy_environment_valid env c :
  from_legacy_environment env = Ok c →
  valid_config c ∧ cfg_source_type c = "proxmox" ∧ cfg_sync_calendar c = PNone ∧ api_port c = Ok 8006%Z ∧
  (strip (env_get env "SOURCE_ID" "") = "" → cfg_id c = cfg_source_instance c) ∧
  (env !! "SOURCE_SYNC_INTERVAL_SECONDS" = None → cfg_sync_interval_seconds c = 600%Z).
Proof.
  unfold from_legacy_environment. intros Hc. inv_m.
  match goal with H : new_source_config _ _ _ _ _ _ _ _ _ _ _ _ _ _ _ = _ |- _ =>
    apply new_source_config_Ok in H as (Hv & Hid & Hsi & Hst & Hcal & Hiv & Hset) end.
  split_and!; try done.
  - unfold api_port. injection Hset as ->. by rewrite Hst.
  - unfold or_str in Hid. intros E. rewrite E in Hid. by rewrite Hid, Hsi.
  - intros E. match goal with H : match py_int _ with _ => _ end = Ok _ |- _ => rename H into Hint end.
    unfold env_get in Hint. rewrite E in Hint. vm_compute in Hint. congruence.
Qed.

Definition sample_environ : environ := list_to_map
  [("SOURCE_INSTANCE", " pve-a "); ("PVE_API_HOST", "10.0.0.1"); ("NB_SITE_SLUG", "site"); ("NB_DEVICE_ROLE_SLUG", "role");
   ("NB_PLATFORM_SLUG", "platform"); ("NB_DEVICE_TYPE_SLUG", "type"); ("NB_CLUSTER_TYPE_SLUG", "ctype");
   ("NB_CLUSTER_NAME", "cluster"); ("PVE_API_USER", "root@pam"); ("PVE_API_TOKEN", "t"); ("PVE_API_SECRET_FILE", "/run/s")].
Definition sample_config : SourceConfig := {|
  cfg_id := "pve-a"; cfg_source_instance := "pve-a"; cfg_name := "pve-a"; cfg_source_type := "proxmox";
  cfg_address := "10.0.0.1"; cfg_enabled := true; cfg_sync_enabled := true; cfg_sync_interval_seconds := 600;
  cfg_verify_ssl := false; cfg_target := mkTarget "site" "role" "platform" "type" "ctype" "cluster" [];
  cfg_credentials := mkCredentials "root@pam" (mkSecretReference "environment" "PVE_API_TOKEN")
                       (mkSecretReference "file" "/run/s");
  cfg_sync_calendar := PNone; cfg_schedule_changed_at := None; cfg_legacy_identity_owner := true; cfg_settings := [] |}.

Lemma legacy_environment_valid_witness :
  from_legacy_environment sample_environ = Ok sample_config ∧ valid_config sample_config.
Proof.
  assert (from_legacy_environment sample_environ = Ok sample_config) as H by (vm_compute; reflexivity).
  split; [exact H|]. exact (proj1 (legacy_environment_valid sample_environ sample_config H)).
Defined.
