(* ===== verification/SyncPlan.v ===== *)
(** * Synchronization plans (netbox_sync/application/sync_plan.py, inventory_conflicts.py)

    The reviewable plan of one synchronization: its items, its canonical text and
    digest, and the two ways it is built, from the read-only review and from the
    mutations a recording run of the executors produced. SHA-256 is the parameter
    [sha256] over texts. *)

From S2P Require Import Prelude PyValue JsonCanonical SourceConfig.
From stdpp Require Import base list strings pretty.
From Stdlib Require Import ZArith Lia Ascii.
Local Open Scope string_scope.
#[local] Arguments py_eqb _ _ : simpl never.

(** ** Items *)

Inductive SyncAction :=
| SA_CREATE | SA_UPDATE | SA_NO_CHANGE | SA_REVIEW_REQUIRED | SA_BLOCKED | SA_IGNORED | SA_UNSUPPORTED | SA_RETAIN_ONLY.
#[global] Instance SyncAction_eq_dec : EqDecision SyncAction.
Proof. solve_decision. Defined.
Definition action_text (a : SyncAction) : string :=
  match a with
  | SA_CREATE => "CREATE"
  | SA_UPDATE => "UPDATE"
  | SA_NO_CHANGE => "NO_CHANGE"
  | SA_REVIEW_REQUIRED => "REVIEW_REQUIRED"
  | SA_BLOCKED => "BLOCKED"
  | SA_IGNORED => "IGNORED"
  | SA_UNSUPPORTED => "UNSUPPORTED"
  | SA_RETAIN_ONLY => "RETAIN_ONLY"
  end.

Record SyncPlanItem := mkItem {
  it_kind : string; it_external_id : string; it_name : string; it_action : SyncAction; it_reason_code : string; it_reason : string;
  it_matched : pyval; it_before : pydict; it_after : pydict }.

Record ConflictParticipant := mkParticipant {
  pt_name : string; pt_external_id : string; pt_provider_object_id : pyval; pt_host_id : string; pt_interface : pyval;
  pt_interface_id : pyval; pt_address : pyval; pt_vrf_id : pyval; pt_netbox_id : pyval }.
Record InventoryConflict := mkConflict { cf_kind : string; cf_value : string; cf_participants : list ConflictParticipant }.

Record SyncPlan := mkPlan {
  sp_source_instance : string; sp_source_id : string; sp_source_type : string; sp_source_fingerprint : string; sp_target_fingerprint : string;
  sp_provider_fingerprint : string; sp_netbox_fingerprint : string; sp_items : list SyncPlanItem; sp_conflicts : list InventoryConflict;
  sp_schema_version : Z; sp_planner_version : string }.

Definition PLAN_SCHEMA_VERSION : Z := 1.
Definition PLANNER_VERSION : string := "web-5a-19".

Definition is_blocked (item : SyncPlanItem) : bool := bool_decide (it_action item = SA_BLOCKED).
Definition apply_allowed (p : SyncPlan) : bool := negb (existsb is_blocked (sp_items p)).

(** ** The canonical text *)

(** [asdict]; a tuple of pairs is a JSON list of lists. *)
Definition pairs_value (d : pydict) : pyval := PList (map (λ kv, PList [PStr kv.1; kv.2]) d).
Definition item_fields (i : SyncPlanItem) : pydict :=
  [("object_kind", PStr (it_kind i)); ("external_id", PStr (it_external_id i)); ("name", PStr (it_name i));
   ("action", PStr (action_text (it_action i))); ("reason_code", PStr (it_reason_code i)); ("reason", PStr (it_reason i));
   ("matched_object_id", it_matched i); ("before", pairs_value (it_before i)); ("after", pairs_value (it_after i))].
Definition item_dict (i : SyncPlanItem) : pyval := PDict (item_fields i).
Definition participant_dict (p : ConflictParticipant) : pyval := PDict
  [("name", PStr (pt_name p)); ("external_id", PStr (pt_external_id p)); ("provider_object_id", pt_provider_object_id p);
   ("host_id", PStr (pt_host_id p)); ("interface", pt_interface p); ("interface_id", pt_interface_id p); ("address", pt_address p);
   ("vrf_id", pt_vrf_id p); ("netbox_id", pt_netbox_id p)].

(** The order of [key=lambda v: json.dumps(v, sort_keys=True)]. *)
Definition spaced_leb (v w : pyval) : bool := String.leb (json_spaced v) (json_spaced w).

Definition conflict_dict (c : InventoryConflict) : pyval := PDict
  [("kind", PStr (cf_kind c)); ("value", PStr (cf_value c));
   ("participants", PList (isort spaced_leb (participant_dict <$> cf_participants c)))].

(** The order of tuples of texts. *)
Fixpoint texts_leb (a b : list string) : bool :=
  match a, b with
  | [], _ => true
  | _, [] => false
  | x :: a', y :: b' => if bool_decide (x = y) then texts_leb a' b' else String.leb x y
  end.
Definition item_key (i : SyncPlanItem) : list string := [it_kind i; it_external_id i; action_text (it_action i); it_reason_code i].
Definition item_leb (i j : SyncPlanItem) : bool := texts_leb (item_key i) (item_key j).

Definition canonical_dict (p : SyncPlan) : pydict :=
  [("source_instance", PStr (sp_source_instance p)); ("source_id", PStr (sp_source_id p)); ("source_type", PStr (sp_source_type p));
   ("source_fingerprint", PStr (sp_source_fingerprint p)); ("target_fingerprint", PStr (sp_target_fingerprint p));
   ("provider_fingerprint", PStr (sp_provider_fingerprint p)); ("netbox_fingerprint", PStr (sp_netbox_fingerprint p));
   ("items", PList (item_dict <$> isort item_leb (sp_items p)));
   ("conflicts", PList (isort spaced_leb (conflict_dict <$> sp_conflicts p)));
   ("schema_version", PInt (sp_schema_version p)); ("planner_version", PStr (sp_planner_version p));
   ("apply_allowed", PBool (apply_allowed p))].
Definition canonical_json (p : SyncPlan) : string := json_dumps (PDict (canonical_dict p)).

Section Plans.
Context (sha256 : string → string).

Definition digest (p : SyncPlan) : string := sha256 (canonical_json p).
Definition stable_fingerprint (v : pyval) : string := sha256 (json_dumps v).

Definition reference_value (r : SecretReference) : pyval := PList [PStr (secret_provider r); PStr (secret_key r)].
Definition safe_source_fingerprint (c : SourceConfig) : string := stable_fingerprint (PDict
  [("id", PStr (cfg_id c)); ("source_instance", PStr (cfg_source_instance c)); ("name", PStr (cfg_name c));
   ("source_type", PStr (cfg_source_type c)); ("address", PStr (cfg_address c)); ("enabled", PBool (cfg_enabled c));
   ("sync_enabled", PBool (cfg_sync_enabled c)); ("sync_interval_seconds", PInt (cfg_sync_interval_seconds c));
   ("verify_ssl", PBool (cfg_verify_ssl c)); ("legacy_identity_owner", PBool (cfg_legacy_identity_owner c));
   ("settings", PDict (cfg_settings c));
   ("credential_binding", PDict [("username", PStr (cred_username (cfg_credentials c)));
      ("token_id", reference_value (cred_token_id (cfg_credentials c)));
      ("token_secret", reference_value (cred_token_secret (cfg_credentials c)))])]).

Definition target_fingerprint (c : SourceConfig) : string :=
  let t := cfg_target c in
  stable_fingerprint (PDict
    [("site_slug", PStr (site_slug t)); ("device_role_slug", PStr (device_role_slug t)); ("platform_slug", PStr (platform_slug t));
     ("device_type_slug", PStr (device_type_slug t)); ("cluster_type_slug", PStr (cluster_type_slug t));
     ("cluster_name", PStr (cluster_name t)); ("onboarding_mapping", PDict (onboarding_mapping t))]).

(** ** From the review *)

Inductive ReviewClassification := RC_MANAGED | RC_REVIEW_REQUIRED | RC_WOULD_CREATE | RC_IGNORED | RC_UNSUPPORTED | RC_CONFLICT | RC_NO_CHANGE.
Record ReviewItem := mkReviewItem {
  ri_kind : string; ri_name : string; ri_external_id : string; ri_classification : ReviewClassification; ri_reason_code : string;
  ri_reason : string; ri_future_action : string; ri_matched_id : pyval; ri_matched_name : pyval; ri_properties : pydict }.

Definition action_map (c : ReviewClassification) : SyncAction :=
  match c with
  | RC_MANAGED | RC_NO_CHANGE => SA_NO_CHANGE
  | RC_WOULD_CREATE => SA_CREATE
  | RC_REVIEW_REQUIRED => SA_REVIEW_REQUIRED
  | RC_CONFLICT => SA_BLOCKED
  | RC_IGNORED => SA_IGNORED
  | RC_UNSUPPORTED => SA_UNSUPPORTED
  end.

Definition review_before (r : ReviewItem) : pydict :=
  ((if truthy (dget "matching_candidates" (ri_properties r)) then [("matching_candidates", dget "matching_candidates" (ri_properties r))] else []) ++
   (match ri_matched_id r with PNone => [] | _ => [("id", ri_matched_id r); ("name", ri_matched_name r)] end))%list.
Definition review_item (r : ReviewItem) : SyncPlanItem :=
  mkItem (ri_kind r) (ri_external_id r) (ri_name r) (action_map (ri_classification r)) (ri_reason_code r) (ri_reason r) (ri_matched_id r)
    (review_before r) (if bool_decide (ri_future_action r ∈ ["create"; "update"]) then [("name", PStr (ri_name r))] else []).
Definition retain_item (c : SourceConfig) : SyncPlanItem :=
  mkItem "source" (cfg_source_instance c) (cfg_name c) SA_RETAIN_ONLY "DISAPPEARANCE_RETAIN_ONLY"
    "Managed objects absent from discovery are reported and retained; none are deleted." PNone [] [].

(** [repr] of a tuple. *)
Definition repr_tuple (l : list string) : string :=
  match l with [x] => "(" +:+ x +:+ ",)" | _ => "(" +:+ PyValue.join ", " l +:+ ")" end.
Definition repr_match (i : SyncPlanItem) : string :=
  repr_tuple [repr_str (it_kind i); py_repr (it_matched i);
              repr_tuple (map (λ kv, repr_tuple [repr_str kv.1; py_repr kv.2]) (it_before i))].
Definition repr_leb (i j : SyncPlanItem) : bool := String.leb (repr_match i) (repr_match j).

Definition is_matched (i : SyncPlanItem) : bool := match it_matched i with PNone => false | _ => true end.
Definition provider_key (i : SyncPlanItem) : list string := [it_kind i; it_external_id i; it_name i].

Definition plan_from_review (review : list ReviewItem) (c : SourceConfig) : SyncPlan :=
  let items := ((review_item <$> review) ++ [retain_item c])%list in
  mkPlan (cfg_source_instance c) (cfg_id c) (cfg_source_type c) (safe_source_fingerprint c) (target_fingerprint c)
    (stable_fingerprint (PList (map (λ k, PList (map PStr k)) (isort texts_leb (provider_key <$> items)))))
    (stable_fingerprint (PList (map (λ i, PList [PStr (it_kind i); it_matched i; pairs_value (it_before i)])
       (isort repr_leb (filter (λ i, is_matched i = true) items)))))
    items [] PLAN_SCHEMA_VERSION PLANNER_VERSION.

(** ** From the recorded mutations *)

Inductive mutation_operation := OpCreate | OpUpdate | OpReplace.
#[global] Instance mutation_operation_eq_dec : EqDecision mutation_operation.
Proof. solve_decision. Defined.
Record PlannedMutation := mkMutation {
  mu_operation : mutation_operation; mu_endpoint : string; mu_object_id : pyval; mu_before : pydict; mu_after : pydict }.

(** A dict keyed by (endpoint, object id). *)
Definition object_key : Type := string * pyval.
Definition same_key (a b : object_key) : bool := bool_decide (a.1 = b.1) && py_eqb a.2 b.2.
Fixpoint klookup {A} (k : object_key) (l : list (object_key * A)) : option A :=
  match l with [] => None | (k', x) :: l' => if same_key k k' then Some x else klookup k l' end.
Definition mu_key (m : PlannedMutation) : object_key := (mu_endpoint m, mu_object_id m).

(** The hardware document with a symbolic clock. *)
Definition FRESH : pyval := PStr "<fresh-collection-time>".
Definition fresh_doc (doc : pyval) : bool :=
  match doc with
  | PDict d => py_eqb (dget "version" d) (PInt 1) &&
               (py_eqb (dget "source" d) (PStr "esxi") || py_eqb (dget "source" d) (PStr "proxmox")) && is_str (dget "observed_at" d)
  | _ => false
  end.
Definition set_clock (clock : pyval) (values : pydict) : pydict :=
  match dget "custom_fields" values with
  | PDict fields =>
      match dget "hardware_identity" fields with
      | PDict doc => dset "custom_fields" (PDict (dset "hardware_identity" (PDict (dset "observed_at" clock doc)) fields)) values
      | _ => values
      end
  | _ => values
  end.
Definition hardware (values : pydict) : pyval :=
  match dget "custom_fields" values with PDict fields => dget "hardware_identity" fields | _ => PNone end.
Definition clocked (endpoint : string) (values : pydict) : bool := bool_decide (endpoint = "dcim.devices") && fresh_doc (hardware values).

Definition planned_after (endpoint : string) (values : pydict) : pydict :=
  if clocked endpoint values then set_clock FRESH values else values.

(** [written] after a mutation. *)
Definition track (m : PlannedMutation) (written : list (object_key * pyval)) : list (object_key * pyval) :=
  match dget "custom_fields" (mu_after m) with
  | PDict fields =>
      match dlookup "hardware_identity" fields with
      | Some doc => (mu_key m, doc) :: written
      | None => filter (λ e, same_key (mu_key m) e.1 = false) written
      end
  | _ => written
  end.

(** The baseline carries an earlier simulated write of the same object. *)
Definition carried (written : list (object_key * pyval)) (m : PlannedMutation) : bool :=
  match klookup (mu_key m) written with
  | Some doc => is_dict (dget "custom_fields" (mu_before m)) && py_eqb (hardware (mu_before m)) doc
  | None => false
  end.

Definition with_before (before : pydict) (m : PlannedMutation) : PlannedMutation :=
  mkMutation (mu_operation m) (mu_endpoint m) (mu_object_id m) before (mu_after m).
Fixpoint baselines (written : list (object_key * pyval)) (ms : list PlannedMutation) : list PlannedMutation :=
  match ms with
  | [] => []
  | m :: ms' =>
      with_before (if carried written m then planned_after (mu_endpoint m) (mu_before m) else mu_before m) m :: baselines (track m written) ms'
  end.
Definition canonical_mutation_baselines : list PlannedMutation → list PlannedMutation := baselines [].

Definition review_endpoint (kind : string) : option string :=
  if bool_decide (kind = "host") then Some "dcim.devices"
  else if bool_decide (kind ∈ ["qemu"; "lxc"; "vm"]) then Some "virtualization.virtual_machines"
  else None.

(** [a or b]. *)
Definition py_or (a b : pyval) : pyval := if truthy a then a else b.

(** The names known for objects, the latest entry first. *)
Definition created_name (m : PlannedMutation) : string :=
  py_str (py_or (py_or (py_or (dget "name" (mu_after m)) (dget "address" (mu_after m))) (dget "mac_address" (mu_after m))) (mu_object_id m)).
Definition object_names (review_items : list SyncPlanItem) (ms : list PlannedMutation) : list (object_key * string) :=
  (reverse ((λ m, (mu_key m, created_name m)) <$> filter (λ m, mu_operation m = OpCreate) ms) ++
   reverse ((λ i, ((default (it_kind i) (review_endpoint (it_kind i)), it_matched i), it_name i)) <$>
     filter (λ i, is_matched i = true) review_items))%list.

(** The first identity record with an id. *)
Definition is_identity (v : pyval) : bool :=
  match v with PDict d => truthy (dget "external_id" d) || truthy (dget "source_id" d) | _ => false end.
Definition mutation_identity (m : PlannedMutation) : result exn pydict :=
  let fields := dupdate (mu_before m) (mu_after m) in
  match dget "custom_fields" fields with
  | PDict custom =>
      identities ← py_iter (default (PList []) (dlookup "sync_identities" custom));
      Ok match List.find is_identity identities with Some (PDict d) => d | _ => [] end
  | _ => Ok []
  end.

Definition mutation_item (names : list (object_key * string)) (m : PlannedMutation) : result exn SyncPlanItem :=
  identity ← mutation_identity m;
  let external_id := py_or (py_or (dget "external_id" identity) (dget "source_id" identity)) (PStr (py_str (mu_object_id m))) in
  let fallback := match klookup (mu_key m) names with Some n => PStr n | None => mu_object_id m end in
  Ok (mkItem (mu_endpoint m) (py_str external_id) (py_str (default fallback (dlookup "name" (mu_after m))))
    (if bool_decide (mu_operation m = OpCreate) then SA_CREATE else SA_UPDATE)
    (if bool_decide (mu_operation m = OpReplace) then "VM_GENERATION_REPLACE" else "GUARDED_EXECUTOR_ACTION")
    (if bool_decide (mu_operation m = OpReplace)
     then "Recreated VM: reuse its creation-proven NetBox card, replace the old UUID and rebuild unconnected owned components."
     else "Existing guarded executor would perform this managed-field mutation.")
    (if bool_decide (mu_operation m = OpCreate) then PNone else mu_object_id m)
    (isort key_leb (mu_before m)) (isort key_leb (planned_after (mu_endpoint m) (mu_after m)))).

Definition kept_action (a : SyncAction) : bool :=
  bool_decide (a ∈ [SA_REVIEW_REQUIRED; SA_BLOCKED; SA_IGNORED; SA_UNSUPPORTED; SA_RETAIN_ONLY]).

Definition unsupported (i : SyncPlanItem) : SyncPlanItem :=
  mkItem (it_kind i) (it_external_id i) (it_name i) SA_UNSUPPORTED "EXECUTOR_CREATE_UNSUPPORTED"
    "No supported create operation was produced for this object." (it_matched i) (it_before i) [].

(** [(review_endpoints.get(kind), external_id) in created], and the same for
    [mutated_ids]. *)
Definition was_created (items : list SyncPlanItem) (i : SyncPlanItem) : bool :=
  existsb (λ j, bool_decide (it_action j = SA_CREATE) && bool_decide (review_endpoint (it_kind i) = Some (it_kind j)) &&
                bool_decide (it_external_id i = it_external_id j)) items.
Definition was_updated (items : list SyncPlanItem) (i : SyncPlanItem) : bool :=
  existsb (λ j, bool_decide (it_action j = SA_UPDATE) && bool_decide (review_endpoint (it_kind i) = Some (it_kind j)) &&
                py_eqb (it_matched i) (it_matched j)) items.

Definition plan_items (review_items executed : list SyncPlanItem) : list SyncPlanItem :=
  let items := (filter (λ i, kept_action (it_action i) = true) review_items ++ executed)%list in
  let refused := unsupported <$> filter (λ i, it_action i = SA_CREATE ∧ was_created items i = false) review_items in
  let same := filter (λ i, it_action i = SA_NO_CHANGE ∧ was_updated items i = false) review_items in
  (items ++ refused ++ same)%list.

Definition mutation_leb (m n : PlannedMutation) : bool :=
  texts_leb [mu_endpoint m; py_str (mu_object_id m)] [mu_endpoint n; py_str (mu_object_id n)].

Definition fingerprint_value (m : PlannedMutation) : pyval := PList [PStr (mu_endpoint m); mu_object_id m; PDict (mu_before m)].

Definition plan_from_mutations (review : list ReviewItem) (c : SourceConfig) (mutations : list PlannedMutation) : result exn SyncPlan :=
  let ms := canonical_mutation_baselines mutations in
  let base := plan_from_review review c in
  executed ← mapR (mutation_item (object_names (sp_items base) ms)) ms;
  Ok (mkPlan (sp_source_instance base) (sp_source_id base) (sp_source_type base) (sp_source_fingerprint base) (sp_target_fingerprint base)
    (sp_provider_fingerprint base)
    (stable_fingerprint (PList (map fingerprint_value (isort mutation_leb ms))))
    (isort item_leb (plan_items (sp_items base) executed)) [] PLAN_SCHEMA_VERSION PLANNER_VERSION).
End Plans.
