(* ===== verification/PlanTheory.v ===== *)
(** * What a plan and its digest stand for

    The canonical text of a plan forgets the order of its parts and nothing else;
    the plan of a recording run has one item per recorded mutation and drops no
    reviewed object; and the wall clock of a fresh hardware reading is not part of
    it. *)

From S2P Require Import Prelude PyValue JsonCanonical SourceConfig SyncPlan.
From stdpp Require Import base list strings pretty.
From Stdlib Require Import ZArith Lia Ascii Sorted.
Local Open Scope string_scope.
#[local] Arguments py_eqb _ _ : simpl never.

(** ** Members of canonical dictionaries *)

Lemma canon_get d d' k :
  NoDup (dkeys d) → NoDup (dkeys d') → canon (PDict d) = canon (PDict d') → canon (dget k d) = canon (dget k d').
Proof.
  intros Hd Hd'. rewrite !canon_dict. intros [= E].
  assert (canon_pair <$> d ≡ₚ canon_pair <$> d') as Hp.
  { rewrite <-(isort_Permutation key_leb d), <-(isort_Permutation key_leb d'). by rewrite E. }
  assert (∀ e : pydict, canon (dget k e) = dget k (canon_pair <$> e)) as Hget.
  { intros e. unfold dget. induction e as [|[k1 v] e IH]; [done|]. rewrite fmap_cons. cbn [dlookup canon_pair fst snd].
    by case_bool_decide. }
  rewrite !Hget. unfold dget. f_equal.
  assert (∀ e : pydict, dkeys (canon_pair <$> e) = dkeys e) as Hk.
  { intros e. unfold dkeys. rewrite <-list_fmap_compose. by apply list_fmap_ext. }
  destruct (dlookup k (canon_pair <$> d)) as [v|] eqn:E1.
  - symmetry. apply dlookup_NoDup; [by rewrite Hk|]. rewrite <-Hp. by apply dlookup_elem.
  - destruct (dlookup k (canon_pair <$> d')) as [v|] eqn:E2; [|done]. apply dlookup_elem in E2. rewrite <-Hp in E2.
    apply dlookup_NoDup in E2; [congruence|by rewrite Hk].
Qed.

Lemma canon_list l l' : canon (PList l) = canon (PList l') → canon <$> l = canon <$> l'.
Proof. cbn [canon]. by intros [= ?]. Qed.

Lemma canon_str s s' : canon (PStr s) = canon (PStr s') → s = s'.
Proof. by intros [= ->]. Qed.

(** ** The digest binds the plan *)

(** Items that differ in the order of keys inside their values at most. *)
Record same_item (i j : SyncPlanItem) : Prop := {
  si_kind : it_kind i = it_kind j; si_external_id : it_external_id i = it_external_id j; si_name : it_name i = it_name j;
  si_action : it_action i = it_action j; si_reason_code : it_reason_code i = it_reason_code j; si_reason : it_reason i = it_reason j;
  si_matched : canon (it_matched i) = canon (it_matched j);
  si_before : canon_pair <$> it_before i = canon_pair <$> it_before j; si_after : canon_pair <$> it_after i = canon_pair <$> it_after j }.

Lemma pairs_value_canon d d' : canon (pairs_value d) = canon (pairs_value d') → canon_pair <$> d = canon_pair <$> d'.
Proof.
  intros E%canon_list. revert d' E. induction d as [|[k v] d IH]; intros [|[k' v'] d'] E; try done.
  simpl in E. injection E as -> Ev E. rewrite !fmap_cons. unfold canon_pair at 1 3. simpl. rewrite Ev. f_equal. by apply IH.
Qed.

Lemma action_text_inj a b : action_text a = action_text b → a = b.
Proof. destruct a, b; done. Qed.

Lemma item_dict_canon i j : canon (item_dict i) = canon (item_dict j) → same_item i j.
Proof.
  intros E. assert (∀ i, NoDup (dkeys (item_fields i))) as Hd by (intros; decided).
  pose proof (λ k, canon_get (item_fields i) (item_fields j) k (Hd i) (Hd j) E) as H. split.
  - apply canon_str, (H "object_kind").
  - apply canon_str, (H "external_id").
  - apply canon_str, (H "name").
  - apply action_text_inj, canon_str, (H "action").
  - apply canon_str, (H "reason_code").
  - apply canon_str, (H "reason").
  - apply (H "matched_object_id").
  - apply pairs_value_canon, (H "before").
  - apply pairs_value_canon, (H "after").
Qed.

Lemma Permutation_map_Forall2 {A B} (f : A → B) (l k : list A) :
  f <$> l ≡ₚ f <$> k → ∃ k', k' ≡ₚ k ∧ Forall2 (λ x y, f x = f y) l k'.
Proof.
  intros (k' & E & Hp)%Permutation_map_inv. exists k'. split; [done|]. apply (Forall2_fmap_1 f f), list_eq_Forall2. exact E.
Qed.

Lemma Forall2_comp {A B C} (P : A → B → Prop) (Q : B → C → Prop) (R : A → C → Prop) l k m :
  (∀ x y z, P x y → Q y z → R x z) → Forall2 P l k → Forall2 Q k m → Forall2 R l m.
Proof. intros H HP. revert m. induction HP; intros m HQ; inversion HQ; subst; constructor; eauto. Qed.

(** ** Order *)

Lemma texts_leb_total a b : texts_leb a b = true ∨ texts_leb b a = true.
Proof.
  revert b. induction a as [|x a IH]; intros [|y b]; try (by auto). cbn [texts_leb].
  destruct (decide (x = y)) as [->|Hne]; [rewrite !bool_decide_eq_true_2 by done; apply IH|].
  rewrite !bool_decide_eq_false_2 by done. apply String.leb_total.
Qed.
Lemma texts_leb_trans a b c : texts_leb a b = true → texts_leb b c = true → texts_leb a c = true.
Proof.
  revert b c. induction a as [|x a IH]; intros [|y b] [|z c]; try done. cbn [texts_leb]. repeat case_bool_decide; subst; try done.
  - by apply IH.
  - intros H1 H2. assert (z = y) as ->; [by apply String.leb_antisym|done].
  - apply string_leb_trans.
Qed.
Lemma texts_leb_antisym a b : texts_leb a b = true → texts_leb b a = true → a = b.
Proof.
  revert b. induction a as [|x a IH]; intros [|y b]; try done. cbn [texts_leb]. repeat case_bool_decide; subst; try done.
  - intros H1 H2. f_equal. by apply IH.
  - intros H1 H2. by destruct (String.leb_antisym x y H1 H2).
Qed.

Lemma item_order_free l k :
  NoDup (item_key <$> l) → l ≡ₚ k → isort item_leb l = isort item_leb k.
Proof.
  intros Hnd Hp. apply (sorted_unique item_leb).
  - intros i j Hi Hj H1 H2. rewrite elem_of_isort in Hi, Hj. apply list_elem_of_lookup in Hi as [n Hn], Hj as [m Hm].
    assert (item_key i = item_key j) as E by (by apply texts_leb_antisym).
    assert (n = m) as <-; [|congruence].
    eapply NoDup_lookup; [exact Hnd|rewrite list_lookup_fmap, Hn; done|rewrite list_lookup_fmap, Hm; simpl; by rewrite E].
  - apply isort_StronglySorted; unfold item_leb; intros; [apply texts_leb_total|by eapply texts_leb_trans].
  - apply isort_StronglySorted; unfold item_leb; intros; [apply texts_leb_total|by eapply texts_leb_trans].
  - by rewrite !isort_Permutation.
Qed.

Lemma canon_idem v : canon (canon v) = canon v.
Proof. apply json_canonical, dumps_canon. Qed.

Lemma spaced_leb_canon v w : spaced_leb (canon v) (canon w) = spaced_leb v w.
Proof. unfold spaced_leb, json_spaced. by rewrite !dumps_canon. Qed.

(** Sorting by text is canonical: values with the same text are the same. *)
Lemma spaced_sort_canon l k : canon <$> l ≡ₚ canon <$> k → canon <$> isort spaced_leb l = canon <$> isort spaced_leb k.
Proof.
  intros Hp. rewrite <-!(isort_map spaced_leb spaced_leb canon) by apply spaced_leb_canon.
  assert (∀ m, StronglySorted (lebR spaced_leb) (isort spaced_leb m)) as Hs.
  { intros m. apply isort_StronglySorted; unfold spaced_leb; intros; [apply String.leb_total|by eapply string_leb_trans]. }
  apply (sorted_unique spaced_leb); [|apply Hs|apply Hs|by rewrite !isort_Permutation].
  intros v w Hv Hw H1 H2. rewrite elem_of_isort in Hv, Hw. apply list_elem_of_fmap in Hv as (v' & -> & _), Hw as (w' & -> & _).
  rewrite <-(canon_idem v'), <-(canon_idem w'). apply json_spaced_canonical. by apply String.leb_antisym.
Qed.

Definition same_conflict (c d : InventoryConflict) : Prop :=
  cf_kind c = cf_kind d ∧ cf_value c = cf_value d ∧ cf_participants c ≡ₚ cf_participants d.

Lemma same_conflict_canon c d : same_conflict c d → canon (conflict_dict c) = canon (conflict_dict d).
Proof.
  intros (Ek & Ev & Hp). unfold conflict_dict. rewrite !canon_dict. f_equal. rewrite <-!(isort_map key_leb key_leb canon_pair) by done.
  f_equal. rewrite !fmap_cons. unfold canon_pair at 1 2 4 5. cbn [fst snd canon]. rewrite Ek, Ev. do 2 f_equal. f_equal. unfold canon_pair. simpl.
  do 2 f_equal. apply (spaced_sort_canon (participant_dict <$> cf_participants c)). by rewrite Hp.
Qed.

(** The fields of a plan outside its lists. *)
Definition plan_header (p : SyncPlan) :=
  (sp_source_instance p, sp_source_id p, sp_source_type p, sp_source_fingerprint p, sp_target_fingerprint p, sp_provider_fingerprint p,
   sp_netbox_fingerprint p, sp_schema_version p, sp_planner_version p).

(** C20: the canonical text binds the whole plan. Two plans with the same text have
    the same source, fingerprints and versions, the same items one for one up to
    their order and the order of keys inside values, the same conflicts, and the
    same verdict on whether they may be applied. *)
Theorem canonical_text_binds p q :
  canonical_json p = canonical_json q →
  plan_header p = plan_header q ∧ apply_allowed p = apply_allowed q ∧
  (∃ items, items ≡ₚ sp_items q ∧ Forall2 same_item (sp_items p) items) ∧
  canon ∘ conflict_dict <$> sp_conflicts p ≡ₚ canon ∘ conflict_dict <$> sp_conflicts q.
Proof.
  intros E%json_canonical. assert (∀ p, NoDup (dkeys (canonical_dict p))) as Hd by (intros; decided).
  pose proof (λ k, canon_get (canonical_dict p) (canonical_dict q) k (Hd p) (Hd q) E) as H. clear E Hd. split_and!.
  - pose proof (canon_str _ _ (H "source_instance")). pose proof (canon_str _ _ (H "source_id")). pose proof (canon_str _ _ (H "source_type")).
    pose proof (canon_str _ _ (H "source_fingerprint")). pose proof (canon_str _ _ (H "target_fingerprint")).
    pose proof (canon_str _ _ (H "provider_fingerprint")). pose proof (canon_str _ _ (H "netbox_fingerprint")).
    pose proof (canon_str _ _ (H "planner_version")). pose proof (H "schema_version") as Hv. injection Hv as Hv. unfold plan_header. congruence.
  - pose proof (H "apply_allowed") as Hv. by injection Hv.
  - pose proof (canon_list _ _ (H "items")) as Hi. rewrite <-!list_fmap_compose in Hi.
    destruct (Permutation_map_Forall2 (canon ∘ item_dict) (sp_items p) (sp_items q)) as (items & Hp & Hf).
    + rewrite <-(isort_Permutation item_leb (sp_items p)), <-(isort_Permutation item_leb (sp_items q)). by rewrite Hi.
    + exists items. split; [done|]. eapply Forall2_impl; [exact Hf|]. intros i j. apply item_dict_canon.
  - pose proof (canon_list _ _ (H "conflicts")) as Hc. rewrite !list_fmap_compose.
    rewrite <-(isort_Permutation spaced_leb (conflict_dict <$> sp_conflicts p)),
      <-(isort_Permutation spaced_leb (conflict_dict <$> sp_conflicts q)). by rewrite Hc.
Qed.

(** And it forgets nothing but order: plans that agree on their fields, list the
    same items in any order with no two of the same kind, id, action and reason,
    and the same conflicts and participants in any order, have the same text and
    so the same digest. *)
Theorem canonical_text_order_free p q conflicts :
  plan_header p = plan_header q → NoDup (item_key <$> sp_items p) → sp_items p ≡ₚ sp_items q →
  conflicts ≡ₚ sp_conflicts q → Forall2 same_conflict (sp_conflicts p) conflicts →
  canonical_json p = canonical_json q.
Proof.
  intros Eh Hnd Hi Hp Hf. apply json_canonical. rewrite !canon_dict. f_equal. rewrite <-!(isort_map key_leb key_leb canon_pair) by done.
  f_equal. unfold plan_header in Eh. unfold canonical_dict. injection Eh as -> -> -> -> -> -> -> -> ->.
  rewrite (item_order_free _ _ Hnd Hi).
  assert (apply_allowed p = apply_allowed q) as ->.
  { unfold apply_allowed. f_equal. apply eq_iff_eq_true. rewrite !existsb_exists. setoid_rewrite <-list_elem_of_In. by setoid_rewrite Hi. }
  rewrite !fmap_cons. do 8 f_equal. f_equal. unfold canon_pair. cbn [fst snd canon]. do 2 f_equal.
  apply (spaced_sort_canon (conflict_dict <$> sp_conflicts p) (conflict_dict <$> sp_conflicts q)).
  rewrite <-Hp, <-!list_fmap_compose. enough (canon ∘ conflict_dict <$> sp_conflicts p = canon ∘ conflict_dict <$> conflicts) as -> by done.
  apply list_eq_Forall2, Forall2_fmap. eapply Forall2_impl; [exact Hf|]. intros c d. apply same_conflict_canon.
Qed.

(** ** Nothing is dropped *)

Section Plans.
Context (sha256 : string → string).

(** What the item of a mutation says. *)
Record describes (m : PlannedMutation) (i : SyncPlanItem) : Prop := {
  ds_kind : it_kind i = mu_endpoint m;
  ds_action : it_action i = if bool_decide (mu_operation m = OpCreate) then SA_CREATE else SA_UPDATE;
  ds_matched : it_matched i = if bool_decide (mu_operation m = OpCreate) then PNone else mu_object_id m;
  ds_before : ∃ before, before ∈ [mu_before m; planned_after (mu_endpoint m) (mu_before m)] ∧ it_before i = isort key_leb before;
  ds_after : it_after i = isort key_leb (planned_after (mu_endpoint m) (mu_after m)) }.

(** A mutation with its baseline, symbolic or not. *)
Definition rebased (m m' : PlannedMutation) : Prop :=
  ∃ before, before ∈ [mu_before m; planned_after (mu_endpoint m) (mu_before m)] ∧ m' = with_before before m.

Lemma baselines_rebased written ms : Forall2 rebased ms (baselines written ms).
Proof.
  revert written. induction ms as [|m ms IH]; intros written; constructor; [|apply IH]. eexists. split; [|done].
  destruct (carried written m); rewrite !elem_of_cons; auto.
Qed.

Lemma mutation_item_describes names m m' i : rebased m m' → mutation_item names m' = Ok i → describes m i.
Proof.
  intros (before & Hb & ->). unfold mutation_item. rewrite result_bind_Ok. intros (identity & _ & [= <-]). split; try done. by exists before.
Qed.

Definition executed (i : SyncPlanItem) : Prop := it_action i = SA_CREATE ∨ it_action i = SA_UPDATE.
#[export] Instance executed_dec i : Decision (executed i).
Proof. unfold executed. apply _. Defined.

Lemma describes_executed m i : describes m i → executed i.
Proof. intros [_ Ha _ _ _]. unfold executed. rewrite Ha. case_bool_decide; auto. Qed.

Lemma executed_only review l :
  Forall executed l → filter executed (plan_items review l) = l.
Proof.
  intros Hl. unfold plan_items. rewrite !filter_app.
  rewrite (filter_none executed (filter _ review)), (filter_all executed l), (filter_none executed (unsupported <$> _)),
    (filter_none executed (filter _ review)).
  - by rewrite !app_nil_r.
  - intros i [[Hi _] _]%list_elem_of_filter. unfold executed. rewrite Hi. naive_solver.
  - intros i (j & -> & _)%list_elem_of_fmap. by intros [?|?].
  - intros i Hi. rewrite Forall_forall in Hl. by apply Hl.
  - intros i [Hi _]%list_elem_of_filter [E|E]; rewrite E in Hi; vm_compute in Hi; discriminate Hi.
Qed.

(** The item of a recorded mutation stands for a reviewed object: it creates the object
    that was to be created, or updates the one that was matched. *)
Definition stands_for (j i : SyncPlanItem) : Prop :=
  review_endpoint (it_kind i) = Some (it_kind j) ∧
  (it_action i = SA_CREATE ∧ it_action j = SA_CREATE ∧ it_external_id i = it_external_id j ∨
   it_action i = SA_NO_CHANGE ∧ it_action j = SA_UPDATE ∧ py_eqb (it_matched i) (it_matched j) = true).
#[export] Instance stands_for_dec j i : Decision (stands_for j i).
Proof. unfold stands_for. apply _. Defined.
(** What a plan shows of a reviewed object beside the items of the mutations: nothing
    where one of them stands for it, a refusal where it was to be created and was not,
    and otherwise the object as it was reviewed. *)
Definition shown (items : list SyncPlanItem) (i : SyncPlanItem) : list SyncPlanItem :=
  if decide (Exists (λ j, stands_for j i) items) then [] else if decide (it_action i = SA_CREATE) then [unsupported i] else [i].

Lemma was_created_spec kept l i :
  Forall (λ j, ¬ executed j) kept → it_action i = SA_CREATE → was_created (kept ++ l) i = true ↔ Exists (λ j, stands_for j i) l.
Proof.
  intros Hk Hi. unfold was_created. rewrite existsb_exists, Exists_exists. setoid_rewrite <-list_elem_of_In. setoid_rewrite elem_of_app.
  setoid_rewrite andb_true_iff. setoid_rewrite andb_true_iff. setoid_rewrite bool_decide_eq_true. rewrite Forall_forall in Hk. unfold stands_for. rewrite Hi.
  split; [intros (j & [Hj|Hj] & [Ha He] & Hx); [destruct (Hk j Hj); by left|]|intros (j & Hj & He & [(_ & Ha & Hx)|(? & _)]); [|done]]; exists j; naive_solver.
Qed.
Lemma was_updated_spec kept l i :
  Forall (λ j, ¬ executed j) kept → it_action i = SA_NO_CHANGE → was_updated (kept ++ l) i = true ↔ Exists (λ j, stands_for j i) l.
Proof.
  intros Hk Hi. unfold was_updated. rewrite existsb_exists, Exists_exists. setoid_rewrite <-list_elem_of_In. setoid_rewrite elem_of_app.
  setoid_rewrite andb_true_iff. setoid_rewrite andb_true_iff. setoid_rewrite bool_decide_eq_true. rewrite Forall_forall in Hk. unfold stands_for. rewrite Hi.
  split; [intros (j & [Hj|Hj] & [Ha He] & Hx); [destruct (Hk j Hj); by right|]|intros (j & Hj & He & [(? & _)|(_ & Ha & Hx)]); [done|]]; exists j; naive_solver.
Qed.

(** The three groups of reviewed items are the reviewed objects, once each. *)
Lemma shown_groups kept l review :
  Forall (λ j, ¬ executed j) kept → Forall (λ i, it_action i ≠ SA_UPDATE) review →
  (filter (λ i, kept_action (it_action i) = true) review ++
   (unsupported <$> filter (λ i, it_action i = SA_CREATE ∧ was_created (kept ++ l) i = false) review) ++
   filter (λ i, it_action i = SA_NO_CHANGE ∧ was_updated (kept ++ l) i = false) review)%list ≡ₚ (review ≫= shown l).
Proof.
  intros Hk Hr. induction Hr as [|i review Hi Hr IH]; [done|]. rewrite !filter_cons, bind_cons, <-IH. unfold shown.
  destruct (it_action i) eqn:Ha; [|done|..]; rewrite ?(decide_False (P := kept_action _ = true)), ?(decide_True (P := kept_action _ = true)) by (by vm_compute).
  3-7: rewrite (decide_False (P := Exists _ _)) by (rewrite Exists_exists; unfold stands_for; rewrite Ha; naive_solver);
    rewrite !decide_False by naive_solver; solve_Permutation.
  - pose proof (was_created_spec kept l i Hk Ha) as Hw. rewrite (decide_False (P := SA_CREATE = SA_NO_CHANGE ∧ _)) by naive_solver.
    destruct (was_created (kept ++ l) i); [rewrite (decide_True (P := Exists _ _)) by naive_solver|rewrite (decide_False (P := Exists _ _)) by naive_solver].
    + by rewrite decide_False by naive_solver.
    + rewrite !decide_True by done. rewrite fmap_cons. solve_Permutation.
  - pose proof (was_updated_spec kept l i Hk Ha) as Hw. rewrite (decide_False (P := SA_NO_CHANGE = SA_CREATE ∧ _)) by naive_solver.
    destruct (was_updated (kept ++ l) i); [rewrite (decide_True (P := Exists _ _)) by naive_solver|rewrite (decide_False (P := Exists _ _)) by naive_solver].
    + by rewrite decide_False by naive_solver.
    + rewrite decide_True, decide_False by done. solve_Permutation.
Qed.

Lemma plan_items_exact review c items :
  plan_items (sp_items (plan_from_review sha256 review c)) items ≡ₚ
  (items ++ (review ≫= λ r, shown items (review_item r)) ++ [retain_item c])%list.
Proof.
  cbn [sp_items plan_from_review]. set (reviewed := (_ ++ [retain_item c])%list). unfold plan_items. fold reviewed.
  set (kept := filter (λ i, kept_action (it_action i) = true) reviewed).
  trans (items ++ (reviewed ≫= shown items))%list.
  - rewrite <-(shown_groups kept items reviewed); [unfold kept; solve_Permutation|..].
    + apply Forall_forall. intros i [Hi _]%list_elem_of_filter [E|E]; rewrite E in Hi; vm_compute in Hi; discriminate Hi.
    + apply Forall_app. split; [|by repeat constructor]. apply Forall_fmap, Forall_true. intros r. unfold compose, review_item. simpl. by destruct (ri_classification r).
  - unfold reviewed. rewrite bind_app, list_fmap_bind. f_equiv. f_equiv; [done|]. rewrite bind_cons. cbn [mbind list_bind]. rewrite app_nil_r.
    unfold shown. rewrite decide_False; [by rewrite decide_False|]. rewrite Exists_exists. unfold stands_for. cbn. naive_solver.
Qed.

Lemma plan_items_blocked review l :
  Forall executed l → (∃ i, i ∈ plan_items review l ∧ it_action i = SA_BLOCKED) ↔ (∃ i, i ∈ review ∧ it_action i = SA_BLOCKED).
Proof.
  intros Hl. rewrite Forall_forall in Hl. split.
  - intros (i & Hi & Hb). unfold plan_items in Hi. rewrite !elem_of_app, !list_elem_of_filter, list_elem_of_fmap in Hi.
    destruct Hi as [[[_ ?]|Hi]|[(j & -> & _)|[_ ?]]]; [by exists i|destruct (Hl i Hi); congruence|done|by exists i].
  - intros (i & Hi & Hb). exists i. split; [|done]. unfold plan_items. rewrite !elem_of_app, !list_elem_of_filter, Hb. auto.
Qed.

(** The executed items are the mutations. *)
Lemma mutations_described names mutations items :
  mapR (mutation_item names) (canonical_mutation_baselines mutations) = Ok items → Forall2 describes mutations items ∧ Forall executed items.
Proof.
  intros Hm. apply mapR_Ok in Hm. assert (Forall2 describes mutations items) as Hd.
  { eapply Forall2_comp; [|apply (baselines_rebased [])|exact Hm]. intros m m' i. apply mutation_item_describes. }
  split; [done|]. apply Forall_forall. intros i Hi. apply list_elem_of_lookup in Hi as [n Hn].
  destruct (Forall2_lookup_r _ _ _ _ _ Hd Hn) as (m & _ & Hmi). by eapply describes_executed.
Qed.
Lemma plan_executes review c mutations plan :
  plan_from_mutations sha256 review c mutations = Ok plan → ∃ items, Forall2 describes mutations items ∧ filter executed (sp_items plan) ≡ₚ items.
Proof.
  unfold plan_from_mutations. rewrite result_bind_Ok. intros (items & Hm & [= <-]). apply mutations_described in Hm as [Hd He].
  exists items. split; [done|]. cbn [sp_items]. rewrite isort_Permutation. by rewrite executed_only.
Qed.

(** C18: the plan of a recording run is exact. Its items are, each exactly once: one
    item for every recorded mutation, with the object, the managed values before and
    after and nothing else; for every object of the review that none of those stands
    for, the object as it was reviewed, or a refusal where it was to be created; and
    the retention notice. So no object is dropped silently, listed twice or listed
    beside the mutation that creates or updates it, and the plan is blocked exactly
    when the review had a conflict. *)
Theorem plan_is_exact review c mutations plan :
  plan_from_mutations sha256 review c mutations = Ok plan →
  (∃ items, Forall2 describes mutations items ∧ filter executed (sp_items plan) ≡ₚ items ∧
    sp_items plan ≡ₚ (items ++ (review ≫= λ r, shown items (review_item r)) ++ [retain_item c])%list) ∧
  apply_allowed plan = apply_allowed (plan_from_review sha256 review c).
Proof.
  unfold plan_from_mutations. rewrite result_bind_Ok. intros (items & Hm & [= <-]).
  apply mutations_described in Hm as [Hd He]. cbn [sp_items]. split.
  - exists items. split_and!; [done|by rewrite isort_Permutation, executed_only|]. rewrite isort_Permutation. by apply plan_items_exact.
  - unfold apply_allowed. cbn [sp_items]. f_equal. apply eq_iff_eq_true. rewrite !existsb_exists. unfold is_blocked.
    setoid_rewrite bool_decide_eq_true. setoid_rewrite <-list_elem_of_In. setoid_rewrite elem_of_isort. by apply plan_items_blocked.
Qed.
End Plans.

(** ** The clock of a reading is not planned *)

(** The same values with another clock on a fresh document. *)
Definition retime_values (t : string) (endpoint : string) (values : pydict) : pydict :=
  if clocked endpoint values then set_clock (PStr t) values else values.
Definition retime_doc (t : string) (endpoint : string) (doc : pyval) : pyval :=
  match doc with
  | PDict d => if bool_decide (endpoint = "dcim.devices") && fresh_doc doc then PDict (dset "observed_at" (PStr t) d) else doc
  | _ => doc
  end.

Lemma fresh_doc_clock t d : fresh_doc (PDict d) = true → fresh_doc (PDict (dset "observed_at" (PStr t) d)) = true.
Proof.
  unfold fresh_doc. intros [[Hv Hs]%andb_true_iff _]%andb_true_iff. rewrite !dget_dset_ne, dget_dset_eq by done. by rewrite Hv, Hs.
Qed.

Lemma clocked_inv endpoint values : clocked endpoint values = true →
  endpoint = "dcim.devices" ∧ ∃ fields doc, dget "custom_fields" values = PDict fields ∧ dget "hardware_identity" fields = PDict doc ∧
    fresh_doc (PDict doc) = true ∧ ∀ t, set_clock t values =
      dset "custom_fields" (PDict (dset "hardware_identity" (PDict (dset "observed_at" t doc)) fields)) values.
Proof.
  unfold clocked, hardware, set_clock. intros [He%bool_decide_eq_true H]%andb_true_iff. split; [done|].
  destruct (dget "custom_fields" values) as [| | | | |fields]; try done.
  destruct (dget "hardware_identity" fields) as [| | | | |doc] eqn:Ed; try done. by exists fields, doc.
Qed.

Section Clock.
Context (t : string).

(** A second recording of the same run: every fresh document is stamped [t], in
    the values written and in the baselines that carry an earlier write. *)
Fixpoint retimed (written : list (object_key * pyval)) (ms : list PlannedMutation) : list PlannedMutation :=
  match ms with
  | [] => []
  | m :: ms' =>
      mkMutation (mu_operation m) (mu_endpoint m) (mu_object_id m)
        (if carried written m then retime_values t (mu_endpoint m) (mu_before m) else mu_before m)
        (retime_values t (mu_endpoint m) (mu_after m)) :: retimed (track m written) ms'
  end.

(** In a recording the baseline of a later write of an object is what the earlier
    one wrote. *)
Fixpoint coherent (written : list (object_key * pyval)) (ms : list PlannedMutation) : Prop :=
  match ms with
  | [] => True
  | m :: ms' =>
      NoDup (dkeys (mu_after m)) ∧
      (∀ doc, klookup (mu_key m) written = Some doc → is_dict (dget "custom_fields" (mu_before m)) = true →
         hardware (mu_before m) = doc ∧ wf_pyval doc) ∧
      coherent (track m written) ms'
  end.

Lemma retime_members endpoint values :
  ∀ k, k ≠ "custom_fields" → dlookup k (retime_values t endpoint values) = dlookup k values.
Proof.
  intros k Hk. unfold retime_values. destruct (clocked endpoint values) eqn:E; [|done].
  apply clocked_inv in E as (_ & fields & doc & _ & _ & _ & ->). by rewrite dlookup_dset, decide_False.
Qed.

Lemma retime_dict endpoint values :
  is_dict (dget "custom_fields" (retime_values t endpoint values)) = is_dict (dget "custom_fields" values).
Proof.
  unfold retime_values. destruct (clocked endpoint values) eqn:E; [|done].
  apply clocked_inv in E as (_ & fields & doc & -> & _ & _ & ->). by rewrite dget_dset_eq.
Qed.

Lemma retime_hardware endpoint values : hardware (retime_values t endpoint values) = retime_doc t endpoint (hardware values).
Proof.
  unfold retime_values. destruct (clocked endpoint values) eqn:E.
  - pose proof E as E'. apply clocked_inv in E as (-> & fields & doc & Ef & Ed & Hd & ->).
    unfold hardware. rewrite dget_dset_eq, Ef, dget_dset_eq, Ed. unfold retime_doc. by rewrite Hd.
  - unfold retime_doc. unfold clocked in E. destruct (hardware values); try done. by rewrite E.
Qed.

Lemma retime_fields endpoint values :
  dget "custom_fields" (retime_values t endpoint values) =
    match dget "custom_fields" values with
    | PDict fields => PDict (if clocked endpoint values then dset "hardware_identity" (retime_doc t endpoint (hardware values)) fields else fields)
    | v => v
    end.
Proof.
  unfold retime_values. destruct (clocked endpoint values) eqn:E; [|by destruct (dget "custom_fields" values)].
  apply clocked_inv in E as (-> & fields & doc & Ef & Ed & Hd & ->). unfold hardware. rewrite dget_dset_eq, Ef, Ed. unfold retime_doc. by rewrite Hd.
Qed.

Lemma retime_clocked endpoint values : clocked endpoint (retime_values t endpoint values) = clocked endpoint values.
Proof.
  unfold clocked. rewrite retime_hardware. unfold retime_doc. destruct (hardware values) as [| | | | |d]; try done.
  destruct (bool_decide (endpoint = "dcim.devices")) eqn:Ee; cbn [andb]; [|done].
  destruct (fresh_doc (PDict d)) eqn:Ed; [by apply fresh_doc_clock|done].
Qed.

Lemma retime_planned endpoint values : planned_after endpoint (retime_values t endpoint values) = planned_after endpoint values.
Proof.
  unfold planned_after. rewrite retime_clocked. unfold retime_values. destruct (clocked endpoint values) eqn:E; [|done].
  pose proof E as E'. apply clocked_inv in E as (-> & fields & doc & Ef & Ed & Hd & ->).
  unfold set_clock. by rewrite dget_dset_eq, dget_dset_eq, Ef, Ed, !dset_dset.
Qed.

Definition retime_entry (e : object_key * pyval) : object_key * pyval := (e.1, retime_doc t e.1.1 e.2).

Lemma klookup_retime k written : klookup k (retime_entry <$> written) = retime_doc t k.1 <$> klookup k written.
Proof.
  induction written as [|[k' doc] written IH]; [done|]. rewrite fmap_cons. cbn [klookup retime_entry fst snd].
  destruct (same_key k k') eqn:E; [|exact IH]. unfold same_key in E. inv_bool. simpl. by match goal with H : k.1 = k'.1 |- _ => rewrite H end.
Qed.

Lemma retime_track m m' written :
  mu_key m' = mu_key m → mu_after m' = retime_values t (mu_endpoint m) (mu_after m) →
  track m' (retime_entry <$> written) = retime_entry <$> track m written.
Proof.
  intros Ek Ea. unfold track. rewrite Ea, Ek, retime_fields. destruct (dget "custom_fields" (mu_after m)) as [| | | | |fields] eqn:Ef; try done.
  assert (clocked (mu_endpoint m) (mu_after m) = true → is_Some (dlookup "hardware_identity" fields)) as Hs.
  { intros E. apply clocked_inv in E as (_ & fields' & doc & Ef' & Ed & _). rewrite Ef in Ef'. injection Ef' as <-.
    unfold dget in Ed. destruct (dlookup "hardware_identity" fields); [done|discriminate Ed]. }
  assert (hardware (mu_after m) = dget "hardware_identity" fields) as Eh by (unfold hardware; by rewrite Ef).
  destruct (dlookup "hardware_identity" fields) as [doc|] eqn:Ed.
  - assert (dget "hardware_identity" fields = doc) as Edoc by (unfold dget; by rewrite Ed).
    destruct (clocked (mu_endpoint m) (mu_after m)) eqn:E.
    + rewrite dlookup_dset, decide_True by done. by rewrite Eh, Edoc.
    + rewrite Ed, fmap_cons. f_equal. unfold retime_entry. simpl. f_equal. unfold clocked in E. rewrite Eh, Edoc in E.
      unfold retime_doc. destruct doc; try done. by rewrite E.
  - destruct (clocked (mu_endpoint m) (mu_after m)); [by destruct Hs|]. rewrite Ed. clear.
    induction written as [|e written IH]; [done|]. rewrite fmap_cons, !filter_cons. cbn [retime_entry fst].
    case_decide; [|exact IH]. by rewrite fmap_cons, IH.
Qed.

Lemma retime_carried m written before' after' :
  (∀ doc, klookup (mu_key m) written = Some doc → is_dict (dget "custom_fields" (mu_before m)) = true →
     hardware (mu_before m) = doc ∧ wf_pyval doc) →
  before' = (if carried written m then retime_values t (mu_endpoint m) (mu_before m) else mu_before m) →
  carried (retime_entry <$> written) (mkMutation (mu_operation m) (mu_endpoint m) (mu_object_id m) before' after') = carried written m.
Proof.
  intros Hc ->. assert (carried written m = match klookup (mu_key m) written with
    | Some _ => is_dict (dget "custom_fields" (mu_before m)) | None => false end) as Ec.
  { unfold carried. destruct (klookup (mu_key m) written) as [doc|]; [|done].
    destruct (is_dict _); [|done]. destruct (Hc doc eq_refl eq_refl) as [-> Hwf]. by rewrite py_eqb_refl. }
  rewrite Ec. unfold carried at 1. unfold mu_key at 1. cbn [mu_endpoint mu_object_id]. rewrite klookup_retime. fold (mu_key m).
  destruct (klookup (mu_key m) written) as [doc|] eqn:Ek; [|done]. cbn [fmap option_fmap option_map].
  destruct (is_dict (dget "custom_fields" (mu_before m))) eqn:Ed.
  - cbn [mu_before]. rewrite retime_dict, Ed. destruct (Hc doc eq_refl eq_refl) as [Eh Hwf]. rewrite retime_hardware, Eh. simpl.
    apply py_eqb_refl. unfold retime_doc. destruct doc; try done. destruct (_ && _); [by apply wf_dset|done].
  - cbn [mu_before]. by rewrite Ed.
Qed.

(** The canonical mutations of the two recordings. *)
Definition restamped (m m' : PlannedMutation) : Prop :=
  NoDup (dkeys (mu_after m)) ∧
  m' = mkMutation (mu_operation m) (mu_endpoint m) (mu_object_id m) (mu_before m) (retime_values t (mu_endpoint m) (mu_after m)).

Lemma retimed_baselines written ms :
  coherent written ms → Forall2 restamped (baselines written ms) (baselines (retime_entry <$> written) (retimed written ms)).
Proof.
  revert written. induction ms as [|m ms IH]; intros written; [constructor|]. intros (Hnd & Hc & Hms). cbn [retimed baselines].
  constructor.
  - split; [done|]. unfold with_before. cbn [mu_operation mu_endpoint mu_object_id mu_before mu_after]. f_equal.
    rewrite (retime_carried m written _ _ Hc eq_refl). destruct (carried written m); [|done]. apply retime_planned.
  - rewrite (retime_track m); [by apply IH|done|done].
Qed.
End Clock.

(** ** The same plan at another time *)

Section Retime.
Context (t : string).

Lemma restamped_identity m m' : restamped t m m' → mutation_identity m' = mutation_identity m.
Proof.
  intros [Hnd ->]. unfold mutation_identity, dget. cbn [mu_before mu_after].
  assert (NoDup (dkeys (retime_values t (mu_endpoint m) (mu_after m)))) as Hnd'.
  { unfold retime_values. destruct (clocked _ _) eqn:E; [|done]. apply clocked_inv in E as (_ & fields & doc & Ef & _ & _ & ->).
    unfold dget in Ef. destruct (dlookup "custom_fields" (mu_after m)) as [w|] eqn:El; [|discriminate Ef]. by rewrite (dkeys_dset _ _ _ _ El). }
  rewrite !dlookup_dupdate by done. unfold retime_values. destruct (clocked _ _) eqn:E; [|done].
  apply clocked_inv in E as (_ & fields & doc & Ef & Ed & _ & ->). unfold dget in Ef.
  destruct (dlookup "custom_fields" (mu_after m)) as [w|]; [|discriminate Ef]. simpl in Ef. subst w.
  rewrite dlookup_dset, decide_True by done. simpl. by rewrite dlookup_dset, decide_False.
Qed.

Lemma restamped_name m m' : restamped t m m' → created_name m' = created_name m.
Proof. intros [_ ->]. unfold created_name, dget. cbn [mu_after mu_object_id]. by rewrite !retime_members. Qed.

Lemma restamped_item names m m' : restamped t m m' → mutation_item names m' = mutation_item names m.
Proof.
  intros H. unfold mutation_item. rewrite (restamped_identity m m' H). destruct H as [_ ->].
  cbn [mu_operation mu_endpoint mu_object_id mu_before mu_after]. rewrite retime_planned, retime_members by done. done.
Qed.

Lemma restamped_names items ms ms' : Forall2 (restamped t) ms ms' → object_names items ms' = object_names items ms.
Proof.
  intros H. unfold object_names. f_equal. f_equal. induction H as [|m m' ms ms' Hm _ IH]; [done|]. rewrite !filter_cons.
  pose proof (restamped_name m m' Hm) as En. destruct Hm as [_ ->]. cbn [mu_operation].
  case_decide; [|exact IH]. rewrite !fmap_cons, IH. unfold mu_key. cbn [mu_endpoint mu_object_id] in *. by rewrite En.
Qed.

Lemma restamped_items names ms ms' : Forall2 (restamped t) ms ms' → mapR (mutation_item names) ms' = mapR (mutation_item names) ms.
Proof. induction 1 as [|m m' ms ms' Hm _ IH]; [done|]. cbn [mapR]. by rewrite (restamped_item names m m' Hm), IH. Qed.

Lemma restamped_fingerprint ms ms' :
  Forall2 (restamped t) ms ms' → map fingerprint_value (isort mutation_leb ms') = map fingerprint_value (isort mutation_leb ms).
Proof.
  intros H. set (restamp := λ m, mkMutation (mu_operation m) (mu_endpoint m) (mu_object_id m) (mu_before m) (retime_values t (mu_endpoint m) (mu_after m))).
  assert (ms' = restamp <$> ms) as ->.
  { induction H as [|m m' ms ms' [_ ->] _ IH]; [done|]. by rewrite fmap_cons, <-IH. }
  rewrite (isort_map mutation_leb mutation_leb restamp) by done.
  change (map fingerprint_value) with (fmap (M := list) fingerprint_value). by rewrite <-list_fmap_compose.
Qed.
End Retime.

(** Confirmation binds hardware content, not the clock of a reading. A second
    recording of the same run at another time, in which every fresh hardware
    document and every baseline that carries one is stamped differently, gives the
    same plan, so a review stays confirmable while nothing but time has passed. *)
Theorem plan_ignores_reading_time sha256 t review c mutations :
  coherent [] mutations →
  plan_from_mutations sha256 review c (retimed t [] mutations) = plan_from_mutations sha256 review c mutations.
Proof.
  intros Hc. pose proof (retimed_baselines t [] mutations Hc) as H. change (retime_entry t <$> []) with (@nil (object_key * pyval)) in H.
  unfold plan_from_mutations, canonical_mutation_baselines.
  by rewrite (restamped_names t _ _ _ H), (restamped_items t _ _ _ H), (restamped_fingerprint t _ _ H).
Qed.

(** ** A concrete plan: one host updated twice, one VM created, one not executed *)

Definition plan_config : SourceConfig := {|
  cfg_id := "1"; cfg_source_instance := "pve-a"; cfg_name := "PVE A"; cfg_source_type := "proxmox"; cfg_address := "pve.example";
  cfg_enabled := true; cfg_sync_enabled := true; cfg_sync_interval_seconds := 300; cfg_verify_ssl := true;
  cfg_target := mkTarget "dc1" "hypervisor" "proxmox" "server" "proxmox" "lab" [];
  cfg_credentials := mkCredentials "sync" (mkSecretReference "file" "id") (mkSecretReference "file" "secret");
  cfg_sync_calendar := PNone; cfg_schedule_changed_at := None; cfg_legacy_identity_owner := false; cfg_settings := [] |}.
Definition plan_hash (s : string) : string := s.

Definition hardware_doc (clock : string) : pyval :=
  PDict [("version", PInt 1); ("source", PStr "proxmox"); ("observed_at", PStr clock); ("serial", PStr "S1")].
Definition host_fields (doc : pyval) : pyval :=
  PDict [("sync_identities", PList [PDict [("external_id", PStr "node-1")]]); ("hardware_identity", doc)].
Definition plan_mutations (clock : string) : list PlannedMutation :=
  [mkMutation OpUpdate "dcim.devices" (PInt 4) [("custom_fields", host_fields (hardware_doc "2025"))] [("custom_fields", host_fields (hardware_doc clock))];
   mkMutation OpUpdate "dcim.devices" (PInt 4) [("custom_fields", host_fields (hardware_doc clock)); ("name", PStr "old")]
     [("custom_fields", host_fields (hardware_doc clock)); ("name", PStr "node-1")];
   mkMutation OpCreate "virtualization.virtual_machines" (PInt (-1)) []
     [("name", PStr "web"); ("custom_fields", PDict [("sync_identities", PList [PDict [("external_id", PStr "100")]])])]].
Definition plan_review : list ReviewItem :=
  [mkReviewItem "host" "node-1" "node-1" RC_MANAGED "IDENTITY_MATCH" "" "none" (PInt 4) (PStr "old") [];
   mkReviewItem "qemu" "web" "100" RC_WOULD_CREATE "NEW" "" "create" PNone PNone [];
   mkReviewItem "qemu" "db" "101" RC_WOULD_CREATE "NEW" "" "create" PNone PNone []].
Definition sample_plan : SyncPlan :=
  match plan_from_mutations plan_hash plan_review plan_config (plan_mutations "2026") with
  | Ok p => p | Err _ => plan_from_review plan_hash [] plan_config end.

Lemma plan_is_exact_witness :
  length (sp_items sample_plan) = 5%nat ∧ apply_allowed sample_plan = true ∧
  ∃ items, Forall2 describes (plan_mutations "2026") items ∧
    sp_items sample_plan ≡ₚ (items ++ (plan_review ≫= λ r, shown items (review_item r)) ++ [retain_item plan_config])%list.
Proof.
  split; [vm_compute; reflexivity|]. split; [vm_compute; reflexivity|].
  destruct (plan_is_exact plan_hash plan_review plan_config (plan_mutations "2026") sample_plan ltac:(vm_compute; reflexivity))
    as ((items & Hd & _ & Hp) & _).
  exists items. split; [exact Hd|exact Hp].
Defined.

Lemma plan_ignores_reading_time_witness :
  plan_mutations "2026" ≠ plan_mutations "2027" ∧
  plan_from_mutations plan_hash plan_review plan_config (plan_mutations "2027") =
  plan_from_mutations plan_hash plan_review plan_config (plan_mutations "2026").
Proof.
  split; [intros H; vm_compute in H; discriminate H|].
  apply (plan_ignores_reading_time plan_hash "2027" plan_review plan_config (plan_mutations "2026")).
  split; [decided|]. split; [intros doc H; vm_compute in H; discriminate H|]. split; [decided|]. split.
  - intros doc H _. vm_compute in H. injection H as <-. split; [vm_compute; reflexivity|]. split; [decided|]. vm_compute. done.
  - split; [decided|]. split; [intros doc H; vm_compute in H; discriminate H|done].
Defined.

Lemma canonical_text_binds_witness :
  canonical_json sample_plan = canonical_json (mkPlan "pve-a" "1" "proxmox" (sp_source_fingerprint sample_plan) (sp_target_fingerprint sample_plan)
    (sp_provider_fingerprint sample_plan) (sp_netbox_fingerprint sample_plan) (sp_items sample_plan) [] 1 "web-5a-19") ∧
  ∃ items, items ≡ₚ sp_items sample_plan ∧ Forall2 same_item (sp_items sample_plan) items.
Proof. split; [vm_compute; reflexivity|]. apply (canonical_text_binds sample_plan sample_plan). reflexivity. Defined.

Definition swapped_plan : SyncPlan :=
  mkPlan (sp_source_instance sample_plan) (sp_source_id sample_plan) (sp_source_type sample_plan) (sp_source_fingerprint sample_plan)
    (sp_target_fingerprint sample_plan) (sp_provider_fingerprint sample_plan) (sp_netbox_fingerprint sample_plan)
    (review_item <$> plan_review) [] (sp_schema_version sample_plan) (sp_planner_version sample_plan).
Definition reversed_plan : SyncPlan :=
  mkPlan (sp_source_instance sample_plan) (sp_source_id sample_plan) (sp_source_type sample_plan) (sp_source_fingerprint sample_plan)
    (sp_target_fingerprint sample_plan) (sp_provider_fingerprint sample_plan) (sp_netbox_fingerprint sample_plan)
    (reverse (review_item <$> plan_review)) [] (sp_schema_version sample_plan) (sp_planner_version sample_plan).

Lemma canonical_text_order_free_witness : canonical_json swapped_plan = canonical_json reversed_plan.
Proof.
  apply (canonical_text_order_free swapped_plan reversed_plan []); [reflexivity|decided| |reflexivity|constructor].
  symmetry. apply reverse_Permutation.
Defined.
