(* ===== verification/VmApply.v ===== *)
(** * Virtual machines in NetBox (netbox_vm_apply.py, vm_apply_inventory.py, vm_apply_preflight.py,
      vm_apply_report.py, vm_apply_writes.py, netbox_vm_name.py, selectel_authority.py)

    The executor that brings the virtual machines of a source to NetBox: it reads
    the target, decides for every discovered machine whether it is created, updated
    or blocked, refuses the whole batch when one is blocked, and only then writes.
    The printed report is not modelled beyond the refusals it raises. [ellipsis] is
    the character U+2026 and [float_int] is [int(float(text))], which lie outside
    the modelled texts and numbers. *)

From S2P Require Import Prelude PyValue NetBox Discovery SourceIdentity Metadata SourceConfig.
From stdpp Require Import base list strings gmap.
From Stdlib Require Import ZArith Lia Ascii.
Local Open Scope string_scope.
#[local] Arguments py_eqb _ _ : simpl never.

Definition VMS : string := "virtualization.virtual_machines".
Definition DISKS : string := "virtualization.virtual_disks".
Definition CLUSTERS : string := "virtualization.clusters".

Definition apply_error : exn := OtherException "VMApplyError" None.

(** ** Texts *)

(** [s.split()]: [word] is the word being read, reversed. *)
Fixpoint split_words (s : string) (word : string) : list string :=
  let flush := if bool_decide (word = "") then [] else [word] in
  match s with
  | EmptyString => flush
  | String c s' => if is_space c then (flush ++ split_words s' "")%list else split_words s' (word +:+ String c "")
  end.

Definition netbox_vm_name (vm : DiscoveredVirtualMachine) : string := take_chars 64 (vm_original_name vm).

(** ** Desired values *)

Definition desired_status (vm : DiscoveredVirtualMachine) : result exn string :=
  if bool_decide (vm_status vm = "running") then Ok "active"
  else if bool_decide (vm_status vm = "stopped") then Ok "offline"
  else if bool_decide (vm_status vm = "paused") then Ok "paused"
  else Err apply_error.
Definition desired_memory (vm : DiscoveredVirtualMachine) : Z := (vm_memory_bytes vm / MIB)%Z.
Definition desired_disk (vm : DiscoveredVirtualMachine) : Z := (foldr Z.add 0 (vdisk_size_bytes <$> vm_disks vm) / MIB)%Z.
Definition desired_start_on_boot (vm : DiscoveredVirtualMachine) : string := if vm_autostart vm then "on" else "off".
Definition vm_identity (vm : DiscoveredVirtualMachine) : string := vm_source vm +:+ ":" +:+ vm_identity_source_id vm.
Definition tenant_id (r : nb_record) : pyval := object_id (field "tenant" r).

Definition name_matches (existing : list nb_record) (name : string) (tenant : pyval) (exclude : option Z) : list nb_record :=
  filter (λ r, negb (bool_decide (Some (rec_id r) = exclude)) &&
               bool_decide (casefold (py_str (field "name" r)) = casefold name) && py_eqb (tenant_id r) tenant = true) existing.

Section VmApply.
Context (ellipsis : string) (float_int : string → result exn Z).

(** [_integer_value]. *)
Definition integer_value (v : pyval) : result exn (option Z) :=
  match v with
  | PNone => Ok None
  | PInt z => Ok (Some z)
  | PBool b => Ok (Some (if b then 1 else 0)%Z)
  | PStr s => match py_int s with Some z => Ok (Some z) | None => z ← float_int s; Ok (Some z) end
  | _ => Err (TypeError "float() argument must be a string or a real number")
  end.

Definition description_fields (vm : DiscoveredVirtualMachine) : pydict :=
  match vm_description vm with
  | None => []
  | Some text =>
      let comments := strip text in
      let description := PyValue.join " " (split_words comments "") in
      let short := if Nat.ltb 200 (String.length description) then take_chars 199 description +:+ ellipsis else description in
      [("description", PStr short); ("comments", PStr comments)]
  end.

Definition MANAGED_VM_CUSTOM_FIELDS : list string := ["sync_identities"; "sync_original_names"].

(** [_managed_metadata]: the fields to write and the managed ones that change. *)
Definition metadata_for (vm : DiscoveredVirtualMachine) (current : pydict) : result exn (pydict * list string) :=
  desired ← match build_vm_custom_fields vm (Some current) with
            | Err (ValueError _) => Err apply_error
            | r => r
            end;
  Ok (desired, filter (λ f, py_eqb (dget f current) (dget f desired) = false) MANAGED_VM_CUSTOM_FIELDS).
Definition managed_metadata (vm : DiscoveredVirtualMachine) (existing : option nb_record) : result exn (pydict * list string) :=
  metadata_for vm (default [] (existing ≫= custom_fields)).

Definition build_vm_create_fields (vm : DiscoveredVirtualMachine) (cluster : Z) (desired : pydict) : result exn pydict :=
  status ← desired_status vm;
  Ok (dupdate [("name", PStr (netbox_vm_name vm)); ("cluster", PInt cluster); ("status", PStr status); ("vcpus", PInt (vm_vcpus vm));
               ("memory", PInt (desired_memory vm)); ("disk", PInt (desired_disk vm)); ("start_on_boot", PStr (desired_start_on_boot vm));
               ("custom_fields", PDict desired)] (description_fields vm)).

(** [owned_fields]: the native fields a provider's inventory owns. *)
Definition OWNABLE : list string := ["name"; "serial"; "site_id"; "status"; "vcpus"; "memory"; "primary_ip4_id"; "primary_ip6_id"].
Definition owned_fields (cf : pyval) : list string :=
  match cf with
  | PDict d =>
      if truthy (dget "selectel_refs" d) then
        match dget "selectel_inventory" d with
        | PDict snapshot =>
            match dget "native_fields" snapshot with
            | PList l => if forallb is_str l then filter (λ f, existsb (λ v, py_eqb v (PStr f)) l = true) OWNABLE else []
            | _ => []
            end
        | _ => []
        end
      else []
  | _ => []
  end.

(** The columns of a machine: the value it should have and whether the stored one
    differs from it. *)
Record column := mkCol { col_key : string; col_wanted : pyval; col_differs : pyval → result exn bool }.

(** [(data.get(field) or "") != value]. *)
Definition text_or_empty (v : pyval) : pyval := if truthy v then v else PStr "".
Definition text_column (kv : string * pyval) : column := mkCol kv.1 kv.2 (λ v, Ok (negb (py_eqb (text_or_empty v) kv.2))).
Definition plain_column (k : string) (wanted : pyval) : column := mkCol k wanted (λ v, Ok (negb (py_eqb v wanted))).
Definition ref_column (k : string) (wanted : pyval) : column := mkCol k wanted (λ v, Ok (negb (py_eqb (object_id v) wanted))).
Definition choice_column (k : string) (wanted : pyval) : column := mkCol k wanted (λ v, Ok (negb (py_eqb (choice_value v) wanted))).
Definition number_column (k : string) (wanted : Z) : column :=
  mkCol k (PInt wanted) (λ v, current ← integer_value v; Ok (negb (bool_decide (current = Some wanted)))).

(** [_resource_changes]. *)
Definition resource_columns (vm : DiscoveredVirtualMachine) (status : string) : list column :=
  [choice_column "status" (PStr status); number_column "vcpus" (vm_vcpus vm); number_column "memory" (desired_memory vm);
   number_column "disk" (desired_disk vm); choice_column "start_on_boot" (PStr (desired_start_on_boot vm))].
Definition vm_columns (vm : DiscoveredVirtualMachine) (cluster : Z) (status : string) : list column :=
  ((text_column <$> description_fields vm) ++
   [plain_column "name" (PStr (netbox_vm_name vm)); ref_column "cluster" (PInt cluster)] ++ resource_columns vm status)%list.

(** The columns that differ, in order. *)
Fixpoint column_changes (data : pydict) (cols : list column) : result exn pydict :=
  match cols with
  | [] => Ok []
  | c :: cols' =>
      differs ← col_differs c (dget (col_key c) data);
      rest ← column_changes data cols';
      Ok (if (differs : bool) then (col_key c, col_wanted c) :: rest else rest)
  end.

Definition vm_changes (existing : nb_record) (vm : DiscoveredVirtualMachine) (cluster : Z) (desired : pydict) (changed : list string) :
    result exn pydict :=
  let data := rec_data existing in
  status ← desired_status vm;
  columns ← column_changes data (vm_columns vm cluster status);
  let changes := (columns ++ (if bool_decide (changed = []) then [] else [("custom_fields", PDict desired)]))%list in
  Ok (filter (λ kv, kv.1 ∉ owned_fields (dget "custom_fields" data)) changes).

(** ** The decision for one machine *)

Inductive vm_context :=
| BlockedVM (vm : DiscoveredVirtualMachine) (reason : string) (candidates : list nb_record)
| CreateVM (vm : DiscoveredVirtualMachine) (desired : pydict)
| MatchVM (vm : DiscoveredVirtualMachine) (existing : nb_record) (changes : pydict).

Definition preflight_vm (all_vms target_vms : list nb_record) (cluster : Z) (vm : DiscoveredVirtualMachine) : result exn vm_context :=
  matches ← find_vm_sync_identity_matches custom_fields all_vms vm;
  match matches with
  | _ :: _ :: _ => Ok (BlockedVM vm "duplicate_sync_identity" matches)
  | [existing] =>
      if negb (py_eqb (object_id (field "cluster" existing)) (PInt cluster))
      then Ok (BlockedVM vm "identity_outside_target_cluster" [existing])
      else
        match name_matches target_vms (netbox_vm_name vm) (tenant_id existing) (Some (rec_id existing)) with
        | [] =>
            '(desired, changed) ← managed_metadata vm (Some existing);
            changes ← vm_changes existing vm cluster desired changed;
            Ok (MatchVM vm existing changes)
        | conflicts => Ok (BlockedVM vm "desired_name_conflict" conflicts)
        end
  | [] =>
      match name_matches target_vms (netbox_vm_name vm) PNone None with
      | [] => '(desired, _) ← managed_metadata vm None; Ok (CreateVM vm desired)
      | [c] => Ok (BlockedVM vm "adopt_candidate" [c])
      | many => Ok (BlockedVM vm "duplicate_name_candidate" many)
      end
  end.

(** ** The batch *)

Definition discovered_vms (hosts : list DiscoveredHost) : list DiscoveredVirtualMachine := hosts ≫= host_virtual_machines.

(** [_validate_discovered_vms]. *)
Definition validate_discovered (vms : list DiscoveredVirtualMachine) : result exn unit :=
  if negb (bool_decide (NoDup (vm_identity <$> vms))) then Err apply_error
  else if negb (bool_decide (NoDup (casefold ∘ netbox_vm_name <$> vms))) then Err apply_error
  else Ok tt.

Definition vm_order (vm : DiscoveredVirtualMachine) : pyval := PList [PStr (vm_node_source_id vm); vm_vmid vm].

(** The size of a machine with disk records of its own is theirs. *)
Definition drop_native_disk (parents : list pyval) (c : vm_context) : vm_context :=
  match c with
  | MatchVM vm existing changes =>
      if existsb (py_eqb (PInt (rec_id existing))) parents then MatchVM vm existing (dpop "disk" changes) else c
  | _ => c
  end.

Context {W : Type} `{!NetBoxApi W}.

Definition prepare_vm_contexts (hosts : list DiscoveredHost) (all_vms target_vms : list nb_record) (cluster : Z) : M W exn (list vm_context) :=
  let vms := discovered_vms hosts in
  lift (validate_discovered vms);;
  ordered ← lift (py_sorted_by vm_order vms);
  contexts ← lift (mapR (preflight_vm all_vms target_vms cluster) ordered);
  disks ← nb_all DISKS;
  mret (drop_native_disk (object_id ∘ field "virtual_machine" <$> disks) <$> contexts).

(** The refusals of [report_vm_precheck]: it prints the status of every machine it
    does not block, and raises at the end when one was blocked. *)
Definition precheck_status (c : vm_context) : result exn unit :=
  match c with
  | BlockedVM _ _ _ => Ok tt
  | CreateVM vm _ | MatchVM vm _ _ => desired_status vm;; Ok tt
  end.
Definition is_blocked_vm (c : vm_context) : bool := match c with BlockedVM _ _ _ => true | _ => false end.
Definition precheck (contexts : list vm_context) : result exn unit :=
  mapR precheck_status contexts;;
  if existsb is_blocked_vm contexts then Err apply_error else Ok tt.

(** One iteration of [write_virtual_machines]; a blocked context has neither
    changes nor a record to write. *)
Definition write_vm (cluster : Z) (c : vm_context) : M W exn unit :=
  match c with
  | CreateVM vm desired => fields ← lift (build_vm_create_fields vm cluster desired); nb_create VMS fields;; mret tt
  | MatchVM _ existing [] => mret tt
  | MatchVM _ existing changes => nb_update VMS (rec_id existing) changes
  | BlockedVM _ _ _ => raise (KeyError "changes")
  end.
Definition write_virtual_machines (cluster : Z) (contexts : list vm_context) : M W exn unit := forM contexts (write_vm cluster).

(** ** Targets *)

Definition required (e : string) (q : pydict) : M W exn nb_record :=
  r ← nb_get e q; match r with Some x => mret x | None => raise apply_error end.

(** [config.onboarding_mapping.get("references", {}).get("cluster", {}).get("id")]. *)
Definition mapped_cluster (config : NetBoxTargetConfig) : result exn pyval :=
  references ← attr_get_or "references" (PDict []) (PDict (onboarding_mapping config));
  cluster ← attr_get_or "cluster" (PDict []) references;
  attr_get "id" cluster.

Definition in_scope (site cluster_type : nb_record) (r : nb_record) : bool :=
  py_eqb (object_id (field "type" r)) (PInt (rec_id cluster_type)) && py_eqb (field "scope_type" r) (PStr "dcim.site") &&
  py_eqb (field "scope_id" r) (PInt (rec_id site)).
Definition resolve_cluster (site cluster_type : nb_record) (name : string) (mapped : pyval) : M W exn nb_record :=
  found ← nb_filter CLUSTERS (if truthy mapped then [("id", mapped)] else [("name", PStr name)]);
  match filter (λ r, in_scope site cluster_type r = true) found with [c] => mret c | _ => raise apply_error end.

Record VMApplyInventory := mkInventory { inv_site : nb_record; inv_cluster : nb_record; inv_all : list nb_record; inv_target : list nb_record }.
Definition prepare_vm_apply_inventory (config : NetBoxTargetConfig) : M W exn VMApplyInventory :=
  site ← required "dcim.sites" [("slug", PStr (site_slug config))];
  cluster_type ← required "virtualization.cluster_types" [("slug", PStr (cluster_type_slug config))];
  mapped ← lift (mapped_cluster config);
  cluster ← resolve_cluster site cluster_type (cluster_name config) mapped;
  all_vms ← nb_all VMS;
  target_vms ← nb_filter VMS [("cluster_id", PInt (rec_id cluster))];
  mret (mkInventory site cluster all_vms target_vms).

Definition plan_virtual_machines (hosts : list DiscoveredHost) (config : NetBoxTargetConfig) : M W exn (Z * list vm_context) :=
  inventory ← prepare_vm_apply_inventory config;
  let cluster := rec_id (inv_cluster inventory) in
  contexts ← prepare_vm_contexts hosts (inv_all inventory) (inv_target inventory) cluster;
  lift (precheck contexts);;
  mret (cluster, contexts).

Definition apply_virtual_machines (hosts : list DiscoveredHost) (config : NetBoxTargetConfig) (confirmed : bool) : M W exn unit :=
  '(cluster, contexts) ← plan_virtual_machines hosts config;
  if confirmed then write_virtual_machines cluster contexts else mret tt.
End VmApply.
