(* ===== verification/VmConverge.v ===== *)
(** * A second run writes nothing (netbox_vm_apply.py)

    After a successful run the next one, on the same discovery, finds every
    machine by its identity, has nothing to change and creates nothing. Along the
    way: what a write does to the ranks of the other machines, and which rows a
    run touches at all. *)

From S2P Require Import Prelude PyValue NetBox Discovery SourceIdentity Metadata SourceConfig VmApply.
From stdpp Require Import base list strings gmap.
From Stdlib Require Import ZArith Lia Ascii.
Local Open Scope string_scope.
#[local] Arguments py_eqb _ _ : simpl never.

(** ** Ranks after a write *)

(** Building the fields of another machine never raises the rank of this one. *)
Lemma merged_rank_le cf desired rs other ids owner rank :
  valid_identity desired = true → other ≠ desired → merge_source_identities cf desired = Ok rs →
  source_identity_match_rank cf other ids owner = Ok rank →
  ∃ rank', source_identity_match_rank (store_identities cf rs) other ids owner = Ok rank' ∧ (rank' ≤ rank)%nat.
Proof.
  intros Hv Hne Hm Hr. destruct (same_namespace other desired) eqn:Hns.
  2:{ rewrite (merge_rank_isolated _ _ _ other ids owner Hv Hns Hm). eauto. }
  pose proof (merged_parse _ _ _ Hv Hm) as Hrs. apply merge_source_identities_Ok in Hm as (ds & Hcf & Hds & ->).
  rewrite (rank_of_dicts _ _) by (try done; unfold dget; by rewrite stored_identities).
  rewrite existsb_dicts, (bool_decide_merged desired ds (λ d, legacy_match ids other (PDict d) = true)); [|done|].
  2:{ intros d Hd E. by rewrite (legacy_match_in_namespace _ _ _ _ Hd) in E. }
  eexists. split; [done|]. rewrite bool_decide_eq_false_2.
  - destruct (dlookup "sync_identities" (fields_of cf)) as [v|] eqn:Hget; simpl in Hcf.
    + rewrite (rank_of_dicts cf ds) in Hr; [|unfold dget; by rewrite Hget|done]. injection Hr as <-. rewrite existsb_dicts.
      match goal with |- context [if bool_decide (Exists ?P ds) then V2_IDENTITY_MATCH else _] => destruct (bool_decide (Exists P ds)); [|done] end.
      destruct (owner && _); unfold V2_IDENTITY_MATCH, LEGACY_IDENTITY_MATCH, NO_IDENTITY_MATCH; lia.
    + destruct ds; [|done]. rewrite bool_decide_eq_false_2 by (by intros ?%Exists_nil). rewrite andb_false_r. unfold NO_IDENTITY_MATCH. lia.
  - rewrite isort_Permutation, Exists_app, Exists_cons, Exists_nil, Exists_exists. intros [(d & [Hin _]%list_elem_of_filter & E)|[E|[]]].
    + unfold in_namespace in Hin. rewrite E in Hin. congruence.
    + rewrite from_record_to_record in E by done. congruence.
Qed.

Lemma built_rank_le vm e f other ids owner rank d :
  build_vm_custom_fields vm e = Ok f → virtual_machine_source_identity vm = Ok d → other ≠ d →
  source_identity_match_rank e other ids owner = Ok rank →
  ∃ rank', source_identity_match_rank (Some f) other ids owner = Ok rank' ∧ (rank' ≤ rank)%nat.
Proof.
  intros Hb Hd Hne Hr. destruct (@build_stores_merge _ vm_managed vm_laws vm e f Hb) as (d' & base & rs & Hd' & Hm & Hbase & Hf).
  simpl in Hd'. assert (d' = d) as -> by congruence.
  destruct (merged_rank_le base d rs other ids owner rank) as (rank' & Hr' & Hle); [by eapply vm_identity_is_valid|done|done|by rewrite Hbase|].
  exists rank'. split; [|done]. rewrite <-Hr'. apply rank_ext. by rewrite dget_stored.
Qed.

(** The only candidate of the highest rank is selected. *)
Lemma select_unique {A} (cs : list A) (ranker : A → result exn nat) (rank : A → nat) x :
  NoDup cs → x ∈ cs → (∀ c, c ∈ cs → ranker c = Ok (rank c)) → (0 < rank x)%nat → (∀ c, c ∈ cs → c ≠ x → (rank c < rank x)%nat) →
  select_best_identity_matches cs ranker = Ok [x].
Proof.
  intros Hnd Hx Hr Hpos Hlt. unfold select_best_identity_matches, NO_IDENTITY_MATCH.
  rewrite (select_best_loop_spec ranker rank) by done. cbv zeta.
  assert (foldr (λ c m, Nat.max (rank c) m) 0%nat cs = rank x) as ->.
  { apply Nat.le_antisymm.
    - assert (∀ c, c ∈ cs → (rank c ≤ rank x)%nat) as Hle by (intros c Hc; destruct (decide (rank c = rank x)); [lia|];
        enough (rank c < rank x)%nat by lia; apply Hlt; [done|congruence]).
      clear -Hle. induction cs as [|c cs IH]; simpl; [lia|]. pose proof (Hle c ltac:(left)). specialize (IH ltac:(intros; apply Hle; by right)). lia.
    - clear -Hx. induction cs as [|c cs IH]; [by apply elem_of_nil in Hx|]. simpl. apply elem_of_cons in Hx as [->|Hx]; [lia|]. specialize (IH Hx). lia. }
  rewrite !bool_decide_eq_false_2 by lia. simpl. f_equal.
  clear Hr Hpos. induction Hnd as [|c cs Hc Hnd IH]; [by apply elem_of_nil in Hx|]. rewrite filter_cons.
  apply elem_of_cons in Hx as [<-|Hx].
  - rewrite decide_True by done. f_equal. apply filter_none. intros c Hc' E. pose proof (Hlt c ltac:(by right) ltac:(by intros ->)). lia.
  - rewrite decide_False by (pose proof (Hlt c ltac:(left) ltac:(by intros ->)); lia). apply IH; [done|].
    intros c' Hc'. apply Hlt. by right.
Qed.

Lemma find_matches_ranks {A} (cf : A → option pydict) (cs : list A) vm ms :
  find_vm_sync_identity_matches cf cs vm = Ok ms → ∀ c, c ∈ cs → ∃ r, vm_sync_identity_match_rank (cf c) vm = Ok r.
Proof.
  unfold find_vm_sync_identity_matches, select_best_identity_matches. generalize NO_IDENTITY_MATCH, (@nil A). 
  induction cs as [|c cs IH]; intros b l H x Hx; [by apply elem_of_nil in Hx|]. cbn [select_best_loop] in H.
  apply result_bind_Ok in H as (r & Hr & H). apply elem_of_cons in Hx as [->|Hx]; [eauto|].
  destruct (Nat.ltb b r); [by eapply IH|]. destruct (_ && _); by eapply IH.
Qed.

Lemma foldr_max_attained {A} (rank : A → nat) cs :
  let top := foldr (λ c m, Nat.max (rank c) m) 0%nat cs in top = 0%nat ∨ ∃ x, x ∈ cs ∧ rank x = top.
Proof.
  induction cs as [|x cs IH]; [by left|]. cbv zeta in *. cbn [foldr].
  destruct (Nat.max_dec (rank x) (foldr (λ c m, Nat.max (rank c) m) 0%nat cs)) as [-> | ->].
  - right. exists x. split; [left|done].
  - destruct IH as [?|(y & Hy & Ey)]; [by left|]. right. exists y. split; [by right|done].
Qed.
Lemma foldr_max_bound {A} (rank : A → nat) cs c : c ∈ cs → (rank c ≤ foldr (λ c m, Nat.max (rank c) m) 0%nat cs)%nat.
Proof.
  induction cs as [|x cs IH]; intros Hc; [by apply elem_of_nil in Hc|]. cbn [foldr]. apply elem_of_cons in Hc as [->|Hc]; [lia|].
  specialize (IH Hc). lia.
Qed.

(** What a selection says about the ranks. *)
Lemma find_matches_spec {A} (cf : A → option pydict) (cs : list A) vm ms :
  find_vm_sync_identity_matches cf cs vm = Ok ms →
  match ms with
  | [] => ∀ c r, c ∈ cs → vm_sync_identity_match_rank (cf c) vm = Ok r → r = 0%nat
  | [x] => x ∈ cs ∧ ∃ rx, vm_sync_identity_match_rank (cf x) vm = Ok rx ∧ (0 < rx)%nat ∧
             ∀ c r, c ∈ cs → c ≠ x → vm_sync_identity_match_rank (cf c) vm = Ok r → (r < rx)%nat
  | _ => True
  end.
Proof.
  intros H. pose proof (find_matches_ranks cf cs vm ms H) as Hranks.
  set (rank := λ c, match vm_sync_identity_match_rank (cf c) vm with Ok r => r | Err _ => 0%nat end).
  assert (∀ c, c ∈ cs → vm_sync_identity_match_rank (cf c) vm = Ok (rank c)) as Hr.
  { intros c Hc. unfold rank. by destruct (Hranks c Hc) as [r ->]. }
  unfold find_vm_sync_identity_matches, select_best_identity_matches, NO_IDENTITY_MATCH in H.
  rewrite (select_best_loop_spec _ rank) in H by done. injection H as H.
  pose proof (foldr_max_attained rank cs) as Htop. pose proof (foldr_max_bound rank cs) as Hle. cbv zeta in Htop.
  set (top := foldr (λ c m, Nat.max (rank c) m) 0%nat cs) in *.
  destruct (decide (top = 0%nat)) as [E|E].
  { rewrite !(bool_decide_eq_true_2 (top = 0%nat)) in H by done. subst ms. intros c r Hc Hcr. rewrite Hr in Hcr by done.
    injection Hcr as <-. specialize (Hle c Hc). lia. }
  rewrite !(bool_decide_eq_false_2 (top = 0%nat)) in H by done. simpl in H. subst ms.
  destruct Htop as [?|(y & Hy & Ey)]; [done|].
  assert (y ∈ filter (λ c, rank c = top) cs) as Hyf by (by apply list_elem_of_filter).
  destruct (filter (λ c, rank c = top) cs) as [|x [|z l]] eqn:Ef; [by apply elem_of_nil in Hyf| |done].
  apply list_elem_of_singleton in Hyf as <-. split; [done|]. exists top. rewrite Hr, Ey by done. split_and!; [done|lia|].
  intros c r Hc Hne Hcr. rewrite Hr in Hcr by done. injection Hcr as <-. specialize (Hle c Hc).
  enough (rank c ≠ top) by lia. intros Ec. assert (c ∈ filter (λ c, rank c = top) cs) as Hcf by (by apply list_elem_of_filter).
  rewrite Ef in Hcf. by apply list_elem_of_singleton in Hcf.
Qed.

(** ** The custom fields of a second run *)


Lemma merge_ext cf cf' d :
  dlookup "sync_identities" (fields_of cf) = dlookup "sync_identities" (fields_of cf') → merge_source_identities cf d = merge_source_identities cf' d.
Proof. intros E. unfold merge_source_identities. by rewrite E. Qed.

Lemma dlookup_built existing rs names :
  let f := dupdate existing [("sync_identities", PList (map PDict rs)); ("sync_original_names", PDict names)] in
  dlookup "sync_identities" f = Some (PList (map PDict rs)) ∧ dlookup "sync_original_names" f = Some (PDict names) ∧
  ∀ k, k ∉ ["sync_identities"; "sync_original_names"] → dlookup k f = dlookup k existing.
Proof.
  cbv zeta. unfold dupdate. cbn [foldl fst snd]. split_and!.
  - rewrite !dlookup_dset. by rewrite decide_False, decide_True.
  - by rewrite dlookup_dset, decide_True.
  - intros k Hk. rewrite !not_elem_of_cons in Hk. rewrite !dlookup_dset, !decide_False by tauto. done.
Qed.

(** Two texts that agree on the custom fields of the sync. *)
Definition same_managed (f g : pydict) : Prop :=
  dlookup "sync_identities" g = dlookup "sync_identities" f ∧ dlookup "sync_original_names" g = dlookup "sync_original_names" f.

Lemma build_vm_idem vm e f g :
  build_vm_custom_fields vm e = Ok f → same_managed f g →
  ∃ f', build_vm_custom_fields vm (Some g) = Ok f' ∧ dget "sync_identities" f' = dget "sync_identities" g ∧
        dget "sync_original_names" f' = dget "sync_original_names" g.
Proof.
  unfold build_vm_custom_fields. intros H. apply result_bind_Ok in H as (d & Hd & H). apply result_bind_Ok in H as (rs & Hrs & H).
  apply result_bind_Ok in H as (names & Hn & H). apply Ok_inj in H as <-.
  set (normalized := dset_if_none _ _ _) in *. set (existing := fields_of e) in *.
  destruct (dlookup_built existing rs names) as (Hi & Hm & _). unfold same_managed. rewrite Hi, Hm. clear Hi Hm. intros [Hi Hm].
  cbn [fields_of from_option id]. unfold dset_if_none, dget. rewrite Hi. cbn [default from_option id]. rewrite Hm. cbn [default from_option id].
  rewrite Hd. unfold mbind at 1, result_bind at 1.
  rewrite (merge_ext (Some g) (store_identities (Some normalized) rs)) by (rewrite stored_identities; exact Hi).
  rewrite (merge_idempotent (Some normalized) d rs) by (by eapply vm_identity_is_valid || done). unfold mbind at 1, result_bind at 1.
  unfold merge_original_name in *. cbn [fields_of from_option id] in *. rewrite Hm. cbn [default from_option id].
  destruct (default (PDict []) (dlookup "sync_original_names" normalized)) as [| | | | |values]; try discriminate Hn. injection Hn as <-.
  unfold mbind, result_bind. eexists. split; [done|]. rewrite dset_dset.
  destruct (dlookup_built g rs (dset (original_name_key d) (PStr (vm_original_name vm)) values)) as (-> & -> & _). by rewrite ?Hi, ?Hm.
Qed.

(** The identities and names of built fields are proper JSON when the fields were. *)
Lemma wf_list l : wf_pyval (PList l) ↔ Forall wf_pyval l.
Proof. cbn [wf_pyval]. induction l as [|x l IH]; [done|]. rewrite Forall_cons. tauto. Qed.
Lemma wf_dict d : wf_pyval (PDict d) ↔ NoDup (dkeys d) ∧ Forall (λ kv, wf_pyval kv.2) d.
Proof. cbn [wf_pyval]. f_equiv. induction d as [|[k x] d IH]; [done|]. rewrite Forall_cons. simpl. tauto. Qed.
Lemma wf_get d k : wf_pyval (PDict d) → wf_pyval (dget k d).
Proof.
  rewrite wf_dict. intros [_ H]. unfold dget. destruct (dlookup k d) as [v|] eqn:E; [|done]. apply dlookup_elem in E.
  rewrite Forall_forall in H. exact (H _ E).
Qed.

Lemma wf_dset_if_none k v d : wf_pyval v → wf_pyval (PDict d) → wf_pyval (PDict (dset_if_none k v d)).
Proof. intros Hv Hd. unfold dset_if_none. destruct (dget k d); try done. by apply wf_dset. Qed.

Lemma build_vm_wf vm e f :
  wf_pyval (PDict (fields_of e)) → build_vm_custom_fields vm e = Ok f →
  wf_pyval (dget "sync_identities" f) ∧ wf_pyval (dget "sync_original_names" f).
Proof.
  intros Hwf. unfold build_vm_custom_fields. intros H. apply result_bind_Ok in H as (d & Hd & H).
  apply result_bind_Ok in H as (rs & Hrs & H). apply result_bind_Ok in H as (names & Hn & H). apply Ok_inj in H as <-.
  set (normalized := dset_if_none _ _ _) in *. assert (wf_pyval (PDict normalized)) as Hnorm.
  { unfold normalized. apply wf_dset_if_none; [split; constructor|]. by apply wf_dset_if_none. }
  destruct (dlookup_built (fields_of e) rs names) as (Hi & Hm & _). unfold dget. rewrite Hi, Hm. cbn [default from_option id]. split.
  - apply wf_list. apply merge_source_identities_Ok in Hrs as (ds & Hds & _ & ->). cbn [fields_of from_option id] in Hds.
    change (map PDict ?l) with (PDict <$> l). rewrite isort_Permutation, fmap_app, Forall_app. split.
    + apply Forall_fmap, Forall_forall. intros x [_ Hx]%list_elem_of_filter.
      assert (wf_pyval (PList (map PDict ds))) as Hl.
      { rewrite <-Hds. destruct (dlookup "sync_identities" normalized) as [v|] eqn:E; [|done].
        apply (wf_get normalized "sync_identities") in Hnorm. unfold dget in Hnorm. by rewrite E in Hnorm. }
      apply wf_list in Hl. rewrite Forall_forall in Hl. apply (Hl (PDict x)). by apply (list_elem_of_fmap_2 PDict).
    + apply Forall_singleton. apply wf_dict. split; [decided|]. by repeat constructor.
  - unfold merge_original_name in Hn. cbn [fields_of from_option id] in Hn.
    destruct (dlookup "sync_original_names" normalized) as [v|] eqn:E; simpl in Hn.
    + apply (wf_get normalized "sync_original_names") in Hnorm. unfold dget in Hnorm. rewrite E in Hnorm. simpl in Hnorm.
      destruct v as [| | | | |values]; try discriminate Hn. injection Hn as <-. by apply wf_dset.
    + injection Hn as <-. apply wf_dict. split; [apply NoDup_singleton|by repeat constructor].
Qed.

(** ** The columns of a second run *)

Section Columns.
Context (ellipsis : string) (float_int : string → result exn Z).

(** A column that holds the wanted value does not differ. *)
Definition settled (c : column) : Prop := col_differs c (col_wanted c) = Ok false.

Lemma py_eqb_str s : py_eqb (PStr s) (PStr s) = true.
Proof. unfold py_eqb. by apply bool_decide_eq_true. Qed.
Lemma py_eqb_int z : py_eqb (PInt z) (PInt z) = true.
Proof. unfold py_eqb. by apply bool_decide_eq_true. Qed.

Lemma text_column_settled k s : settled (text_column (k, PStr s)).
Proof.
  unfold settled, text_column. simpl. do 2 f_equal. unfold text_or_empty. simpl. case_bool_decide; simpl; [subst|]; by rewrite py_eqb_str.
Qed.

Lemma vm_columns_settled vm cluster status : Forall settled (vm_columns ellipsis float_int vm cluster status).
Proof.
  unfold vm_columns, resource_columns. apply Forall_app. split.
  - unfold description_fields. destruct (vm_description vm) as [text|]; [|constructor].
    repeat constructor; apply text_column_settled.
  - repeat constructor; unfold settled; simpl; rewrite ?py_eqb_str, ?py_eqb_int; try done; unfold mbind, result_bind; by rewrite bool_decide_eq_true_2.
Qed.

Definition column_keys : list string := ["description"; "comments"; "name"; "cluster"; "status"; "vcpus"; "memory"; "disk"; "start_on_boot"].
Lemma vm_columns_keys vm cluster status :
  NoDup (col_key <$> vm_columns ellipsis float_int vm cluster status) ∧
  ∀ c, c ∈ vm_columns ellipsis float_int vm cluster status → col_key c ∈ column_keys.
Proof.
  unfold vm_columns, description_fields. destruct (vm_description vm) as [text|]; split; try decided.
  - intros c Hc. apply (list_elem_of_fmap_2 col_key) in Hc. exact Hc.
  - intros c Hc. apply (list_elem_of_fmap_2 col_key) in Hc. apply elem_of_cons. right. apply elem_of_cons. right. exact Hc.
Qed.

Lemma column_changes_keys data cols ch : column_changes data cols = Ok ch → ∀ k, k ∈ dkeys ch → k ∈ col_key <$> cols.
Proof.
  revert ch. induction cols as [|c cols IH]; intros ch H k Hk.
  - injection H as <-. by apply elem_of_nil in Hk.
  - cbn [column_changes] in H. apply result_bind_Ok in H as (b & _ & H). apply result_bind_Ok in H as (rest & Hr & H). apply Ok_inj in H as <-.
    rewrite fmap_cons, elem_of_cons. destruct b; [|right; by eapply IH]. unfold dkeys in Hk. rewrite fmap_cons, elem_of_cons in Hk.
    destruct Hk as [->|Hk]; [by left|right; by eapply IH].
Qed.

Lemma column_changes_lookup data cols ch :
  column_changes data cols = Ok ch → NoDup (col_key <$> cols) →
  ∀ c, c ∈ cols → ∃ b, col_differs c (dget (col_key c) data) = Ok b ∧ dlookup (col_key c) ch = if (b : bool) then Some (col_wanted c) else None.
Proof.
  revert ch. induction cols as [|c cols IH]; intros ch H Hnd x Hx; [by apply elem_of_nil in Hx|]. cbn [column_changes] in H.
  apply result_bind_Ok in H as (b & Hb & H). apply result_bind_Ok in H as (rest & Hr & H). apply Ok_inj in H as <-.
  rewrite fmap_cons in Hnd. apply NoDup_cons in Hnd as [Hc Hnd]. apply elem_of_cons in Hx as [->|Hx].
  - exists b. split; [done|]. destruct b; cbn [dlookup]; [by rewrite bool_decide_eq_true_2|].
    destruct (dlookup (col_key c) rest) as [v|] eqn:E; [|done]. destruct Hc. eapply column_changes_keys; [done|].
    apply dlookup_elem in E. apply list_elem_of_fmap. by exists (col_key c, v).
  - destruct (IH rest Hr Hnd x Hx) as (b' & Hb' & El). exists b'. split; [done|]. destruct b; [|done]. cbn [dlookup].
    rewrite bool_decide_eq_false_2; [done|]. intros E. destruct Hc. rewrite <-E. by apply list_elem_of_fmap_2.
Qed.

(** Columns that were written, or that had nothing to write, differ no more. *)
Lemma column_changes_again data data' cols ch (excluded : list string) :
  column_changes data cols = Ok ch → NoDup (col_key <$> cols) → Forall settled cols →
  (∀ c, c ∈ cols → dget (col_key c) data' = col_wanted c ∨
     dget (col_key c) data' = dget (col_key c) data ∧ (col_key c ∈ excluded ∨ dlookup (col_key c) ch = None)) →
  ∃ ch', column_changes data' cols = Ok ch' ∧ ∀ k, k ∈ dkeys ch' → k ∈ excluded.
Proof.
  intros H Hnd Hs Hd. pose proof (column_changes_lookup data cols ch H Hnd) as Hl. clear H Hnd.
  induction cols as [|c cols IH]; [exists []; split; [done|]; by intros k ?%elem_of_nil|].
  apply Forall_cons in Hs as [Hc Hs]. destruct IH as (rest & Hrest & Hk); [done|intros; apply Hd; by right|intros; apply Hl; by right|].
  cbn [column_changes]. destruct (Hl c ltac:(left)) as (b & Hb & Eb). destruct (Hd c ltac:(left)) as [E|[E Hex]].
  - rewrite E, Hc. unfold mbind, result_bind. rewrite Hrest. eauto.
  - rewrite E, Hb. unfold mbind, result_bind. rewrite Hrest. eexists. split; [done|]. destruct b; [|done]. intros k. unfold dkeys.
    rewrite fmap_cons, elem_of_cons. intros [->|?]; [|by apply Hk]. simpl. destruct Hex as [?|Hex]; [done|]. by rewrite Eb in Hex.
Qed.

Lemma column_changes_NoDup data cols ch : column_changes data cols = Ok ch → NoDup (col_key <$> cols) → NoDup (dkeys ch).
Proof.
  revert ch. induction cols as [|c cols IH]; intros ch H Hnd; [injection H as <-; constructor|]. cbn [column_changes] in H.
  apply result_bind_Ok in H as (b & _ & H). apply result_bind_Ok in H as (rest & Hr & H). apply Ok_inj in H as <-.
  rewrite fmap_cons in Hnd. apply NoDup_cons in Hnd as [Hc Hnd]. destruct b; [|by apply IH]. unfold dkeys. rewrite fmap_cons.
  constructor; [|by apply IH]. intros Hin. apply Hc. by eapply column_changes_keys.
Qed.

Lemma dlookup_filter (P : string → Prop) `{∀ k, Decision (P k)} {Hd : ∀ kv : string * pyval, Decision (P kv.1)} k d :
  dlookup k (@filter _ _ _ (λ kv, P kv.1) Hd d) = if decide (P k) then dlookup k d else None.
Proof.
  induction d as [|[k1 v] d IH]; [by case_decide|]. rewrite filter_cons. destruct (Hd (k1, v)) as [Hp|Hp]; cbn [fst] in Hp; [rewrite decide_True by done|rewrite decide_False by done]; cbn [dlookup].
  - case_bool_decide; [subst; by rewrite decide_True|exact IH].
  - rewrite IH. case_decide; [|done]. rewrite bool_decide_eq_false_2 by congruence. done.
Qed.
Lemma NoDup_filter_keys (P : string → Prop) {Hd : ∀ kv : string * pyval, Decision (P kv.1)} d :
  NoDup (dkeys d) → NoDup (dkeys (@filter _ _ _ (λ kv, P kv.1) Hd d)).
Proof.
  induction d as [|[k1 v] d IH]; [done|]. unfold dkeys. rewrite fmap_cons. intros [Hk Hnd]%NoDup_cons. rewrite filter_cons. case_decide; [|by apply IH].
  rewrite fmap_cons. constructor; [|by apply IH]. intros (kv & E & [_ Hin]%list_elem_of_filter)%list_elem_of_fmap. apply Hk. rewrite E.
  by apply list_elem_of_fmap_2.
Qed.
Lemma dlookup_None k d : k ∉ dkeys d → dlookup k d = None.
Proof. intros Hk. destruct (dlookup k d) as [v|] eqn:E; [|done]. destruct Hk. apply dlookup_elem in E. apply list_elem_of_fmap. by exists (k, v). Qed.
Lemma dlookup_absent k d : dlookup k d = None → k ∉ dkeys d.
Proof.
  induction d as [|[k1 v] d IH]; [intros _ H; by apply elem_of_nil in H|]. simpl. case_bool_decide; [done|]. intros E [->|Hin]%elem_of_cons; [done|by apply IH].
Qed.
Lemma dlookup_app k d e : dlookup k (d ++ e)%list = match dlookup k d with Some v => Some v | None => dlookup k e end.
Proof. induction d as [|[k1 v] d IH]; [done|]. simpl. by case_bool_decide. Qed.

(** The writes of one machine. *)
Definition native_disk (parents : list pyval) (i : Z) : bool := existsb (py_eqb (PInt i)) parents.
Definition written_changes (native : bool) (changes : pydict) : pydict := if native then dpop "disk" changes else changes.
Definition skipped (native : bool) (cf : pyval) (k : string) : Prop := k ∈ owned_fields cf ∨ (native = true ∧ k = "disk").
#[export] Instance skipped_dec native cf k : Decision (skipped native cf k).
Proof. unfold skipped. apply _. Defined.

Lemma owned_only cf k : k ∈ owned_fields cf → k ∈ OWNABLE.
Proof.
  unfold owned_fields. repeat case_match; intros Hk; try (by apply elem_of_nil in Hk). by apply list_elem_of_filter in Hk as [_ ?].
Qed.

Lemma custom_fields_apart : ("custom_fields" ∉ column_keys) ∧ ("custom_fields" ∉ OWNABLE).
Proof. split; refine (bool_decide_eq_true_1 _ _); vm_compute; reflexivity. Qed.

Lemma vm_changes_lookup existing vm cluster status desired changed ch native k :
  desired_status vm = Ok status → vm_changes ellipsis float_int existing vm cluster desired changed = Ok ch →
  ∃ cols, column_changes (rec_data existing) (vm_columns ellipsis float_int vm cluster status) = Ok cols ∧ NoDup (dkeys (written_changes native ch)) ∧
    dlookup k (written_changes native ch) =
      if decide (skipped native (field "custom_fields" existing) k) then None
      else match dlookup k cols with
           | Some v => Some v
           | None => if bool_decide (k = "custom_fields") && negb (bool_decide (changed = [])) then Some (PDict desired) else None
           end.
Proof.
  intros Es H. unfold vm_changes in H. rewrite Es in H. unfold mbind at 1, result_bind at 1 in H. apply result_bind_Ok in H as (cols & Hc & H).
  apply Ok_inj in H as <-. exists cols. split; [done|]. destruct (vm_columns_keys vm cluster status) as [Hnd Hkeys].
  assert (∀ k, k ∈ dkeys cols → k ∈ column_keys) as Hck.
  { intros x Hx. apply (column_changes_keys _ _ _ Hc) in Hx. apply list_elem_of_fmap in Hx as (c & -> & Hx). by apply Hkeys. }
  set (all := (cols ++ _)%list). assert (NoDup (dkeys all)) as Hall.
  { unfold all, dkeys. rewrite fmap_app. apply NoDup_app. split_and!; [by eapply column_changes_NoDup| |case_bool_decide; [constructor|apply NoDup_singleton]].
    intros x Hx Hin. apply Hck in Hx. case_bool_decide; [by apply elem_of_nil in Hin|]. apply list_elem_of_singleton in Hin. subst x.
    exact (proj1 custom_fields_apart Hx). }
  assert (dlookup k all = match dlookup k cols with Some v => Some v
    | None => if bool_decide (k = "custom_fields") && negb (bool_decide (changed = [])) then Some (PDict desired) else None end) as El.
  { unfold all. rewrite dlookup_app. destruct (dlookup k cols); [done|]. destruct (bool_decide (changed = [])); cbn [dlookup negb]; [by rewrite andb_false_r|].
    by rewrite andb_true_r. }
  unfold written_changes, dpop, skipped, field. split.
  - destruct native; [apply (NoDup_filter_keys (λ k, k ≠ "disk"))|]; by apply (NoDup_filter_keys (λ k, k ∉ owned_fields (dget "custom_fields" (rec_data existing)))).
  - destruct native.
    + rewrite (dlookup_filter (λ k, k ≠ "disk")), (dlookup_filter (λ k, k ∉ owned_fields (dget "custom_fields" (rec_data existing)))), El.
      repeat case_decide; try done; naive_solver.
    + rewrite (dlookup_filter (λ k, k ∉ owned_fields (dget "custom_fields" (rec_data existing)))), El. repeat case_decide; try done; naive_solver.
Qed.
End Columns.

Section Again.
Context (ellipsis : string) (float_int : string → result exn Z).
Abbreviation changes_of := (vm_changes ellipsis float_int).

(** The columns a run leaves alone. *)
Definition column_keys_skipped (native : bool) (cf : pyval) : list string := filter (λ k, skipped native cf k) column_keys.
Lemma elem_of_skipped native cf k : k ∈ column_keys_skipped native cf ↔ skipped native cf k ∧ k ∈ column_keys.
Proof. apply list_elem_of_filter. Qed.
Lemma id_apart : "id" ∉ column_keys.
Proof. refine (bool_decide_eq_true_1 _ _). vm_compute. reflexivity. Qed.

(** Nothing is left to write on a record. *)
Definition at_rest (vm : DiscoveredVirtualMachine) (cluster : Z) (native : bool) (r : nb_record) : Prop :=
  ∃ desired changes, managed_metadata vm (Some r) = Ok (desired, []) ∧ changes_of r vm cluster desired [] = Ok changes ∧
    written_changes native changes = [].

Lemma rest_of_columns vm cluster status native r desired cols :
  desired_status vm = Ok status → managed_metadata vm (Some r) = Ok (desired, []) →
  column_changes (rec_data r) (vm_columns ellipsis float_int vm cluster status) = Ok cols →
  (∀ k, k ∈ dkeys cols → skipped native (field "custom_fields" r) k) → at_rest vm cluster native r.
Proof.
  intros Es Hm Hc Hk. exists desired, (filter (λ kv, kv.1 ∉ owned_fields (field "custom_fields" r)) cols). split_and!; [done| |].
  - unfold vm_changes. rewrite Es. unfold mbind, result_bind. rewrite Hc, bool_decide_eq_true_2 by done. by rewrite app_nil_r.
  - assert (∀ kv, kv ∈ cols → skipped native (field "custom_fields" r) kv.1) as Hs.
    { intros kv Hkv. apply Hk. by apply list_elem_of_fmap_2. }
    unfold written_changes, dpop, skipped in *. destruct native.
    + rewrite list_filter_filter. apply filter_none. intros kv Hkv [H1 H2]. destruct (Hs kv Hkv) as [?|[_ ?]]; done.
    + apply filter_none. intros kv Hkv Hn. destruct (Hs kv Hkv) as [?|[? _]]; done.
Qed.

Lemma metadata_for_Ok vm current desired changed :
  metadata_for vm current = Ok (desired, changed) → build_vm_custom_fields vm (Some current) = Ok desired.
Proof.
  unfold metadata_for. intros H. apply result_bind_Ok in H as (d & Hb & H). injection H as -> _.
  destruct (build_vm_custom_fields vm (Some current)) as [d1|[]]; try discriminate Hb. exact Hb.
Qed.

(** Fields the machine has written need no second write, whatever other custom fields
    are beside them. *)
Lemma metadata_written vm current desired changed g :
  metadata_for vm current = Ok (desired, changed) → wf_pyval (PDict current) → same_managed desired g →
  ∃ desired', metadata_for vm g = Ok (desired', []).
Proof.
  intros H%metadata_for_Ok Hwf Hg. destruct (build_vm_wf vm (Some current) desired Hwf H) as [Hw1 Hw2].
  destruct (build_vm_idem _ _ _ _ H Hg) as (f' & Ef & E1 & E2). unfold dget in Hw1, Hw2. rewrite <-(proj1 Hg) in Hw1. rewrite <-(proj2 Hg) in Hw2.
  change (wf_pyval (dget "sync_identities" g)) in Hw1. change (wf_pyval (dget "sync_original_names" g)) in Hw2.
  exists f'. unfold metadata_for. rewrite Ef. unfold mbind, result_bind. do 2 f_equal. apply filter_none. intros k Hk.
  unfold MANAGED_VM_CUSTOM_FIELDS in Hk.
  rewrite !elem_of_cons, elem_of_nil in Hk. destruct Hk as [->|[->|[]]]; [rewrite E1|rewrite E2]; rewrite py_eqb_refl; done.
Qed.

(** The provider's ownership is not ours to change. *)
Lemma metadata_owned vm (existing : nb_record) desired changed :
  managed_metadata vm (Some existing) = Ok (desired, changed) →
  owned_fields (PDict desired) = owned_fields (field "custom_fields" existing).
Proof.
  intros Hb%metadata_for_Ok. unfold mbind, option_bind, custom_fields in Hb.
  pose proof (@build_keeps_others _ vm_managed vm_laws vm _ _ "selectel_refs" Hb ltac:(decided)) as E1.
  pose proof (@build_keeps_others _ vm_managed vm_laws vm _ _ "selectel_inventory" Hb ltac:(decided)) as E2.
  unfold owned_fields, dget. rewrite E1, E2. by destruct (field "custom_fields" existing).
Qed.

(** What a write can have left in a field. *)
Lemma match_fields existing vm cluster status desired changed ch native data' k :
  desired_status vm = Ok status → changes_of existing vm cluster desired changed = Ok ch →
  updated (written_changes native ch) (rec_data existing) data' → k ≠ "id" →
  dget k data' = dget k (rec_data existing) ∨
  (∃ c, c ∈ vm_columns ellipsis float_int vm cluster status ∧ col_key c = k ∧ dget k data' = col_wanted c ∧
        col_differs c (dget k (rec_data existing)) = Ok true) ∨
  (k = "custom_fields" ∧ dget k data' = PDict desired).
Proof.
  intros Es Hc Hu Hk. destruct (vm_columns_keys ellipsis float_int vm cluster status) as [Hnd _].
  destruct (vm_changes_lookup ellipsis float_int existing vm cluster status desired changed ch native k Es Hc) as (cols & Hcols & Hndch & El).
  rewrite (Hu k Hk). unfold dget at 1 3 5. rewrite dlookup_dupdate by done. rewrite El. case_decide; [by left|].
  destruct (dlookup k cols) as [v|] eqn:Ek.
  - right. left. pose proof Ek as Hin. apply dlookup_elem, (list_elem_of_fmap_2 fst) in Hin. apply (column_changes_keys _ _ _ Hcols) in Hin.
    apply list_elem_of_fmap in Hin as (c & E & Hin). simpl in E. subst k. exists c. destruct (column_changes_lookup _ _ _ Hcols Hnd c Hin) as (b & Hb & Eb).
    rewrite Ek in Eb. destruct b; [|discriminate Eb]. injection Eb as ->. done.
  - destruct (bool_decide (k = "custom_fields")) eqn:Ecf; [|by left]. apply bool_decide_eq_true in Ecf. destruct (bool_decide (changed = [])); [by left|].
    right. right. done.
Qed.

(** A record that was matched and written is at rest. *)
Lemma match_at_rest existing vm cluster status desired changed ch native i data' :
  desired_status vm = Ok status → managed_metadata vm (Some existing) = Ok (desired, changed) →
  changes_of existing vm cluster desired changed = Ok ch → wf_pyval (PDict (default [] (custom_fields existing))) →
  updated (written_changes native ch) (rec_data existing) data' → at_rest vm cluster native (mkRec i data').
Proof.
  intros Es Hm Hc Hwf Hu.
  destruct (vm_columns_keys ellipsis float_int vm cluster status) as [Hnd Hkeys].
  destruct (vm_changes_lookup ellipsis float_int existing vm cluster status desired changed ch native "custom_fields" Es Hc) as (cols & Hcols & Hndch & Ecf).
  assert (∀ k, k ≠ "id" → dget k data' = match dlookup k (written_changes native ch) with Some v => v | None => dget k (rec_data existing) end) as Hd.
  { intros k Hk. rewrite (Hu k Hk). unfold dget. rewrite dlookup_dupdate by done. by destruct (dlookup k (written_changes native ch)). }
  assert (skipped native (field "custom_fields" existing) "custom_fields" → False) as Hns.
  { intros [Ho|[_ ?]]; [|done]. apply owned_only in Ho. by apply custom_fields_apart in Ho. }
  rewrite decide_False in Ecf by done.
  assert (dlookup "custom_fields" cols = None) as Encf.
  { apply dlookup_None. intros Hin. apply (column_changes_keys _ _ _ Hcols) in Hin. apply list_elem_of_fmap in Hin as (c & E & Hin).
    apply Hkeys in Hin. rewrite <-E in Hin. by apply custom_fields_apart in Hin. }
  rewrite Encf, bool_decide_eq_true_2 in Ecf by done. cbn [andb] in Ecf.
  assert (owned_fields (field "custom_fields" (mkRec i data')) = owned_fields (field "custom_fields" existing) ∧
    ∃ desired', managed_metadata vm (Some (mkRec i data')) = Ok (desired', [])) as [Eo [desired' Hm']].
  { unfold field, managed_metadata, mbind, option_bind, custom_fields, field. cbn [rec_data]. rewrite Hd by done. rewrite Ecf.
    destruct (bool_decide (changed = [])) eqn:Ech; cbn [negb].
    - split; [done|]. apply bool_decide_eq_true in Ech. subst changed. exists desired. exact Hm.
    - split; [exact (metadata_owned vm existing desired changed Hm)|]. cbn [default from_option id].
      eapply metadata_written; [exact Hm|exact Hwf|done]. }
  destruct (column_changes_again (rec_data existing) data' (vm_columns ellipsis float_int vm cluster status) cols
    (column_keys_skipped native (field "custom_fields" existing))) as (cols' & Hcols' & Hk'); [done|done|apply vm_columns_settled| |].
  - intros c Hin. destruct (vm_changes_lookup ellipsis float_int existing vm cluster status desired changed ch native (col_key c) Es Hc) as (cols1 & Hcols1 & _ & El).
    rewrite Hcols in Hcols1. injection Hcols1 as <-. rewrite Hd by (intros E; apply Hkeys in Hin; rewrite E in Hin; revert Hin; by apply id_apart).
    rewrite El. case_decide as Hsk.
    + right. split; [done|]. left. apply elem_of_skipped. split; [done|by apply Hkeys].
    + destruct (column_changes_lookup _ _ _ Hcols Hnd c Hin) as (b & _ & ->). destruct b; [by left|]. right.
      rewrite bool_decide_eq_false_2; [by auto|]. intros E. apply Hkeys in Hin. rewrite E in Hin. by apply custom_fields_apart in Hin.
  - eapply (rest_of_columns vm cluster status native _ desired' cols'); [done|done|exact Hcols'|].
    intros k Hk. unfold skipped. rewrite Eo. apply Hk' in Hk. apply elem_of_skipped in Hk as [Hk _]. exact Hk.
Qed.

(** What is read of a created machine. *)
Lemma created_fields vm cluster status desired fields data :
  desired_status vm = Ok status → build_vm_create_fields ellipsis vm cluster desired = Ok fields → created_as data fields →
  (∀ c, c ∈ vm_columns ellipsis float_int vm cluster status → dget (col_key c) data = col_wanted c) ∧ dget "tenant" data = PNone ∧
  ∃ cf, dget "custom_fields" data = PDict cf ∧ ∀ k, k ∈ dkeys desired → dlookup k cf = dlookup k desired.
Proof.
  intros Es Hb (Hr & Hc & Ht). unfold build_vm_create_fields in Hb. rewrite Es in Hb. apply Ok_inj in Hb as <-.
  assert (NoDup (dkeys (description_fields ellipsis vm)) ∧ ∀ k, k ∈ dkeys (description_fields ellipsis vm) → k ∈ ["description"; "comments"]) as [Hnd Hin].
  { unfold description_fields. destruct (vm_description vm); (split; [decided|]); [done|by intros k ?%elem_of_nil]. }
  set (base := [("name", _); _; _; _; _; _; _; _]) in *.
  assert (∀ k, k ∉ ["description"; "comments"] → dlookup k (dupdate base (description_fields ellipsis vm)) = dlookup k base) as Hd.
  { intros k Hk. rewrite dlookup_dupdate by done. rewrite dlookup_None; [done|]. intros H. by apply Hk, Hin. }
  assert (∀ k v, dlookup k (dupdate base (description_fields ellipsis vm)) = Some v → k ∉ ["id"; "custom_fields"] → dget k data = v) as Hg.
  { intros k v E Hk. rewrite Hr; [|apply dlookup_elem in E; apply list_elem_of_fmap; by exists (k, v)|done]. unfold dget. by rewrite E. }
  split_and!.
  - intros c Hcol. unfold vm_columns, resource_columns in Hcol. rewrite !elem_of_app, !elem_of_cons, elem_of_nil in Hcol.
    destruct Hcol as [Hcol|[[->|[->|[]]]|[->|[->|[->|[->|[->|[]]]]]]]]; try (simpl; apply Hg; [rewrite Hd by decided; reflexivity|decided]).
    apply list_elem_of_fmap in Hcol as ([k v] & -> & Hcol). cbn [text_column col_key col_wanted fst snd].
    pose proof (Hin k (list_elem_of_fmap_2 fst _ _ Hcol)) as Hk. apply Hg.
    + rewrite dlookup_dupdate by done. by rewrite (dlookup_NoDup k v).
    + rewrite !elem_of_cons, elem_of_nil in Hk |- *. naive_solver.
  - apply Ht, dlookup_absent. by rewrite Hd by decided.
  - apply Hc. by rewrite Hd by decided.
Qed.

(** The custom fields of the sync are always sent. *)
Lemma created_managed vm current desired changed cf :
  metadata_for vm current = Ok (desired, changed) → (∀ k, k ∈ dkeys desired → dlookup k cf = dlookup k desired) → same_managed desired cf.
Proof.
  intros H%metadata_for_Ok Hcf. unfold build_vm_custom_fields in H. apply result_bind_Ok in H as (d & _ & H).
  apply result_bind_Ok in H as (rs & _ & H). apply result_bind_Ok in H as (names & _ & H). apply Ok_inj in H as <-.
  destruct (dlookup_built (fields_of (Some current)) rs names) as (Hi & Hm & _).
  split; apply Hcf; apply list_elem_of_fmap; eexists (_, _); (split; [reflexivity|]); apply dlookup_elem; [exact Hi|exact Hm].
Qed.

(** A created record is at rest. *)
Lemma create_at_rest vm cluster status desired changed fields native i data :
  desired_status vm = Ok status → managed_metadata vm None = Ok (desired, changed) →
  build_vm_create_fields ellipsis vm cluster desired = Ok fields → created_as data fields → at_rest vm cluster native (mkRec i data).
Proof.
  intros Es Hm Hb Hr. destruct (created_fields _ _ _ _ _ _ Es Hb Hr) as (Hcols & _ & cf & Ecf & Hcf).
  destruct (metadata_written vm [] desired changed cf) as [desired' Hm']; [exact Hm|split; constructor|by eapply created_managed|].
  assert (managed_metadata vm (Some (mkRec i data)) = Ok (desired', [])) as Hmr.
  { unfold managed_metadata, mbind, option_bind, custom_fields, field. cbn [rec_data]. by rewrite Ecf. }
  assert (column_changes data (vm_columns ellipsis float_int vm cluster status) = Ok []) as Hch.
  { pose proof (vm_columns_settled ellipsis float_int vm cluster status) as Hs. revert Hs Hcols. generalize (vm_columns ellipsis float_int vm cluster status).
    intros l Hs Hl. induction Hs as [|c l Hc Hs IH]; [done|]. cbn [column_changes]. rewrite Hl by left. rewrite Hc. unfold mbind, result_bind.
    rewrite IH; [done|]. intros; apply Hl; by right. }
  eapply (rest_of_columns vm cluster status native _ desired' []); [done|done|exact Hch|]. by intros k ?%elem_of_nil.
Qed.
End Again.
