(* ===== verification/VmRun.v ===== *)
(** * A whole run of the machine executor (netbox_vm_apply.py)

    What a run can touch, however it ends, and that a run that succeeded leaves
    nothing for the next one to do. Both are proved against [NetBoxLaws], so they
    hold of any NetBox that stores what it accepts. *)

From S2P Require Import Prelude PyValue NetBox Discovery SourceIdentity Metadata SourceConfig VmApply VmConverge.
From stdpp Require Import base list strings gmap.
From Stdlib Require Import ZArith Lia Ascii.
Local Open Scope string_scope.
#[local] Arguments py_eqb _ _ : simpl never.

Lemma py_insert_by_perm {A} (key : A → pyval) x l l' : py_insert_by key x l = Ok l' → l' ≡ₚ x :: l.
Proof.
  revert l'. induction l as [|y l IH]; intros l' H; cbn [py_insert_by] in H; [injection H as <-; done|].
  apply result_bind_Ok in H as ([|] & _ & H); [|injection H as <-; done].
  apply result_bind_Ok in H as (rest & Hr & H). injection H as <-. rewrite (IH rest Hr). apply Permutation_swap.
Qed.
Lemma py_sorted_by_perm {A} (key : A → pyval) l l' : py_sorted_by key l = Ok l' → l' ≡ₚ l.
Proof.
  revert l'. induction l as [|x l IH]; intros l' H; cbn [py_sorted_by] in H; [injection H as <-; done|].
  apply result_bind_Ok in H as (rest & Hr & H). rewrite (py_insert_by_perm _ _ _ _ H). by rewrite (IH rest Hr).
Qed.

(** The parts of a plan, on any API. *)
Lemma plan_parts {W} `{!NetBoxApi W} ellipsis float_int hosts config (w : W) cluster contexts w' :
  plan_virtual_machines ellipsis float_int hosts config w = (Ok (cluster, contexts), w') →
  ∃ inv w1 disks ordered, prepare_vm_apply_inventory config w = (Ok inv, w1) ∧ rec_id (inv_cluster inv) = cluster ∧ nb_all DISKS w1 = (Ok disks, w') ∧
    validate_discovered (discovered_vms hosts) = Ok tt ∧ py_sorted_by vm_order (discovered_vms hosts) = Ok ordered ∧
    Forall2 (λ vm c, ∃ c0, preflight_vm ellipsis float_int (inv_all inv) (inv_target inv) cluster vm = Ok c0 ∧
      c = drop_native_disk (object_id ∘ field "virtual_machine" <$> disks) c0) ordered contexts ∧
    precheck contexts = Ok tt.
Proof.
  unfold plan_virtual_machines. intros H. apply bind_Ok in H as (inv & w1 & Hi & H). apply bind_Ok in H as (cs & w2 & Hc & H).
  apply bind_Ok in H as ([] & w3 & Hp & H). apply lift_Ok in Hp as [Hp ->]. apply ret_Ok in H as [H ->]. injection H as -> ->.
  unfold prepare_vm_contexts in Hc.
  apply bind_Ok in Hc as ([] & w4 & Hv & Hc). apply lift_Ok in Hv as [Hv ->]. apply bind_Ok in Hc as (ordered & w5 & Ho & Hc).
  apply lift_Ok in Ho as [Ho ->]. apply bind_Ok in Hc as (cs0 & w6 & Hm & Hc). apply lift_Ok in Hm as [Hm ->].
  apply bind_Ok in Hc as (disks & w7 & Hd & Hc). apply ret_Ok in Hc as [-> ->]. exists inv, w1, disks, ordered. split_and!; try done.
  apply mapR_Ok in Hm. apply Forall2_fmap_r. eapply Forall2_impl; [exact Hm|]. simpl. eauto.
Qed.

Section Run.
Context (ellipsis : string) (float_int : string → result exn Z).
Context {W : Type} `{!NetBoxApi W} (contents : W → string → table) `{!NetBoxLaws W contents}.
Abbreviation preflight := (preflight_vm ellipsis float_int).
Abbreviation plan := (plan_virtual_machines ellipsis float_int).
Abbreviation writes := (write_virtual_machines ellipsis).
Abbreviation write_one := (write_vm ellipsis).
Abbreviation run := (apply_virtual_machines ellipsis float_int).

(** ** Planning only reads *)

Definition same_contents (w w' : W) : Prop := contents w' = contents w.
#[local] Instance same_contents_preorder : PreOrder same_contents.
Proof. split; unfold same_contents; [by intros ?|]. intros a b c H1 H2. congruence. Qed.

Lemma moves_all e w : moves same_contents (nb_all e) w.
Proof. unfold moves. destruct (nb_all e w) as [r w'] eqn:E. by apply all_reads in E as [E _]. Qed.
Lemma moves_filter e q w : moves same_contents (nb_filter e q) w.
Proof. unfold moves. destruct (nb_filter e q w) as [r w'] eqn:E. by apply filter_reads in E as [E _]. Qed.
Lemma moves_get e q w : moves same_contents (nb_get e q) w.
Proof. unfold moves. destruct (nb_get e q w) as [r w'] eqn:E. by apply get_reads in E. Qed.
#[local] Hint Resolve moves_all moves_filter moves_get : moves.

Lemma inventory_reads config w : moves same_contents (prepare_vm_apply_inventory config) w.
Proof.
  unfold prepare_vm_apply_inventory, required, resolve_cluster. moves; repeat (case_match; moves).
Qed.
#[local] Hint Resolve inventory_reads : moves.
Lemma contexts_reads hosts all_vms target_vms cluster w :
  moves same_contents (prepare_vm_contexts ellipsis float_int hosts all_vms target_vms cluster) w.
Proof. unfold prepare_vm_contexts. moves. Qed.
#[local] Hint Resolve contexts_reads : moves.
Lemma plan_reads hosts config w : moves same_contents (plan hosts config) w.
Proof. unfold plan_virtual_machines. moves. Qed.

Lemma plan_contents hosts config w r w' : plan hosts config w = (r, w') → contents w' = contents w.
Proof. intros E. pose proof (plan_reads hosts config w) as H. unfold moves in H. by rewrite E in H. Qed.

(** What a plan is made of. *)
Record planned (hosts : list DiscoveredHost) (t d : table) (cluster : Z) (contexts : list vm_context)
    (all_vms target_vms disks : list nb_record) (ordered : list DiscoveredVirtualMachine) : Prop := {
  pl_all_rows : all_vms ≡ₚ records t;
  pl_target_rows : target_vms ≡ₚ filter (in_cluster cluster) (records t);
  pl_disk_rows : disks ≡ₚ records d;
  pl_valid : validate_discovered (discovered_vms hosts) = Ok tt;
  pl_sorted : py_sorted_by vm_order (discovered_vms hosts) = Ok ordered;
  pl_decided : Forall2 (λ vm c, ∃ c0, preflight all_vms target_vms cluster vm = Ok c0 ∧
    c = drop_native_disk (object_id ∘ field "virtual_machine" <$> disks) c0) ordered contexts;
  pl_precheck : precheck contexts = Ok tt }.

Lemma inventory_Ok config w inv w' :
  prepare_vm_apply_inventory config w = (Ok inv, w') →
  contents w' = contents w ∧ inv_all inv ≡ₚ records (contents w VMS) ∧
  inv_target inv ≡ₚ filter (in_cluster (rec_id (inv_cluster inv))) (records (contents w VMS)).
Proof.
  intros H. pose proof (inventory_reads config w) as Hm. unfold moves in Hm. rewrite H in Hm. simpl in Hm. split; [exact Hm|].
  unfold prepare_vm_apply_inventory in H.
  apply bind_Ok in H as (site & w1 & H1 & H). apply bind_Ok in H as (ct & w2 & H2 & H). apply bind_Ok in H as (mapped & w3 & H3 & H).
  apply bind_Ok in H as (cluster & w4 & H4 & H). apply bind_Ok in H as (all_vms & w5 & H5 & H). apply bind_Ok in H as (target & w6 & H6 & H).
  apply ret_Ok in H as [-> ->]. cbn [inv_all inv_target inv_cluster].
  apply filter_reads in H6 as [E6 H6]. pose proof (all_reads _ _ _ _ H5) as [E5 H5']. rewrite <-Hm, E6, E5. split.
  - by apply H5'.
  - rewrite <-E5. by apply (H6 target (rec_id cluster)).
Qed.

Lemma plan_Ok hosts config w cluster contexts w' :
  plan hosts config w = (Ok (cluster, contexts), w') →
  ∃ all_vms target_vms disks ordered, planned hosts (contents w VMS) (contents w DISKS) cluster contexts all_vms target_vms disks ordered.
Proof.
  intros (inv & w1 & disks & ordered & Hi & <- & Hd & Hv & Ho & Hm & Hp)%plan_parts.
  apply inventory_Ok in Hi as (E1 & Ha & Ht). apply all_reads in Hd as [_ Hd]. rewrite E1 in Hd. exists (inv_all inv), (inv_target inv), disks, ordered.
  split; try done. by apply Hd.
Qed.

(** ** The writes *)

(** What the write of a context leaves in the table. *)
Definition outcome (cluster : Z) (before after : table) (c : vm_context) (i : Z) : Prop :=
  match c with
  | CreateVM vm desired => before !! i = None ∧
      ∃ fields data, build_vm_create_fields ellipsis vm cluster desired = Ok fields ∧ after !! i = Some data ∧ created_as data fields
  | MatchVM vm existing changes => i = rec_id existing ∧
      ∃ data, after !! i = Some data ∧ updated changes (rec_data existing) data
  | BlockedVM _ _ _ => False
  end.

Definition matched_id (c : vm_context) : option Z := match c with MatchVM _ existing _ => Some (rec_id existing) | _ => None end.
Definition present (t : table) (c : vm_context) : Prop :=
  match c with MatchVM _ existing _ => t !! rec_id existing = Some (rec_data existing) | _ => True end.

Lemma write_vm_Ok cluster c w w' :
  write_one cluster c w = (Ok tt, w') → present (contents w VMS) c →
  kept_tables VMS (contents w) (contents w') ∧
  ∃ i, outcome cluster (contents w VMS) (contents w' VMS) c i ∧ ∀ j, j ≠ i → contents w' VMS !! j = contents w VMS !! j.
Proof.
  destruct c as [vm reason cs|vm desired|vm existing changes]; intros H Hp; cbn [write_vm] in H.
  - by apply raise_Ok in H.
  - apply bind_Ok in H as (fields & w1 & Hf & H). apply lift_Ok in Hf as [Hf ->]. apply bind_Ok in H as (r & w1 & Hc & H). apply ret_Ok in H as [_ ->].
    apply create_stores in Hc as (Hn & (data & Hr & E) & Hk). split; [done|]. exists (rec_id r). rewrite E. split.
    + split; [done|]. exists fields, data. split_and!; [done|apply lookup_insert_eq|done].
    + intros j Hj. by rewrite lookup_insert_ne.
  - simpl in Hp. destruct changes as [|kv changes].
    + apply ret_Ok in H as [_ ->]. split; [by intros ? ?|]. exists (rec_id existing). split; [|done]. split; [done|]. exists (rec_data existing). by split.
    + apply update_stores in H as [(data & data' & Hb & Hu & E) Hk]. split; [done|]. exists (rec_id existing). rewrite E. rewrite Hp in Hb. injection Hb as <-. split.
      * split; [done|]. exists data'. split; [apply lookup_insert_eq|done].
      * intros j Hj. by rewrite lookup_insert_ne.
Qed.

Lemma outcome_after cluster t t1 t' c i :
  outcome cluster t t1 c i → t' !! i = t1 !! i → outcome cluster t t' c i.
Proof. destruct c; simpl; intros H E; [done|rewrite E; done..]. Qed.
Lemma outcome_stored cluster t t' c i : outcome cluster t t' c i → is_Some (t' !! i).
Proof. destruct c; simpl; [done|intros (_ & ? & ? & _ & -> & _); done|intros (-> & ? & -> & _); done]. Qed.

Lemma write_all_Ok cluster cs : ∀ w w',
  writes cluster cs w = (Ok tt, w') → Forall (present (contents w VMS)) cs → NoDup (omap matched_id cs) →
  kept_tables VMS (contents w) (contents w') ∧
  ∃ ids, NoDup ids ∧ Forall2 (outcome cluster (contents w VMS) (contents w' VMS)) cs ids ∧
         ∀ j, j ∉ ids → contents w' VMS !! j = contents w VMS !! j.
Proof.
  induction cs as [|c cs IH]; intros w w' H Hp Hnd.
  { apply ret_Ok in H as [_ ->]. split; [by intros ? ?|]. exists []. by split_and!; [constructor|constructor|]. }
  cbn [write_virtual_machines forM] in H. apply bind_Ok in H as ([] & w1 & H1 & H). apply Forall_cons in Hp as [Hc Hp].
  destruct (write_vm_Ok cluster c w w1 H1 Hc) as (Hk1 & i & Ho & Hrest).
  assert (∀ x, x ∈ cs → matched_id x ≠ Some i) as Hfresh.
  { intros x Hx E. destruct x as [| |vm existing changes]; try done. injection E as E. rewrite Forall_forall in Hp. specialize (Hp _ Hx). simpl in Hp.
    destruct c as [| |vm' existing' changes']; simpl in Ho; [done|destruct Ho as [Ho _]; congruence|]. destruct Ho as [-> _].
    cbn in Hnd. apply NoDup_cons in Hnd as [Hnd _]. apply Hnd. apply list_elem_of_omap. exists (MatchVM vm existing changes). by rewrite <-E. }
  destruct (IH w1 w' H) as (Hk2 & ids & Hids & Hos & Hothers).
  { rewrite Forall_forall in Hp |- *. intros x Hx. specialize (Hp x Hx). specialize (Hfresh x Hx). destruct x as [| |vm existing changes]; simpl in *; try done.
    rewrite Hrest; [done|congruence]. }
  { revert Hnd. clear. destruct c; simpl; [done..|]. by intros [_ ?]%NoDup_cons. }
  split; [intros e He; by rewrite (Hk2 e He), (Hk1 e He)|].
  assert (∀ x j, x ∈ cs → outcome cluster (contents w1 VMS) (contents w' VMS) x j → j ≠ i) as Hne.
  { intros x j Hx Hj ->. destruct x as [|vm desired|vm existing changes]; simpl in Hj; [done| |].
    - destruct Hj as [Hj _]. apply outcome_stored in Ho as [? Ho]. congruence.
    - destruct Hj as [-> _]. by apply (Hfresh _ Hx). }
  assert (i ∉ ids) as Hi.
  { intros Hin. apply list_elem_of_lookup in Hin as [n Hn]. destruct (Forall2_lookup_r _ _ _ _ _ Hos Hn) as (x & Hx & Hj).
    apply (Hne x i); [by eapply list_elem_of_lookup_2|done|done]. }
  exists (i :: ids). split_and!.
  - by constructor.
  - constructor; [by eapply outcome_after; [exact Ho|apply Hothers]|]. apply Forall2_same_length_lookup_2; [by eapply Forall2_length|].
    intros n x j Hx Hj. pose proof (Forall2_lookup_lr _ _ _ _ _ _ Hos Hx Hj) as Hxj. pose proof (Hne x j ltac:(by eapply list_elem_of_lookup_2) Hxj) as Hji.
    destruct x as [| |]; simpl in *; [done| |done]. destruct Hxj as [Hn Hr]. split; [|done]. by rewrite <-Hrest.
  - intros j [Hj1 Hj2]%not_elem_of_cons. rewrite Hothers by done. by apply Hrest.
Qed.

(** ** The decision for one machine, read backwards *)

Abbreviation rank_for := (λ (r : nb_record) vm, vm_sync_identity_match_rank (custom_fields r) vm).

(** The only candidate with a rank, and no rival for the name. *)
Lemma preflight_match all_vms target_vms cluster vm vm' existing changes :
  preflight all_vms target_vms cluster vm = Ok (MatchVM vm' existing changes) →
  vm' = vm ∧ existing ∈ all_vms ∧
  (∃ rk, rank_for existing vm = Ok rk ∧ (0 < rk)%nat ∧ ∀ o q, o ∈ all_vms → o ≠ existing → rank_for o vm = Ok q → (q < rk)%nat) ∧
  py_eqb (object_id (field "cluster" existing)) (PInt cluster) = true ∧
  name_matches target_vms (netbox_vm_name vm) (tenant_id existing) (Some (rec_id existing)) = [] ∧
  ∃ desired changed, managed_metadata vm (Some existing) = Ok (desired, changed) ∧
    vm_changes ellipsis float_int existing vm cluster desired changed = Ok changes.
Proof.
  unfold preflight_vm. intros H. apply result_bind_Ok in H as (ms & Hms & H). apply find_matches_spec in Hms.
  destruct ms as [|x [|]]; [|destruct (py_eqb (object_id (field "cluster" x)) (PInt cluster)) eqn:Ec; cbn [negb] in H|done].
  - destruct (name_matches _ _ _ _) as [|? [|]]; try discriminate H. apply result_bind_Ok in H as ([desired changed] & _ & H). discriminate H.
  - destruct (name_matches _ _ _ _) eqn:En; [|discriminate H]. apply result_bind_Ok in H as ([desired changed] & Hm & H).
    apply result_bind_Ok in H as (ch & Hch & H). injection H as <- <- <-. destruct Hms as [Hin Hrk]. split_and!; try done. by exists desired, changed.
  - discriminate H.
Qed.

Lemma preflight_create all_vms target_vms cluster vm vm' desired :
  preflight all_vms target_vms cluster vm = Ok (CreateVM vm' desired) →
  vm' = vm ∧ (∀ o q, o ∈ all_vms → rank_for o vm = Ok q → q = 0%nat) ∧
  name_matches target_vms (netbox_vm_name vm) PNone None = [] ∧ ∃ changed, managed_metadata vm None = Ok (desired, changed).
Proof.
  unfold preflight_vm. intros H. apply result_bind_Ok in H as (ms & Hms & H). apply find_matches_spec in Hms.
  destruct ms as [|x [|]]; [|destruct (negb _); [done|]|done].
  - destruct (name_matches _ _ _ _) as [|? [|]] eqn:En; try discriminate H. apply result_bind_Ok in H as ([d changed] & Hm & H).
    injection H as <- <-. split_and!; try done. by exists changed.
  - destruct (name_matches _ _ _ _); [|discriminate H]. apply result_bind_Ok in H as ([d changed] & Hm & H).
    apply result_bind_Ok in H as (ch & Hch & H). discriminate H.
Qed.

Lemma preflight_ranks all_vms target_vms cluster vm c o :
  preflight all_vms target_vms cluster vm = Ok c → o ∈ all_vms → ∃ q, rank_for o vm = Ok q.
Proof.
  unfold preflight_vm. intros H Ho. apply result_bind_Ok in H as (ms & Hms & _). exact (find_matches_ranks custom_fields all_vms vm ms Hms o Ho).
Qed.

(** ** What a run can touch *)

(** Rows stay; only rows of the VM table that are allowed to change do, and their
    protected fields keep their values. *)
Definition respects (allowed : Z → Prop) (protected : Z → string → Prop) (w w' : W) : Prop :=
  ∀ e i d, contents w e !! i = Some d → ∃ d', contents w' e !! i = Some d' ∧
    (d' = d ∨ e = VMS ∧ allowed i ∧ ∀ k, protected i k → dget k d' = dget k d).
#[local] Instance respects_preorder allowed protected : PreOrder (respects allowed protected).
Proof.
  split.
  - intros w e i d H. eauto.
  - intros a b c H1 H2 e i d H. destruct (H1 e i d H) as (d1 & E1 & C1). destruct (H2 e i d1 E1) as (d2 & E2 & C2). exists d2. split; [done|].
    destruct C1 as [->|(-> & Ha & Hp)]; [exact C2|]. right. split_and!; [done..|]. intros k Hk. destruct C2 as [->|(_ & _ & Hp')]; [by apply Hp|].
    by rewrite Hp', Hp.
Qed.

Lemma respects_inserted allowed protected fields i w w' :
  inserted VMS fields i (contents w) (contents w') → respects allowed protected w w'.
Proof.
  intros (Hn & (data & _ & E) & Hk) e j d Hd. exists d. split; [|by left]. destruct (decide (e = VMS)) as [->|He]; [|by rewrite Hk].
  rewrite E, lookup_insert_ne; [done|congruence].
Qed.
Lemma respects_patched (allowed : Z → Prop) protected changes i w w' :
  patched VMS changes i (contents w) (contents w') → NoDup (dkeys changes) → allowed i → (∀ k, protected i k → k ≠ "id" ∧ k ∉ dkeys changes) →
  respects allowed protected w w'.
Proof.
  intros [(data & data' & Hb & Hu & E) Hk] Hnd Ha Hp e j d Hd. destruct (decide (e = VMS)) as [->|He]; [|exists d; rewrite Hk by done; by auto].
  rewrite E. destruct (decide (i = j)) as [<-|Hj]; [|exists d; rewrite lookup_insert_ne by done; by auto].
  exists data'. rewrite lookup_insert_eq. split; [done|]. right. split_and!; [done..|]. intros k Hpk. destruct (Hp k Hpk) as [Hid Hch].
  rewrite Hb in Hd. injection Hd as <-. rewrite (Hu k Hid). unfold dget. rewrite dlookup_dupdate by done. by rewrite (dlookup_None k changes).
Qed.

Definition matched_in (cs : list vm_context) (i : Z) (changes : pydict) : Prop := ∃ vm existing, MatchVM vm existing changes ∈ cs ∧ rec_id existing = i.

Lemma writes_respect cluster cs w :
  (∀ i ch, matched_in cs i ch → NoDup (dkeys ch)) →
  moves (respects (λ i, ∃ ch, matched_in cs i ch) (λ i k, k ≠ "id" ∧ ∀ ch, matched_in cs i ch → k ∉ dkeys ch)) (writes cluster cs) w.
Proof.
  intros Hnd. apply (moves_forM _). intros c w1 Hc. destruct c as [vm reason l|vm desired|vm existing changes]; cbn [write_vm].
  - moves.
  - unfold moves. match goal with |- respects _ _ _ (snd ?p) => destruct p as [r w2] eqn:E end. cbn [snd].
    apply bind_cases in E as [(x & Hf & ->)|(fields & w3 & Hf & H)]; [injection Hf as _ <-; reflexivity|]. apply lift_Ok in Hf as [_ ->].
    apply bind_cases in H as [(x & Hx & ->)|(x & w3 & Hx & H)].
    + apply create_stores in Hx as [E|[i Hi]]; [|by eapply respects_inserted]. intros e i d Hd. rewrite E. eauto.
    + injection H as _ <-. apply create_stores in Hx. by eapply respects_inserted.
  - destruct changes as [|kv changes]; [apply moves_ret; apply _|]. unfold moves. destruct (nb_update _ _ _ w1) as [r w2] eqn:E. cbn [snd].
    apply update_stores in E. assert (matched_in cs (rec_id existing) (kv :: changes)) as Hm by (by exists vm, existing).
    assert (patched VMS (kv :: changes) (rec_id existing) (contents w1) (contents w2) ∨ contents w2 = contents w1) as [Hp|Eq] by (destruct r; tauto).
    + eapply respects_patched; [exact Hp|by eapply Hnd|by eexists|]. intros k [Hid Hk]. split; [done|by apply Hk].
    + intros e i d Hd. rewrite Eq. eauto.
Qed.

(** The changes a plan writes to a record. *)
Lemma planned_match hosts t d cluster cs all_vms target_vms disks ordered i changes :
  planned hosts t d cluster cs all_vms target_vms disks ordered → matched_in cs i changes →
  ∃ vm existing ch, vm ∈ discovered_vms hosts ∧ existing ∈ records t ∧ rec_id existing = i ∧
    preflight all_vms target_vms cluster vm = Ok (MatchVM vm existing ch) ∧
    changes = written_changes (native_disk (object_id ∘ field "virtual_machine" <$> disks) i) ch.
Proof.
  intros P (vm' & existing & Hin & <-). apply list_elem_of_lookup in Hin as [n Hn].
  destruct (Forall2_lookup_r _ _ _ _ _ (pl_decided _ _ _ _ _ _ _ _ _ P) Hn) as (vm & Hvm & c0 & Hc0 & Ec).
  destruct c0 as [| |vm0 ex0 ch0]; try discriminate Ec. pose proof (preflight_match _ _ _ _ _ _ _ Hc0) as (-> & Hall & _).
  assert (existing = ex0 ∧ changes = written_changes (native_disk (object_id ∘ field "virtual_machine" <$> disks) (rec_id ex0)) ch0) as [-> ->].
  { unfold drop_native_disk in Ec. unfold written_changes, native_disk. destruct (existsb _ _); by injection Ec as -> -> ->. }
  exists vm, ex0, ch0. split_and!; try done.
  - apply list_elem_of_lookup_2 in Hvm. by rewrite (py_sorted_by_perm _ _ _ (pl_sorted _ _ _ _ _ _ _ _ _ P)) in Hvm.
  - by rewrite <-(pl_all_rows _ _ _ _ _ _ _ _ _ P).
Qed.

Lemma native_disk_rows disks d x i :
  disks ≡ₚ records d → x ∈ records d → object_id (field "virtual_machine" x) = PInt i →
  native_disk (object_id ∘ field "virtual_machine" <$> disks) i = true.
Proof.
  intros Hd Hx Ex. unfold native_disk. apply existsb_exists. exists (PInt i). split; [|apply py_eqb_int]. apply list_elem_of_In, list_elem_of_fmap.
  exists x. rewrite Hd. by split.
Qed.

(** The fields a run may not change on a record: those it has no column for, those
    a provider owns, and the size of a machine with disk records. *)
Definition protected_field (disks : table) (i : Z) (d : pydict) (k : string) : Prop :=
  (k ∉ "custom_fields" :: column_keys) ∨ k ∈ owned_fields (dget "custom_fields" d) ∨
  k = "disk" ∧ ∃ x, x ∈ records disks ∧ object_id (field "virtual_machine" x) = PInt i.

Lemma protected_unwritten hosts t d cluster cs all_vms target_vms disks ordered i changes data k :
  planned hosts t d cluster cs all_vms target_vms disks ordered → matched_in cs i changes → t !! i = Some data →
  NoDup (dkeys changes) ∧ (protected_field d i data k → k ∉ dkeys changes).
Proof.
  intros P Hm Hi. destruct (planned_match _ _ _ _ _ _ _ _ _ _ _ P Hm) as (vm & ex & ch & _ & Hex & <- & Hp & ->).
  apply elem_of_records in Hex. rewrite Hi in Hex. injection Hex as ->.
  destruct (preflight_match _ _ _ _ _ _ _ Hp) as (_ & _ & _ & _ & _ & desired & changed & _ & Hch).
  assert (∃ status, desired_status vm = Ok status) as [status Es].
  { unfold vm_changes in Hch. apply result_bind_Ok in Hch as (status & Es & _). by exists status. }
  destruct (vm_changes_lookup _ _ _ _ _ _ _ _ _ (native_disk (object_id ∘ field "virtual_machine" <$> disks) (rec_id ex)) k Es Hch) as (cols & Hcols & Hnd & El).
  split; [done|]. intros Hprot Hk. assert (is_Some (dlookup k (written_changes (native_disk (object_id ∘ field "virtual_machine" <$> disks) (rec_id ex)) ch))) as [v Ev].
  { apply list_elem_of_fmap in Hk as ([k' v] & -> & Hk). simpl in *. exists v. by apply dlookup_NoDup. }
  rewrite El in Ev. case_decide as Hsk; [discriminate Ev|]. destruct Hprot as [Hno|[Ho|(-> & x & Hx & Ex)]].
  - destruct (dlookup k cols) as [v'|] eqn:Ec.
    + apply Hno. right. apply dlookup_elem, (list_elem_of_fmap_2 fst) in Ec. apply (column_changes_keys _ _ _ Hcols) in Ec.
      apply list_elem_of_fmap in Ec as (c & E & Hc). simpl in E. rewrite E. by eapply vm_columns_keys.
    + destruct (bool_decide (k = "custom_fields")) eqn:Ecf; [|discriminate Ev]. apply bool_decide_eq_true in Ecf. apply Hno. rewrite Ecf. left.
  - apply Hsk. by left.
  - apply Hsk. right. split; [|done]. by eapply native_disk_rows; [exact (pl_disk_rows _ _ _ _ _ _ _ _ _ P)|..].
Qed.

(** C16: whatever a run of the machine executor ends in, every row NetBox had is
    still there, and it is as it was unless the run was confirmed and its plan had
    no blocked machine, the row is of the VM table, and one of the discovered
    machines is recorded in it; even then the fields without a column, the fields
    a provider owns and the size of a machine with disk records keep their values. *)
Theorem vm_apply_touches_only_its_machines hosts config confirmed w r w' :
  run hosts config confirmed w = (r, w') →
  ∀ e i d, contents w e !! i = Some d → ∃ d', contents w' e !! i = Some d' ∧
    (d' = d ∨ confirmed = true ∧ e = VMS ∧
       (∃ cluster cs w1, plan hosts config w = (Ok (cluster, cs), w1) ∧ existsb is_blocked_vm cs = false ∧
          py_eqb (object_id (dget "cluster" d)) (PInt cluster) = true) ∧
       (∃ vm rk, vm ∈ discovered_vms hosts ∧ rank_for (mkRec i d) vm = Ok rk ∧ (0 < rk)%nat) ∧
       ∀ k, k ≠ "id" → protected_field (contents w DISKS) i d k → dget k d' = dget k d).
Proof.
  intros H e i d Hd. unfold apply_virtual_machines in H.
  apply bind_cases in H as [(x & Hp & ->)|([cluster cs] & w1 & Hp & H)].
  { apply plan_contents in Hp. rewrite Hp. eauto. }
  destruct confirmed; [|injection H as _ <-; apply plan_contents in Hp; rewrite Hp; eauto].
  pose proof (plan_contents _ _ _ _ _ Hp) as Ew. pose proof (plan_Ok _ _ _ _ _ _ Hp) as (all_vms & target_vms & disks & ordered & P).
  pose proof (writes_respect cluster cs w1) as Hmv. unfold moves in Hmv. rewrite H in Hmv. cbn [snd] in Hmv.
  assert (∀ j ch, matched_in cs j ch → ∃ data, contents w VMS !! j = Some data) as Hrow.
  { intros j ch Hm. destruct (planned_match _ _ _ _ _ _ _ _ _ _ _ P Hm) as (vm & ex & _ & _ & Hex & <- & _). apply elem_of_records in Hex. eauto. }
  destruct (Hmv ltac:(intros j ch Hm; destruct (Hrow j ch Hm) as [data Hj]; exact (proj1 (protected_unwritten _ _ _ _ _ _ _ _ _ _ _ _ "" P Hm Hj))) e i d)
    as (d' & Hd' & C); [by rewrite Ew|].
  exists d'. split; [done|]. destruct C as [->|(-> & [ch Hm] & Hk)]; [by left|]. right.
  destruct (planned_match _ _ _ _ _ _ _ _ _ _ _ P Hm) as (vm & ex & ch0 & Hvm & Hex & Ei & Hpre & Ech).
  pose proof (proj1 (elem_of_records _ _) Hex) as Hex'. rewrite Ei in Hex'. rewrite Hd in Hex'. injection Hex' as Eex.
  assert (mkRec i d = ex) as Er by (destruct ex; simpl in *; congruence).
  destruct (preflight_match _ _ _ _ _ _ _ Hpre) as (_ & _ & (rk & Hrk & Hpos & _) & Hcl & _).
  split_and!; [done|done| | |].
  - exists cluster, cs, w1. split_and!; [done| |by rewrite <-Er in Hcl].
    pose proof (pl_precheck _ _ _ _ _ _ _ _ _ P) as Hpc. unfold precheck in Hpc. apply result_bind_Ok in Hpc as (_ & _ & Hpc). by destruct (existsb _ _).
  - exists vm, rk. rewrite Er. done.
  - intros k Hid Hprot. apply Hk. split; [done|]. intros ch' Hm'. by apply (proj2 (protected_unwritten _ _ _ _ _ _ _ _ _ _ _ _ k P Hm' Hd)).
Qed.

(** ** The next run *)

(** A record after the run, [old] being the record it was. *)
Record row_after (all_vms target_vms : list nb_record) (cluster : Z) (native : bool) (vm : DiscoveredVirtualMachine)
    (old : option nb_record) (r : nb_record) : Prop := {
  ra_old : ∀ o, old = Some o → o ∈ all_vms ∧ rec_id o = rec_id r;
  ra_rank : ∃ rk, rank_for r vm = Ok rk ∧ (0 < rk)%nat ∧ ∀ o q, o ∈ all_vms → old ≠ Some o → rank_for o vm = Ok q → (q < rk)%nat;
  ra_other : ∀ vm2 q, virtual_machine_source_identity vm2 ≠ virtual_machine_source_identity vm →
    vm_sync_identity_match_rank (old ≫= custom_fields) vm2 = Ok q → ∃ q', rank_for r vm2 = Ok q' ∧ (q' ≤ q)%nat;
  ra_target : py_eqb (object_id (field "cluster" r)) (PInt cluster) = true;
  ra_cluster : ∀ o, old = Some o → field "cluster" r = field "cluster" o;
  ra_tenant : tenant_id r = default PNone (tenant_id <$> old);
  ra_name : field "name" r = PStr (netbox_vm_name vm) ∨ ∃ o, old = Some o ∧ field "name" r = field "name" o;
  ra_unopposed : name_matches target_vms (netbox_vm_name vm) (tenant_id r) (rec_id <$> old) = [];
  ra_rest : at_rest ellipsis float_int vm cluster native r }.

Lemma rank_default cf vm : vm_sync_identity_match_rank (Some (default [] cf)) vm = vm_sync_identity_match_rank cf vm.
Proof. unfold vm_sync_identity_match_rank. by destruct cf. Qed.

(** Fields built for one machine rank no higher for another. *)
Lemma built_other vm vm2 cf desired changed q :
  metadata_for vm (default [] cf) = Ok (desired, changed) → virtual_machine_source_identity vm2 ≠ virtual_machine_source_identity vm →
  vm_sync_identity_match_rank cf vm2 = Ok q → ∃ q', vm_sync_identity_match_rank (Some desired) vm2 = Ok q' ∧ (q' ≤ q)%nat.
Proof.
  intros Hm%metadata_for_Ok Hne Hq. rewrite <-rank_default in Hq. unfold vm_sync_identity_match_rank in Hq |- *.
  apply result_bind_Ok in Hq as (d2 & Hd2 & Hq). rewrite Hd2.
  destruct (@build_stores_merge _ vm_managed vm_laws vm _ _ Hm) as (d & _ & _ & Hd & _). simpl in Hd.
  eapply built_rank_le; [exact Hm|exact Hd| |exact Hq]. congruence.
Qed.
Lemma built_own vm cf desired changed :
  metadata_for vm cf = Ok (desired, changed) → vm_sync_identity_match_rank (Some desired) vm = Ok V2_IDENTITY_MATCH.
Proof. intros Hm%metadata_for_Ok. exact (@built_matches _ vm_managed vm_laws vm _ _ Hm). Qed.

Lemma rank_bound cf vm q : vm_sync_identity_match_rank cf vm = Ok q → (q ≤ V2_IDENTITY_MATCH)%nat.
Proof.
  unfold vm_sync_identity_match_rank, source_identity_match_rank. intros H. unfold V2_IDENTITY_MATCH, LEGACY_IDENTITY_MATCH, NO_IDENTITY_MATCH in *.
  repeat (apply result_bind_Ok in H as (? & _ & H) || case_match || (injection H as <-; lia) || discriminate H).
Qed.

(** A column by its key. *)
Lemma column_by_key vm cluster status c :
  c ∈ vm_columns ellipsis float_int vm cluster status →
  (col_key c = "name" → col_wanted c = PStr (netbox_vm_name vm)) ∧
  (col_key c = "cluster" → ∀ v, col_differs c v = Ok (negb (py_eqb (object_id v) (PInt cluster)))).
Proof.
  unfold vm_columns, resource_columns. rewrite !elem_of_app, !elem_of_cons, elem_of_nil.
  intros [Hc|[[->|[->|[]]]|[->|[->|[->|[->|[->|[]]]]]]]]; try done.
  apply list_elem_of_fmap in Hc as ([k v] & -> & Hc). unfold description_fields in Hc. destruct (vm_description vm); [|by apply elem_of_nil in Hc].
  rewrite !elem_of_cons, elem_of_nil in Hc. by destruct Hc as [[= -> ->]|[[= -> ->]|[]]].
Qed.

Lemma match_row all_vms target_vms cluster native vm existing ch data :
  preflight all_vms target_vms cluster vm = Ok (MatchVM vm existing ch) → wf_pyval (PDict (default [] (custom_fields existing))) →
  updated (written_changes native ch) (rec_data existing) data →
  row_after all_vms target_vms cluster native vm (Some existing) (mkRec (rec_id existing) data).
Proof.
  intros Hp Hwf Hu. destruct (preflight_match _ _ _ _ _ _ _ Hp) as (_ & Hin & (rk & Hrk & Hpos & Hmax) & Hcl & Hn & desired & changed & Hm & Hch).
  assert (∃ status, desired_status vm = Ok status) as [status Es].
  { unfold vm_changes in Hch. apply result_bind_Ok in Hch as (status & Es & _). by exists status. }
  pose proof (λ k, match_fields _ _ existing vm cluster status desired changed ch native data k Es Hch Hu) as Hf.
  assert (∀ k, k ≠ "id" → (k ∉ column_keys) → k ≠ "custom_fields" → dget k data = dget k (rec_data existing)) as Hkeep.
  { intros k H1 H2 H3. destruct (Hf k H1) as [?|[(c & Hc & E & _)|[? _]]]; [done| |done]. destruct H2. rewrite <-E. by eapply vm_columns_keys. }
  assert (custom_fields (mkRec (rec_id existing) data) = custom_fields existing ∨ custom_fields (mkRec (rec_id existing) data) = Some desired) as Hcf.
  { unfold custom_fields, field. cbn [rec_data]. destruct (Hf "custom_fields" ltac:(done)) as [-> |[(c & Hc & E & _)|[_ ->]]]; [by left| |by right].
    apply vm_columns_keys in Hc. rewrite E in Hc. by apply custom_fields_apart in Hc. }
  assert (field "cluster" (mkRec (rec_id existing) data) = field "cluster" existing) as Ecl.
  { unfold field. cbn [rec_data]. destruct (Hf "cluster" ltac:(done)) as [?|[(c & Hc & E & _ & Hd)|[? _]]]; [done| |done].
    rewrite (proj2 (column_by_key _ _ _ _ Hc) E) in Hd. unfold field in Hcl. rewrite Hcl in Hd. done. }
  assert (tenant_id (mkRec (rec_id existing) data) = tenant_id existing) as Et.
  { unfold tenant_id, field. cbn [rec_data]. by rewrite Hkeep by decided. }
  split.
  - intros o [= <-]. done.
  - destruct Hcf as [E|E]; rewrite E.
    + exists rk. split_and!; [done..|]. intros o q Ho Hne. apply Hmax; [done|congruence].
    + exists V2_IDENTITY_MATCH. split_and!; [by eapply built_own|unfold V2_IDENTITY_MATCH; lia|]. intros o q Ho Hne Hq.
      assert (q < rk)%nat by (by eapply Hmax; [exact Ho|congruence|]). apply rank_bound in Hrk. lia.
  - intros vm2 q Hne Hq. cbn [mbind option_bind] in Hq. destruct Hcf as [E|E]; rewrite E; [eauto|]. by eapply built_other.
  - by rewrite Ecl.
  - by intros o [= <-].
  - by rewrite Et.
  - unfold field. cbn [rec_data]. destruct (Hf "name" ltac:(done)) as [?|[(c & Hc & E & -> & _)|[? _]]]; [right; by exists existing| |done].
    left. by apply (column_by_key _ _ _ _ Hc).
  - by rewrite Et.
  - by eapply match_at_rest.
Qed.

Lemma vm_rank_ext cf cf' vm :
  dlookup "sync_identities" cf = dlookup "sync_identities" cf' → vm_sync_identity_match_rank (Some cf) vm = vm_sync_identity_match_rank (Some cf') vm.
Proof.
  intros E. unfold vm_sync_identity_match_rank. destruct (virtual_machine_source_identity vm); [|done]. apply rank_ext. unfold dget. simpl. by rewrite E.
Qed.

Lemma create_row all_vms target_vms cluster native vm desired fields i data :
  preflight all_vms target_vms cluster vm = Ok (CreateVM vm desired) → build_vm_create_fields ellipsis vm cluster desired = Ok fields →
  created_as data fields → row_after all_vms target_vms cluster native vm None (mkRec i data).
Proof.
  intros Hp Hb Hr. destruct (preflight_create _ _ _ _ _ _ Hp) as (_ & Hranks & Hn & changed & Hm).
  assert (∃ status, desired_status vm = Ok status) as [status Es].
  { unfold build_vm_create_fields in Hb. apply result_bind_Ok in Hb as (status & Es & _). by exists status. }
  destruct (created_fields ellipsis float_int _ _ _ _ _ _ Es Hb Hr) as (Hcols & Etn & cf & Ef & Hcf). pose proof (created_managed _ _ _ _ _ Hm Hcf) as [Ei _].
  assert (∀ x, rank_for (mkRec i data) x = vm_sync_identity_match_rank (Some desired) x) as Ecf.
  { intros x. unfold custom_fields, field. cbn [rec_data]. rewrite Ef. by apply vm_rank_ext. }
  assert (tenant_id (mkRec i data) = PNone) as Et by (unfold tenant_id, field; cbn [rec_data]; by rewrite Etn).
  assert (dget "name" data = PStr (netbox_vm_name vm) ∧ dget "cluster" data = PInt cluster) as [Ename Ecl].
  { split; [apply (Hcols (plain_column "name" (PStr (netbox_vm_name vm))))|apply (Hcols (ref_column "cluster" (PInt cluster)))];
      unfold vm_columns; apply elem_of_app; right; [left|right; left]. }
  split.
  - done.
  - rewrite Ecf. exists V2_IDENTITY_MATCH. split_and!; [by eapply built_own|unfold V2_IDENTITY_MATCH; lia|]. intros o q Ho _ Hq.
    rewrite (Hranks o q Ho Hq). unfold V2_IDENTITY_MATCH. lia.
  - intros vm2 q Hne Hq. rewrite Ecf. by eapply (built_other vm vm2 None).
  - unfold field. cbn [rec_data]. rewrite Ecl. apply py_eqb_int.
  - done.
  - by rewrite Et.
  - left. unfold field. cbn [rec_data]. exact Ename.
  - by rewrite Et.
  - by eapply create_at_rest.
Qed.

(** The tables before and after a run, and what is at each row. *)
Section Second.
Context (t t' : table) (all_vms target_vms : list nb_record) (cluster : Z) (native : Z → bool).
Context (vms : list DiscoveredVirtualMachine) (ids : list Z).
Hypothesis all_rows : all_vms ≡ₚ records t.
Hypothesis target_rows : target_vms ≡ₚ filter (in_cluster cluster) (records t).
Hypothesis identities : NoDup (virtual_machine_source_identity <$> vms).
Hypothesis names : NoDup (casefold ∘ netbox_vm_name <$> vms).
Hypothesis ids_once : NoDup ids.
Hypothesis ranked : ∀ vm o, vm ∈ vms → o ∈ all_vms → ∃ q, rank_for o vm = Ok q.
Hypothesis rows : Forall2 (λ vm i, ∃ old data, t' !! i = Some data ∧ row_after all_vms target_vms cluster (native i) vm old (mkRec i data)) vms ids.
Hypothesis others : ∀ j, j ∉ ids → t' !! j = t !! j.

(** A row is one of the run's or one it left alone. *)
Lemma row_cases r :
  r ∈ records t' →
  ((rec_id r ∉ ids) ∧ r ∈ all_vms) ∨
  ∃ n vm old, vms !! n = Some vm ∧ ids !! n = Some (rec_id r) ∧ row_after all_vms target_vms cluster (native (rec_id r)) vm old r.
Proof using all_rows others rows.
  intros Hr. apply elem_of_records in Hr. destruct (decide (rec_id r ∈ ids)) as [Hin|Hin].
  - right. apply list_elem_of_lookup in Hin as [n Hn]. destruct (Forall2_lookup_r _ _ _ _ _ rows Hn) as (vm & Hvm & old & data & Hd & Ra).
    exists n, vm, old. split_and!; [done..|]. rewrite Hr in Hd. injection Hd as <-. by destruct r.
  - left. split; [done|]. rewrite all_rows. apply elem_of_records. by rewrite <-others.
Qed.

Lemma vms_differ n m vm vm2 :
  vms !! n = Some vm → vms !! m = Some vm2 → n ≠ m →
  virtual_machine_source_identity vm ≠ virtual_machine_source_identity vm2 ∧ casefold (netbox_vm_name vm) ≠ casefold (netbox_vm_name vm2).
Proof using identities names.
  intros Hn Hm Hne. split; intros E; apply Hne.
  - apply (NoDup_lookup _ n m (virtual_machine_source_identity vm) identities); rewrite list_lookup_fmap; [by rewrite Hn|by rewrite Hm, E].
  - apply (NoDup_lookup _ n m (casefold (netbox_vm_name vm)) names); rewrite list_lookup_fmap; [by rewrite Hn|by rewrite Hm; simpl; rewrite E].
Qed.

Context (all' target' : list nb_record).
Hypothesis all_rows' : all' ≡ₚ records t'.
Hypothesis target_rows' : target' ≡ₚ filter (in_cluster cluster) (records t').

Section Row.
Context (n : nat) (vm : DiscoveredVirtualMachine) (old : option nb_record) (r : nb_record).
Hypothesis at_n : vms !! n = Some vm.
Hypothesis id_n : ids !! n = Some (rec_id r).
Hypothesis stored : r ∈ records t'.
Hypothesis row : row_after all_vms target_vms cluster (native (rec_id r)) vm old r.

(** Every other row ranks lower. *)
Lemma lower_rank rk o :
  rank_for r vm = Ok rk → o ∈ records t' → o ≠ r → ∃ q, rank_for o vm = Ok q ∧ (q < rk)%nat.
Proof using all_rows others rows identities names ids_once ranked at_n id_n stored row.
  intros Hrk Ho Hne. destruct (ra_rank _ _ _ _ _ _ _ row) as (rk' & Hrk' & Hpos & Hmax). rewrite Hrk in Hrk'. injection Hrk' as <-.
  assert (rec_id o ≠ rec_id r) as Hid.
  { intros E. apply Hne. apply elem_of_records in Ho, stored. rewrite E in Ho. destruct o, r; simpl in *. congruence. }
  assert (∀ x, old = Some x → rec_id x = rec_id r) as Hold by (intros x Hx; by apply (ra_old _ _ _ _ _ _ _ row)).
  destruct (row_cases o Ho) as [[_ Hin]|(m & vm2 & old2 & Hvm2 & Hm & Ra)].
  - destruct (ranked vm o) as [q Hq]; [by eapply list_elem_of_lookup_2|done|]. exists q. split; [done|]. eapply Hmax; [exact Hin| |done].
    intros E. by apply Hid, Hold.
  - assert (n ≠ m) as Hnm by (intros <-; rewrite id_n in Hm; congruence). destruct (vms_differ _ _ _ _ at_n Hvm2 Hnm) as [Hv _].
    assert (∃ q, vm_sync_identity_match_rank (old2 ≫= custom_fields) vm = Ok q ∧ (q < rk)%nat) as (q & Hq & Hlt).
    { destruct old2 as [x|].
      - destruct (ra_old _ _ _ _ _ _ _ Ra x eq_refl) as [Hx Ex]. destruct (ranked vm x) as [q Hq]; [by eapply list_elem_of_lookup_2|done|].
        exists q. split; [done|]. eapply Hmax; [exact Hx| |done]. intros E. apply Hid. rewrite <-Ex. by apply Hold.
      - exists 0%nat. split; [|done]. unfold vm_sync_identity_match_rank in Hrk |- *. apply result_bind_Ok in Hrk as (d & -> & _).
        by apply no_identities_rank. }
    destruct (ra_other _ _ _ _ _ _ _ Ra vm q Hv Hq) as (q' & Hq' & Hle). exists q'. split; [done|lia].
Qed.

Lemma found_again : find_vm_sync_identity_matches custom_fields all' vm = Ok [r].
Proof using all_rows others rows identities names ids_once ranked at_n id_n stored row all_rows'.
  destruct (ra_rank _ _ _ _ _ _ _ row) as (rk & Hrk & Hpos & _).
  set (rank := λ o, match rank_for o vm with Ok q => q | Err _ => 0%nat end). assert (rank r = rk) as Er by (unfold rank; by rewrite Hrk).
  assert (∀ c, c ∈ all' → rank_for c vm = Ok (rank c) ∧ (c ≠ r → (rank c < rank r)%nat)) as Hall.
  { intros c Hc. rewrite all_rows' in Hc. destruct (decide (c.(rec_id) = rec_id r)) as [E|E].
    - assert (c = r) as -> by (apply elem_of_records in Hc, stored; rewrite E in Hc; destruct c, r; simpl in *; congruence).
      split; [by rewrite Er|done].
    - destruct (lower_rank rk c Hrk Hc ltac:(by intros ->)) as (q & Hq & Hlt). unfold rank at 1 2. rewrite Hq, Er. done. }
  apply (select_unique _ _ rank).
  - rewrite all_rows'. eapply NoDup_fmap_1, records_NoDup.
  - by rewrite all_rows'.
  - intros c Hc. by apply Hall.
  - by rewrite Er.
  - intros c Hc Hne. by apply Hall.
Qed.

(** No other row has taken the name. *)
Lemma unopposed_again : name_matches target' (netbox_vm_name vm) (tenant_id r) (Some (rec_id r)) = [].
Proof using all_rows target_rows others rows identities names ids_once at_n id_n stored row target_rows'.
  apply filter_none. intros o Ho H. rewrite target_rows' in Ho. apply list_elem_of_filter in Ho as [Hcl Ho].
  apply andb_prop in H as [H Ht]. apply andb_prop in H as [Hid Hname]. apply negb_true_iff, bool_decide_eq_false in Hid.
  apply bool_decide_eq_true in Hname. assert (rec_id o ≠ rec_id r) as Hne by congruence.
  assert (∀ x, x ∈ all_vms → rec_id x = rec_id o → in_cluster cluster x → casefold (py_str (field "name" x)) = casefold (netbox_vm_name vm) →
    py_eqb (tenant_id x) (tenant_id r) = true → False) as Hclash.
  { intros x Hx Eid Hxc Hxn Hxt. pose proof (ra_unopposed _ _ _ _ _ _ _ row) as Hu. unfold name_matches in Hu.
    eapply (filter_nil_not_elem_of _ _ x Hu); [|by rewrite target_rows, list_elem_of_filter, <-all_rows].
    rewrite (bool_decide_eq_true_2 _ Hxn), Hxt, bool_decide_eq_false_2; [done|]. destruct old as [y|] eqn:Ey; [|done]. simpl. intros [= E].
    destruct (ra_old _ _ _ _ _ _ _ row y eq_refl) as [_ E']. congruence. }
  destruct (row_cases o Ho) as [[_ Hin]|(m & vm2 & old2 & Hvm2 & Hm & Ra)]; [by eapply (Hclash o)|].
  assert (n ≠ m) as Hnm by (intros <-; rewrite id_n in Hm; congruence). destruct (vms_differ _ _ _ _ at_n Hvm2 Hnm) as [_ Hv].
  destruct (ra_name _ _ _ _ _ _ _ Ra) as [E|(x & -> & E)]; rewrite E in Hname; [by apply Hv|].
  destruct (ra_old _ _ _ _ _ _ _ Ra x eq_refl) as [Hx Ex]. apply (Hclash x); try done.
  - unfold in_cluster in *. by rewrite <-(ra_cluster _ _ _ _ _ _ _ Ra x eq_refl).
  - by rewrite (ra_tenant _ _ _ _ _ _ _ Ra) in Ht.
Qed.

Lemma preflight_again : ∃ changes, preflight all' target' cluster vm = Ok (MatchVM vm r changes) ∧ written_changes (native (rec_id r)) changes = [].
Proof using all_rows target_rows others rows identities names ids_once ranked at_n id_n stored row all_rows' target_rows'.
  destruct (ra_rest _ _ _ _ _ _ _ row) as (desired & changes & Hm & Hch & Hw). exists changes. split; [|done].
  unfold preflight_vm. rewrite found_again. unfold mbind at 1, result_bind at 1. rewrite (ra_target _ _ _ _ _ _ _ row). cbn [negb].
  rewrite unopposed_again, Hm. unfold mbind at 1, result_bind at 1. by rewrite Hch.
Qed.
End Row.

(** A context with nothing to write. *)
Definition idle (c : vm_context) : Prop := ∃ vm r status, c = MatchVM vm r [] ∧ desired_status vm = Ok status.

Lemma preflight_all_again parents :
  (∀ i, native_disk parents i = native i) →
  ∃ cs, mapR (preflight all' target' cluster) vms = Ok cs ∧ Forall idle (drop_native_disk parents <$> cs).
Proof using all_rows target_rows others rows identities names ids_once ranked all_rows' target_rows'.
  intros Hnat. assert (∀ vm, vm ∈ vms → ∃ c, preflight all' target' cluster vm = Ok c ∧ idle (drop_native_disk parents c)) as H.
  { intros vm Hvm. apply list_elem_of_lookup in Hvm as [n Hn]. destruct (Forall2_lookup_l _ _ _ _ _ rows Hn) as (i & Hi & old & data & Hd & Ra).
    destruct (preflight_again n vm old (mkRec i data)) as (changes & Hp & Hw); [done|done|by apply elem_of_records|done|].
    exists (MatchVM vm (mkRec i data) changes). split; [done|]. destruct (preflight_match _ _ _ _ _ _ _ Hp) as (_ & _ & _ & _ & _ & desired & changed & _ & Hch).
    unfold vm_changes in Hch. apply result_bind_Ok in Hch as (status & Es & _). exists vm, (mkRec i data), status. split; [|done].
    simpl in Hw |- *. rewrite <-Hnat in Hw. unfold written_changes, native_disk in Hw. destruct (existsb _ _); by rewrite Hw. }
  clear -H. induction vms as [|vm l IH]; [by exists []|]. destruct (H vm ltac:(left)) as (c & Hc & Hi).
  destruct IH as (cs & Hcs & Hf); [intros x Hx; apply H; by right|]. exists (c :: cs). cbn [mapR]. rewrite Hc. unfold mbind at 1, result_bind at 1. rewrite Hcs.
  split; [done|]. by constructor.
Qed.
End Second.

Lemma idle_precheck cs : Forall idle cs → precheck cs = Ok tt.
Proof.
  intros H. unfold precheck. assert (mapR precheck_status cs = Ok (replicate (length cs) tt) ∧ existsb is_blocked_vm cs = false) as [-> ->]; [|done].
  induction H as [|c cs (vm & r & status & -> & Es) H [IH1 IH2]]; [done|]. cbn [mapR precheck_status]. rewrite Es. unfold mbind, result_bind in *.
  rewrite IH1. done.
Qed.
Lemma idle_writes cluster cs w : Forall idle cs → writes cluster cs w = (Ok tt, w).
Proof. intros H. induction H as [|c cs (vm & r & status & -> & _) H IH]; [done|]. exact IH. Qed.

Lemma native_disk_perm disks disks' d i :
  disks ≡ₚ records d → disks' ≡ₚ records d →
  native_disk (object_id ∘ field "virtual_machine" <$> disks) i = native_disk (object_id ∘ field "virtual_machine" <$> disks') i.
Proof.
  intros E E'. unfold native_disk. apply eq_true_iff_eq. rewrite !existsb_exists.
  split; intros (x & Hx & Hp); exists x; (split; [|done]); rewrite <-list_elem_of_In in Hx |- *; [by rewrite E', <-E|by rewrite E, <-E'].
Qed.

Lemma matched_present hosts t d cluster cs all_vms target_vms disks ordered :
  planned hosts t d cluster cs all_vms target_vms disks ordered → Forall (present t) cs.
Proof.
  intros P. apply Forall_forall. intros c Hc. destruct c as [| |vm existing changes]; try done.
  destruct (planned_match _ _ _ _ _ _ _ _ _ _ _ P ltac:(by exists vm, existing)) as (vm' & ex & ch & _ & Hex & Eid & _).
  apply list_elem_of_lookup in Hc as [n Hn]. destruct (Forall2_lookup_r _ _ _ _ _ (pl_decided _ _ _ _ _ _ _ _ _ P) Hn) as (vm0 & _ & c0 & Hc0 & Ec).
  destruct c0 as [| |vm1 ex1 ch1]; try discriminate Ec. destruct (preflight_match _ _ _ _ _ _ _ Hc0) as (_ & Hall & _).
  assert (existing = ex1) as -> by (unfold drop_native_disk in Ec; destruct (existsb _ _); congruence).
  apply elem_of_records. by rewrite <-(pl_all_rows _ _ _ _ _ _ _ _ _ P).
Qed.

(** Every machine of the plan has its row. *)
Lemma planned_rows hosts t t' d cluster cs all_vms target_vms disks ordered ids :
  planned hosts t d cluster cs all_vms target_vms disks ordered → Forall2 (outcome cluster t t') cs ids →
  (∀ i data, t !! i = Some data → wf_pyval (PDict (default [] (custom_fields (mkRec i data))))) →
  Forall2 (λ vm i, ∃ old data, t' !! i = Some data ∧
    row_after all_vms target_vms cluster (native_disk (object_id ∘ field "virtual_machine" <$> disks) i) vm old (mkRec i data)) ordered ids.
Proof.
  intros P Ho Hwf.  apply Forall2_same_length_lookup_2.
  { by rewrite (Forall2_length _ _ _ (pl_decided _ _ _ _ _ _ _ _ _ P)), (Forall2_length _ _ _ Ho). }
  intros n vm i Hvm Hi. destruct (Forall2_lookup_l _ _ _ _ _ (pl_decided _ _ _ _ _ _ _ _ _ P) Hvm) as (c & Hc & c0 & Hp & Ec).
  pose proof (Forall2_lookup_lr _ _ _ _ _ _ Ho Hc Hi) as Hout. destruct c0 as [|vm0 desired|vm0 existing changes]; simpl in Ec.
  - by subst c.
  - subst c. destruct (preflight_create _ _ _ _ _ _ Hp) as [-> _]. destruct Hout as (_ & fields & data & Hb & Hd & Hr).
    exists None, data. split; [done|]. by eapply create_row.
  - destruct (preflight_match _ _ _ _ _ _ _ Hp) as (-> & Hall & _).
    assert (i = rec_id existing ∧ ∃ data, t' !! i = Some data ∧
      updated (written_changes (native_disk (object_id ∘ field "virtual_machine" <$> disks) (rec_id existing)) changes) (rec_data existing) data) as (-> & data & Hd & Hu).
    { unfold written_changes, native_disk. destruct (existsb _ _); subst c; exact Hout. }
    exists (Some existing), data. split; [done|]. eapply match_row; [exact Hp| |exact Hu].
    rewrite (pl_all_rows _ _ _ _ _ _ _ _ _ P) in Hall. apply elem_of_records in Hall. specialize (Hwf _ _ Hall). by destruct existing.
Qed.

(** C13: the executor converges: when a confirmed run succeeded, the next run on the
    same discovery, against the same NetBox, plans a match without changes for
    every machine, succeeds and writes nothing. It is assumed that no two machines
    have the same source identity or were matched to the same record, that the
    stored custom fields have no key twice, and that the second run's reads
    succeed and find the same cluster. Of NetBox it is assumed that a written field
    reads back as it was sent and that a machine created without a tenant has none;
    the fields and custom fields that were not sent may have any default. *)
Theorem vm_apply_converges hosts config w cluster cs w1 w2 w3 inv w4 disks w5 :
  plan hosts config w = (Ok (cluster, cs), w1) → run hosts config true w = (Ok tt, w2) →
  NoDup (virtual_machine_source_identity <$> discovered_vms hosts) → NoDup (omap matched_id cs) →
  (∀ i data, contents w VMS !! i = Some data → wf_pyval (PDict (default [] (custom_fields (mkRec i data))))) →
  contents w3 = contents w2 → prepare_vm_apply_inventory config w3 = (Ok inv, w4) → rec_id (inv_cluster inv) = cluster →
  nb_all DISKS w4 = (Ok disks, w5) →
  ∃ cs', plan hosts config w3 = (Ok (cluster, cs'), w5) ∧ Forall (λ c, ∃ vm r, c = MatchVM vm r []) cs' ∧ length cs' = length (discovered_vms hosts) ∧
    run hosts config true w3 = (Ok tt, w5) ∧ contents w5 = contents w2.
Proof.
  intros Hplan Hrun Hids Hmatch Hwf E3 Hinv Ecl Hdisks.
  pose proof (plan_Ok _ _ _ _ _ _ Hplan) as (all_vms & target_vms & disks0 & ordered & P).
  assert (writes cluster cs w1 = (Ok tt, w2)) as Hw.
  { unfold apply_virtual_machines in Hrun. by rewrite (bind_step _ _ _ _ _ Hplan) in Hrun. }
  pose proof (plan_contents _ _ _ _ _ Hplan) as E1. pose proof (py_sorted_by_perm _ _ _ (pl_sorted _ _ _ _ _ _ _ _ _ P)) as Hperm.
  destruct (write_all_Ok cluster cs w1 w2 Hw) as (Hk & ids & Hnd & Ho & Hothers); [rewrite E1; by eapply matched_present|done|]. rewrite E1 in Ho, Hothers, Hk.
  destruct (inventory_Ok _ _ _ _ Hinv) as (E4 & Ha & Ht). rewrite Ecl, E3 in Ht. rewrite E3 in Ha. destruct (all_reads _ _ _ _ Hdisks) as [E5 Hd].
  assert (disks ≡ₚ records (contents w DISKS)) as Hdr by (rewrite <-(Hk DISKS) by done; rewrite <-E3, <-E4; by apply Hd).
  assert (NoDup (casefold ∘ netbox_vm_name <$> ordered)) as Hnames.
  { rewrite Hperm. pose proof (pl_valid _ _ _ _ _ _ _ _ _ P) as Hv. unfold validate_discovered in Hv.
    destruct (negb (bool_decide (NoDup (vm_identity <$> _)))); [done|]. case_bool_decide; [done|discriminate Hv]. }
  destruct (preflight_all_again (contents w VMS) (contents w2 VMS) all_vms target_vms cluster
    (native_disk (object_id ∘ field "virtual_machine" <$> disks0)) ordered ids) with (all' := inv_all inv) (target' := inv_target inv)
    (parents := object_id ∘ field "virtual_machine" <$> disks) as (cs' & Hcs' & Hidle); try done.
  { exact (pl_all_rows _ _ _ _ _ _ _ _ _ P). } { exact (pl_target_rows _ _ _ _ _ _ _ _ _ P). } { by rewrite Hperm. }
  { intros vm o Hvm Hin. apply list_elem_of_lookup in Hvm as [n Hn].
    destruct (Forall2_lookup_l _ _ _ _ _ (pl_decided _ _ _ _ _ _ _ _ _ P) Hn) as (c & _ & c0 & Hp & _). by eapply preflight_ranks. }
  { by eapply planned_rows. }
  { intros i. by eapply native_disk_perm; [|exact (pl_disk_rows _ _ _ _ _ _ _ _ _ P)]. }
  exists (drop_native_disk (object_id ∘ field "virtual_machine" <$> disks) <$> cs').
  assert (plan hosts config w3 = (Ok (cluster, drop_native_disk (object_id ∘ field "virtual_machine" <$> disks) <$> cs'), w5)) as Hp3.
  { unfold plan_virtual_machines. rewrite (bind_step _ _ _ _ _ Hinv), Ecl. unfold prepare_vm_contexts, lift, mbind, M_bind.
    rewrite (pl_valid _ _ _ _ _ _ _ _ _ P), (pl_sorted _ _ _ _ _ _ _ _ _ P), Hcs', Hdisks. unfold mret, M_ret. by rewrite (idle_precheck _ Hidle). }
  split_and!; [done| | | |by rewrite E5, E4].
  - eapply Forall_impl; [exact Hidle|]. intros c (vm & r & _ & E & _). by exists vm, r.
  - rewrite length_fmap, <-Hperm. apply mapR_Ok, Forall2_length in Hcs'. done.
  - unfold apply_virtual_machines. rewrite (bind_step _ _ _ _ _ Hp3). by apply idle_writes.
Qed.
End Run.

(** ** An example *)

Definition run_vm (vmid : Z) (name : string) : DiscoveredVirtualMachine := {|
  vm_source := "proxmox"; vm_source_instance := "pve-a"; vm_legacy_identity_owner := false; vm_source_id := "node/qemu/" +:+ name;
  vm_node_source_id := "node"; vm_vmid := PInt vmid; vm_original_name := name; vm_normalized_name := name; vm_status := "running"; vm_vcpus := 2;
  vm_memory_bytes := 4294967296; vm_autostart := true; vm_disks := []; vm_interfaces := []; vm_external_id := None; vm_description := Some "web  front";
  vm_provider_object_id := None; vm_esxi_instance_uuid := None; vm_esxi_bios_uuid := None |}.
Definition run_host : DiscoveredHost := {|
  host_source := "proxmox"; host_source_instance := "pve-a"; host_legacy_identity_owner := false; host_source_id := "node"; host_original_name := "node";
  host_normalized_name := "node"; host_management_ip := None; host_hypervisor := "proxmox"; host_hypervisor_version := None;
  host_cpu := mkCPU None None 1 1 1; host_memory_bytes := 0; host_manufacturer := None; host_model := None; host_disks := []; host_storages := [];
  host_interfaces := []; host_virtual_machines := [run_vm 101 "web"; run_vm 102 "db"]; host_containers := [];
  host_esxi_events := None; host_esxi_host_network := None; host_proxmox_host_network := None; host_connection_management := None;
  host_hardware_identity := None |}.
Definition run_config : NetBoxTargetConfig := mkTarget "dc" "server" "linux" "generic" "proxmox" "main" [].
Definition run_record : pydict :=
  match virtual_machine_source_identity (run_vm 101 "web") with Ok d => to_record d | Err _ => [] end.
Definition run_vms : list (Z * pydict) :=
  [(7%Z, [("id", PInt 7); ("name", PStr "old-web"); ("cluster", PDict [("id", PInt 3)]); ("status", PStr "active"); ("vcpus", PInt 1);
          ("memory", PInt 4096); ("disk", PInt 10); ("start_on_boot", PStr "off"); ("tenant", PNone);
          ("custom_fields", PDict [("owner", PStr "team-a"); ("sync_identities", PList [PDict run_record])])]);
   (8%Z, [("id", PInt 8); ("name", PStr "mail"); ("cluster", PInt 3); ("custom_fields", PNone)])].
Definition run_store : store := mkStore (list_to_map
  [("dcim.sites", {[ 1%Z := [("id", PInt 1); ("slug", PStr "dc")] ]});
   ("virtualization.cluster_types", {[ 2%Z := [("id", PInt 2); ("slug", PStr "proxmox")] ]});
   (CLUSTERS, {[ 3%Z := [("id", PInt 3); ("name", PStr "main"); ("type", PInt 2); ("scope_type", PStr "dcim.site"); ("scope_id", PInt 1)] ]});
   (DISKS, {[ 5%Z := [("id", PInt 5); ("virtual_machine", PInt 7); ("size", PInt 10)] ]});
   (VMS, list_to_map run_vms)]).
Definition no_floats (s : string) : result exn Z := Err (ValueError "could not convert string to float").
Abbreviation sample_plan_of := (plan_virtual_machines "..." no_floats [run_host] run_config).
Abbreviation sample_run_of := (apply_virtual_machines "..." no_floats [run_host] run_config true).
Definition run_contexts : list vm_context := Eval vm_compute in match (sample_plan_of run_store).1 with Ok (_, cs) => cs | Err _ => [] end.
Definition run_after : store := Eval vm_compute in (sample_run_of run_store).2.
Definition run_inventory : VMApplyInventory := Eval vm_compute in
  match (prepare_vm_apply_inventory run_config run_after).1 with Ok inv => inv | Err _ => mkInventory (mkRec 0 []) (mkRec 0 []) [] [] end.

Lemma run_fields_wf i data :
  st_contents run_store VMS !! i = Some data → wf_pyval (PDict (default [] (custom_fields (mkRec i data)))).
Proof.
  change (st_contents run_store VMS) with (list_to_map run_vms : table). intros H%elem_of_list_to_map_2.
  unfold run_vms in H. rewrite !elem_of_cons, elem_of_nil in H. destruct H as [[= -> ->]|[[= -> ->]|[]]]; vm_compute; repeat constructor; set_solver.
Qed.

Definition run_row : pydict := Eval vm_compute in default [] (list_to_map (M:=table) run_vms !! 7%Z).
Definition run_disk : nb_record := mkRec 5 [("id", PInt 5); ("virtual_machine", PInt 7); ("size", PInt 10)].
Lemma run_planned : sample_plan_of run_store = (Ok (3%Z, run_contexts), run_store).
Proof. vm_compute. reflexivity. Qed.
Lemma run_succeeds : sample_run_of run_store = (Ok tt, run_after).
Proof. vm_compute. reflexivity. Qed.
Lemma run_row_stored : st_contents run_store VMS !! 7%Z = Some run_row.
Proof. vm_compute. reflexivity. Qed.
Lemma run_disk_stored : run_disk ∈ records (st_contents run_store DISKS).
Proof. apply elem_of_records. vm_compute. reflexivity. Qed.
Lemma run_inventory_read : prepare_vm_apply_inventory run_config run_after = (Ok run_inventory, run_after).
Proof. vm_compute. reflexivity. Qed.
Lemma run_disks_read : nb_all DISKS run_after = (Ok [run_disk], run_after).
Proof. vm_compute. reflexivity. Qed.

(** The example run updates one machine, creates the other and leaves a third one
    and the size of the first alone. *)
Lemma vm_apply_touches_only_its_machines_witness :
  st_contents run_after VMS !! 8%Z = st_contents run_store VMS !! 8%Z ∧ (dget "name" <$> st_contents run_after VMS !! 7%Z) = Some (PStr "web") ∧
  ∃ d', st_contents run_after VMS !! 7%Z = Some d' ∧ dget "disk" d' = PInt 10.
Proof.
  split_and!; [vm_compute; reflexivity..|].
  destruct (vm_apply_touches_only_its_machines "..." no_floats st_contents [run_host] run_config true run_store (Ok tt) run_after run_succeeds
    VMS 7%Z run_row run_row_stored) as (d' & E & [->|(_ & _ & _ & _ & H)]).
  - exists run_row. split; [exact E|reflexivity].
  - exists d'. split; [exact E|]. rewrite H; [reflexivity|discriminate|]. right. right. split; [reflexivity|].
    exists run_disk. split; [exact run_disk_stored|reflexivity].
Defined.

Lemma vm_apply_converges_witness :
  length run_contexts = 2%nat ∧
  ∃ cs', sample_plan_of run_after = (Ok (3%Z, cs'), run_after) ∧ Forall (λ c, ∃ vm r, c = MatchVM vm r []) cs' ∧ length cs' = 2%nat ∧
    sample_run_of run_after = (Ok tt, run_after).
Proof.
  split; [reflexivity|].
  destruct (vm_apply_converges "..." no_floats st_contents [run_host] run_config run_store 3 run_contexts run_store run_after run_after run_inventory run_after
    [run_disk] run_after run_planned run_succeeds)
    as (cs' & H1 & H2 & H3 & H4 & _).
  - decided.
  - decided.
  - exact run_fields_wf.
  - reflexivity.
  - exact run_inventory_read.
  - reflexivity.
  - exact run_disks_read.
  - exists cs'. split; [exact H1|]. split; [exact H2|]. split; [exact H3|exact H4].
Defined.
