(* ===== verification/Planning.v ===== *)
(** * The recording facade (application/planning_netbox.py)

    The executors are run on a facade of NetBox that passes reads through, answers
    them with the writes it has recorded laid over them, and writes nothing. The
    facade is itself a [NetBoxApi], so that a run on it is the executor's own code,
    and it can be laid over another facade. The records an executor holds are
    references to the facade's copies; they are named here by their ids. The
    metrics of [planning_read] are not modelled. *)

From S2P Require Import Prelude PyValue NetBox SourceConfig SyncPlan.
From stdpp Require Import base list strings gmap pretty.
From Stdlib Require Import ZArith Lia Ascii.
Local Open Scope string_scope.
#[local] Arguments py_eqb _ _ : simpl never.

(** ** PlanningRecord *)

(** [pr_base] is the record of the layer below; a planned creation has none. *)
Record pl_record := mkPR { pr_base : option nb_record; pr_original : pydict; pr_baseline : pydict; pr_changes : pydict }.

Definition wrap_record (r : nb_record) : pl_record :=
  let data := rec_data r in
  mkPR (Some r) data data (match dlookup "custom_fields" data with Some v => [("custom_fields", v)] | None => [] end).
Definition created_record (values : pydict) : pl_record := mkPR None values values values.

Definition pr_serialize (r : pl_record) : pydict := dupdate (pr_original r) (pr_changes r).
(** [record.name]. *)
Definition pr_attr (name : string) (r : pl_record) : result exn pyval :=
  match dlookup name (pr_changes r) with
  | Some v => Ok v
  | None => match pr_base r with Some b => Ok (field name b) | None => Err (OtherException "AttributeError" None) end
  end.
(** [record.name = value]. *)
Definition pr_assign (name : string) (v : pyval) (r : pl_record) : pl_record :=
  mkPR (pr_base r) (pr_original r) (pr_baseline r) (dset name v (pr_changes r)).
(** [record.id], an integer. *)
Definition pr_id (r : pl_record) : Z :=
  match dlookup "id" (pr_changes r), pr_base r with
  | Some (PInt z), _ => z
  | _, Some b => rec_id b
  | _, None => 0
  end.

(** [{key: source.get(key) for key in changes}]. *)
Definition before_of (source changes : pydict) : pydict := (λ kv, (kv.1, dget kv.1 source)) <$> changes.

Definition pr_update (endpoint : string) (changes : pydict) (r : pl_record) : PlannedMutation * pl_record :=
  let current := pr_serialize r in
  (mkMutation OpUpdate endpoint (dget "id" current) (before_of current changes) changes,
   mkPR (pr_base r) (pr_original r) (pr_baseline r) (dupdate (pr_changes r) changes)).

Definition pr_save (endpoint : string) (r : pl_record) : option PlannedMutation * pl_record :=
  let changes := filter (λ kv, py_eqb (dget kv.1 (pr_original r)) kv.2 = false) (pr_changes r) in
  if bool_decide (changes = []) then (None, r)
  else (Some (mkMutation OpUpdate endpoint (dget "id" (pr_serialize r)) (before_of (pr_original r) changes) changes),
        mkPR (pr_base r) (dupdate (pr_original r) changes) (pr_baseline r) []).

Definition pr_delete (r : pl_record) : result exn unit := Err (OtherException "AssertionError" None).

(** What an executor reads of a record. *)
Definition view (r : pl_record) : nb_record := mkRec (pr_id r) (pr_serialize r).

(** ** Filters *)

(** [s.lstrip("-").isdigit()]. *)
Fixpoint lstrip_dash (s : string) : string :=
  match s with String c s' => if bool_decide (c = "-"%char) then lstrip_dash s' else s | EmptyString => "" end.
Definition isdigit_char (c : ascii) : bool := is_digit c || existsb (Nat.eqb (nat_of_ascii c)) [178; 179; 185]%nat.
Definition isdigit (s : string) : bool := negb (bool_decide (s = "")) && all_chars isdigit_char s.
(** [int(value) if isinstance(value, str) and value.lstrip("-").isdigit() else value]. *)
Definition as_identifier (v : pyval) : result exn pyval :=
  match v with
  | PStr s => if isdigit (lstrip_dash s) then match py_int s with Some z => Ok (PInt z) | None => Err (ValueError "invalid literal for int()") end else Ok v
  | _ => Ok v
  end.

(** [key.endswith("_id")] and [key[:-3]]. *)
Fixpoint strip_id (key : string) : option string :=
  match key with
  | EmptyString => None
  | String c key' => if bool_decide (key = "_id") then Some "" else String c <$> strip_id key'
  end.
Definition filter_field (key : string) : string := default key (strip_id key).
Definition is_id_key (key : string) : bool := bool_decide (key = "id") || match strip_id key with Some _ => true | None => false end.

Definition alternatives (expected : pyval) : list pyval := match expected with PList l => l | _ => [expected] end.
Definition actual_value (r : pl_record) (f : string) : pyval :=
  match default (dget f (pr_original r)) (dlookup f (pr_changes r)) with PDict d => dget "id" d | v => v end.

(** [_matches]. *)
Fixpoint matches (r : pl_record) (filters : pydict) : result exn bool :=
  match filters with
  | [] => Ok true
  | (key, expected) :: filters' =>
      alts ← (if is_id_key key then mapR as_identifier (alternatives expected) else Ok (alternatives expected));
      if existsb (py_eqb (actual_value r (filter_field key))) alts then matches r filters' else Ok false
  end.

(** [_temporary] and [_remote_filters]: [None] when nothing stored can match. *)
Definition temporary (v : pyval) : bool :=
  match v with
  | PInt z => Z.ltb z 0
  | PStr (String "-" s) => isdigit s
  | _ => false
  end.
Fixpoint remote_filters (filters : pydict) : option pydict :=
  match filters with
  | [] => Some []
  | (key, value) :: filters' =>
      here ← (if is_id_key key then
                match value with
                | PList l =>
                    match filter (λ v, temporary v = false) l with [] => None | remaining => Some (PList remaining) end
                | _ => if temporary value then None else Some value
                end
              else Some value);
      rest ← remote_filters filters'; Some ((key, here) :: rest)
  end.

(** ** PlanningEndpoint *)

Record pl_endpoint := mkPE {
  pe_created : list pl_record; pe_wrapped : gmap Z pl_record; pe_next_id : Z; pe_reads : gmap (string * string) (list nb_record); pe_hidden : gset Z }.
Definition new_endpoint : pl_endpoint := mkPE [] ∅ (-1) ∅ ∅.

Record planning (W : Type) := mkPlanning { pw_under : W; pw_base_url : string; pw_endpoints : gmap string pl_endpoint; pw_mutations : list PlannedMutation }.
Arguments mkPlanning {W}.
Arguments pw_under {W}.
Arguments pw_base_url {W}.
Arguments pw_endpoints {W}.
Arguments pw_mutations {W}.

Definition new_planning {W} (base_url : string) (w : W) : planning W := mkPlanning w base_url ∅ [].

(** What a layer below tells the facade about itself: a facade allocates the ids
    of planned objects, NetBox does not. *)
Class NetBoxLayer (W : Type) := nb_allocate : option (string → M W exn Z).
Definition netbox_itself {W} : NetBoxLayer W := None.

Section Facade.
Context {W : Type} `{!NetBoxApi W} `{!NetBoxLayer W}.
Abbreviation P := (planning W).

Definition nested : bool := match nb_allocate with Some _ => true | None => false end.
Definition endpoint (e : string) (p : P) : pl_endpoint := default new_endpoint (pw_endpoints p !! e).
Definition put_endpoint (e : string) (x : pl_endpoint) (p : P) : P :=
  mkPlanning (pw_under p) (pw_base_url p) (<[e := x]> (pw_endpoints p)) (pw_mutations p).
Definition on_endpoint (e : string) (f : pl_endpoint → pl_endpoint) : M P exn unit := modify (λ p, put_endpoint e (f (endpoint e p)) p).
Definition record_mutation (m : PlannedMutation) : M P exn unit :=
  modify (λ p, mkPlanning (pw_under p) (pw_base_url p) (pw_endpoints p) (pw_mutations p ++ [m])%list).
Definition under {A} (m : M W exn A) : M P exn A := λ p,
  let '(r, w) := m (pw_under p) in (r, mkPlanning w (pw_base_url p) (pw_endpoints p) (pw_mutations p)).

Definition put_wrapped (i : Z) (r : pl_record) (x : pl_endpoint) : pl_endpoint :=
  mkPE (pe_created x) (<[i := r]> (pe_wrapped x)) (pe_next_id x) (pe_reads x) (pe_hidden x).
Definition put_created (l : list pl_record) (x : pl_endpoint) : pl_endpoint := mkPE l (pe_wrapped x) (pe_next_id x) (pe_reads x) (pe_hidden x).
Definition put_read (k : string * string) (l : list nb_record) (x : pl_endpoint) : pl_endpoint :=
  mkPE (pe_created x) (pe_wrapped x) (pe_next_id x) (<[k := l]> (pe_reads x)) (pe_hidden x).
Definition put_hidden (i : Z) (x : pl_endpoint) : pl_endpoint :=
  mkPE (pe_created x) (pe_wrapped x) (pe_next_id x) (pe_reads x) ({[i]} ∪ pe_hidden x).
Definition put_next (z : Z) (x : pl_endpoint) : pl_endpoint := mkPE (pe_created x) (pe_wrapped x) z (pe_reads x) (pe_hidden x).

(** [_wrap]: a record read from below is never one of this layer's creations. *)
Definition wrap (e : string) (r : nb_record) : M P exn pl_record :=
  x ← gets (endpoint e);
  match pe_wrapped x !! rec_id r with
  | Some known => mret known
  | None => on_endpoint e (put_wrapped (rec_id r) (wrap_record r));; mret (wrap_record r)
  end.
Fixpoint wrap_all (e : string) (l : list nb_record) : M P exn (list pl_record) :=
  match l with
  | [] => mret []
  | r :: l' => x ← wrap e r; xs ← wrap_all e l'; mret (x :: xs)
  end.

(** [_read]. *)
Definition read (e : string) (name : string) (filters : pydict) (call : M W exn (list nb_record)) : M P exn (list nb_record) :=
  if nested then under call
  else
    let key := (name, json_spaced (PDict filters)) in
    x ← gets (endpoint e);
    match pe_reads x !! key with
    | Some l => mret l
    | None => l ← under call; on_endpoint e (put_read key l);; mret l
    end.

Definition id_leb (a b : pl_record) : bool := Z.leb (pr_id a) (pr_id b).

(** [all]. *)
Definition pl_all (e : string) : M P exn (list nb_record) :=
  rows ← read e "all" [] (nb_all e);
  x ← gets (endpoint e);
  wrapped ← wrap_all e (filter (λ r, rec_id r ∉ pe_hidden x) rows);
  mret (view <$> isort id_leb (wrapped ++ pe_created x)).

(** The overlay of [filter]: records that match, and records that no longer do. *)
Definition relations_changed (r : pl_record) (filters : pydict) : bool :=
  existsb (λ f, negb (py_eqb (dget f (pr_serialize r)) (dget f (pr_baseline r)))) (filter_field <$> dkeys filters).
Fixpoint overlay (filters : pydict) (rs : list pl_record) (found : gmap Z pl_record) : result exn (gmap Z pl_record) :=
  match rs with
  | [] => Ok found
  | r :: rs' =>
      m ← matches r filters;
      overlay filters rs'
        (if (m : bool) then <[pr_id r := r]> found
         else if bool_decide (is_Some (found !! pr_id r)) && relations_changed r filters then delete (pr_id r) found else found)
  end.
Definition pl_find (e : string) (filters : pydict) : M P exn (list pl_record) :=
  rows ← match (if nested then Some filters else remote_filters filters) with
         | None => mret []
         | Some remote => read e "filter" remote (nb_filter e remote)
         end;
  wrapped ← wrap_all e rows;
  x ← gets (endpoint e);
  found ← lift (overlay filters ((map_to_list (pe_wrapped x)).*2 ++ pe_created x) (list_to_map ((λ r, (pr_id r, r)) <$> wrapped)));
  mret (isort id_leb (filter (λ r, pr_id r ∉ pe_hidden x) (map_to_list found).*2)).
Definition pl_filter (e : string) (filters : pydict) : M P exn (list nb_record) := rs ← pl_find e filters; mret (view <$> rs).

(** [get]: by an id that is known, or by filters. *)
Definition known_id (filters : pydict) : result exn (option Z) :=
  match filters with
  | [(key, v)] => if bool_decide (key = "id") then i ← as_identifier v; Ok (match i with PInt z => Some z | _ => None end) else Ok None
  | _ => Ok None
  end.
Definition only_one (rs : list pl_record) : M P exn (option pl_record) :=
  match rs with [] => mret None | [r] => mret (Some r) | _ => raise (ValueError "Multiple records match") end.
Definition pl_get_record (e : string) (filters : pydict) : M P exn (option pl_record) :=
  identifier ← lift (known_id filters);
  x ← gets (endpoint e);
  match identifier with
  | Some i =>
      if bool_decide (i ∈ pe_hidden x) then mret None
      else match pe_wrapped x !! i, list_find (λ r, pr_id r = i) (pe_created x) with
           | Some r, _ => mret (Some r)
           | None, Some (_, r) => mret (Some r)
           | None, None =>
               if nested then
                 below ← under (nb_get e [("id", PInt i)]);
                 match below with None => mret None | Some b => r ← wrap e b; mret (Some r) end
               else rs ← pl_find e filters; only_one rs
           end
  | None => rs ← pl_find e filters; only_one rs
  end.
Definition pl_get (e : string) (filters : pydict) : M P exn (option nb_record) :=
  r ← pl_get_record e filters; mret (view <$> r).

(** [_allocate_id]: a nested facade asks the one below. *)
Definition allocate (e : string) : M P exn Z :=
  match nb_allocate with
  | Some below => under (below e)
  | None => x ← gets (endpoint e); on_endpoint e (put_next (pe_next_id x - 1));; mret (pe_next_id x)
  end.

(** [create]: the id is allocated even when the fields bring one. *)
Definition pl_create (e : string) (fields : pydict) : M P exn nb_record :=
  i ← allocate e;
  let values := match dlookup "id" fields with Some _ => fields | None => dset "id" (PInt i) fields end in
  x ← gets (endpoint e);
  on_endpoint e (put_created (pe_created x ++ [created_record values]));;
  record_mutation (mkMutation OpCreate e (dget "id" values) [] values);;
  mret (view (created_record values)).

(** [record.update(changes)] for a record this layer handed out. *)
Definition replace_created (i : Z) (r : pl_record) (l : list pl_record) : list pl_record := (λ c, if bool_decide (pr_id c = i) then r else c) <$> l.
Definition pl_update (e : string) (i : Z) (changes : pydict) : M P exn unit :=
  x ← gets (endpoint e);
  match pe_wrapped x !! i, list_find (λ r, pr_id r = i) (pe_created x) with
  | Some r, _ =>
      let '(m, r') := pr_update e changes r in
      on_endpoint e (put_wrapped i r');; record_mutation m
  | None, Some (_, r) =>
      let '(m, r') := pr_update e changes r in
      on_endpoint e (put_created (replace_created i r' (pe_created x)));; record_mutation m
  | None, None => raise (OtherException "AttributeError" None)
  end.

#[export] Instance planning_api : NetBoxApi P := {|
  nb_all := pl_all; nb_filter := pl_filter; nb_get := pl_get; nb_create := pl_create; nb_update := pl_update |}.
#[export] Instance planning_layer : NetBoxLayer P := Some allocate.

(** ** simulate_vm_replacement *)

Fixpoint rstrip_slash (s : string) : string :=
  match s with
  | String c s' => if all_chars (λ d, bool_decide (d = "/"%char)) s then "" else String c (rstrip_slash s')
  | EmptyString => ""
  end.
Fixpoint removesuffix_api (s : string) : string :=
  match s with String c s' => if bool_decide (s = "/api") then "" else String c (removesuffix_api s') | EmptyString => "" end.

Definition kind_endpoint (kind : pyval) : result exn string :=
  match kind with
  | PStr k =>
      if bool_decide (k = "vminterface") then Ok "virtualization.interfaces"
      else if bool_decide (k = "disk") then Ok "virtualization.virtual_disks"
      else if bool_decide (k = "mac") then Ok "dcim.mac_addresses" else Err (KeyError k)
  | _ => Err (KeyError "kind")
  end.
(** [for kind, pk in children]; ids that are no integers hide nothing. *)
Definition hide_child (child : pyval) : M P exn unit :=
  match child with
  | PList [kind; pk] =>
      e ← lift (kind_endpoint kind);
      match pk with PInt z => on_endpoint e (put_hidden z) | PBool b => on_endpoint e (put_hidden (if b then 1 else 0)) | _ => mret tt end
  | _ => raise (ValueError "not enough values to unpack")
  end.

Definition VM_ENDPOINT : string := "virtualization.virtual_machines".
Definition put_record (i : Z) (r : pl_record) (x : pl_endpoint) : pl_endpoint :=
  match pe_wrapped x !! i with Some _ => put_wrapped i r x | None => put_created (replace_created i r (pe_created x)) x end.

Definition simulate_vm_replacement (identifier : Z) (body : pyval) : M P exn unit :=
  found ← pl_get_record VM_ENDPOINT [("id", PInt identifier)];
  vm ← require found (OtherException "AttributeError" None);
  let before := pr_serialize vm in
  identity ← lift (py_item "new_identity" body);
  current ← lift (attr_get "sync_identities" (py_or (dget "custom_fields" before) (PDict [])));
  if py_eqb current (PList [identity]) then mret tt
  else
    source ← lift (py_item "source_instance" body);
    name ← lift (py_item "name" body);
    let kept := match dget "custom_fields" before with PDict d => d | _ => [] end in
    let fields := dupdate kept [("sync_identities", PList [identity]);
                                ("sync_original_names", PDict [("esxi/" +:+ py_str source +:+ "/vm", name)])] in
    on_endpoint VM_ENDPOINT (put_record identifier
      (mkPR (pr_base vm) (pr_original vm) (pr_baseline vm) (dupdate (pr_changes vm) [("name", name); ("custom_fields", PDict fields)])));;
    expected ← lift (py_item "expected" body);
    children ← lift (py_item "children" expected);
    items ← lift (py_iter children);
    forM items hide_child;;
    url ← gets pw_base_url;
    record_mutation (mkMutation OpReplace VM_ENDPOINT (PInt identifier)
      [("custom_fields", dget "custom_fields" before); ("replacement_evidence", expected);
       ("replacement_card_url", PStr (removesuffix_api (rstrip_slash url) +:+ "/virtualization/virtual-machines/" +:+ pretty identifier +:+ "/"))]
      [("name", name); ("custom_fields", PDict fields)]).
End Facade.

(** After [save] the record shows the new value through [serialize], but its
    attribute is the old one again: [save] empties the changes [__getattr__] reads. *)
Lemma saved_attribute_is_old e b name v :
  name ≠ "custom_fields" → py_eqb (field name b) v = false →
  let r := (pr_save e (pr_assign name v (wrap_record b))).2 in
  pr_attr name r = Ok (field name b) ∧ dget name (pr_serialize r) = v.
Proof.
  intros Hn Hv. unfold pr_save. cbn [pr_changes pr_original pr_assign wrap_record pr_baseline pr_base].
  set (changes := filter _ _). assert (NoDup (dkeys changes) ∧ (name, v) ∈ changes) as [Hnd Hin].
  { unfold changes. split.
    - apply (NoDup_fmap_filter fst). apply NoDup_dset. destruct (dlookup "custom_fields" (rec_data b)); [apply NoDup_singleton|constructor].
    - apply list_elem_of_filter. split; [exact Hv|]. apply dlookup_elem. by rewrite dlookup_dset, decide_True. }
  rewrite bool_decide_eq_false_2 by (intros E; rewrite E in Hin; by apply elem_of_nil in Hin). cbn [snd].
  unfold pr_attr, pr_serialize. cbn [pr_changes dlookup pr_base pr_original dupdate foldl]. split; [done|].
  unfold dget. rewrite dlookup_dupdate by done. by rewrite (dlookup_NoDup name v).
Qed.
