(* ===== verification/PlanningExact.v ===== *)
(** * A dry run is exact (application/planning_netbox.py with netbox_vm_apply.py)

    The machine executor run on a fresh recording facade leaves NetBox alone, and
    the mutations it records, replayed in order, are the run on NetBox itself: what
    the operator reviews is what is written. *)

From S2P Require Import Prelude PyValue NetBox Discovery SourceIdentity Metadata SourceConfig SyncPlan PlanTheory VmApply VmConverge VmRun Planning.
From stdpp Require Import base list strings gmap.
From Stdlib Require Import ZArith Lia Ascii.
Local Open Scope string_scope.
#[local] Arguments py_eqb _ _ : simpl never.
#[local] Existing Instance netbox_itself.

(** ** Fresh records *)

Lemma dset_same k v d : dlookup k d = Some v → dset k v d = d.
Proof. induction d as [|[k1 v1] d IH]; [done|]. simpl. case_bool_decide; [by intros [= ->]; subst|]. intros Hd. by rewrite IH. Qed.

Lemma view_wrap b : view (wrap_record b) = b.
Proof.
  unfold view, pr_id, pr_serialize, wrap_record. cbn [pr_original pr_changes pr_base]. destruct (dlookup "custom_fields" (rec_data b)) as [v|] eqn:E.
  - cbn [dlookup]. rewrite bool_decide_eq_false_2 by done. unfold dupdate. cbn [foldl fst snd]. rewrite dset_same by done. by destruct b.
  - by destruct b.
Qed.
Lemma pr_id_wrap b : pr_id (wrap_record b) = rec_id b.
Proof. change (pr_id (wrap_record b)) with (rec_id (view (wrap_record b))). by rewrite view_wrap. Qed.
Lemma serialize_wrap b : pr_serialize (wrap_record b) = rec_data b.
Proof. change (pr_serialize (wrap_record b)) with (rec_data (view (wrap_record b))). by rewrite view_wrap. Qed.

(** A record of the facade that is an untouched copy of a stored one. *)
Definition copy_of (t : table) (i : Z) (r : pl_record) : Prop := ∃ b, r = wrap_record b ∧ b ∈ records t ∧ rec_id b = i.
(** A dictionary NetBox stores has no key twice. *)
Definition wf_rows (t : table) : Prop := map_Forall (λ _ d, wf_pyval (PDict d)) t.
Lemma copy_unique t i r r' : copy_of t i r → copy_of t i r' → r = r'.
Proof.
  intros (b & -> & Hb & <-) (b' & -> & Hb' & E). f_equal. apply elem_of_records in Hb, Hb'. rewrite E in Hb'. destruct b, b'; simpl in *. congruence.
Qed.
Lemma copy_id t i r : copy_of t i r → pr_id r = i.
Proof. intros (b & -> & _ & <-). apply pr_id_wrap. Qed.
Lemma copy_unchanged t i r q : wf_rows t → copy_of t i r → relations_changed r q = false.
Proof.
  intros Hwf (b & -> & Hb & _). apply elem_of_records in Hb. apply Hwf in Hb. unfold relations_changed. rewrite serialize_wrap. cbn [pr_baseline wrap_record].
  induction (filter_field <$> dkeys q) as [|f l IH]; [done|]. cbn [existsb]. by rewrite py_eqb_refl by (by apply wf_get).
Qed.

(** The overlay of untouched copies adds the ones that match. *)
Lemma overlay_copies t q rs found found' :
  wf_rows t → Forall (λ r, copy_of t (pr_id r) r) rs → map_Forall (λ i r, copy_of t i r) found → overlay q rs found = Ok found' →
  map_Forall (λ i r, copy_of t i r) found' ∧
  ∀ i r, found' !! i = Some r ↔ found !! i = Some r ∨ (r ∈ rs ∧ pr_id r = i ∧ matches r q = Ok true).
Proof.
  intros Hwf Hrs. revert found. induction Hrs as [|r rs Hr Hrs IH]; intros found Hf H; cbn [overlay] in H.
  { injection H as <-. split; [done|]. intros i r. rewrite elem_of_nil. tauto. }
  apply result_bind_Ok in H as (m & Hm & H). rewrite (copy_unchanged _ _ _ q Hwf Hr), andb_false_r in H. destruct m.
  - apply IH in H as [Hf' H]; [|by apply map_Forall_insert_2]. split; [done|]. intros i r'. rewrite H. rewrite elem_of_cons, lookup_insert_Some.
    split.
    + intros [[[E <-]|[E Hi]]|(Hin & Hid & Hm')]; [right; split; [by left|done]|by left|right; split; [by right|done]].
    + intros [Hi|([->|Hin] & Hid & Hm')]; [|left; by left|right; done].
      destruct (decide (pr_id r = i)) as [E|E]; [|left; by right]. left. left. split; [done|]. rewrite E in Hr. exact (copy_unique _ _ _ _ Hr (Hf i r' Hi)).
  - apply IH in H as [Hf' H]; [|done]. split; [done|]. intros i r'. rewrite H, elem_of_cons.
    split; [intros [?|(? & ? & ?)]; auto|]. intros [?|([->|?] & ? & Hm')]; [by left|by rewrite Hm in Hm'|by auto].
Qed.

(** The copies of some rows, by id. *)
Lemma copies_by_id (rows : list nb_record) :
  NoDup (rec_id <$> rows) →
  ∀ i r, (list_to_map ((λ r, (pr_id r, r)) <$> (wrap_record <$> rows)) : gmap Z pl_record) !! i = Some r ↔ ∃ b, r = wrap_record b ∧ b ∈ rows ∧ rec_id b = i.
Proof.
  intros Hnd i r. rewrite <-elem_of_list_to_map.
  - rewrite <-list_fmap_compose, list_elem_of_fmap. split.
    + intros (b & E & Hb). simpl in E. injection E as -> ->. exists b. by rewrite pr_id_wrap.
    + intros (b & -> & Hb & <-). exists b. simpl. by rewrite pr_id_wrap.
  - rewrite <-!list_fmap_compose. rewrite (list_fmap_ext _ rec_id); [done|]. intros n b _. apply pr_id_wrap.
Qed.

Section Facade.
Context {W : Type} `{!NetBoxApi W} (contents : W → string → table) `{!NetBoxLaws W contents} `{!NetBoxQueries W contents}.
Abbreviation P := (planning W).

(** ** Reading on a facade that has recorded nothing *)

(** The facade of a NetBox with these contents, before any write. *)
Record pristine (t : string → table) (p : P) : Prop := {
  pri_under : contents (pw_under p) = t;
  pri_quiet : pw_mutations p = [];
  pri_created e : pe_created (endpoint e p) = [];
  pri_hidden e : pe_hidden (endpoint e p) = ∅;
  pri_next e : pe_next_id (endpoint e p) = (-1)%Z;
  pri_wrapped e : map_Forall (λ i r, copy_of (t e) i r) (pe_wrapped (endpoint e p)) }.

Lemma pristine_new url w : pristine (contents w) (new_planning url w).
Proof. by split. Qed.

Lemma endpoint_put e e' x (p : P) : endpoint e' (put_endpoint e x p) = if decide (e' = e) then x else endpoint e' p.
Proof. unfold endpoint, put_endpoint. cbn [pw_endpoints]. case_decide; [subst; by rewrite lookup_insert_eq|by rewrite lookup_insert_ne]. Qed.

(** What a read may change: its own endpoint's copies and cache. *)
Definition read_step (e : string) (p p' : P) : Prop :=
  (∀ e', e' ≠ e → endpoint e' p' = endpoint e' p) ∧ (∀ i, is_Some (pe_wrapped (endpoint e p) !! i) → is_Some (pe_wrapped (endpoint e p') !! i)).
Lemma read_step_refl e p : read_step e p p.
Proof. done. Qed.
Lemma read_step_trans e p1 p2 p3 : read_step e p1 p2 → read_step e p2 p3 → read_step e p1 p3.
Proof. intros [H1 H2] [H3 H4]. split; [intros e' He; by rewrite H3, H1|auto]. Qed.

Lemma put_pristine t e x p :
  pristine t p → pe_created x = [] → pe_hidden x = ∅ → pe_next_id x = (-1)%Z → map_Forall (λ i r, copy_of (t e) i r) (pe_wrapped x) →
  pristine t (put_endpoint e x p).
Proof.
  intros [Hu Hq Hc Hh Hn Hw] H1 H2 H3 H4. split; [done|done|..]; intros e'; rewrite endpoint_put; case_decide; subst; auto.
Qed.

Lemma wrap_pristine t e b p :
  pristine t p → b ∈ records (t e) →
  ∃ p', wrap e b p = (Ok (wrap_record b), p') ∧ pristine t p' ∧ read_step e p p' ∧ pw_under p' = pw_under p ∧
    pe_reads (endpoint e p') = pe_reads (endpoint e p) ∧ pe_wrapped (endpoint e p') = <[rec_id b := wrap_record b]> (pe_wrapped (endpoint e p)).
Proof.
  intros Hp Hb. unfold wrap, gets, mbind, M_bind, on_endpoint, modify, mret, M_ret. assert (copy_of (t e) (rec_id b) (wrap_record b)) as Hcopy by (by exists b).
  destruct (pe_wrapped (endpoint e p) !! rec_id b) as [known|] eqn:E.
  - assert (known = wrap_record b) as -> by (eapply copy_unique; [exact (pri_wrapped _ _ Hp e _ _ E)|done]).
    exists p. split_and!; try done. by rewrite insert_id.
  - eexists. split; [done|]. rewrite !endpoint_put, decide_True by done. unfold put_wrapped. cbn [pe_reads pe_wrapped]. split_and!; try done.
    + apply put_pristine; cbn [pe_created pe_hidden pe_next_id pe_wrapped]; try done; [by apply (pri_created _ _ Hp)|by apply (pri_hidden _ _ Hp)|by apply (pri_next _ _ Hp)|].
      apply map_Forall_insert_2; [done|]. by apply (pri_wrapped _ _ Hp).
    + split.
      * intros e' He. by rewrite endpoint_put, decide_False.
      * intros i Hi. rewrite endpoint_put, decide_True by done. cbn [pe_wrapped]. apply lookup_insert_is_Some'. by right.
Qed.

Lemma wrap_all_pristine t e l : ∀ p,
  pristine t p → Forall (λ b, b ∈ records (t e)) l →
  ∃ p', wrap_all e l p = (Ok (wrap_record <$> l), p') ∧ pristine t p' ∧ read_step e p p' ∧ pw_under p' = pw_under p ∧
    pe_reads (endpoint e p') = pe_reads (endpoint e p) ∧
    ∀ i, is_Some (pe_wrapped (endpoint e p') !! i) ↔ is_Some (pe_wrapped (endpoint e p) !! i) ∨ i ∈ rec_id <$> l.
Proof.
  induction l as [|b l IH]; intros p Hp Hl.
  { exists p. split_and!; try done. intros i. rewrite elem_of_nil. tauto. }
  apply Forall_cons in Hl as [Hb Hl]. destruct (wrap_pristine t e b p Hp Hb) as (p1 & E1 & Hp1 & S1 & U1 & R1 & W1).
  destruct (IH p1 Hp1 Hl) as (p2 & E2 & Hp2 & S2 & U2 & R2 & W2). exists p2. cbn [wrap_all]. rewrite (bind_step _ _ _ _ _ E1), (bind_step _ _ _ _ _ E2).
  split_and!; [done|done|by eapply read_step_trans|congruence|congruence|]. intros i. rewrite W2, W1, lookup_insert_is_Some', fmap_cons, elem_of_cons. naive_solver.
Qed.

Lemma under_reads {A} (m : M W exn A) (p : P) t r p' :
  under m p = (r, p') → pristine t p → (∀ w r w', m w = (r, w') → contents w' = contents w) →
  pristine t p' ∧ (∀ e, endpoint e p' = endpoint e p) ∧ ∃ w', m (pw_under p) = (r, w').
Proof.
  unfold under. destruct (m (pw_under p)) as [r1 w1] eqn:E. intros [= <- <-] [Hu Hq Hc Hh Hn Hw] Hm. apply Hm in E as E'.
  split_and!; [split; cbn [pw_under pw_mutations]; [congruence|done..]|done|by exists w1].
Qed.

(** A read that is not cached reaches NetBox, and its answer is kept. *)
Lemma read_pristine t e name q call (p : P) r p' :
  read e name q call p = (r, p') → pristine t p → pe_reads (endpoint e p) !! (name, json_spaced (PDict q)) = None →
  (∀ w r w', call w = (r, w') → contents w' = contents w) →
  pristine t p' ∧ read_step e p p' ∧ pe_wrapped (endpoint e p') = pe_wrapped (endpoint e p) ∧
  (∀ n s, n ≠ name → pe_reads (endpoint e p') !! (n, s) = pe_reads (endpoint e p) !! (n, s)) ∧
  ∃ w', call (pw_under p) = (r, w').
Proof.
  intros H Hp Hn Hc. unfold read in H. cbn [nested nb_allocate netbox_itself] in H. unfold gets in H. unfold mbind at 1, M_bind at 1 in H. rewrite Hn in H.
  apply bind_cases in H as [(x & Hx & ->)|(l & p1 & Hx & H)].
  - destruct (under_reads _ _ _ _ _ Hx Hp Hc) as (Hp' & E & w' & Hw). rewrite !E. split_and!; [done| |done|done|by exists w'].
    split; [intros; apply E|intros i; by rewrite E].
  - destruct (under_reads _ _ _ _ _ Hx Hp Hc) as (Hp' & E & w' & Hw). injection H as <- <-. rewrite endpoint_put, decide_True by done.
    unfold put_read. cbn [pe_wrapped pe_reads]. split_and!.
    + apply put_pristine; cbn [pe_created pe_hidden pe_next_id pe_wrapped]; rewrite ?E; try apply Hp; done.
    + split; [intros e' He; by rewrite endpoint_put, decide_False, E|]. intros i. rewrite endpoint_put, decide_True by done. cbn [pe_wrapped]. by rewrite E.
    + by rewrite E.
    + intros n s Hne. rewrite lookup_insert_ne, E; [done|congruence].
    + by exists w'.
Qed.

Lemma all_quiet e w r w' : nb_all e w = (r, w') → contents w' = contents w.
Proof. intros H. by apply all_reads in H as [H _]. Qed.
Lemma filter_quiet e q w r w' : nb_filter e q w = (r, w') → contents w' = contents w.
Proof. intros H. by apply filter_reads in H as [H _]. Qed.

Lemma pl_all_pristine t e (p : P) r p' :
  pl_all e p = (r, p') → pristine t p → (∀ s, pe_reads (endpoint e p) !! ("all", s) = None) →
  pristine t p' ∧ read_step e p p' ∧ (∀ s, pe_reads (endpoint e p') !! ("filter", s) = pe_reads (endpoint e p) !! ("filter", s)) ∧
  ∀ l, r = Ok l → l ≡ₚ records (t e) ∧ ∀ i, is_Some (t e !! i) → is_Some (pe_wrapped (endpoint e p') !! i).
Proof.
  intros H Hp Hn. unfold pl_all in H. apply bind_cases in H as [(x & Hx & ->)|(rows & p1 & Hx & H)].
  { destruct (read_pristine _ _ _ _ _ _ _ _ Hx Hp (Hn _) (all_quiet e)) as (Hp' & S & _ & Hr & _). split_and!; [done|done|by intros; apply Hr|done]. }
  destruct (read_pristine _ _ _ _ _ _ _ _ Hx Hp (Hn _) (all_quiet e)) as (Hp1 & S1 & W1 & R1 & w' & Hw). apply all_reads in Hw as [_ Hw].
  rewrite (pri_under _ _ Hp) in Hw. specialize (Hw rows eq_refl). unfold gets in H. unfold mbind at 1, M_bind at 1 in H.
  rewrite (pri_hidden _ _ Hp1), (pri_created _ _ Hp1) in H.
  rewrite filter_all in H by (intros; apply not_elem_of_empty). destruct (wrap_all_pristine t e rows p1 Hp1) as (p2 & E2 & Hp2 & S2 & U2 & R2 & W2).
  { apply Forall_forall. intros b Hb. by rewrite <-Hw. }
  rewrite (bind_step _ _ _ _ _ E2), app_nil_r in H. injection H as <- <-. split_and!; [done|by eapply read_step_trans|intros s; rewrite R2; by apply R1|].
  intros l [= <-]. split.
  - rewrite isort_Permutation, <-list_fmap_compose. rewrite (list_fmap_ext _ id) by (intros; apply view_wrap). by rewrite list_fmap_id.
  - intros i [d Hd]. apply W2. right. apply list_elem_of_fmap. exists (mkRec i d). split; [done|]. rewrite Hw. by apply elem_of_records.
Qed.

(** The rows NetBox is asked for. *)
Definition remote_rows (t : string → table) (e : string) (q : pydict) : list nb_record :=
  match remote_filters q with None => [] | Some q' => nb_rows e q' (t e) end.

Lemma remote_reads t e q (p : P) r p' :
  match remote_filters q with None => mret [] | Some remote => read e "filter" remote (nb_filter e remote) end p = (r, p') →
  pristine t p → (∀ s, pe_reads (endpoint e p) !! ("filter", s) = None) →
  pristine t p' ∧ read_step e p p' ∧ pe_wrapped (endpoint e p') = pe_wrapped (endpoint e p) ∧ ∀ l, r = Ok l → l ≡ₚ remote_rows t e q.
Proof.
  intros H Hp Hn. unfold remote_rows. destruct (remote_filters q) as [q'|]; [|injection H as <- <-; split_and!; [done|done|done|by intros l [= <-]]].
  destruct (read_pristine _ _ _ _ _ _ _ _ H Hp (Hn _) (filter_quiet e q')) as (Hp' & S & W' & _ & w' & Hw). split_and!; [done..|].
  intros l ->. apply filter_rows in Hw. by rewrite (pri_under _ _ Hp) in Hw.
Qed.

Lemma pl_find_pristine t e q (p : P) r p' :
  pl_find e q p = (r, p') → pristine t p → (∀ s, pe_reads (endpoint e p) !! ("filter", s) = None) → wf_rows (t e) →
  pristine t p' ∧ read_step e p p' ∧
  ∀ rs, r = Ok rs → NoDup (view <$> rs) ∧
    ∀ b, b ∈ view <$> rs ↔ b ∈ remote_rows t e q ∨
      (b ∈ records (t e) ∧ is_Some (pe_wrapped (endpoint e p) !! rec_id b) ∧ matches (wrap_record b) q = Ok true).
Proof.
  intros H Hp Hn Hwf. unfold pl_find in H. cbn [nested nb_allocate netbox_itself] in H.
  apply bind_cases in H as [(x & Hx & ->)|(rows & p1 & Hx & H)].
  { destruct (remote_reads _ _ _ _ _ _ Hx Hp Hn) as (Hp' & S & _ & _). by split_and!. }
  destruct (remote_reads _ _ _ _ _ _ Hx Hp Hn) as (Hp1 & S1 & W1 & Hrows). specialize (Hrows rows eq_refl).
  assert (Forall (λ b, b ∈ records (t e)) rows) as Hstored.
  { apply Forall_forall. intros b Hb. rewrite Hrows in Hb. unfold remote_rows in Hb. destruct (remote_filters q); [by apply rows_stored in Hb|by apply elem_of_nil in Hb]. }
  destruct (wrap_all_pristine t e rows p1 Hp1 Hstored) as (p2 & E2 & Hp2 & S2 & U2 & R2 & W2). rewrite (bind_step _ _ _ _ _ E2) in H.
  unfold gets in H. unfold mbind at 1, M_bind at 1 in H. rewrite (pri_created _ _ Hp2), (pri_hidden _ _ Hp2), app_nil_r in H.
  apply bind_cases in H as [(x & Ho & ->)|(found & p3 & Ho & H)]; [injection Ho as _ <-; split_and!; [done|by eapply read_step_trans|done]|].
  apply lift_Ok in Ho as [Ho ->]. injection H as <- <-. split_and!; [done|by eapply read_step_trans|].
  set (found0 := list_to_map ((λ r, (pr_id r, r)) <$> (wrap_record <$> rows)) : gmap Z pl_record) in *.
  assert (∀ i r, found0 !! i = Some r ↔ ∃ b, r = wrap_record b ∧ b ∈ rows ∧ rec_id b = i) as Hf0.
  { apply copies_by_id. rewrite Hrows. unfold remote_rows. destruct (remote_filters q); [apply rows_stored|constructor]. }
  destruct (overlay_copies (t e) q ((map_to_list (pe_wrapped (endpoint e p2))).*2) found0 found Hwf) as [Hcopies Hfound]; [| |exact Ho|].
  { apply Forall_forall. intros r ([i r'] & -> & Hin)%list_elem_of_fmap. apply elem_of_map_to_list in Hin. simpl.
    pose proof (pri_wrapped _ _ Hp2 e _ _ Hin) as Hc. by rewrite (copy_id _ _ _ Hc). }
  { intros i r Hi. apply Hf0 in Hi as (b & -> & Hb & <-). rewrite Forall_forall in Hstored. exists b. auto. }
  intros rs [= <-]. rewrite filter_all by (intros; apply not_elem_of_empty).
  split.
  - rewrite isort_Permutation. apply (NoDup_fmap_1 rec_id). rewrite <-!list_fmap_compose. rewrite (list_fmap_ext _ fst); [apply NoDup_fst_map_to_list|].
    intros n [i r] Hn'. simpl. apply list_elem_of_lookup_2, elem_of_map_to_list in Hn'. exact (copy_id _ _ _ (Hcopies _ _ Hn')).
  - intros b. rewrite <-Hrows, isort_Permutation, list_elem_of_fmap. split.
    + intros (r & -> & ([i r'] & -> & Hin)%list_elem_of_fmap). simpl. apply elem_of_map_to_list in Hin. pose proof (Hcopies _ _ Hin) as (c & -> & Hc & <-).
      rewrite ?pr_id_wrap, view_wrap. apply Hfound in Hin as [Hin|(Hin & _ & Hm)].
      * left. apply Hf0 in Hin as (b' & E & Hb' & _). apply (f_equal view) in E. rewrite !view_wrap in E. by subst.
      * apply list_elem_of_fmap in Hin as ([i r'] & E & Hin). simpl in E. apply elem_of_map_to_list in Hin.
        pose proof (copy_id _ _ _ (pri_wrapped _ _ Hp2 e _ _ Hin)) as Ei. rewrite <-E, pr_id_wrap in Ei. subst i.
        destruct (proj1 (W2 (rec_id c)) ltac:(by eexists)) as [Hw|Hw]; [rewrite W1 in Hw; right; split; [exact Hc|]; split; [exact Hw|]; exact Hm|].
        left. apply list_elem_of_fmap in Hw as (c' & Ec & Hc'). rewrite Forall_forall in Hstored.
        assert (c = c') as ->; [|done]. apply elem_of_records in Hc. apply Hstored, elem_of_records in Hc' as Hc''. rewrite Ec in Hc. destruct c, c'; simpl in *. congruence.
    + intros [Hb|(Hb & [r Hr] & Hm)].
      * exists (wrap_record b). split; [by rewrite view_wrap|]. apply list_elem_of_fmap. exists (rec_id b, wrap_record b). split; [done|].
        apply elem_of_map_to_list, Hfound. left. apply Hf0. by exists b.
      * exists (wrap_record b). split; [by rewrite view_wrap|]. apply list_elem_of_fmap. exists (rec_id b, wrap_record b). split; [done|].
        apply elem_of_map_to_list, Hfound. right. rewrite pr_id_wrap. split_and!; [|done|done]. apply list_elem_of_fmap. exists (rec_id b, wrap_record b). split; [done|].
        apply elem_of_map_to_list. destruct (proj2 (W2 (rec_id b))) as [r' Hr']; [left; rewrite W1; by eexists|]. rewrite Hr'. f_equal.
        eapply copy_unique; [exact (pri_wrapped _ _ Hp2 e _ _ Hr')|]. by exists b.
Qed.

(** The first query of an endpoint gives NetBox's rows. *)
Definition untouched (e : string) (p : P) : Prop := endpoint e p = new_endpoint.

Lemma first_find t e q (p : P) r p' :
  pl_find e q p = (r, p') → pristine t p → untouched e p → wf_rows (t e) →
  pristine t p' ∧ read_step e p p' ∧ ∀ rs, r = Ok rs → view <$> rs ≡ₚ remote_rows t e q.
Proof.
  intros H Hp Hun Hwf. destruct (pl_find_pristine t e q p r p' H Hp) as (Hp' & S & Hrs); [by rewrite Hun|done|]. split_and!; [done..|].
  intros rs ->. destruct (Hrs rs eq_refl) as [Hnd Hin]. apply NoDup_Permutation; [done| |].
  - unfold remote_rows. destruct (remote_filters q); [eapply NoDup_fmap_1, rows_stored|constructor].
  - intros b. rewrite Hin, Hun. split; [|by left]. intros [?|(_ & [? Hw] & _)]; [done|]. done.
Qed.

Lemma first_filter t e q (p : P) r p' :
  nb_filter e q p = (r, p') → pristine t p → untouched e p → wf_rows (t e) →
  pristine t p' ∧ read_step e p p' ∧ ∀ l, r = Ok l → l ≡ₚ remote_rows t e q.
Proof.
  intros H Hp Hun Hwf. change (nb_filter e q) with (pl_filter e q : M P exn (list nb_record)) in H. unfold pl_filter in H.
  apply bind_cases in H as [(x & Hx & ->)|(rs & p1 & Hx & H)].
  - destruct (first_find t e q p _ _ Hx Hp Hun Hwf) as (? & ? & _). by split_and!.
  - injection H as <- <-. destruct (first_find t e q p _ _ Hx Hp Hun Hwf) as (? & ? & Hrs). split_and!; [done..|]. intros l [= <-]. by apply Hrs.
Qed.

Lemma first_get t e k v (p : P) r p' :
  nb_get e [(k, PStr v)] p = (r, p') → is_id_key k = false → pristine t p → untouched e p → wf_rows (t e) →
  pristine t p' ∧ read_step e p p' ∧
  ∀ o, r = Ok o → match nb_rows e [(k, PStr v)] (t e) with [] => o = None | [x] => o = Some x | _ => False end.
Proof.
  intros H Hk Hp Hun Hwf. assert (bool_decide (k = "id") = false) as Hid by (unfold is_id_key in Hk; by apply orb_false_elim in Hk as [? _]).
  change (nb_get e [(k, PStr v)]) with (pl_get e [(k, PStr v)] : M P exn (option nb_record)) in H. unfold pl_get, pl_get_record, known_id in H. rewrite Hid in H.
  assert (remote_rows t e [(k, PStr v)] = nb_rows e [(k, PStr v)] (t e)) as Er by (unfold remote_rows, remote_filters; by rewrite Hk). rewrite <-Er.
  apply bind_cases in H as [(x & Hx & ->)|(o & p1 & Hx & H)].
  - apply bind_cases in Hx as [(y & Hy & [= <-])|(y & p2 & Hy & Hx)]; [by injection Hy|]. apply lift_Ok in Hy as [[= <-] ->].
    apply bind_cases in Hx as [(y & Hy & [= <-])|(y & p2 & Hy & Hx)]; [by injection Hy|]. apply gets_Ok in Hy as [-> ->].
    apply bind_cases in Hx as [(y & Hy & [= <-])|(rs & p2 & Hy & Hx)]; destruct (first_find t e _ p _ _ Hy Hp Hun Hwf) as (Hp2 & S2 & _); [by split_and!|].
    destruct rs as [|? [|]]; [discriminate Hx..|]. injection Hx as _ <-. by split_and!.
  - injection H as <- <-. apply bind_Ok in Hx as (y & p2 & Hy & Hx). apply lift_Ok in Hy as [[= <-] ->]. apply bind_Ok in Hx as (y & p2 & Hy & Hx).
    apply gets_Ok in Hy as [-> ->]. apply bind_Ok in Hx as (rs & p2 & Hy & Hx). destruct (first_find t e _ p _ _ Hy Hp Hun Hwf) as (Hp2 & S2 & Hrs).
    specialize (Hrs rs eq_refl). destruct rs as [|x [|]]; [| |discriminate Hx]; injection Hx as <- <-; split_and!; try done; intros o' [= <-].
    + apply Permutation_nil_l in Hrs. by rewrite <-Hrs.
    + apply Permutation_singleton_l in Hrs. rewrite <-Hrs. done.
Qed.

(** The machines of the cluster, when all machines have been read. *)
Lemma matches_cluster b c : matches (wrap_record b) [("cluster_id", PInt c)] = Ok (bool_decide (in_cluster c b)).
Proof.
  change (matches (wrap_record b) [("cluster_id", PInt c)]) with
    (if existsb (py_eqb (actual_value (wrap_record b) "cluster")) [PInt c] then Ok true else (Ok false : result exn bool)).
  cbn [existsb]. rewrite orb_false_r.
  assert (py_eqb (actual_value (wrap_record b) "cluster") (PInt c) = py_eqb (object_id (field "cluster" b)) (PInt c)) as E.
  { unfold actual_value, wrap_record, field. cbn [pr_changes pr_original].
    assert (dlookup "cluster" (match dlookup "custom_fields" (rec_data b) with Some v => [("custom_fields", v)] | None => [] end) = None) as ->
      by (by destruct (dlookup "custom_fields" (rec_data b))).
    cbn [default from_option id]. by destruct (dget "cluster" (rec_data b)). }
  rewrite E. destruct (py_eqb (object_id _) _) eqn:Ei; f_equal; symmetry; [apply bool_decide_eq_true_2|apply bool_decide_eq_false_2]; unfold in_cluster; congruence.
Qed.

(** ** The inventory on the facade *)

Lemma cluster_find t (p : P) c l p' :
  nb_filter VMS [("cluster_id", PInt c)] p = (Ok l, p') → pristine t p → wf_rows (t VMS) → (∀ s, pe_reads (endpoint VMS p) !! ("filter", s) = None) →
  (∀ i, is_Some (t VMS !! i) → is_Some (pe_wrapped (endpoint VMS p) !! i)) →
  pristine t p' ∧ read_step VMS p p' ∧ l ≡ₚ filter (in_cluster c) (records (t VMS)).
Proof.
  intros H Hp Hwf Hn Hall. change (nb_filter VMS ?q) with (pl_filter VMS q : M P exn (list nb_record)) in H. unfold pl_filter in H.
  apply bind_Ok in H as (rs & p1 & Hx & H). apply ret_Ok in H as [-> ->].
  destruct (pl_find_pristine t VMS _ p _ _ Hx Hp Hn Hwf) as (Hp' & S & Hrs). split_and!; [done..|]. destruct (Hrs rs eq_refl) as [Hnd Hin].
  assert (NoDup (filter (in_cluster c) (records (t VMS)))) as Hnd' by (apply NoDup_filter; eapply NoDup_fmap_1, records_NoDup).
  apply NoDup_Permutation; [done..|]. intros b. rewrite Hin, matches_cluster, list_elem_of_filter. split.
  - intros [Hb|(Hb & _ & [= Hc])]; [|by apply bool_decide_eq_true in Hc]. unfold remote_rows in Hb.
    destruct (remote_filters _) as [q'|] eqn:Eq; [|by apply elem_of_nil in Hb]. cbn in Eq. destruct (Z.ltb c 0); [discriminate Eq|]. injection Eq as <-.
    by rewrite cluster_rows, list_elem_of_filter in Hb.
  - intros [Hc Hb]. right. split_and!; [done| |by rewrite bool_decide_eq_true_2]. apply Hall. apply elem_of_records in Hb. by eexists.
Qed.

(** The mapping names the cluster by its id or not at all. *)
Definition mapped_by_id (config : NetBoxTargetConfig) : Prop :=
  ∀ m, mapped_cluster config = Ok m → truthy m = true → ∃ z, m = PInt z ∧ (0 ≤ z)%Z.

Lemma cluster_query_remote config m t name :
  mapped_by_id config → mapped_cluster config = Ok m →
  remote_rows t CLUSTERS (if truthy m then [("id", m)] else [("name", PStr name)]) =
  nb_rows CLUSTERS (if truthy m then [("id", m)] else [("name", PStr name)]) (t CLUSTERS).
Proof.
  intros Hm E. unfold remote_rows. destruct (truthy m) eqn:Et; [|done]. destruct (Hm m E Et) as (z & -> & Hz). cbn. by destruct (Z.ltb_spec z 0); [lia|].
Qed.

Lemma required_same t e v (p : P) p' w w' a b :
  required e [("slug", PStr v)] p = (Ok a, p') → required e [("slug", PStr v)] w = (Ok b, w') → contents w = t → pristine t p → untouched e p → wf_rows (t e) →
  a = b ∧ pristine t p' ∧ read_step e p p' ∧ contents w' = t.
Proof.
  intros Ha Hb Et Hp Hun Hwf. unfold required in Ha, Hb. apply bind_Ok in Ha as (oa & p1 & Ga & Ha). apply bind_Ok in Hb as (ob & w1 & Gb & Hb).
  destruct oa as [a'|]; [|by apply raise_Ok in Ha]. apply ret_Ok in Ha as [-> ->]. destruct ob as [b'|]; [|by apply raise_Ok in Hb]. apply ret_Ok in Hb as [-> ->].
  destruct (first_get t e "slug" v p _ _ Ga eq_refl Hp Hun Hwf) as (Hp' & S & Ho). specialize (Ho _ eq_refl).
  pose proof (get_rows _ _ _ _ _ Gb) as Hr. apply get_reads in Gb. rewrite Et in Hr, Gb.
  split_and!; [|done..]. destruct (nb_rows e _ _) as [|x [|]]; [discriminate Ho|congruence|done].
Qed.

Lemma resolve_same t site ct config m (p : P) p' w w' a b :
  resolve_cluster site ct (cluster_name config) m p = (Ok a, p') → resolve_cluster site ct (cluster_name config) m w = (Ok b, w') →
  mapped_by_id config → mapped_cluster config = Ok m → contents w = t → pristine t p → untouched CLUSTERS p → wf_rows (t CLUSTERS) →
  a = b ∧ pristine t p' ∧ read_step CLUSTERS p p' ∧ contents w' = t.
Proof.
  intros Ha Hb Hmap Em Et Hp Hun Hwf. unfold resolve_cluster in Ha, Hb. apply bind_Ok in Ha as (la & p1 & Ga & Ha). apply bind_Ok in Hb as (lb & w1 & Gb & Hb).
  destruct (first_filter t _ _ p _ _ Ga Hp Hun Hwf) as (Hp' & S & Hl). specialize (Hl la eq_refl). rewrite (cluster_query_remote config m t _ Hmap Em) in Hl.
  pose proof (filter_rows _ _ _ _ _ Gb) as Hr. apply filter_quiet in Gb. rewrite Et in Hr, Gb. rewrite <-Hr in Hl.
  pose proof (filter_Permutation (λ r, in_scope site ct r = true) _ _ Hl) as Hf.
  destruct (filter _ la) as [|x [|]]; [by apply raise_Ok in Ha| |by apply raise_Ok in Ha]. apply ret_Ok in Ha as [-> ->].
  apply Permutation_singleton_l in Hf. rewrite <-Hf in Hb. apply ret_Ok in Hb as [-> ->]. by split_and!.
Qed.

(** Both inventories name the same cluster and list the same machines. *)
Lemma inventory_same t config (p : P) p' w w' invf inv :
  prepare_vm_apply_inventory config p = (Ok invf, p') → prepare_vm_apply_inventory config w = (Ok inv, w') → mapped_by_id config →
  contents w = t → pristine t p → (∀ e, untouched e p) → (∀ e, wf_rows (t e)) →
  rec_id (inv_cluster invf) = rec_id (inv_cluster inv) ∧ inv_all invf ≡ₚ records (t VMS) ∧
  inv_target invf ≡ₚ filter (in_cluster (rec_id (inv_cluster inv))) (records (t VMS)) ∧
  pristine t p' ∧ untouched DISKS p' ∧ (∀ i, is_Some (t VMS !! i) → is_Some (pe_wrapped (endpoint VMS p') !! i)).
Proof.
  intros Hf Hr Hmap Et Hp Hun Hwf. unfold prepare_vm_apply_inventory in Hf, Hr.
  apply bind_Ok in Hf as (sf & p1 & F1 & Hf). apply bind_Ok in Hr as (sr & w1 & R1 & Hr).
  destruct (required_same t _ _ _ _ _ _ _ _ F1 R1 Et Hp (Hun _) (Hwf _)) as (-> & Hp1 & [S1 _] & Et1).
  apply bind_Ok in Hf as (cf & p2 & F2 & Hf). apply bind_Ok in Hr as (cr & w2 & R2 & Hr).
  destruct (required_same t _ _ _ _ _ _ _ _ F2 R2 Et1 Hp1) as (-> & Hp2 & [S2 _] & Et2); [unfold untouched; rewrite S1 by done; apply Hun|done|].
  apply bind_Ok in Hf as (m & p2' & F3 & Hf). apply lift_Ok in F3 as [Em ->]. apply bind_Ok in Hr as (m' & w2' & R3 & Hr). apply lift_Ok in R3 as [Em' ->].
  rewrite Em in Em'. injection Em' as <-. apply bind_Ok in Hf as (kf & p3 & F4 & Hf). apply bind_Ok in Hr as (kr & w3 & R4 & Hr).
  destruct (resolve_same t _ _ config m _ _ _ _ _ _ F4 R4 Hmap Em Et2 Hp2) as (-> & Hp3 & [S3 _] & Et3); [unfold untouched; rewrite S2, S1 by done; apply Hun|done|].
  apply bind_Ok in Hf as (af & p4 & F5 & Hf). apply bind_Ok in Hf as (tf & p5 & F6 & Hf). apply ret_Ok in Hf as [-> ->].
  apply bind_Ok in Hr as (ar & w4 & R5 & Hr). apply bind_Ok in Hr as (tr & w5 & R6 & Hr). apply ret_Ok in Hr as [-> ->]. cbn [inv_cluster inv_all inv_target].
  assert (∀ e, e ∈ [VMS; DISKS] → endpoint e p3 = new_endpoint) as Hn3.
  { intros e He. rewrite !elem_of_cons, elem_of_nil in He. rewrite S3, S2, S1 by (by destruct He as [->|[->|[]]]). apply Hun. }
  destruct (pl_all_pristine t VMS p3 _ _ F5 Hp3) as (Hp4 & [S4 _] & Hc4 & Hl4); [by rewrite Hn3 by left|]. destruct (Hl4 af eq_refl) as [Hall Hwr].
  destruct (cluster_find t p4 _ _ _ F6 Hp4 (Hwf _)) as (Hp5 & [S5 W5] & Ht); [intros s; by rewrite Hc4, Hn3 by left|done|].
  split_and!; try done.
  - unfold untouched. rewrite S5, S4 by done. apply Hn3. right. left.
  - intros i Hi. by apply W5, Hwr.
Qed.
End Facade.

(** ** The same decisions *)

Lemma forM_app {S E A} (l k : list A) (body : A → M S E unit) s : forM (l ++ k) body s = (forM l body ≫= λ _, forM k body) s.
Proof.
  revert s. induction l as [|x l IH]; intros s; [done|]. cbn [app forM]. unfold mbind, M_bind in *. destruct (body x s) as [[[]|e] s1]; [apply IH|done].
Qed.

Section Decisions.
Context (ellipsis : string) (float_int : string → result exn Z).
Abbreviation preflight := (preflight_vm ellipsis float_int).

Lemma select_none {A} (cs : list A) (ranker : A → result exn nat) :
  (∀ c, c ∈ cs → ranker c = Ok 0%nat) → select_best_identity_matches cs ranker = Ok [].
Proof.
  intros H. unfold select_best_identity_matches, NO_IDENTITY_MATCH. induction cs as [|c cs IH]; [done|]. cbn [select_best_loop].
  rewrite H by left. unfold mbind, result_bind. cbn. apply IH. intros; apply H; by right.
Qed.

Lemma name_matches_perm l l' name tenant exclude : l ≡ₚ l' → name_matches l name tenant exclude = [] → name_matches l' name tenant exclude = [].
Proof. intros E H. unfold name_matches in *. apply Permutation_nil_r. rewrite <-E. by rewrite H. Qed.

(** A decision to create or match does not depend on the order of the lists. *)
Lemma preflight_perm all_vms all' target_vms target' cluster vm c :
  all_vms ≡ₚ all' → target_vms ≡ₚ target' → NoDup all_vms → is_blocked_vm c = false →
  preflight all_vms target_vms cluster vm = Ok c → preflight all' target' cluster vm = Ok c.
Proof.
  intros Ea Et Hnd Hb H. pose proof H as Hc. destruct c as [|vm' desired|vm' existing changes]; [done| |].
  - destruct (preflight_create _ _ _ _ _ _ _ _ Hc) as (-> & Hr & Hn & changed & Hm). unfold preflight_vm, find_vm_sync_identity_matches.
    rewrite select_none; [|intros o Ho; rewrite <-Ea in Ho; destruct (preflight_ranks _ _ _ _ _ _ _ o Hc Ho) as [q Hq]; by rewrite Hq, (Hr o q Ho Hq)].
    unfold mbind at 1, result_bind at 1. by rewrite (name_matches_perm _ _ _ _ _ Et Hn), Hm.
  - destruct (preflight_match _ _ _ _ _ _ _ _ _ Hc) as (-> & Hin & (rk & Hrk & Hpos & Hmax) & Hcl & Hn & desired & changed & Hm & Hch).
    unfold preflight_vm, find_vm_sync_identity_matches.
    rewrite (select_unique all' _ (λ o, match vm_sync_identity_match_rank (custom_fields o) vm with Ok q => q | Err _ => 0%nat end) existing).
    + unfold mbind at 1, result_bind at 1. rewrite Hcl. cbn [negb]. rewrite (name_matches_perm _ _ _ _ _ Et Hn), Hm. unfold mbind at 1, result_bind at 1. by rewrite Hch.
    + by rewrite <-Ea.
    + by rewrite <-Ea.
    + intros o Ho. rewrite <-Ea in Ho. by destruct (preflight_ranks _ _ _ _ _ _ _ o Hc Ho) as [q ->].
    + by rewrite Hrk.
    + intros o Ho Hne. rewrite <-Ea in Ho. destruct (preflight_ranks _ _ _ _ _ _ _ o Hc Ho) as [q Hq]. rewrite Hrk, Hq. by eapply Hmax.
Qed.

Lemma drop_native_disk_perm disks disks' d c :
  disks ≡ₚ records d → disks' ≡ₚ records d →
  drop_native_disk (object_id ∘ field "virtual_machine" <$> disks) c = drop_native_disk (object_id ∘ field "virtual_machine" <$> disks') c.
Proof.
  intros E E'. destruct c as [| |vm existing changes]; [done..|]. cbn [drop_native_disk].
  by rewrite (native_disk_perm disks disks' d (rec_id existing) E E' : existsb _ _ = existsb _ _).
Qed.

(** A plan made of the rows of a NetBox is the plan a run on it makes. *)
Lemma planned_runs {W} `{!NetBoxApi W} (contents : W → string → table) `{!NetBoxLaws W contents} hosts config w inv w1 disks w2 cluster cs all_vms target_vms disks0 ordered :
  planned ellipsis float_int hosts (contents w VMS) (contents w DISKS) cluster cs all_vms target_vms disks0 ordered →
  prepare_vm_apply_inventory config w = (Ok inv, w1) → rec_id (inv_cluster inv) = cluster → nb_all DISKS w1 = (Ok disks, w2) →
  plan_virtual_machines ellipsis float_int hosts config w = (Ok (cluster, cs), w2).
Proof.
  intros P Hi Ec Hd. destruct (inventory_Ok contents _ _ _ _ Hi) as (E1 & Ha & Ht). rewrite Ec in Ht. apply all_reads in Hd as Hd'. destruct Hd' as [_ Hd'].
  specialize (Hd' disks eq_refl). rewrite E1 in Hd'. pose proof (pl_precheck _ _ _ _ _ _ _ _ _ _ _ P) as Hpc.
  assert (existsb is_blocked_vm cs = false) as Hnb.
  { unfold precheck in Hpc. apply result_bind_Ok in Hpc as (_ & _ & Hpc). by destruct (existsb _ _). }
  assert (∃ cs0, mapR (preflight (inv_all inv) (inv_target inv) cluster) ordered = Ok cs0 ∧
    drop_native_disk (object_id ∘ field "virtual_machine" <$> disks) <$> cs0 = cs) as (cs0 & Hm & Ecs).
  { destruct P as [Pa Pt Pd _ _ Hf _]. clear Hpc. revert Hnb. induction Hf as [|vm c vms cs (c0 & Hc0 & ->) Hf IH]; intros Hnb; [by exists []|].
    cbn [existsb] in Hnb. apply orb_false_elim in Hnb as [Hb Hnb]. destruct (IH Hnb) as (cs0 & Hm & <-).
    exists (c0 :: cs0). cbn [mapR fmap list_fmap]. rewrite (preflight_perm all_vms _ target_vms _ cluster vm c0); try done.
    - unfold mbind, result_bind. rewrite Hm. split; [done|]. cbn [fmap list_fmap]. f_equal.
      by eapply drop_native_disk_perm.
    - by rewrite Ha, Pa.
    - by rewrite Ht, Pt.
    - rewrite Pa. eapply NoDup_fmap_1, records_NoDup.
    - by destruct c0. }
  unfold plan_virtual_machines. rewrite (bind_step _ _ _ _ _ Hi), Ec. unfold prepare_vm_contexts, lift, mbind, M_bind.
  rewrite (pl_valid _ _ _ _ _ _ _ _ _ _ _ P), (pl_sorted _ _ _ _ _ _ _ _ _ _ _ P), Hm, Hd. unfold mret, M_ret. by rewrite Ecs, Hpc.
Qed.
End Decisions.

(** ** Recording and replaying *)

(** A recorded mutation carried out on NetBox: the id of a planned creation is the
    facade's own. *)
Definition replay {W} `{!NetBoxApi W} (m : PlannedMutation) : M W exn unit :=
  match mu_operation m, mu_object_id m with
  | OpCreate, _ => nb_create (mu_endpoint m) (dpop "id" (mu_after m));; mret tt
  | OpUpdate, PInt i => nb_update (mu_endpoint m) i (mu_after m)
  | _, _ => raise (OtherException "NotImplementedError" None)
  end.

Lemma dpop_dset k v d : k ∉ dkeys d → dpop k (dset k v d) = d.
Proof.
  intros Hk. unfold dpop. induction d as [|[k1 v1] d IH].
  - cbn [dset]. by rewrite filter_cons, decide_False by naive_solver.
  - cbn [dset]. unfold dkeys in Hk. rewrite fmap_cons, not_elem_of_cons in Hk. destruct Hk as [Hne Hk]. rewrite bool_decide_eq_false_2 by (simpl in Hne; congruence).
    rewrite filter_cons, decide_True by (simpl in *; congruence). by rewrite IH.
Qed.

Section Record.
Context {W : Type} `{!NetBoxApi W} (ellipsis : string).
Abbreviation P := (planning W).

(** Every stored machine has a copy under its id. *)
Definition covers (t : table) (p : P) : Prop :=
  ∀ i, is_Some (t !! i) → ∃ r, pe_wrapped (endpoint VMS p) !! i = Some r ∧ dget "id" (pr_serialize r) = PInt i ∧ NoDup (dkeys (pr_changes r)).

(** The context has something the facade can record. *)
Definition recordable (t : table) (c : vm_context) : Prop :=
  match c with
  | BlockedVM _ _ _ => False
  | CreateVM _ _ => True
  | MatchVM _ existing changes => is_Some (t !! rec_id existing) ∧ "id" ∉ dkeys changes
  end.

Lemma create_fields_no_id vm cluster desired fields :
  build_vm_create_fields ellipsis vm cluster desired = Ok fields → "id" ∉ dkeys fields.
Proof.
  unfold build_vm_create_fields. intros H. apply result_bind_Ok in H as (status & _ & H). apply Ok_inj in H as <-.
  unfold description_fields. destruct (vm_description vm); decided.
Qed.

Lemma write_records t cluster c (p : P) p' :
  write_vm ellipsis cluster c p = (Ok tt, p') → recordable t c → covers t p →
  covers t p' ∧ pw_under p' = pw_under p ∧
  ∃ ms, pw_mutations p' = (pw_mutations p ++ ms)%list ∧ ∀ w, write_vm ellipsis cluster c w = forM ms replay w.
Proof.
  destruct c as [|vm desired|vm existing changes]; intros H Hr Hc; [done| |].
  - cbn [write_vm] in H. apply bind_Ok in H as (fields & p1 & Hf & H). apply lift_Ok in Hf as [Hf ->]. apply bind_Ok in H as (r & p1 & Hcr & H). apply ret_Ok in H as [_ ->].
    pose proof (create_fields_no_id _ _ _ _ Hf) as Hid. change (nb_create VMS fields) with (pl_create VMS fields : M P exn nb_record) in Hcr.
    unfold pl_create, allocate in Hcr. cbn [nb_allocate netbox_itself] in Hcr. unfold gets, on_endpoint, record_mutation, modify, mbind, M_bind, mret, M_ret in Hcr.
    rewrite (dlookup_None _ _ Hid) in Hcr. injection Hcr as _ <-. split_and!.
    + intros i Hi. destruct (Hc i Hi) as (r' & Hr' & E). exists r'. split; [|done]. unfold endpoint at 1. cbn [pw_endpoints put_endpoint]. rewrite lookup_insert_eq.
      cbn [default from_option id pe_wrapped put_created]. unfold endpoint at 1. cbn [pw_endpoints put_endpoint]. rewrite lookup_insert_eq. exact Hr'.
    + done.
    + eexists [_]. split; [done|]. intros w. cbn [write_vm forM replay mu_operation mu_object_id mu_endpoint mu_after]. unfold lift. rewrite Hf, dpop_dset by done.
      unfold mbind, M_bind, mret, M_ret. by destruct (nb_create VMS fields w) as [[?|?] ?].
  - destruct changes as [|kv changes].
    { apply ret_Ok in H as [_ ->]. split_and!; [done..|]. exists []. by rewrite app_nil_r. }
    cbn [write_vm] in H. destruct Hr as [Hex Hid]. destruct (Hc _ Hex) as (r & Hr & E & Hnd).
    change (nb_update VMS (rec_id existing) (kv :: changes)) with (pl_update VMS (rec_id existing) (kv :: changes) : M P exn unit) in H.
    unfold pl_update, gets, pr_update, on_endpoint, record_mutation, modify, mbind, M_bind in H. rewrite Hr in H. injection H as <-. split_and!.
    + intros i Hi. unfold endpoint. cbn [pw_endpoints put_endpoint]. rewrite lookup_insert_eq. cbn [default from_option id pe_wrapped put_wrapped].
      destruct (decide (rec_id existing = i)) as [<-|Hne].
      * eexists. rewrite lookup_insert_eq. split; [done|]. cbn [pr_changes]. change (dupdate (dset kv.1 kv.2 (pr_changes r)) changes) with (dupdate (pr_changes r) (kv :: changes)).
        split; [|by apply NoDup_dupdate]. rewrite <-E. unfold pr_serialize, dget. cbn [pr_original pr_changes].
        change (dupdate (dset kv.1 kv.2 (pr_changes r)) changes) with (dupdate (pr_changes r) (kv :: changes)).
        rewrite !(dlookup_dupdate _ (pr_original r)) by (try apply NoDup_dupdate; done). by rewrite dlookup_dupdate_ne.
      * rewrite lookup_insert_ne by done. exact (Hc i Hi).
    + done.
    + eexists [_]. split; [done|]. intros w. cbn [write_vm forM replay mu_operation mu_object_id mu_endpoint mu_after]. rewrite E.
      unfold mbind, M_bind, mret, M_ret. by destruct (nb_update VMS _ _ w) as [[[]|?] ?].
Qed.

Lemma writes_record t cluster cs : ∀ (p : P) p',
  write_virtual_machines ellipsis cluster cs p = (Ok tt, p') → Forall (recordable t) cs → covers t p →
  pw_under p' = pw_under p ∧
  ∃ ms, pw_mutations p' = (pw_mutations p ++ ms)%list ∧ ∀ w, write_virtual_machines ellipsis cluster cs w = forM ms replay w.
Proof.
  induction cs as [|c cs IH]; intros p p' H Hr Hc.
  { apply ret_Ok in H as [_ ->]. split; [done|]. exists []. by rewrite app_nil_r. }
  cbn [write_virtual_machines forM] in H. apply bind_Ok in H as ([] & p1 & H1 & H). apply Forall_cons in Hr as [Hrc Hr].
  destruct (write_records t cluster c p p1 H1 Hrc Hc) as (Hc1 & U1 & ms1 & M1 & E1). destruct (IH p1 p' H Hr Hc1) as (U2 & ms2 & M2 & E2).
  split; [congruence|]. exists (ms1 ++ ms2)%list. rewrite M2, M1, app_assoc. split; [done|]. intros w. rewrite forM_app.
  change (write_virtual_machines ellipsis cluster (c :: cs) w) with ((write_vm ellipsis cluster c ≫= λ _, write_virtual_machines ellipsis cluster cs) w).
  unfold mbind, M_bind. rewrite E1. destruct (forM ms1 replay w) as [[[]|] w1]; [apply E2|done].
Qed.
End Record.

Section Exact.
Context (ellipsis : string) (float_int : string → result exn Z).
Context {W : Type} `{!NetBoxApi W} (contents : W → string → table) `{!NetBoxLaws W contents} `{!NetBoxQueries W contents}.
Abbreviation P := (planning W).

Lemma copies_cover t (p : P) :
  pristine contents t p → (∀ i, is_Some (t VMS !! i) → is_Some (pe_wrapped (endpoint VMS p) !! i)) →
  (∀ i d, t VMS !! i = Some d → dget "id" d = PInt i) → covers (t VMS) p.
Proof.
  intros Hp Hw Hid i Hi. destruct (Hw i Hi) as [r Hr]. exists r. split; [done|]. destruct (pri_wrapped _ _ _ Hp VMS i r Hr) as (b & -> & Hb & <-).
  apply elem_of_records in Hb. rewrite serialize_wrap. split; [by apply Hid|]. unfold wrap_record. cbn [pr_changes].
  destruct (dlookup "custom_fields" (rec_data b)); [apply NoDup_singleton|constructor].
Qed.

(** C8: the dry run is exact: when the machine executor has succeeded on a fresh
    recording facade of NetBox, NetBox is as it was, and a run on a NetBox with the
    same contents, whose inventory can be read, is from then on the replay of the
    recorded mutations, in order, whatever each write returns; and the plan shown to
    the operator has one executed item for each of them. *)
Theorem dry_run_is_exact hosts config url w0 p w inv w1 disks w2 :
  apply_virtual_machines ellipsis float_int hosts config true (new_planning url w0) = (Ok tt, p) →
  contents w = contents w0 → prepare_vm_apply_inventory config w = (Ok inv, w1) → nb_all DISKS w1 = (Ok disks, w2) →
  mapped_by_id config → (∀ e, wf_rows (contents w0 e)) → (∀ i d, contents w0 VMS !! i = Some d → dget "id" d = PInt i) →
  contents (pw_under p) = contents w0 ∧
  apply_virtual_machines ellipsis float_int hosts config true w = forM (pw_mutations p) replay w2 ∧
  ∀ sha256 review c shown, plan_from_mutations sha256 review c (pw_mutations p) = Ok shown →
    ∃ items, Forall2 describes (pw_mutations p) items ∧ filter executed (sp_items shown) ≡ₚ items.
Proof.
  intros Hrun Ew Hinv Hdisks Hmap Hwf Hids. unfold apply_virtual_machines in Hrun. apply bind_Ok in Hrun as ([cluster cs] & p1 & Hplan & Hwr).
  destruct (plan_parts _ _ _ _ _ _ _ _ Hplan) as (invf & p2 & disksf & ordered & Hif & Hcl & Hdf & Hv & Hs & Hm & Hpc).
  destruct (inventory_same contents (contents w0) _ _ _ _ _ _ _ Hif Hinv Hmap Ew (pristine_new contents url w0) ltac:(by intros e) Hwf)
    as (Ec & Ha & Ht & Hp2 & Hun & Hwr2).
  destruct (pl_all_pristine contents (contents w0) DISKS p2 _ _ Hdf Hp2) as (Hp1 & [S1 _] & _ & Hl); [by rewrite Hun|]. destruct (Hl disksf eq_refl) as [Hd _].
  rewrite <-Ec, Hcl in Ht. assert (planned ellipsis float_int hosts (contents w0 VMS) (contents w0 DISKS) cluster cs (inv_all invf) (inv_target invf) disksf ordered) as Pl by (by split).
  assert (plan_virtual_machines ellipsis float_int hosts config w = (Ok (cluster, cs), w2)) as Hreal.
  { eapply (planned_runs ellipsis float_int contents); [by rewrite Ew|done|congruence|done]. }
  assert (Forall (recordable (contents w0 VMS)) cs) as Hrec.
  { apply Forall_forall. intros c Hc. destruct c as [vm reason l|vm desired|vm existing changes]; [|done|].
    - unfold precheck in Hpc. apply result_bind_Ok in Hpc as (_ & _ & Hpc). destruct (existsb is_blocked_vm cs) eqn:Eb; [done|].
      assert (existsb is_blocked_vm cs = true) as Eb'; [|congruence]. apply existsb_exists. exists (BlockedVM vm reason l). split; [by apply list_elem_of_In|done].
    - assert (matched_in cs (rec_id existing) changes) as Hmi by (by exists vm, existing).
      destruct (planned_match _ _ _ _ _ _ _ _ _ _ _ _ _ Pl Hmi) as (_ & ex & _ & _ & Hex & Eid & _). apply elem_of_records in Hex. rewrite Eid in Hex.
      split; [by eexists|]. apply (proj2 (protected_unwritten _ _ _ _ _ _ _ _ _ _ _ _ _ _ "id" Pl Hmi Hex)). left. decided. }
  assert (covers (contents w0 VMS) p1) as Hcov.
  { apply (copies_cover (contents w0)); [done| |done]. intros i Hi. rewrite S1 by done. by apply Hwr2. }
  destruct (writes_record ellipsis (contents w0 VMS) cluster cs p1 p Hwr Hrec Hcov) as (U & ms & M & E). split; [rewrite U; apply Hp1|]. split; [|intros ? ? ? ?; apply plan_executes].
  unfold apply_virtual_machines. rewrite (bind_step _ _ _ _ _ Hreal), M, (pri_quiet _ _ _ Hp1). apply E.
Qed.
End Exact.

(** ** An example *)

#[local] Abbreviation dry_run := (@apply_virtual_machines "..." no_floats (planning store) (@planning_api store store_api netbox_itself) [run_host] run_config true
  (new_planning "https://netbox/api/" run_store)).
Definition recorded : planning store := Eval vm_compute in dry_run.2.

Definition run_inventory0 : VMApplyInventory := Eval vm_compute in
  match (prepare_vm_apply_inventory run_config run_store).1 with Ok inv => inv | Err _ => mkInventory (mkRec 0 []) (mkRec 0 []) [] [] end.
Lemma run_inventory0_read : prepare_vm_apply_inventory run_config run_store = (Ok run_inventory0, run_store).
Proof. vm_compute. reflexivity. Qed.
Lemma run_disks0_read : nb_all DISKS run_store = (Ok [run_disk], run_store).
Proof. vm_compute. reflexivity. Qed.
Lemma dry_run_succeeds : dry_run = (Ok tt, recorded).
Proof. vm_compute. reflexivity. Qed.
Lemma run_rows_wf e : wf_rows (st_contents run_store e).
Proof.
  unfold st_contents. destruct (st_tables run_store !! e) as [t|] eqn:E; [|by intros i d H].
  assert (map_Forall (λ _ t, map_Forall (λ _ d, wf_pyvalb (PDict d) = true) t) (st_tables run_store)) as H.
  { refine (bool_decide_eq_true_1 _ _). vm_compute. reflexivity. }
  intros i d Hd. apply wf_pyvalb_sound. exact (H e t E i d Hd).
Qed.
Lemma run_rows_ids i d : st_contents run_store VMS !! i = Some d → dget "id" d = PInt i.
Proof.
  change (st_contents run_store VMS) with (list_to_map run_vms : table). intros H%elem_of_list_to_map_2.
  unfold run_vms in H. rewrite !elem_of_cons, elem_of_nil in H. by destruct H as [[= -> ->]|[[= -> ->]|[]]].
Qed.

(** The example's review: one machine is updated, one created, and the run on the
    store is the replay of those two mutations. *)
Lemma dry_run_is_exact_witness :
  (mu_operation <$> pw_mutations recorded) = [OpUpdate; OpCreate] ∧
  sample_run_of run_store = forM (pw_mutations recorded) replay run_store.
Proof.
  split; [reflexivity|].
  destruct (dry_run_is_exact "..." no_floats st_contents [run_host] run_config "https://netbox/api/" run_store recorded run_store run_inventory0 run_store
    [run_disk] run_store dry_run_succeeds eq_refl run_inventory0_read run_disks0_read) as (_ & H & _).
  - intros m [= <-] E. discriminate E.
  - exact run_rows_wf.
  - exact run_rows_ids.
  - exact H.
Defined.
