(* ===== verification/Schema.v ===== *)
(** * The PostgreSQL schema (migrations/versions)

    The tables as finite maps from their primary keys, the constraints, views,
    triggers and functions the migrations create, and the primitives the
    repositories are written with. One [db] value is the whole database together
    with the session-level advisory locks, the clock and the supply of UUIDs. A
    [with connect()] block is a [Prelude.atomic] computation: it commits when it
    returns and leaves no change when it raises; transaction-level advisory
    locks therefore need no state of their own. A UUID is its 128-bit number, a
    timestamp a number of microseconds since 1970. *)

From S2P Require Import Prelude PyValue Calendar SourceConfig.
From stdpp Require Import base list strings gmap pretty.
From Stdlib Require Import ZArith Lia Ascii.
Local Open Scope string_scope.

(** ** Rows *)

(** [sync_runs]: the enumerations and the record of run_history.py. *)
Inductive RunStatus :=
| RUNNING | SUCCEEDED | FAILED_BEFORE_WRITE | PARTIALLY_APPLIED | OUTCOME_UNCERTAIN | BLOCKED | LOCKED | FAILED.
Inductive RunTrigger := MANUAL | SCHEDULED.

#[global] Instance RunStatus_eq_dec : EqDecision RunStatus.
Proof. solve_decision. Defined.
#[global] Instance RunTrigger_eq_dec : EqDecision RunTrigger.
Proof. solve_decision. Defined.

Record ActionCounts := mkCounts {
  count_create : Z; count_update : Z; count_no_change : Z; count_review_required : Z;
  count_blocked : Z; count_ignored : Z; count_unsupported : Z; count_retain_only : Z }.

Record SyncRun := mkRun {
  run_id : N;
  run_source_instance : string;
  run_source_type : string;
  run_trigger : RunTrigger;
  run_started_at : Z;
  run_finished_at : option Z;
  run_duration_ms : option Z;
  run_status : RunStatus;
  run_plan_digest : option string;
  run_planner_version : option string;
  run_counts : ActionCounts;
  run_error_code : option string;
  run_error_message_safe : option string;
  run_created_by : string }.

(** [sources]: the registry row is the configuration and two timestamps. *)
Record source_row := mkSourceRow { src_config : SourceConfig; src_created_at : Z; src_updated_at : Z }.

Inductive OperationStatus := OP_RUNNING | OP_READY | OP_SUCCEEDED | OP_FAILED | OP_STALE.
#[global] Instance OperationStatus_eq_dec : EqDecision OperationStatus.
Proof. solve_decision. Defined.

Record operation_row := mkOperation {
  op_source : string;
  op_kind : string;
  op_id : N;
  op_status : OperationStatus;
  op_started_at : Z;
  op_updated_at : Z;
  op_finished_at : option Z;
  op_error_code : option string;
  op_result : option pydict }.

Inductive CredentialState := CR_RETAINED_BY_REQUEST | CR_REMOVED | CR_RETAINED_SHARED_OR_LEGACY | CR_CLEANUP_FAILED.
#[global] Instance CredentialState_eq_dec : EqDecision CredentialState.
Proof. solve_decision. Defined.

Record tombstone_row := mkTombstone {
  tomb_display_name : string; tomb_removed_at : Z; tomb_credential_state : CredentialState; tomb_restored_at : option Z }.

(** Keyed by provider, anchor and source. *)
Record reservation_row := mkReservation {
  resv_operation : N; resv_actor : string; resv_created_at : Z; resv_released_at : option Z }.

Inductive RecoveryState := RC_PREPARED | RC_CREDENTIALS_PENDING | RC_RESTORED | RC_ABANDONED.
#[global] Instance RecoveryState_eq_dec : EqDecision RecoveryState.
Proof. solve_decision. Defined.

Record recovery_row := mkRecovery {
  rec_source : string; rec_actor : string; rec_revision : string; rec_plan : pyval;
  rec_state : RecoveryState; rec_created_at : Z; rec_finished_at : option Z }.

Record intent_row := mkIntent {
  intent_operation : N; intent_actor : string; intent_anchor : string; intent_fingerprint : string;
  intent_request : option pyval; intent_created_at : Z }.

Record verification_row := mkVerification {
  ver_source : string; ver_actor : string; ver_revision : string; ver_anchor : string; ver_proof : pyval; ver_created_at : Z }.

Inductive RetirementState := RT_READY | RT_SENDING | RT_UNCERTAIN | RT_SUCCEEDED | RT_FINALIZED | RT_BLOCKED.
#[global] Instance RetirementState_eq_dec : EqDecision RetirementState.
Proof. solve_decision. Defined.

Record retirement_row := mkRetirement {
  ret_operation : N;
  ret_source : string;
  ret_actor : string;
  ret_revision : string;
  ret_guard_instance : N;
  ret_plan : pydict;
  ret_state : RetirementState;
  ret_receipt : option pydict;
  ret_safe_code : option string;
  ret_remove_credentials : option bool;
  ret_created_at : Z;
  ret_finished_at : option Z;
  ret_superseded_by : option N;
  ret_local_cleanup_verified : bool }.

(** Keyed by run and operation. *)
Record reconciliation_row := mkReconciliation {
  rcn_source : string; rcn_actor : string; rcn_run_status : RunStatus; rcn_run_finished_at : Z;
  rcn_decision : pydict; rcn_valid : bool; rcn_created_at : Z }.

Record archive_row := mkArchive {
  arc_operation : N; arc_actor : string; arc_mode : string; arc_guard_instance : N; arc_receipt : pydict;
  arc_verified_at : option Z; arc_created_at : Z }.

Inductive JobState := JOB_STAGING | JOB_READY | JOB_BLOCKED | JOB_COMPLETED.
#[global] Instance JobState_eq_dec : EqDecision JobState.
Proof. solve_decision. Defined.

Record job_row := mkJob {
  job_operation : N; job_actor : string; job_payload : pydict; job_state : JobState;
  job_safe_code : option string; job_updated_at : Z }.

Inductive RemovalState := RM_WAITING | RM_BLOCKED.
#[global] Instance RemovalState_eq_dec : EqDecision RemovalState.
Proof. solve_decision. Defined.

Record removal_row := mkRemoval {
  rmv_operation : N; rmv_actor : string; rmv_revision : string; rmv_display_name : string;
  rmv_state : RemovalState; rmv_safe_code : option string; rmv_created_at : Z }.

(** ** The database *)

Record db := mkDB {
  sources : gmap string source_row;
  sync_runs : gmap N SyncRun;
  source_operations : gmap (string * string) operation_row;
  source_tombstones : gmap string tombstone_row;
  host_reservations : gmap (string * string * string) reservation_row;
  source_recoveries : gmap N recovery_row;
  registration_intents : gmap string intent_row;
  identity_verifications : gmap N verification_row;
  source_retirements : gmap N retirement_row;
  run_reconciliations : gmap (N * N) reconciliation_row;
  source_archives : gmap string archive_row;
  registration_jobs : gmap string job_row;
  removal_requests : gmap string removal_row;
  auth_state : pydict;
  auth_audit : list pydict;
  session_locks : gset string;
  clock : nat → Z;
  ticks : nat;
  uuids : nat → N;
  used_uuids : nat }.

Definition on_sources (f : _ → _) (s : db) : db :=
  mkDB (f (sources s)) (sync_runs s) (source_operations s) (source_tombstones s) (host_reservations s)
    (source_recoveries s) (registration_intents s) (identity_verifications s) (source_retirements s)
    (run_reconciliations s) (source_archives s) (registration_jobs s) (removal_requests s) (auth_state s)
    (auth_audit s) (session_locks s) (clock s) (ticks s) (uuids s) (used_uuids s).
Definition on_sync_runs (f : _ → _) (s : db) : db :=
  mkDB (sources s) (f (sync_runs s)) (source_operations s) (source_tombstones s) (host_reservations s)
    (source_recoveries s) (registration_intents s) (identity_verifications s) (source_retirements s)
    (run_reconciliations s) (source_archives s) (registration_jobs s) (removal_requests s) (auth_state s)
    (auth_audit s) (session_locks s) (clock s) (ticks s) (uuids s) (used_uuids s).
Definition on_source_operations (f : _ → _) (s : db) : db :=
  mkDB (sources s) (sync_runs s) (f (source_operations s)) (source_tombstones s) (host_reservations s)
    (source_recoveries s) (registration_intents s) (identity_verifications s) (source_retirements s)
    (run_reconciliations s) (source_archives s) (registration_jobs s) (removal_requests s) (auth_state s)
    (auth_audit s) (session_locks s) (clock s) (ticks s) (uuids s) (used_uuids s).
Definition on_source_tombstones (f : _ → _) (s : db) : db :=
  mkDB (sources s) (sync_runs s) (source_operations s) (f (source_tombstones s)) (host_reservations s)
    (source_recoveries s) (registration_intents s) (identity_verifications s) (source_retirements s)
    (run_reconciliations s) (source_archives s) (registration_jobs s) (removal_requests s) (auth_state s)
    (auth_audit s) (session_locks s) (clock s) (ticks s) (uuids s) (used_uuids s).
Definition on_host_reservations (f : _ → _) (s : db) : db :=
  mkDB (sources s) (sync_runs s) (source_operations s) (source_tombstones s) (f (host_reservations s))
    (source_recoveries s) (registration_intents s) (identity_verifications s) (source_retirements s)
    (run_reconciliations s) (source_archives s) (registration_jobs s) (removal_requests s) (auth_state s)
    (auth_audit s) (session_locks s) (clock s) (ticks s) (uuids s) (used_uuids s).
Definition on_source_recoveries (f : _ → _) (s : db) : db :=
  mkDB (sources s) (sync_runs s) (source_operations s) (source_tombstones s) (host_reservations s)
    (f (source_recoveries s)) (registration_intents s) (identity_verifications s) (source_retirements s)
    (run_reconciliations s) (source_archives s) (registration_jobs s) (removal_requests s) (auth_state s)
    (auth_audit s) (session_locks s) (clock s) (ticks s) (uuids s) (used_uuids s).
Definition on_registration_intents (f : _ → _) (s : db) : db :=
  mkDB (sources s) (sync_runs s) (source_operations s) (source_tombstones s) (host_reservations s)
    (source_recoveries s) (f (registration_intents s)) (identity_verifications s) (source_retirements s)
    (run_reconciliations s) (source_archives s) (registration_jobs s) (removal_requests s) (auth_state s)
    (auth_audit s) (session_locks s) (clock s) (ticks s) (uuids s) (used_uuids s).
Definition on_identity_verifications (f : _ → _) (s : db) : db :=
  mkDB (sources s) (sync_runs s) (source_operations s) (source_tombstones s) (host_reservations s)
    (source_recoveries s) (registration_intents s) (f (identity_verifications s)) (source_retirements s)
    (run_reconciliations s) (source_archives s) (registration_jobs s) (removal_requests s) (auth_state s)
    (auth_audit s) (session_locks s) (clock s) (ticks s) (uuids s) (used_uuids s).
Definition on_source_retirements (f : _ → _) (s : db) : db :=
  mkDB (sources s) (sync_runs s) (source_operations s) (source_tombstones s) (host_reservations s)
    (source_recoveries s) (registration_intents s) (identity_verifications s) (f (source_retirements s))
    (run_reconciliations s) (source_archives s) (registration_jobs s) (removal_requests s) (auth_state s)
    (auth_audit s) (session_locks s) (clock s) (ticks s) (uuids s) (used_uuids s).
Definition on_run_reconciliations (f : _ → _) (s : db) : db :=
  mkDB (sources s) (sync_runs s) (source_operations s) (source_tombstones s) (host_reservations s)
    (source_recoveries s) (registration_intents s) (identity_verifications s) (source_retirements s)
    (f (run_reconciliations s)) (source_archives s) (registration_jobs s) (removal_requests s) (auth_state s)
    (auth_audit s) (session_locks s) (clock s) (ticks s) (uuids s) (used_uuids s).
Definition on_source_archives (f : _ → _) (s : db) : db :=
  mkDB (sources s) (sync_runs s) (source_operations s) (source_tombstones s) (host_reservations s)
    (source_recoveries s) (registration_intents s) (identity_verifications s) (source_retirements s)
    (run_reconciliations s) (f (source_archives s)) (registration_jobs s) (removal_requests s) (auth_state s)
    (auth_audit s) (session_locks s) (clock s) (ticks s) (uuids s) (used_uuids s).
Definition on_registration_jobs (f : _ → _) (s : db) : db :=
  mkDB (sources s) (sync_runs s) (source_operations s) (source_tombstones s) (host_reservations s)
    (source_recoveries s) (registration_intents s) (identity_verifications s) (source_retirements s)
    (run_reconciliations s) (source_archives s) (f (registration_jobs s)) (removal_requests s) (auth_state s)
    (auth_audit s) (session_locks s) (clock s) (ticks s) (uuids s) (used_uuids s).
Definition on_removal_requests (f : _ → _) (s : db) : db :=
  mkDB (sources s) (sync_runs s) (source_operations s) (source_tombstones s) (host_reservations s)
    (source_recoveries s) (registration_intents s) (identity_verifications s) (source_retirements s)
    (run_reconciliations s) (source_archives s) (registration_jobs s) (f (removal_requests s)) (auth_state s)
    (auth_audit s) (session_locks s) (clock s) (ticks s) (uuids s) (used_uuids s).
Definition on_auth_state (f : _ → _) (s : db) : db :=
  mkDB (sources s) (sync_runs s) (source_operations s) (source_tombstones s) (host_reservations s)
    (source_recoveries s) (registration_intents s) (identity_verifications s) (source_retirements s)
    (run_reconciliations s) (source_archives s) (registration_jobs s) (removal_requests s) (f (auth_state s))
    (auth_audit s) (session_locks s) (clock s) (ticks s) (uuids s) (used_uuids s).
Definition on_auth_audit (f : _ → _) (s : db) : db :=
  mkDB (sources s) (sync_runs s) (source_operations s) (source_tombstones s) (host_reservations s)
    (source_recoveries s) (registration_intents s) (identity_verifications s) (source_retirements s)
    (run_reconciliations s) (source_archives s) (registration_jobs s) (removal_requests s) (auth_state s)
    (f (auth_audit s)) (session_locks s) (clock s) (ticks s) (uuids s) (used_uuids s).
Definition on_session_locks (f : _ → _) (s : db) : db :=
  mkDB (sources s) (sync_runs s) (source_operations s) (source_tombstones s) (host_reservations s)
    (source_recoveries s) (registration_intents s) (identity_verifications s) (source_retirements s)
    (run_reconciliations s) (source_archives s) (registration_jobs s) (removal_requests s) (auth_state s)
    (auth_audit s) (f (session_locks s)) (clock s) (ticks s) (uuids s) (used_uuids s).
Definition on_ticks (f : _ → _) (s : db) : db :=
  mkDB (sources s) (sync_runs s) (source_operations s) (source_tombstones s) (host_reservations s)
    (source_recoveries s) (registration_intents s) (identity_verifications s) (source_retirements s)
    (run_reconciliations s) (source_archives s) (registration_jobs s) (removal_requests s) (auth_state s)
    (auth_audit s) (session_locks s) (clock s) (f (ticks s)) (uuids s) (used_uuids s).
Definition on_used_uuids (f : _ → _) (s : db) : db :=
  mkDB (sources s) (sync_runs s) (source_operations s) (source_tombstones s) (host_reservations s)
    (source_recoveries s) (registration_intents s) (identity_verifications s) (source_retirements s)
    (run_reconciliations s) (source_archives s) (registration_jobs s) (removal_requests s) (auth_state s)
    (auth_audit s) (session_locks s) (clock s) (ticks s) (uuids s) (f (used_uuids s)).

Abbreviation DB A := (M db exn A).

(** [clock_timestamp()], or the repository's own clock: each reading is the next
    value of an arbitrary sequence. *)
Definition clock_timestamp : DB Z := λ s, (Ok (clock s (ticks s)), on_ticks S s).

(** [uuid4()]: each call is the next value of an arbitrary sequence, so that a
    collision is possible and refused by the primary keys. *)
Definition uuid4 : DB N := λ s, (Ok (uuids s (used_uuids s)), on_used_uuids S s).

Definition unique_violation : exn := DatabaseError "23505".
Definition check_violation : exn := DatabaseError "23514".

(** [str(uuid)]. *)
Fixpoint hex_digits (digits : nat) (n : N) : string :=
  match digits with
  | O => ""
  | S k => hex_digits k (n / 16) +:+ String (hex_digit (N.to_nat (n mod 16))) ""
  end.
Definition uuid_str (u : N) : string :=
  hex_digits 8 (u / 2 ^ 96) +:+ "-" +:+ hex_digits 4 (u / 2 ^ 80) +:+ "-" +:+ hex_digits 4 (u / 2 ^ 64) +:+ "-" +:+
  hex_digits 4 (u / 2 ^ 48) +:+ "-" +:+ hex_digits 12 u.

(** The rows of a table that satisfy a condition, and whether there is one. *)
Definition select {K A} `{Countable K} (P : K → A → bool) (t : gmap K A) : list (K * A) :=
  filter (λ kv, P kv.1 kv.2 = true) (map_to_list t).
Definition exists_row {K A} `{Countable K} (P : K → A → bool) (t : gmap K A) : bool :=
  existsb (λ kv, P kv.1 kv.2) (map_to_list t).
(** [UPDATE t SET f WHERE P] and [DELETE FROM t WHERE P]. *)
Definition update_where {K A} `{Countable K} (P : K → A → bool) (f : A → A) (t : gmap K A) : gmap K A :=
  map_imap (λ k r, Some (if P k r then f r else r)) t.
Definition delete_where {K A} `{Countable K} (P : K → A → bool) (t : gmap K A) : gmap K A :=
  filter (λ kv, P kv.1 kv.2 = false) t.

(** ** Constraints of [sync_runs] (migrations 0002 and 0018) *)

Definition ERROR_CODES : list string :=
  ["APPLY_LOCKED"; "PLAN_BLOCKED"; "PLAN_STALE"; "CONFIRMATION_EXPIRED"; "CONFIRMATION_INVALID";
   "CONFIRMATION_SOURCE_MISMATCH"; "FAILED_BEFORE_WRITE"; "PARTIALLY_APPLIED"; "OUTCOME_UNCERTAIN"; "APPLY_FAILED";
   "SOURCE_RECONCILIATION_REQUIRED"].

(** An [Integer] column that must not be negative. *)
Definition count_ok (z : Z) : bool := (0 <=? z)%Z && (z <=? 2147483647)%Z.

Definition counts_ok (c : ActionCounts) : bool :=
  count_ok (count_create c) && count_ok (count_update c) && count_ok (count_no_change c) &&
  count_ok (count_review_required c) && count_ok (count_blocked c) && count_ok (count_ignored c) &&
  count_ok (count_unsupported c) && count_ok (count_retain_only c).

Definition text_within (n : nat) (o : option string) : bool :=
  match o with Some s => Nat.leb (String.length s) n | None => true end.

Definition run_row_ok (r : SyncRun) : bool :=
  bool_decide (run_source_type r ∈ ["proxmox"; "esxi"]) &&
  source_instance_ok (run_source_instance r) &&
  match run_duration_ms r with Some d => (0 <=? d)%Z | None => true end &&
  match run_plan_digest r with Some d => is_digest d | None => true end &&
  match run_error_code r with Some c => bool_decide (c ∈ ERROR_CODES) | None => true end &&
  (Nat.leb 1 (String.length (run_created_by r)) && Nat.leb (String.length (run_created_by r)) 128 &&
   text_within 128 (run_planner_version r) && text_within 256 (run_error_message_safe r)) &&
  match run_status r with
  | RUNNING => negb (bool_decide (is_Some (run_finished_at r))) && negb (bool_decide (is_Some (run_duration_ms r)))
  | _ => bool_decide (is_Some (run_finished_at r)) && bool_decide (is_Some (run_duration_ms r))
  end &&
  counts_ok (run_counts r).

(** ** Views (migration 0012) *)

(** [run_reconciliations] rows that take a run out of [blocking_sync_runs]. *)
Definition reconciles (r : SyncRun) (key : N * N) (a : reconciliation_row) : bool :=
  bool_decide (key.1 = run_id r) && bool_decide (rcn_source a = run_source_instance r) &&
  bool_decide (rcn_run_status a = run_status r) && bool_decide (Some (rcn_run_finished_at a) = run_finished_at r) &&
  rcn_valid a.

Definition blocking_sync_runs (s : db) : gmap N SyncRun :=
  filter (λ kv, exists_row (reconciles kv.2) (run_reconciliations s) = false) (sync_runs s).

Definition recovery_schedule_blocked (s : db) (source : string) : bool :=
  exists_row (λ _ a, bool_decide (rcn_source a = source) && rcn_valid a &&
    negb (exists_row (λ _ r, bool_decide (run_source_instance r = rcn_source a) && bool_decide (run_trigger r = MANUAL) &&
            bool_decide (run_status r = SUCCEEDED) && (rcn_created_at a <? run_started_at r)%Z) (sync_runs s)))
    (run_reconciliations s).

(** ** Triggers on [INSERT INTO sync_runs] (migrations 0014 and 0016) *)

(** The states of the partial unique index [retirement_inflight_source]. *)
Definition ret_inflight (r : retirement_row) : bool :=
  bool_decide (ret_state r ∈ [RT_SENDING; RT_UNCERTAIN; RT_SUCCEEDED]).

Definition tombstoned (s : db) (source : string) : bool :=
  match source_tombstones s !! source with
  | Some t => negb (bool_decide (is_Some (tomb_restored_at t)))
  | None => false
  end.

Definition guard_run_source (s : db) (source : string) : bool :=
  bool_decide (is_Some (sources s !! source)) && negb (tombstoned s source) &&
  negb (bool_decide (is_Some (source_archives s !! source))) &&
  negb (exists_row (λ _ r, bool_decide (ret_source r = source) && negb (bool_decide (is_Some (ret_superseded_by r))) &&
          ret_inflight r) (source_retirements s)).

Definition guard_queued_run (s : db) (source : string) : bool :=
  negb (bool_decide (is_Some (removal_requests s !! source))).

Definition source_assignment_allowed (s : db) (source : string) : bool :=
  bool_decide (is_Some (sources s !! source)) && negb (tombstoned s source).

(** [INSERT INTO sync_runs]: the triggers, then the primary key and the checks. *)
Definition insert_run (r : SyncRun) : DB unit :=
  s ← gets id;
  raise_if (negb (guard_run_source s (run_source_instance r))) check_violation;;
  raise_if (negb (guard_queued_run s (run_source_instance r))) check_violation;;
  raise_if (negb (run_row_ok r)) check_violation;;
  raise_if (bool_decide (is_Some (sync_runs s !! run_id r))) unique_violation;;
  modify (on_sync_runs (<[run_id r := r]>)).

(** ** Walking through a handler *)

Lemma moves_clock (R : relation db) s : R s (on_ticks S s) → moves R clock_timestamp s.
Proof. done. Qed.
Lemma moves_uuid4 (R : relation db) s : R s (on_used_uuids S s) → moves R uuid4 s.
Proof. done. Qed.

Ltac inv_db :=
  repeat match goal with
  | H : clock_timestamp _ = (Ok _, _) |- _ => injection H as ? ?; subst
  | H : uuid4 _ = (Ok _, _) |- _ => injection H as ? ?; subst
  end.

Ltac db_moves_step :=
  first
    [ match goal with
      | |- moves ?R (_ ≫= _) _ => apply (moves_bind R); [|intros ? ? ?; inv_m; inv_db]
      end
    | moves_step
    | match goal with
      | |- moves ?R clock_timestamp _ => apply (moves_clock R)
      | |- moves ?R uuid4 _ => apply (moves_uuid4 R)
      | |- moves _ (match ?x with _ => _ end) _ => destruct x eqn:?
      end ].
Ltac db_moves := repeat db_moves_step.

(** ** Facts about queries *)

Lemma exists_row_true {K A} `{Countable K} (P : K → A → bool) (t : gmap K A) :
  exists_row P t = true ↔ ∃ k r, t !! k = Some r ∧ P k r = true.
Proof.
  unfold exists_row. rewrite existsb_exists. split.
  - intros ([k r] & Hin & HP). exists k, r. by rewrite <-elem_of_map_to_list, list_elem_of_In.
  - intros (k & r & Hk & HP). exists (k, r). by rewrite <-list_elem_of_In, elem_of_map_to_list.
Qed.

Lemma exists_row_false {K A} `{Countable K} (P : K → A → bool) (t : gmap K A) :
  exists_row P t = false ↔ ∀ k r, t !! k = Some r → P k r = false.
Proof.
  rewrite <-not_true_iff_false, exists_row_true. split.
  - intros Hno k r Hk. apply not_true_iff_false. naive_solver.
  - intros Hall (k & r & Hk & HP). rewrite (Hall _ _ Hk) in HP. done.
Qed.

Lemma elem_of_select {K A} `{Countable K} (P : K → A → bool) (t : gmap K A) k r :
  (k, r) ∈ select P t ↔ t !! k = Some r ∧ P k r = true.
Proof. unfold select. rewrite list_elem_of_filter, elem_of_map_to_list. naive_solver. Qed.

(** [fetchone()] of a query. *)
Lemma head_select_Some {K A} `{Countable K} (P : K → A → bool) (t : gmap K A) k r :
  head (select P t) = Some (k, r) → t !! k = Some r ∧ P k r = true.
Proof. intros Hh%head_Some_elem_of. by apply elem_of_select. Qed.

Lemma head_select_None {K A} `{Countable K} (P : K → A → bool) (t : gmap K A) :
  head (select P t) = None ↔ ∀ k r, t !! k = Some r → P k r = false.
Proof.
  rewrite head_None. split.
  - intros E k r Hk. apply not_true_iff_false. intros HP. assert ((k, r) ∈ select P t) as Hin by by apply elem_of_select.
    rewrite E in Hin. by apply not_elem_of_nil in Hin.
  - intros Hall. destruct (select P t) as [|[k r] l] eqn:E; [done|].
    assert ((k, r) ∈ select P t) as (Hk & HP)%elem_of_select by (rewrite E; left). rewrite (Hall _ _ Hk) in HP. done.
Qed.

Lemma lookup_update_where {K A} `{Countable K} (P : K → A → bool) f (t : gmap K A) k :
  update_where P f t !! k = (λ r, if P k r then f r else r) <$> t !! k.
Proof. unfold update_where. rewrite map_lookup_imap. by destruct (t !! k). Qed.

Lemma lookup_delete_where {K A} `{Countable K} (P : K → A → bool) (t : gmap K A) k r :
  delete_where P t !! k = Some r ↔ t !! k = Some r ∧ P k r = false.
Proof. unfold delete_where. by rewrite map_lookup_filter_Some. Qed.

Lemma lookup_blocking s k r :
  blocking_sync_runs s !! k = Some r ↔
  sync_runs s !! k = Some r ∧ exists_row (reconciles r) (run_reconciliations s) = false.
Proof. unfold blocking_sync_runs. by rewrite map_lookup_filter_Some. Qed.

(** ** A concrete database *)

Definition empty_db : db :=
  mkDB ∅ ∅ ∅ ∅ ∅ ∅ ∅ ∅ ∅ ∅ ∅ ∅ ∅ [] [] ∅ (λ n, (Z.of_nat n * 60000000)%Z) 0 (λ n, N.of_nat (S n)) 0.

(** One enabled source. *)
Definition sample_db : db :=
  on_sources (λ _, {[ "pve-a" := mkSourceRow sample_config 0 0 ]}) empty_db.
