(* ===== verification/PyUuid.v ===== *)
(** * Reading a UUID (the [uuid.UUID(text)] constructor)

    The source turns texts of requests, rows and providers into UUIDs with the
    constructor of the standard library, which accepts more than the canonical
    text: a [urn:uuid:] prefix, braces, dashes anywhere and whatever [int(hex, 16)]
    reads in the 32 characters that remain. *)

From S2P Require Import Prelude PyValue JsonCanonical Schema.
From stdpp Require Import base list strings.
From Stdlib Require Import ZArith Lia Ascii.
Local Open Scope string_scope.

(** [text.replace(pat, "")]: [skip] characters of a match are left to drop. *)
Fixpoint drop_all (pat : string) (skip : nat) (s : string) : string :=
  match s with
  | EmptyString => ""
  | String c s' =>
      match skip with
      | S k => drop_all pat k s'
      | O => if String.prefix pat s then drop_all pat (String.length pat - 1) s' else String c (drop_all pat 0 s')
      end
  end.

(** [text.lstrip] and [text.rstrip] of the characters of a class. *)
Fixpoint lstrip_chars (p : ascii → bool) (s : string) : string :=
  match s with String c s' => if p c then lstrip_chars p s' else s | EmptyString => "" end.
Fixpoint rstrip_chars (p : ascii → bool) (s : string) : string :=
  match s with
  | EmptyString => ""
  | String c s' => match rstrip_chars p s' with EmptyString => if p c then "" else String c "" | t => String c t end
  end.
Definition strip_chars (p : ascii → bool) (s : string) : string := rstrip_chars p (lstrip_chars p s).

Definition hex_value (c : ascii) : option N :=
  let n := nat_of_ascii c in
  if is_digit c then Some (N.of_nat (n - 48))
  else if in_range "a" "f" c then Some (N.of_nat (n - 87))
  else if in_range "A" "F" c then Some (N.of_nat (n - 55))
  else None.

(** The digits of [int(text, 16)], with single underscores between them. *)
Fixpoint hex_body (s : string) (acc : N) (digit : bool) : option N :=
  match s with
  | EmptyString => if digit then Some acc else None
  | String c s' =>
      if bool_decide (c = "_"%char) then if digit then hex_body s' acc false else None
      else match hex_value c with Some d => hex_body s' (acc * 16 + d) true | None => None end
  end.

Definition int16 (text : string) : option Z :=
  let s := strip_chars is_space text in
  let '(negative, s) := match s with
                        | String "+" s' => (false, s')
                        | String "-" s' => (true, s')
                        | _ => (false, s)
                        end in
  let s := match s with
           | String "0" (String ("x" | "X") (String "_" s')) => s'
           | String "0" (String ("x" | "X") s') => s'
           | _ => s
           end in
  n ← hex_body s 0 false;
  Some (if (negative : bool) then (- Z.of_N n)%Z else Z.of_N n).

Definition is_brace (c : ascii) : bool := one_of "{}" c.

(** [UUID(text)], [None] for its [ValueError]. *)
Definition parse_uuid (text : string) : option N :=
  let hex := drop_all "-" 0 (strip_chars is_brace (drop_all "uuid:" 0 (drop_all "urn:" 0 text))) in
  if negb (Nat.eqb (String.length hex) 32) then None
  else z ← int16 hex; if (0 <=? z)%Z && (z <? 2 ^ 128)%Z then Some (Z.to_N z) else None.

Example parse_uuid_ex :
  parse_uuid "urn:uuid:{12345678-1234-5678-1234-567812345678}" = Some 0x12345678123456781234567812345678%N ∧
  parse_uuid "+0x_0000000-000000000000000000009" = Some 9%N ∧ parse_uuid "12345678" = None.
Proof. vm_compute. done. Qed.

(** ** The canonical text reads back *)

Definition avoids (c : ascii) : string → bool := all_chars (λ d, negb (bool_decide (d = c))).

Lemma drop_all_absent c pat s : avoids c s = true → drop_all (String c pat) 0 s = s.
Proof.
  induction s as [|d s IH]; [done|]. unfold avoids. cbn [all_chars]. intros [Hd Hs]%andb_true_iff. cbn [drop_all String.prefix].
  destruct (ascii_dec c d) as [->|]; [by rewrite bool_decide_eq_true_2 in Hd|]. by rewrite IH.
Qed.

Lemma drop_dash_app a b : drop_all "-" 0 (a +:+ b) = drop_all "-" 0 a +:+ drop_all "-" 0 b.
Proof.
  induction a as [|x a IH]; [done|]. rewrite cons_append. cbn [drop_all String.prefix String.length Nat.sub].
  destruct (ascii_dec "-" x); [by destruct a, b|]. by rewrite IH.
Qed.

(** The digits of [str(uuid)]. *)
Definition hex_char (c : ascii) : Prop := ∃ d, (d < 16)%nat ∧ c = hex_digit d.
Fixpoint hex_text (s : string) : Prop := match s with EmptyString => True | String c s' => hex_char c ∧ hex_text s' end.

Lemma hex_text_app a b : hex_text (a +:+ b) ↔ hex_text a ∧ hex_text b.
Proof. induction a as [|x a IH]; [simpl; tauto|]. rewrite cons_append. cbn [hex_text]. rewrite IH. tauto. Qed.

Lemma hex_digits_text k n : hex_text (hex_digits k n).
Proof.
  revert n. induction k as [|k IH]; intros n; [done|]. cbn [hex_digits]. apply hex_text_app. split; [apply IH|]. split; [|done].
  eexists. split; [|done]. pose proof (N.mod_lt n 16). lia.
Qed.

(** A property of all sixteen digits, by computation. *)
Lemma hex_char_all (p : ascii → bool) c :
  forallb (λ d, p (hex_digit d)) (seq 0 16) = true → hex_char c → p c = true.
Proof. rewrite forallb_forall. intros H (d & Hd & ->). apply H, in_seq. lia. Qed.

Lemma hex_text_all (p : ascii → bool) s :
  forallb (λ d, p (hex_digit d)) (seq 0 16) = true → hex_text s → all_chars p s = true.
Proof.
  intros Hp. induction s as [|c s IH]; [done|]. intros [Hc Hs]. cbn [all_chars]. rewrite (hex_char_all p c Hp Hc). by apply IH.
Qed.

Lemma all_chars_app p a b : all_chars p (a +:+ b) = all_chars p a && all_chars p b.
Proof. induction a as [|x a IH]; [done|]. rewrite cons_append. cbn [all_chars]. by rewrite IH, andb_assoc. Qed.

Lemma strip_chars_clean p s : all_chars (negb ∘ p) s = true → strip_chars p s = s.
Proof.
  unfold strip_chars. intros H. assert (lstrip_chars p s = s) as ->.
  { destruct s as [|c s]; [done|]. cbn [all_chars compose] in H. apply andb_true_iff in H as [Hc%negb_true_iff _].
    cbn [lstrip_chars]. by rewrite Hc. }
  induction s as [|c s IH]; [done|]. cbn [all_chars compose] in H. apply andb_true_iff in H as [Hc%negb_true_iff Hs].
  cbn [rstrip_chars]. rewrite IH by done. rewrite Hc. by destruct s.
Qed.

Lemma length_app_string a b : String.length (a +:+ b) = (String.length a + String.length b)%nat.
Proof. induction a as [|x a IH]; [done|]. exact (f_equal S IH). Qed.
Lemma hex_digits_length k n : String.length (hex_digits k n) = k.
Proof. revert n. induction k as [|k IH]; intros n; [done|]. cbn [hex_digits]. rewrite length_app_string, IH. simpl. lia. Qed.

Lemma hex_digits_split a b n : hex_digits a (n / 16 ^ N.of_nat b) +:+ hex_digits b n = hex_digits (a + b) n.
Proof.
  revert n. induction b as [|b IH]; intros n.
  - rewrite Nat.add_0_r. cbn [hex_digits]. rewrite N.div_1_r. 
    induction (hex_digits a n) as [|x s IHs]; [done|]. exact (f_equal (String x) IHs).
  - rewrite Nat.add_succ_r. cbn [hex_digits]. rewrite <-IH, <-string_app_assoc. do 2 f_equal.
    rewrite N.Div0.div_div. f_equal. rewrite Nat2N.inj_succ, N.pow_succ_r'. reflexivity.
Qed.

Lemma hex_value_digit c : hex_char c → hex_value c = Some (default 0%N (hex_value c)).
Proof.
  intros Hc. pose proof (hex_char_all (λ c, bool_decide (is_Some (hex_value c))) c ltac:(vm_compute; done) Hc) as H.
  cbv beta in H. apply bool_decide_eq_true in H as [? ->]. done.
Qed.
Lemma hex_value_digit_of d : (d < 16)%nat → hex_value (hex_digit d) = Some (N.of_nat d).
Proof. intros H. do 16 (destruct d as [|d]; [done|]). lia. Qed.

Lemma hex_body_app s t acc digit :
  hex_text s → s ≠ "" → hex_body (s +:+ t) acc digit = (acc' ← hex_body s acc digit; hex_body t acc' true).
Proof.
  revert acc digit. induction s as [|c s IH]; intros acc digit; [done|]. intros [Hc Hs] _. rewrite cons_append. cbn [hex_body].
  pose proof (hex_char_all (λ c, negb (bool_decide (c = "_"%char))) c ltac:(vm_compute; done) Hc) as Hu. cbv beta in Hu.
  apply negb_true_iff in Hu. rewrite Hu, (hex_value_digit c Hc).
  destruct s as [|c' s']; [done|]. by apply IH.
Qed.

Lemma hex_digits_value k n digit : hex_body (hex_digits (S k) n) 0 digit = Some (n mod 16 ^ N.of_nat (S k))%N.
Proof.
  revert n digit. induction k as [|k IH]; intros n digit.
  - cbn [hex_digits]. change ("" +:+ ?s) with s. cbn [hex_body]. pose proof (N.mod_lt n 16 ltac:(done)) as Hm.
    pose proof (hex_value_digit_of (N.to_nat (n mod 16)) ltac:(lia)) as E. rewrite E, N2Nat.id.
    rewrite bool_decide_eq_false_2; [done|]. intros Eq. by rewrite Eq in E.
  - change (hex_digits (S (S k)) n) with (hex_digits (S k) (n / 16) +:+ String (hex_digit (N.to_nat (n mod 16))) "").
    rewrite hex_body_app; [|apply hex_digits_text|intros E; apply (f_equal String.length) in E; by rewrite hex_digits_length in E].
    rewrite IH. cbn [option_bind mbind hex_body]. pose proof (N.mod_lt n 16 ltac:(done)) as Hm.
    pose proof (hex_value_digit_of (N.to_nat (n mod 16)) ltac:(lia)) as E. rewrite E, N2Nat.id.
    rewrite bool_decide_eq_false_2; [|intros Eq; by rewrite Eq in E]. f_equal.
    rewrite (Nat2N.inj_succ (S k)), N.pow_succ_r', N.Div0.mod_mul_r. lia.
Qed.

Lemma int16_hex s : hex_text s → s ≠ "" → int16 s = Z.of_N <$> hex_body s 0 false.
Proof.
  intros Hs Hne. unfold int16. rewrite strip_chars_clean by (by apply hex_text_all). destruct s as [|c s]; [done|].
  destruct Hs as [(d & Hd & ->) Hs]. destruct d as [|d].
  - destruct s as [|c' s]; [done|]. destruct Hs as [(d & Hd' & ->) _].
    do 16 (destruct d as [|d]; [reflexivity|]). lia.
  - do 15 (destruct d as [|d]; [reflexivity|]). lia.
Qed.

(** Every character of a canonical text is a digit or a dash. *)
Lemma uuid_str_all (p : ascii → bool) u :
  forallb (λ d, p (hex_digit d)) (seq 0 16) = true → p "-"%char = true → all_chars p (uuid_str u) = true.
Proof.
  intros Hp Hd. unfold uuid_str. rewrite !all_chars_app. cbn [all_chars]. rewrite Hd, !hex_text_all; done || apply hex_digits_text.
Qed.

Lemma uuid_str_digits u : drop_all "-" 0 (uuid_str u) = hex_digits 32 u.
Proof.
  unfold uuid_str. rewrite !drop_dash_app.
  assert (∀ k n, drop_all "-" 0 (hex_digits k n) = hex_digits k n) as E.
  { intros k n. apply drop_all_absent, hex_text_all; [done|apply hex_digits_text]. }
  rewrite !E. change (drop_all "-" 0 "-") with "". change ("" +:+ ?s) with s.
  change 32%nat with (8 + 4 + 4 + 4 + 12)%nat. rewrite <-!hex_digits_split.
  rewrite !string_app_assoc, !N.Div0.div_div. reflexivity.
Qed.

(** A text whose digits, without dashes, are those of an identifier. *)
Lemma parse_uuid_digits text u :
  avoids "u" text = true → all_chars (negb ∘ is_brace) text = true → drop_all "-" 0 text = hex_digits 32 u →
  (u < 2 ^ 128)%N → parse_uuid text = Some u.
Proof.
  intros Hp Hb Hd Hu. unfold parse_uuid.
  rewrite (drop_all_absent "u" "rn:"), (drop_all_absent "u" "uid:"), strip_chars_clean by done.
  rewrite Hd, hex_digits_length. cbn [Nat.eqb negb].
  rewrite int16_hex; [|apply hex_digits_text|intros E; apply (f_equal String.length) in E; by rewrite hex_digits_length in E].
  rewrite hex_digits_value. cbn [fmap option_fmap option_map mbind option_bind].
  rewrite N.mod_small by exact Hu. rewrite N2Z.id.
  rewrite (proj2 (Z.leb_le 0 (Z.of_N u))) by lia. rewrite (proj2 (Z.ltb_lt (Z.of_N u) (2 ^ 128))) by lia. done.
Qed.

Lemma parse_hex_digits u : (u < 2 ^ 128)%N → parse_uuid (hex_digits 32 u) = Some u.
Proof.
  pose proof (hex_digits_text 32 u). apply parse_uuid_digits; [by apply hex_text_all..|].
  apply drop_all_absent. by apply hex_text_all.
Qed.

(** [UUID(str(u)) == u] for every 128-bit identifier, through the prefix, brace,
    dash and [int(hex, 16)] rules of the constructor. *)
Theorem uuid_roundtrip u : (u < 2 ^ 128)%N → parse_uuid (uuid_str u) = Some u.
Proof. apply parse_uuid_digits; [by apply uuid_str_all..|apply uuid_str_digits]. Qed.

Lemma uuid_roundtrip_witness : parse_uuid (uuid_str 9) = Some 9%N.
Proof. apply (uuid_roundtrip 9). reflexivity. Defined.
