(* ===== verification/PyBytes.v ===== *)
(** * Bytes of a text (str.encode, bytes.decode, base64)

    A byte string is a [string] whose characters are its bytes. Texts are
    sequences of code points below 256, so a character takes one byte or two. *)

From S2P Require Import Prelude PyValue.
From stdpp Require Import base list strings.
From Stdlib Require Import ZArith Lia Ascii.
Local Open Scope string_scope.

(** ** UTF-8 *)

Abbreviation code := nat_of_ascii.

Definition utf8_char (c : ascii) : string :=
  if Nat.ltb (code c) 128 then String c ""
  else String (ascii_of_nat (192 + code c / 64)) (String (ascii_of_nat (128 + code c mod 64)) "").
Definition utf8_encode (s : string) : string := concat_chars utf8_char s.

Fixpoint utf8_decode (s : string) : option string :=
  match s with
  | "" => Some ""
  | String c rest =>
      if Nat.ltb (code c) 128 then String c <$> utf8_decode rest
      else match rest with
           | String d rest' =>
               if (Nat.eqb (code c) 194 || Nat.eqb (code c) 195) && Nat.leb 128 (code d) && Nat.ltb (code d) 192
               then String (ascii_of_nat ((code c - 192) * 64 + (code d - 128))) <$> utf8_decode rest'
               else None
           | "" => None
           end
  end.

(** ** Base64 *)

Definition B64_ALPHABET : string := "ABCDEFGHIJKLMNOPQRSTUVWXYZabcdefghijklmnopqrstuvwxyz0123456789+/".
Definition b64_char (n : nat) : ascii := default "A"%char (String.get n B64_ALPHABET).
Definition b64_digit (c : ascii) : option nat :=
  if is_upper c then Some (code c - 65)
  else if is_lower c then Some (code c - 71)
  else if is_digit c then Some (code c + 4)
  else if bool_decide (c = "+"%char) then Some 62
  else if bool_decide (c = "/"%char) then Some 63 else None.

Fixpoint b64encode (s : string) : string :=
  match s with
  | "" => ""
  | String a "" => String (b64_char (code a / 4)) (String (b64_char (code a mod 4 * 16)) "==")
  | String a (String b "") =>
      String (b64_char (code a / 4)) (String (b64_char (code a mod 4 * 16 + code b / 16))
        (String (b64_char (code b mod 16 * 4)) "="))
  | String a (String b (String c rest)) =>
      String (b64_char (code a / 4)) (String (b64_char (code a mod 4 * 16 + code b / 16))
        (String (b64_char (code b mod 16 * 4 + code c / 64)) (String (b64_char (code c mod 64)) (b64encode rest))))
  end.

(** [base64.b64decode(text, validate=True)]: groups of four digits, the last of
    them padded. *)
Fixpoint b64decode (s : string) : option string :=
  match s with
  | "" => Some ""
  | String w (String x (String y (String z rest))) =>
      i ← b64_digit w;
      j ← b64_digit x;
      let first := ascii_of_nat (i * 4 + j / 16) in
      if bool_decide (y = "="%char) then
        if bool_decide (z = "="%char) && bool_decide (rest = "") then Some (String first "") else None
      else
        k ← b64_digit y;
        let second := ascii_of_nat (j mod 16 * 16 + k / 4) in
        if bool_decide (z = "="%char) then if bool_decide (rest = "") then Some (String first (String second "")) else None
        else
          l ← b64_digit z;
          tail ← b64decode rest;
          Some (String first (String second (String (ascii_of_nat (k mod 4 * 64 + l)) tail)))
  | _ => None
  end.

(** ** Round trips *)

Lemma code_bound c : (code c < 256)%nat.
Proof. apply nat_ascii_bounded. Qed.

Lemma ascii_code c n : n = code c → ascii_of_nat n = c.
Proof. intros ->. apply ascii_nat_embedding. Qed.

(** Names the quotient and the remainder of every division. *)
Ltac quotient n k :=
  pose proof (Nat.div_mod_eq n k); pose proof (Nat.mod_upper_bound n k ltac:(lia));
  generalize dependent (n / k)%nat; generalize dependent (n mod k)%nat; intros.
Ltac bytes :=
  repeat match goal with c : ascii |- _ =>
    lazymatch goal with H : (code c < 256)%nat |- _ => fail | _ => pose proof (code_bound c) end end;
  repeat match goal with
  | |- context [(?n / ?k)%nat] => quotient n k
  | |- context [(?n mod ?k)%nat] => quotient n k
  | _ : context [(?n / ?k)%nat] |- _ => quotient n k
  | _ : context [(?n mod ?k)%nat] |- _ => quotient n k
  end; lia.

Lemma decode_one c s : (code c < 128)%nat → utf8_decode (String c s) = String c <$> utf8_decode s.
Proof. intros H. cbn [utf8_decode]. by rewrite (proj2 (Nat.ltb_lt _ _) H). Qed.

Lemma decode_two q r s :
  (q = 2 ∨ q = 3)%nat → (r < 64)%nat →
  utf8_decode (String (ascii_of_nat (192 + q)) (String (ascii_of_nat (128 + r)) s)) =
  String (ascii_of_nat (q * 64 + r)) <$> utf8_decode s.
Proof.
  intros Hq Hr. cbn [utf8_decode]. rewrite !nat_ascii_embedding by lia.
  rewrite (proj2 (Nat.ltb_ge (192 + q) 128)) by lia.
  replace (192 + q - 192)%nat with q by lia. replace (128 + r - 128)%nat with r by lia.
  replace (Nat.eqb (192 + q) 194 || Nat.eqb (192 + q) 195) with true
    by (symmetry; rewrite orb_true_iff, !Nat.eqb_eq; lia).
  by rewrite (proj2 (Nat.leb_le 128 (128 + r))), (proj2 (Nat.ltb_lt (128 + r) 192)) by lia.
Qed.

Lemma utf8_decode_encode s : utf8_decode (utf8_encode s) = Some s.
Proof.
  induction s as [|c s IH]; [done|]. change (utf8_decode (utf8_char c +:+ utf8_encode s) = Some (String c s)). unfold utf8_char.
  destruct (Nat.ltb (code c) 128) eqn:E.
  - apply Nat.ltb_lt in E. change (utf8_decode (String c (utf8_encode s)) = Some (String c s)). by rewrite decode_one, IH.
  - apply Nat.ltb_ge in E. pose proof (code_bound c) as Hc.
    set (q := (code c / 64)%nat). set (r := (code c mod 64)%nat).
    change (utf8_decode (String (ascii_of_nat (192 + q)) (String (ascii_of_nat (128 + r)) (utf8_encode s))) = Some (String c s)).
    rewrite decode_two, IH by (subst q r; bytes). simpl. do 2 f_equal. apply ascii_code.
    subst q r. bytes.
Qed.

Lemma b64_digit_char n : (n < 64)%nat → b64_digit (b64_char n) = Some n ∧ b64_char n ≠ "="%char.
Proof.
  assert (forallb (λ n, bool_decide (b64_digit (b64_char n) = Some n) && negb (bool_decide (b64_char n = "="%char))) (seq 0 64) = true)
    as H by (vm_compute; reflexivity).
  intros Hn. rewrite forallb_forall in H. specialize (H n). rewrite in_seq in H. specialize (H ltac:(lia)). by inv_bool.
Qed.

Lemma group_bounds a b c :
  (code a / 4 < 64 ∧ code a mod 4 * 16 + code b / 16 < 64 ∧ code b mod 16 * 4 + code c / 64 < 64 ∧ code c mod 64 < 64 ∧
   code a mod 4 * 16 < 64 ∧ code b mod 16 * 4 < 64)%nat.
Proof. pose proof (code_bound a). pose proof (code_bound b). pose proof (code_bound c). split_and!; bytes. Qed.

Lemma b64_decode_encode n : ∀ s, (String.length s < n)%nat → b64decode (b64encode s) = Some s.
Proof.
  induction n as [|n IH]; [lia|]. intros [|a [|b [|c s]]] Hn; [done|..]; cbn [b64encode b64decode];
    try pose proof (group_bounds a a a) as (G1 & _ & _ & _ & G5 & _);
    try pose proof (group_bounds a b b) as (_ & G2 & _ & _ & _ & G6);
    try pose proof (group_bounds a b c) as (_ & _ & G3 & G4 & _ & _).
  - destruct (b64_digit_char _ G1) as [-> _], (b64_digit_char _ G5) as [-> _]. cbn [mbind option_bind].
    rewrite !bool_decide_eq_true_2 by done. cbn [andb]. do 2 f_equal. apply ascii_code. bytes.
  - destruct (b64_digit_char _ G1) as [-> _], (b64_digit_char _ G2) as [-> _], (b64_digit_char _ G6) as [-> N]. cbn [mbind option_bind].
    rewrite (bool_decide_eq_false_2 _ N), !bool_decide_eq_true_2 by done.
    do 3 f_equal; [|f_equal]; apply ascii_code; bytes.
  - destruct (b64_digit_char _ G1) as [-> _], (b64_digit_char _ G2) as [-> _], (b64_digit_char _ G3) as [-> N],
      (b64_digit_char _ G4) as [-> N4]. cbn [mbind option_bind].
    rewrite (bool_decide_eq_false_2 _ N), (bool_decide_eq_false_2 _ N4).
    simpl in Hn. rewrite IH by lia. cbn [mbind option_bind].
    do 2 f_equal; [|f_equal; [|f_equal]]; apply ascii_code; bytes.
Qed.

Lemma b64_roundtrip s : b64decode (b64encode s) = Some s.
Proof. apply (b64_decode_encode (S (String.length s))). lia. Qed.
