(* ===== verification/PyIp.v ===== *)
(** * Addresses (the [ip_interface] constructor of Python's ipaddress module)

    Discovery, the inventory projection and the executors read addresses with
    [ip_interface(text)] and compare the texts the module prints. The definitions
    follow the module of Python 3.12: the IPv4 reading is tried first, a mask may be
    a prefix, a netmask or a hostmask, an IPv6 text may skip zeros, end in an IPv4
    address and carry a scope. The releases of 3.12 differ in whether an
    IPv4-mapped address is classified as the address it maps: [mapped_as_ipv4]. *)

From S2P Require Import Prelude PyValue JsonCanonical Schema PyUuid.
From stdpp Require Import base list strings pretty.
From Stdlib Require Import ZArith Lia Ascii.
Local Open Scope string_scope.

(** [text.split(sep)] for a one-character separator. *)
Fixpoint split_on (sep : ascii) (s : string) : list string :=
  match s with
  | EmptyString => [""]
  | String c s' =>
      if bool_decide (c = sep) then "" :: split_on sep s'
      else match split_on sep s' with w :: ws => String c w :: ws | [] => [String c ""] end
  end.

(** An interface address: an address of 32 or 128 bits with the length of its
    network's prefix and, for IPv6, the scope its text named. *)
Record ip_interface_t := mkIp { ip_v6 : bool; ip_int : N; ip_prefix : N; ip_scope : option string }.
#[export] Instance ip_interface_eq_dec : EqDecision ip_interface_t.
Proof. solve_decision. Defined.

Definition max_prefix (v6 : bool) : N := if v6 then 128 else 32.

(** ** Reading *)

(** The value of a text of decimal digits. *)
Fixpoint decimal (s : string) (acc : N) : N :=
  match s with
  | EmptyString => acc
  | String c s' => decimal s' (10 * acc + N.of_nat (nat_of_ascii c - 48))
  end.

(** [_parse_octet]. *)
Definition parse_octet (s : string) : option N :=
  if bool_decide (s = "") || negb (all_chars is_digit s) || Nat.ltb 3 (String.length s) then None
  else if negb (bool_decide (s = "0")) && match s with String "0" _ => true | _ => false end then None
  else let n := decimal s 0 in if (255 <? n)%N then None else Some n.

(** [int.from_bytes(octets, "big")] and its hextet counterpart. *)
Definition from_digits (base : N) (l : list N) : N := foldl (λ acc d, base * acc + d)%N 0%N l.

(** [IPv4Address._ip_int_from_string]. *)
Definition parse_v4 (s : string) : option N :=
  match split_on "." s with
  | [a; b; c; d] => from_digits 256 <$> mapM parse_octet [a; b; c; d]
  | _ => None
  end.

(** [_prefix_from_prefix_string]. *)
Definition parse_prefix (top : N) (s : string) : option N :=
  if bool_decide (s = "") || negb (all_chars is_digit s) || Nat.ltb 4300 (String.length s) then None
  else let n := decimal s 0 in if (top <? n)%N then None else Some n.

(** [_count_righthand_zero_bits] and [_prefix_from_ip_int]. *)
Fixpoint trailing_zeros (fuel : nat) (n : N) : N :=
  match fuel with
  | O => 0
  | S fuel' => if N.even n then 1 + trailing_zeros fuel' (n / 2) else 0
  end.
Definition prefix_from_int (n : N) : option N :=
  let zeros := trailing_zeros 32 n in
  let len := (32 - zeros)%N in
  if (N.shiftr n zeros =? 2 ^ len - 1)%N then Some len else None.

(** [_prefix_from_ip_string]: a netmask, or a hostmask. *)
Definition parse_mask (s : string) : option N :=
  n ← parse_v4 s;
  match prefix_from_int n with Some len => Some len | None => prefix_from_int (N.lxor n (2 ^ 32 - 1)) end.

(** [_split_optional_netmask]. *)
Definition split_netmask (s : string) : option (string * option string) :=
  match split_on "/" s with
  | [addr] => Some (addr, None)
  | [addr; mask] => Some (addr, Some mask)
  | _ => None
  end.

Definition IPv4Interface (s : string) : option ip_interface_t :=
  parts ← split_netmask s;
  n ← parse_v4 parts.1;
  len ← match parts.2 with
        | None => Some 32%N
        | Some mask => match parse_prefix 32 mask with Some len => Some len | None => parse_mask mask end
        end;
  Some (mkIp false n len None).

(** [_parse_hextet]: [int(text, 16)] is only reached with hexadecimal digits. *)
Definition is_hex (c : ascii) : bool := match hex_value c with Some _ => true | None => false end.
Definition parse_hextet (s : string) : option N :=
  if negb (all_chars is_hex s) || Nat.ltb 4 (String.length s) then None else hex_body s 0 false.

(** ['%x' % n] below [2^16]. *)
Definition hex_str (n : N) : string := hex_digits (if N.ltb n 16 then 1 else if N.ltb n 256 then 2 else if N.ltb n 4096 then 3 else 4)%nat n.

(** The parts with an IPv4 suffix written as two hextets. *)
Definition expand_suffix (parts : list string) : option (list string) :=
  match last parts with
  | Some s =>
      if has_char "." s then
        n ← parse_v4 s;
        Some (take (length parts - 1) parts ++ [hex_str (N.land (N.shiftr n 16) 0xFFFF); hex_str (N.land n 0xFFFF)])%list
      else Some parts
  | None => Some parts
  end.

(** The indices in [range(1, len(parts) - 1)] whose part is empty. *)
Definition empty_inside (parts : list string) : list nat :=
  filter (λ i, parts !! i = Some "") (seq 1 (length parts - 2)).

(** How many parts stand before and after the skipped zeros. *)
Definition part_counts (parts : list string) : option (nat * nat * nat) :=
  let n := length parts in
  let first_empty := bool_decide (head parts = Some "") in
  let last_empty := bool_decide (last parts = Some "") in
  match empty_inside parts with
  | [] => if Nat.eqb n 8 && negb first_empty && negb last_empty then Some (n, 0, 0)%nat else None
  | [i] =>
      let hi := if first_empty then i - 1 else i in
      let lo := if last_empty then n - i - 1 - 1 else n - i - 1 in
      if (first_empty && negb (Nat.eqb hi 0)) || (last_empty && negb (Nat.eqb lo 0)) then None
      else if Nat.leb 8 (hi + lo) then None else Some (hi, 8 - (hi + lo), lo)%nat
  | _ => None
  end.

(** [IPv6Address._ip_int_from_string]. *)
Definition parse_parts (parts : list string) : option N :=
  if Nat.ltb 9 (length parts) then None
  else
    '(hi, skipped, lo) ← part_counts parts;
    high ← mapM parse_hextet (take hi parts);
    low ← mapM parse_hextet (drop (length parts - lo) parts);
    Some (from_digits 65536 (high ++ replicate skipped 0%N ++ low)).
Definition parse_v6 (s : string) : option N :=
  let parts := split_on ":" s in
  if Nat.ltb (length parts) 3 then None else parts ← expand_suffix parts; parse_parts parts.

(** [_split_scope_id]. *)
Definition split_scope (s : string) : option (string * option string) :=
  match split_on "%" s with
  | [addr] => Some (addr, None)
  | [addr; scope] => if bool_decide (scope = "") then None else Some (addr, Some scope)
  | _ => None
  end.

Definition IPv6Interface (s : string) : option ip_interface_t :=
  parts ← split_netmask s;
  '(addr, scope) ← split_scope parts.1;
  n ← parse_v6 addr;
  len ← match parts.2 with None => Some 128%N | Some mask => parse_prefix 128 mask end;
  Some (mkIp true n len scope).

(** [ip_interface(text)], [None] for its [ValueError]. *)
Definition ip_interface (s : string) : option ip_interface_t :=
  match IPv4Interface s with Some a => Some a | None => IPv6Interface s end.

(** ** Printing *)

(** The [n] digits of a number in a base, most significant first. *)
Fixpoint digits (base : N) (n : nat) (v : N) : list N :=
  match n with
  | O => []
  | S n' => (digits base n' (v / base) ++ [(v mod base)%N])%list
  end.
Definition v4_text (n : N) : string := PyValue.join "." (pretty <$> digits 256 4 n).

(** The first longest run of zeros, as [_compress_hextets] finds it: where it
    starts and how long it is. *)
Record run := mkRun { best_start : nat; best_len : nat; cur_start : nat; cur_len : nat }.
Definition run_step (index : nat) (zero : bool) (r : run) : run :=
  if zero then
    let start := if Nat.eqb (cur_len r) 0 then index else cur_start r in
    let len := S (cur_len r) in
    if Nat.ltb (best_len r) len then mkRun start len start len else mkRun (best_start r) (best_len r) start len
  else mkRun (best_start r) (best_len r) index 0.
Fixpoint run_from (index : nat) (zeros : list bool) (r : run) : run :=
  match zeros with [] => r | z :: zeros' => run_from (S index) zeros' (run_step index z r) end.
Definition longest_run (zeros : list bool) : nat * nat :=
  let r := run_from 0 zeros (mkRun 0 0 0 0) in (best_start r, best_len r).

Definition compress_hextets (hextets : list string) : list string :=
  let '(start, len) := longest_run ((λ h, bool_decide (h = "0")) <$> hextets) in
  if Nat.ltb 1 len then
    let stop := (start + len)%nat in
    let tail := if Nat.eqb stop (length hextets) then [""] else [] in
    let lead := if Nat.eqb start 0 then [""] else [] in
    (lead ++ take start hextets ++ [""] ++ drop stop hextets ++ tail)%list
  else hextets.
Definition v6_text (n : N) : string := PyValue.join ":" (compress_hextets (hex_str <$> digits 65536 8 n)).

(** [str(address.ip)], without the scope, and [str(address)]. *)
Definition ip_text (a : ip_interface_t) : string := if ip_v6 a then v6_text (ip_int a) else v4_text (ip_int a).
Definition interface_text (a : ip_interface_t) : string :=
  ip_text a +:+ match ip_scope a with Some scope => "%" +:+ scope | None => "" end +:+ "/" +:+ pretty (ip_prefix a).

(** ** Classes of addresses *)

Definition in_network (bits len net n : N) : bool := N.eqb (N.shiftr n (bits - len)) (N.shiftr net (bits - len)).
Definition special_v4 (n : N) : bool :=
  in_network 32 8 0x7F000000 n || in_network 32 16 0xA9FE0000 n || in_network 32 4 0xE0000000 n || N.eqb n 0.
Definition special_v6 (n : N) : bool :=
  N.eqb n 1 || in_network 128 10 (N.shiftl 0xFE80 112) n || in_network 128 8 (N.shiftl 0xFF00 112) n || N.eqb n 0.

(** [is_loopback], [is_link_local], [is_multicast] or [is_unspecified]. *)
Definition special (mapped_as_ipv4 : bool) (a : ip_interface_t) : bool :=
  if ip_v6 a then
    if mapped_as_ipv4 && N.eqb (N.shiftr (ip_int a) 32) 0xFFFF then special_v4 (N.land (ip_int a) 0xFFFFFFFF)
    else special_v6 (ip_int a)
  else special_v4 (ip_int a).

Definition normal (s : string) : option string := interface_text <$> ip_interface s.
Example ip_interface_ex :
  (normal <$> ["10.0.0.5"; "10.0.0.5/255.255.255.0"; "10.0.0.5/0.0.0.255"; "2001:DB8:0:0:1::10/64"; "fe80::1%eth0/64"; "::ffff:1.2.3.4"; "::"; "1::"; "1:2:3:4:5:6:7::/9"]) =
  [Some "10.0.0.5/32"; Some "10.0.0.5/24"; Some "10.0.0.5/24"; Some "2001:db8::1:0:0:10/64"; Some "fe80::1%eth0/64"; Some "::ffff:102:304/128"; Some "::/128"; Some "1::/128"; Some "1:2:3:4:5:6:7:0/9"] ∧
  (ip_interface <$> ["10.0.0.05"; "256.0.0.1"; "10.0.0.1/33"; "1::2::3"; ":1:2:3:4:5:6:7"; "1:2:3:4:5:6:7:8:9"; "fe80::1%"; "::/129"; ""; "12345::"]) = replicate 10 None.
Proof. vm_compute. done. Qed.

(** ** Texts *)

Lemma split_on_one c s : avoids c s = true → split_on c s = [s].
Proof.
  induction s as [|d s IH]; [done|]. cbn [avoids all_chars split_on]. intros [Hd Hs]%andb_true_iff.
  rewrite IH by exact Hs. case_bool_decide; [done|reflexivity].
Qed.
Lemma split_on_app c a b : avoids c a = true → split_on c (a +:+ String c b) = a :: split_on c b.
Proof.
  induction a as [|d a IH]; intros Ha.
  - rewrite nil_append. cbn [split_on]. by rewrite bool_decide_eq_true_2.
  - cbn [avoids all_chars] in Ha. apply andb_true_iff in Ha as [Hd Ha]. rewrite cons_append. cbn [split_on].
    rewrite IH by exact Ha. case_bool_decide; [done|reflexivity].
Qed.
Lemma split_join c parts : parts ≠ [] → Forall (λ p, avoids c p = true) parts → split_on c (PyValue.join (String c "") parts) = parts.
Proof.
  intros Hne. induction 1 as [|p parts Hp Hparts IH]; [done|]. destruct parts as [|q parts]; [by apply split_on_one|].
  cbn [PyValue.join] in *. rewrite cons_append, nil_append, split_on_app by done. f_equal. by apply IH.
Qed.
Lemma avoids_app c a b : avoids c (a +:+ b) = avoids c a && avoids c b.
Proof. apply all_chars_app. Qed.
Lemma all_chars_impl (p q : ascii → bool) s : (∀ c, p c = true → q c = true) → all_chars p s = true → all_chars q s = true.
Proof. intros H. induction s as [|c s IH]; [done|]. cbn [all_chars]. rewrite !andb_true_iff. naive_solver. Qed.
Lemma all_chars_join p sep l : all_chars p sep = true → Forall (λ x, all_chars p x = true) l → all_chars p (PyValue.join sep l) = true.
Proof.
  intros Hs. induction 1 as [|x l Hx Hl IH]; [done|]. destruct l as [|y l]; [exact Hx|].
  cbn [PyValue.join] in *. by rewrite !all_chars_app, Hx, Hs, IH.
Qed.
Lemma avoids_none c p s : all_chars p s = true → p c = false → avoids c s = true.
Proof. intros H Hc. eapply all_chars_impl; [|exact H]. intros d Hd. apply negb_true_iff, bool_decide_eq_false. congruence. Qed.
Lemma avoids_has c s : avoids c s = true → has_char c s = false.
Proof.
  unfold avoids. induction s as [|d s IH]; [done|]. cbn [all_chars has_char]. intros [Hd Hs]%andb_true_iff. rewrite IH by done.
  apply negb_true_iff, bool_decide_eq_false in Hd. by rewrite bool_decide_eq_false_2.
Qed.

(** Every number below a bound passes a decidable test, by computation. *)
Lemma below_all (p : N → bool) top n : forallb (p ∘ N.of_nat) (seq 0 top) = true → (n < N.of_nat top)%N → p n = true.
Proof.
  intros H Hn. pose proof (proj1 (forallb_forall _ _) H (N.to_nat n)) as E. unfold compose in E. rewrite N2Nat.id in E. apply E, in_seq. lia.
Qed.

Lemma pretty_octet n : (n < 256)%N → parse_octet (pretty n) = Some n ∧ all_chars is_digit (pretty n) = true.
Proof.
  intros H. pose proof (below_all (λ n, bool_decide (parse_octet (pretty n) = Some n ∧ all_chars is_digit (pretty n) = true)) 256 n) as E.
  apply bool_decide_eq_true in E; [exact E|by vm_compute|exact H].
Qed.
Lemma pretty_prefix n : (n < 129)%N → (∀ top, (n ≤ top)%N → parse_prefix top (pretty n) = Some n) ∧ all_chars is_digit (pretty n) = true.
Proof.
  intros H. pose proof (below_all (λ n, bool_decide (parse_prefix 128 (pretty n) = Some n ∧ all_chars is_digit (pretty n) = true)) 129 n) as E.
  apply bool_decide_eq_true in E as [E Ed]; [|by vm_compute|exact H]. split; [|exact Ed]. intros top Ht. unfold parse_prefix in *.
  destruct (_ || _); [done|]. destruct (N.ltb_spec 128 (decimal (pretty n) 0)); [done|]. injection E as ->.
  by rewrite (proj2 (N.ltb_ge top n)).
Qed.

(** ** Digits *)

Lemma from_digits_app base l d : from_digits base (l ++ [d]) = (base * from_digits base l + d)%N.
Proof. unfold from_digits. by rewrite foldl_app. Qed.
Lemma from_digits_digits base n v : base ≠ 0%N → from_digits base (digits base n v) = (v mod base ^ N.of_nat n)%N.
Proof.
  intros Hb. revert v. induction n as [|n IH]; intros v; [by rewrite N.mod_1_r|].
  cbn [digits]. rewrite from_digits_app, IH, Nat2N.inj_succ, N.pow_succ_r', N.Div0.mod_mul_r. lia.
Qed.
Lemma digits_length base n v : length (digits base n v) = n.
Proof. revert v. induction n as [|n IH]; intros v; [done|]. cbn [digits]. rewrite length_app, IH. simpl. lia. Qed.
Lemma digits_bound base n v : base ≠ 0%N → Forall (λ d, (d < base)%N) (digits base n v).
Proof.
  intros Hb. revert v. induction n as [|n IH]; intros v; [constructor|]. cbn [digits]. apply Forall_app. split; [apply IH|].
  constructor; [by apply N.mod_lt|constructor].
Qed.
Lemma from_digits_bound base l : (0 < base)%N → Forall (λ d, (d < base)%N) l → (from_digits base l < base ^ N.of_nat (length l))%N.
Proof.
  intros Hb. induction l as [|d l IH] using rev_ind; intros Hl; [reflexivity|]. apply Forall_app in Hl as [Hl [Hd _]%Forall_cons].
  rewrite from_digits_app, length_app, Nat2N.inj_add. change (N.of_nat (length [d])) with 1%N. specialize (IH Hl). rewrite N.add_1_r, N.pow_succ_r'. nia.
Qed.

(** ** IPv4 reads back *)

Lemma mapM_fmap_Some {A B} (f : A → option B) (g : B → A) (P : B → Prop) l :
  (∀ x, P x → f (g x) = Some x) → Forall P l → mapM f (g <$> l) = Some l.
Proof. intros H. induction 1 as [|x l Hx Hl IH]; [done|]. cbn. by rewrite H, IH. Qed.

Definition v4_char (c : ascii) : bool := is_digit c || bool_decide (c = "."%char).
Lemma v4_text_chars n : all_chars v4_char (v4_text n) = true.
Proof.
  apply all_chars_join; [done|]. apply Forall_fmap. eapply Forall_impl; [by apply digits_bound|]. cbv beta. intros d Hd. unfold compose.
  eapply all_chars_impl; [|apply pretty_octet, Hd]. intros c Hc. unfold v4_char. by rewrite Hc.
Qed.
Lemma parse_v4_text n : (n < 2 ^ 32)%N → parse_v4 (v4_text n) = Some n.
Proof.
  intros Hn. unfold parse_v4, v4_text. pose proof (digits_bound 256 4 n ltac:(done)) as Hd. pose proof (digits_length 256 4 n) as Hl.
  rewrite split_join.
  - destruct (digits 256 4 n) as [|a [|b [|c [|d [|]]]]] eqn:E; try discriminate Hl. cbn [fmap list_fmap].
    pose proof (mapM_fmap_Some parse_octet pretty _ _ (λ x H, proj1 (pretty_octet x H)) Hd) as M. cbn [fmap list_fmap] in M. rewrite M.
    cbn [fmap option_fmap option_map]. rewrite <-E, from_digits_digits by done. f_equal. by apply N.mod_small.
  - intros E. apply (f_equal length) in E. by rewrite length_fmap, Hl in E.
  - apply Forall_fmap. eapply Forall_impl; [exact Hd|]. cbv beta. intros d Hb. unfold compose.
    eapply (avoids_none _ is_digit); [by apply pretty_octet|done].
Qed.

(** ** IPv6 reads back *)

Lemma hex_str_text n : hex_text (hex_str n) ∧ hex_str n ≠ "" ∧ (String.length (hex_str n) ≤ 4)%nat.
Proof.
  unfold hex_str. split_and!; [apply hex_digits_text| |].
  - intros E. apply (f_equal String.length) in E. rewrite hex_digits_length in E. repeat case_match; discriminate.
  - rewrite hex_digits_length. repeat case_match; lia.
Qed.
Lemma parse_hextet_str n : (n < 65536)%N → parse_hextet (hex_str n) = Some n.
Proof.
  intros Hn. destruct (hex_str_text n) as (Ht & Hne & Hl). unfold parse_hextet.
  rewrite (hex_text_all is_hex) by done. rewrite (proj2 (Nat.ltb_ge 4 _) Hl). cbn [negb orb].
  unfold hex_str. repeat match goal with |- context [N.ltb n ?m] => destruct (N.ltb_spec n m) end;
    rewrite hex_digits_value; f_equal; apply N.mod_small; cbn; lia.
Qed.
Lemma hex_str_zero n : (n < 65536)%N → hex_str n = "0" ↔ n = 0%N.
Proof. intros Hn. split; [|by intros ->]. intros E. pose proof (parse_hextet_str n Hn) as P. rewrite E in P. by injection P as <-. Qed.
Lemma hex_str_chars (p : ascii → bool) n : forallb (λ d, p (hex_digit d)) (seq 0 16) = true → all_chars p (hex_str n) = true.
Proof. intros H. apply hex_text_all; [exact H|apply hex_str_text]. Qed.

(** The run found among eight flags is a run of set flags. *)
Fixpoint flag_lists (n : nat) : list (list bool) :=
  match n with O => [[]] | S n' => (cons true <$> flag_lists n') ++ (cons false <$> flag_lists n') end%list.
Lemma elem_of_flag_lists l : l ∈ flag_lists (length l).
Proof.
  induction l as [|b l IH]; [by apply list_elem_of_singleton|]. cbn [length flag_lists]. apply elem_of_app.
  destruct b; [left|right]; by apply list_elem_of_fmap_2.
Qed.
Definition run_ok (zeros : list bool) : bool :=
  let '(start, len) := longest_run zeros in
  Nat.leb (start + len) (length zeros) && forallb id (take len (drop start zeros)).
Lemma longest_run_ok zeros start len :
  length zeros = 8%nat → longest_run zeros = (start, len) → (start + len ≤ 8)%nat ∧ Forall (λ b, b = true) (take len (drop start zeros)).
Proof.
  intros Hl E. assert (forallb run_ok (flag_lists 8) = true) as H by (by vm_compute).
  pose proof (proj1 (forallb_forall _ _) H zeros) as Hz. unfold run_ok in Hz. rewrite E, Hl in Hz.
  destruct (andb_prop _ _ (Hz ltac:(apply list_elem_of_In; rewrite <-Hl; apply elem_of_flag_lists))) as [H1%Nat.leb_le H2].
  split; [exact H1|]. apply Forall_forall. intros b Hb. apply list_elem_of_In in Hb. by apply (proj1 (forallb_forall id _) H2).
Qed.

(** The parts around a skipped run: an empty side is written as an empty part. *)
Definition pad (l : list string) : list string := match l with [] => [""] | _ => l end.

Lemma pad_length l : (1 ≤ length (pad l))%nat ∧ length (pad l) = Nat.max 1 (length l).
Proof. destruct l; simpl; lia. Qed.
Lemma filter_seq_none (P : nat → Prop) `{∀ i, Decision (P i)} a n : (∀ i, (a ≤ i < a + n)%nat → ¬ P i) → filter P (seq a n) = [].
Proof. intros H'. apply filter_none. intros i Hi. apply elem_of_seq in Hi. by apply H'. Qed.

Lemma empty_inside_pad pre post : ("" ∉ pre) → ("" ∉ post) → empty_inside (pad pre ++ "" :: pad post)%list = [length (pad pre)].
Proof.
  intros Hpre Hpost. unfold empty_inside. rewrite length_app. cbn [length].
  destruct (pad_length pre) as [H1 _], (pad_length post) as [H2 _].
  replace (length (pad pre) + S (length (pad post)) - 2)%nat with ((length (pad pre) - 1) + (1 + (length (pad post) - 1)))%nat by lia.
  rewrite !seq_app, !filter_app. replace (1 + (length (pad pre) - 1))%nat with (length (pad pre)) by lia.
  rewrite filter_seq_none, (filter_seq_none _ (length (pad pre) + 1)%nat).
  - cbn [seq]. rewrite filter_cons_True; [done|]. by rewrite list_lookup_middle.
  - intros i Hi. rewrite lookup_app_r by lia. destruct (i - length (pad pre))%nat as [|j] eqn:E; [lia|]. cbn.
    intros Ej. destruct post as [|x post]; [simpl in *; lia|]. apply Hpost. by eapply list_elem_of_lookup_2.
  - intros i Hi. rewrite lookup_app_l by lia. intros Ei. destruct pre as [|x pre]; [simpl in *; lia|].
    apply Hpre. by eapply list_elem_of_lookup_2.
Qed.
Definition no_parts (l : list string) : bool := match l with [] => true | _ => false end.
Lemma head_pad pre r : ("" ∉ pre) → bool_decide (head (pad pre ++ r)%list = Some "") = no_parts pre.
Proof. intros H. destruct pre as [|x pre]; [done|]. apply bool_decide_eq_false_2. intros [= ->]. apply H. left. Qed.
Lemma last_pad l x post : ("" ∉ post) → bool_decide (last (l ++ x :: pad post)%list = Some "") = no_parts post.
Proof.
  intros H. rewrite last_app_cons, last_cons. destruct post as [|y post]; [done|]. cbn [pad].
  destruct (last (y :: post)) as [z|] eqn:E; [|by apply last_None in E]. apply bool_decide_eq_false_2. intros [= ->].
  apply H. by apply last_Some_elem_of.
Qed.

Lemma part_counts_pad pre post :
  ("" ∉ pre) → ("" ∉ post) → (length pre + length post < 8)%nat →
  part_counts (pad pre ++ "" :: pad post)%list = Some (length pre, 8 - (length pre + length post), length post)%nat.
Proof.
  intros Hpre Hpost Hl. unfold part_counts. rewrite empty_inside_pad, head_pad, last_pad by done.
  rewrite length_app. cbn [length].
  destruct pre as [|x pre], post as [|y post]; cbn [pad length no_parts andb orb negb] in *;
    repeat match goal with |- context [Nat.eqb ?a 0] => replace (Nat.eqb a 0) with true by (symmetry; apply Nat.eqb_eq; lia) end; cbn [andb orb negb];
    rewrite (proj2 (Nat.leb_gt 8 _)) by lia; repeat f_equal; lia.
Qed.

Lemma pad_before (l : list string) start : (start ≤ length l)%nat → ((if Nat.eqb start 0 then [""] else []) ++ take start l)%list = pad (take start l).
Proof. destruct start, l; simpl; done || lia. Qed.
Lemma pad_after (l : list string) stop :
  (stop ≤ length l)%nat → (drop stop l ++ if Nat.eqb stop (length l) then [""] else [])%list = pad (drop stop l).
Proof.
  intros H. destruct (Nat.eqb_spec stop (length l)) as [->|Hne]; [by rewrite drop_all|]. rewrite app_nil_r.
  destruct (drop stop l) eqn:E; [|done]. apply (f_equal length) in E. rewrite length_drop in E. simpl in E. lia.
Qed.

Lemma zero_hextets l :
  Forall (λ d, (d < 65536)%N) l → Forall (λ b, b = true) ((λ h, bool_decide (h = "0")) <$> (hex_str <$> l)) → l = replicate (length l) 0%N.
Proof.
  intros Hd. induction Hd as [|d l Hlt Hd IH]; [done|]. cbn [fmap list_fmap length replicate]. intros [Hb Hz]%Forall_cons.
  apply bool_decide_eq_true in Hb. apply hex_str_zero in Hb as ->; [|done]. f_equal. by apply IH.
Qed.

(** A compressed text is the hextets, or two sides of a run of zeros. *)
Lemma compress_shape ds :
  length ds = 8%nat → Forall (λ d, (d < 65536)%N) ds →
  compress_hextets (hex_str <$> ds) = hex_str <$> ds ∨
  ∃ pre post, compress_hextets (hex_str <$> ds) = (pad (hex_str <$> pre) ++ "" :: pad (hex_str <$> post))%list ∧
    (length pre + length post < 8)%nat ∧ ds = (pre ++ replicate (8 - (length pre + length post)) 0%N ++ post)%list.
Proof.
  intros Hl Hd. unfold compress_hextets. destruct (longest_run _) as [start len] eqn:E.
  apply longest_run_ok in E as [Hlen Hz]; [|by rewrite !length_fmap].
  destruct (Nat.ltb_spec 1 len) as [H1|]; [right|by left]. exists (take start ds), (drop (start + len) ds).
  rewrite length_take, length_drop, Hl. split_and!.
  - rewrite !app_assoc, pad_before by (rewrite length_fmap; lia). rewrite <-!app_assoc, pad_after by (rewrite length_fmap; lia).
    by rewrite fmap_take, fmap_drop.
  - lia.
  - replace (8 - (start `min` 8 + (8 - (start + len))))%nat with len by lia.
    rewrite <-!fmap_drop, <-!fmap_take in Hz. apply zero_hextets in Hz; [|by apply Forall_take, Forall_drop].
    rewrite length_take, length_drop, Hl in Hz. replace (len `min` (8 - start))%nat with len in Hz by lia.
    rewrite <-Hz, <-drop_drop, take_drop. by rewrite take_drop.
Qed.

Lemma hex_str_nonempty (ds : list N) : ("" ∉ hex_str <$> ds).
Proof. intros (d & E & _)%list_elem_of_fmap. by apply (proj1 (proj2 (hex_str_text d))). Qed.
Lemma parse_hextets ds : Forall (λ d, (d < 65536)%N) ds → mapM parse_hextet (hex_str <$> ds) = Some ds.
Proof. apply mapM_fmap_Some, parse_hextet_str. Qed.

Lemma parse_compressed ds :
  length ds = 8%nat → Forall (λ d, (d < 65536)%N) ds →
  parse_parts (compress_hextets (hex_str <$> ds)) = Some (from_digits 65536 ds) ∧ (3 ≤ length (compress_hextets (hex_str <$> ds)))%nat.
Proof.
  intros Hl Hd. destruct (compress_shape ds Hl Hd) as [->|(pre & post & -> & Hlt & Eds)]; unfold parse_parts.
  - rewrite length_fmap, Hl. split; [|lia]. cbn [Nat.ltb Nat.leb].
    assert (part_counts (hex_str <$> ds) = Some (8, 0, 0)%nat) as ->.
    { unfold part_counts, empty_inside. rewrite length_fmap, Hl, filter_none.
      - assert (∀ o, (∀ x, o = Some x → x ∈ hex_str <$> ds) → bool_decide (o = Some "") = false) as Hs.
        { intros o Ho. apply bool_decide_eq_false_2. intros ->. by apply (hex_str_nonempty ds), Ho. }
        rewrite !Hs; [done| |]; intros x Hx; [by apply last_Some_elem_of|by apply head_Some_elem_of].
      - intros i _ Ei. apply (hex_str_nonempty ds). by eapply list_elem_of_lookup_2. }
    cbn [mbind option_bind]. rewrite take_ge by (rewrite length_fmap; lia). rewrite parse_hextets by done.
    rewrite drop_ge by (rewrite length_fmap; lia). cbn. by rewrite app_nil_r.
  - destruct (pad_length (hex_str <$> pre)) as [Hp1 Hp2], (pad_length (hex_str <$> post)) as [Hq1 Hq2]. rewrite length_fmap in Hp2, Hq2.
    rewrite length_app. cbn [length]. split; [|lia]. rewrite (proj2 (Nat.ltb_ge 9 _)) by lia.
    rewrite part_counts_pad by (apply hex_str_nonempty || (rewrite !length_fmap; lia)). rewrite !length_fmap. cbn [mbind option_bind].
    rewrite Eds in Hd. apply Forall_app in Hd as [Hpre [_ Hpost]%Forall_app].
    assert (take (length pre) (pad (hex_str <$> pre) ++ "" :: pad (hex_str <$> post)) = hex_str <$> pre)%list as ->.
    { destruct pre as [|d pre]; [done|]. change (pad (hex_str <$> d :: pre)) with (hex_str <$> d :: pre). apply take_app_length'. by rewrite length_fmap. }
    replace (drop _ _) with (hex_str <$> post) by (symmetry; rewrite cons_middle, app_assoc; destruct post as [|d post];
      [by apply drop_ge; rewrite !length_app; simpl; lia | change (pad (hex_str <$> d :: post)) with (hex_str <$> d :: post) in *; apply drop_app_length'; rewrite length_app in *; simpl length in *; lia]).
    rewrite !parse_hextets by done. cbn. by rewrite Eds at 1.
Qed.

Definition v6_char (c : ascii) : bool := is_hex c || bool_decide (c = ":"%char).
Lemma compress_parts (P : string → Prop) ds : P "" → (∀ d, P (hex_str d)) → Forall P (compress_hextets (hex_str <$> ds)).
Proof.
  intros H0 Hs. assert (Forall P (hex_str <$> ds)) as Hf by (apply Forall_fmap, Forall_true; exact Hs).
  unfold compress_hextets. destruct (longest_run _) as [start len]. destruct (Nat.ltb 1 len); [|exact Hf].
  rewrite !Forall_app. split_and!; [by case_match; repeat constructor|by apply Forall_take|by repeat constructor|by apply Forall_drop|by case_match; repeat constructor].
Qed.
Lemma v6_text_chars n : all_chars v6_char (v6_text n) = true.
Proof. apply all_chars_join; [done|]. apply compress_parts; [done|]. intros d. by apply hex_str_chars. Qed.
Lemma join_has c p q l : avoids c (PyValue.join (String c "") (p :: q :: l)) = false.
Proof.
  cbn [PyValue.join]. rewrite !avoids_app. assert (avoids c (String c "") = false) as ->; [|by rewrite andb_false_r].
  unfold avoids. cbn [all_chars]. by rewrite bool_decide_eq_true_2.
Qed.
Lemma v6_text_colon n : avoids ":" (v6_text n) = false.
Proof.
  unfold v6_text. pose proof (parse_compressed (digits 65536 8 n) (digits_length _ _ _) (digits_bound 65536 8 n ltac:(done))) as [_ H].
  destruct (compress_hextets _) as [|p [|q l]]; [simpl in H; lia..|]. apply join_has.
Qed.

Lemma parse_v6_text n : (n < 2 ^ 128)%N → parse_v6 (v6_text n) = Some n.
Proof.
  intros Hn. unfold parse_v6, v6_text.
  pose proof (parse_compressed (digits 65536 8 n) (digits_length _ _ _) (digits_bound 65536 8 n ltac:(done))) as [Hp H3].
  set (parts := compress_hextets _) in *. rewrite split_join.
  - rewrite (proj2 (Nat.ltb_ge _ 3)) by exact H3. assert (expand_suffix parts = Some parts) as ->.
    { unfold expand_suffix. destruct (last parts) as [s|] eqn:E; [|done]. apply last_Some_elem_of in E.
      assert (Forall (λ s, has_char "." s = false) parts) as Hdot.
      { apply compress_parts; [done|]. intros d. apply avoids_has, (avoids_none _ is_hex); [by apply hex_str_chars|done]. }
      by rewrite (proj1 (Forall_forall _ _) Hdot s E). }
    cbn [mbind option_bind]. rewrite Hp, from_digits_digits by done. f_equal. by apply N.mod_small.
  - intros E. rewrite E in H3. simpl in H3. lia.
  - apply compress_parts; [done|]. intros d. apply (avoids_none _ is_hex); [by apply hex_str_chars|done].
Qed.

(** ** What a text can denote *)

Lemma join_split c s : PyValue.join (String c "") (split_on c s) = s.
Proof.
  induction s as [|d s IH]; [done|]. cbn [split_on]. case_bool_decide as Hd.
  - subst d. assert (∃ w ws, split_on c s = w :: ws) as (w & ws & E) by (destruct s; cbn [split_on]; repeat case_match; eauto).
    rewrite E in *. cbn [PyValue.join]. rewrite nil_append. rewrite cons_append, nil_append. by f_equal.
  - destruct (split_on c s) as [|w [|v ws]]; cbn [PyValue.join] in *; [by subst s|by subst|]. rewrite cons_append. by f_equal.
Qed.
Lemma split_on_avoids c s : Forall (λ w, avoids c w = true) (split_on c s).
Proof.
  induction s as [|d s IH]; [by repeat constructor|]. cbn [split_on]. case_bool_decide as Hd; [by constructor|].
  destruct IH as [|w ws Hw Hws]; constructor; auto; unfold avoids in *; cbn [all_chars]; rewrite bool_decide_eq_false_2; done.
Qed.
Lemma split_on_two c s a b : split_on c s = [a; b] → s = a +:+ String c b.
Proof. intros E. rewrite <-(join_split c s), E. cbn [PyValue.join]. by rewrite cons_append, nil_append. Qed.

Lemma mapM_Some_Forall {A B} (f : A → option B) (P : B → Prop) l l' : (∀ x y, f x = Some y → P y) → mapM f l = Some l' → Forall P l' ∧ length l' = length l.
Proof. intros H Hm. apply mapM_Some in Hm. split; [|by apply Forall2_length in Hm]. eapply Forall2_Forall_r; [exact Hm|]. apply Forall_true. naive_solver. Qed.

Lemma parse_octet_spec s n : parse_octet s = Some n → (n < 256)%N ∧ all_chars is_digit s = true.
Proof.
  unfold parse_octet. destruct (_ || _) eqn:E; [done|]. apply orb_false_iff in E as [[_ E%negb_false_iff]%orb_false_iff _].
  case_match; [done|]. destruct (N.ltb_spec 255 (decimal s 0)); [done|]. intros [= <-]. split; [lia|exact E].
Qed.
Lemma parse_v4_spec s n : parse_v4 s = Some n → (n < 2 ^ 32)%N ∧ all_chars v4_char s = true.
Proof.
  unfold parse_v4. destruct (split_on "." s) as [|a [|b [|c [|d [|]]]]] eqn:E; try done. intros (l & Hm & ->)%fmap_Some. split.
  - destruct (mapM_Some_Forall _ (λ n, (n < 256)%N) _ _ (λ x y H, proj1 (parse_octet_spec x y H)) Hm) as [Hl Hlen].
    pose proof (from_digits_bound 256 l ltac:(done) Hl) as Hb. by rewrite Hlen in Hb.
  - rewrite <-(join_split "." s), E. apply all_chars_join; [done|]. apply mapM_Some in Hm. eapply Forall2_Forall_l; [exact Hm|].
    apply Forall_true. intros y x Hx. apply parse_octet_spec in Hx as [_ Hx]. eapply all_chars_impl; [|exact Hx].
    intros ch Hc. unfold v4_char. by rewrite Hc.
Qed.
Lemma parse_prefix_bound top s n : parse_prefix top s = Some n → (n ≤ top)%N.
Proof. unfold parse_prefix. case_match; [done|]. destruct (N.ltb_spec top (decimal s 0)); [done|]. by intros [= <-]. Qed.
Lemma parse_mask_bound s n : parse_mask s = Some n → (n ≤ 32)%N.
Proof.
  assert (∀ m k, prefix_from_int m = Some k → (k ≤ 32)%N) as H.
  { intros m k. unfold prefix_from_int. generalize (trailing_zeros 32 m). intros z. destruct (N.eqb _ _); [|discriminate].
    intros [= <-]. apply N.le_sub_l. }
  unfold parse_mask. intros (m & _ & E)%bind_Some. destruct (prefix_from_int m) eqn:E'; [|by eapply H]. injection E as <-. by eapply H.
Qed.

Lemma hex_body_bound s acc b n : hex_body s acc b = Some n → (n < (acc + 1) * 16 ^ N.of_nat (String.length s))%N.
Proof.
  revert acc b. induction s as [|c s IH]; intros acc b; cbn [hex_body String.length].
  - destruct b; [|done]. intros [= <-]. simpl. lia.
  - rewrite Nat2N.inj_succ, N.pow_succ_r'. case_bool_decide.
    + destruct b; [|done]. intros E%IH. nia.
    + destruct (hex_value c) as [d|] eqn:Ed; [|done]. intros E%IH.
      assert (d < 16)%N; [|nia]. revert Ed. unfold hex_value. 
      destruct c as [[] [] [] [] [] [] [] []]; cbn; intros [= <-]; lia.
Qed.
Lemma parse_hextet_bound s n : parse_hextet s = Some n → (n < 65536)%N.
Proof.
  unfold parse_hextet. destruct (_ || _) eqn:E; [done|]. apply orb_false_iff in E as [_ E%Nat.ltb_ge]. intros H%hex_body_bound.
  eapply N.lt_le_trans; [exact H|]. rewrite N.mul_1_l. change 65536%N with (16 ^ 4)%N. apply N.pow_le_mono_r; lia.
Qed.
Lemma part_counts_sum parts hi skipped lo :
  part_counts parts = Some (hi, skipped, lo) → (hi + skipped + lo = 8 ∧ hi ≤ length parts ∧ lo ≤ length parts)%nat.
Proof.
  unfold part_counts. destruct (empty_inside parts) as [|i [|]] eqn:E; [| |done].
  - destruct (_ && _) eqn:C; [|done]. intros [= <- <- <-]. apply andb_true_iff in C as [[C%Nat.eqb_eq _]%andb_true_iff _]. lia.
  - assert (i ∈ empty_inside parts) as Hi by (rewrite E; left). apply list_elem_of_filter in Hi as [_ Hi%elem_of_seq].
    destruct (_ || _); [done|]. destruct (Nat.leb_spec 8 ((if bool_decide (head parts = Some "") then i - 1 else i) + (if bool_decide (last parts = Some "") then length parts - i - 1 - 1 else length parts - i - 1))); [done|].
    intros [= <- <- <-]. repeat case_bool_decide; lia.
Qed.
Lemma parse_v6_bound s n : parse_v6 s = Some n → (n < 2 ^ 128)%N.
Proof.
  unfold parse_v6. case_match; [done|]. intros (parts & _ & E)%bind_Some. revert E. unfold parse_parts. case_match; [done|].
  intros ([[hi skipped] lo] & (Hsum & Hhi & Hlo)%part_counts_sum & (high & Hh & (low & Hl & [= <-])%bind_Some)%bind_Some)%bind_Some.
  destruct (mapM_Some_Forall _ _ _ _ parse_hextet_bound Hh) as [Fh Lh], (mapM_Some_Forall _ _ _ _ parse_hextet_bound Hl) as [Fl Ll].
  rewrite length_take in Lh. rewrite length_drop in Ll.
  eapply N.lt_le_trans; [apply from_digits_bound; [done|]|].
  - rewrite !Forall_app. split_and!; [done|by apply Forall_replicate|done].
  - rewrite !length_app, length_replicate. replace (length high + (skipped + length low))%nat with 8%nat by lia. done.
Qed.

(** An address that some text denotes. *)
Definition wf_scope (a : ip_interface_t) : Prop :=
  match ip_scope a with None => True | Some s => ip_v6 a = true ∧ s ≠ "" ∧ avoids "/" s = true ∧ avoids "%" s = true end.
Definition wf_ip (a : ip_interface_t) : Prop := (ip_int a < 2 ^ max_prefix (ip_v6 a))%N ∧ (ip_prefix a ≤ max_prefix (ip_v6 a))%N ∧ wf_scope a.

Lemma split_netmask_spec s addr mask : split_netmask s = Some (addr, mask) → avoids "/" addr = true.
Proof.
  unfold split_netmask. pose proof (split_on_avoids "/" s) as H. destruct (split_on "/" s) as [|a [|b [|]]]; try done; intros [= <- <-]; by inversion H.
Qed.
Lemma split_scope_spec addr a scope : avoids "/" addr = true → split_scope addr = Some (a, scope) → match scope with None => True | Some s => s ≠ "" ∧ avoids "/" s = true ∧ avoids "%" s = true end.
Proof.
  unfold split_scope. intros Ha. pose proof (split_on_avoids "%" addr) as H. destruct (split_on "%" addr) as [|x [|y [|]]] eqn:E; try done; [by intros [= _ <-]|].
  case_bool_decide as Hy; [done|]. intros [= _ <-]. apply split_on_two in E. subst addr. rewrite avoids_app in Ha. apply andb_true_iff in Ha as [_ Ha].
  apply Forall_cons in H as [_ [Hp _]%Forall_cons]. split_and!; [done| |done]. unfold avoids in *. cbn [all_chars] in Ha. by apply andb_true_iff in Ha as [_ ?].
Qed.

Lemma ip_interface_wf s a : ip_interface s = Some a → wf_ip a.
Proof.
  unfold ip_interface. destruct (IPv4Interface s) as [b|] eqn:E.
  - intros [= ->]. revert E. unfold IPv4Interface. intros ([addr mask] & _ & (n & Hn & (len & Hlen & [= <-])%bind_Some)%bind_Some)%bind_Some.
    split_and!; [by apply parse_v4_spec in Hn as [? _]| |done]. cbn [ip_prefix ip_v6 max_prefix]. cbn [snd] in Hlen. destruct mask as [m|]; [|by injection Hlen as <-].
    destruct (parse_prefix 32 m) eqn:E; [injection Hlen as <-; by eapply parse_prefix_bound|by eapply parse_mask_bound].
  - unfold IPv6Interface. intros ([addr mask] & Hs%split_netmask_spec & ([x scope] & Hscope & (n & Hn & (len & Hlen & [= <-])%bind_Some)%bind_Some)%bind_Some)%bind_Some.
    split_and!; [by eapply parse_v6_bound| |].
    + cbn [snd] in Hlen. destruct mask as [m|]; [by eapply parse_prefix_bound|by injection Hlen as <-].
    + apply split_scope_spec in Hscope; [|done]. unfold wf_scope. cbn [ip_scope ip_v6]. by destruct scope.
Qed.

Lemma append_nil (s : string) : s +:+ "" = s.
Proof. induction s as [|c s IH]; [done|]. rewrite cons_append. by f_equal. Qed.
Definition scoped_text (a : ip_interface_t) : string := ip_text a +:+ match ip_scope a with Some scope => "%" +:+ scope | None => "" end.

Lemma scoped_text_slash a : wf_scope a → avoids "/" (scoped_text a) = true.
Proof.
  unfold scoped_text, ip_text, wf_scope. intros Hs. rewrite avoids_app. apply andb_true_iff. split.
  - destruct (ip_v6 a); [apply (avoids_none _ v6_char); [apply v6_text_chars|done]|apply (avoids_none _ v4_char); [apply v4_text_chars|done]].
  - destruct (ip_scope a) as [s|]; [|done]. rewrite avoids_app. by destruct Hs as (_ & _ & -> & _).
Qed.
Lemma split_interface_text a : wf_ip a →
  split_netmask (interface_text a) = Some (scoped_text a, Some (pretty (ip_prefix a))) ∧ parse_prefix (max_prefix (ip_v6 a)) (pretty (ip_prefix a)) = Some (ip_prefix a).
Proof.
  intros (_ & Hlen & Hs). assert (ip_prefix a < 129)%N as Hlt by (destruct (ip_v6 a); cbn in Hlen; lia).
  destruct (pretty_prefix _ Hlt) as [Hp Hd]. split; [|by apply Hp]. unfold split_netmask, interface_text.
  rewrite <-string_app_assoc, (cons_append "/"), nil_append, split_on_app by (by apply scoped_text_slash).
  by rewrite split_on_one by (by apply (avoids_none _ is_digit)).
Qed.
Lemma split_scoped_text n scope :
  wf_scope (mkIp true n 0 scope) → split_scope (scoped_text (mkIp true n 0 scope)) = Some (v6_text n, scope).
Proof.
  unfold wf_scope, scoped_text, split_scope, ip_text. cbn. intros Hs.
  assert (avoids "%" (v6_text n) = true) as Hv by (apply (avoids_none _ v6_char); [apply v6_text_chars|done]). destruct scope as [s|].
  - rewrite (cons_append "%"), nil_append, split_on_app, split_on_one by naive_solver. by rewrite bool_decide_eq_false_2 by naive_solver.
  - by rewrite append_nil, split_on_one.
Qed.

(** Printing an address and reading the text gives the address back. *)
Lemma ip_roundtrip a : wf_ip a → ip_interface (interface_text a) = Some a.
Proof.
  intros Hwf. destruct (split_interface_text a Hwf) as [Hsplit Hp]. destruct Hwf as (Hn & _ & Hs).
  unfold ip_interface, IPv4Interface, IPv6Interface. rewrite Hsplit. cbn [mbind option_bind fst snd].
  destruct a as [[] n len scope]; cbn [ip_v6 max_prefix ip_int ip_prefix] in *.
  - destruct (parse_v4 _) as [m|] eqn:E.
    { apply parse_v4_spec in E as [_ E]. unfold scoped_text, ip_text in E. rewrite all_chars_app in E. apply andb_true_iff in E as [E _].
      pose proof (avoids_none ":" _ _ E eq_refl) as Hc. cbn [ip_v6 ip_int] in Hc. by rewrite v6_text_colon in Hc. }
    change (scoped_text _) with (scoped_text (mkIp true n 0 scope)). rewrite split_scoped_text by done.
    cbn [mbind option_bind]. rewrite parse_v6_text by done. cbn [mbind option_bind]. by rewrite Hp.
  - destruct scope as [s|]; [by destruct Hs|]. unfold scoped_text, ip_text. cbn [ip_v6 ip_int ip_scope].
    rewrite append_nil, parse_v4_text by done. cbn [mbind option_bind]. by rewrite Hp.
Qed.

(** What the module prints is a normal form. *)
Lemma normal_idem s t : normal s = Some t → normal t = Some t.
Proof. unfold normal. intros (a & Ha & ->)%fmap_Some. by rewrite (ip_roundtrip a (ip_interface_wf s a Ha)). Qed.
