(* ===== verification/EsxiIdentity.v ===== *)
(** * The identity of an ESXi host (netbox_sync/esxi_discovery.py,
    netbox_sync/host_registration.py, netbox_sync/legacy_admission.py)

    The hardware UUID of a host in its one canonical spelling, the anchor a
    preview, a stored mapping, a stored proof or a reviewed observation carries,
    and the predicates on a registry row that decide whether it still needs a
    review. A settings column is an arbitrary JSON object. *)

From S2P Require Import Prelude PyValue SourceConfig Schema PyUuid.
From stdpp Require Import base list strings gmap.
From Stdlib Require Import ZArith NArith Lia Ascii.
Local Open Scope string_scope.

(** ** Hardware UUIDs *)

Definition is_hex (c : ascii) : bool := is_digit c || in_range "A" "F" c || in_range "a" "f" c.

(** [candidate[1:-1]] when the text starts and ends with a brace. *)
Definition unbrace (s : string) : string :=
  match s with
  | String "{" rest =>
      let n := String.length rest in
      if bool_decide (String.substring (n - 1) 1 rest = "}") then String.substring 0 (n - 1) rest else s
  | _ => s
  end.

Definition normalized_uuid (value : pyval) : option string :=
  match value with
  | PNone => None
  | _ =>
      let candidate := strip (py_str value) in
      if bool_decide (candidate = "") then None
      else
        let compact := PyUuid.drop_all " " 0 (PyUuid.drop_all "-" 0 (unbrace candidate)) in
        if negb (all_chars is_hex compact && Nat.eqb (String.length compact) 32) then None
        else parsed ← parse_uuid compact; if (parsed =? 0)%N then None else Some (uuid_str parsed)
  end.

Definition HOST_UUID_SENTINELS : list string :=
  ["00000000-0000-0000-0000-000000000001"; "ffffffff-ffff-ffff-ffff-ffffffffffff"].

Definition validated_host_hardware_uuid (value : pyval) : option string :=
  candidate ← normalized_uuid value;
  if bool_decide (candidate ∈ HOST_UUID_SENTINELS) then None else Some candidate.

Definition identity_inconsistent : exn := OtherException "HostHardwareIdentityConflict" (Some "HOST_IDENTITY_INCONSISTENT").

Definition consistent_host_hardware_uuid (summary_uuid hardware_uuid : pyval) : result exn (option string) :=
  match validated_host_hardware_uuid summary_uuid, validated_host_hardware_uuid hardware_uuid with
  | Some summary, Some hardware => if bool_decide (summary = hardware) then Ok (Some hardware) else Err identity_inconsistent
  | summary, None => Ok summary
  | None, hardware => Ok hardware
  end.

(** ** Anchors *)

Definition host_conflict (code : string) : exn := HostRegistrationConflict code None [] false.

Definition esxi_anchor (preview : pyval) : result exn string :=
  match preview with
  | PDict p =>
      if negb (py_eqb (dget "provider" p) (PStr "esxi")) then Err (host_conflict "HOST_IDENTITY_UNAVAILABLE")
      else match dget "hosts" p with
           | PList [host] =>
               let value := match host with PDict h => dget "id" h | _ => PNone end in
               match validated_host_hardware_uuid value with
               | Some anchor => Ok anchor
               | None => Err (host_conflict "HOST_IDENTITY_UNAVAILABLE")
               end
           | _ => Err (host_conflict "HOST_IDENTITY_UNAVAILABLE")
           end
  | _ => Err (host_conflict "HOST_IDENTITY_UNAVAILABLE")
  end.

(** [UUID(str(value))] succeeds. *)
Definition uuid_text (value : option pyval) : bool :=
  match value with Some v => bool_decide (is_Some (parse_uuid (py_str v))) | None => false end.

(** No host of the stored mapping records a hardware UUID other than the
    anchor. *)
Fixpoint hosts_agree (anchor : string) (hosts : list pyval) : bool :=
  match hosts with
  | [] => true
  | PDict h :: rest =>
      match validated_host_hardware_uuid (dget "id" h) with
      | Some recorded => bool_decide (recorded = anchor) && hosts_agree anchor rest
      | None => hosts_agree anchor rest
      end
  | _ :: _ => false
  end.

(** The anchor of a [provider_identity] proof. *)
Definition proof_anchor (proof mapping : pyval) : option string :=
  match proof with
  | PDict p =>
      if negb (py_eqb (dget "provider" p) (PStr "esxi") && py_eqb (dget "version" p) (PInt 1)) then None
      else
        anchor ← validated_host_hardware_uuid (dget "hardware_uuid" p);
        if negb (uuid_text (dlookup "verification_id" p)) then None
        else match match mapping with PDict m => default (PList []) (dlookup "hosts" m) | _ => PList [] end with
             | PList hosts => if hosts_agree anchor hosts then Some anchor else None
             | _ => None
             end
  | _ => None
  end.

Definition legacy_anchor (settings : pyval) : option string :=
  match settings with
  | PDict s =>
      let mapping := dget "onboarding_mapping" s in
      match dget "provider_identity" s with
      | PNone =>
          match mapping with
          | PDict m =>
              match esxi_anchor (PDict [("provider", PStr "esxi"); ("hosts", dget "hosts" m)]) with
              | Ok anchor => Some anchor
              | Err _ => None
              end
          | _ => None
          end
      | proof => proof_anchor proof mapping
      end
  | _ => None
  end.

(** The anchor of a reviewed observation. *)
Definition observed_anchor (settings : pyval) : option string :=
  match settings with
  | PDict s =>
      match dlookup "legacy_admission" s with
      | Some (PDict decision) =>
          if negb (py_eqb (dget "state" decision) (PStr "OBSERVED_ENDPOINT")) then None
          else if negb (uuid_text (dlookup "operation_id" decision)) then None
          else validated_host_hardware_uuid (dget "observed_uuid" decision)
      | _ => None
      end
  | _ => None
  end.

Definition registration_anchor (settings : pyval) : option string :=
  match legacy_anchor settings with Some anchor => Some anchor | None => observed_anchor settings end.

(** ** Decisions on a row *)

Definition admission_decision (settings : pydict) : pyval := default (PDict []) (dlookup "legacy_admission" settings).

(** [UUID(decision["operation_id"])]: [false] for the exceptions the code
    catches; a value that is no text has no [replace]. *)
Definition operation_uuid (decision : pyval) : result exn bool :=
  match decision with
  | PDict d =>
      match dlookup "operation_id" d with
      | Some (PStr text) => Ok (bool_decide (is_Some (parse_uuid text)))
      | Some PNone | None => Ok false
      | Some _ => Err (OtherException "AttributeError" None)
      end
  | _ => Ok false
  end.

Definition dormant (c : SourceConfig) : bool := negb (cfg_enabled c) && negb (cfg_sync_enabled c).

Definition isolated (c : SourceConfig) : result exn bool :=
  let decision := admission_decision (cfg_settings c) in
  recorded ← operation_uuid decision;
  Ok (recorded && py_eqb (py_get "state" decision) (PStr "ISOLATED_UNPROVED") && dormant c).

Definition resolved_for_admission (c : SourceConfig) : result exn bool :=
  let decision := admission_decision (cfg_settings c) in
  i ← isolated c;
  Ok (i || (is_dict decision && py_eqb (py_get "state" decision) (PStr "OBSERVED_ENDPOINT") &&
            bool_decide (is_Some (registration_anchor (PDict (cfg_settings c)))) && dormant c)).

(** ** The canonical spelling *)

Lemma lstrip_clean s : all_chars (negb ∘ is_space) s = true → lstrip s = s.
Proof. destruct s as [|c s]; [done|]. simpl. by destruct (is_space c). Qed.
Lemma rstrip_clean s : all_chars (negb ∘ is_space) s = true → rstrip s = s.
Proof.
  induction s as [|c s IH]; [done|]. simpl. intros H. inv_bool.
  destruct (is_space c); [done|]. simpl. by rewrite IH.
Qed.
Lemma strip_clean s : all_chars (negb ∘ is_space) s = true → strip s = s.
Proof. intros H. unfold strip. by rewrite lstrip_clean, rstrip_clean by (try rewrite lstrip_clean; done). Qed.

Lemma unbrace_clean s : avoids "{" s = true → unbrace s = s.
Proof.
  destruct s as [|c s]; [done|]. simpl. intros H. inv_bool.
  destruct c as [[] [] [] [] [] [] [] []]; try reflexivity. done.
Qed.

Lemma parse_uuid_bound text u : parse_uuid text = Some u → (u < 2 ^ 128)%N.
Proof.
  unfold parse_uuid. destruct (negb _); [done|]. destruct (int16 _) as [z|]; [|done]. cbn [mbind option_bind].
  destruct (_ && _) eqn:E; [|done]. intros [= <-]. apply andb_prop in E as [E1%Z.leb_le E2%Z.ltb_lt].
  change (2 ^ 128)%N with (Z.to_N (2 ^ 128)). by apply Z2N.inj_lt.
Qed.

(** The texts [_normalized_uuid] returns. *)
Definition canonical (s : string) : Prop := ∃ u, (0 < u < 2 ^ 128)%N ∧ s = uuid_str u.

Lemma normalized_canonical v s : normalized_uuid v = Some s → canonical s.
Proof.
  unfold normalized_uuid. intros H.
  destruct v; try done;
    (case_bool_decide; [done|]; destruct (negb _); [done|]; destruct (parse_uuid _) as [u|] eqn:E; [|done];
     cbn [mbind option_bind] in H; destruct (u =? 0)%N eqn:E0; [done|]; injection H as <-;
     exists u; split; [|done]; apply parse_uuid_bound in E; apply N.eqb_neq in E0; split; [|exact E]; lia).
Qed.

Lemma normalized_str s : canonical s → normalized_uuid (PStr s) = Some s.
Proof.
  intros (u & Hu & ->). unfold normalized_uuid. cbn [py_str].
  rewrite strip_clean, bool_decide_eq_false_2 by
    (first [by apply uuid_str_all | intros E; apply (f_equal (PyUuid.drop_all "-" 0)) in E; rewrite uuid_str_digits in E;
            apply (f_equal String.length) in E; by rewrite hex_digits_length in E]).
  rewrite unbrace_clean by (by apply uuid_str_all). rewrite uuid_str_digits.
  rewrite (drop_all_absent " " "") by (apply hex_text_all; [done|apply hex_digits_text]).
  rewrite hex_text_all by (try apply hex_digits_text; done). rewrite hex_digits_length. cbn [Nat.eqb andb negb].
  rewrite parse_hex_digits by lia. cbn [mbind option_bind]. by rewrite (proj2 (N.eqb_neq u 0)) by lia.
Qed.

Lemma validated_str v s : validated_host_hardware_uuid v = Some s → validated_host_hardware_uuid (PStr s) = Some s.
Proof.
  unfold validated_host_hardware_uuid. destruct (normalized_uuid v) as [c|] eqn:E; [|done]. cbn [mbind option_bind].
  case_bool_decide; [done|]. intros [= <-]. rewrite normalized_str by (eapply normalized_canonical; done).
  cbn [mbind option_bind]. by rewrite bool_decide_eq_false_2.
Qed.

Lemma validated_canonical v s : validated_host_hardware_uuid v = Some s → canonical s ∧ (s ∉ HOST_UUID_SENTINELS).
Proof.
  unfold validated_host_hardware_uuid. destruct (normalized_uuid v) as [c|] eqn:E; [|done]. cbn [mbind option_bind].
  case_bool_decide; [done|]. intros [= <-]. split; [by eapply normalized_canonical|done].
Qed.

Lemma esxi_anchor_validated preview s : esxi_anchor preview = Ok s → ∃ v, validated_host_hardware_uuid v = Some s.
Proof.
  unfold esxi_anchor. destruct preview as [| | | | |p]; try done. destruct (negb _); [done|].
  destruct (dget "hosts" p) as [| | | |[|host []]|]; try done.
  destruct (validated_host_hardware_uuid _) eqn:E; [|done]. intros [= <-]. eauto.
Qed.

(** The anchors the registry compares are canonical, whichever evidence they
    come from. *)
Lemma registration_anchor_validated settings s :
  registration_anchor settings = Some s → ∃ v, validated_host_hardware_uuid v = Some s.
Proof.
  unfold registration_anchor. destruct (legacy_anchor settings) as [a|] eqn:El.
  - intros [= <-]. unfold legacy_anchor in El. destruct settings as [| | | | |d]; try done.
    assert (∀ proof mapping, proof_anchor proof mapping = Some a → ∃ v, validated_host_hardware_uuid v = Some a) as Hp.
    { unfold proof_anchor. intros proof mapping. destruct proof as [| | | | |p]; try done. destruct (negb _); [done|].
      destruct (validated_host_hardware_uuid (dget "hardware_uuid" p)) as [b|] eqn:Ev; [|done]. cbn [mbind option_bind].
      destruct (negb _); [done|]. destruct (match mapping with PDict m => _ | _ => _ end); try done.
      destruct (hosts_agree _ _); [|done]. intros [= <-]. eauto. }
    destruct (dget "provider_identity" d) eqn:E; try by eapply Hp.
    destruct (dget "onboarding_mapping" d) as [| | | | |m]; try done.
    destruct (esxi_anchor _) eqn:Ea; [|done]. injection El as <-. by eapply esxi_anchor_validated.
  - unfold observed_anchor. intros H. destruct settings as [| | | | |d]; try done.
    destruct (dlookup "legacy_admission" d) as [[| | | | |dec]|]; try done.
    destruct (negb _); [done|]. destruct (negb _); [done|]. eauto.
Qed.

Example spellings :
  map normalized_uuid [PStr "{44454C4C-3600-104B-8034-B7C04F4D3432}"; PStr " 44454c4c3600104b8034b7c04f4d3432 ";
                       PStr "44454c4c 3600 104b 8034 b7c04f4d3432"] =
  replicate 3 (Some "44454c4c-3600-104b-8034-b7c04f4d3432") ∧
  normalized_uuid (PStr "00000000-0000-0000-0000-000000000000") = None ∧
  validated_host_hardware_uuid (PStr "FFFFFFFF-ffff-ffff-ffff-ffffffffffff") = None ∧
  normalized_uuid (PStr "{") = None.
Proof. vm_compute. done. Qed.
