(* ===== verification/InventoryOrder.v ===== *)
(** * The order of an inventory (application/inventory_order.py)

    Discovery lists hosts, guests, interfaces, disks and addresses in whatever order
    a provider answers. [canonical_hosts] copies the inventory and sorts every
    membership by the identity of its members and their JSON, and rewrites guest
    addresses in the form the ipaddress module prints, so that a reviewed plan and
    its execution traverse the same sequence. *)

From S2P Require Import Prelude PyValue JsonCanonical Discovery SourceIdentity Metadata PyIp.
From stdpp Require Import base list strings.
From Stdlib Require Import ZArith Lia Sorting.
Local Open Scope string_scope.

(** ** [asdict] *)

Definition py_strs (l : list string) : pyval := PList (PStr <$> l).
Definition py_opt_dict (o : option pydict) : pyval := match o with Some d => PDict d | None => PNone end.

Definition disk_dict (d : DiscoveredDisk) : pyval := PDict
  [("path", PStr (disk_path d)); ("model", py_opt_str (disk_model d)); ("serial", py_opt_str (disk_serial d));
   ("size_bytes", PInt (disk_size_bytes d)); ("disk_type", py_opt_str (disk_type d)); ("health", py_opt_str (disk_health d))].
Definition storage_dict (s : DiscoveredStorage) : pyval := PDict
  [("name", PStr (storage_name s)); ("storage_type", py_opt_str (storage_type s)); ("content", py_opt_str (storage_content s));
   ("total_bytes", PInt (storage_total_bytes s)); ("used_bytes", PInt (storage_used_bytes s));
   ("available_bytes", PInt (storage_available_bytes s)); ("active", PBool (storage_active s))].
Definition cpu_dict (c : DiscoveredCPU) : pyval := PDict
  [("model", py_opt_str (cpu_model c)); ("vendor", py_opt_str (cpu_vendor c)); ("sockets", PInt (cpu_sockets c));
   ("cores", PInt (cpu_cores c)); ("logical_cpus", PInt (cpu_logical_cpus c))].
Definition hif_dict (i : DiscoveredHostInterface) : pyval := PDict
  [("name", PStr (hif_name i)); ("interface_type", py_opt_str (hif_interface_type i)); ("active", PBool (hif_active i));
   ("autostart", PBool (hif_autostart i)); ("method", py_opt_str (hif_method i)); ("addresses", py_strs (hif_addresses i));
   ("gateway", py_opt_str (hif_gateway i)); ("bridge_ports", py_strs (hif_bridge_ports i)); ("vlan_id", py_opt_int (hif_vlan_id i));
   ("vlan_aware", PBool (hif_vlan_aware i)); ("comments", py_opt_str (hif_comments i)); ("mac_address", py_opt_str (hif_mac_address i));
   ("management", PBool (hif_management i))].
Definition vdisk_dict (d : DiscoveredVirtualDisk) : pyval := PDict
  [("name", PStr (vdisk_name d)); ("storage", py_opt_str (vdisk_storage d)); ("size_bytes", PInt (vdisk_size_bytes d));
   ("external_id", py_opt_str (vdisk_external_id d))].
Definition nic_dict (n : DiscoveredInterface) : pyval := PDict
  [("name", PStr (nic_name n)); ("mac_address", py_opt_str (nic_mac_address n)); ("bridge", py_opt_str (nic_bridge n));
   ("vlan_id", py_opt_int (nic_vlan_id n)); ("ip_addresses", py_strs (nic_ip_addresses n)); ("external_id", py_opt_str (nic_external_id n));
   ("network_observations", py_opt_dict (nic_network_observations n)); ("ip_vrf_id", py_opt_int (nic_ip_vrf_id n));
   ("ip_scope_conflicts", PList (PDict <$> nic_ip_scope_conflicts n)); ("mac_scope_conflicts", PList (PDict <$> nic_mac_scope_conflicts n))].
Definition vm_dict (v : DiscoveredVirtualMachine) : pyval := PDict
  [("source", PStr (vm_source v)); ("source_instance", PStr (vm_source_instance v)); ("legacy_identity_owner", PBool (vm_legacy_identity_owner v));
   ("source_id", PStr (vm_source_id v)); ("node_source_id", PStr (vm_node_source_id v)); ("vmid", vm_vmid v);
   ("original_name", PStr (vm_original_name v)); ("normalized_name", PStr (vm_normalized_name v)); ("status", PStr (vm_status v));
   ("vcpus", PInt (vm_vcpus v)); ("memory_bytes", PInt (vm_memory_bytes v)); ("autostart", PBool (vm_autostart v));
   ("disks", PList (vdisk_dict <$> vm_disks v)); ("interfaces", PList (nic_dict <$> vm_interfaces v));
   ("external_id", py_opt_str (vm_external_id v)); ("description", py_opt_str (vm_description v));
   ("provider_object_id", py_opt_str (vm_provider_object_id v)); ("esxi_instance_uuid", py_opt_str (vm_esxi_instance_uuid v));
   ("esxi_bios_uuid", py_opt_str (vm_esxi_bios_uuid v))].
Definition ct_dict (c : DiscoveredContainer) : pyval := PDict
  [("source", PStr (ct_source c)); ("source_instance", PStr (ct_source_instance c)); ("legacy_identity_owner", PBool (ct_legacy_identity_owner c));
   ("source_id", PStr (ct_source_id c)); ("node_source_id", PStr (ct_node_source_id c)); ("vmid", PInt (ct_vmid c));
   ("original_name", PStr (ct_original_name c)); ("normalized_name", PStr (ct_normalized_name c)); ("status", PStr (ct_status c));
   ("architecture", py_opt_str (ct_architecture c)); ("os_type", py_opt_str (ct_os_type c)); ("vcpus", PInt (ct_vcpus c));
   ("memory_bytes", PInt (ct_memory_bytes c)); ("swap_bytes", PInt (ct_swap_bytes c)); ("autostart", PBool (ct_autostart c));
   ("unprivileged", PBool (ct_unprivileged c)); ("disks", PList (vdisk_dict <$> ct_disks c)); ("interfaces", PList (nic_dict <$> ct_interfaces c))].
Definition host_dict (h : DiscoveredHost) : pyval := PDict
  [("source", PStr (host_source h)); ("source_instance", PStr (host_source_instance h)); ("legacy_identity_owner", PBool (host_legacy_identity_owner h));
   ("source_id", PStr (host_source_id h)); ("original_name", PStr (host_original_name h)); ("normalized_name", PStr (host_normalized_name h));
   ("management_ip", py_opt_str (host_management_ip h)); ("hypervisor", PStr (host_hypervisor h)); ("hypervisor_version", py_opt_str (host_hypervisor_version h));
   ("cpu", cpu_dict (host_cpu h)); ("memory_bytes", PInt (host_memory_bytes h)); ("manufacturer", py_opt_str (host_manufacturer h));
   ("model", py_opt_str (host_model h)); ("disks", PList (disk_dict <$> host_disks h)); ("storages", PList (storage_dict <$> host_storages h));
   ("interfaces", PList (hif_dict <$> host_interfaces h)); ("virtual_machines", PList (vm_dict <$> host_virtual_machines h));
   ("containers", PList (ct_dict <$> host_containers h)); ("esxi_events", py_opt_dict (host_esxi_events h));
   ("esxi_host_network", py_opt_dict (host_esxi_host_network h)); ("proxmox_host_network", py_opt_dict (host_proxmox_host_network h));
   ("connection_management", py_opt_dict (host_connection_management h)); ("hardware_identity", py_opt_dict (host_hardware_identity h))].

(** The records with other memberships. *)
Definition hif_with (addresses ports : list string) (i : DiscoveredHostInterface) : DiscoveredHostInterface :=
  mkHostInterface (hif_name i) (hif_interface_type i) (hif_active i) (hif_autostart i) (hif_method i) addresses (hif_gateway i) ports
    (hif_vlan_id i) (hif_vlan_aware i) (hif_comments i) (hif_mac_address i) (hif_management i).
Definition nic_with_addresses (addresses : list string) (n : DiscoveredInterface) : DiscoveredInterface :=
  mkInterface (nic_name n) (nic_mac_address n) (nic_bridge n) (nic_vlan_id n) addresses (nic_external_id n) (nic_network_observations n)
    (nic_ip_vrf_id n) (nic_ip_scope_conflicts n) (nic_mac_scope_conflicts n).
Definition vm_with (disks : list DiscoveredVirtualDisk) (interfaces : list DiscoveredInterface) (v : DiscoveredVirtualMachine) : DiscoveredVirtualMachine :=
  mkVM (vm_source v) (vm_source_instance v) (vm_legacy_identity_owner v) (vm_source_id v) (vm_node_source_id v) (vm_vmid v) (vm_original_name v)
    (vm_normalized_name v) (vm_status v) (vm_vcpus v) (vm_memory_bytes v) (vm_autostart v) disks interfaces (vm_external_id v) (vm_description v)
    (vm_provider_object_id v) (vm_esxi_instance_uuid v) (vm_esxi_bios_uuid v).
Definition ct_with (disks : list DiscoveredVirtualDisk) (interfaces : list DiscoveredInterface) (c : DiscoveredContainer) : DiscoveredContainer :=
  mkContainer (ct_source c) (ct_source_instance c) (ct_legacy_identity_owner c) (ct_source_id c) (ct_node_source_id c) (ct_vmid c) (ct_original_name c)
    (ct_normalized_name c) (ct_status c) (ct_architecture c) (ct_os_type c) (ct_vcpus c) (ct_memory_bytes c) (ct_swap_bytes c) (ct_autostart c)
    (ct_unprivileged c) disks interfaces.
Definition host_with (disks : list DiscoveredDisk) (storages : list DiscoveredStorage) (interfaces : list DiscoveredHostInterface)
    (vms : list DiscoveredVirtualMachine) (cts : list DiscoveredContainer) (h : DiscoveredHost) : DiscoveredHost :=
  mkHost (host_source h) (host_source_instance h) (host_legacy_identity_owner h) (host_source_id h) (host_original_name h) (host_normalized_name h)
    (host_management_ip h) (host_hypervisor h) (host_hypervisor_version h) (host_cpu h) (host_memory_bytes h) (host_manufacturer h) (host_model h)
    disks storages interfaces vms cts (host_esxi_events h) (host_esxi_host_network h) (host_proxmox_host_network h) (host_connection_management h)
    (host_hardware_identity h).

(** ** The traversal *)

(** A member of an inventory list: the identity [key] reads, its [asdict] and
    what [normalize] makes of it. *)
Class Member (A : Type) := { member_identity : A → string; asdict : A → pyval; normalize : A → A }.

Definition member_key {A} `{Member A} (a : A) : string * string := (member_identity a, json_dumps (asdict a)).
Definition key_pair_leb (a b : string * string) : bool := if bool_decide (a.1 = b.1) then String.leb a.2 b.2 else String.leb a.1 b.1.
Definition member_leb {A} `{Member A} (a b : A) : bool := key_pair_leb (member_key a) (member_key b).
(** Every member normalised, and the membership sorted. *)
Definition canonical {A} `{Member A} (l : list A) : list A := isort member_leb (normalize <$> l).

Definition sort_texts : list string → list string := isort String.leb.
Definition normal_address (s : string) : string := default s (normal s).

#[export] Instance disk_member : Member DiscoveredDisk := {| member_identity := disk_path; asdict := disk_dict; normalize d := d |}.
#[export] Instance storage_member : Member DiscoveredStorage := {| member_identity := storage_name; asdict := storage_dict; normalize s := s |}.
#[export] Instance hif_member : Member DiscoveredHostInterface :=
  {| member_identity := hif_name; asdict := hif_dict; normalize i := hif_with (sort_texts (hif_addresses i)) (sort_texts (hif_bridge_ports i)) i |}.
#[export] Instance vdisk_member : Member DiscoveredVirtualDisk :=
  {| member_identity d := default (vdisk_name d) (vdisk_external_id d); asdict := vdisk_dict; normalize d := d |}.
#[export] Instance nic_member : Member DiscoveredInterface :=
  {| member_identity n := default (nic_name n) (nic_external_id n); asdict := nic_dict;
     normalize n := nic_with_addresses (sort_texts (remove_dups (normal_address <$> nic_ip_addresses n))) n |}.
#[export] Instance vm_member : Member DiscoveredVirtualMachine :=
  {| member_identity := vm_source_id; asdict := vm_dict; normalize v := vm_with (canonical (vm_disks v)) (canonical (vm_interfaces v)) v |}.
#[export] Instance ct_member : Member DiscoveredContainer :=
  {| member_identity := ct_source_id; asdict := ct_dict; normalize c := ct_with (canonical (ct_disks c)) (canonical (ct_interfaces c)) c |}.
#[export] Instance host_member : Member DiscoveredHost :=
  {| member_identity := host_source_id; asdict := host_dict;
     normalize h := host_with (canonical (host_disks h)) (canonical (host_storages h)) (canonical (host_interfaces h))
                      (canonical (host_virtual_machines h)) (canonical (host_containers h)) h |}.

Definition canonical_hosts (hosts : list DiscoveredHost) : list DiscoveredHost := canonical hosts.

(** ** Sorting by keys *)

Lemma string_leb_total a b : String.leb a b = true ∨ String.leb b a = true.
Proof. apply String.leb_total. Qed.
Lemma string_leb_antisym a b : String.leb a b = true → String.leb b a = true → a = b.
Proof. apply String.leb_antisym. Qed.

Lemma key_pair_leb_total a b : key_pair_leb a b = true ∨ key_pair_leb b a = true.
Proof. unfold key_pair_leb. repeat case_bool_decide; try congruence; apply string_leb_total. Qed.
Lemma key_pair_leb_antisym a b : key_pair_leb a b = true → key_pair_leb b a = true → a = b.
Proof.
  unfold key_pair_leb. destruct a as [a1 a2], b as [b1 b2]. cbn [fst snd]. destruct (decide (a1 = b1)) as [->|Hne].
  - rewrite bool_decide_eq_true_2 by done. intros ??. f_equal. by apply string_leb_antisym.
  - rewrite !bool_decide_eq_false_2 by congruence. intros ??. by destruct Hne; apply string_leb_antisym.
Qed.
Lemma key_pair_leb_trans a b c : key_pair_leb a b = true → key_pair_leb b c = true → key_pair_leb a c = true.
Proof.
  unfold key_pair_leb. destruct a as [a1 a2], b as [b1 b2], c as [c1 c2]. cbn [fst snd]. repeat case_bool_decide; subst; try done; eauto using string_leb_trans.
  intros ??. by destruct H; apply string_leb_antisym.
Qed.

(** Equal keys make equal sequences of keys, whatever the order was. *)
Lemma isort_keys {A B} (leb : B → B → bool) (key : A → B) (l l' : list A) :
  (∀ x y, leb x y = true ∨ leb y x = true) → (∀ x y z, leb x y = true → leb y z = true → leb x z = true) →
  (∀ x y, leb x y = true → leb y x = true → x = y) →
  key <$> l ≡ₚ key <$> l' → key <$> isort (λ a b, leb (key a) (key b)) l = key <$> isort (λ a b, leb (key a) (key b)) l'.
Proof.
  intros Htotal Htrans Hanti Hp. rewrite <-!(isort_map _ leb key) by done.
  apply (sorted_unique leb); [by intros x y _ _; apply Hanti|by apply isort_StronglySorted..|].
  by rewrite !isort_Permutation.
Qed.
Lemma isort_texts l l' : l ≡ₚ l' → sort_texts l = sort_texts l'.
Proof.
  intros Hp. apply (sorted_unique String.leb); [intros x y _ _; apply string_leb_antisym| | |unfold sort_texts; by rewrite !isort_Permutation];
    apply isort_StronglySorted; [apply string_leb_total|apply string_leb_trans|apply string_leb_total|apply string_leb_trans].
Qed.
Lemma sort_texts_idem l : sort_texts (sort_texts l) = sort_texts l.
Proof. apply isort_idem; [apply string_leb_total|apply string_leb_trans]. Qed.

(** ** Once is enough *)

Class StableMember (A : Type) `{Member A} : Prop := normalize_idem (a : A) : normalize (normalize a) = normalize a.

Lemma canonical_idem {A} `{StableMember A} (l : list A) : canonical (canonical l) = canonical l.
Proof.
  unfold canonical at 1. assert (normalize <$> canonical l = canonical l) as ->.
  { rewrite <-(list_fmap_id (canonical l)) at 2. apply list_fmap_ext. intros i x Hx%list_elem_of_lookup_2.
    apply elem_of_isort, list_elem_of_fmap in Hx as (y & -> & _). apply normalize_idem. }
  apply isort_idem; [intros x y; apply key_pair_leb_total|intros x y z; apply key_pair_leb_trans].
Qed.

Lemma normal_address_idem s : normal_address (normal_address s) = normal_address s.
Proof. unfold normal_address. destruct (normal s) as [t|] eqn:E; cbn [from_option]; unfold id; [by rewrite (normal_idem s t E)|by rewrite E]. Qed.
Definition address_set (l : list string) : list string := sort_texts (remove_dups (normal_address <$> l)).
Lemma address_set_same l l' : (∀ a, a ∈ normal_address <$> l ↔ a ∈ normal_address <$> l') → address_set l = address_set l'.
Proof. intros H. apply isort_texts, NoDup_Permutation; [apply NoDup_remove_dups..|]. intros a. by rewrite !elem_of_remove_dups. Qed.
Lemma elem_of_address_set a l : a ∈ address_set l ↔ a ∈ normal_address <$> l.
Proof. unfold address_set, sort_texts. by rewrite elem_of_isort, elem_of_remove_dups. Qed.
Lemma address_set_idem l : address_set (address_set l) = address_set l.
Proof.
  apply address_set_same. intros a. rewrite !list_elem_of_fmap. setoid_rewrite elem_of_address_set. split.
  - intros (b & -> & (c & -> & Hc)%list_elem_of_fmap). exists c. by rewrite normal_address_idem.
  - intros (b & -> & Hb). exists (normal_address b). rewrite normal_address_idem. split; [done|]. by apply list_elem_of_fmap_2.
Qed.

#[export] Instance disk_stable : StableMember DiscoveredDisk.
Proof. done. Qed.
#[export] Instance storage_stable : StableMember DiscoveredStorage.
Proof. done. Qed.
#[export] Instance vdisk_stable : StableMember DiscoveredVirtualDisk.
Proof. done. Qed.
#[export] Instance hif_stable : StableMember DiscoveredHostInterface.
Proof. intros i. cbn. by rewrite !sort_texts_idem. Qed.
#[export] Instance nic_stable : StableMember DiscoveredInterface.
Proof.
  intros n. change (nic_with_addresses (address_set (address_set (nic_ip_addresses n))) n = nic_with_addresses (address_set (nic_ip_addresses n)) n).
  by rewrite address_set_idem.
Qed.
#[export] Instance vm_stable : StableMember DiscoveredVirtualMachine.
Proof. intros v. cbn [normalize vm_member vm_with vm_disks vm_interfaces]. by rewrite !canonical_idem. Qed.
#[export] Instance ct_stable : StableMember DiscoveredContainer.
Proof. intros c. cbn [normalize ct_member ct_with ct_disks ct_interfaces]. by rewrite !canonical_idem. Qed.
#[export] Instance host_stable : StableMember DiscoveredHost.
Proof. intros h. cbn [normalize host_member host_with host_disks host_storages host_interfaces host_virtual_machines host_containers]. by rewrite !canonical_idem. Qed.

(** ** The same inventory in another order *)

Class SameMember (A : Type) := same_member : relation A.
(** The lists have the same members, in any order. *)
Definition same_members {A} `{SameMember A} (l l' : list A) : Prop := ∃ m, Forall2 same_member l m ∧ m ≡ₚ l'.
Definition same_addresses (l l' : list string) : Prop := ∀ a, a ∈ normal_address <$> l ↔ a ∈ normal_address <$> l'.

#[export] Instance disk_same : SameMember DiscoveredDisk := eq.
#[export] Instance storage_same : SameMember DiscoveredStorage := eq.
#[export] Instance vdisk_same : SameMember DiscoveredVirtualDisk := eq.
#[export] Instance hif_same : SameMember DiscoveredHostInterface := λ i i',
  ∃ addresses ports, i' = hif_with addresses ports i ∧ hif_addresses i ≡ₚ addresses ∧ hif_bridge_ports i ≡ₚ ports.
#[export] Instance nic_same : SameMember DiscoveredInterface := λ n n',
  ∃ addresses, n' = nic_with_addresses addresses n ∧ same_addresses (nic_ip_addresses n) addresses.
#[export] Instance vm_same : SameMember DiscoveredVirtualMachine := λ v v',
  ∃ disks nics, v' = vm_with disks nics v ∧ same_members (vm_disks v) disks ∧ same_members (vm_interfaces v) nics.
#[export] Instance ct_same : SameMember DiscoveredContainer := λ c c',
  ∃ disks nics, c' = ct_with disks nics c ∧ same_members (ct_disks c) disks ∧ same_members (ct_interfaces c) nics.
#[export] Instance host_same : SameMember DiscoveredHost := λ h h',
  ∃ disks storages nics vms cts, h' = host_with disks storages nics vms cts h ∧
    same_members (host_disks h) disks ∧ same_members (host_storages h) storages ∧ same_members (host_interfaces h) nics ∧
    same_members (host_virtual_machines h) vms ∧ same_members (host_containers h) cts.

Class SameKeys (A : Type) `{Member A, SameMember A} : Prop :=
  same_key (a b : A) : same_member a b → member_key (normalize a) = member_key (normalize b).

Definition as_canon (v w : pyval) : Prop := canon v = canon w.
Lemma canon_dict_congr d d' : Forall2 (λ x y, x.1 = y.1 ∧ as_canon x.2 y.2) d d' → as_canon (PDict d) (PDict d').
Proof.
  intros H. unfold as_canon. rewrite !canon_dict. f_equal. rewrite <-!(isort_map key_leb key_leb canon_pair) by done. f_equal.
  induction H as [|[k v] [k' v'] d d' [Hk Hv] Hd IH]; [done|]. cbn in Hk, Hv. rewrite !fmap_cons, IH. f_equal.
  unfold canon_pair. cbn [fst snd]. by rewrite Hk, Hv.
Qed.
Lemma canon_list_congr l l' : canon <$> l = canon <$> l' → as_canon (PList l) (PList l').
Proof. intros H. unfold as_canon. cbn [canon]. f_equal. exact H. Qed.

Lemma canonical_keys {A} `{SameKeys A} (l l' : list A) : same_members l l' → member_key <$> canonical l = member_key <$> canonical l'.
Proof.
  intros (m & Hm & Hp). apply (isort_keys key_pair_leb member_key);
    [apply key_pair_leb_total|apply key_pair_leb_trans|apply key_pair_leb_antisym|].
  rewrite <-Hp, <-!list_fmap_compose. assert (member_key ∘ normalize <$> l = member_key ∘ normalize <$> m) as ->; [|done].
  clear Hp. induction Hm as [|x y l m Hxy Hm IH]; [done|]. rewrite !fmap_cons, IH. f_equal. by apply same_key.
Qed.
Lemma canonical_canon {A} `{SameKeys A} (l l' : list A) : same_members l l' → as_canon (PList (asdict <$> canonical l)) (PList (asdict <$> canonical l')).
Proof.
  intros Hk%canonical_keys. apply canon_list_congr. revert Hk. generalize (canonical l), (canonical l'). clear.
  intros l. induction l as [|x l IH]; intros [|y l']; try done. rewrite !fmap_cons. intros [= _ Hj Hl].
  apply json_canonical in Hj. rewrite Hj. f_equal. by apply IH.
Qed.
Lemma same_key_of {A} `{Member A} (a b : A) : member_identity a = member_identity b → as_canon (asdict a) (asdict b) → member_key a = member_key b.
Proof. intros Hi Hc. unfold member_key. f_equal; [done|]. by apply json_canonical. Qed.

#[export] Instance disk_keys : SameKeys DiscoveredDisk.
Proof. by intros a b ->. Qed.
#[export] Instance storage_keys : SameKeys DiscoveredStorage.
Proof. by intros a b ->. Qed.
#[export] Instance vdisk_keys : SameKeys DiscoveredVirtualDisk.
Proof. by intros a b ->. Qed.
#[export] Instance hif_keys : SameKeys DiscoveredHostInterface.
Proof. intros i i' (addresses & ports & -> & Ha & Hp). cbn. by rewrite (isort_texts _ _ Ha), (isort_texts _ _ Hp). Qed.
#[export] Instance nic_keys : SameKeys DiscoveredInterface.
Proof.
  intros n n' (addresses & -> & Ha). change (normalize n) with (nic_with_addresses (address_set (nic_ip_addresses n)) n).
  change (normalize (nic_with_addresses addresses n)) with (nic_with_addresses (address_set addresses) n). by rewrite (address_set_same _ _ Ha).
Qed.
Ltac same_fields := apply same_key_of; [reflexivity|]; apply canon_dict_congr;
  repeat (constructor; [cbn [fst snd]; split; [reflexivity|]; first [reflexivity | match goal with H : same_members _ _ |- _ => exact (canonical_canon _ _ H) end]|]); constructor.
#[export] Instance vm_keys : SameKeys DiscoveredVirtualMachine.
Proof. intros v v' (disks & nics & -> & Hd & Hn). same_fields. Qed.
#[export] Instance ct_keys : SameKeys DiscoveredContainer.
Proof. intros c c' (disks & nics & -> & Hd & Hn). same_fields. Qed.
#[export] Instance host_keys : SameKeys DiscoveredHost.
Proof. intros h h' (disks & storages & nics & vms & cts & -> & Hd & Hs & Hn & Hv & Hc). same_fields. Qed.

(** C22: [canonical_hosts] depends on what discovery found and not on the order it was
    found in. Two inventories whose lists of hosts, guests, interfaces, disks, storage
    pools and addresses have the same members, in any order at every level and with
    addresses in any notation, have the same canonical JSON, member for member; and an
    inventory that is canonical already is left as it is. *)
Theorem canonical_hosts_order_free hosts :
  canonical_hosts (canonical_hosts hosts) = canonical_hosts hosts ∧
  ∀ hosts', same_members hosts hosts' →
    (λ h, json_dumps (host_dict h)) <$> canonical_hosts hosts = (λ h, json_dumps (host_dict h)) <$> canonical_hosts hosts'.
Proof.
  split; [apply canonical_idem|]. intros hosts' Hk%canonical_keys. apply (f_equal (fmap snd)) in Hk. by rewrite <-!list_fmap_compose in Hk.
Qed.

Definition order_nic (addresses : list string) : DiscoveredInterface := mkInterface "eth0" None (Some "vmbr0") None addresses None None None [] [].
Definition order_vm (addresses : list string) : DiscoveredVirtualMachine :=
  mkVM "esxi" "lab" false "esxi:42" "esxi:host-1" (PInt 42) "web" "web" "running" 2 4294967296 true [] [order_nic addresses] None None None None None.
Definition order_host (id : string) (vms : list DiscoveredVirtualMachine) : DiscoveredHost :=
  mkHost "esxi" "lab" false id id id None "ESXi" None (mkCPU None None 1 4 8) 68719476736 None None [] [] [] vms [] None None None None None.
Lemma canonical_hosts_order_free_witness :
  (λ h, json_dumps (host_dict h)) <$> canonical_hosts [order_host "b" [order_vm ["10.0.0.6/24"; "10.0.0.5/24"]]; order_host "a" []] =
  (λ h, json_dumps (host_dict h)) <$> canonical_hosts [order_host "a" []; order_host "b" [order_vm ["10.0.0.5/255.255.255.0"; "10.0.0.6/0.0.0.255"]]].
Proof.
  apply (proj2 (canonical_hosts_order_free [order_host "b" [order_vm ["10.0.0.6/24"; "10.0.0.5/24"]]; order_host "a" []])).
  exists [order_host "b" [order_vm ["10.0.0.5/255.255.255.0"; "10.0.0.6/0.0.0.255"]]; order_host "a" []]. split; [|apply Permutation_swap].
  assert (∀ A `{SameMember A} (l : list A), Forall (λ x, same_member x x) l → same_members l l) as Hrefl.
  { intros A S l Hl. exists l. split; [|done]. by induction Hl; constructor. }
  constructor; [|constructor; [|constructor]].
  - exists [], [], [], [order_vm ["10.0.0.5/255.255.255.0"; "10.0.0.6/0.0.0.255"]], []. split_and!; [done|by apply Hrefl..| |by apply Hrefl].
    exists [order_vm ["10.0.0.5/255.255.255.0"; "10.0.0.6/0.0.0.255"]]. split; [|done]. constructor; [|constructor].
    exists [], [order_nic ["10.0.0.5/255.255.255.0"; "10.0.0.6/0.0.0.255"]]. split_and!; [done|by apply Hrefl|].
    exists [order_nic ["10.0.0.5/255.255.255.0"; "10.0.0.6/0.0.0.255"]]. split; [|done]. constructor; [|constructor].
    exists ["10.0.0.5/255.255.255.0"; "10.0.0.6/0.0.0.255"]. split; [done|]. intros a. vm_compute (normal_address <$> _).
    split; intros Ha; [apply elem_of_cons in Ha as [->|Ha]|apply elem_of_cons in Ha as [->|Ha]].
    + by apply list_elem_of_In; right; left.
    + apply list_elem_of_singleton in Ha as ->. left.
    + by apply list_elem_of_In; right; left.
    + apply list_elem_of_singleton in Ha as ->. left.
  - exists [], [], [], [], []. split_and!; [done|by apply Hrefl..].
Defined.
