(* ===== verification/InventoryConflicts.v ===== *)
(** * Conflicting facts of an inventory (application/inventory_conflicts.py and the
      projection of application/ip_observations.py)

    Addresses, MAC addresses and identities that more than one object claims are
    collected before anything is written. In strict mode they block the
    synchronisation; in observe mode the disputed addresses are taken out of the
    inventory and kept as observations of their interface. *)

From S2P Require Import Prelude PyValue JsonCanonical NetBox Discovery SourceIdentity Metadata SourceConfig PyUuid PyIp InventoryOrder.
From stdpp Require Import base list strings pretty sets.
From Stdlib Require Import ZArith Lia Ascii.
Local Open Scope string_scope.

(** [text.upper()] on Latin-1 as far as comparisons go: the sharp s has two
    letters, the micro sign and y with diaeresis have no other Latin-1 form. *)
Definition upper_char (c : ascii) : string :=
  let n := nat_of_ascii c in
  if is_lower c || (Nat.leb 224 n && Nat.leb n 254 && negb (Nat.eqb n 247)) then String (ascii_of_nat (n - 32)) ""
  else if Nat.eqb n 223 then "SS" else String c "".
Definition upper (s : string) : string := concat_chars upper_char s.
(** [str(mac or "").strip().upper()]. *)
Definition mac_text (mac : option string) : string := upper (strip (default "" mac)).

(** [ip_interface(value)] for any value: numbers are addresses too, and what else
    is no text is read as its [str]. *)
Definition py_ip_interface (v : pyval) : result exn ip_interface_t :=
  let number n :=
    if (0 <=? n)%Z && (n <? 2 ^ 32)%Z then Ok (mkIp false (Z.to_N n) 32 None)
    else if (0 <=? n)%Z && (n <? 2 ^ 128)%Z then Ok (mkIp true (Z.to_N n) 128 None)
    else Err (ValueError "does not appear to be an IPv4 or IPv6 interface") in
  match v with
  | PInt n => number n
  | PBool b => number (if b then 1 else 0)%Z
  | _ => match ip_interface (py_str v) with Some a => Ok a | None => Err (ValueError "does not appear to be an IPv4 or IPv6 interface") end
  end.

(** [scope_key]. *)
Definition scope_key (address : string) (vrf_id : option Z) : string :=
  match vrf_id with None => address | Some vrf => "vrf:" +:+ pretty vrf +:+ ":" +:+ address end.

Record ConflictParticipant := mkParticipant {
  cp_name : string;
  cp_external_id : string;
  cp_provider_object_id : option string;
  cp_host_id : string;
  cp_interface : option string;
  cp_interface_id : option string;
  cp_address : pyval;
  cp_vrf_id : pyval;
  cp_netbox_id : pyval }.

Inductive ConflictKind := VM_IDENTITY | IP_ASSIGNMENT | MAC_ASSIGNMENT.
#[export] Instance ConflictKind_eq_dec : EqDecision ConflictKind.
Proof. solve_decision. Defined.

Record InventoryConflict := mkConflict { ic_kind : ConflictKind; ic_value : string; ic_participants : list ConflictParticipant }.

(** ** The traversal *)

Definition host_guests (h : DiscoveredHost) : list Guest := ((GuestVM <$> host_virtual_machines h) ++ (GuestCT <$> host_containers h))%list.
Definition guest_kind (g : Guest) : string := match g with GuestVM _ => "vm" | GuestCT _ => "lxc" end.
(** [str(getattr(vm, "external_id", None) or vm.vmid)]. *)
Definition guest_external_id (g : Guest) : string :=
  match g with GuestVM v => or_text (vm_external_id v) (py_str (vm_vmid v)) | GuestCT c => pretty (ct_vmid c) end.
Definition participant (h : DiscoveredHost) (g : Guest) : ConflictParticipant :=
  mkParticipant (match g with GuestVM v => vm_original_name v | GuestCT c => ct_original_name c end) (guest_external_id g)
    (match g with GuestVM v => vm_provider_object_id v | GuestCT _ => None end) (host_source_id h) None None PNone PNone PNone.
Definition on_nic (base : ConflictParticipant) (n : DiscoveredInterface) (address vrf netbox : pyval) : ConflictParticipant :=
  mkParticipant (cp_name base) (cp_external_id base) (cp_provider_object_id base) (cp_host_id base) (Some (nic_name n)) (nic_external_id n) address vrf netbox.

(** A [defaultdict(list)] is the sequence of its appends. *)
Abbreviation facts K := (list (K * ConflictParticipant)).

Section Collect.
Context (mapped_as_ipv4 : bool).

(** The usable addresses of an interface, each text once. *)
Fixpoint usable (seen raws : list string) : list ip_interface_t :=
  match raws with
  | [] => []
  | raw :: raws' =>
      match ip_interface raw with
      | None => usable seen raws'
      | Some a =>
          if special mapped_as_ipv4 a then usable seen raws'
          else if bool_decide (interface_text a ∈ seen) then usable seen raws'
          else a :: usable (interface_text a :: seen) raws'
      end
  end.

Definition mac_facts (base : ConflictParticipant) (n : DiscoveredInterface) : result exn (facts string) :=
  match nic_mac_address n with
  | None | Some EmptyString => Ok []
  | Some mac =>
      let mac := mac_text (Some mac) in
      previous ← mapR (λ p, i ← py_item "netbox_id" (PDict p); Ok (mac, on_nic base n (PStr mac) PNone i)) (nic_mac_scope_conflicts n);
      Ok ((mac, on_nic base n (PStr mac) PNone PNone) :: previous)
  end.
Definition own_facts (base : ConflictParticipant) (n : DiscoveredInterface) : facts string :=
  (λ a, (scope_key (ip_text a) (nic_ip_vrf_id n), on_nic base n (PStr (interface_text a)) (py_opt_int (nic_ip_vrf_id n)) PNone)) <$>
    usable [] (nic_ip_addresses n).
Definition scope_fact (base : ConflictParticipant) (n : DiscoveredInterface) (previous : pydict) : result exn (string * ConflictParticipant) :=
  address ← py_item "address" (PDict previous);
  a ← py_ip_interface address;
  vrf ← py_item "vrf_id" (PDict previous);
  netbox ← py_item "netbox_id" (PDict previous);
  Ok (scope_key (ip_text a) (nic_ip_vrf_id n), on_nic base n address vrf netbox).

(** [_collect_interface]: the address facts and the MAC facts of an interface. *)
Definition collect_interface (n : DiscoveredInterface) (base : ConflictParticipant) : result exn (facts string * facts string) :=
  macs ← mac_facts base n;
  previous ← mapR (scope_fact base n) (nic_ip_scope_conflicts n);
  Ok ((own_facts base n ++ previous)%list, macs).

Definition inventory_nics (hosts : list DiscoveredHost) : list (ConflictParticipant * DiscoveredInterface) :=
  h ← hosts; g ← host_guests h; (λ n, (participant h g, n)) <$> guest_interfaces g.
Definition identity_facts (hosts : list DiscoveredHost) : facts (string * string) :=
  h ← hosts; (λ g, ((guest_kind g, guest_external_id g), participant h g)) <$> host_guests h.

(** [sorted(d.items())] of the collected facts. *)
Definition members_of {K} `{EqDecision K} (k : K) (fs : facts K) : list ConflictParticipant := snd <$> filter (λ f, f.1 = k) fs.
Definition shared {K} `{EqDecision K} (leb : K → K → bool) (fs : facts K) : list (K * list ConflictParticipant) :=
  filter (λ e, (1 < length e.2)%nat) ((λ k, (k, members_of k fs)) <$> isort leb (remove_dups fs.*1)).

Definition inventory_conflicts (hosts : list DiscoveredHost) : result exn (list InventoryConflict) :=
  collected ← mapR (λ e, collect_interface e.2 e.1) (inventory_nics hosts);
  let addresses := mjoin (fst <$> collected) in
  let macs := mjoin (snd <$> collected) in
  Ok (((λ e, mkConflict VM_IDENTITY e.1.2 e.2) <$> shared key_pair_leb (identity_facts hosts)) ++
      ((λ e, mkConflict IP_ASSIGNMENT e.1 e.2) <$> shared String.leb addresses) ++
      ((λ e, mkConflict MAC_ASSIGNMENT e.1 e.2) <$> shared String.leb macs))%list.

(** ** The projection *)

Definition nic_projected (addresses : list string) (mac : option string) (observations : pydict) (n : DiscoveredInterface) : DiscoveredInterface :=
  mkInterface (nic_name n) mac (nic_bridge n) (nic_vlan_id n) addresses (nic_external_id n) (Some observations)
    (nic_ip_vrf_id n) (nic_ip_scope_conflicts n) (nic_mac_scope_conflicts n).

Definition disputed (excluded : list string) (n : DiscoveredInterface) (raw : string) : bool :=
  match ip_interface raw with Some a => bool_decide (scope_key (ip_text a) (nic_ip_vrf_id n) ∈ excluded) | None => false end.

(** [_project_interface_observations]. *)
Definition project_interface (excluded excluded_macs : list string) (n : DiscoveredInterface) : DiscoveredInterface :=
  let kept := filter (λ raw, disputed excluded n raw = false) (nic_ip_addresses n) in
  let observed := normal_address <$> filter (λ raw, disputed excluded n raw = true) (nic_ip_addresses n) in
  let mac := mac_text (nic_mac_address n) in
  let observed_macs := if bool_decide (mac ∈ excluded_macs) then [mac] else [] in
  let observations :=
    dupdate [("version", PInt 1);
             ("status", PStr (if bool_decide (observed = []) && bool_decide (observed_macs = []) then "NO_DISPUTED_ADDRESSES" else "REVIEW_REQUIRED"));
             ("addresses", py_strs observed); ("bridge", py_opt_str (nic_bridge n)); ("vlan_id", py_opt_int (nic_vlan_id n));
             ("ipam_complete", PBool (bool_decide (observed = []))); ("mac_addresses", py_strs observed_macs);
             ("mac_assignment_complete", PBool (bool_decide (observed_macs = [])))]
      ((match nic_mac_scope_conflicts n with [] => [] | l => [("mac_conflicts", PList (PDict <$> l))] end) ++
       (match nic_ip_vrf_id n with None => [] | Some vrf => [("vrf_id", PInt vrf)] end) ++
       (match nic_ip_scope_conflicts n with [] => [] | l => [("scope_conflicts", PList (PDict <$> l))] end))%list in
  nic_projected kept (if bool_decide (observed_macs = []) then nic_mac_address n else None) observations n.

Definition map_nics (f : DiscoveredHost → Guest → DiscoveredInterface → DiscoveredInterface) (h : DiscoveredHost) : DiscoveredHost :=
  host_with (host_disks h) (host_storages h) (host_interfaces h)
    ((λ v, vm_with (vm_disks v) (f h (GuestVM v) <$> vm_interfaces v) v) <$> host_virtual_machines h)
    ((λ c, ct_with (ct_disks c) (f h (GuestCT c) <$> ct_interfaces c) c) <$> host_containers h) h.

Definition is_kind (kind : ConflictKind) (c : InventoryConflict) : bool := bool_decide (ic_kind c = kind).
Definition values_of (kind : ConflictKind) (cs : list InventoryConflict) : list string := ic_value <$> filter (λ c, ic_kind c = kind) cs.

(** [assignment_inventory]: the inventory, the blockers and the observations. *)
Definition assignment_inventory (hosts : list DiscoveredHost) (policy : string) :
    result exn (list DiscoveredHost * list InventoryConflict * list InventoryConflict) :=
  if negb (bool_decide (policy = "strict") || bool_decide (policy = "observe")) then Err (ValueError "Unknown IP conflict policy")
  else
    let result := canonical_hosts hosts in
    conflicts ← inventory_conflicts result;
    if bool_decide (policy = "strict") then Ok (result, conflicts, [])
    else
      let blockers := filter (λ c, ic_kind c = VM_IDENTITY) conflicts in
      let observations := filter (λ c, ic_kind c ≠ VM_IDENTITY) conflicts in
      if negb (bool_decide (length blockers = 0%nat)) then Ok (result, conflicts, [])
      else
        let project := project_interface (values_of IP_ASSIGNMENT observations) (values_of MAC_ASSIGNMENT observations) in
        Ok (map_nics (λ _ _, project) <$> result, [], observations).
End Collect.

(** ** What is reported *)

Lemma members_length {K} `{EqDecision K} (k : K) (fs : facts K) : length (members_of k fs) = length (filter (λ x, x = k) fs.*1).
Proof.
  unfold members_of. rewrite length_fmap. induction fs as [|[k' p] fs IH]; [done|]. rewrite fmap_cons, !filter_cons. cbn [fst].
  case_decide; cbn [length]; by rewrite IH.
Qed.
Lemma elem_of_shared {K} `{EqDecision K} leb (fs : facts K) k ms :
  (k, ms) ∈ shared leb fs ↔ ms = members_of k fs ∧ (1 < length (filter (λ x, x = k) fs.*1))%nat.
Proof.
  unfold shared. rewrite list_elem_of_filter, list_elem_of_fmap. cbn [snd]. rewrite <-members_length. split.
  - intros [Hl (k' & [= <- ->] & _)]. done.
  - intros [-> Hl]. split; [done|]. exists k. split; [done|]. rewrite elem_of_isort, elem_of_remove_dups.
    rewrite members_length in Hl. destruct (filter (λ x, x = k) fs.*1) as [|x l] eqn:E; [simpl in Hl; lia|].
    assert (x ∈ filter (λ x, x = k) fs.*1) as [-> ?]%list_elem_of_filter by (rewrite E; left). done.
Qed.

(** Elements that occur once in a list are distinct in a sublist. *)
Lemma filter_sublist {A} (P : A → Prop) `{∀ x, Decision (P x)} (l l' : list A) : sublist l l' → sublist (filter P l) (filter P l').
Proof. induction 1; [done|..]; rewrite ?filter_cons; repeat case_decide; by try constructor. Qed.
Lemma NoDup_once {A} `{EqDecision A} (l l' : list A) :
  sublist l l' → (∀ k, k ∈ l → (length (filter (λ x, x = k) l') ≤ 1)%nat) → NoDup l.
Proof.
  intros Hsub Hone. assert (∀ k, k ∈ l → (length (filter (λ x, x = k) l) ≤ 1)%nat) as H1.
  { intros k Hk. etrans; [by apply sublist_length, filter_sublist|]. by apply Hone. }
  clear Hsub Hone. induction l as [|x l IH]; constructor.
  - intros Hx. specialize (H1 x ltac:(left)). rewrite filter_cons_True in H1 by done.
    assert (x ∈ filter (λ y, y = x) l) as Hin by (by apply list_elem_of_filter).
    destruct (filter (λ y, y = x) l); [by apply elem_of_nil in Hin|]. simpl in H1. lia.
  - apply IH. intros k Hk. specialize (H1 k ltac:(by right)). rewrite filter_cons in H1. case_decide; simpl in H1; lia.
Qed.

(** ** Interfaces of a projected inventory *)

Lemma inventory_nics_map (p : DiscoveredInterface → DiscoveredInterface) hosts :
  inventory_nics (map_nics (λ _ _, p) <$> hosts) = (λ e, (e.1, p e.2)) <$> inventory_nics hosts.
Proof.
  unfold inventory_nics. induction hosts as [|h hosts IH]; [done|]. rewrite fmap_cons. rewrite !bind_cons, fmap_app, IH. f_equal.
  unfold host_guests. cbn [map_nics host_with host_virtual_machines host_containers]. rewrite !bind_app, fmap_app. f_equal.
  - induction (host_virtual_machines h) as [|v vms IHv]; [done|]. rewrite !fmap_cons, !bind_cons, fmap_app, IHv. f_equal.
    cbn [guest_interfaces vm_with vm_interfaces]. by rewrite <-!list_fmap_compose.
  - induction (host_containers h) as [|c cts IHc]; [done|]. rewrite !fmap_cons, !bind_cons, fmap_app, IHc. f_equal.
    cbn [guest_interfaces ct_with ct_interfaces]. by rewrite <-!list_fmap_compose.
Qed.

Section Observe.
Context (mapped_as_ipv4 : bool).
Abbreviation usable := (usable mapped_as_ipv4).
Abbreviation own_facts := (own_facts mapped_as_ipv4).

Lemma interface_text_inj s t a b : ip_interface s = Some a → ip_interface t = Some b → interface_text a = interface_text b → a = b.
Proof. intros Ha%ip_interface_wf%ip_roundtrip Hb%ip_interface_wf%ip_roundtrip E. rewrite E in Ha. congruence. Qed.
Lemma usable_parsed seen raws a : a ∈ usable seen raws → ∃ s, ip_interface s = Some a.
Proof.
  revert seen. induction raws as [|raw raws IH]; intros seen; cbn [InventoryConflicts.usable]; [by intros ?%elem_of_nil|].
  destruct (ip_interface raw) as [b|] eqn:E; [|apply IH]. destruct (special _ b); [apply IH|]. case_bool_decide; [apply IH|].
  intros [->|H']%elem_of_cons; [by exists raw|by eapply IH].
Qed.

Lemma usable_ext l l' raws : (∀ x, x ∈ l ↔ x ∈ l') → usable l raws = usable l' raws.
Proof.
  revert l l'. induction raws as [|raw raws IH]; intros l l' Hl; [done|]. cbn [InventoryConflicts.usable]. destruct (ip_interface raw) as [b|]; [|by apply IH].
  destruct (special _ b); [by apply IH|]. rewrite (bool_decide_ext _ (interface_text b ∈ l')) by apply Hl.
  case_bool_decide; [by apply IH|]. f_equal. apply IH. intros x. by rewrite !elem_of_cons, Hl.
Qed.

(** Dropping the addresses of some keys before they are collected or after. *)
Lemma usable_seen (Q : ip_interface_t → Prop) `{∀ a, Decision (Q a)} t seen raws :
  (∀ s a, ip_interface s = Some a → interface_text a = t → ¬ Q a) → filter Q (usable (t :: seen) raws) = filter Q (usable seen raws).
Proof.
  intros HQ. revert seen. induction raws as [|raw raws IH]; intros seen; cbn [InventoryConflicts.usable]; [done|].
  destruct (ip_interface raw) as [a|] eqn:E; [|apply IH]. destruct (special _ a); [apply IH|].
  destruct (decide (interface_text a ∈ seen)) as [Hs|Hs]; [rewrite !bool_decide_eq_true_2 by (done || by right); apply IH|].
  rewrite (bool_decide_eq_false_2 (_ ∈ seen)) by done. destruct (decide (interface_text a = t)) as [<-|Hne].
  - rewrite bool_decide_eq_true_2 by left. rewrite filter_cons_False; [done|]. by eapply HQ.
  - rewrite bool_decide_eq_false_2 by (intros [?|?]%elem_of_cons; done). rewrite !filter_cons.
    rewrite (usable_ext _ (t :: interface_text a :: seen)) by (intros x; rewrite !elem_of_cons; tauto). by rewrite IH.
Qed.
Lemma usable_filter excluded n seen raws :
  usable seen (filter (λ raw, disputed excluded n raw = false) raws) =
  filter (λ a, scope_key (ip_text a) (nic_ip_vrf_id n) ∉ excluded) (usable seen raws).
Proof.
  revert seen. induction raws as [|raw raws IH]; intros seen; [done|]. rewrite filter_cons. cbn [InventoryConflicts.usable].
  destruct (ip_interface raw) as [a|] eqn:E.
  2: { rewrite decide_True by (unfold disputed; by rewrite E). cbn [InventoryConflicts.usable]. rewrite E. apply IH. }
  destruct (decide (scope_key (ip_text a) (nic_ip_vrf_id n) ∈ excluded)) as [Hin|Hout].
  - rewrite decide_False by (unfold disputed; rewrite E, bool_decide_eq_true_2; done). rewrite IH. destruct (special _ a); [done|]. case_bool_decide; [done|].
    rewrite filter_cons_False by naive_solver. symmetry. apply usable_seen. intros s b Hb Ht. rewrite (interface_text_inj _ _ _ _ Hb E Ht). naive_solver.
  - rewrite decide_True by (unfold disputed; rewrite E, bool_decide_eq_false_2; done). cbn [InventoryConflicts.usable]. rewrite E.
    destruct (special _ a); [apply IH|]. case_bool_decide; [apply IH|]. rewrite filter_cons_True by done. by rewrite IH.
Qed.
Lemma own_keys_projected excluded macs base n :
  (own_facts base (project_interface excluded macs n)).*1 = filter (λ k, k ∉ excluded) (own_facts base n).*1.
Proof.
  unfold InventoryConflicts.own_facts. cbn [project_interface nic_projected nic_ip_addresses nic_ip_vrf_id]. rewrite usable_filter, <-!list_fmap_compose.
  generalize (usable [] (nic_ip_addresses n)). intros l. induction l as [|a l IH]; [done|]. rewrite fmap_cons, !filter_cons. cbn [compose fst].
  case_decide; [by rewrite fmap_cons, IH|done].
Qed.

(** ** The projected inventory *)

(** The scoped addresses and the MAC addresses an inventory assigns. *)
Definition assigned (hosts : list DiscoveredHost) : list string := mjoin ((λ e, (own_facts e.1 e.2).*1) <$> inventory_nics hosts).
Definition nic_macs (n : DiscoveredInterface) : list string :=
  match nic_mac_address n with None | Some EmptyString => [] | Some mac => [mac_text (Some mac)] end.
Definition claimed_macs (hosts : list DiscoveredHost) : list string := mjoin ((λ e, nic_macs e.2) <$> inventory_nics hosts).
(** The scoped addresses of records that NetBox holds for someone else. *)
Definition foreign (hosts : list DiscoveredHost) (k : string) : Prop :=
  ∃ base n previous p, (base, n) ∈ inventory_nics hosts ∧ previous ∈ nic_ip_scope_conflicts n ∧ scope_fact base n previous = Ok (k, p).

Abbreviation collect := (λ e : ConflictParticipant * DiscoveredInterface, collect_interface mapped_as_ipv4 e.2 e.1).

(** Every collected address is assigned or foreign, and every MAC address an
    interface claims is collected. *)
Lemma collected_keys nics collected :
  mapR collect nics = Ok collected →
  (∃ others, (mjoin (fst <$> collected)).*1 ≡ₚ (mjoin ((λ e, (own_facts e.1 e.2).*1) <$> nics) ++ others)%list ∧
    ∀ base n previous k p, (base, n) ∈ nics → previous ∈ nic_ip_scope_conflicts n → scope_fact base n previous = Ok (k, p) → k ∈ others) ∧
  sublist (mjoin ((λ e, nic_macs e.2) <$> nics)) (mjoin (snd <$> collected)).*1.
Proof.
  intros Hc%mapR_Ok. induction Hc as [|[base n] [addresses macs] nics collected Hcollect Hc [(others & Hp & Hothers) Hmacs]].
  { split; [exists []; split; [done|]|done]. by intros ????? ?%elem_of_nil. }
  rewrite !fmap_cons. cbn [mjoin list_join fst snd]. rewrite !fmap_app. unfold collect_interface in Hcollect. cbn [fst snd] in Hcollect.
  apply result_bind_Ok in Hcollect as (ms & Hms & (prev & Hprev & [= <- <-])%result_bind_Ok). split.
  - exists (prev.*1 ++ others)%list. rewrite fmap_app, Hp. split; [solve_Permutation|].
    intros b m previous k p [[= -> ->]|Hin]%elem_of_cons Hpr Hf; apply elem_of_app; [left|right; by eapply Hothers].
    apply mapR_Ok in Hprev. apply list_elem_of_lookup in Hpr as [i Hi]. destruct (Forall2_lookup_l _ _ _ _ _ Hprev Hi) as (y & Hy & Ey).
    rewrite Hf in Ey. injection Ey as <-. apply list_elem_of_fmap. exists (k, p). split; [done|]. by eapply list_elem_of_lookup_2.
  - apply sublist_app; [|exact Hmacs]. unfold mac_facts, nic_macs in *. destruct (nic_mac_address n) as [[|c mac]|]; [apply sublist_nil_l| |apply sublist_nil_l].
    apply result_bind_Ok in Hms as (previous & _ & [= <-]). rewrite fmap_cons. apply sublist_skip, sublist_nil_l.
Qed.

Definition occurrences (k : string) (l : list string) : nat := length (filter (λ x, x = k) l).
Lemma occurrences_app k l l' : occurrences k (l ++ l') = (occurrences k l + occurrences k l')%nat.
Proof. unfold occurrences. by rewrite filter_app, length_app. Qed.
Lemma occurrences_elem k l : k ∈ l → (1 ≤ occurrences k l)%nat.
Proof.
  intros Hk. assert (k ∈ filter (λ x, x = k) l) as H by (by apply list_elem_of_filter). unfold occurrences.
  destruct (filter _ l); [by apply elem_of_nil in H|simpl; lia].
Qed.

(** The values reported are those that occur twice. *)
Lemma reported_values kind (fs : facts string) a b k :
  Forall (λ c, ic_kind c ≠ kind) a → Forall (λ c, ic_kind c ≠ kind) b → kind ≠ VM_IDENTITY →
  k ∈ values_of kind (filter (λ c, ic_kind c ≠ VM_IDENTITY) (a ++ ((λ e, mkConflict kind e.1 e.2) <$> shared String.leb fs) ++ b)%list) ↔
  (1 < occurrences k fs.*1)%nat.
Proof.
  intros Ha Hb Hk. unfold values_of. rewrite list_elem_of_fmap. setoid_rewrite list_elem_of_filter. setoid_rewrite list_elem_of_filter.
  setoid_rewrite elem_of_app. setoid_rewrite elem_of_app. setoid_rewrite list_elem_of_fmap. rewrite Forall_forall in Ha, Hb. split.
  - intros (c & -> & Hc & _ & [?|[([k' ms] & -> & Hin)|?]]); [by destruct (Ha c)| |by destruct (Hb c)].
    by apply elem_of_shared in Hin as [_ Hin].
  - intros H. exists (mkConflict kind k (members_of k fs)). split_and!; [done..|]. right. left. exists (k, members_of k fs). split; [done|].
    by apply elem_of_shared.
Qed.

Lemma nic_macs_projected excluded macs n :
  nic_macs (project_interface excluded macs n) = filter (λ k, k ∉ macs) (nic_macs n).
Proof.
  unfold nic_macs. cbn [project_interface nic_projected nic_mac_address]. destruct (nic_mac_address n) as [[|c mac]|]; [by repeat case_bool_decide| |by repeat case_bool_decide].
  destruct (decide (mac_text (Some (String c mac)) ∈ macs)) as [Hm|Hm].
  - rewrite (bool_decide_eq_true_2 _ Hm), filter_cons_False by naive_solver. by rewrite bool_decide_eq_false_2.
  - rewrite (bool_decide_eq_false_2 _ Hm), filter_cons_True by done. by rewrite bool_decide_eq_true_2.
Qed.
Lemma filter_mjoin {A} (P : A → Prop) `{∀ x, Decision (P x)} (ls : list (list A)) : filter P (mjoin ls) = mjoin (filter P <$> ls).
Proof.
  induction ls as [|l ls IH]; [done|]. rewrite fmap_cons. change (filter P (l ++ mjoin ls) = filter P l ++ mjoin (filter P <$> ls))%list.
  by rewrite filter_app, IH.
Qed.

Lemma projected_keys excluded macs found :
  assigned (map_nics (λ _ _, project_interface excluded macs) <$> found) = filter (λ k, k ∉ excluded) (assigned found) ∧
  claimed_macs (map_nics (λ _ _, project_interface excluded macs) <$> found) = filter (λ k, k ∉ macs) (claimed_macs found).
Proof.
  unfold assigned, claimed_macs. rewrite inventory_nics_map, !filter_mjoin, <-!list_fmap_compose. split; f_equal; apply list_fmap_ext.
  - intros i [base n] _. apply own_keys_projected.
  - intros i [base n] _. apply nic_macs_projected.
Qed.

Lemma canonical_addresses hosts base n : (base, n) ∈ inventory_nics (canonical_hosts hosts) → ∀ a, a ∈ nic_ip_addresses n → normal_address a = a.
Proof.
  unfold inventory_nics. intros (h & Hn & Hh)%list_elem_of_bind. apply list_elem_of_bind in Hn as (g & Hn & Hg).
  apply elem_of_isort, list_elem_of_fmap in Hh as (h0 & -> & _). apply list_elem_of_fmap in Hn as (n' & [= -> ->] & Hn).
  assert (∃ m, n' = nic_with_addresses (address_set (nic_ip_addresses m)) m) as (m & ->).
  { unfold host_guests in Hg. apply elem_of_app in Hg as [Hg|Hg]; apply list_elem_of_fmap in Hg as (x & -> & Hx).
    all: cbn in Hx; apply elem_of_isort, list_elem_of_fmap in Hx as (y & -> & _).
    all: cbn in Hn; apply elem_of_isort, list_elem_of_fmap in Hn as (m & -> & _); by exists m. }
  intros a Ha. apply elem_of_address_set, list_elem_of_fmap in Ha as (b & -> & _). apply normal_address_idem.
Qed.

(** What an interface keeps and what becomes evidence: every address is still assigned
    or recorded; the MAC address is still there and none is recorded, or it is one of
    the reported ones, gone from the interface and recorded; what NetBox holds for
    others is recorded; the flags say whether anything was withheld; nothing else of
    the interface changes. *)
Definition evidence_kept (reported_macs : list string) (e e' : ConflictParticipant * DiscoveredInterface) : Prop :=
  let n := e.2 in let n' := e'.2 in
  e'.1 = e.1 ∧
  (nic_name n', nic_bridge n', nic_vlan_id n', nic_external_id n', nic_ip_vrf_id n', nic_ip_scope_conflicts n', nic_mac_scope_conflicts n') =
  (nic_name n, nic_bridge n, nic_vlan_id n, nic_external_id n, nic_ip_vrf_id n, nic_ip_scope_conflicts n, nic_mac_scope_conflicts n) ∧
  ∃ observed withheld fields, nic_network_observations n' = Some fields ∧
    nic_ip_addresses n ≡ₚ (nic_ip_addresses n' ++ observed)%list ∧
    dget "addresses" fields = py_strs observed ∧ dget "ipam_complete" fields = PBool (bool_decide (observed = [])) ∧
    (withheld = [] ∧ nic_mac_address n' = nic_mac_address n ∨
     withheld = [mac_text (nic_mac_address n)] ∧ nic_mac_address n' = None ∧ mac_text (nic_mac_address n) ∈ reported_macs) ∧
    dget "mac_addresses" fields = py_strs withheld ∧ dget "mac_assignment_complete" fields = PBool (bool_decide (withheld = [])) ∧
    dget "bridge" fields = py_opt_str (nic_bridge n) ∧ dget "vlan_id" fields = py_opt_int (nic_vlan_id n) ∧
    (nic_mac_scope_conflicts n ≠ [] → dget "mac_conflicts" fields = PList (PDict <$> nic_mac_scope_conflicts n)) ∧
    (nic_ip_scope_conflicts n ≠ [] → dget "scope_conflicts" fields = PList (PDict <$> nic_ip_scope_conflicts n)).

Lemma normal_filtered n excluded :
  (∀ a, a ∈ nic_ip_addresses n → normal_address a = a) →
  normal_address <$> filter (λ raw, disputed excluded n raw = true) (nic_ip_addresses n) = filter (λ raw, disputed excluded n raw = true) (nic_ip_addresses n).
Proof.
  intros H. rewrite <-(list_fmap_id (filter _ _)) at 2. apply list_fmap_ext. intros i x Hx%list_elem_of_lookup_2. apply list_elem_of_filter in Hx as [_ Hx].
  by apply H.
Qed.
Lemma projected_interface excluded macs base n :
  (∀ a, a ∈ nic_ip_addresses n → normal_address a = a) → evidence_kept macs (base, n) (base, project_interface excluded macs n).
Proof.
  intros Hcanon. split; [done|]. split; [done|].
  exists (filter (λ raw, disputed excluded n raw = true) (nic_ip_addresses n)),
    (if bool_decide (mac_text (nic_mac_address n) ∈ macs) then [mac_text (nic_mac_address n)] else []).
  eexists. split; [done|]. rewrite (normal_filtered n excluded Hcanon). split.
  { cbn [snd project_interface nic_projected nic_ip_addresses]. rewrite <-(filter_app_complement (λ raw, disputed excluded n raw = false)) at 1.
    apply Permutation_app_head. rewrite (list_filter_iff _ (λ raw, disputed excluded n raw = true)); [done|]. intros x. by destruct (disputed excluded n x). }
  cbn [fst snd project_interface nic_projected nic_mac_address].
  destruct (decide (mac_text (nic_mac_address n) ∈ macs)) as [Hm|Hm]; [rewrite !(bool_decide_eq_true_2 _ Hm)|rewrite !(bool_decide_eq_false_2 _ Hm)].
  all: destruct (nic_mac_scope_conflicts n), (nic_ip_vrf_id n), (nic_ip_scope_conflicts n); cbn; split_and!; auto; done.
Qed.
Lemma projected_evidence excluded macs hosts :
  let found := canonical_hosts hosts in
  Forall2 (evidence_kept macs) (inventory_nics found) (inventory_nics (map_nics (λ _ _, project_interface excluded macs) <$> found)).
Proof.
  cbv zeta. rewrite inventory_nics_map. pose proof (canonical_addresses hosts) as Hcanon.
  induction (inventory_nics (canonical_hosts hosts)) as [|[base n] nics IH]; constructor; [|apply IH; intros ???; eapply Hcanon; by right].
  apply projected_interface. intros a Ha. eapply Hcanon; [by left|done].
Qed.

(** What the reported values are, in terms of the inventory. *)
Lemma conflict_values found conflicts :
  inventory_conflicts mapped_as_ipv4 found = Ok conflicts →
  let observed kind := values_of kind (filter (λ c, ic_kind c ≠ VM_IDENTITY) conflicts) in
  ∃ others macs,
    (∀ k, k ∈ observed IP_ASSIGNMENT ↔ (1 < occurrences k (assigned found) + occurrences k others)%nat) ∧ (∀ k, foreign found k → k ∈ others) ∧
    (∀ k, k ∈ observed MAC_ASSIGNMENT ↔ (1 < occurrences k macs)%nat) ∧ sublist (claimed_macs found) macs.
Proof.
  unfold inventory_conflicts. intros (collected & Hcol & [= <-])%result_bind_Ok. destruct (collected_keys _ _ Hcol) as [(others & Hp & Hothers) Hmacs].
  exists others, (mjoin (snd <$> collected)).*1. split_and!; [| | |exact Hmacs].
  - intros k. rewrite reported_values by (done || by apply Forall_fmap, Forall_true).
    assert (occurrences k (mjoin (fst <$> collected)).*1 = occurrences k (assigned found) + occurrences k others)%nat as ->; [|done].
    rewrite <-occurrences_app. unfold occurrences. apply Permutation_length. by rewrite Hp.
  - intros k (base & n & previous & p & Hn & Hpr & Hf). by eapply Hothers.
  - intros k. rewrite app_assoc, <-(app_nil_r (_ <$> shared String.leb (mjoin (snd <$> collected)))). apply reported_values; [|done|done].
    apply Forall_app; split; by apply Forall_fmap, Forall_true.
Qed.
Lemma observe_result hosts result observations :
  assignment_inventory mapped_as_ipv4 hosts "observe" = Ok (result, [], observations) →
  ∃ conflicts, inventory_conflicts mapped_as_ipv4 (canonical_hosts hosts) = Ok conflicts ∧ observations = filter (λ c, ic_kind c ≠ VM_IDENTITY) conflicts ∧
    result = map_nics (λ _ _, project_interface (values_of IP_ASSIGNMENT observations) (values_of MAC_ASSIGNMENT observations)) <$> canonical_hosts hosts.
Proof.
  unfold assignment_inventory. rewrite bool_decide_eq_false_2, (bool_decide_eq_true_2 ("observe" = "observe")) by done. cbn [orb negb].
  intros (conflicts & Hc & H)%result_bind_Ok. exists conflicts. case_bool_decide as Hb; cbn [negb] in H; [by injection H as <- <-|].
  injection H as _ E _. by rewrite E in Hb.
Qed.

End Observe.

(** Two machines that both report one address, in two notations. *)
Definition conflict_nic (name : string) (addresses : list string) : DiscoveredInterface :=
  mkInterface name (Some "00:50:56:aa:bb:01") (Some "vmbr0") None addresses None None None [] [].
Definition conflict_vm (id : string) (nics : list DiscoveredInterface) : DiscoveredVirtualMachine :=
  mkVM "esxi" "lab" false ("esxi:" +:+ id) "esxi:host" (PStr id) ("vm " +:+ id) ("vm-" +:+ id) "running" 2 4294967296 true [] nics (Some id) None None None None.
Definition conflict_host (vms : list DiscoveredVirtualMachine) : DiscoveredHost :=
  mkHost "esxi" "lab" false "host-1" "host-1" "host-1" None "ESXi" None (mkCPU None None 1 4 8) 68719476736 None None [] [] [] vms [] None None None None None.
Definition conflict_hosts : list DiscoveredHost :=
  [conflict_host [conflict_vm "42" [conflict_nic "eth0" ["10.0.0.5/24"; "10.0.0.6/24"]];
                  conflict_vm "7" [mkInterface "eth0" None None None ["10.0.0.5/255.255.255.0"; "fe80::1/64"] None None None [] []]]].

