(* ===== verification/Prerequisites.v ===== *)
(** * Prerequisite fields (prerequisites.py)

    The custom fields the synchronisation needs in NetBox: their fixed definitions and
    how the fields found there are classified. The Russian labels and purposes and the
    operator texts of [mismatch_details] are not modelled. *)

From S2P Require Import Prelude PyValue NetBox.
From stdpp Require Import base list strings.
From Stdlib Require Import ZArith Lia.
Local Open Scope string_scope.
#[local] Arguments py_eqb _ _ : simpl never.

(** [FIELDS] with the English texts of [LABELS] and [PURPOSES]. *)
Record managed_field := mkField { mf_name : string; mf_type : string; mf_models : list string; mf_label : string; mf_purpose : string }.
Definition FIELDS : list managed_field :=
  [mkField "sync_identities" "json" ["dcim.device"; "dcim.interface"; "virtualization.virtualmachine"; "virtualization.vminterface"]
     "Source identities" "Stable, source-scoped ownership; never name adoption.";
   mkField "sync_original_names" "json" ["dcim.device"; "dcim.interface"; "virtualization.virtualmachine"; "virtualization.vminterface"]
     "Original source names" "Original names retained independently of display names.";
   mkField "hypervisor_version" "text" ["dcim.device"]
     "Hypervisor version" "Observed host hypervisor version.";
   mkField "cpu_model" "text" ["dcim.device"]
     "Host CPU model" "Observed physical host hardware.";
   mkField "cpu_vendor" "text" ["dcim.device"]
     "Host CPU vendor" "Observed physical host hardware.";
   mkField "cpu_sockets" "integer" ["dcim.device"]
     "Host CPU sockets" "Physical host topology, not VM vCPUs.";
   mkField "cpu_cores" "integer" ["dcim.device"]
     "Host CPU cores" "Physical host topology, not VM vCPUs.";
   mkField "cpu_threads" "integer" ["dcim.device"]
     "Host CPU threads" "Physical host topology, not VM vCPUs.";
   mkField "memory_mb" "integer" ["dcim.device"]
     "Host memory (MiB)" "Physical host memory; VM memory uses the standard field.";
   mkField "pfsense_inventory" "json" ["virtualization.virtualmachine"]
     "pfSense services and rules" "Collected pfSense configuration.";
   mkField "pfsense_network" "json" ["virtualization.virtualmachine"]
     "pfSense network" "Observed pfSense interfaces.";
   mkField "guest_kind" "text" ["virtualization.virtualmachine"]
     "Guest kind" "Distinguishes LXC from virtual machines.";
   mkField "guest_architecture" "text" ["virtualization.virtualmachine"]
     "Guest architecture" "Provider-reported LXC architecture.";
   mkField "guest_os_type" "text" ["virtualization.virtualmachine"]
     "Provider guest OS hint" "Raw LXC OS hint; does not assign an operator Platform.";
   mkField "swap_mb" "integer" ["virtualization.virtualmachine"]
     "Container swap (MiB)" "LXC swap allocation, separate from RAM.";
   mkField "source_bridge" "text" ["virtualization.vminterface"]
     "Source bridge" "Provider bridge name, without creating infrastructure.";
   mkField "source_vlan_id" "integer" ["virtualization.vminterface"]
     "Source VLAN ID" "Observed tag; does not create or assign a VLAN.";
   mkField "sync_network_observations" "json" ["virtualization.vminterface"]
     "Network observations requiring review" "Observed addresses and masks; does not imply IPAM assignment.";
   mkField "esxi_host_network" "json" ["dcim.device"]
     "ESXi host network" "Observed ESXi adapters and standard switch topology; no network object writes.";
   mkField "proxmox_host_network" "json" ["dcim.device"]
     "Proxmox host network" "Observed Proxmox bridge, bond and VLAN configuration; not verified cabling.";
   mkField "sync_disk_identity" "json" ["virtualization.virtualdisk"]
     "Disk source identity" "Stable provider disk identity.";
   mkField "esxi_events" "json" ["dcim.device"]
     "ESXi events for alerting" "Bounded source events with observed actors; not a complete audit archive.";
   mkField "hardware_identity" "json" ["dcim.device"]
     "Hardware identity" "Typed physical system identifiers and collection coverage."].

Definition HIDDEN_SCALARS : list string := ["cpu_model"; "cpu_vendor"; "cpu_sockets"; "cpu_cores"; "cpu_threads"; "memory_mb"; "hypervisor_version"].
(** [definition]. *)
Definition definition (f : managed_field) : pydict :=
  [("name", PStr (mf_name f)); ("type", PStr (mf_type f)); ("object_types", PList (PStr <$> mf_models f)); ("label", PStr (mf_label f));
   ("description", PStr (mf_purpose f)); ("group_name", PStr "NetBox Sync"); ("required", PBool false); ("unique", PBool false);
   ("ui_visible", PStr (if bool_decide (mf_type f = "json") || bool_decide (mf_name f ∈ HIDDEN_SCALARS) then "hidden" else "if-set"));
   ("ui_editable", PStr "no")].

(** [_field_differences]; a schema conflict is named after its property. *)
Definition unset_or_false (v : pyval) : bool := match v with PNone | PBool false => true | _ => false end.
Definition models_cover (models : list string) (v : pyval) : bool :=
  match v with PList l => forallb (λ m, existsb (py_eqb (PStr m)) l) models | _ => false end.
Definition field_differences (row : pydict) (f : managed_field) : list string :=
  ((if py_eqb (choice_value (dget "type" row)) (PStr (mf_type f)) then [] else ["type"]) ++
   (if models_cover (mf_models f) (dget "object_types" row) then [] else ["models"]) ++
   filter (λ k, unset_or_false (dget k row) = false) ["required"; "unique"] ++
   filter (λ k, dget k row ≠ PNone) ["validation_minimum"; "validation_maximum"] ++
   (match dget "validation_regex" row with PNone | PStr EmptyString => [] | _ => ["validation_regex"] end) ++
   (match dget "validation_schema" row with PNone | PDict [] => [] | _ => ["validation_schema"] end))%list.

Record field_status := mkFieldStatus { fs_name : string; fs_type : string; fs_models : list string; fs_status : string; fs_differences : list string; fs_id : option Z }.
Definition named (name : string) (row : pyval) : option pydict :=
  match row with PDict d => if py_eqb (dget "name" d) (PStr name) then Some d else None | _ => None end.

(** The entry of [reconcile] for one field. *)
Definition reconcile_field (rows : list pyval) (f : managed_field) : field_status :=
  let entry status differences id := mkFieldStatus (mf_name f) (mf_type f) (mf_models f) status differences id in
  match omap (named (mf_name f)) rows with
  | [] => entry "missing" [] None
  | [row] =>
      let id := match dget "id" row with PInt z => if (0 <? z)%Z then Some z else None | _ => None end in
      match field_differences row f with
      | [] =>
          let lifecycle := choice_value (default (PStr "active") (dlookup "status" row)) in
          if py_eqb lifecycle (PStr "provisioning") then entry "provisioning" [] id
          else if py_eqb lifecycle (PStr "active") then entry "ready" [] id else entry "conflict" ["lifecycle"] id
      | differences => entry "conflict" differences id
      end
  | _ => entry "conflict" ["duplicate"] None
  end.
Definition reconcile (rows : list pyval) : list field_status := reconcile_field rows <$> FIELDS.

(** [next(row for row in reconcile(rows) if row["name"] == name)]. *)
Definition field_of (name : string) (rows : list pyval) : option field_status := snd <$> list_find (λ s, fs_name s = name) (reconcile rows).

(** A field created from its definition is ready, whatever other fields there are. *)
Lemma definition_ready f rows :
  f ∈ FIELDS → omap (named (mf_name f)) rows = [] → fs_status (reconcile_field (PDict (definition f) :: rows) f) = "ready".
Proof.
  intros Hf Hrows. assert (omap (named (mf_name f)) (PDict (definition f) :: rows) = [definition f]) as E.
  { assert (named (mf_name f) (PDict (definition f)) = Some (definition f)) as E; [|cbn [omap list_omap]; by rewrite E, Hrows].
    unfold named. change (dget "name" (definition f)) with (PStr (mf_name f)). by rewrite py_eqb_refl. }
  unfold reconcile_field. rewrite E. clear E Hrows rows.
  assert (forallb (λ f, bool_decide (field_differences (definition f) f = [])) FIELDS = true) as H by (by vm_compute).
  rewrite (proj1 (bool_decide_eq_true _) (proj1 (forallb_forall _ _) H f (proj1 (list_elem_of_In _ _) Hf))). reflexivity.
Qed.
