(* ===== verification/NetworkScopes.v ===== *)
(** * Address scopes (network_scopes.py, the projections of netbox_catalog.py, the
      field checks of prerequisites.py and [executable_inventory] of
      application/ip_observations.py)

    An operator binds a provider network to an existing VRF of NetBox. The rules are
    validated, the chosen VRFs are compared with NetBox, and every guest interface of
    a copied inventory gets its VRF and the addresses and MAC addresses that NetBox
    already holds for something else. [sha256] is the digest of a text. *)

From S2P Require Import Prelude PyValue JsonCanonical NetBox NetBoxFrame Discovery SourceIdentity Metadata Calendar SourceConfig VmApply PyUuid PyIp InventoryOrder InventoryConflicts Prerequisites.
From stdpp Require Import base list strings pretty.
From Stdlib Require Import ZArith Lia Ascii.
Local Open Scope string_scope.
#[local] Arguments py_eqb _ _ : simpl never.

(** [object_id] of network_scopes.py: unlike the one of netbox_record_values.py it
    takes no boolean for an id. *)
Definition exact_id (v : pyval) : pyval := match v with PInt _ => v | PDict d => dget "id" d | _ => PNone end.

Definition scope_error (msg : string) : exn := OtherException "NetworkScopeError" (Some msg).
Definition probe_error : exn := OtherException "ProbeError" (Some "RESPONSE_INVALID").

(** ** Catalog projections *)

Section Catalog.
Context (sha256 : string → string).

Definition fingerprint (row : pydict) : pyval := PStr (sha256 (json_dumps (PDict row))).

Definition short (v : pyval) : pyval := match v with PStr s => PStr (take_chars 200 s) | _ => PStr "" end.
Definition related (v : pyval) : pyval :=
  match v with
  | PDict d => PDict [("id", dget "id" d); ("name", short (if truthy (dget "name" d) then dget "name" d else dget "display" d))]
  | _ => PNone
  end.
Definition is_positive_int (v : pyval) : bool := match v with PInt z => (0 <? z)%Z | _ => false end.

Definition project (kind : string) (row : pydict) : result exn pydict :=
  if negb (is_positive_int (dget "id" row)) then Err probe_error
  else if bool_decide (kind = "vrf") then
    let rd := dget "rd" row in
    let unique := default (PBool true) (dlookup "enforce_unique" row) in
    let value := [("id", dget "id" row); ("name", short (dget "name" row)); ("rd", rd); ("enforce_unique", unique)] in
    if match rd with PNone => false | PStr s => Nat.ltb 64 (String.length s) | _ => true end then Err probe_error
    else if negb (is_bool unique) then Err probe_error
    else Ok (dset "fingerprint" (fingerprint value) value)
  else
    let value := [("id", dget "id" row); ("name", short (if bool_decide (kind = "device_type") then dget "model" row else dget "name" row));
                  ("slug", short (dget "slug" row)); ("manufacturer", related (dget "manufacturer" row)); ("type", related (dget "type" row));
                  ("scope_type", dget "scope_type" row); ("scope_id", dget "scope_id" row); ("site", related (dget "site" row));
                  ("scope", related (dget "scope" row))] in
    Ok (dset "fingerprint" (fingerprint value) value).

(** ** Rules *)

Definition selector_text (v : pyval) : option string :=
  match v with
  | PStr s => if bool_decide (s = "") || Nat.ltb 200 (String.length s) || negb (all_chars (λ c, Nat.leb 32 (nat_of_ascii c)) s) then None else Some s
  | _ => None
  end.
Definition vlan_selector (v : pyval) : option (option Z) :=
  match v with PNone => Some None | PInt z => if (0 <=? z)%Z && (z <=? 4094)%Z then Some (Some z) else None | _ => None end.

(** A validated rule: its selectors and the canonical choice of a VRF. *)
Record scope_rule := mkRule { rule_host : string; rule_bridge : string; rule_vlan : option Z; rule_vrf : pydict }.
Definition rule_key (r : scope_rule) : string * string * option Z := (rule_host r, rule_bridge r, rule_vlan r).

Definition read_rule (seen : list (string * string * option Z)) (value : pyval) : result exn scope_rule :=
  match value with
  | PDict rule =>
      if negb (Calendar.same_keys rule ["host_id"; "bridge"; "vlan_id"; "vrf"]) then Err (scope_error "Invalid network scope fields")
      else match selector_text (dget "host_id" rule), selector_text (dget "bridge" rule) with
           | Some host, Some bridge =>
               match vlan_selector (dget "vlan_id" rule) with
               | None => Err (scope_error "Invalid VLAN selector")
               | Some vlan =>
                   if bool_decide ((host, bridge, vlan) ∈ seen) then Err (scope_error "Duplicate network scope selector")
                   else match dget "vrf" rule with
                        | PDict choice =>
                            canonical ← match project "vrf" choice with Err _ => Err (scope_error "Invalid VRF selection") | r => r end;
                            if py_eqb (dget "fingerprint" canonical) (dget "fingerprint" choice) then Ok (mkRule host bridge vlan canonical)
                            else Err (scope_error "VRF selection changed")
                        | _ => Err (scope_error "VRF must be selected explicitly")
                        end
               end
           | _, _ => Err (scope_error "Network scope requires exact provider host and network")
           end
  | _ => Err (scope_error "Invalid network scope fields")
  end.
Fixpoint read_rules (seen : list (string * string * option Z)) (values : list pyval) : result exn (list scope_rule) :=
  match values with
  | [] => Ok []
  | v :: values' => r ← read_rule seen v; rest ← read_rules (rule_key r :: seen) values'; Ok (r :: rest)
  end.
Definition vlan_order (vlan : option Z) : Z := default (-1)%Z vlan.
Definition rule_leb (a b : scope_rule) : bool :=
  if bool_decide (rule_host a = rule_host b) then
    if bool_decide (rule_bridge a = rule_bridge b) then Z.leb (vlan_order (rule_vlan a)) (vlan_order (rule_vlan b))
    else String.leb (rule_bridge a) (rule_bridge b)
  else String.leb (rule_host a) (rule_host b).

Definition rules (value : pyval) : result exn (list scope_rule) :=
  match value with
  | PList l =>
      if Nat.ltb 128 (length l) then Err (scope_error "Invalid network scope rules")
      else rs ← read_rules [] l; Ok (isort rule_leb rs)
  | _ => Err (scope_error "Invalid network scope rules")
  end.

(** ** Evidence *)

Definition INTERFACES : string := "virtualization.interfaces".
Definition MAC_ADDRESSES : string := "dcim.mac_addresses".
Definition IP_ADDRESSES : string := "ipam.ip_addresses".
Definition VRFS : string := "ipam.vrfs".
Definition CUSTOM_FIELDS : string := "extras.custom_fields".
Definition VM_INTERFACE : pyval := PStr "virtualization.vminterface".

(** The records of [_scope_evidence]: the MAC records by text, the address records
    by bare address. *)
Record evidence := mkEvidence {
  ev_interfaces : list nb_record; ev_macs : list (string * pydict); ev_addresses : list (string * pydict) }.

Definition mac_of (v : pyval) : string := upper (strip (if truthy v then py_str v else "")).
Definition bare_address (d : pydict) : result exn string := v ← py_item "address" (PDict d); a ← py_ip_interface v; Ok (ip_text a).

Section Api.
Context {W : Type} `{!NetBoxApi W}.

Definition scope_evidence : M W exn evidence :=
  interfaces ← nb_all INTERFACES;
  macs ← nb_all MAC_ADDRESSES;
  addresses ← nb_all IP_ADDRESSES;
  indexed ← lift (mapR (λ r, match bare_address (rec_data r) with Ok bare => Ok (bare, rec_data r) | Err _ => Err (scope_error "Invalid existing IP evidence") end) addresses);
  mret (mkEvidence interfaces (filter (λ e, e.1 ≠ "") ((λ r, (mac_of (dget "mac_address" (rec_data r)), rec_data r)) <$> macs)) indexed).
End Api.

(** [same]: the record belongs to the interface. *)
Definition assigned_here (owned : option Z) (d : pydict) : bool :=
  match owned with
  | Some i => py_eqb (dget "assigned_object_type" d) VM_INTERFACE && py_eqb (dget "assigned_object_id" d) (PInt i)
  | None => false
  end.

Definition set_conflicts (vrf : option Z) (ips macs : list pydict) (n : DiscoveredInterface) : DiscoveredInterface :=
  mkInterface (nic_name n) (nic_mac_address n) (nic_bridge n) (nic_vlan_id n) (nic_ip_addresses n) (nic_external_id n) (nic_network_observations n) vrf ips macs.

(** [_observe_mac_conflicts]. *)
Definition mac_conflicts (ev : evidence) (owned : option Z) (n : DiscoveredInterface) : result exn (list pydict) :=
  let existing := (filter (λ e, e.1 = mac_text (nic_mac_address n)) (ev_macs ev)).*2 in
  mapR (λ d, i ← py_item "id" (PDict d); Ok [("netbox_id", i)])
    (filter (λ d, negb (assigned_here owned d) || Nat.ltb 1 (length existing) = true) existing).

(** The addresses an interface wants, by bare address: [setdefault(...).add(...)]. *)
Fixpoint wanted_from (raws : list string) (acc : list (string * list string)) : list (string * list string) :=
  match raws with
  | [] => acc
  | raw :: raws' =>
      match ip_interface raw with
      | None => wanted_from raws' acc
      | Some a =>
          wanted_from raws'
            (match list_find (λ e, e.1 = ip_text a) acc with
             | Some (i, e) => <[i := (e.1, interface_text a :: e.2)]> acc
             | None => (acc ++ [(ip_text a, [interface_text a])])%list
             end)
      end
  end.
Definition wanted (n : DiscoveredInterface) : list (string * list string) := wanted_from (nic_ip_addresses n) [].

Definition same_vrf (n : DiscoveredInterface) (d : pydict) : bool := py_eqb (exact_id (dget "vrf" d)) (py_opt_int (nic_ip_vrf_id n)).
(** Records of a wanted address in the interface's own scope. *)
Definition disputes (owned : option Z) (addresses : list string) (d : pydict) : result exn bool :=
  if negb (assigned_here owned d) then Ok true
  else v ← py_item "address" (PDict d); a ← py_ip_interface v; Ok (negb (bool_decide (interface_text a ∈ addresses))).
Definition scope_candidates (ev : evidence) (n : DiscoveredInterface) : list (list string * pydict) :=
  e ← wanted n; (λ x, (e.2, x.2)) <$> filter (λ x, x.1 = e.1 ∧ same_vrf n x.2 = true) (ev_addresses ev).
(** Records assigned to the interface in another scope. *)
Definition moved (ev : evidence) (owned : option Z) (n : DiscoveredInterface) : list pydict :=
  (filter (λ x, (py_eqb (dget "assigned_object_type" x.2) VM_INTERFACE = true ∧
                 py_eqb (dget "assigned_object_id" x.2) (py_opt_int owned) = true) ∧
                x.1 ∈ (wanted n).*1 ∧ same_vrf n x.2 = false) (ev_addresses ev)).*2.

(** [sorted(conflicting.items())] of a dictionary by record id: a later record of an
    id replaces an earlier one. *)
Definition put_conflict (acc : list (Z * pydict)) (e : Z * pydict) : list (Z * pydict) :=
  match list_find (λ x, x.1 = e.1) acc with Some (i, _) => <[i := e]> acc | None => (acc ++ [e])%list end.
Definition conflict_id (d : pydict) : result exn (Z * pydict) :=
  v ← py_item "id" (PDict d); match v with PInt i => Ok (i, d) | _ => Err (TypeError "record id is no integer") end.
Definition by_id (a b : Z * pydict) : bool := Z.leb a.1 b.1.

(** [_observe_ip_conflicts]. *)
Definition ip_conflicts (ev : evidence) (owned : option Z) (n : DiscoveredInterface) : result exn (list pydict) :=
  foreign ← filterR (λ e, disputes owned e.1 e.2) (scope_candidates ev n);
  items ← mapR conflict_id (foreign.*2 ++ moved ev owned n)%list;
  mapR (λ e, address ← py_item "address" (PDict e.2);
             Ok [("address", address); ("vrf_id", exact_id (dget "vrf" e.2)); ("netbox_id", PInt e.1)])
    (isort by_id (foldl put_conflict [] items)).

(** One interface of [_observe_scope_conflicts]; an ambiguous identity keeps its MAC
    observations. *)
Definition observe_nic (ev : evidence) (g : Guest) (n : DiscoveredInterface) : result exn DiscoveredInterface :=
  matches ← find_nic_sync_identity_matches custom_fields (ev_interfaces ev) g n;
  match matches with
  | _ :: _ :: _ => Ok (set_conflicts (nic_ip_vrf_id n) [] (nic_mac_scope_conflicts n) n)
  | _ =>
      let owned := rec_id <$> head matches in
      macs ← mac_conflicts ev owned n;
      ips ← ip_conflicts ev owned n;
      Ok (set_conflicts (nic_ip_vrf_id n) ips macs n)
  end.

(** Every interface of an inventory, guests in order. *)
Definition vm_nicsR (f : Guest → DiscoveredInterface → result exn DiscoveredInterface) (v : DiscoveredVirtualMachine) : result exn DiscoveredVirtualMachine :=
  nics ← mapR (f (GuestVM v)) (vm_interfaces v); Ok (vm_with (vm_disks v) nics v).
Definition ct_nicsR (f : Guest → DiscoveredInterface → result exn DiscoveredInterface) (c : DiscoveredContainer) : result exn DiscoveredContainer :=
  nics ← mapR (f (GuestCT c)) (ct_interfaces c); Ok (ct_with (ct_disks c) nics c).
Definition host_nicsR (f : Guest → DiscoveredInterface → result exn DiscoveredInterface) (h : DiscoveredHost) : result exn DiscoveredHost :=
  vms ← mapR (vm_nicsR f) (host_virtual_machines h);
  cts ← mapR (ct_nicsR f) (host_containers h);
  Ok (host_with (host_disks h) (host_storages h) (host_interfaces h) vms cts h).
Definition observe_scope_conflicts (ev : evidence) : list DiscoveredHost → result exn (list DiscoveredHost) := mapR (host_nicsR (observe_nic ev)).

(** ** scoped_inventory *)

Definition vrf_id (choice : pydict) : option Z := match dget "id" choice with PInt z => Some z | _ => None end.
Definition rule_for (rs : list scope_rule) (h : DiscoveredHost) (n : DiscoveredInterface) : option Z :=
  match nic_bridge n with
  | Some bridge => r ← snd <$> list_find (λ r, rule_key r = (host_source_id h, bridge, nic_vlan_id n)) rs; vrf_id (rule_vrf r)
  | None => None
  end.
Definition set_vrf (vrf : option Z) (n : DiscoveredInterface) : DiscoveredInterface := set_conflicts vrf (nic_ip_scope_conflicts n) (nic_mac_scope_conflicts n) n.

Section Scoped.
Context {W : Type} `{!NetBoxApi W}.

(** Each chosen VRF is read once and compared with every choice of it. *)
Fixpoint check_rules (checked : list (Z * pydict)) (rs : list scope_rule) : M W exn unit :=
  match rs with
  | [] => mret tt
  | r :: rs' =>
      let choice := rule_vrf r in
      identifier ← require (vrf_id choice) probe_error;
      known ← match snd <$> list_find (λ e, e.1 = identifier) checked with
              | Some e => mret e.2
              | None =>
                  record ← nb_get VRFS [("id", PInt identifier)];
                  found ← require record (scope_error "Selected VRF no longer exists");
                  lift (project "vrf" (rec_data found))
              end;
      raise_if (negb (py_eqb (PDict known) (PDict choice))) (scope_error "Selected VRF changed; review network scopes");;
      check_rules ((identifier, known) :: checked) rs'
  end.

Definition observes (mapping : pydict) : bool :=
  match dlookup "network_scope_rules" mapping with Some _ => true | None => py_eqb (dget "ip_conflict_policy" mapping) (PStr "observe") end.

Definition scoped_inventory (hosts : list DiscoveredHost) (mapping : pydict) : M W exn (list DiscoveredHost) :=
  selected ← lift (rules (default (PList []) (dlookup "network_scope_rules" mapping)));
  check_rules [] selected;;
  let result := map_nics (λ h _ n, set_vrf (rule_for selected h n) n) <$> hosts in
  if observes mapping then ev ← scope_evidence; lift (observe_scope_conflicts ev result) else mret result.

(** ** executable_inventory *)

Context (mapped_as_ipv4 : bool).

(** [source_policy]. *)
Definition source_policy (mapping : pydict) : pyval := default (PStr "strict") (dlookup "ip_conflict_policy" mapping).
Definition OBSERVATIONS : string := "sync_network_observations".
Definition prerequisite_error : exn := OtherException "ObservationPrerequisiteError" (Some "Network observation prerequisite requires preparation").

Definition executable_inventory (hosts : list DiscoveredHost) (mapping : pydict) : M W exn (list DiscoveredHost * list InventoryConflict) :=
  hosts ← scoped_inventory hosts mapping;
  '(projected, blockers, observations) ←
    lift (match source_policy mapping with
          | PStr policy => assignment_inventory mapped_as_ipv4 hosts policy
          | _ => Err (ValueError "Unknown IP conflict policy")
          end);
  (if py_eqb (source_policy mapping) (PStr "observe") then
     raise_if (negb (bool_decide (length blockers = 0%nat))) (ValueError "Inventory identity conflict");;
     rows ← nb_filter CUSTOM_FIELDS [("name", PStr OBSERVATIONS)];
     field ← require (field_of OBSERVATIONS (PDict ∘ rec_data <$> rows)) (OtherException "StopIteration" None);
     raise_if (negb (bool_decide (fs_status field = "ready"))) prerequisite_error
   else mret tt);;
  mret (projected, observations).
End Scoped.
End Catalog.

(** ** What a run can do *)

Section ReadFrames.
Context {W : Type} `{!NetBoxApi W} (R : relation W) `{!ReadsMove R} (sha256 : string → string).
Lemma check_rules_moves rs : ∀ checked w, moves R (check_rules sha256 checked rs) w.
Proof. induction rs as [|r rs IH]; intros checked w; cbn [check_rules]; frame. Qed.
#[local] Hint Resolve check_rules_moves : moves.
Lemma executable_inventory_moves mapped hosts mapping w : moves R (executable_inventory sha256 mapped hosts mapping) w.
Proof. unfold executable_inventory, scoped_inventory, scope_evidence. frame. Qed.
#[local] Hint Resolve executable_inventory_moves : moves.
End ReadFrames.
#[export] Hint Resolve check_rules_moves executable_inventory_moves : moves.
