(* ===== verification/HostMapping.v ===== *)
(** * Reviewed mappings of a source (host_mapping.py)

    A source that was onboarded through the review names the NetBox objects it was
    reviewed against. Every synchronisation checks that they are still there and
    unchanged, and that every discovered host has a reviewed device type. *)

From S2P Require Import Prelude PyValue NetBox NetBoxFrame Discovery Metadata SourceConfig.
From stdpp Require Import base list strings.
From Stdlib Require Import ZArith Lia.
Local Open Scope string_scope.
#[local] Arguments py_eqb _ _ : simpl never.

Definition mapping_error (msg : string) : exn := OtherException "MappingError" (Some msg).
Definition placement_missing : exn := OtherException "PlacementMissing" (Some "Selected NetBox object is not visible").

(** [ENDPOINTS] of netbox_catalog.py, as attribute paths. *)
Definition ENDPOINTS : list (string * string) :=
  [("manufacturer", "dcim.manufacturers"); ("site", "dcim.sites"); ("cluster", "virtualization.clusters"); ("platform", "dcim.platforms");
   ("device_role", "dcim.device_roles"); ("device_type", "dcim.device_types"); ("cluster_type", "virtualization.cluster_types"); ("vrf", "ipam.vrfs")].
Definition endpoint_of (kind : string) : result exn string :=
  match list_find (λ e, e.1 = kind) ENDPOINTS with Some (_, e) => Ok e.2 | None => Err (KeyError kind) end.

(** [getattr(getattr(record, name, None), "id", None)]: a related record, which
    [serialize] gives by its id or by its nested text. *)
Definition related_id (v : pyval) : pyval := object_id v.

(** [check_record]. *)
Definition check_record (record : option nb_record) (choice : pyval) (kind : string) : result exn nb_record :=
  match record with
  | None => Err placement_missing
  | Some r =>
      id ← py_item "id" choice;
      if negb (py_eqb (PInt (rec_id r)) id) then Err (mapping_error "Selected NetBox object identity changed")
      else
        name ← py_item "name" choice;
        changed ← (if negb (py_eqb (field (if bool_decide (kind = "device_type") then "model" else "name") r) name) then Ok true
                   else if bool_decide (kind = "cluster") then Ok false
                   else slug ← py_item "slug" choice; Ok (negb (py_eqb (field "slug" r) slug)));
        if (changed : bool) then Err (mapping_error "Selected NetBox object changed; review source mapping")
        else if bool_decide (kind = "device_type") then
          maker ← attr_get "manufacturer" choice;
          wanted ← attr_get "id" (if truthy maker then maker else PDict []);
          if py_eqb (related_id (field "manufacturer" r)) wanted then Ok r else Err (mapping_error "Selected manufacturer changed")
        else Ok r
  end.

Section Mapping.
Context {W : Type} `{!NetBoxApi W}.

Definition read_choice (kind : string) (choice : pyval) : M W exn nb_record :=
  e ← lift (endpoint_of kind);
  id ← lift (py_item "id" choice);
  record ← nb_get e [("id", id)];
  lift (check_record record choice kind).

(** A reviewed cluster keeps its type and its site. *)
Definition check_cluster (references : pyval) (record : nb_record) : result exn unit :=
  type ← py_item "cluster_type" references; type_id ← py_item "id" type;
  if negb (py_eqb (related_id (field "type" record)) type_id) then Err (mapping_error "Selected cluster scope or type changed")
  else if negb (py_eqb (field "scope_type" record) (PStr "dcim.site")) then Err (mapping_error "Selected cluster scope or type changed")
  else site ← py_item "site" references; site_id ← py_item "id" site;
       if py_eqb (field "scope_id" record) site_id then Ok tt else Err (mapping_error "Selected cluster scope or type changed").

Definition check_reference (references : pyval) (e : string * pyval) : M W exn unit :=
  record ← read_choice e.1 e.2;
  if bool_decide (e.1 = "cluster") then lift (check_cluster references record) else mret tt.

(** The row of the review for a discovered host. *)
Fixpoint reviewed_row (id : string) (rows : list pyval) : result exn (option pyval) :=
  match rows with
  | [] => Ok None
  | r :: rows' => i ← py_item "id" r; if py_eqb i (PStr id) then Ok (Some r) else reviewed_row id rows'
  end.
Definition hardware_changed (row : pyval) (key : string) (current : option string) : result exn bool :=
  v ← attr_get key row; Ok (truthy v && negb (py_eqb v (py_opt_str current))).

Definition check_host (mapping : pydict) (h : DiscoveredHost) : M W exn unit :=
  types ← lift (py_item "host_types" (PDict mapping));
  choice ← lift (attr_get (host_source_id h) types);
  raise_if (bool_decide (choice = PNone)) (mapping_error "Discovered host requires an explicit device type mapping");;
  hosts ← lift (py_item "hosts" (PDict mapping));
  rows ← lift (py_iter hosts);
  row ← lift (reviewed_row (host_source_id h) rows);
  original ← require row (mapping_error "Unknown host mapping");
  maker ← lift (hardware_changed original "manufacturer" (host_manufacturer h));
  raise_if maker (mapping_error "Host hardware changed; review the device type mapping");;
  model ← lift (hardware_changed original "model" (host_model h));
  raise_if model (mapping_error "Host hardware changed; review the device type mapping");;
  read_choice "device_type" choice;;
  mret tt.

(** [validate]. *)
Definition validate (mapping : pydict) (hosts : list DiscoveredHost) : M W exn unit :=
  match mapping with
  | [] => mret tt
  | _ =>
      references ← lift (py_item "references" (PDict mapping));
      match references with
      | PDict choices => forM choices (check_reference references)
      | _ => raise (OtherException "AttributeError" None)
      end;;
      forM hosts (check_host mapping)
  end.

(** [selected] and [cluster_filter]. *)
Definition selected (mapping : pydict) (kind slug : string) : result exn pydict :=
  match mapping with
  | [] => Ok [("slug", PStr slug)]
  | _ => references ← py_item "references" (PDict mapping); choice ← py_item kind references; id ← py_item "id" choice; Ok [("id", id)]
  end.
Definition cluster_filter (target : NetBoxTargetConfig) : result exn pydict :=
  match onboarding_mapping target with
  | [] => Ok [("name", PStr (cluster_name target))]
  | m => references ← py_item "references" (PDict m); choice ← py_item "cluster" references; id ← py_item "id" choice; Ok [("id", id)]
  end.
End Mapping.

(** ** What a run can do *)

Section ReadFrames.
Context {W : Type} `{!NetBoxApi W} (R : relation W) `{!ReadsMove R}.
Lemma read_choice_moves kind choice w : moves R (read_choice kind choice) w.
Proof. unfold read_choice. frame. Qed.
#[local] Hint Resolve read_choice_moves : moves.
Lemma validate_moves mapping hosts w : moves R (validate mapping hosts) w.
Proof. unfold validate, check_reference, check_host. frame. Qed.
#[local] Hint Resolve validate_moves : moves.
End ReadFrames.
#[export] Hint Resolve read_choice_moves validate_moves : moves.
