(* ===== verification/HardwareIdentity.v ===== *)
(** * Hardware identities (hardware_identity.py, selectel_host_match.py and
      [find_sync_identity_matches] of netbox_metadata.py)

    Serial numbers, service tags and system UUIDs identify a physical host across
    providers. A host that no stored identity matches may be matched to a server a
    hosting provider listed, when fresh observations of both agree. [fromisoformat]
    is the parser of the datetime module and [now] the current time in microseconds. *)

From S2P Require Import Prelude PyValue NetBox Discovery SourceIdentity Metadata Calendar SourceConfig VmApply Schema PyUuid.
From stdpp Require Import base list strings.
From Stdlib Require Import ZArith Lia Ascii.
Local Open Scope string_scope.
#[local] Arguments py_eqb _ _ : simpl never.

Definition KINDS : list string := ["system_serial"; "service_tag"; "system_uuid"].
Definition PLACEHOLDERS : list string :=
  ["unknown"; "none"; "n/a"; "na"; "not specified"; "not applicable"; "to be filled by o.e.m."; "to be filled by oem"; "default string"; "default";
   "system serial number"; "serial number"; "not available"; "o.e.m."].

(** [str.isprintable] on Latin-1. *)
Definition printable_char (c : ascii) : bool :=
  let n := nat_of_ascii c in (Nat.leb 32 n && Nat.leb n 126) || (Nat.leb 161 n && negb (Nat.eqb n 173)).
Definition only_char (d : ascii) (s : string) : bool := all_chars (λ c, bool_decide (c = d)) s.
Definition placeholder (s : string) : bool :=
  bool_decide (s = "") || Nat.ltb 256 (String.length s) || negb (all_chars printable_char s) || bool_decide (casefold s ∈ PLACEHOLDERS).
Definition trivial_text (s : string) : bool :=
  let compact := casefold (PyUuid.drop_all " " 0 (PyUuid.drop_all "-" 0 s)) in
  bool_decide (compact = "") || only_char "0" compact || only_char "f" compact || bool_decide (compact ∈ ["123456789"; "0123456789"]).

(** [canonical]. *)
Definition canonical_id (kind : string) (value : pyval) : option string :=
  match value with
  | PStr text =>
      let s := strip text in
      if negb (bool_decide (kind ∈ KINDS)) || placeholder s || trivial_text s then None
      else if bool_decide (kind = "system_uuid") then uuid_str <$> parse_uuid s
      else Some (casefold s)
  | _ => None
  end.

(** A set of identifiers: pairs of a kind and a value. *)
Abbreviation tokens_t := (list (string * string)).
Definition values_for (kind : string) (l : tokens_t) : list string := (filter (λ e, e.1 = kind) l).*2.
Definition single_valued (l : tokens_t) (kind : string) : bool := Nat.leb (length (remove_dups (values_for kind l))) 1.

Definition same_set (l l' : list string) : bool := forallb (λ x, bool_decide (x ∈ l')) l && forallb (λ x, bool_decide (x ∈ l)) l'.
Inductive verdict := NoneShared | Conflict | Match.
(** [compare]. *)
Definition compare_ids (left right : tokens_t) : verdict :=
  if negb (existsb (λ e, bool_decide (e ∈ right)) left) then NoneShared
  else if existsb (λ k, bool_decide (k ∈ right.*1) && negb (same_set (values_for k left) (values_for k right))) left.*1 then Conflict
  else Match.

(** ** Observations *)

Definition triple_leb (a b : string * string * string) : bool :=
  if bool_decide (a.1.1 = b.1.1) then if bool_decide (a.1.2 = b.1.2) then String.leb a.2 b.2 else String.leb a.1.2 b.1.2 else String.leb a.1.1 b.1.1.

Section Observations.
Context (fromisoformat : string → result exn datetime) (now : Z) (now_text : string).

(** [observation]: the identifiers as kind, value and field. *)
Definition collected_ids (values : list (string * pyval * string)) : list (string * string * string) :=
  isort triple_leb (remove_dups (omap (λ e, (λ v, (e.1.1, v, e.2)) <$> canonical_id e.1.1 e.1.2) values)).
Definition id_tokens (ids : list (string * string * string)) : tokens_t := (λ e, e.1) <$> ids.
Definition observation (source : string) (values : list (string * pyval * string)) (status observed_at : option string) : pydict :=
  let ids := collected_ids values in
  let conflicts := filter (λ k, single_valued (id_tokens ids) k = false) KINDS in
  [("version", PInt 1); ("source", PStr source);
   ("status", PStr (if negb (bool_decide (conflicts = [])) then "conflict"
                    else or_text status (if bool_decide (ids = []) then "not_reported" else "collected")));
   ("observed_at", PStr (or_text observed_at now_text));
   ("identifiers", PList ((λ e, PDict [("kind", PStr e.1.1); ("value", PStr e.1.2); ("field", PStr e.2)]) <$> ids));
   ("conflicts", PList (PStr <$> conflicts))].

(** [document["observed_at"].replace("Z", "+00:00")]. *)
Definition utc_suffix (s : string) : string := concat_chars (λ c, if bool_decide (c = "Z"%char) then "+00:00" else String c "") s.
(** The age of an observation in microseconds; a naive time cannot be subtracted. *)
Definition observation_age (document : pydict) : result exn Z :=
  text ← py_item "observed_at" (PDict document);
  match text with
  | PStr s =>
      at_ ← fromisoformat (utc_suffix s);
      match at_ with Aware t => Ok (now - t)%Z | Naive _ => Err (TypeError "can't subtract offset-naive and offset-aware datetimes") end
  | _ => Err (OtherException "AttributeError" None)
  end.
Definition read_token (row : pyval) : result exn (option (string * string)) :=
  kind ← py_item "kind" row; value ← py_item "value" row;
  match kind with
  | PStr k => Ok ((λ v, (k, v)) <$> canonical_id k value)
  | PList _ | PDict _ => Err (TypeError "unhashable type")
  | _ => Ok None
  end.

(** [tokens]: the identifiers of a fresh observation without conflicts; what is not
    an observation has none. *)
Definition fresh (age : Z) : bool := (-300 * US_SECOND <=? age)%Z && (age <=? 48 * 3600 * US_SECOND)%Z.
Definition read_tokens (document : pydict) : result exn tokens_t :=
  age ← observation_age document;
  if negb (fresh age) then Ok []
  else
    rows ← py_item "identifiers" (PDict document); rows ← py_iter rows;
    found ← mapR read_token rows;
    let values := remove_dups (omap id found) in
    Ok (if forallb (single_valued values) KINDS then values else []).
Definition tokens (document : pyval) : tokens_t :=
  match document with
  | PDict d =>
      if py_eqb (dget "version" d) (PInt 1) && py_eqb (dget "status" d) (PStr "collected")
      then match read_tokens d with Ok l => l | Err _ => [] end
      else []
  | _ => []
  end.

(** [selectel_observation]. *)
Definition SECTIONS : list string := ["resource"; "details"; "hardware"].
Definition SECTION_FIELDS : list (string * string) := [("serial", "system_serial"); ("service_tag", "service_tag"); ("system_uuid", "system_uuid")].
Definition section_values (sections : pyval) (name : string) : result exn (list (string * pyval * string) * (string * pyval)) :=
  section ← attr_get_or name (PDict []) sections;
  status ← attr_get_or "status" (PStr "not_collected") section;
  retained ← attr_get "retained" section;
  data ← attr_get "data" section;
  current ← attr_get "status" section;
  Ok (if py_eqb current (PStr "collected") && negb (truthy retained) then
        match data with PDict d => (λ f, (f.2, dget f.1 d, name +:+ "." +:+ f.1)) <$> SECTION_FIELDS | _ => [] end
      else [], (name, status)).
Definition selectel_observation (sections : pyval) (observed_at : string) : result exn pydict :=
  parts ← mapR (section_values sections) SECTIONS;
  Ok (dset "coverage" (PDict parts.*2) (observation "selectel" (mjoin parts.*1) None (Some observed_at))).

(** ** Matching a host to a listed server *)

Definition match_error (code : string) : exn := OtherException "SelectelMatchError" (Some code).
Definition REF_KEYS : list string := ["account"; "kind"; "native_id"; "project"; "region"].
Definition refers (identity : pyval) (ref : pyval) : result exn bool :=
  match ref with
  | PDict d =>
      if py_eqb (dget "provider" d) (PStr "selectel")
      then values ← mapR (λ k, v ← attr_get k identity; Ok (py_eqb (dget k d) v)) REF_KEYS; Ok (forallb id values)
      else Ok false
  | _ => Ok false
  end.

(** A candidate: whether it is the host. *)
Definition candidate_match (wanted : tokens_t) (r : nb_record) : result exn bool :=
  let fields := default [] (custom_fields r) in
  match dget "selectel_inventory" fields, dget "selectel_refs" fields with
  | PDict snapshot, PList refs =>
      let identity := default (PDict []) (dlookup "identity" snapshot) in
      kind ← attr_get "kind" identity;
      listed ← (if py_eqb kind (PStr "dedicated") then bs ← mapR (refers identity) refs; Ok (existsb id bs) else Ok false);
      if negb (listed : bool) then Ok false
      else
        let sections := default (PDict []) (dlookup "sections" snapshot) in
        resource ← attr_get_or "resource" (PDict []) sections;
        observed_at ← attr_get "observed_at" resource;
        available ← match observed_at with PStr s => d ← selectel_observation sections s; Ok (tokens (PDict d)) | _ => Ok [] end;
        match compare_ids wanted available with
        | Conflict => Err (match_error "SELECTEL_HARDWARE_IDENTITY_CONFLICT")
        | Match => if truthy (dget "sync_identities" fields) then Err (match_error "SELECTEL_HOST_ALREADY_MANAGED") else Ok true
        | NoneShared =>
            match canonical_id "system_serial" (field "serial" r) with
            | Some serial => if bool_decide (("system_serial", serial) ∈ wanted) then Err (match_error "SELECTEL_HARDWARE_REVIEW_REQUIRED") else Ok false
            | None => Ok false
            end
        end
  | _, _ => Ok false
  end.
Fixpoint matching_candidates (wanted : tokens_t) (l : list nb_record) : result exn (list nb_record) :=
  match l with
  | [] => Ok []
  | r :: l' => b ← candidate_match wanted r; rest ← matching_candidates wanted l'; Ok (if (b : bool) then r :: rest else rest)
  end.
Definition selectel_matches (candidates : list nb_record) (h : DiscoveredHost) : result exn (list nb_record) :=
  match tokens (match host_hardware_identity h with Some d => PDict d | None => PNone end) with
  | [] => Ok []
  | wanted =>
      found ← matching_candidates wanted candidates;
      match found with _ :: _ :: _ => Err (match_error "SELECTEL_MULTIPLE_HARDWARE_MATCHES") | _ => Ok found end
  end.

(** [find_sync_identity_matches]. *)
Definition find_sync_identity_matches (candidates : list nb_record) (h : DiscoveredHost) : result exn (list nb_record) :=
  matched ← select_best_identity_matches candidates (λ c, sync_identity_match_rank (custom_fields c) h);
  match matched with [] => selectel_matches candidates h | _ => Ok matched end.
End Observations.

(** ** What a match is worth *)

Lemma same_set_spec l l' : same_set l l' = true ↔ ∀ x, x ∈ l ↔ x ∈ l'.
Proof.
  unfold same_set. rewrite andb_true_iff, !forallb_forall. setoid_rewrite bool_decide_eq_true. setoid_rewrite <-list_elem_of_In. naive_solver.
Qed.
Lemma elem_of_values_for kind v l : v ∈ values_for kind l ↔ (kind, v) ∈ l.
Proof.
  unfold values_for. rewrite list_elem_of_fmap. setoid_rewrite list_elem_of_filter. split.
  - intros ([k x] & -> & Hk & H). cbn in *. by subst.
  - intros H. by exists (kind, v).
Qed.

(** Two sets match when they share an identifier and agree on every kind they both
    have; whichever side is compared with the other, the verdict is the same. *)
Lemma compare_match l r :
  compare_ids l r = Match ↔ (∃ e, e ∈ l ∧ e ∈ r) ∧ ∀ k, k ∈ l.*1 → k ∈ r.*1 → ∀ v, (k, v) ∈ l ↔ (k, v) ∈ r.
Proof.
  unfold compare_ids. destruct (existsb _ l) eqn:E; cbn [negb].
  - apply existsb_exists in E as (e & He & Hr%bool_decide_eq_true). apply list_elem_of_In in He.
    destruct (existsb _ l.*1) eqn:E2.
    + split; [done|]. intros [_ H]. exfalso. apply existsb_exists in E2 as (k & Hk & [Hk' Hs%negb_true_iff]%andb_true_iff).
      apply list_elem_of_In in Hk. apply bool_decide_eq_true in Hk'. apply not_true_iff_false in Hs. apply Hs, same_set_spec. intros v.
      rewrite !elem_of_values_for. by apply H.
    + split; [intros _|done]. split; [by exists e|]. intros k Hk Hk' v. apply not_true_iff_false in E2. rewrite existsb_exists in E2.
      rewrite <-!elem_of_values_for. apply same_set_spec. destruct (same_set _ _) eqn:Es; [done|]. destruct E2. exists k. split; [by apply list_elem_of_In|].
      rewrite bool_decide_eq_true_2 by done. unfold same_set in *. by rewrite Es.
  - split; [done|]. intros [(e & He & Hr) _]. apply not_true_iff_false in E. destruct E. apply existsb_exists. exists e. split; [by apply list_elem_of_In|].
    by apply bool_decide_eq_true.
Qed.
