(* ===== verification/VirtualDisks.v ===== *)
(** * Disks of virtual machines (virtual_disks.py)

    Every disk of a discovered machine is matched to a stored disk by its identity,
    planned against one reading of NetBox, and written only when every machine has
    been planned. *)

From S2P Require Import Prelude PyValue NetBox Discovery SourceIdentity Metadata SourceConfig VmApply NetworkScopes.
From stdpp Require Import base list strings gmap.
From Stdlib Require Import ZArith Lia.
Local Open Scope string_scope.
#[local] Arguments py_eqb _ _ : simpl never.

(** [getattr(disk, "external_id", None) or disk.name]. *)
Definition disk_key (d : DiscoveredVirtualDisk) : string := or_text (vdisk_external_id d) (vdisk_name d).
(** Bytes rounded up to decimal megabytes. *)
Definition disk_size (d : DiscoveredVirtualDisk) : Z := ((vdisk_size_bytes d + 999999) / 1000000)%Z.

Definition disk_identity (identity : pydict) (key : string) : result exn pydict :=
  match dget "external_id" identity with
  | PStr id => Ok (dupdate identity [("kind", PStr "vm-disk"); ("external_id", PStr (id +:+ ":" +:+ key))])
  | _ => Err (TypeError "can only concatenate str")
  end.
Definition disk_fields (r : nb_record) : pydict := default [] (custom_fields r).
Definition has_identity (wanted : pydict) (r : nb_record) : Prop := py_eqb (dget "sync_disk_identity" (disk_fields r)) (PDict wanted) = true.
#[export] Instance has_identity_dec wanted r : Decision (has_identity wanted r).
Proof. unfold has_identity. apply _. Defined.

Definition parent_is (parent : nb_record) (r : nb_record) : bool := py_eqb (exact_id (field "virtual_machine" r)) (PInt (rec_id parent)).

(** A pending write: a creation, or a change of a stored disk. *)
Inductive disk_write := DiskCreate (fields : pydict) | DiskUpdate (id : Z) (changes : pydict).

Definition changed_fields (r : nb_record) (desired : pydict) : pydict := filter (λ kv, py_eqb (dget kv.1 (rec_data r)) kv.2 = false) desired.

Definition plan_disk (existing : list nb_record) (parent : nb_record) (identity : pydict) (disk : DiscoveredVirtualDisk) : result exn (list disk_write) :=
  wanted ← disk_identity identity (disk_key disk);
  match filter (has_identity wanted) existing with
  | _ :: _ :: _ => Err (ValueError "Duplicate NetBox disk identity")
  | candidates =>
      let current := head candidates in
      if match current with Some c => negb (parent_is parent c) | None => false end then Err (ValueError "Disk identity belongs to another VM")
      else if existsb (λ d, negb (bool_decide (Some (rec_id d) = rec_id <$> current)) && parent_is parent d &&
                            py_eqb (field "name" d) (PStr (vdisk_name disk))) existing
      then Err (ValueError "Disk name is already used by an unmanaged or different disk")
      else if (vdisk_size_bytes disk <? 0)%Z then Err (ValueError "Disk capacity cannot be negative")
      else
        let desired := [("name", PStr (vdisk_name disk)); ("size", PInt (disk_size disk));
                        ("custom_fields", PDict (dset "sync_disk_identity" (PDict wanted) (default [] (disk_fields <$> current))))] in
        Ok (match current with
            | None => [DiskCreate (("virtual_machine", PInt (rec_id parent)) :: desired)]
            | Some c => match changed_fields c desired with [] => [] | changes => [DiskUpdate (rec_id c) changes] end
            end)
  end.

(** The loop of [_plan_vm_disks]. *)
Fixpoint plan_disks (existing : list nb_record) (parent : nb_record) (identity : pydict) (seen : list string) (disks : list DiscoveredVirtualDisk) :
    result exn (list disk_write) :=
  match disks with
  | [] => Ok []
  | d :: disks' =>
      if bool_decide (disk_key d = "") || bool_decide (disk_key d ∈ seen) then Err (ValueError "Missing or duplicate provider disk identity")
      else
        here ← plan_disk existing parent identity d;
        rest ← plan_disks existing parent identity (disk_key d :: seen) disks';
        Ok (here ++ rest)%list
  end.
Definition plan_vm_disks (existing : list nb_record) (vm : DiscoveredVirtualMachine) (parent : nb_record) : result exn (list disk_write) :=
  identity ← virtual_machine_source_identity vm; plan_disks existing parent (to_record identity) [] (vm_disks vm).

Definition plan_vm (vms existing : list nb_record) (vm : DiscoveredVirtualMachine) : result exn (list disk_write) :=
  matches ← find_vm_sync_identity_matches custom_fields vms vm;
  match matches with [parent] => plan_vm_disks existing vm parent | _ => Err (ValueError "Disk parent VM identity is not unique") end.

Definition hosts_vms (hosts : list DiscoveredHost) : list DiscoveredVirtualMachine := hosts ≫= host_virtual_machines.

Section Apply.
Context {W : Type} `{!NetBoxApi W}.

Definition disk_write_out (w : disk_write) : M W exn unit :=
  match w with
  | DiskCreate fields => nb_create DISKS fields;; mret tt
  | DiskUpdate i changes => nb_update DISKS i changes
  end.

Definition apply_virtual_disks (hosts : list DiscoveredHost) (confirmed : bool) : M W exn unit :=
  vms ← nb_all VMS;
  existing ← nb_all DISKS;
  pending ← lift (mapR (plan_vm vms existing) (hosts_vms hosts));
  if confirmed then forM (mjoin pending) disk_write_out else mret tt.
End Apply.

(** ** What a run writes *)

(** The identity of a discovered disk. *)
Definition identity_of_disk (vm : DiscoveredVirtualMachine) (disk : DiscoveredVirtualDisk) (wanted : pydict) : Prop :=
  ∃ identity, virtual_machine_source_identity vm = Ok identity ∧ disk_identity (to_record identity) (disk_key disk) = Ok wanted.
Definition discovered (hosts : list DiscoveredHost) (vm : DiscoveredVirtualMachine) (disk : DiscoveredVirtualDisk) : Prop :=
  vm ∈ hosts_vms hosts ∧ disk ∈ vm_disks vm.
(** The machine is the only one with the identity of the discovered one. *)
Definition sole_match (vms : list nb_record) (vm : DiscoveredVirtualMachine) (parent : nb_record) : Prop :=
  find_vm_sync_identity_matches custom_fields vms vm = Ok [parent].
(** A new disk: named and placed as discovered, of the size rounded up. *)
Definition disk_of (vms : list nb_record) (hosts : list DiscoveredHost) (row : pydict) : Prop :=
  ∃ vm disk wanted parent size, discovered hosts vm disk ∧ identity_of_disk vm disk wanted ∧ sole_match vms vm parent ∧
    dget "virtual_machine" row = PInt (rec_id parent) ∧ dget "name" row = PStr (vdisk_name disk) ∧ dget "size" row = PInt size ∧
    (∃ cf, dget "custom_fields" row = PDict cf ∧ dlookup "sync_disk_identity" cf = Some (PDict wanted)) ∧
    (vdisk_size_bytes disk ≤ size * 1000000 < vdisk_size_bytes disk + 1000000)%Z.

(** The stored disk is the one of a discovered disk: it is the only one with its
    identity, and the machine it belongs to is the only one with the identity of the
    discovered machine. *)
Definition disk_owner (vms existing : list nb_record) (hosts : list DiscoveredHost) (r : nb_record) (disk : DiscoveredVirtualDisk) (wanted : pydict) : Prop :=
  ∃ vm parent, discovered hosts vm disk ∧ identity_of_disk vm disk wanted ∧ sole_match vms vm parent ∧ parent_is parent r = true ∧
    filter (has_identity wanted) existing = [r].
(** What a run may write into a field of a stored disk: the discovered name, the size
    rounded up, and the identity into the custom fields it had. *)
Definition disk_field (r : nb_record) (disk : DiscoveredVirtualDisk) (wanted : pydict) (k : string) (v : pyval) : Prop :=
  k = "name" ∧ v = PStr (vdisk_name disk) ∨
  k = "size" ∧ (∃ size, v = PInt size ∧ (vdisk_size_bytes disk ≤ size * 1000000 < vdisk_size_bytes disk + 1000000)%Z) ∨
  k = "custom_fields" ∧ v = PDict (dset "sync_disk_identity" (PDict wanted) (disk_fields r)).

Lemma disk_size_bounds d : (vdisk_size_bytes d ≤ disk_size d * 1000000 < vdisk_size_bytes d + 1000000)%Z.
Proof. unfold disk_size. pose proof (Z.div_mod (vdisk_size_bytes d + 999999) 1000000). pose proof (Z.mod_pos_bound (vdisk_size_bytes d + 999999) 1000000). lia. Qed.

(** A planned write changes a disk of the inventory or creates one. *)
Definition planned (vms existing : list nb_record) (hosts : list DiscoveredHost) (w : disk_write) : Prop :=
  match w with
  | DiskUpdate i changes => ∃ r disk wanted, rec_id r = i ∧ disk_owner vms existing hosts r disk wanted ∧ ∀ kv, kv ∈ changes → disk_field r disk wanted kv.1 kv.2
  | DiskCreate fields => disk_of vms hosts fields
  end.

Lemma plan_disk_planned vms existing hosts vm parent identity disk ws :
  discovered hosts vm disk → sole_match vms vm parent → virtual_machine_source_identity vm = Ok identity →
  plan_disk existing parent (to_record identity) disk = Ok ws → Forall (planned vms existing hosts) ws.
Proof.
  intros Hdisc Hsole Hid. unfold plan_disk. intros (wanted & Hw & H)%result_bind_Ok.
  assert (identity_of_disk vm disk wanted) as Hwanted by (by exists identity).
  destruct (filter (has_identity wanted) existing) as [|c [|]] eqn:E; [| |done].
  - cbn [head] in H. destruct (existsb _ existing); [done|]. destruct (Z.ltb_spec (vdisk_size_bytes disk) 0); [done|].
    injection H as <-. constructor; [|constructor]. exists vm, disk, wanted, parent, (disk_size disk). split_and!; try done; first [apply disk_size_bounds|by eexists].
  - cbn [head] in H. destruct (parent_is parent c) eqn:Hpar; [|done]. cbn [negb] in H.
    destruct (existsb _ existing); [done|]. destruct (Z.ltb_spec (vdisk_size_bytes disk) 0); [done|].
    apply Ok_inj in H as <-. destruct (changed_fields c _) as [|kv0 changes] eqn:Ech; constructor; [|constructor].
    exists c, disk, wanted. split_and!; [done|by exists vm, parent|]. rewrite <-Ech. unfold changed_fields.
    intros kv [_ Hkv]%list_elem_of_filter. rewrite !elem_of_cons, elem_of_nil in Hkv. unfold disk_field.
    destruct Hkv as [->|[->|[->|[]]]]; cbn [fst snd]; [by left|right; left; split; [done|]|by right; right].
    exists (disk_size disk). split; [done|apply disk_size_bounds].
Qed.
Lemma plan_vm_planned vms existing hosts vm ws : vm ∈ hosts_vms hosts → plan_vm vms existing vm = Ok ws → Forall (planned vms existing hosts) ws.
Proof.
  intros Hvm. unfold plan_vm. intros (matches & Hm & H)%result_bind_Ok. destruct matches as [|parent [|]]; [done| |done].
  revert H. unfold plan_vm_disks. intros (identity & Hid & H)%result_bind_Ok.
  assert (∀ d, d ∈ vm_disks vm → discovered hosts vm d) as Hdisc by (intros d Hd; by split).
  revert Hdisc ws H. generalize (@nil string). induction (vm_disks vm) as [|d disks IH]; intros seen Hdisc ws; cbn [plan_disks]; [by intros [= <-]|].
  destruct (_ || _); [done|]. intros (here & Hh & (rest & Hr & [= <-])%result_bind_Ok)%result_bind_Ok. apply Forall_app. split.
  - eapply plan_disk_planned; [apply Hdisc; left|done|done|exact Hh].
  - eapply IH; [|exact Hr]. intros x Hx. apply Hdisc. by right.
Qed.

Section Scope.
Context {W : Type} `{!NetBoxApi W} (contents : W → string → table) `{!NetBoxLaws W contents}.

(** A row keeps what it holds, or it is in the set and has in a field what [written]
    admits; new rows are as allowed. *)
Definition scoped_rows (own : Z → Prop) (written : Z → string → pyval → Prop) (allowed : pydict → Prop) (w w' : W) : Prop :=
  kept_tables DISKS (contents w) (contents w') ∧
  (∀ i d, contents w DISKS !! i = Some d → ∃ d', contents w' DISKS !! i = Some d' ∧
     (d' = d ∨ own i ∧ ∀ k, k ≠ "id" → dget k d' = dget k d ∨ written i k (dget k d'))) ∧
  (∀ i d, ¬ own i → contents w DISKS !! i = None → contents w' DISKS !! i = Some d → allowed d).
#[local] Instance scoped_rows_preorder own written allowed : PreOrder (scoped_rows own written allowed).
Proof.
  split.
  - intros w. split; [done|]. split; [intros i d Hd; exists d; auto|congruence].
  - intros w1 w2 w3 (K1 & G1 & H1) (K2 & G2 & H2). split; [intros e He; by rewrite K2, K1|]. split.
    + intros i d (d2 & Hd2 & F1)%G1. destruct (G2 i d2 Hd2) as (d3 & Hd3 & F2). exists d3. split; [done|].
      destruct F2 as [->|[Ho F2]]; [done|]. right. split; [done|]. intros k Hk. destruct (F2 k Hk) as [->|?]; [|by right].
      destruct F1 as [->|[_ F1]]; [by left|by apply F1].
    + intros i d Hi E Hd. destruct (contents w2 DISKS !! i) as [d2|] eqn:E2; [|by eapply H2].
      destruct (G2 i d2 E2) as (d3 & Hd3 & [->|[Ho _]]); [|done]. rewrite Hd3 in Hd. injection Hd as <-. by eapply H1.
Qed.
Lemma same_contents own written allowed w w' : contents w' = contents w → scoped_rows own written allowed w w'.
Proof. intros E. unfold scoped_rows, kept_tables. rewrite E. split; [done|]. split; [intros i d Hd; exists d; auto|congruence]. Qed.

Lemma dget_dupdate_cases k d changes : dget k (dupdate d changes) = dget k d ∨ ∃ v, (k, v) ∈ changes ∧ dget k (dupdate d changes) = v.
Proof.
  unfold dupdate. revert d. induction changes as [|[k1 v1] changes IH]; intros d; [by left|]. cbn [foldl fst snd].
  destruct (IH (dset k1 v1 d)) as [->|(v & Hv & E)]; [|right; exists v; split; [by right|done]].
  destruct (decide (k = k1)) as [->|Hne]; [right; exists v1; split; [by left|by rewrite dget_dset_eq]|left; by rewrite dget_dset_ne].
Qed.

Lemma disk_write_scoped own written allowed x w :
  match x with
  | DiskUpdate i changes => own i ∧ ∀ kv, kv ∈ changes → written i kv.1 kv.2
  | DiskCreate fields => ∀ d, created_as d fields → allowed d
  end → moves (scoped_rows own written allowed) (disk_write_out x) w.
Proof.
  unfold moves. destruct x as [fields|i changes]; intros Hx.
  - cbn [disk_write_out]. unfold mbind, M_bind. destruct (nb_create DISKS fields w) as [r w1] eqn:E. apply create_stores in E.
    assert (∀ i, inserted DISKS fields i (contents w) (contents w1) → scoped_rows own written allowed w w1) as Hins.
    { intros i (Hnone & (d & Hd & Ed) & Hkept). split; [done|]. split.
      - intros j dj Hj. exists dj. rewrite Ed, lookup_insert_ne by congruence. auto.
      - intros j dj _ Hj. rewrite Ed. destruct (decide (j = i)) as [->|Hne]; [|rewrite lookup_insert_ne by done; congruence].
        rewrite lookup_insert_eq. intros [= <-]. by apply Hx. }
    destruct r as [y|e]; cbn; [by eapply Hins|]. destruct E as [E|[i E]]; [by apply same_contents|by eapply Hins].
  - cbn [disk_write_out]. destruct (nb_update DISKS i changes w) as [r w1] eqn:E. apply update_stores in E.
    assert (patched DISKS changes i (contents w) (contents w1) → scoped_rows own written allowed w w1) as Hpat.
    { intros [(d & d' & Hd & Hup & Ed) Hkept]. split; [done|]. rewrite Ed. split.
      - intros j dj Hj. destruct (decide (j = i)) as [->|Hne]; [|exists dj; rewrite lookup_insert_ne by done; auto].
        rewrite lookup_insert_eq. exists d'. split; [done|]. right. split; [apply Hx|]. intros k Hk.
        rewrite Hd in Hj. injection Hj as <-. rewrite (Hup k Hk).
        destruct (dget_dupdate_cases k d changes) as [?|(v & Hv & ->)]; [by left|right]. by apply (proj2 Hx (k, v)).
      - intros j dj _ Hj. rewrite lookup_insert_ne by congruence. congruence. }
    destruct r as [y|e]; cbn; [by apply Hpat|]. destruct E as [E|E]; [by apply same_contents|by apply Hpat].
Qed.

Lemma disk_of_reads vms hosts d fields : created_as d fields → disk_of vms hosts fields → disk_of vms hosts d.
Proof.
  intros (Hr & Hc & _) (vm & disk & wanted & parent & size & H1 & H2 & H3 & H4 & H5 & H6 & (sent & H7 & Hs) & H8 & H9).
  assert (∀ k v, dget k fields = v → v ≠ PNone → k ∉ ["id"; "custom_fields"] → dget k d = v) as Hg.
  { intros k v <- Hv Hk. apply Hr; [|done]. unfold dget in Hv. destruct (dlookup k fields) as [x|] eqn:E; [|done]. apply dlookup_elem in E.
    apply list_elem_of_fmap. by exists (k, x). }
  exists vm, disk, wanted, parent, size. split_and!; try done; try (by apply Hg; [| |decided]).
  destruct (Hc sent) as (cf & Ecf & Hk).
  { unfold dget in H7. by destruct (dlookup "custom_fields" fields); [f_equal|]. }
  exists cf. split; [done|]. rewrite Hk; [done|]. apply dlookup_elem in Hs. apply list_elem_of_fmap. by exists ("sync_disk_identity", PDict wanted).
Qed.

(** Every stored disk is as before, or its own fields are those of a discovered disk it
    is the one of; every new one is that of a discovered disk. *)
Definition disk_rows_scoped (vms existing : list nb_record) (hosts : list DiscoveredHost) (t t' : table) : Prop :=
  (∀ i d, t !! i = Some d → ∃ d', t' !! i = Some d' ∧
     (d' = d ∨
      (∃ disk wanted, disk_owner vms existing hosts (mkRec i d) disk wanted) ∧
      ∀ k, k ≠ "id" → dget k d' = dget k d ∨
        ∃ disk wanted, disk_owner vms existing hosts (mkRec i d) disk wanted ∧ disk_field (mkRec i d) disk wanted k (dget k d'))) ∧
  (∀ i d, t !! i = None → t' !! i = Some d → disk_of vms hosts d).
Lemma disk_rows_unchanged vms existing hosts t : disk_rows_scoped vms existing hosts t t.
Proof. split; [intros i d Hd; exists d; auto|congruence]. Qed.

(** The writes of a plan. *)
Lemma planned_writes_scoped vms existing hosts ws w w2 :
  contents w2 = contents w → existing ≡ₚ records (contents w DISKS) → Forall (planned vms existing hosts) ws →
  let w' := (forM ws disk_write_out w2).2 in
  kept_tables DISKS (contents w) (contents w') ∧ disk_rows_scoped vms existing hosts (contents w DISKS) (contents w' DISKS).
Proof.
  intros E2 Hex Hp. cbv zeta.
  set (owner := λ i disk wanted, ∃ d, contents w DISKS !! i = Some d ∧ disk_owner vms existing hosts (mkRec i d) disk wanted).
  set (written := λ i k v, ∃ d disk wanted, contents w DISKS !! i = Some d ∧ disk_owner vms existing hosts (mkRec i d) disk wanted ∧
    disk_field (mkRec i d) disk wanted k v).
  assert (scoped_rows (λ i, ∃ disk wanted, owner i disk wanted) written (disk_of vms hosts) w (forM ws disk_write_out w2).2) as (Hk & Hrows & Hnew).
  { trans w2; [by apply same_contents|]. apply moves_forM; [apply _|]. intros x s Hx. apply disk_write_scoped.
    rewrite Forall_forall in Hp. specialize (Hp x Hx). destruct x as [fields|i changes]; cbn [planned] in Hp.
    - intros d Hd. by eapply disk_of_reads.
    - destruct Hp as (rec & disk & wanted & <- & Hown & Hf).
      assert (contents w DISKS !! rec_id rec = Some (rec_data rec)) as Hrec.
      { destruct Hown as (vm & parent & _ & _ & _ & _ & Hone). apply elem_of_records. rewrite <-Hex.
        assert (rec ∈ filter (has_identity wanted) existing) as [_ Hin]%list_elem_of_filter by (rewrite Hone; left). done. }
      destruct rec as [i d]. split; [by exists disk, wanted, d|]. intros kv Hkv. by exists d, disk, wanted; auto. }
  split; [done|]. split.
  - intros i d Hd. destruct (Hrows i d Hd) as (d' & Hd' & Hf). exists d'. split; [done|].
    destruct Hf as [->|[(disk & wanted & d0 & Hd0 & Ho) Hf]]; [by left|right]. rewrite Hd in Hd0. injection Hd0 as <-. split; [by exists disk, wanted|].
    intros k Hkk. destruct (Hf k Hkk) as [?|(d0 & disk1 & wanted1 & Hd0 & Ho1 & Hf1)]; [by left|right]. rewrite Hd in Hd0. injection Hd0 as <-. by exists disk1, wanted1.
  - intros i d Hnone Hd. apply (Hnew i d); [|done|done]. intros (disk & wanted & d' & Hd' & _). congruence.
Qed.

End Scope.

Definition disk_vm : DiscoveredVirtualMachine :=
  mkVM "esxi" "lab" false "esxi:42" "esxi:host" (PStr "42") "web" "web" "running" 2 4294967296 true
    [mkVirtualDisk "disk-0" None 1500001 (Some "2000")] [] (Some "42") None None None None.
Definition disk_host : DiscoveredHost :=
  mkHost "esxi" "lab" false "host-1" "host-1" "host-1" None "ESXi" None (mkCPU None None 1 4 8) 68719476736 None None [] [] [] [disk_vm] [] None None None None None.
Definition disk_wanted : pydict :=
  [("schema", PStr "v2"); ("type", PStr "esxi"); ("instance", PStr "lab"); ("kind", PStr "vm-disk"); ("external_id", PStr "42:2000")].
Definition manual_disk : pydict := [("id", PInt 1); ("name", PStr "manual"); ("virtual_machine", PInt 5); ("size", PInt 9)].
Definition known_disk (parent : Z) : pydict :=
  [("id", PInt 2); ("name", PStr "disk-0"); ("virtual_machine", PInt parent); ("size", PInt 1); ("custom_fields", PDict [("sync_disk_identity", PDict disk_wanted)])].
Definition disk_store (disks : table) : store :=
  mkStore {[VMS := {[ 5%Z := [("id", PInt 5); ("name", PStr "web");
                              ("custom_fields", PDict [("sync_identities", PList [PDict
                                 [("schema", PStr "v2"); ("type", PStr "esxi"); ("instance", PStr "lab"); ("kind", PStr "vm"); ("external_id", PStr "42")]])])] ]};
            DISKS := disks]}.
Abbreviation disk_run disks := (apply_virtual_disks [disk_host] true (disk_store disks)).
(** A new disk, a stored one whose size is corrected, and one of another machine. *)
Lemma disk_runs :
  (disk_run {[ 1%Z := manual_disk ]}).1 = Ok tt ∧
  ((λ e, dget "size" e.2) <$> map_to_list (st_contents (disk_run {[ 1%Z := manual_disk ]}).2 DISKS)) ≡ₚ [PInt 9; PInt 2] ∧
  (disk_run (<[ 1%Z := manual_disk ]> {[ 2%Z := known_disk 5 ]})).1 = Ok tt ∧
  dget "size" <$> st_contents (disk_run (<[ 1%Z := manual_disk ]> {[ 2%Z := known_disk 5 ]})).2 DISKS !! 2%Z = Some (PInt 2) ∧
  (disk_run {[ 2%Z := known_disk 6 ]}).1 = Err (ValueError "Disk identity belongs to another VM").
Proof. split_and!; [by vm_compute|vm_compute; by repeat constructor|by vm_compute..]. Qed.

