(* ===== verification/GuestPlacement.v ===== *)
(** * Placement of guests (guest_placement.py)

    A managed guest is attached to the device of the host it was discovered on. The
    whole batch is checked against one reading of NetBox before anything is written;
    a guest that someone placed on an unrelated host is refused. *)

From S2P Require Import Prelude PyValue NetBox Discovery SourceIdentity Metadata Calendar SourceConfig VmApply InventoryConflicts NetworkScopes HardwareIdentity.
From stdpp Require Import base list strings gmap.
From Stdlib Require Import ZArith Lia.
Local Open Scope string_scope.
#[local] Arguments py_eqb _ _ : simpl never.

Definition DEVICES : string := "dcim.devices".

(** [_find_guest]. *)
Definition find_guest (vms : list nb_record) (g : Guest) : result exn nb_record :=
  matches ← match g with
            | GuestCT c => find_lxc_sync_identity_matches custom_fields vms c
            | GuestVM v => find_vm_sync_identity_matches custom_fields vms v
            end;
  match matches with [r] => Ok r | _ => Err (ValueError "Guest placement identity is ambiguous or missing") end.

(** The source instances that own a device; a device that is not listed has none. *)
Definition instance_of (identity : pyval) : result exn (option pyval) :=
  match identity with
  | PDict d => match dget "instance" d with PList _ | PDict _ => Err (TypeError "unhashable type") | v => Ok (Some v) end
  | _ => Ok None
  end.
Definition owners (device : option nb_record) : result exn (list pyval) :=
  identities ← py_iter (default (PList []) (dlookup "sync_identities" (default [] (device ≫= custom_fields))));
  found ← mapR instance_of identities;
  Ok (omap (λ o : option pyval, o) (found : list (option pyval))).

(** [_needs_placement]. *)
Definition needs_placement (vm : nb_record) (g : Guest) (device : nb_record) (devices : list nb_record) : result exn bool :=
  let current := exact_id (field "device" vm) in
  if py_eqb current (PInt (rec_id device)) then Ok false
  else
    owned ← (if bool_decide (current = PNone) then Ok true
             else found ← owners (snd <$> list_find (λ d, py_eqb (PInt (rec_id d)) current = true) devices);
                  Ok (existsb (py_eqb (PStr (guest_source_instance g))) found));
    if negb (owned : bool) then Err (ValueError "Guest has an unrelated host assignment")
    else if py_eqb (exact_id (field "cluster" vm)) (exact_id (field "cluster" device)) then Ok true
    else Err (ValueError "Guest and managed host belong to different clusters").

Section Placement.
Context (fromisoformat : string → result exn datetime) (now : Z) (now_text : string).
Abbreviation host_matches := (find_sync_identity_matches fromisoformat now now_text).

Definition place_guest (vms devices : list nb_record) (device : nb_record) (g : Guest) : result exn (list (Z * Z)) :=
  vm ← find_guest vms g;
  needed ← needs_placement vm g device devices;
  Ok (if (needed : bool) then [(rec_id vm, rec_id device)] else []).
Definition place_host (vms devices : list nb_record) (h : DiscoveredHost) : result exn (list (Z * Z)) :=
  matched ← host_matches devices h;
  match matched with
  | [] => Ok []
  | [device] => parts ← mapR (place_guest vms devices device) (host_guests h); Ok (mjoin (parts : list (list (Z * Z))))
  | _ => Err (ValueError "Ambiguous managed host identity")
  end.

Context {W : Type} `{!NetBoxApi W}.
Definition place_out (p : Z * Z) : M W exn unit := nb_update VMS p.1 [("device", PInt p.2)].
Definition apply_guest_placement (hosts : list DiscoveredHost) (confirmed : bool) : M W exn unit :=
  devices ← nb_all DEVICES;
  vms ← nb_all VMS;
  pending ← lift (mapR (place_host vms devices) hosts);
  if confirmed then forM (mjoin (pending : list (list (Z * Z)))) place_out else mret tt.

(** ** What a run may change *)

(** The guest's only record may be moved to the device of its host: it is in the same
    cluster and was on no host, or on one that the guest's source owns. *)
Definition may_place (vms devices : list nb_record) (hosts : list DiscoveredHost) (i x : Z) : Prop :=
  ∃ h g vm device, h ∈ hosts ∧ g ∈ host_guests h ∧ find_guest vms g = Ok vm ∧ rec_id vm = i ∧
    host_matches devices h = Ok [device] ∧ rec_id device = x ∧
    py_eqb (exact_id (field "cluster" vm)) (exact_id (field "cluster" device)) = true ∧
    (exact_id (field "device" vm) = PNone ∨
     ∃ previous instances, previous ∈ devices ∧ py_eqb (PInt (rec_id previous)) (exact_id (field "device" vm)) = true ∧
       owners (Some previous) = Ok instances ∧ existsb (py_eqb (PStr (guest_source_instance g))) instances = true).

Lemma place_host_allowed vms devices hosts h ps :
  h ∈ hosts → place_host vms devices h = Ok ps → Forall (λ p, may_place vms devices hosts p.1 p.2) ps.
Proof.
  intros Hh. unfold place_host. intros (matched & Hm & H)%result_bind_Ok. destruct matched as [|device [|]]; [by injection H as <-| |done].
  apply result_bind_Ok in H as (parts & Hp & [= <-]). apply mapR_Ok in Hp. apply Forall_forall. intros p (ws & Hpw & Hws)%list_elem_of_join.
  apply list_elem_of_lookup in Hws as [i Hi]. destruct (Forall2_lookup_r _ _ _ _ _ Hp Hi) as (g & Hg & E). apply list_elem_of_lookup_2 in Hg.
  revert E. unfold place_guest. intros (vm & Hvm & (needed & Hn & [= <-])%result_bind_Ok)%result_bind_Ok.
  destruct needed; [|by apply elem_of_nil in Hpw]. apply list_elem_of_singleton in Hpw as ->. exists h, g, vm, device. do 6 (split; [done|]).
  revert Hn. unfold needs_placement. destruct (py_eqb _ (PInt _)); [done|]. intros (owned & Ho & H)%result_bind_Ok.
  destruct owned; [|done]. cbn [negb] in H. destruct (py_eqb (exact_id (field "cluster" vm)) _) eqn:Ec; [|done]. split; [done|].
  case_bool_decide; [by left|right]. apply result_bind_Ok in Ho as (instances & Hi' & [= Hex]).
  destruct (list_find _ devices) as [[j previous]|] eqn:Ef.
  - apply list_find_Some in Ef as (Hj & Hid & _). exists previous, instances. split_and!; [by eapply list_elem_of_lookup_2|done..].
  - cbn in Hi'. injection Hi' as <-. done.
Qed.
Context (contents : W → string → table) `{!NetBoxLaws W contents}.

(** Rows stay, or have a new device that is allowed. *)
Definition placed (allowed : Z → Z → Prop) (w w' : W) : Prop :=
  kept_tables VMS (contents w) (contents w') ∧
  ∀ i, match contents w VMS !! i with
       | None => contents w' VMS !! i = None
       | Some d => ∃ d', contents w' VMS !! i = Some d' ∧ (d' = d ∨ ∃ x, allowed i x ∧ reads_as d' (dset "device" (PInt x) d))
       end.
#[local] Instance placed_preorder allowed : PreOrder (placed allowed).
Proof.
  split.
  - intros w. split; [done|]. intros i. destruct (contents w VMS !! i); [|done]. eexists. split; [done|by left].
  - intros w1 w2 w3 [K1 H1] [K2 H2]. split; [intros e He; by rewrite K2, K1|]. intros i. specialize (H1 i). specialize (H2 i).
    destruct (contents w1 VMS !! i) as [d|]; [|by rewrite H1 in H2]. destruct H1 as (d1 & E1 & H1). rewrite E1 in H2.
    destruct H2 as (d2 & E2 & H2). exists d2. split; [done|]. destruct H2 as [->|(x & Hx & Hr)]; [done|]. right. exists x. split; [done|].
    intros k Hk. rewrite Hr by done. destruct (decide (k = "device")) as [->|Hne]; [by rewrite !dget_dset_eq|].
    rewrite !dget_dset_ne by done. destruct H1 as [->|(y & _ & Hy)]; [done|]. rewrite Hy by done. by rewrite dget_dset_ne.
Qed.
Lemma same_placed allowed w w' : contents w' = contents w → placed allowed w w'.
Proof. intros E. unfold placed, kept_tables. rewrite E. split; [done|]. intros i. destruct (contents w VMS !! i); [|done]. eexists. split; [done|by left]. Qed.

Lemma place_out_placed allowed p w : allowed p.1 p.2 → moves (placed allowed) (place_out p) w.
Proof.
  intros Hp. unfold moves, place_out. destruct (nb_update _ _ _ w) as [r w1] eqn:E. apply update_stores in E.
  assert (patched VMS [("device", PInt p.2)] p.1 (contents w) (contents w1) → placed allowed w w1) as Hpat.
  { intros [(d & d' & Hd & Hu & Ed) Hk]. split; [done|]. intros i. rewrite Ed. destruct (decide (i = p.1)) as [->|Hne].
    - rewrite Hd, lookup_insert_eq. exists d'. split; [done|]. right. by exists p.2.
    - rewrite lookup_insert_ne by done. destruct (contents w VMS !! i); [|done]. eexists. split; [done|by left]. }
  destruct r; cbn; [by apply Hpat|]. destruct E as [E|E]; [by apply same_placed|by apply Hpat].
Qed.

(** [apply_guest_placement] never takes a guest away from an unrelated host. Whatever
    happens, every other table keeps what it holds and no machine appears or disappears;
    a machine that changed differs in its device alone, it is the only record of a
    discovered guest, the new device is the only one of the guest's own host and in the
    same cluster, and before it the guest was on no device or on one the guest's source
    owns. Nothing is written without confirmation. *)
Theorem placement_never_takes_over hosts confirmed w r w' :
  apply_guest_placement hosts confirmed w = (r, w') →
  kept_tables VMS (contents w) (contents w') ∧ (confirmed = false → contents w' = contents w) ∧
  ∃ vms devices, (contents w' = contents w ∨ vms ≡ₚ records (contents w VMS) ∧ devices ≡ₚ records (contents w DEVICES)) ∧
  ∀ i, match contents w VMS !! i with
       | None => contents w' VMS !! i = None
       | Some d => ∃ d', contents w' VMS !! i = Some d' ∧ (d' = d ∨ ∃ x, may_place vms devices hosts i x ∧ reads_as d' (dset "device" (PInt x) d))
       end.
Proof.
  intros Hrun. assert (∃ vms devices, (contents w' = contents w ∨ vms ≡ₚ records (contents w VMS) ∧ devices ≡ₚ records (contents w DEVICES)) ∧
    placed (may_place vms devices hosts) w w' ∧ (confirmed = false → contents w' = contents w)) as (vms & devices & H1 & [Hk Hp] & Hc).
  2: { split_and!; [done..|]. by exists vms, devices. }
  revert Hrun. unfold apply_guest_placement, mbind, M_bind. destruct (nb_all DEVICES w) as [[devices|e] w1] eqn:E1; apply all_reads in E1 as [E1 Hdev].
  2: { intros [= <- <-]. exists [], []. split_and!; [by left|by apply same_placed|done]. }
  destruct (nb_all VMS w1) as [[vms|e] w2] eqn:E2; apply all_reads in E2 as [E2 Hvms]; rewrite E1 in E2.
  2: { intros [= <- <-]. exists [], []. split_and!; [by left|by apply same_placed|done]. }
  rewrite E1 in Hvms. specialize (Hdev devices eq_refl). specialize (Hvms vms eq_refl). unfold lift.
  destruct (mapR _ hosts) as [pending|e] eqn:Ep; [|intros [= <- <-]; exists [], []; split_and!; [by left|by apply same_placed|done]].
  destruct confirmed; [|intros [= <- <-]; exists [], []; split_and!; [by left|by apply same_placed|done]].
  intros Hw. exists vms, devices. split_and!; [by right| |done]. trans w2; [by apply same_placed|].
  apply (f_equal snd) in Hw. cbn in Hw. rewrite <-Hw. apply moves_forM; [apply _|]. intros p s (ps & Hps & Hin)%list_elem_of_join.
  apply place_out_placed. apply mapR_Ok in Ep. apply list_elem_of_lookup in Hin as [i Hi]. destruct (Forall2_lookup_r _ _ _ _ _ Ep Hi) as (h & Hh & E).
  apply list_elem_of_lookup_2 in Hh. apply place_host_allowed with (hosts := hosts) in E; [|done]. by apply (proj1 (Forall_forall _ _) E).
Qed.
End Placement.

Definition place_vm : DiscoveredVirtualMachine :=
  mkVM "esxi" "lab" false "esxi:42" "esxi:host" (PStr "42") "web" "web" "running" 2 4294967296 true [] [] (Some "42") None None None None.
Definition place_on : DiscoveredHost :=
  mkHost "esxi" "lab" false "host-1" "host-1" "host-1" None "ESXi" None (mkCPU None None 1 4 8) 68719476736 None None [] [] [] [place_vm] [] None None None None None.
Definition place_identity (kind id : string) : pyval :=
  PDict [("sync_identities", PList [PDict [("schema", PStr "v2"); ("type", PStr "esxi"); ("instance", PStr "lab"); ("kind", PStr kind); ("external_id", PStr id)]])].
Definition place_store : store :=
  mkStore {[DEVICES := {[ 7%Z := [("id", PInt 7); ("cluster", PInt 3); ("custom_fields", place_identity "host" "host-1")] ]};
            VMS := {[ 5%Z := [("id", PInt 5); ("name", PStr "web"); ("cluster", PInt 3); ("custom_fields", place_identity "vm" "42")] ]}]}.
Definition no_dates (s : string) : result exn datetime := Err (ValueError "Invalid isoformat string").
Lemma placement_never_takes_over_witness :
  let run := apply_guest_placement no_dates 0 "" [place_on] true place_store in
  run.1 = Ok tt ∧ kept_tables VMS (st_contents place_store) (st_contents run.2) ∧ dget "device" <$> st_contents run.2 VMS !! 5%Z = Some (PInt 7).
Proof.
  cbv zeta. split_and!; [by vm_compute| |by vm_compute].
  exact (proj1 (placement_never_takes_over no_dates 0 "" st_contents [place_on] true place_store _ _ (surjective_pairing _))).
Defined.
