(* ===== verification/Disappearance.v ===== *)
(** * Objects that disappeared (disappearance_identity.py, disappearance_inventory.py,
      disappearance_report.py, netbox_disappearance.py)

    Before a synchronisation writes, the guests and interfaces that NetBox holds for
    the source are compared with discovery. What is gone is reported and kept. The
    report is what the printed lines show. *)

From S2P Require Import Prelude PyValue NetBox Discovery SourceIdentity Metadata SourceConfig VmApply InventoryConflicts NetworkScopes HostMapping.
From stdpp Require Import base list strings gmap.
From Stdlib Require Import ZArith Lia.
Local Open Scope string_scope.
#[local] Arguments py_eqb _ _ : simpl never.

(** A v2 identity, or a legacy pair of a source and an identifier. *)
Inductive managed_id := V2 (i : SourceIdentity) | Legacy (source source_id : string).
#[export] Instance managed_id_eq_dec : EqDecision managed_id.
Proof. solve_decision. Defined.

(** ** Discovery *)

Record discovered_ids := mkIds { id_scopes : list (string * string); id_instances : list (string * string); id_guests : list managed_id; id_interfaces : list managed_id }.

Definition guest_v2 (g : Guest) : result exn SourceIdentity :=
  match g with GuestVM v => virtual_machine_source_identity v | GuestCT c => lxc_source_identity c end.
(** [_collect_guest_identities]: the guest's identities and those of its interfaces. *)
Definition collect_guest (g : Guest) : result exn (list managed_id * list managed_id) :=
  identity ← guest_v2 g;
  nics ← mapR (λ n, i ← guest_nic_source_identity g n; Ok [Legacy (guest_source g) (nic_identity_source_id g n); V2 i]) (guest_interfaces g);
  Ok ([Legacy (guest_source g) (guest_identity_source_id g); V2 identity], mjoin (nics : list (list managed_id))).
Definition collect_host (h : DiscoveredHost) : result exn discovered_ids :=
  guests ← mapR collect_guest (host_guests h);
  Ok (mkIds (if host_legacy_identity_owner h then [(host_source h, local_source_id (host_source h) (host_source_id h) +:+ ":")] else [])
        [(host_source h, host_source_instance h)] (mjoin (guests.*1 : list (list managed_id))) (mjoin (guests.*2 : list (list managed_id)))).
Definition collect_discovered_identities (hosts : list DiscoveredHost) : result exn discovered_ids :=
  parts ← mapR collect_host hosts;
  Ok (mkIds (remove_dups (mjoin (id_scopes <$> (parts : list discovered_ids)))) (mjoin (id_instances <$> (parts : list discovered_ids)))
        (mjoin (id_guests <$> (parts : list discovered_ids))) (mjoin (id_interfaces <$> (parts : list discovered_ids)))).

(** ** Stored identities *)

(** [_identities]. *)
Definition legacy_pair (item : pyval) : option (string * string) :=
  match item with
  | PDict d =>
      let source := dget "source" d in
      let id := default (dget "id" d) (dlookup "source_id" d) in
      if truthy source && truthy id then Some (py_str source, py_str id) else None
  | _ => None
  end.
Definition stored_list (fields : pydict) : list pyval := match dget "sync_identities" fields with PList l => l | _ => [] end.
Definition legacy_identities (fields : pydict) : list (string * string) := omap legacy_pair (stored_list fields).
(** [_v2_identities]. *)
Definition v2_identities (fields : pydict) : result exn (list SourceIdentity) :=
  parsed ← mapR from_record (stored_list fields); Ok (omap (λ o : option SourceIdentity, o) (parsed : list (option SourceIdentity))).

(** [build_managed_identity_resolver]. *)
Definition in_scope (ids : discovered_ids) (i : SourceIdentity) : Prop := (si_type i, si_instance i) ∈ id_instances ids.
#[export] Instance in_scope_dec ids i : Decision (in_scope ids i).
Proof. unfold in_scope. apply _. Defined.
Definition scoped_pairs (ids : discovered_ids) (fields : pydict) : list (string * string) :=
  p ← legacy_identities fields; (λ _, p) <$> filter (λ s, p.1 = s.1 ∧ String.prefix s.2 p.2 = true) (id_scopes ids).
Definition managed_identity (ids : discovered_ids) (fields : pydict) : result exn (option managed_id) :=
  v2 ← v2_identities fields;
  match filter (in_scope ids) v2 with
  | [i] => Ok (Some (V2 i))
  | _ :: _ :: _ => Err (RuntimeError "Object has multiple managed Proxmox v2 identities")
  | [] =>
      match scoped_pairs ids fields with
      | [] => Ok None
      | [p] => Ok (Some (Legacy p.1 p.2))
      | _ => Err (RuntimeError "Object has multiple managed Proxmox identities")
      end
  end.

(** ** The report *)

Record report := mkReport {
  rp_managed_guests : nat; rp_missing_guests : list (nb_record * managed_id);
  rp_managed_interfaces : nat; rp_missing_interfaces : list (nb_record * nb_record * managed_id) }.
Definition empty_report : report := mkReport 0 [] 0 [].
Definition join_reports (a b : report) : report :=
  mkReport (rp_managed_guests a + rp_managed_guests b) (rp_missing_guests a ++ rp_missing_guests b)
    (rp_managed_interfaces a + rp_managed_interfaces b) (rp_missing_interfaces a ++ rp_missing_interfaces b).

Definition record_identity (ids : discovered_ids) (r : nb_record) : result exn (option managed_id) := managed_identity ids (default [] (custom_fields r)).
Definition interface_report (ids : discovered_ids) (vm interface : nb_record) : result exn report :=
  identity ← record_identity ids interface;
  Ok (match identity with
      | None => empty_report
      | Some i => mkReport 0 [] 1 (if bool_decide (i ∈ id_interfaces ids) then [] else [(vm, interface, i)])
      end).
(** The interfaces of a guest, by [object_id] of their machine. *)
Definition interfaces_of (interfaces : list nb_record) (vm : nb_record) : list nb_record :=
  filter (λ i, py_eqb (object_id (field "virtual_machine" i)) (PInt (rec_id vm)) = true) interfaces.
Definition guest_report (ids : discovered_ids) (interfaces : list nb_record) (vm : nb_record) : result exn report :=
  identity ← record_identity ids vm;
  match identity with
  | None => Ok empty_report
  | Some i =>
      if bool_decide (i ∈ id_guests ids) then
        parts ← mapR (interface_report ids vm) (interfaces_of interfaces vm);
        Ok (foldl join_reports (mkReport 1 [] 0 []) parts)
      else Ok (mkReport 1 [(vm, i)] 0 [])
  end.
(** [find_missing_objects]. *)
Definition find_missing_objects (ids : discovered_ids) (vms interfaces : list nb_record) : result exn report :=
  parts ← mapR (guest_report ids interfaces) vms; Ok (foldl join_reports empty_report parts).

Section Report.
Context {W : Type} `{!NetBoxApi W}.
Definition SITES : string := "dcim.sites".

Definition site_cluster (site : nb_record) (c : nb_record) : Prop :=
  py_eqb (field "scope_type" c) (PStr "dcim.site") = true ∧ py_eqb (field "scope_id" c) (PInt (rec_id site)) = true.
#[export] Instance site_cluster_dec site c : Decision (site_cluster site c).
Proof. unfold site_cluster. apply _. Defined.
Definition resolve_disappearance_target (target : NetBoxTargetConfig) : M W exn nb_record :=
  found ← nb_get SITES [("slug", PStr (site_slug target))];
  site ← require found (RuntimeError "Target site not found");
  q ← lift (cluster_filter target);
  clusters ← nb_filter CLUSTERS q;
  match filter (site_cluster site) clusters with [c] => mret c | _ => raise (RuntimeError "Expected exactly one target cluster") end.

Definition report_missing_managed_objects (hosts : list DiscoveredHost) (target : NetBoxTargetConfig) : M W exn report :=
  cluster ← resolve_disappearance_target target;
  ids ← lift (collect_discovered_identities hosts);
  vms ← nb_filter VMS [("cluster_id", PInt (rec_id cluster))];
  interfaces ← nb_all INTERFACES;
  lift (find_missing_objects ids vms interfaces).
End Report.

(** ** The report is exact *)

Lemma foldl_reports parts start :
  rp_missing_guests (foldl join_reports start parts) = (rp_missing_guests start ++ mjoin (rp_missing_guests <$> parts))%list ∧
  rp_missing_interfaces (foldl join_reports start parts) = (rp_missing_interfaces start ++ mjoin (rp_missing_interfaces <$> parts))%list ∧
  rp_managed_guests (foldl join_reports start parts) = (rp_managed_guests start + sum_list (rp_managed_guests <$> parts))%nat.
Proof.
  revert start. induction parts as [|p parts IH]; intros start; cbn [foldl fmap list_fmap mjoin list_join sum_list]; [by rewrite !app_nil_r, Nat.add_0_r|].
  destruct (IH (join_reports start p)) as (E1 & E2 & E3). rewrite E1, E2, E3. cbn [join_reports rp_missing_guests rp_missing_interfaces rp_managed_guests].
  rewrite <-!app_assoc. split_and!; [done|done|]. cbn. lia.
Qed.
Lemma elem_of_missing {A B} (f : A → result exn report) (sel : report → list B) l parts b :
  mapR f l = Ok parts → b ∈ mjoin (sel <$> parts) ↔ ∃ x rep, x ∈ l ∧ f x = Ok rep ∧ b ∈ sel rep.
Proof.
  intros H%mapR_Ok. rewrite list_elem_of_join. setoid_rewrite list_elem_of_fmap. split.
  - intros (bs & Hb & (rep & -> & Hr)). apply list_elem_of_lookup in Hr as [i Hi]. destruct (Forall2_lookup_r _ _ _ _ _ H Hi) as (x & Hx & E).
    exists x, rep. split_and!; [by eapply list_elem_of_lookup_2|done..].
  - intros (x & rep & Hx & E & Hb). apply list_elem_of_lookup in Hx as [i Hi]. destruct (Forall2_lookup_l _ _ _ _ _ H Hi) as (y & Hy & E').
    rewrite E in E'. injection E' as <-. exists (sel rep). split; [done|]. exists rep. split; [done|]. by eapply list_elem_of_lookup_2.
Qed.

Lemma missing_guest ids interfaces vm rep i r :
  guest_report ids interfaces vm = Ok rep → (r, i) ∈ rp_missing_guests rep ↔ r = vm ∧ record_identity ids vm = Ok (Some i) ∧ i ∉ id_guests ids.
Proof.
  unfold guest_report. intros (identity & Hid & H)%result_bind_Ok. destruct identity as [j|].
  - case_bool_decide as Hj.
    + apply result_bind_Ok in H as (parts & Hp & [= <-]). rewrite (proj1 (foldl_reports _ _)). cbn [rp_missing_guests app].
      rewrite (elem_of_missing _ _ _ _ _ Hp). split; [|intros (_ & E & Hout); rewrite Hid in E; by injection E as ->].
      intros (x & rep & _ & E & Hin). exfalso. revert E. unfold interface_report.
      intros (o & _ & [= <-])%result_bind_Ok. by destruct o; apply elem_of_nil in Hin.
    + injection H as <-. cbn [rp_missing_guests]. rewrite list_elem_of_singleton. split; [by intros [= -> ->]|]. intros (-> & E & _). rewrite Hid in E. by injection E as ->.
  - injection H as <-. cbn. split; [by intros ?%elem_of_nil|]. intros (_ & E & _). by rewrite Hid in E.
Qed.
Lemma missing_interface ids interfaces vm rep r nic i :
  guest_report ids interfaces vm = Ok rep →
  (r, nic, i) ∈ rp_missing_interfaces rep ↔ r = vm ∧ (∃ j, record_identity ids vm = Ok (Some j) ∧ j ∈ id_guests ids) ∧
    nic ∈ interfaces_of interfaces vm ∧ record_identity ids nic = Ok (Some i) ∧ i ∉ id_interfaces ids.
Proof.
  unfold guest_report. intros (identity & Hid & H)%result_bind_Ok. destruct identity as [j|].
  - case_bool_decide as Hj.
    + apply result_bind_Ok in H as (parts & Hp & [= <-]). rewrite (proj1 (proj2 (foldl_reports _ _))). cbn [rp_missing_interfaces app].
      rewrite (elem_of_missing _ _ _ _ _ Hp). split.
      * intros (x & rep & Hx & E & Hin). revert E. unfold interface_report. intros (o & Ho & [= <-])%result_bind_Ok.
        destruct o as [k|]; [|by apply elem_of_nil in Hin]. cbn [rp_missing_interfaces] in Hin. case_bool_decide; [by apply elem_of_nil in Hin|].
        apply list_elem_of_singleton in Hin as [= -> -> ->]. split_and!; [done|by exists j|done..].
      * intros (-> & _ & Hnic & Hi & Hout). exists nic. eexists. split; [done|]. unfold interface_report. rewrite Hi. split; [done|].
        cbn [rp_missing_interfaces]. rewrite bool_decide_eq_false_2 by done. by apply list_elem_of_singleton.
    + injection H as <-. cbn. split; [by intros ?%elem_of_nil|]. intros (_ & (k & Hk & Hin) & _). rewrite Hid in Hk. by injection Hk as ->.
  - injection H as <-. cbn. split; [by intros ?%elem_of_nil|]. intros (_ & (k & Hk & _) & _). rewrite Hid in Hk. done.
Qed.

Section Exact.
Context {W : Type} `{!NetBoxApi W} (contents : W → string → table) `{!NetBoxLaws W contents}.

Lemma target_reads target w r w' : resolve_disappearance_target target w = (r, w') → contents w' = contents w.
Proof.
  unfold resolve_disappearance_target, mbind, M_bind. destruct (nb_get SITES _ w) as [[s|e] w1] eqn:E1; apply get_reads in E1; [|by intros [= _ <-]].
  destruct s as [site|]; cbn; [|by intros [= _ <-]]. unfold lift. destruct (cluster_filter target); [|by intros [= _ <-]].
  destruct (nb_filter CLUSTERS _ w1) as [[cs|e] w2] eqn:E2; apply filter_reads in E2 as [E2 _]; rewrite E1 in E2; [|by intros [= _ <-]].
  destruct (filter _ cs) as [|c [|]]; by intros [= _ <-].
Qed.

(** The disappearance report is exact and changes nothing. A successful
    [report_missing_managed_objects] lists a machine as missing exactly when it is a
    stored machine of the target cluster whose managed identity discovery did not find,
    and an interface exactly when its machine is still there and the interface's managed
    identity was not found; NetBox keeps what it holds, whatever happens. *)
Theorem disappearance_report_exact hosts target w r w' :
  report_missing_managed_objects hosts target w = (r, w') →
  contents w' = contents w ∧
  ∀ rep, r = Ok rep → ∃ cluster ids interfaces,
    collect_discovered_identities hosts = Ok ids ∧ interfaces ≡ₚ records (contents w INTERFACES) ∧
    (∀ vm i, (vm, i) ∈ rp_missing_guests rep ↔
      vm ∈ records (contents w VMS) ∧ in_cluster cluster vm ∧ record_identity ids vm = Ok (Some i) ∧ i ∉ id_guests ids) ∧
    (∀ vm nic i, (vm, nic, i) ∈ rp_missing_interfaces rep ↔
      (vm ∈ records (contents w VMS) ∧ in_cluster cluster vm ∧ ∃ j, record_identity ids vm = Ok (Some j) ∧ j ∈ id_guests ids) ∧
      nic ∈ interfaces_of interfaces vm ∧ record_identity ids nic = Ok (Some i) ∧ i ∉ id_interfaces ids).
Proof.
  unfold report_missing_managed_objects, mbind, M_bind. destruct (resolve_disappearance_target target w) as [[c|e] w1] eqn:E1;
    apply target_reads in E1; [|by intros [= <- <-]].
  unfold lift. destruct (collect_discovered_identities hosts) as [ids|e] eqn:Eids; [|by intros [= <- <-]].
  destruct (nb_filter VMS _ w1) as [[vms|e] w2] eqn:E2; apply filter_reads in E2 as [E2 Hvms]; rewrite E1 in E2, Hvms; [|by intros [= <- <-]].
  specialize (Hvms vms (rec_id c) eq_refl eq_refl).
  destruct (nb_all INTERFACES w2) as [[interfaces|e] w3] eqn:E3; apply all_reads in E3 as [E3 Hint]; rewrite E2 in E3, Hint; [|by intros [= <- <-]].
  specialize (Hint interfaces eq_refl). intros [= <- <-]. split; [done|]. unfold find_missing_objects.
  intros rep (parts & Hp & [= <-])%result_bind_Ok. exists (rec_id c), ids, interfaces. split; [done|]. split; [done|].
  assert (∀ x, x ∈ vms ↔ in_cluster (rec_id c) x ∧ x ∈ records (contents w VMS)) as Hfilter by (intros x; rewrite Hvms; apply list_elem_of_filter).
  destruct (foldl_reports parts empty_report) as (-> & -> & _). cbn [empty_report rp_missing_guests rp_missing_interfaces app]. split.
  - intros vm i. rewrite (elem_of_missing _ _ _ _ _ Hp). split.
    + intros (x & rep & [Hc Hx]%Hfilter & E & Hin). apply (missing_guest _ _ _ _ _ _ E) in Hin as (-> & ? & ?). by split_and!.
    + intros (Hx & Hc & Hid & Hout). apply mapR_Ok in Hp. pose proof (proj2 (Hfilter vm) (conj Hc Hx)) as Hin.
      pose proof Hin as [k Hk]%list_elem_of_lookup. destruct (Forall2_lookup_l _ _ _ _ _ Hp Hk) as (rep & _ & E). exists vm, rep. split_and!; [done..|].
      by apply (missing_guest _ _ _ _ _ _ E).
  - intros vm nic i. rewrite (elem_of_missing _ _ _ _ _ Hp). split.
    + intros (x & rep & [Hc Hx]%Hfilter & E & Hin). apply (missing_interface _ _ _ _ _ _ _ E) in Hin as (-> & Hj & Hrest).
      exact (conj (conj Hx (conj Hc Hj)) Hrest).
    + intros ((Hx & Hc & Hid) & Hrest). apply mapR_Ok in Hp. pose proof (proj2 (Hfilter vm) (conj Hc Hx)) as Hin.
      pose proof Hin as [k Hk]%list_elem_of_lookup. destruct (Forall2_lookup_l _ _ _ _ _ Hp Hk) as (rep & _ & E). exists vm, rep. split_and!; [done..|].
      by apply (missing_interface _ _ _ _ _ _ _ E).
Qed.
End Exact.

Definition report_target : NetBoxTargetConfig := mkTarget "site" "role" "platform" "type" "ctype" "lab" [].
Definition report_store : store :=
  mkStore {[SITES := {[ 1%Z := [("id", PInt 1); ("slug", PStr "site")] ]};
            CLUSTERS := {[ 3%Z := [("id", PInt 3); ("name", PStr "lab"); ("scope_type", PStr "dcim.site"); ("scope_id", PInt 1)] ]};
            VMS := {[ 5%Z := [("id", PInt 5); ("name", PStr "gone"); ("cluster", PInt 3);
                              ("custom_fields", PDict [("sync_identities", PList [PDict [("schema", PStr "v2"); ("type", PStr "esxi"); ("instance", PStr "lab"); ("kind", PStr "vm"); ("external_id", PStr "41")]])])];
                      6%Z := [("id", PInt 6); ("name", PStr "manual"); ("cluster", PInt 3)] ]}]}.
Definition report_host : DiscoveredHost :=
  mkHost "esxi" "lab" false "host-1" "host-1" "host-1" None "ESXi" None (mkCPU None None 1 4 8) 68719476736 None None [] [] [] [] [] None None None None None.
Lemma disappearance_report_exact_witness :
  let run := report_missing_managed_objects [report_host] report_target report_store in
  st_contents run.2 = st_contents report_store ∧
  match run.1 with Ok rep => (λ e, rec_id e.1) <$> rp_missing_guests rep = [5%Z] ∧ rp_managed_guests rep = 1%nat | Err _ => False end.
Proof.
  cbv zeta. split; [|by vm_compute].
  exact (proj1 (disappearance_report_exact st_contents [report_host] report_target report_store _ _ (surjective_pairing _))).
Defined.
