(* ===== verification/LxcApply.v ===== *)
(** * Containers in NetBox (netbox_lxc_apply.py, lxc_apply_inventory.py,
      lxc_apply_preflight.py, lxc_apply_report.py, lxc_apply_writes.py)

    The executor for containers. Unlike the one for virtual machines it plans in
    discovery order, finds the target's machines in the list of all machines, and
    raises at the first container it cannot place. The printed report decides
    nothing and is not modelled. *)

From S2P Require Import Prelude PyValue NetBox NetBoxFrame Discovery SourceIdentity Metadata SourceConfig VmApply NetworkScopes HostMapping Disappearance.
From stdpp Require Import base list strings gmap.
From Stdlib Require Import ZArith Lia.
Local Open Scope string_scope.
#[local] Arguments py_eqb _ _ : simpl never.

Definition lxc_error (msg : string) : exn := OtherException "LXCApplyError" (Some msg).

(** [_status] and [_disk_mib]. *)
Definition lxc_status (value : string) : result exn string :=
  if bool_decide (value = "running") then Ok "active"
  else if bool_decide (value = "stopped") then Ok "offline"
  else if bool_decide (value = "paused") then Ok "paused"
  else Err (lxc_error "Unsupported LXC status").
Definition lxc_disk (c : DiscoveredContainer) : Z := (foldr Z.add 0 (vdisk_size_bytes <$> ct_disks c) / MIB)%Z.

(** [_desired_fields]. *)
Definition lxc_fields (r : option nb_record) : pydict := default [] (r ≫= custom_fields).
Definition lxc_desired (c : DiscoveredContainer) (cluster : Z) (existing : option nb_record) : result exn pydict :=
  fields ← build_lxc_custom_fields c (Some (lxc_fields existing));
  status ← lxc_status (ct_status c);
  Ok [("name", PStr (ct_original_name c)); ("cluster", PInt cluster); ("status", PStr status); ("vcpus", PInt (ct_vcpus c));
      ("memory", PInt (ct_memory_bytes c / MIB)); ("disk", PInt (lxc_disk c)); ("start_on_boot", PStr (if ct_autostart c then "on" else "off"));
      ("custom_fields", PDict fields)].

Definition MANAGED_LXC_CUSTOM_FIELDS : list string := ["sync_identities"; "sync_original_names"; "guest_kind"; "guest_architecture"; "guest_os_type"; "swap_mb"].
(** [_changes]. *)
Definition lxc_changes (existing : nb_record) (desired : pydict) : pydict :=
  let data := rec_data existing in
  let cluster := match dget "cluster" data with PDict d => dget "id" d | v => v end in
  let wanted := match dget "custom_fields" desired with PDict d => d | _ => [] end in
  (((λ k, (k, dget k desired)) <$> filter (λ k, py_eqb (dget k data) (dget k desired) = false) ["name"; "status"; "vcpus"; "memory"; "disk"; "start_on_boot"]) ++
   (if py_eqb cluster (dget "cluster" desired) then [] else [("cluster", dget "cluster" desired)]) ++
   (if forallb (λ k, py_eqb (dget k (lxc_fields (Some existing))) (dget k wanted)) MANAGED_LXC_CUSTOM_FIELDS then [] else [("custom_fields", PDict wanted)]))%list.

Record lxc_context := mkLxcContext { lc_container : DiscoveredContainer; lc_existing : option nb_record; lc_desired : pydict; lc_changes : pydict }.

(** One container of [prepare_lxc_contexts]. *)
Definition prepare_lxc (all_vms target_vms : list nb_record) (cluster : Z) (c : DiscoveredContainer) : result exn lxc_context :=
  matches ← find_lxc_sync_identity_matches custom_fields all_vms c;
  existing ← match matches with
             | _ :: _ :: _ => Err (lxc_error "Duplicate NetBox LXC identity")
             | [r] =>
                 if py_eqb (object_id (field "cluster" r)) (PInt cluster) then Ok (Some r)
                 else Err (lxc_error "LXC identity exists outside target cluster")
             | [] =>
                 if existsb (λ r, bool_decide (casefold (py_str (field "name" r)) = casefold (ct_original_name c))) target_vms
                 then Err (lxc_error "LXC adoption candidate exists without sync identity") else Ok None
             end;
  desired ← lxc_desired c cluster existing;
  Ok (mkLxcContext c existing desired (match existing with Some r => lxc_changes r desired | None => [] end)).
Fixpoint prepare_lxc_contexts (all_vms target_vms : list nb_record) (cluster : Z) (seen : list string) (cs : list DiscoveredContainer) : result exn (list lxc_context) :=
  match cs with
  | [] => Ok []
  | c :: cs' =>
      if bool_decide (ct_source_id c ∈ seen) then Err (lxc_error "Duplicate discovered LXC identity")
      else
        context ← prepare_lxc all_vms target_vms cluster c;
        rest ← prepare_lxc_contexts all_vms target_vms cluster (ct_source_id c :: seen) cs';
        Ok (context :: rest)
  end.
Definition hosts_containers (hosts : list DiscoveredHost) : list DiscoveredContainer := hosts ≫= host_containers.

Section Apply.
Context {W : Type} `{!NetBoxApi W}.

(** [prepare_lxc_apply_inventory]: the cluster and the machines, all and its own. *)
Definition prepare_lxc_apply_inventory (target : NetBoxTargetConfig) : M W exn (nb_record * list nb_record * list nb_record) :=
  found ← nb_get SITES [("slug", PStr (site_slug target))];
  site ← require found (lxc_error "Target site not found");
  q ← lift (cluster_filter target);
  clusters ← nb_filter CLUSTERS q;
  cluster ← match filter (site_cluster site) clusters with [c] => mret c | _ => raise (lxc_error "Expected exactly one target cluster") end;
  all_vms ← nb_all VMS;
  mret (cluster, all_vms, filter (in_cluster (rec_id cluster)) all_vms).

Definition write_lxc (c : lxc_context) : M W exn unit :=
  match lc_existing c, lc_changes c with
  | None, _ => nb_create VMS (lc_desired c);; mret tt
  | Some r, [] => mret tt
  | Some r, changes => nb_update VMS (rec_id r) changes
  end.
Definition write_lxc_containers (contexts : list lxc_context) : M W exn unit := forM contexts write_lxc.

Definition apply_lxc_containers (hosts : list DiscoveredHost) (target : NetBoxTargetConfig) (confirmed : bool) : M W exn unit :=
  '(cluster, all_vms, target_vms) ← prepare_lxc_apply_inventory target;
  contexts ← lift (prepare_lxc_contexts all_vms target_vms (rec_id cluster) [] (hosts_containers hosts));
  if confirmed then write_lxc_containers contexts else mret tt.
End Apply.

(** ** What a run can do *)

Section ReadFrames.
Context {W : Type} `{!NetBoxApi W} (R : relation W) `{!ReadsMove R}.
Lemma lxc_inventory_moves target w : moves R (prepare_lxc_apply_inventory target) w.
Proof. unfold prepare_lxc_apply_inventory. frame. Qed.
#[local] Hint Resolve lxc_inventory_moves : moves.
End ReadFrames.
#[export] Hint Resolve lxc_inventory_moves : moves.
