(* ===== verification/GuestNetwork.v ===== *)
(** * Interfaces, MAC addresses and IP addresses of guests (netbox_vm_network_apply.py,
      vm_network_inventory.py, vm_network_preflight.py, vm_network_writes.py, their LXC
      counterparts, interface_display.py and network_inventory_index.py)

    The executors that bring the interfaces of virtual machines and of containers to
    NetBox. Both read everything, plan every guest and refuse the whole batch when one
    address belongs to something else or is claimed twice, and only then write. They
    differ in how they find the guest and in what they do with a primary address, and
    share the rest word for word. The printed reports decide nothing and are not
    modelled. An executor keeps the records it read; what it learns of them while it
    writes is its [view]. *)

From S2P Require Import Prelude PyValue NetBox NetBoxFrame Discovery SourceIdentity Metadata SourceConfig VmApply PyIp InventoryConflicts NetworkScopes HostMapping Disappearance.
From stdpp Require Import base list strings gmap pretty.
From Stdlib Require Import ZArith Lia.
Local Open Scope string_scope.
#[local] Arguments py_eqb _ _ : simpl never.

Inductive network_kind := VmNetwork | LxcNetwork.
Definition network_error (k : network_kind) (msg : string) : exn :=
  OtherException (match k with VmNetwork => "VMNetworkApplyError" | LxcNetwork => "LXCNetworkApplyError" end) (Some msg).
(** [ManagedMACConflict], with its address. *)
Definition mac_conflict (k : network_kind) (duplicate : bool) (mac : string) : exn :=
  match k with
  | VmNetwork => OtherException (if duplicate then "ManagedMACConflict:duplicate" else "ManagedMACConflict") (Some mac)
  | LxcNetwork => network_error k (if duplicate then "Duplicate NetBox MAC " +:+ mac else "MAC " +:+ mac +:+ " already assigned")
  end.

Definition guest_name (g : Guest) : string := match g with GuestVM v => vm_original_name v | GuestCT c => ct_original_name c end.

Section Network.
Context (sha256 : string → string) (mapped_as_ipv4 : bool).

(** ** Names *)

Definition base_name (n : DiscoveredInterface) : string := or_text (nic_bridge n) (nic_name n).
(** [interface_display_name]. *)
Definition interface_display_name (g : Guest) (n : DiscoveredInterface) : string :=
  let base := base_name n in
  let peers := filter (λ m, casefold (base_name m) = casefold base) (guest_interfaces g) in
  if Nat.ltb 1 (length peers) || Nat.ltb 64 (String.length base) then
    let key := or_text (nic_external_id n) (nic_name n) in
    let suffix := " / " +:+ (if Nat.leb (String.length key) 16 then key else take_chars 10 (sha256 key)) in
    take_chars (64 - String.length suffix) base +:+ suffix
  else base.
Definition record_name (r : nb_record) : string := py_str (field "name" r).

(** [_interface_match] and [_find_interface]. *)
Definition interface_match (k : network_kind) (existing : list nb_record) (g : Guest) (n : DiscoveredInterface) : result exn (option nb_record) :=
  matches ← find_nic_sync_identity_matches custom_fields existing g n;
  match matches with
  | _ :: _ :: _ => Err (network_error k "Duplicate NIC identity")
  | [r] => Ok (Some r)
  | [] =>
      if existsb (λ r, bool_decide (casefold (record_name r) ∈ [casefold (nic_name n); casefold (interface_display_name g n)])) existing
      then Err (network_error k "NIC adoption candidate exists without sync identity") else Ok None
  end.
(** [validate_interface_names]. *)
Fixpoint validate_names (k : network_kind) (g : Guest) (existing : list nb_record) (names : list string) (nics : list DiscoveredInterface) : result exn unit :=
  match nics with
  | [] => Ok tt
  | n :: nics' =>
      let name := casefold (interface_display_name g n) in
      if bool_decide (name ∈ names) then Err (network_error k "Duplicate desired interface name")
      else
        owned ← interface_match k existing g n;
        if existsb (λ r, bool_decide (casefold (record_name r) = name) && negb (bool_decide (Some (rec_id r) = rec_id <$> owned))) existing
        then Err (network_error k "Interface name occupied; no interfaces were renamed or adopted")
        else validate_names k g existing (name :: names) nics'
  end.

(** ** Inventory *)

Definition scope_key_of (address : string) (vrf : pyval) : string :=
  match vrf with PNone => address | _ => "vrf:" +:+ py_str vrf +:+ ":" +:+ address end.
(** The key of a stored address: the VM code hands the value to [ip_interface], the
    LXC code its text. *)
Definition stored_ip_key (k : network_kind) (r : nb_record) : option string :=
  let v := field "address" r in
  if truthy v then
    match py_ip_interface (match k with VmNetwork => v | LxcNetwork => PStr (py_str v) end) with
    | Ok a => Some (scope_key_of (interface_text a) (exact_id (field "vrf" r)))
    | Err _ => None
    end
  else None.
Record network_inventory := mkNetInventory { ni_vms : list nb_record; ni_interfaces : list nb_record; ni_macs : list nb_record; ni_ips : list nb_record }.
Definition interfaces_of_vm (inv : network_inventory) (vm : nb_record) : list nb_record := interfaces_of (ni_interfaces inv) vm.
Definition macs_for (inv : network_inventory) (mac : string) : list nb_record := filter (λ r, mac_of (field "mac_address" r) = mac) (ni_macs inv).
Definition ips_for (k : network_kind) (inv : network_inventory) (key : string) : list nb_record := filter (λ r, stored_ip_key k r = Some key) (ni_ips inv).

(** ** Checks *)

Definition managed_nic_fields : list string := ["sync_identities"; "sync_original_names"; "source_bridge"; "source_vlan_id"; "sync_network_observations"].
Definition nic_fields (r : option nb_record) : pydict := default [] (r ≫= custom_fields).
(** [_desired_interface_changes] and [_interface_changes]. *)
Definition interface_changes (g : Guest) (n : DiscoveredInterface) (r : nb_record) (desired : pydict) : pydict :=
  let name := interface_display_name g n in
  ((if py_eqb (field "name" r) (PStr name) then [] else [("name", PStr name)]) ++
   (if is_True (field "enabled" r) then [] else [("enabled", PBool true)]) ++
   (if forallb (λ f, py_eqb (dget f (nic_fields (Some r))) (dget f desired)) managed_nic_fields then [] else [("custom_fields", PDict desired)]))%list.

(** The record is free or already the interface's. *)
Definition unassigned (r : nb_record) : bool :=
  bool_decide (field "assigned_object_type" r = PNone) && bool_decide (field "assigned_object_id" r = PNone).
Definition assignable (existing : option nb_record) (r : nb_record) : bool := unassigned r || assigned_here (rec_id <$> existing) (rec_data r).

Definition primary_mac_id (r : nb_record) : pyval := object_id (field "primary_mac_address" r).
Definition primary_ip_id (r : nb_record) : pyval := object_id (field "primary_ip4" r).

(** [_check_vm_mac] and [_check_lxc_mac]: the text of the MAC address, empty when
    there is none, and its record. *)
Definition check_mac (k : network_kind) (inv : network_inventory) (existing : option nb_record) (n : DiscoveredInterface) : result exn (string * option nb_record) :=
  let mac := mac_text (nic_mac_address n) in
  if bool_decide (mac = "") then Ok (mac, None)
  else
    found ← match macs_for inv mac with
            | [] => Ok None
            | [r] => if assignable existing r then Ok (Some r) else Err (mac_conflict k false mac)
            | _ => Err (mac_conflict k true mac)
            end;
    match k, existing with
    | LxcNetwork, Some r =>
        if negb (bool_decide (primary_mac_id r = PNone)) && negb (match found with Some m => py_eqb (primary_mac_id r) (PInt (rec_id m)) | None => false end)
        then Err (network_error k "Primary MAC conflict") else Ok (mac, found)
    | _, _ => Ok (mac, found)
    end.

(** [_usable_address]. *)
Definition usable_address (raw : string) : option ip_interface_t :=
  match ip_interface raw with Some a => if special mapped_as_ipv4 a then None else Some a | None => None end.
Record ip_context := mkIpContext { ic_key : string; ic_vrf : option Z; ic_address : string; ic_v4 : bool; ic_existing : option nb_record }.
(** One address of [_check_vm_ips]. *)
Definition check_ip (k : network_kind) (inv : network_inventory) (existing : option nb_record) (n : DiscoveredInterface) (a : ip_interface_t) : result exn ip_context :=
  let address := interface_text a in
  let key := scope_key address (nic_ip_vrf_id n) in
  found ← match ips_for k inv key with
          | [] => Ok None
          | [r] => if assignable existing r then Ok (Some r) else Err (network_error k ("IP " +:+ address +:+ " already assigned"))
          | _ => Err (network_error k ("Duplicate NetBox IP " +:+ address))
          end;
  Ok (mkIpContext key (nic_ip_vrf_id n) address (negb (ip_v6 a)) found).

Record nic_context := mkNicContext {
  nc_source : DiscoveredInterface; nc_existing : option nb_record; nc_changes : pydict; nc_desired : pydict;
  nc_mac : string; nc_existing_mac : option nb_record; nc_ips : list ip_context }.
Definition prepare_nic (k : network_kind) (inv : network_inventory) (g : Guest) (existing : list nb_record) (n : DiscoveredInterface) : result exn nic_context :=
  owned ← interface_match k existing g n;
  desired ← build_nic_custom_fields g n (Some (nic_fields owned));
  '(mac, mac_record) ← check_mac k inv owned n;
  ips ← mapR (check_ip k inv owned n) (omap usable_address (nic_ip_addresses n));
  Ok (mkNicContext n owned (match owned with Some r => interface_changes g n r desired | None => [] end) desired mac mac_record ips).

(** ** Primary addresses *)

Inductive primary_action := PrimarySet | PrimaryMatch | PreserveManual.
(** The only IPv4 address of a guest. *)
Definition sole_ipv4 (nics : list nic_context) : option string :=
  match remove_dups (ic_key <$> filter (λ c, ic_v4 c = true) (nics ≫= nc_ips)) with [key] => Some key | _ => None end.
Definition primary_owned (r : nb_record) : bool := bool_decide ("primary_ip4_id" ∈ owned_fields (field "custom_fields" r)).

(** [_primary_ip_belongs_to_vm]. *)
Definition belongs_to (inv : network_inventory) (vm : nb_record) (ip : nb_record) : bool :=
  py_eqb (field "assigned_object_type" ip) VM_INTERFACE &&
  match list_find (λ i, py_eqb (PInt (rec_id i)) (object_id (field "assigned_object_id" ip)) = true) (ni_interfaces inv) with
  | Some (_, i) => py_eqb (object_id (field "virtual_machine" i)) (PInt (rec_id vm))
  | None => false
  end.
(** [_prepare_vm_primary]. *)
Definition vm_primary (inv : network_inventory) (vm : nb_record) (nics : list nic_context) : result exn (option (string * primary_action)) :=
  if primary_owned vm then Ok None
  else match sole_ipv4 nics with
       | None => Ok None
       | Some candidate =>
           let current := primary_ip_id vm in
           if bool_decide (current = PNone) then Ok (Some (candidate, PrimarySet))
           else if match ips_for VmNetwork inv candidate with [r] => py_eqb current (PInt (rec_id r)) | _ => false end then Ok (Some (candidate, PrimaryMatch))
           else match list_find (λ r, py_eqb (PInt (rec_id r)) current = true) (ni_ips inv) with
                | Some (_, r) => if belongs_to inv vm r then Ok (Some (candidate, PreserveManual)) else Err (network_error VmNetwork "Existing primary IPv4 conflicts")
                | None => Err (network_error VmNetwork "Existing primary IPv4 conflicts")
                end
       end.
Definition lxc_primary (vm : nb_record) (nics : list nic_context) : option (string * primary_action) :=
  if primary_owned vm then None else (λ key, (key, PrimarySet)) <$> sole_ipv4 nics.

(** ** Planning *)

Record guest_context := mkGuestContext { gc_guest : Guest; gc_vm : nb_record; gc_nics : list nic_context; gc_primary : option (string * primary_action) }.

(** [_find_vm]; [_find_lxc_vm] with the check of the cluster. *)
Definition find_record (k : network_kind) (inv : network_inventory) (cluster : Z) (g : Guest) : result exn nb_record :=
  matches ← match g with
            | GuestVM v => find_vm_sync_identity_matches custom_fields (ni_vms inv) v
            | GuestCT c => find_lxc_sync_identity_matches custom_fields (ni_vms inv) c
            end;
  match matches with
  | [r] =>
      match k with
      | VmNetwork => Ok r
      | LxcNetwork => if py_eqb (object_id (field "cluster" r)) (PInt cluster) then Ok r else Err (network_error k "LXC is outside target cluster")
      end
  | _ => Err (network_error k "Expected exactly one NetBox object")
  end.
(** [_prepare_vm_network_context] and [_prepare_lxc_network_context]. *)
Definition prepare_guest (k : network_kind) (inv : network_inventory) (cluster : Z) (g : Guest) : result exn guest_context :=
  vm ← find_record k inv cluster g;
  let existing := interfaces_of_vm inv vm in
  validate_names k g existing [] (guest_interfaces g);;
  nics ← mapR (prepare_nic k inv g existing) (guest_interfaces g);
  primary ← match k with VmNetwork => vm_primary inv vm nics | LxcNetwork => Ok (lxc_primary vm nics) end;
  Ok (mkGuestContext g vm nics primary).

Definition batch_macs (contexts : list guest_context) : list string := filter (λ m, m ≠ "") (c ← contexts; nc_mac <$> gc_nics c).
Definition batch_ips (contexts : list guest_context) : list string := c ← contexts; n ← gc_nics c; ic_key <$> nc_ips n.
(** [prepare_vm_network_contexts]: what the batch claims twice is refused. *)
Definition prepare_contexts (k : network_kind) (inv : network_inventory) (cluster : Z) (guests : list Guest) : result exn (list guest_context) :=
  contexts ← mapR (prepare_guest k inv cluster) guests;
  if negb (bool_decide (NoDup (batch_macs contexts))) then Err (network_error k "Duplicate discovered MACs")
  else if negb (bool_decide (NoDup (batch_ips contexts))) then Err (network_error k "Duplicate discovered IPs")
  else Ok contexts.

(** ** Writing *)

Context {W : Type} `{!NetBoxApi W}.

(** What the executor set on the records it holds: an endpoint, an id and the value. *)
Abbreviation view := (list (string * Z * pyval)).
Definition viewed (v : view) (e : string) (i : Z) (stored : pyval) : pyval :=
  match list_find (λ x, x.1 = (e, i)) v with Some (_, x) => x.2 | None => stored end.

Definition assignment (interface : Z) : pydict := [("assigned_object_type", VM_INTERFACE); ("assigned_object_id", PInt interface)].
(** [_write_interface]. *)
Definition write_interface (g : Guest) (vm : nb_record) (c : nic_context) : M W exn nb_record :=
  match nc_existing c with
  | None => nb_create INTERFACES [("virtual_machine", PInt (rec_id vm)); ("name", PStr (interface_display_name g (nc_source c))); ("enabled", PBool true);
                                  ("custom_fields", PDict (nc_desired c))]
  | Some r => match nc_changes c with [] => mret r | changes => nb_update INTERFACES (rec_id r) changes;; mret r end
  end.
(** [_write_mac]. *)
Definition write_mac (c : nic_context) (interface : nb_record) (v : view) : M W exn view :=
  if bool_decide (nc_mac c = "") then mret v
  else
    mac ← match nc_existing_mac c with
          | None => r ← nb_create MAC_ADDRESSES (("mac_address", PStr (nc_mac c)) :: assignment (rec_id interface)); mret (rec_id r)
          | Some r => (if unassigned r then nb_update MAC_ADDRESSES (rec_id r) (assignment (rec_id interface)) else mret tt);; mret (rec_id r)
          end;
    if py_eqb (viewed v INTERFACES (rec_id interface) (primary_mac_id interface)) (PInt mac) then mret v
    else nb_update INTERFACES (rec_id interface) [("primary_mac_address", PInt mac)];; mret ((INTERFACES, rec_id interface, PInt mac) :: v).
(** [_write_ip]: the address' record. *)
Definition write_ip (interface : nb_record) (c : ip_context) : M W exn (string * Z) :=
  match ic_existing c with
  | None =>
      r ← nb_create IP_ADDRESSES ((("address", PStr (ic_address c)) :: match ic_vrf c with Some vrf => [("vrf", PInt vrf)] | None => [] end) ++
                                  ("status", PStr "active") :: assignment (rec_id interface))%list;
      mret (ic_key c, rec_id r)
  | Some r => (if unassigned r then nb_update IP_ADDRESSES (rec_id r) (assignment (rec_id interface)) else mret tt);; mret (ic_key c, rec_id r)
  end.
Fixpoint write_ips (interface : nb_record) (cs : list ip_context) : M W exn (list (string * Z)) :=
  match cs with [] => mret [] | c :: cs' => x ← write_ip interface c; xs ← write_ips interface cs'; mret (x :: xs) end.
Fixpoint write_nics (g : Guest) (vm : nb_record) (cs : list nic_context) (v : view) : M W exn (list (string * Z) * view) :=
  match cs with
  | [] => mret ([], v)
  | c :: cs' =>
      interface ← write_interface g vm c;
      v ← write_mac c interface v;
      ips ← write_ips interface (nc_ips c);
      '(rest, v) ← write_nics g vm cs' v;
      mret ((ips ++ rest)%list, v)
  end.
(** [_write_primary]: of two records of one key the later one counts. *)
Definition applied_ip (key : string) (ips : list (string * Z)) : option Z := snd <$> last (filter (λ x, x.1 = key) ips).
Definition write_primary (c : guest_context) (ips : list (string * Z)) (v : view) : M W exn view :=
  match gc_primary c with
  | Some (candidate, action) =>
      match applied_ip candidate ips, primary_owned (gc_vm c), action with
      | Some ip, false, (PrimarySet | PrimaryMatch) =>
          if py_eqb (viewed v VMS (rec_id (gc_vm c)) (primary_ip_id (gc_vm c))) (PInt ip) then mret v
          else nb_update VMS (rec_id (gc_vm c)) [("primary_ip4", PInt ip)];; mret ((VMS, rec_id (gc_vm c), PInt ip) :: v)
      | _, _, _ => mret v
      end
  | None => mret v
  end.
(** [write_vm_networks] and [write_lxc_networks]. *)
Fixpoint write_networks (contexts : list guest_context) (v : view) : M W exn unit :=
  match contexts with
  | [] => mret tt
  | c :: contexts' =>
      '(ips, v) ← write_nics (gc_guest c) (gc_vm c) (gc_nics c) v;
      v ← write_primary c ips v;
      write_networks contexts' v
  end.

(** ** The executors *)

Definition target_cluster (k : network_kind) (target : NetBoxTargetConfig) : M W exn nb_record :=
  found ← nb_get SITES [("slug", PStr (site_slug target))];
  site ← require found (network_error k "Target site not found");
  q ← lift (cluster_filter target);
  clusters ← nb_filter CLUSTERS q;
  match filter (site_cluster site) clusters with [c] => mret c | _ => raise (network_error k "Expected exactly one target cluster") end.
(** [prepare_vm_network_inventory] and [prepare_lxc_network_inventory]. *)
Definition read_inventory (k : network_kind) (cluster : nb_record) : M W exn network_inventory :=
  vms ← match k with VmNetwork => nb_filter VMS [("cluster_id", PInt (rec_id cluster))] | LxcNetwork => nb_all VMS end;
  interfaces ← nb_all INTERFACES;
  macs ← nb_all MAC_ADDRESSES;
  ips ← nb_all IP_ADDRESSES;
  mret (mkNetInventory vms interfaces macs ips).

Definition plan_networks (k : network_kind) (guests : list Guest) (target : NetBoxTargetConfig) : M W exn (list guest_context) :=
  cluster ← target_cluster k target;
  inv ← read_inventory k cluster;
  lift (prepare_contexts k inv (rec_id cluster) guests).
Definition network_guests (k : network_kind) (hosts : list DiscoveredHost) : list Guest :=
  match k with VmNetwork => GuestVM <$> (hosts ≫= host_virtual_machines) | LxcNetwork => GuestCT <$> (hosts ≫= host_containers) end.
Definition apply_networks (k : network_kind) (hosts : list DiscoveredHost) (target : NetBoxTargetConfig) (confirmed : bool) : M W exn unit :=
  contexts ← plan_networks k (network_guests k hosts) target;
  if confirmed then write_networks contexts [] else mret tt.
Definition apply_vm_networks : list DiscoveredHost → NetBoxTargetConfig → bool → M W exn unit := apply_networks VmNetwork.
Definition apply_lxc_networks : list DiscoveredHost → NetBoxTargetConfig → bool → M W exn unit := apply_networks LxcNetwork.
End Network.

(** ** What a run can do *)

Section ReadFrames.
Context {W : Type} `{!NetBoxApi W} (R : relation W) `{!ReadsMove R}.
Lemma plan_networks_moves sha mapped k guests target w : moves R (plan_networks sha mapped k guests target) w.
Proof. unfold plan_networks, target_cluster, read_inventory. frame. Qed.
#[local] Hint Resolve plan_networks_moves : moves.
End ReadFrames.
#[export] Hint Resolve plan_networks_moves : moves.
Section WriteFrames.
Context {W : Type} `{!NetBoxApi W} (R : relation W) `{!OpsMove R}.
Lemma write_ips_moves interface cs : ∀ w, moves R (write_ips interface cs) w.
Proof. induction cs as [|c cs IH]; intros w; cbn [write_ips]; unfold write_ip; frame. Qed.
#[local] Hint Resolve write_ips_moves : moves.
Lemma write_nics_moves sha g vm cs : ∀ v w, moves R (write_nics sha g vm cs v) w.
Proof. induction cs as [|c cs IH]; intros v w; cbn [write_nics]; unfold write_interface, write_mac; frame. Qed.
#[local] Hint Resolve write_nics_moves : moves.
Lemma write_networks_moves sha cs : ∀ v w, moves R (write_networks sha cs v) w.
Proof. induction cs as [|c cs IH]; intros v w; cbn [write_networks]; unfold write_primary; frame. Qed.
#[local] Hint Resolve write_networks_moves : moves.
End WriteFrames.
#[export] Hint Resolve write_ips_moves write_nics_moves write_networks_moves : moves.

(** ** What a run may change *)

(** A free address is assigned and stays what it is otherwise; one that belongs to
    something stays as it is. *)
Definition only_assigned (owner : pyval) (i : Z) (d d' : pydict) : Prop :=
  d' = d ∨ unassigned (mkRec i d) = true ∧ ∃ x, reads_as d' (dupdate d [("assigned_object_type", owner); ("assigned_object_id", PInt x)]).
Definition same_but (keys : list string) (d d' : pydict) : Prop := ∀ key, key ≠ "id" → key ∉ keys → dget key d' = dget key d.

Lemma dget_dupdate_ne k d e : k ∉ dkeys e → dget k (dupdate d e) = dget k d.
Proof. intros H. unfold dget. by rewrite dlookup_dupdate_ne. Qed.
Lemma updated_same_but keys changes d d1 d2 : dkeys changes ⊆ keys → same_but keys d d1 → updated changes d1 d2 → same_but keys d d2.
Proof. intros Hk H Hu key Hid Hkey. rewrite (Hu key Hid), dget_dupdate_ne; [by apply H|]. intros Hin. by apply Hkey, Hk. Qed.
Lemma assigned_again owner x i d d1 d2 :
  unassigned (mkRec i d) = true → only_assigned owner i d d1 →
  updated [("assigned_object_type", owner); ("assigned_object_id", PInt x)] d1 d2 → only_assigned owner i d d2.
Proof.
  intros Hfree H Hu. right. split; [done|]. exists x. destruct H as [->|(_ & y & Hy)]; [done|].
  intros key Hid. rewrite (Hu key Hid). unfold dupdate. cbn [foldl fst snd].
  destruct (decide (key = "assigned_object_id")) as [->|H1]; [by rewrite !dget_dset_eq|]. rewrite !(dget_dset_ne "assigned_object_id") by done.
  destruct (decide (key = "assigned_object_type")) as [->|H2]; [by rewrite !dget_dset_eq|]. rewrite !(dget_dset_ne "assigned_object_type") by done.
  rewrite (Hy key Hid). unfold dupdate. cbn [foldl fst snd]. by rewrite !dget_dset_ne.
Qed.

Section Ownership.
Context (sha256 : string → string) (mapped_as_ipv4 : bool) (k : network_kind) (cluster : Z) (inv : network_inventory) (guests : list Guest).

(** The record is the guest's, or the interface's, by its identities. *)
Definition sole_record (g : Guest) (vm : nb_record) : Prop :=
  match g with
  | GuestVM v => find_vm_sync_identity_matches custom_fields (ni_vms inv) v = Ok [vm]
  | GuestCT c => find_lxc_sync_identity_matches custom_fields (ni_vms inv) c = Ok [vm]
  end.
Definition guest_record (i : Z) (d : pydict) : Prop := ∃ g, g ∈ guests ∧ sole_record g (mkRec i d).
Definition nic_record (i : Z) (d : pydict) : Prop :=
  ∃ g n vm, g ∈ guests ∧ n ∈ guest_interfaces g ∧ sole_record g vm ∧
    find_nic_sync_identity_matches custom_fields (interfaces_of_vm inv vm) g n = Ok [mkRec i d].
Definition network_may (e : string) (i : Z) (d d' : pydict) : Prop :=
  if bool_decide (e ∈ [IP_ADDRESSES; MAC_ADDRESSES]) then only_assigned VM_INTERFACE i d d'
  else if bool_decide (e = VMS) then d' = d ∨ guest_record i d ∧ same_but ["primary_ip4"] d d'
  else if bool_decide (e = INTERFACES) then d' = d ∨ nic_record i d
  else d' = d.
Definition network_creates (e : string) : bool := bool_decide (e ∈ [IP_ADDRESSES; MAC_ADDRESSES; INTERFACES]).
(** What the executor read is what was stored. *)
Definition read_from (t : string → table) : Prop :=
  (∀ r, r ∈ ni_vms inv → r ∈ records (t VMS)) ∧ ni_interfaces inv ≡ₚ records (t INTERFACES) ∧
  ni_macs inv ≡ₚ records (t MAC_ADDRESSES) ∧ ni_ips inv ≡ₚ records (t IP_ADDRESSES).

(** ** What the plan knows of the records *)

Record sound_nic (c : nic_context) : Prop := {
  sound_interface r : nc_existing c = Some r → nic_record (rec_id r) (rec_data r) ∧ r ∈ ni_interfaces inv;
  sound_mac r : nc_existing_mac c = Some r → r ∈ ni_macs inv;
  sound_ip ic r : ic ∈ nc_ips c → ic_existing ic = Some r → r ∈ ni_ips inv }.
Record sound_guest (c : guest_context) : Prop := {
  sound_vm : guest_record (rec_id (gc_vm c)) (rec_data (gc_vm c));
  sound_stored : gc_vm c ∈ ni_vms inv;
  sound_nics : Forall sound_nic (gc_nics c) }.

Lemma record_eta r : mkRec (rec_id r) (rec_data r) = r.
Proof. by destruct r. Qed.
Lemma interface_match_sole existing g n r :
  interface_match sha256 k existing g n = Ok (Some r) → find_nic_sync_identity_matches custom_fields existing g n = Ok [r] ∧ r ∈ existing.
Proof.
  unfold interface_match. intros (matches & Hm & H)%result_bind_Ok. destruct matches as [|x [|]]; [by case_match| |done].
  injection H as ->. split; [done|]. eapply select_best_sound; [exact Hm|left].
Qed.
Lemma find_record_sole g vm : find_record k inv cluster g = Ok vm → sole_record g vm ∧ vm ∈ ni_vms inv.
Proof.
  unfold find_record. intros (ms & Hms & H)%result_bind_Ok. assert (ms = [vm]) as -> by (repeat case_match; by simplify_eq).
  destruct g; (split; [done|]); eapply select_best_sound; first [exact Hms|left].
Qed.
Lemma check_mac_elem existing n mac r : check_mac k inv existing n = Ok (mac, Some r) → r ∈ ni_macs inv.
Proof.
  unfold check_mac. case_bool_decide as Hmac; [done|]. intros (found & Hf & H)%result_bind_Ok.
  assert (found = Some r) as -> by (repeat case_match; simplify_eq; done). clear H.
  assert (r ∈ macs_for inv (mac_text (nic_mac_address n))) as Hr; [|by apply list_elem_of_filter in Hr as [_ ?]].
  destruct (macs_for _ _) as [|x [|]]; [done| |done]. case_match; simplify_eq. left.
Qed.
Lemma check_ip_elem existing n a ic r : check_ip k inv existing n a = Ok ic → ic_existing ic = Some r → r ∈ ni_ips inv.
Proof.
  unfold check_ip. intros (found & Hf & [= <-])%result_bind_Ok [= ->].
  assert (r ∈ ips_for k inv (scope_key (interface_text a) (nic_ip_vrf_id n))) as Hr; [|by apply list_elem_of_filter in Hr as [_ ?]].
  destruct (ips_for _ _ _) as [|x [|]]; [done| |done]. case_match; simplify_eq. left.
Qed.
Lemma interfaces_of_elem (l : list nb_record) vm r : r ∈ interfaces_of l vm → r ∈ l.
Proof. by intros [_ ?]%list_elem_of_filter. Qed.

Lemma prepare_nic_sound vm g n c :
  g ∈ guests → n ∈ guest_interfaces g → sole_record g vm →
  prepare_nic sha256 mapped_as_ipv4 k inv g (interfaces_of_vm inv vm) n = Ok c → sound_nic c.
Proof.
  intros Hg Hn Hv. unfold prepare_nic.
  intros (owned & Ho & (desired & _ & ([mac mac_record] & Hm & (ips & Hi & [= <-])%result_bind_Ok)%result_bind_Ok)%result_bind_Ok)%result_bind_Ok. split; cbn.
  - intros r ->. apply interface_match_sole in Ho as [Ho Hin]. split; [|by eapply interfaces_of_elem]. exists g, n, vm. by rewrite record_eta.
  - intros r ->. by eapply check_mac_elem.
  - intros ic r Hic Hr. apply mapR_Ok in Hi. apply list_elem_of_lookup in Hic as [j Hj].
    destruct (Forall2_lookup_r _ _ _ _ _ Hi Hj) as (a & _ & Ha). by eapply check_ip_elem.
Qed.
Lemma prepare_contexts_sound contexts :
  prepare_contexts sha256 mapped_as_ipv4 k inv cluster guests = Ok contexts → Forall sound_guest contexts.
Proof.
  unfold prepare_contexts. intros (cs & Hc & H)%result_bind_Ok. do 2 (case_bool_decide; [|done]). injection H as <-.
  apply mapR_Ok in Hc. apply Forall_forall. intros c Hin. apply list_elem_of_lookup in Hin as [j Hj].
  destruct (Forall2_lookup_r _ _ _ _ _ Hc Hj) as (g & Hg%list_elem_of_lookup_2 & E). revert E. unfold prepare_guest.
  intros (vm & Hv & (? & _ & (nics & Hn & (primary & _ & [= <-])%result_bind_Ok)%result_bind_Ok)%result_bind_Ok)%result_bind_Ok.
  apply find_record_sole in Hv as [Hs Hin]. split; cbn; [exists g; by rewrite record_eta|done|]. apply mapR_Ok in Hn. apply Forall_forall. intros nc Hnc. apply list_elem_of_lookup in Hnc as [i Hi].
  destruct (Forall2_lookup_r _ _ _ _ _ Hn Hi) as (n & Hni%list_elem_of_lookup_2 & En). by eapply prepare_nic_sound.
Qed.

Context {W : Type} `{!NetBoxApi W} (contents : W → string → table) `{!NetBoxLaws W contents} (t0 : string → table) (Hread : read_from t0).
Abbreviation evolves := (evolved contents network_creates network_may t0).
Abbreviation keeps_policy m := (triple evolves m (λ _ _, True)).

Lemma network_may_refl e i d : network_may e i d d.
Proof. unfold network_may, only_assigned. repeat case_bool_decide; auto. Qed.
Lemma stored_data e r l d : l ≡ₚ records (t0 e) → r ∈ l → t0 e !! rec_id r = Some d → rec_data r = d.
Proof. intros Hl Hr Hd. rewrite Hl in Hr. apply elem_of_records in Hr. congruence. Qed.

(** The interface to write to: a new one or the one the identities name. *)
Definition writable (r : nb_record) : Prop := t0 INTERFACES !! rec_id r = None ∨ r ∈ ni_interfaces inv ∧ nic_record (rec_id r) (rec_data r).
Lemma update_interface_triple r changes : writable r → keeps_policy (nb_update INTERFACES (rec_id r) changes).
Proof.
  intros Hr. apply update_triple; [done|]. intros d d1 d2 Hd _ _. destruct Hr as [Hn|[Hin Hr]]; [congruence|].
  cbn. right. by rewrite (stored_data _ _ _ _ (proj1 (proj2 Hread)) Hin Hd) in Hr.
Qed.
(** A free record of an address or of a MAC address. *)
Lemma assign_triple e l r x :
  e ∈ [IP_ADDRESSES; MAC_ADDRESSES] → l ≡ₚ records (t0 e) → r ∈ l → unassigned r = true → keeps_policy (nb_update e (rec_id r) (assignment x)).
Proof.
  intros He Hl Hr Hfree. apply update_triple; [done|]. intros d d1 d2 Hd. pose proof (stored_data _ _ _ _ Hl Hr Hd) as <-.
  unfold network_may. rewrite bool_decide_eq_true_2 by done. intros Hm Hu. eapply assigned_again; [|done|done]. by rewrite record_eta.
Qed.
#[local] Hint Resolve network_may_refl : core.
Ltac triple_step :=
  lazymatch goal with
  | |- triple _ (_ ≫= _) _ => eapply (triple_then _ _ _ (λ _, True)); [|intros ? _]
  | |- triple _ (mret _) _ => by apply triple_ret
  | |- triple _ (raise _) _ => apply triple_raise
  | |- triple _ (match ?x with _ => _ end) _ => destruct x eqn:?
  end.

Lemma write_interface_triple g vm c : sound_nic c → triple evolves (write_interface sha256 g vm c) (λ r _, writable r).
Proof.
  intros Hc. unfold write_interface. destruct (nc_existing c) as [r|] eqn:Er.
  - destruct (sound_interface c Hc r Er) as [Hn Hin]. assert (writable r) as Hw by (by right).
    destruct (nc_changes c); [by apply triple_ret|]. eapply (triple_then _ _ _ (λ _, True)); [by apply update_interface_triple|]. intros _ _. by apply triple_ret.
  - eapply triple_impl; [by apply create_triple|]. by left.
Qed.
Lemma write_mac_triple c r v : sound_nic c → writable r → keeps_policy (write_mac c r v).
Proof.
  intros Hc Hr. unfold write_mac. repeat triple_step; try by apply update_interface_triple.
  - eapply assign_triple; [set_solver|apply Hread|by eapply sound_mac|done].
  - by eapply triple_any, create_triple.
Qed.
Lemma write_ips_triple r cs : (∀ ic x, ic ∈ cs → ic_existing ic = Some x → x ∈ ni_ips inv) → keeps_policy (write_ips r cs).
Proof.
  induction cs as [|c cs IH]; intros H; cbn [write_ips]; unfold write_ip; repeat triple_step; try (apply IH; intros ic x Hic; apply H; by right).
  - eapply assign_triple; [set_solver|apply Hread|by eapply H; [left|]|done].
  - by eapply triple_any, create_triple.
Qed.
Lemma write_nics_triple g vm cs : Forall sound_nic cs → ∀ v, keeps_policy (write_nics sha256 g vm cs v).
Proof.
  induction 1 as [|c cs Hc _ IH]; intros v; cbn [write_nics]; [by apply triple_ret|].
  eapply triple_then; [by apply write_interface_triple|]. intros r Hr. eapply (triple_then _ _ _ (λ _, True)); [by apply write_mac_triple|]. intros v1 _.
  eapply (triple_then _ _ _ (λ _, True)); [apply write_ips_triple; by intros; eapply sound_ip|]. intros ips _.
  eapply (triple_then _ _ _ (λ _, True)); [apply IH|]. intros [rest v2] _. by apply triple_ret.
Qed.
Lemma set_primary_triple c ip : sound_guest c → keeps_policy (nb_update VMS (rec_id (gc_vm c)) [("primary_ip4", PInt ip)]).
Proof.
  intros Hc. apply update_triple; [done|]. intros d d1 d2 Hd Hm Hu. right.
  assert (rec_data (gc_vm c) = d) as Ed by (pose proof (proj1 Hread _ (sound_stored c Hc)) as Hin; apply elem_of_records in Hin; congruence).
  split; [rewrite <-Ed; by apply sound_vm|]. eapply updated_same_but; [|destruct Hm as [->|[_ Hm]]; [by intros ? _ _|exact Hm]|done]. set_solver.
Qed.
Lemma write_primary_triple c ips v : sound_guest c → keeps_policy (write_primary c ips v).
Proof. intros Hc. unfold write_primary. repeat triple_step; by apply set_primary_triple. Qed.
Lemma write_networks_triple cs : Forall sound_guest cs → ∀ v, keeps_policy (write_networks sha256 cs v).
Proof.
  induction 1 as [|c cs Hc _ IH]; intros v; cbn [write_networks]; [by apply triple_ret|].
  eapply (triple_then _ _ _ (λ _, True)); [by apply write_nics_triple, sound_nics|]. intros [ips v1] _.
  eapply (triple_then _ _ _ (λ _, True)); [by apply write_primary_triple|]. intros v2 _. apply IH.
Qed.
End Ownership.

Section Run.
Context (sha256 : string → string) (mapped_as_ipv4 : bool) {W : Type} `{!NetBoxApi W} (contents : W → string → table) `{!NetBoxLaws W contents}.

Lemma plan_networks_reads k guests target w contexts w1 :
  plan_networks sha256 mapped_as_ipv4 k guests target w = (Ok contexts, w1) → contents w1 = contents w ∧
  ∃ inv cluster, read_from inv (contents w) ∧ prepare_contexts sha256 mapped_as_ipv4 k inv cluster guests = Ok contexts.
Proof.
  intros E. split; [by apply (moves_end (contents_kept contents)) in E; [|apply plan_networks_moves; apply _]|].
  unfold plan_networks, read_inventory in E. apply bind_Ok in E as (cluster & s0 & E0 & E). 
  assert (contents s0 = contents w) as H0.
  { apply (moves_end (contents_kept contents)) in E0; [done|]. unfold target_cluster. frame. }
  inv_m. assert ((∀ r, r ∈ x1 → r ∈ records (contents s0 VMS)) ∧ contents x2 = contents s0) as [Hv H5].
  { destruct k; [apply filter_reads in H as [Hc Hl]|apply all_reads in H as [Hc Hl]]; (split; [|done]); intros r Hr.
    - by rewrite (Hl _ _ eq_refl eq_refl) in Hr; apply list_elem_of_filter in Hr as [_ ?].
    - by rewrite <-(Hl _ eq_refl). }
  apply all_reads in H2 as [H6 Hi]. apply all_reads in H3 as [H7 Hm]. apply all_reads in H4 as [_ Hp].
  eexists _, _. split; [|exact H1]. rewrite <-H0. split_and!; cbn; [done|rewrite <-H5; by apply Hi|rewrite <-H5, <-H6; by apply Hm|rewrite <-H5, <-H6, <-H7; by apply Hp].
Qed.

(** C10: The network executors never take an address away. Whatever happens in a run over
    the machines or over the containers of an inventory: a stored IP or MAC address that
    is assigned stays exactly as it is, and a free one is at most assigned to an interface
    and keeps every other field; a machine changes at most in its primary address, and
    only when it is the only record of a discovered guest; an interface changes only when
    its stored identities are those of a discovered interface of that guest; nothing is
    deleted, only addresses and interfaces are created, and no other table changes. *)
Theorem networks_never_take_an_address k hosts target confirmed w r w' :
  apply_networks sha256 mapped_as_ipv4 k hosts target confirmed w = (r, w') →
  (confirmed = false → contents w' = contents w) ∧
  ∃ inv, (contents w' = contents w ∨ read_from inv (contents w)) ∧
    evolved contents network_creates (network_may inv (network_guests k hosts)) (contents w) w'.
Proof.
  unfold apply_networks. destruct (plan_networks sha256 mapped_as_ipv4 k (network_guests k hosts) target w) as [[contexts|e] w1] eqn:Ep.
  2: { unfold mbind, M_bind. rewrite Ep. intros [= <- <-].
       assert (contents w1 = contents w) as E by (by apply (moves_end (contents_kept contents)) in Ep; [|apply plan_networks_moves; apply _]).
       split; [done|]. exists (mkNetInventory [] [] [] []). split; [by left|]. apply evolved_start; [apply network_may_refl|done]. }
  rewrite (bind_step _ _ _ _ _ Ep). apply plan_networks_reads in Ep as (E1 & inv & cluster & Hr & Hc). intros Hw.
  assert (evolved contents network_creates (network_may inv (network_guests k hosts)) (contents w) w1) as Hev
    by (apply evolved_start; [apply network_may_refl|done]).
  split; [intros ->; by injection Hw as <- <-|]. exists inv. split; [by right|]. destruct confirmed; [|by injection Hw as <- <-].
  apply prepare_contexts_sound in Hc. by destruct (write_networks_triple _ _ _ _ _ Hr _ Hc [] _ _ _ Hev Hw).
Qed.
End Run.

Definition net_vm : DiscoveredVirtualMachine :=
  mkVM "proxmox" "lab" false "proxmox:qemu:pve1:101" "proxmox:pve1" (PInt 101) "web" "web" "running" 2 4294967296 true []
    [mkInterface "net0" (Some "bc:24:11:00:00:01") (Some "vmbr0") None ["10.0.0.21/24"] None None None [] []] None None None None None.
Definition net_host : DiscoveredHost :=
  mkHost "proxmox" "lab" false "proxmox:pve1" "pve1" "pve1" None "Proxmox VE" None (mkCPU None None 1 4 8) 68719476736 None None [] [] [] [net_vm] [] None None None None None.
Definition net_config : NetBoxTargetConfig := mkTarget "dc" "server" "linux" "generic" "proxmox" "main" [].
Definition foreign_address : pydict :=
  [("id", PInt 2); ("address", PStr "10.0.0.99/24"); ("assigned_object_type", PStr "dcim.interface"); ("assigned_object_id", PInt 9)].
Definition net_store : store := mkStore (list_to_map
  [(SITES, {[ 1%Z := [("id", PInt 1); ("slug", PStr "dc")] ]});
   (CLUSTERS, {[ 3%Z := [("id", PInt 3); ("name", PStr "main"); ("scope_type", PStr "dcim.site"); ("scope_id", PInt 1)] ]});
   (VMS, {[ 5%Z := [("id", PInt 5); ("name", PStr "web"); ("cluster", PInt 3);
                     ("custom_fields", PDict [("sync_identities", PList [PDict [("schema", PStr "v2"); ("type", PStr "proxmox"); ("instance", PStr "lab");
                        ("kind", PStr "qemu"); ("external_id", PStr "101")]])])] ]});
   (IP_ADDRESSES, {[ 1%Z := [("id", PInt 1); ("address", PStr "10.0.0.21/24")]; 2%Z := foreign_address ]})]).
Definition net_run : result exn unit * store := apply_networks (λ s, s) true VmNetwork [net_host] net_config true net_store.

Lemma networks_never_take_an_address_witness :
  net_run.1 = Ok tt ∧ dget "assigned_object_type" <$> st_contents net_run.2 IP_ADDRESSES !! 1%Z = Some VM_INTERFACE ∧
  st_contents net_run.2 IP_ADDRESSES !! 2%Z = Some foreign_address.
Proof.
  split_and!; [by vm_compute|by vm_compute|].
  destruct (networks_never_take_an_address (λ s, s) true st_contents VmNetwork [net_host] net_config true net_store _ _ (surjective_pairing _)) as (_ & inv & _ & H).
  destruct (proj1 (H IP_ADDRESSES) 2%Z foreign_address eq_refl) as (d' & Hd' & [->|[Hfree _]]); [exact Hd'|discriminate].
Defined.
