(* ===== verification/HostApply.v ===== *)
(** * Hosts in NetBox (netbox_apply.py, host_apply_targets.py, host_apply_preflight.py,
      host_apply_writes.py and [device_types] of host_mapping.py)

    The executor for the physical hosts of a source: their devices, interfaces and
    addresses. A device is owned through its identities only; a device that merely has
    the host's address or name refuses the batch. Everything is checked before the
    first write, and every address once more immediately before it is written. The
    printed reports decide nothing and are not modelled. [primary_text] is
    [str(device.primary_ip4)], the text pynetbox gives a related address, or [None]. *)

From S2P Require Import Prelude PyValue NetBox NetBoxFrame Discovery SourceIdentity Metadata Calendar SourceConfig VmApply PyIp InventoryConflicts NetworkScopes HostMapping HardwareIdentity Disappearance GuestPlacement GuestNetwork.
From stdpp Require Import base list strings gmap.
From Stdlib Require Import ZArith Lia.
Local Open Scope string_scope.
#[local] Arguments py_eqb _ _ : simpl never.

Definition host_error (msg : string) : exn := OtherException "HostApplyError" (Some msg).
Definition HOST_INTERFACES : string := "dcim.interfaces".
Definition HOST_INTERFACE : pyval := PStr "dcim.interface".

(** [_canonical_address] and [_address_ip]. *)
Definition canonical_address (v : pyval) : result exn string := a ← py_ip_interface (PStr (py_str v)); Ok (interface_text a).
Definition address_ip (text : string) : result exn string := a ← py_ip_interface (PStr text); Ok (ip_text a).

(** [_management_binding]. *)
Definition host_addresses (h : DiscoveredHost) : list (string * string) := i ← host_interfaces h; pair (hif_name i) <$> hif_addresses i.
Fixpoint bindings (ip : option string) (l : list (string * string)) : result exn (list (string * string)) :=
  match l with
  | [] => Ok []
  | (name, address) :: l' =>
      found ← address_ip address;
      here ← (if bool_decide (Some found = ip) then text ← canonical_address (PStr address); Ok [(name, text)] else Ok []);
      rest ← bindings ip l';
      Ok (here ++ rest)%list
  end.
Definition management_binding (h : DiscoveredHost) : result exn (string * string) :=
  found ← bindings (host_management_ip h) (host_addresses h);
  match found with [b] => Ok b | _ => Err (host_error "Expected exactly one management address") end.

(** [_desired_interface_type]. *)
Definition desired_interface_type (i : DiscoveredHostInterface) : string :=
  if bool_decide (hif_interface_type i ∈ [Some "bridge"; Some "vlan"]) then "virtual" else "other".
(** [_interface_changes]. *)
Definition host_interface_changes (r : nb_record) (i : DiscoveredHostInterface) : pydict :=
  let type := PStr (desired_interface_type i) in
  ((if py_eqb (choice_value (field "type" r)) type then [] else [("type", type)]) ++
   (if Bool.eqb (truthy (field "enabled" r)) (hif_autostart i) then [] else [("enabled", PBool (hif_autostart i))]) ++
   match hif_comments i with
   | Some text => if py_eqb (text_or_empty (field "description" r)) (PStr text) then [] else [("description", PStr text)]
   | None => []
   end)%list.

(** [_managed_metadata]. *)
Definition MANAGED_DEVICE_CUSTOM_FIELDS : list string :=
  ["hardware_identity"; "sync_identities"; "sync_original_names"; "hypervisor_version"; "cpu_model"; "cpu_vendor"; "cpu_sockets"; "cpu_cores";
   "cpu_threads"; "memory_mb"; "esxi_host_network"; "proxmox_host_network"].
Definition device_metadata (h : DiscoveredHost) (device : option nb_record) : result exn (pydict * list string) :=
  let existing := default [] (device ≫= custom_fields) in
  desired ← build_device_custom_fields h (Some existing);
  Ok (desired, filter (λ f, py_eqb (dget f existing) (dget f desired) = false) MANAGED_DEVICE_CUSTOM_FIELDS).

Record host_targets := mkTargets { ht_site : nb_record; ht_role : nb_record; ht_platform : nb_record; ht_types : list (string * nb_record); ht_cluster : nb_record }.
Record host_context := mkHostContext {
  hc_host : DiscoveredHost; hc_device : option nb_record; hc_management : option (string * string); hc_addresses : list (string * string);
  hc_desired : pydict; hc_changed : list string }.

(** [_device_changes]. *)
Definition placement (t : host_targets) (type : nb_record) : list (string * Z) :=
  [("site", rec_id (ht_site t)); ("role", rec_id (ht_role t)); ("platform", rec_id (ht_platform t)); ("device_type", rec_id type);
   ("cluster", rec_id (ht_cluster t))].
Definition device_changes (t : host_targets) (type device : nb_record) (desired : pydict) (changed : list string) : pydict :=
  let protected := owned_fields (field "custom_fields" device) in
  let expected := if bool_decide ("site_id" ∈ protected) then filter (λ e, e.1 ≠ "site") (placement t type) else placement t type in
  (((λ e, (e.1, PInt e.2)) <$> filter (λ e, py_eqb (object_id (field e.1 device)) (PInt e.2) = false) expected) ++
   (if bool_decide (changed = []) then [] else [("custom_fields", PDict desired)]))%list.

(** [_reject_unowned_device]: a device that has no text for a name cannot be compared. *)
Definition device_name (r : nb_record) : result exn string :=
  match field "name" r with PStr s => Ok s | _ => Err (OtherException "AttributeError" None) end.

(** An index by name or by id: the later entry counts. *)
Definition last_of {A} (key : string) (l : list (string * A)) : result exn A :=
  match last (filter (λ x, x.1 = key) l) with Some x => Ok x.2 | None => Err (KeyError key) end.

Section HostApply.
Context (fromisoformat : string → result exn datetime) (now : Z) (now_text : string) (primary_text : nb_record → option string).
Context {W : Type} `{!NetBoxApi W}.
Abbreviation host_matches := (find_sync_identity_matches fromisoformat now now_text).

(** ** Targets *)

(** [_required]. *)
Definition required_target (e : string) (q : pydict) : M W exn nb_record :=
  r ← nb_get e q; require r (host_error "NetBox prerequisite not found").
(** [_resolve_cluster]. *)
Definition resolve_host_cluster (site cluster_type : nb_record) (name : string) (mapped : pyval) : M W exn nb_record :=
  found ← nb_filter CLUSTERS (if truthy mapped then [("id", mapped)] else [("name", PStr name)]);
  match filter (λ r, VmApply.in_scope site cluster_type r = true) found with [c] => mret c | _ => raise (host_error "Expected exactly one target cluster") end.

(** [device_types]. *)
Fixpoint reviewed_types (types : pyval) (hosts : list DiscoveredHost) : M W exn (list (string * nb_record)) :=
  match hosts with
  | [] => mret []
  | h :: hosts' =>
      choice ← lift (py_item (host_source_id h) types);
      r ← read_choice "device_type" choice;
      rest ← reviewed_types types hosts';
      mret ((host_source_id h, r) :: rest)
  end.
Definition device_types (target : NetBoxTargetConfig) (hosts : list DiscoveredHost) : M W exn (list (string * nb_record)) :=
  match onboarding_mapping target with
  | [] => r ← required_target "dcim.device_types" [("slug", PStr (device_type_slug target))]; mret ((λ h, (host_source_id h, r)) <$> hosts)
  | mapping =>
      match hosts with
      | [] => mret []
      | _ => types ← lift (py_item "host_types" (PDict mapping)); reviewed_types types hosts
      end
  end.

Definition select_target (target : NetBoxTargetConfig) (e kind slug : string) : M W exn nb_record :=
  q ← lift (selected (onboarding_mapping target) kind slug); required_target e q.
(** [prepare_host_apply_targets]. *)
Definition prepare_host_apply_targets (hosts : list DiscoveredHost) (target : NetBoxTargetConfig) : M W exn host_targets :=
  validate (onboarding_mapping target) hosts;;
  site ← select_target target SITES "site" (site_slug target);
  role ← select_target target "dcim.device_roles" "device_role" (device_role_slug target);
  platform ← select_target target "dcim.platforms" "platform" (platform_slug target);
  types ← device_types target hosts;
  cluster_type ← select_target target "virtualization.cluster_types" "cluster_type" (cluster_type_slug target);
  mapped ← lift (mapped_cluster target);
  cluster ← resolve_host_cluster site cluster_type (cluster_name target) mapped;
  mret (mkTargets site role platform types cluster).

(** ** Checks *)

(** [_management_ip_matches]. *)
Definition management_ip_matches (devices : list nb_record) (h : DiscoveredHost) : list nb_record :=
  match host_management_ip h with
  | Some ip =>
      if bool_decide (ip = "") then []
      else filter (λ r, match primary_text r with Some text => bool_decide (address_ip text = Ok ip) | None => false end = true) devices
  | None => []
  end.
(** [_reject_unowned_device]. *)
Definition reject_unowned_device (devices : list nb_record) (h : DiscoveredHost) : result exn unit :=
  match management_ip_matches devices h with
  | _ :: _ :: _ => Err (host_error "Management IP conflict")
  | [_] => Err (host_error "Device adoption candidate exists without sync identity")
  | [] =>
      names ← mapR device_name devices;
      match filter (λ n, casefold n = casefold (host_normalized_name h)) (names : list string) with
      | _ :: _ :: _ => Err (host_error "Device name conflict")
      | [_] => Err (host_error "Device adoption candidate exists without sync identity")
      | [] => Ok tt
      end
  end.
(** [_resolve_device]. *)
Definition choose_device (devices : list nb_record) (site : nb_record) (h : DiscoveredHost) : result exn (option nb_record) :=
  matched ← host_matches devices h;
  match matched with
  | _ :: _ :: _ => Err (host_error "Duplicate sync identity")
  | [device] =>
      if py_eqb (object_id (field "site" device)) (PInt (rec_id site)) then Ok (Some device) else Err (host_error "Device is outside target site")
  | [] => reject_unowned_device devices h;; Ok None
  end.
Definition resolve_device (site : nb_record) (h : DiscoveredHost) : M W exn (option nb_record) :=
  devices ← nb_all DEVICES; lift (choose_device devices site h).

(** [_load_existing_interfaces]. *)
Definition load_interfaces (device : option nb_record) : M W exn (list nb_record) :=
  match device with
  | None => mret []
  | Some d =>
      rows ← nb_filter HOST_INTERFACES [("device_id", PInt (rec_id d))];
      raise_if (negb (bool_decide (NoDup (field "name" <$> rows)))) (host_error "Duplicate interface");;
      mret rows
  end.
Definition named_interface (rows : list nb_record) (name : string) : option nb_record :=
  snd <$> list_find (λ r, field "name" r = PStr name) rows.

(** [_find_ip_matches]. *)
Fixpoint global_matches (address : string) (rows : list nb_record) : result exn (list nb_record) :=
  match rows with
  | [] => Ok []
  | r :: rows' =>
      text ← canonical_address (field "address" r);
      rest ← global_matches address rows';
      Ok (if bool_decide (text = address) && bool_decide (field "vrf" r = PNone) then r :: rest else rest)
  end.
Definition find_ip_matches (address : string) : M W exn (list nb_record) :=
  canonical ← lift (canonical_address (PStr address));
  rows ← nb_filter IP_ADDRESSES [("address", PStr canonical)];
  lift (global_matches canonical rows).

(** Assigned to the interface. *)
Definition assigned_to (interface : option Z) (r : nb_record) : bool :=
  match interface with
  | Some i => py_eqb (field "assigned_object_type" r) HOST_INTERFACE && py_eqb (field "assigned_object_id" r) (PInt i)
  | None => false
  end.
(** [_checked_host_addresses]. *)
Fixpoint checked_addresses (existing : list nb_record) (l : list (string * string)) : M W exn (list (string * string)) :=
  match l with
  | [] => mret []
  | (name, raw) :: l' =>
      address ← lift (canonical_address (PStr raw));
      found ← find_ip_matches address;
      match found with
      | _ :: _ :: _ => raise (host_error "IP conflict")
      | [ip] => raise_if (negb (unassigned ip || assigned_to (rec_id <$> named_interface existing name) ip)) (host_error "IP is already assigned")
      | [] => mret tt
      end;;
      rest ← checked_addresses existing l';
      mret ((name, address) :: rest)
  end.

(** [prepare_host_context]. *)
Definition prepare_host_context (site : nb_record) (networking : bool) (h : DiscoveredHost) : M W exn host_context :=
  device ← resolve_device site h;
  if networking then
    existing ← load_interfaces device;
    raise_if (negb (bool_decide (NoDup (hif_name <$> host_interfaces h)))) (host_error "Duplicate discovered interface name");;
    management ← lift (management_binding h);
    addresses ← checked_addresses existing (host_addresses h);
    '(desired, changed) ← lift (device_metadata h device);
    mret (mkHostContext h device (Some management) addresses desired changed)
  else
    '(desired, changed) ← lift (device_metadata h device);
    mret (mkHostContext h device None [] desired changed).
Fixpoint prepare_host_contexts (site : nb_record) (networking : bool) (hosts : list DiscoveredHost) : M W exn (list host_context) :=
  match hosts with
  | [] => mret []
  | h :: hosts' => c ← prepare_host_context site networking h; rest ← prepare_host_contexts site networking hosts'; mret (c :: rest)
  end.

(** ** Writing *)

(** [_write_device]: the device's id. *)
Definition write_device (t : host_targets) (c : host_context) : M W exn Z :=
  type ← lift (last_of (host_source_id (hc_host c)) (ht_types t));
  match hc_device c with
  | None =>
      r ← nb_create DEVICES [("name", PStr (host_normalized_name (hc_host c))); ("device_type", PInt (rec_id type)); ("role", PInt (rec_id (ht_role t)));
                             ("site", PInt (rec_id (ht_site t))); ("platform", PInt (rec_id (ht_platform t))); ("cluster", PInt (rec_id (ht_cluster t)));
                             ("status", PStr "active"); ("custom_fields", PDict (hc_desired c))];
      mret (rec_id r)
  | Some device =>
      match device_changes t type device (hc_desired c) (hc_changed c) with
      | [] => mret (rec_id device)
      | changes => nb_update DEVICES (rec_id device) changes;; mret (rec_id device)
      end
  end.

(** [_write_interfaces]: the id of every discovered interface. *)
Definition interface_payload (device : Z) (i : DiscoveredHostInterface) : pydict :=
  ([("device", PInt device); ("name", PStr (hif_name i)); ("type", PStr (desired_interface_type i)); ("enabled", PBool (hif_autostart i))] ++
   match hif_comments i with Some text => [("description", PStr text)] | None => [] end)%list.
Definition write_host_interface (device : Z) (existing : list nb_record) (i : DiscoveredHostInterface) : M W exn Z :=
  match named_interface existing (hif_name i) with
  | None => r ← nb_create HOST_INTERFACES (interface_payload device i); mret (rec_id r)
  | Some r =>
      match host_interface_changes r i with
      | [] => mret (rec_id r)
      | changes => nb_update HOST_INTERFACES (rec_id r) changes;; mret (rec_id r)
      end
  end.
Fixpoint write_host_interfaces (device : Z) (existing : list nb_record) (l : list DiscoveredHostInterface) : M W exn (list (string * Z)) :=
  match l with
  | [] => mret []
  | i :: l' => x ← write_host_interface device existing i; rest ← write_host_interfaces device existing l'; mret ((hif_name i, x) :: rest)
  end.
Definition hif_leb (a b : DiscoveredHostInterface) : bool := String.leb (hif_name a) (hif_name b).
Definition write_interfaces (device : Z) (h : DiscoveredHost) : M W exn (list (string * Z)) :=
  existing ← load_interfaces (Some (mkRec device []));
  write_host_interfaces device existing (isort hif_leb (host_interfaces h)).

(** [_write_addresses]: every address is read again before it is assigned. *)
Definition host_assignment (interface : Z) : pydict := [("assigned_object_type", HOST_INTERFACE); ("assigned_object_id", PInt interface)].
Definition write_address (interfaces : list (string * Z)) (name address : string) : M W exn Z :=
  interface ← lift (last_of name interfaces);
  found ← find_ip_matches address;
  match found with
  | _ :: _ :: _ => raise (host_error "IP conflict appeared during apply")
  | [] => r ← nb_create IP_ADDRESSES (("address", PStr address) :: ("status", PStr "active") :: host_assignment interface); mret (rec_id r)
  | [ip] =>
      if unassigned ip then nb_update IP_ADDRESSES (rec_id ip) (host_assignment interface);; mret (rec_id ip)
      else if assigned_to (Some interface) ip then mret (rec_id ip)
      else raise (host_error "IP assignment changed after preflight")
  end.
Fixpoint write_addresses (interfaces : list (string * Z)) (l : list (string * string)) : M W exn (list (string * Z)) :=
  match l with
  | [] => mret []
  | (name, address) :: l' => x ← write_address interfaces name address; rest ← write_addresses interfaces l'; mret ((address, x) :: rest)
  end.

(** [_write_host]. *)
Definition write_host (t : host_targets) (networking : bool) (c : host_context) : M W exn unit :=
  device ← write_device t c;
  if networking then
    interfaces ← write_interfaces device (hc_host c);
    ips ← write_addresses interfaces (hc_addresses c);
    '(_, address) ← require (hc_management c) (KeyError "None");
    primary ← lift (last_of address ips);
    found ← nb_get DEVICES [("id", PInt device)];
    current ← require found (OtherException "AttributeError" None);
    if negb (py_eqb (object_id (field "primary_ip4" current)) (PInt primary)) && negb (primary_owned current)
    then nb_update DEVICES (rec_id current) [("primary_ip4", PInt primary)] else mret tt
  else mret tt.
Definition write_hosts (t : host_targets) (networking : bool) (contexts : list host_context) : M W exn unit := forM contexts (write_host t networking).

Definition plan_hosts (networking : bool) (hosts : list DiscoveredHost) (target : NetBoxTargetConfig) : M W exn (host_targets * list host_context) :=
  t ← prepare_host_apply_targets hosts target;
  contexts ← prepare_host_contexts (ht_site t) networking hosts;
  mret (t, contexts).
Definition apply_hosts (networking : bool) (hosts : list DiscoveredHost) (target : NetBoxTargetConfig) (confirmed : bool) : M W exn unit :=
  '(t, contexts) ← plan_hosts networking hosts target;
  if confirmed then write_hosts t networking contexts else mret tt.
End HostApply.

(** ** What a run can do *)

Section ReadFrames.
Context {W : Type} `{!NetBoxApi W} (R : relation W) `{!ReadsMove R}.
Lemma required_target_moves e q w : moves R (required_target e q) w.
Proof. unfold required_target. frame. Qed.
#[local] Hint Resolve required_target_moves : moves.
Lemma reviewed_types_moves types hosts : ∀ w, moves R (reviewed_types types hosts) w.
Proof. induction hosts as [|h hosts IH]; intros w; cbn [reviewed_types]; frame. Qed.
#[local] Hint Resolve reviewed_types_moves : moves.
Lemma host_targets_moves hosts target w : moves R (prepare_host_apply_targets hosts target) w.
Proof. unfold prepare_host_apply_targets, select_target, device_types, resolve_host_cluster. frame. Qed.
#[local] Hint Resolve host_targets_moves : moves.
Lemma find_ip_matches_moves address w : moves R (find_ip_matches address) w.
Proof. unfold find_ip_matches. frame. Qed.
#[local] Hint Resolve find_ip_matches_moves : moves.
Lemma checked_addresses_moves existing l : ∀ w, moves R (checked_addresses existing l) w.
Proof. induction l as [|[name raw] l IH]; intros w; cbn [checked_addresses]; frame. Qed.
#[local] Hint Resolve checked_addresses_moves : moves.
Lemma load_interfaces_moves device w : moves R (load_interfaces device) w.
Proof. unfold load_interfaces. frame. Qed.
#[local] Hint Resolve load_interfaces_moves : moves.
Lemma host_contexts_moves iso now text primary site networking hosts : ∀ w, moves R (prepare_host_contexts iso now text primary site networking hosts) w.
Proof.
  induction hosts as [|h hosts IH]; intros w; cbn [prepare_host_contexts]; unfold prepare_host_context, resolve_device; frame.
Qed.
#[local] Hint Resolve host_contexts_moves : moves.
Lemma plan_hosts_moves iso now text primary networking hosts target w : moves R (plan_hosts iso now text primary networking hosts target) w.
Proof. unfold plan_hosts. frame. Qed.
#[local] Hint Resolve plan_hosts_moves : moves.
End ReadFrames.
#[export] Hint Resolve required_target_moves reviewed_types_moves host_targets_moves find_ip_matches_moves checked_addresses_moves load_interfaces_moves host_contexts_moves plan_hosts_moves : moves.
Section WriteFrames.
Context {W : Type} `{!NetBoxApi W} (R : relation W) `{!OpsMove R}.
Lemma write_host_interfaces_moves device existing l : ∀ w, moves R (write_host_interfaces device existing l) w.
Proof. induction l as [|i l IH]; intros w; cbn [write_host_interfaces]; unfold write_host_interface; frame. Qed.
#[local] Hint Resolve write_host_interfaces_moves : moves.
Lemma write_addresses_moves interfaces l : ∀ w, moves R (write_addresses interfaces l) w.
Proof. induction l as [|[name address] l IH]; intros w; cbn [write_addresses]; unfold write_address; frame. Qed.
#[local] Hint Resolve write_addresses_moves : moves.
Lemma write_host_moves t networking c w : moves R (write_host t networking c) w.
Proof. unfold write_host, write_device, write_interfaces. frame. Qed.
#[local] Hint Resolve write_host_moves : moves.
End WriteFrames.
#[export] Hint Resolve write_host_interfaces_moves write_addresses_moves write_host_moves : moves.

(** ** What a run may change *)

Section Ownership.
Context (fromisoformat : string → result exn datetime) (now : Z) (now_text : string) (primary_text : nb_record → option string).
Abbreviation host_matches := (find_sync_identity_matches fromisoformat now now_text).

Lemma matching_candidates_elem wanted l found r : matching_candidates fromisoformat now now_text wanted l = Ok found → r ∈ found → r ∈ l.
Proof.
  revert found. induction l as [|x l IH]; intros found; cbn [matching_candidates]; [by intros [= <-]|].
  intros (b & _ & (rest & Hr & [= <-])%result_bind_Ok)%result_bind_Ok. rewrite elem_of_cons. destruct b; [rewrite elem_of_cons|]; naive_solver.
Qed.
Lemma host_matches_elem devices h ms r : host_matches devices h = Ok ms → r ∈ ms → r ∈ devices.
Proof.
  unfold find_sync_identity_matches. intros (matched & Hm & H)%result_bind_Ok Hr. destruct matched as [|x l].
  - unfold selectel_matches in H. destruct (tokens _ _ _); [injection H as <-; by apply elem_of_nil in Hr|].
    apply result_bind_Ok in H as (found & Hf & H). eapply matching_candidates_elem; [exact Hf|]. by destruct found as [|? [|]]; simplify_eq.
  - injection H as <-. by eapply select_best_sound.
Qed.

Section Policy.
Context (t0 : string → table) (hosts : list DiscoveredHost).

(** The device is the only one with the identity of a discovered host. *)
Definition host_record (i : Z) (d : pydict) : Prop :=
  ∃ devices h, devices ≡ₚ records (t0 DEVICES) ∧ h ∈ hosts ∧ host_matches devices h = Ok [mkRec i d].
Definition host_may (e : string) (i : Z) (d d' : pydict) : Prop :=
  if bool_decide (e = IP_ADDRESSES) then only_assigned HOST_INTERFACE i d d'
  else if bool_decide (e = DEVICES) then d' = d ∨ host_record i d
  else if bool_decide (e = HOST_INTERFACES) then same_but ["type"; "enabled"; "description"] d d'
  else d' = d.
Definition host_creates (e : string) : bool := bool_decide (e ∈ [IP_ADDRESSES; DEVICES; HOST_INTERFACES]).
Lemma host_may_refl e i d : host_may e i d d.
Proof. unfold host_may, only_assigned, same_but. repeat case_bool_decide; auto. Qed.
#[local] Hint Resolve host_may_refl : core.

Context {W : Type} `{!NetBoxApi W} (contents : W → string → table) `{!NetBoxLaws W contents} `{!NetBoxQueries W contents}.
Abbreviation evolves := (evolved contents host_creates host_may t0).
Abbreviation keeps_policy m := (triple evolves m (λ _ _, True)).
(** A device to write to: a new one, or that of a discovered host. *)
Definition device_of (d : Z) : Prop := t0 DEVICES !! d = None ∨ ∃ r, rec_id r = d ∧ host_record d (rec_data r) ∧ r ∈ records (t0 DEVICES).

Lemma update_device_triple d changes : device_of d → keeps_policy (nb_update DEVICES d changes).
Proof.
  intros Hd. apply update_triple; [done|]. intros x d1 d2 Hx _ _. destruct Hd as [Hn|(r & <- & Hr & Hin)]; [congruence|].
  apply elem_of_records in Hin. rewrite Hx in Hin. injection Hin as ->. by right.
Qed.
Lemma write_device_triple t c :
  (∀ r, hc_device c = Some r → host_record (rec_id r) (rec_data r) ∧ r ∈ records (t0 DEVICES)) →
  triple evolves (write_device t c) (λ d _, device_of d).
Proof.
  intros Hc. unfold write_device. eapply (triple_then _ _ _ (λ _, True)); [by apply triple_lift|]. intros type _.
  destruct (hc_device c) as [r|].
  - assert (device_of (rec_id r)) as Hd by (right; exists r; naive_solver).
    destruct (device_changes _ _ _ _ _); [by apply triple_ret|]. eapply (triple_then _ _ _ (λ _, True)); [by apply update_device_triple|]. intros _ _. by apply triple_ret.
  - eapply triple_then; [by apply create_triple|]. intros r Hr. apply triple_ret. by left.
Qed.
Lemma interface_change_keys r i : dkeys (host_interface_changes r i) ⊆ ["type"; "enabled"; "description"].
Proof. unfold host_interface_changes. repeat case_match; cbn; set_solver. Qed.
Lemma write_host_interfaces_triple device existing l : keeps_policy (write_host_interfaces device existing l).
Proof.
  induction l as [|i l IH]; cbn [write_host_interfaces]; [by apply triple_ret|].
  eapply (triple_then _ _ _ (λ _, True)); [|intros x _; eapply (triple_then _ _ _ (λ _, True)); [apply IH|intros ? _; by apply triple_ret]].
  unfold write_host_interface. destruct (named_interface _ _) as [r|].
  - destruct (host_interface_changes r i) as [|ch chs] eqn:Ec; [by apply triple_ret|].
    eapply (triple_then _ _ _ (λ _, True)); [|intros ? _; by apply triple_ret]. apply update_triple; [done|]. intros d d1 d2 _ Hm Hu.
    eapply updated_same_but; [|exact Hm|exact Hu]. rewrite <-Ec. apply interface_change_keys.
  - eapply (triple_then _ _ _ (λ _, True)); [by eapply triple_any, create_triple|]. intros ? _. by apply triple_ret.
Qed.

Lemma global_matches_elem address rows found r : global_matches address rows = Ok found → r ∈ found → r ∈ rows.
Proof.
  revert found. induction rows as [|x l IH]; intros found; cbn [global_matches]; [by intros [= <-]|].
  intros (text & _ & (rest & Hr & [= <-])%result_bind_Ok)%result_bind_Ok. rewrite elem_of_cons. case_match; [rewrite elem_of_cons|]; naive_solver.
Qed.
(** What is found is stored at that moment. *)
Lemma find_ip_matches_triple address :
  triple evolves (find_ip_matches address) (λ found w, ∀ r, r ∈ found → contents w IP_ADDRESSES !! rec_id r = Some (rec_data r)).
Proof.
  intros w res w' Hw E. split; [by eapply (read_triple contents _ _ t0) in E as [? _]; [|apply find_ip_matches_moves; apply _|]|].
  intros found -> r Hr. unfold find_ip_matches in E. inv_m. match goal with H : nb_filter _ _ _ = _ |- _ => pose proof (proj1 (filter_reads _ _ _ _ _ H)) as Hc;
    apply filter_rows in H as Hl end.
  match goal with H : global_matches _ _ = _ |- _ => eapply global_matches_elem in H; [|exact Hr]; rewrite Hl in H; apply rows_stored in H; apply elem_of_records in H; by rewrite Hc end.
Qed.
Lemma write_address_triple interfaces name address : keeps_policy (write_address interfaces name address).
Proof.
  unfold write_address. eapply (triple_then _ _ _ (λ _, True)); [by apply triple_lift|]. intros x _.
  eapply triple_bind; [apply find_ip_matches_triple|]. intros found s Hf Hs. destruct found as [|ip [|]].
  - enough (keeps_policy (r ← nb_create IP_ADDRESSES (("address", PStr address) :: ("status", PStr "active") :: host_assignment x); mret (rec_id r))) as T
      by (intros r s' E; exact (T s r s' Hs E)).
    eapply (triple_then _ _ _ (λ _, True)); [by eapply triple_any, create_triple|]. intros r _. by apply triple_ret.
  - destruct (unassigned ip) eqn:Efree; [|by intros r s'; destruct (assigned_to _ _); intros [= <- <-]].
    specialize (Hf ip ltac:(left)). intros r s'. unfold mbind, M_bind. destruct (nb_update _ _ _ s) as [r1 s1] eqn:Eu.
    cut (evolves s1); [intros H1; by destruct r1; intros [= <- <-]|]. apply update_stores in Eu.
    assert (patched IP_ADDRESSES (host_assignment x) (rec_id ip) (contents s) (contents s1) → evolves s1) as Hp.
    { apply evolved_patched; [|done]. intros d d1 d2 Hd Hd1 Hm Hu. rewrite Hf in Hd1. injection Hd1 as <-.
      eapply assigned_again; [|exact Hm|exact Hu]. destruct Hm as [<-|[? _]]; [exact Efree|done]. }
    destruct r1; [by apply Hp|]. destruct Eu as [Eu|Eu]; [by eapply evolved_same|by apply Hp].
  - by intros r s' [= <- <-].
Qed.
Lemma write_addresses_triple interfaces l : keeps_policy (write_addresses interfaces l).
Proof.
  induction l as [|[name address] l IH]; cbn [write_addresses]; [by apply triple_ret|].
  eapply (triple_then _ _ _ (λ _, True)); [apply write_address_triple|]. intros x _.
  eapply (triple_then _ _ _ (λ _, True)); [apply IH|]. intros ? _. by apply triple_ret.
Qed.
(** The record [get] finds under an id has that id. *)
Lemma get_device_triple d : triple evolves (nb_get DEVICES [("id", PInt d)]) (λ o _, ∀ r, o = Some r → rec_id r = d).
Proof.
  intros w r w' Hw E. pose proof (get_reads _ _ _ _ _ E) as Hc. split; [by eapply evolved_same|]. intros o -> x ->. apply get_rows in E.
  assert (x ∈ nb_rows DEVICES [("id", PInt d)] (contents w DEVICES)) as Hx by (destruct (nb_rows _ _ _) as [|y [|]]; [done|injection E as <-; left|done]).
  by eapply id_rows.
Qed.
Lemma write_host_triple t networking c :
  (∀ r, hc_device c = Some r → host_record (rec_id r) (rec_data r) ∧ r ∈ records (t0 DEVICES)) → keeps_policy (write_host t networking c).
Proof.
  intros Hc. unfold write_host. eapply triple_then; [by apply write_device_triple|]. intros d Hd. destruct networking; [|by apply triple_ret].
  eapply (triple_then _ _ _ (λ _, True)).
  { unfold write_interfaces. eapply (triple_then _ _ _ (λ _, True)); [apply read_triple, load_interfaces_moves; apply _|]. intros existing _.
    apply write_host_interfaces_triple. }
  intros interfaces _. eapply (triple_then _ _ _ (λ _, True)); [apply write_addresses_triple|]. intros ips _.
  eapply (triple_then _ _ _ (λ _, True)); [by apply triple_require|]. intros [? address] _.
  eapply (triple_then _ _ _ (λ _, True)); [by apply triple_lift|]. intros primary _.
  eapply triple_then; [apply get_device_triple|]. intros found Hfound.
  eapply (triple_then _ _ _ (λ r, rec_id r = d)); [apply triple_require; naive_solver|]. intros current Hid.
  case_match; [rewrite Hid; by apply update_device_triple|by apply triple_ret].
Qed.
End Policy.

Section Run.
Context {W : Type} `{!NetBoxApi W} (contents : W → string → table) `{!NetBoxLaws W contents} `{!NetBoxQueries W contents}.

(** Every device a plan chose is that of a discovered host. *)
Definition chosen (t0 : string → table) (hosts : list DiscoveredHost) (c : host_context) : Prop :=
  ∀ r, hc_device c = Some r → host_record t0 hosts (rec_id r) (rec_data r) ∧ r ∈ records (t0 DEVICES).
Lemma resolve_device_chosen hosts site h w r w1 :
  h ∈ hosts → resolve_device fromisoformat now now_text primary_text site h w = (Ok (Some r), w1) →
  host_record (contents w) hosts (rec_id r) (rec_data r) ∧ r ∈ records (contents w DEVICES).
Proof.
  intros Hh H. unfold resolve_device in H. inv_m. match goal with H : nb_all _ _ = _ |- _ => apply all_reads in H as [_ Hl] end. specialize (Hl _ eq_refl).
  match goal with H : choose_device _ _ _ _ _ _ _ = _ |- _ => unfold choose_device in H; apply result_bind_Ok in H as (matched & Hm & H) end.
  destruct matched as [|x' [|]]; [by inv_m| |done]. case_match; [|done]. simplify_eq. split.
  - eexists _, h. split_and!; [exact Hl|done|]. by destruct r.
  - rewrite <-Hl. eapply host_matches_elem; [exact Hm|left].
Qed.
Lemma host_contexts_chosen hosts all site networking w contexts w1 :
  hosts ⊆ all → prepare_host_contexts fromisoformat now now_text primary_text site networking hosts w = (Ok contexts, w1) →
  Forall (chosen (contents w) all) contexts.
Proof.
  revert w contexts. induction hosts as [|h hosts IH]; intros w contexts Hsub; cbn [prepare_host_contexts]; [by intros [= <- <-]|].
  intros (c & s1 & Hc & (rest & s2 & Hr & [= <- <-])%bind_Ok)%bind_Ok. constructor.
  - unfold prepare_host_context in Hc. apply bind_Ok in Hc as (device & s0 & Hd & Hc).
    assert (hc_device c = device) as Ec by (destruct networking; inv_m; repeat case_match; inv_m; done).
    intros r Er. rewrite Ec in Er. rewrite Er in Hd. eapply resolve_device_chosen; [apply Hsub; left|exact Hd].
  - assert (contents s1 = contents w) as E1.
    { apply (moves_end (contents_kept contents)) in Hc; [done|]. unfold prepare_host_context, resolve_device. frame. }
    rewrite <-E1. eapply IH; [|exact Hr]. set_solver.
Qed.

(** C9: The host executor never takes a device or an address over. Whatever happens in a
    run: a stored address that is assigned stays exactly as it is, and a free one is at
    most assigned to an interface, although addresses are looked up again while the run
    writes; a stored device changes only when it is the only one with the identity of a
    discovered host; a stored interface changes at most in its type, state and
    description; nothing is deleted and no other table changes. Without confirmation
    nothing changes at all. *)
Theorem hosts_never_take_over networking hosts target confirmed w r w' :
  apply_hosts fromisoformat now now_text primary_text networking hosts target confirmed w = (r, w') →
  (confirmed = false → contents w' = contents w) ∧ evolved contents host_creates (host_may (contents w) hosts) (contents w) w'.
Proof.
  unfold apply_hosts. destruct (plan_hosts fromisoformat now now_text primary_text networking hosts target w) as [[[t contexts]|e] w1] eqn:Ep.
  all: assert (contents w1 = contents w) as E1 by (by apply (moves_end (contents_kept contents)) in Ep; [|apply plan_hosts_moves; apply _]).
  all: assert (evolved contents host_creates (host_may (contents w) hosts) (contents w) w1) as Hev by (apply evolved_start; [apply host_may_refl|done]).
  2: { unfold mbind, M_bind. rewrite Ep. by intros [= <- <-]. }
  rewrite (bind_step _ _ _ _ _ Ep). intros Hw. split; [intros ->; injection Hw as <- <-; exact E1|].
  destruct confirmed; [|injection Hw as <- <-; exact Hev].
  unfold plan_hosts in Ep. apply bind_Ok in Ep as (t1 & s1 & Ht & (cs & s2 & Hc & [= <- <- <-])%bind_Ok).
  assert (contents s1 = contents w) as E2 by (by apply (moves_end (contents_kept contents)) in Ht; [|apply host_targets_moves; apply _]).
  eapply host_contexts_chosen in Hc; [|reflexivity]. rewrite E2 in Hc. unfold write_hosts in Hw.
  refine (proj1 (triple_forM _ _ _ _ _ _ _ Hev Hw)). intros c Hin. apply write_host_triple; [apply _..|]. by apply (proj1 (Forall_forall _ _) Hc).
Qed.
End Run.
End Ownership.

Definition sample_host : DiscoveredHost :=
  mkHost "proxmox" "lab" false "proxmox:pve1" "pve1" "pve1" (Some "10.0.0.2") "Proxmox VE" (Some "8.2") (mkCPU None None 1 4 8) 68719476736 None None [] []
    [mkHostInterface "vmbr0" (Some "bridge") true true None ["10.0.0.2/24"] None [] None false None None false] [] [] None None None None None.
Definition host_store : store := mkStore (list_to_map
  [(SITES, {[ 1%Z := [("id", PInt 1); ("slug", PStr "dc")] ]});
   ("dcim.device_roles", {[ 1%Z := [("id", PInt 1); ("slug", PStr "server")] ]});
   ("dcim.platforms", {[ 1%Z := [("id", PInt 1); ("slug", PStr "linux")] ]});
   ("dcim.device_types", {[ 1%Z := [("id", PInt 1); ("slug", PStr "generic")] ]});
   ("virtualization.cluster_types", {[ 2%Z := [("id", PInt 2); ("slug", PStr "proxmox")] ]});
   (CLUSTERS, {[ 3%Z := [("id", PInt 3); ("name", PStr "main"); ("type", PInt 2); ("scope_type", PStr "dcim.site"); ("scope_id", PInt 1)] ]});
   (DEVICES, {[ 4%Z := [("id", PInt 4); ("name", PStr "switch")] ]});
   (IP_ADDRESSES, {[ 1%Z := [("id", PInt 1); ("address", PStr "10.0.0.2/24")]; 2%Z := foreign_address ]})]).
Definition host_run : result exn unit * store := apply_hosts no_dates 0 "" (λ _, None) true [sample_host] net_config true host_store.

Lemma hosts_never_take_over_witness :
  host_run.1 = Ok tt ∧ dget "assigned_object_type" <$> st_contents host_run.2 IP_ADDRESSES !! 1%Z = Some HOST_INTERFACE ∧
  st_contents host_run.2 IP_ADDRESSES !! 2%Z = Some foreign_address.
Proof.
  split_and!; [by vm_compute|by vm_compute|].
  destruct (hosts_never_take_over no_dates 0 "" (λ _, None) st_contents true [sample_host] net_config true host_store _ _ (surjective_pairing _)) as [_ H].
  destruct (proj1 (H IP_ADDRESSES) 2%Z foreign_address eq_refl) as (d' & Hd' & [->|[Hfree _]]); [exact Hd'|discriminate].
Defined.
