(* ===== verification/FullSync.v ===== *)
(** * Full synchronisation (netbox_full_apply.py and the write boundary of apply_worker.py)

    All stages of a synchronisation, run twice: first on a recording facade laid over
    NetBox, then, when every one of them passed and the caller confirmed, on NetBox
    itself. The worker reports a failure as one before any write, or as uncertain,
    by whether the boundary between the two was crossed. *)

From S2P Require Import Prelude PyValue NetBox NetBoxFrame Discovery SourceIdentity Metadata Calendar SourceConfig SyncPlan VmApply Planning PyIp InventoryOrder InventoryConflicts Prerequisites NetworkScopes HostMapping HardwareIdentity VirtualDisks GuestPlacement Disappearance LxcApply GuestNetwork HostApply.
From stdpp Require Import base list strings gmap.
From Stdlib Require Import ZArith Lia.
Local Open Scope string_scope.
#[local] Arguments py_eqb _ _ : simpl never.

(** ** The facade only reads what is below it *)

(** An allocator of the layer below moves it as its reads do. *)
Class LayerMoves {W} `{!NetBoxLayer W} (R : relation W) := layer_moves : ∀ allocate, nb_allocate = Some allocate → ∀ e w, moves R (allocate e) w.
#[export] Instance itself_moves {W} (R : relation W) : @LayerMoves W netbox_itself R.
Proof. by intros allocate. Qed.

Section Facade.
Context {W : Type} `{!NetBoxApi W} `{!NetBoxLayer W} (R : relation W) `{!ReadsMove R} `{!LayerMoves R}.
Definition below (p p' : planning W) : Prop := R (pw_under p) (pw_under p').
#[export] Instance below_preorder : PreOrder below.
Proof. split; unfold below; [intros p; reflexivity|intros p1 p2 p3; by etrans]. Qed.

Lemma under_moves {A} (m : M W exn A) p : moves R m (pw_under p) → moves below (under m) p.
Proof. unfold moves, under, below. by destruct (m (pw_under p)) as [r w]. Qed.
Lemma on_endpoint_moves e f p : moves below (on_endpoint e f) p.
Proof. apply (moves_modify below). unfold below, put_endpoint. cbn. reflexivity. Qed.
Lemma record_mutation_moves m p : moves below (record_mutation m) p.
Proof. apply (moves_modify below). unfold below. cbn. reflexivity. Qed.
#[local] Hint Resolve on_endpoint_moves record_mutation_moves under_moves : moves.
#[local] Hint Extern 1 (moves below (under _) _) => apply under_moves : moves.

Lemma wrap_moves e r p : moves below (wrap e r) p.
Proof. unfold wrap. frame. Qed.
#[local] Hint Resolve wrap_moves : moves.
Lemma wrap_all_moves e l p : moves below (wrap_all e l) p.
Proof. revert p. induction l as [|r l IH]; intros p; cbn [wrap_all]; frame. Qed.
#[local] Hint Resolve wrap_all_moves : moves.
Lemma read_moves e name q call p : (∀ w, moves R call w) → moves below (read e name q call) p.
Proof. intros Hc. unfold read. frame. Qed.
#[local] Hint Resolve read_moves : moves.
Lemma pl_find_moves e q p : moves below (pl_find e q) p.
Proof. unfold pl_find. frame. Qed.
#[local] Hint Resolve pl_find_moves : moves.
Lemma only_one_moves rs p : moves below (only_one rs) p.
Proof. unfold only_one. frame. Qed.
#[local] Hint Resolve only_one_moves : moves.

(** Whatever is done to a facade, the layer below is only read. *)
#[export] Instance facade_moves : OpsMove below.
Proof.
  split; [split; [apply _|..]|..]; intros.
  - cbn [nb_all planning_api]. unfold pl_all. frame.
  - cbn [nb_filter planning_api]. unfold pl_filter. frame.
  - cbn [nb_get planning_api]. unfold pl_get, pl_get_record. frame.
  - cbn [nb_create planning_api]. unfold pl_create. frame. unfold allocate. destruct nb_allocate eqn:E; frame.
  - cbn [nb_update planning_api]. unfold pl_update. frame.
Qed.
#[export] Instance facade_layer : LayerMoves below.
Proof.
  intros alloc [= <-] e w. unfold allocate. destruct nb_allocate eqn:E; frame.
Qed.
End Facade.

(** ** Stages *)

(** What the repository's code takes from elsewhere: SHA-256, the treatment of mapped
    addresses by the version of Python, the parser of dates and the clock, the text of a
    related address, the character U+2026 and [int(float(text))]. *)
Record environment := mkEnv {
  env_sha256 : string → string; env_mapped_as_ipv4 : bool; env_fromisoformat : string → result exn datetime; env_now : Z; env_now_text : string;
  env_primary_text : nb_record → option string; env_ellipsis : string; env_float_int : string → result exn Z }.

Section Stages.
Context (env : environment).
Definition stage : Type := ∀ W (api : NetBoxApi W), list DiscoveredHost → NetBoxTargetConfig → bool → M W exn unit.
Definition STAGES : list (string * stage) :=
  [("HOST", λ W _ hosts target confirmed,
      apply_hosts (env_fromisoformat env) (env_now env) (env_now_text env) (env_primary_text env) true hosts target confirmed);
   ("QEMU VM", λ W _ hosts target confirmed, apply_virtual_machines (env_ellipsis env) (env_float_int env) hosts target confirmed);
   ("QEMU NETWORK", λ W _ hosts target confirmed, apply_vm_networks (env_sha256 env) (env_mapped_as_ipv4 env) hosts target confirmed);
   ("LXC", λ W _ hosts target confirmed, apply_lxc_containers hosts target confirmed);
   ("LXC NETWORK", λ W _ hosts target confirmed, apply_lxc_networks (env_sha256 env) (env_mapped_as_ipv4 env) hosts target confirmed);
   ("GUEST PLACEMENT", λ W _ hosts target confirmed, apply_guest_placement (env_fromisoformat env) (env_now env) (env_now_text env) hosts confirmed);
   ("VM DISKS", λ W _ hosts target confirmed, apply_virtual_disks hosts confirmed)].

Section Sync.
Context {W : Type} `{!NetBoxApi W} `{!NetBoxLayer W}.

Definition run_stages {V} `{!NetBoxApi V} (hosts : list DiscoveredHost) (target : NetBoxTargetConfig) : M V exn unit :=
  forM STAGES (λ s, s.2 V _ hosts target true).

(** A program on a new facade; the facade is dropped. *)
Definition on_facade {A} (base_url : string) (m : M (planning W) exn A) : M W exn A := λ w,
  let '(r, p) := m (new_planning base_url w) in (r, pw_under p).

(** Everything before the confirmation. *)
Definition global_precheck (base_url : string) (hosts : list DiscoveredHost) (target : NetBoxTargetConfig) : M W exn (list DiscoveredHost) :=
  '(hosts, _) ← executable_inventory (env_sha256 env) (env_mapped_as_ipv4 env) (canonical_hosts hosts) (onboarding_mapping target);
  validate (onboarding_mapping target) hosts;;
  on_facade base_url (run_stages hosts target);;
  report_missing_managed_objects hosts target;;
  mret hosts.
(** [apply_full_sync]. *)
Definition apply_full_sync (base_url : string) (before_write : M W exn unit) (hosts : list DiscoveredHost) (target : NetBoxTargetConfig) (confirmed : bool) :
    M W exn unit :=
  hosts ← global_precheck base_url hosts target;
  if confirmed then before_write;; run_stages hosts target else mret tt.
End Sync.

(** ** Frames *)

Section ReadFrames.
Context {W : Type} `{!NetBoxApi W} (R : relation W) `{!ReadsMove R}.
Lemma report_missing_moves hosts target w : moves R (report_missing_managed_objects hosts target) w.
Proof. unfold report_missing_managed_objects, resolve_disappearance_target. frame. Qed.
Lemma plan_vms_moves ellipsis float_int hosts target w : moves R (plan_virtual_machines ellipsis float_int hosts target) w.
Proof. unfold plan_virtual_machines, prepare_vm_apply_inventory, prepare_vm_contexts, required, resolve_cluster. frame. Qed.
End ReadFrames.
#[local] Hint Resolve plan_vms_moves report_missing_moves : moves.

Section WriteFrames.
Context {W : Type} `{!NetBoxApi W} (R : relation W) `{!OpsMove R}.

(** What every call guarantees, every stage guarantees. *)
Lemma stages_move s hosts target confirmed w : s ∈ STAGES → moves R (s.2 W _ hosts target confirmed) w.
Proof.
  unfold STAGES. rewrite !elem_of_cons, elem_of_nil.
  intros [->|[->|[->|[->|[->|[->|[->|[]]]]]]]]; cbn [snd];
    unfold apply_hosts, write_hosts, apply_virtual_machines, write_virtual_machines, write_vm, apply_vm_networks, apply_lxc_networks, apply_networks, apply_lxc_containers, write_lxc_containers,
      write_lxc, apply_guest_placement, place_out, apply_virtual_disks, disk_write_out; frame.
Qed.
Lemma run_stages_move hosts target w : moves R (run_stages hosts target) w.
Proof. apply (moves_forM R). intros. by apply stages_move. Qed.
End WriteFrames.

(** A precheck writes nothing, although it runs every stage to its end. *)
Lemma precheck_moves {W} `{!NetBoxApi W} `{!NetBoxLayer W} (R : relation W) `{!ReadsMove R} `{!LayerMoves R} url hosts target w :
  moves R (global_precheck url hosts target) w.
Proof.
  unfold global_precheck. frame. unfold on_facade, moves.
  match goal with |- context [run_stages ?h ?t ?p] => pose proof (run_stages_move (below R) h t p) as H; unfold moves in H; by destruct (run_stages h t p) end.
Qed.

Section Boundary.
Context {W : Type} `{!NetBoxApi W} `{!NetBoxLayer W} (contents : W → string → table) `{!NetBoxLaws W contents} `{!LayerMoves (contents_kept contents)}.

(** A precheck that passes has run every stage to its end on a facade of what NetBox holds. *)
Lemma precheck_passed url hosts target w ready w1 :
  global_precheck url hosts target w = (Ok ready, w1) → contents w1 = contents w ∧
  ∃ seen p, contents seen = contents w ∧ run_stages ready target (new_planning url seen) = (Ok tt, p) ∧ contents (pw_under p) = contents w.
Proof.
  intros E. split; [exact (moves_end _ _ _ _ _ (precheck_moves (contents_kept contents) url hosts target w) E)|].
  unfold global_precheck in E. apply bind_Ok in E as ([accepted obs] & s1 & E1 & (? & s2 & E2 & (? & s3 & E3 & (rep & s4 & E4 & [= <- <-])%bind_Ok)%bind_Ok)%bind_Ok).
  apply (moves_end (contents_kept contents)) in E1; [|apply executable_inventory_moves; apply _].
  apply (moves_end (contents_kept contents)) in E2; [|apply validate_moves; apply _].
  unfold contents_kept in *. unfold on_facade in E3. destruct (run_stages accepted target (new_planning url s2)) as [r p] eqn:Ef.
  injection E3 as -> <-. destruct x0. exists s2, p. split_and!; [congruence|done|].
  apply (moves_end (below (contents_kept contents))) in Ef; [|apply run_stages_move; apply _]. unfold below, contents_kept in Ef. cbn in Ef. congruence.
Qed.

(** C2: Nothing is written before everything was checked. Whatever [apply_full_sync]
    returns or raises, either NetBox holds what it held, or the run was confirmed, the
    inventory was accepted, every one of the seven stages ran to its end on a facade of
    the unchanged NetBox, the caller was told of the boundary and did not refuse; an
    unconfirmed run never changes anything. *)
Theorem full_sync_checks_before_writing url before_write hosts target confirmed w r w' :
  (∀ v, contents (before_write v).2 = contents v) →
  apply_full_sync url before_write hosts target confirmed w = (r, w') →
  contents w' = contents w ∨
  confirmed = true ∧ ∃ ready seen p w1 w2, contents w1 = contents w ∧
    contents (seen : W) = contents w ∧ run_stages ready target (new_planning url seen) = (Ok tt, p) ∧ contents (pw_under p) = contents w ∧
    before_write w1 = (Ok tt, w2) ∧ run_stages ready target w2 = (r, w').
Proof.
  intros Hbw. unfold apply_full_sync. destruct (global_precheck url hosts target w) as [[ready|e] w1] eqn:Ep.
  - rewrite (bind_step _ _ _ _ _ Ep). apply precheck_passed in Ep as (Hw & seen & p & Hs & Hp & Hu).
    destruct confirmed; [|intros [= <- <-]; by left]. unfold mbind, M_bind. pose proof (Hbw w1) as Hb.
    destruct (before_write w1) as [[[]|e] w2] eqn:Eb; cbn in Hb; [|intros [= <- <-]; left; congruence].
    intros Hr. right. split; [done|]. by exists ready, seen, p, w1, w2.
  - apply (moves_end (contents_kept contents)) in Ep as Hm; [|apply precheck_moves; apply _].
    unfold mbind, M_bind. rewrite Ep. intros [= <- <-]. by left.
Qed.
End Boundary.

(** ** The worker's boundary *)

(** NetBox and [write_started]; the calls of the API leave the flag alone. *)
Section Flag.
Context {W : Type} `{!NetBoxApi W}.
Abbreviation flagged := (W * bool)%type.
Definition on_netbox {A} (m : M W exn A) : M flagged exn A := λ s, let '(r, w) := m s.1 in (r, (w, s.2)).
#[local] Instance flagged_api : NetBoxApi flagged := {|
  nb_all e := on_netbox (nb_all e); nb_filter e q := on_netbox (nb_filter e q); nb_get e q := on_netbox (nb_get e q);
  nb_create e fields := on_netbox (nb_create e fields); nb_update e i changes := on_netbox (nb_update e i changes) |}.
#[local] Instance flagged_layer : NetBoxLayer flagged := netbox_itself.

Definition ApplyWorkerError (code : string) : exn := OtherException "ApplyWorkerError" (Some code).
(** [before_write] and the [try] of [execute_child], for an executor that is given the
    callback; [progress] is what [phase_progress] does. *)
Definition before_write (progress : result exn unit) : M flagged exn unit := modify (λ s, (s.1, true));; lift progress.
Definition write_boundary (progress : result exn unit) (executor : M flagged exn unit → M flagged exn unit) : M flagged exn unit :=
  catch (executor (before_write progress))
    (λ _, started ← gets snd; raise (ApplyWorkerError (if (started : bool) then "OUTCOME_UNCERTAIN" else "FAILED_BEFORE_WRITE"))).

(** What [execute_child] answers for an apply that went through. *)
Record child_result := mkChildResult {
  cr_plan_digest : string; cr_network_complete : bool; cr_ipam_complete : bool; cr_planner_version : string; cr_action_counts : SyncAction → nat }.
Definition has_reason (codes : list string) (i : SyncPlanItem) : bool := bool_decide (it_reason_code i ∈ codes).
Definition changes_something (plan : SyncPlan) : bool :=
  existsb (λ i, bool_decide (it_action i = SA_CREATE) || bool_decide (it_action i = SA_UPDATE)) (sp_items plan).
Definition applied (plan : SyncPlan) : child_result :=
  mkChildResult (digest (env_sha256 env) plan)
    (negb (existsb (has_reason ["IP_OBSERVATION_ONLY"; "MAC_OBSERVATION_ONLY"]) (sp_items plan)))
    (negb (existsb (has_reason ["IP_OBSERVATION_ONLY"]) (sp_items plan)))
    (sp_planner_version plan) (λ a, length (filter (λ i, it_action i = a) (sp_items plan))).

(** The rest of [execute_child] once the child has made its own plan and the operation
    is an apply. [run_guard] is how [for_run] ends, which validates texts and reads the
    capabilities of the guard: the code of its [GuardTransportError], or none for any
    other exception. The executor of a source that is not Proxmox is the argument
    [execute_esxi_runtime]. *)
Definition for_run (run_guard : result (option string) unit) : M flagged exn unit :=
  match run_guard with
  | Ok _ => mret tt
  | Err (Some code) => raise (OtherException "GuardTransportError" (Some code))
  | Err None => raise (OtherException "Exception" None)
  end.
Definition apply_child (source_type : string) (plan : SyncPlan) (expected_digest : string) (run_guard : result (option string) unit) (url : string)
    (progress : result exn unit) (execute_esxi_runtime : M flagged exn unit → M flagged exn unit)
    (hosts : list DiscoveredHost) (target : NetBoxTargetConfig) : M flagged exn child_result :=
  if negb (apply_allowed plan) then raise (ApplyWorkerError "PLAN_STALE")
  else if negb (bool_decide (digest (env_sha256 env) plan = expected_digest)) then raise (ApplyWorkerError "PLAN_STALE")
  else if negb (changes_something plan) then raise (ApplyWorkerError "PLAN_BLOCKED")
  else
    for_run run_guard;;
    write_boundary progress (λ before,
      if bool_decide (source_type = "proxmox") then apply_full_sync url before hosts target true else execute_esxi_runtime before);;
    mret (applied plan).

(** [child_main]: the answer the parent reads. *)
Inductive child_answer := ChildResult (v : child_result) | ChildError (code : string).
Definition child_main (m : M flagged exn child_result) (s : flagged) : child_answer * flagged :=
  let '(r, s') := m s in
  (match r with
   | Ok v => ChildResult v
   | Err (OtherException "ApplyWorkerError" (Some code)) => ChildError code
   | Err _ => ChildError "FAILED_BEFORE_WRITE"
   end, s').

Context (contents : W → string → table) `{!NetBoxLaws W contents}.
Definition flagged_contents (s : flagged) : string → table := contents s.1.
#[local] Instance flagged_laws : NetBoxLaws flagged flagged_contents.
Proof.
  split; unfold flagged_contents; cbn; unfold on_netbox; intros.
  - destruct (nb_all e w.1) as [r1 w1] eqn:E. apply all_reads in E. by simplify_eq.
  - destruct (nb_filter e q w.1) as [r1 w1] eqn:E. apply filter_reads in E. by simplify_eq.
  - destruct (nb_get e q w.1) as [r1 w1] eqn:E. apply get_reads in E. by simplify_eq.
  - destruct (nb_create e fields w.1) as [r1 w1] eqn:E. apply create_stores in E. by simplify_eq.
  - destruct (nb_update e i changes w.1) as [r1 w1] eqn:E. apply update_stores in E. by simplify_eq.
Qed.

(** No call touches the flag. *)
Definition flag_kept (s s' : flagged) : Prop := s'.2 = s.2.
#[local] Instance flag_kept_ops : OpsMove flag_kept.
Proof.
  split; [split; [split; unfold flag_kept; repeat intro; congruence|..]|..]; intros; unfold moves, flag_kept; cbn; unfold on_netbox; by case_match.
Qed.

(** The boundary around a full synchronisation: the flag tells whether it was crossed. *)
Lemma boundary_full_sync url progress hosts target w r w' started :
  write_boundary progress (λ before, apply_full_sync url before hosts target true) (w, false) = (r, (w', started)) →
  if started
  then (r = Ok tt ∨ r = Err (ApplyWorkerError "OUTCOME_UNCERTAIN")) ∧
       ∃ ready (seen : flagged) p, contents seen.1 = contents w ∧ run_stages ready target (new_planning url seen) = (Ok tt, p)
  else r = Err (ApplyWorkerError "FAILED_BEFORE_WRITE") ∧ contents w' = contents w.
Proof.
  unfold write_boundary, catch, apply_full_sync.
  destruct (global_precheck url hosts target (w, false)) as [[ready|e] s1] eqn:Ep.
  - rewrite (bind_step _ _ _ _ _ Ep). cbn [before_write]. unfold before_write.
    destruct (precheck_passed flagged_contents _ _ _ _ _ _ Ep) as (_ & seen & p & Hs & Hp & _). unfold flagged_contents in Hs. cbn in Hs.
    assert (∃ r2 w2, ((modify (λ s, (s.1, true));; lift progress);; run_stages ready target) s1 = (r2, (w2, true))) as (r2 & w2 & E2).
    { unfold mbind, M_bind, modify, lift. destruct progress as [[]|e]; [|by eexists _, _].
      destruct (run_stages ready target (s1.1, true)) as [r2 [w2 b]] eqn:Er. eexists _, _. f_equal. f_equal.
      by apply (moves_end flag_kept) in Er; [|apply run_stages_move; apply _]. }
    rewrite E2. destruct r2 as [[]|e]; [intros [= <- <- <-]|unfold mbind, M_bind, gets, raise; cbn; intros [= <- <- <-]].
    all: split; [naive_solver|]; by exists ready, seen, p.
  - unfold mbind, M_bind. rewrite Ep. unfold gets, raise. destruct s1 as [w1 b]. cbn.
    apply (moves_end flag_kept) in Ep as Hf; [|apply precheck_moves; apply _]. unfold flag_kept in Hf. cbn in Hf. subst b.
    intros [= <- <- <-]. split; [done|].
    apply (moves_end (contents_kept flagged_contents)) in Ep; [done|]. apply precheck_moves; apply _.
Qed.

(** C1: The answer of a worker's child that applies a Proxmox plan can be trusted. When
    it answers without having crossed the write boundary, NetBox holds what it held and
    the answer is PLAN_STALE exactly when the fresh plan is forbidden or is not the one
    that was confirmed, PLAN_BLOCKED exactly when it is but changes nothing, and
    FAILED_BEFORE_WRITE otherwise. When it has crossed it, the fresh plan was allowed,
    was the confirmed one and changes something, every stage had passed its simulation
    on the unchanged NetBox, and the answer is the result of that plan or
    OUTCOME_UNCERTAIN. *)
Theorem apply_child_reports_truly plan expected run_guard url progress esxi hosts target w answer w' started :
  child_main (apply_child "proxmox" plan expected run_guard url progress esxi hosts target) (w, false) = (answer, (w', started)) →
  let confirmed_plan := apply_allowed plan = true ∧ digest (env_sha256 env) plan = expected in
  if started
  then confirmed_plan ∧ changes_something plan = true ∧
       (answer = ChildResult (applied plan) ∨ answer = ChildError "OUTCOME_UNCERTAIN") ∧
       ∃ ready (seen : flagged) p, contents seen.1 = contents w ∧ run_stages ready target (new_planning url seen) = (Ok tt, p)
  else contents w' = contents w ∧
       (¬ confirmed_plan ∧ answer = ChildError "PLAN_STALE" ∨
        confirmed_plan ∧ changes_something plan = false ∧ answer = ChildError "PLAN_BLOCKED" ∨
        confirmed_plan ∧ changes_something plan = true ∧ answer = ChildError "FAILED_BEFORE_WRITE").
Proof.
  unfold child_main, apply_child. cbn zeta.
  destruct (apply_allowed plan) eqn:Ea; cbn [negb].
  2: { intros [= <- <- <-]. split; [done|]. left. naive_solver. }
  case_bool_decide as Ed; cbn [negb].
  2: { intros [= <- <- <-]. split; [done|]. left. naive_solver. }
  destruct (changes_something plan) eqn:Ec; cbn [negb].
  2: { intros [= <- <- <-]. split; [done|]. right; left. naive_solver. }
  unfold for_run, mbind, M_bind. destruct run_guard as [[]|[code|]]; [|cbn; intros [= <- <- <-]; split; [done|]; right; right; done..].
  unfold mret, M_ret. rewrite bool_decide_true by done.
  destruct (write_boundary _ _ _) as [r [w1 b]] eqn:Eb. apply boundary_full_sync in Eb.
  destruct b; [destruct Eb as [[->| ->] Hs]|destruct Eb as [-> Hw]]; cbn; intros [= <- <- <-].
  - split_and!; [done|done|done|by left|done].
  - split_and!; [done|done|done|by right|done].
  - split; [done|]. by right; right.
Qed.
End Flag.
End Stages.

(** ** A synchronisation of one host, its machine and its container *)

Definition full_env : environment :=
  mkEnv (λ s, s) true (λ _, Err (ValueError "Invalid isoformat string")) 0 "" (λ r, match field "primary_ip4" r with PStr s => Some s | _ => None end) "..."
    (λ _, Err (ValueError "could not convert string to float")).
Definition full_nic (mac address : string) : DiscoveredInterface :=
  mkInterface "net0" (Some mac) (Some "vmbr0") None [address] None None None [] [].
Definition full_vm : DiscoveredVirtualMachine :=
  mkVM "proxmox" "lab" false "proxmox:qemu:pve1:101" "proxmox:pve1" (PInt 101) "web" "web" "running" 2 4294967296 true
    [mkVirtualDisk "scsi0" (Some "local") 10737418240 None] [full_nic "BC:24:11:00:00:01" "10.0.0.21/24"] None None None None None.
Definition full_ct : DiscoveredContainer :=
  mkContainer "proxmox" "lab" false "proxmox:lxc:pve1:102" "proxmox:pve1" 102 "dns" "dns" "running" (Some "amd64") (Some "debian") 1 1073741824 0 true true
    [mkVirtualDisk "rootfs" (Some "local") 8589934592 None] [full_nic "BC:24:11:00:00:02" "10.0.0.22/24"].
Definition full_host : DiscoveredHost :=
  mkHost "proxmox" "lab" false "proxmox:pve1" "pve1" "pve1" (Some "10.0.0.2") "Proxmox VE" (Some "8.2") (mkCPU None None 1 4 8) 68719476736 None None [] []
    [mkHostInterface "vmbr0" (Some "bridge") true true None ["10.0.0.2/24"] None [] None false None None false] [full_vm] [full_ct] None None None None None.
Definition full_config : NetBoxTargetConfig := mkTarget "dc" "server" "linux" "generic" "proxmox" "main" [].
Definition full_store : store := mkStore (list_to_map
  [(SITES, {[ 1%Z := [("id", PInt 1); ("slug", PStr "dc")] ]});
   ("dcim.device_roles", {[ 1%Z := [("id", PInt 1); ("slug", PStr "server")] ]});
   ("dcim.platforms", {[ 1%Z := [("id", PInt 1); ("slug", PStr "linux")] ]});
   ("dcim.device_types", {[ 1%Z := [("id", PInt 1); ("slug", PStr "generic")] ]});
   ("virtualization.cluster_types", {[ 2%Z := [("id", PInt 2); ("slug", PStr "proxmox")] ]});
   (CLUSTERS, {[ 3%Z := [("id", PInt 3); ("name", PStr "main"); ("type", PInt 2); ("scope_type", PStr "dcim.site"); ("scope_id", PInt 1)] ]})]).
(** A plan of one creation, confirmed under its digest. *)
Definition full_plan : SyncPlan :=
  mkPlan "lab" "1" "proxmox" "" "" "" "" [mkItem "virtual_machine" "proxmox:qemu:pve1:101" "web" SA_CREATE "" "" PNone [] []] [] PLAN_SCHEMA_VERSION PLANNER_VERSION.
Definition full_child (expected : string) : child_answer * (store * bool) :=
  child_main (apply_child full_env "proxmox" full_plan expected (Ok tt) "https://netbox/api" (Ok tt) (λ before, before) [full_host] full_config) (full_store, false).
Definition full_run : child_answer * (store * bool) := full_child (digest (env_sha256 full_env) full_plan).
Lemma full_run_succeeds : full_run.1 = ChildResult (applied full_env full_plan) ∧ full_run.2.2 = true.
Proof. split; by vm_compute. Qed.
Lemma other_plan_stale : (full_child "another plan").1 = ChildError "PLAN_STALE".
Proof. by vm_compute. Qed.

Definition no_callback : M store exn unit := mret tt.
Abbreviation full_sync_of confirmed :=
  (@apply_full_sync full_env store _ netbox_itself "https://netbox/api" no_callback [full_host] full_config confirmed full_store).
Lemma full_sync_checks_before_writing_witness :
  (full_sync_of true).1 = Ok tt ∧ size (st_contents (full_sync_of true).2 IP_ADDRESSES) = 3%nat ∧ st_contents (full_sync_of false).2 = st_contents full_store.
Proof.
  split_and!; [by vm_compute|by vm_compute|].
  destruct (@full_sync_checks_before_writing full_env store _ netbox_itself st_contents _ _ "https://netbox/api" no_callback [full_host] full_config false full_store _ _
    (λ _, eq_refl) (surjective_pairing _)) as [E|[E _]]; [exact E|discriminate].
Defined.

Lemma apply_child_reports_truly_witness :
  full_run.1 = ChildResult (applied full_env full_plan) ∧ ∃ ready (seen : store * bool) p, st_contents seen.1 = st_contents full_store ∧
    @run_stages full_env _ (@planning_api _ (@flagged_api store _) netbox_itself) ready full_config (new_planning "https://netbox/api" seen) = (Ok tt, p).
Proof.
  pose proof full_run_succeeds as [Hr Hb]. split; [exact Hr|].
  pose proof (@apply_child_reports_truly full_env store _ st_contents _ full_plan (digest (env_sha256 full_env) full_plan) (Ok tt) "https://netbox/api" (Ok tt)
    (λ before, before) [full_host] full_config full_store full_run.1 full_run.2.1 full_run.2.2) as H.
  rewrite Hb in H. apply H. fold (full_child (digest (env_sha256 full_env) full_plan)). fold full_run. clear H. destruct full_run as [? [? ?]]. cbn in *. by subst.
Defined.
