(* ===== verification/RunHistory.v ===== *)
(** * Run history (netbox_sync/run_history.py, netbox_sync/run_gates.py)

    The shared record of manual and scheduled runs: the closed set of outcomes
    and public error texts, and [RunRepository] over [sync_runs]. The schema is
    the fully migrated one, in which the views exist. *)

From S2P Require Import Prelude PyValue Calendar SourceConfig Schema.
From stdpp Require Import base list strings gmap sorting pretty.
From Stdlib Require Import ZArith Lia.
Local Open Scope string_scope.

(** ** Outcomes and public texts *)

Definition ACTION_NAMES : list string :=
  ["CREATE"; "UPDATE"; "NO_CHANGE"; "REVIEW_REQUIRED"; "BLOCKED"; "IGNORED"; "UNSUPPORTED"; "RETAIN_ONLY"].

Definition ERROR_STATUS (code : string) : option RunStatus :=
  if bool_decide (code = "APPLY_LOCKED") then Some LOCKED
  else if bool_decide (code = "PLAN_BLOCKED") then Some BLOCKED
  else if bool_decide (code = "SOURCE_RECONCILIATION_REQUIRED") then Some BLOCKED
  else if bool_decide (code = "FAILED_BEFORE_WRITE") then Some FAILED_BEFORE_WRITE
  else if bool_decide (code = "PARTIALLY_APPLIED") then Some PARTIALLY_APPLIED
  else if bool_decide (code = "OUTCOME_UNCERTAIN") then Some OUTCOME_UNCERTAIN
  else None.

Definition SAFE_ERROR_MESSAGES : list (string * string) :=
  [("APPLY_LOCKED", "Another synchronization is already running.");
   ("PLAN_BLOCKED", "The synchronization plan contains blocking conditions.");
   ("SOURCE_RECONCILIATION_REQUIRED",
    "Scheduled synchronization is blocked by unresolved previous writes or a pending manual sync after baseline acceptance. Review source recovery. No new plan was built and no writes were started.");
   ("PLAN_STALE", "The synchronization plan is no longer current.");
   ("CONFIRMATION_EXPIRED", "The synchronization confirmation expired.");
   ("CONFIRMATION_INVALID", "The synchronization confirmation is invalid.");
   ("CONFIRMATION_SOURCE_MISMATCH", "The confirmation does not match this source.");
   ("FAILED_BEFORE_WRITE", "Synchronization failed before any changes were written.");
   ("PARTIALLY_APPLIED", "Synchronization stopped after some changes were written.");
   ("OUTCOME_UNCERTAIN", "The final NetBox state may be uncertain.");
   ("APPLY_FAILED", "Synchronization failed.")].

Fixpoint assoc {A} (k : string) (l : list (string * A)) : option A :=
  match l with
  | [] => None
  | (k', v) :: l' => if bool_decide (k = k') then Some v else assoc k l'
  end.

Definition terminal_status (error_code : string) : RunStatus := default FAILED (ERROR_STATUS error_code).

(** The argument is an exception's [code] attribute, [None] when it has none. *)
Definition safe_error_code (error_code : option string) : string :=
  match error_code with
  | Some c => if bool_decide (is_Some (assoc c SAFE_ERROR_MESSAGES)) then c else "APPLY_FAILED"
  | None => "APPLY_FAILED"
  end.

Definition safe_error_message (error_code : string) : string :=
  default "Synchronization failed." (assoc error_code SAFE_ERROR_MESSAGES).

(** ** Action counts *)

(** A plan item: a mapping, or a typed item with its action. *)
Inductive plan_item :=
| ItemDict (d : pydict)
| ItemTyped (action : option string).

Definition item_action (i : plan_item) : pyval :=
  match i with
  | ItemDict d => dget "action" d
  | ItemTyped (Some a) => PStr a
  | ItemTyped None => PNone
  end.

Definition no_counts : ActionCounts := mkCounts 0 0 0 0 0 0 0 0.

(** [totals[action] += 1]. *)
Definition count_action (name : string) (c : ActionCounts) : ActionCounts :=
  let one n := if bool_decide (name = n) then 1%Z else 0%Z in
  mkCounts (count_create c + one "CREATE") (count_update c + one "UPDATE") (count_no_change c + one "NO_CHANGE")
    (count_review_required c + one "REVIEW_REQUIRED") (count_blocked c + one "BLOCKED") (count_ignored c + one "IGNORED")
    (count_unsupported c + one "UNSUPPORTED") (count_retain_only c + one "RETAIN_ONLY").

(** [ActionCounts.from_items]: an action that is a list or a mapping cannot be a
    key, which raises. *)
Fixpoint count_items (items : list plan_item) (c : ActionCounts) : result exn ActionCounts :=
  match items with
  | [] => Ok c
  | i :: rest =>
      match item_action i with
      | PStr a => count_items rest (if bool_decide (a ∈ ACTION_NAMES) then count_action a c else c)
      | PList _ | PDict _ => Err (TypeError "unhashable type")
      | _ => count_items rest c
      end
  end.
Definition from_items (items : list plan_item) : result exn ActionCounts := count_items items no_counts.

(** ** The repository *)

(** [RunTrigger(value)] and [RunStatus(value)]. *)
Definition parse_trigger (s : string) : result exn RunTrigger :=
  if bool_decide (s = "manual") then Ok MANUAL
  else if bool_decide (s = "scheduled") then Ok SCHEDULED
  else Err (ValueError "invalid RunTrigger").
Definition parse_status (s : string) : result exn RunStatus :=
  match assoc s [("RUNNING", RUNNING); ("SUCCEEDED", SUCCEEDED); ("FAILED_BEFORE_WRITE", FAILED_BEFORE_WRITE);
                 ("PARTIALLY_APPLIED", PARTIALLY_APPLIED); ("OUTCOME_UNCERTAIN", OUTCOME_UNCERTAIN);
                 ("BLOCKED", BLOCKED); ("LOCKED", LOCKED); ("FAILED", FAILED)] with
  | Some st => Ok st
  | None => Err (ValueError "invalid RunStatus")
  end.

Definition validate_source (source_instance source_type : string) : result exn unit :=
  if negb (source_instance_ok source_instance) then Err (ValueError "invalid source_instance")
  else if negb (bool_decide (source_type ∈ ["proxmox"; "esxi"])) then Err (ValueError "invalid source_type")
  else Ok tt.

Definition unresolved (st : RunStatus) : bool := bool_decide (st ∈ [OUTCOME_UNCERTAIN; PARTIALLY_APPLIED]).

Definition reconciliation_required (source_instance : string) : DB bool :=
  gets (λ s, exists_row (λ _ r, bool_decide (run_source_instance r = source_instance) && unresolved (run_status r))
               (blocking_sync_runs s)).

Definition scheduled_reconciliation_required (source_instance : string) : DB bool :=
  required ← reconciliation_required source_instance;
  if (required : bool) then mret true else gets (λ s, recovery_schedule_blocked s source_instance).

Definition digest_given_ok (d : option string) : bool := match d with Some d => is_digest d | None => true end.

Definition start_run (source_instance source_type : string) (trigger : RunTrigger) (created_by : string)
    (plan_digest planner_version : option string) (given_id : option N) : DB SyncRun :=
  lift (validate_source source_instance source_type);;
  raise_if (bool_decide (created_by = "") || Nat.ltb 128 (String.length created_by)) (ValueError "invalid created_by");;
  raise_if (negb (digest_given_ok plan_digest)) (ValueError "invalid plan_digest");;
  raise_if (negb (text_within 128 planner_version)) (ValueError "invalid planner_version");;
  identifier ← (match given_id with Some i => mret i | None => uuid4 end);
  started ← clock_timestamp;
  let row := {| run_id := identifier; run_source_instance := source_instance; run_source_type := source_type;
                run_trigger := trigger; run_started_at := started; run_finished_at := None; run_duration_ms := None;
                run_status := RUNNING; run_plan_digest := plan_digest; run_planner_version := planner_version;
                run_counts := no_counts; run_error_code := None; run_error_message_safe := None;
                run_created_by := created_by |} in
  atomic (insert_run row;; mret row).

Definition counts_nonnegative (c : ActionCounts) : bool :=
  forallb (λ z, (0 <=? z)%Z)
    [count_create c; count_update c; count_no_change c; count_review_required c; count_blocked c; count_ignored c;
     count_unsupported c; count_retain_only c].

(** The assignments of the [UPDATE] in [finish_run]. *)
Definition finished_row (r : SyncRun) (finished : Z) (status : RunStatus) (counts : ActionCounts)
    (plan_digest planner_version error_code error_message_safe : option string) : SyncRun :=
  {| run_id := run_id r; run_source_instance := run_source_instance r; run_source_type := run_source_type r;
     run_trigger := run_trigger r; run_started_at := run_started_at r; run_finished_at := Some finished;
     run_duration_ms := Some (Z.max 0 ((finished - run_started_at r) / 1000)); run_status := status;
     run_plan_digest := match plan_digest with Some d => Some d | None => run_plan_digest r end;
     run_planner_version := match planner_version with Some v => Some v | None => run_planner_version r end;
     run_counts := counts; run_error_code := error_code; run_error_message_safe := error_message_safe;
     run_created_by := run_created_by r |}.

(** The checks of the error code and its text. *)
Definition error_text_ok (error_code error_message_safe : option string) : result exn unit :=
  match error_code with
  | Some c =>
      if negb (bool_decide (is_Some (assoc c SAFE_ERROR_MESSAGES))) then Err (ValueError "invalid error_code")
      else if negb (bool_decide (error_message_safe = Some (safe_error_message c)))
      then Err (ValueError "invalid safe error message")
      else Ok tt
  | None =>
      if bool_decide (is_Some error_message_safe) then Err (ValueError "safe error message requires an error code")
      else Ok tt
  end.

Definition finish_run (id : N) (status : RunStatus) (counts : option ActionCounts)
    (plan_digest planner_version error_code error_message_safe : option string) : DB SyncRun :=
  raise_if (bool_decide (status = RUNNING)) (ValueError "terminal status required");;
  let counts := default no_counts counts in
  finished ← clock_timestamp;
  raise_if (negb (counts_nonnegative counts)) (ValueError "counts must be non-negative integers");;
  raise_if (negb (digest_given_ok plan_digest)) (ValueError "invalid plan_digest");;
  raise_if (negb (text_within 128 planner_version)) (ValueError "invalid planner_version");;
  lift (error_text_ok error_code error_message_safe);;
  atomic (
    found ← gets (λ s, sync_runs s !! id);
    match found with
    | Some r =>
        if bool_decide (run_status r = RUNNING) then
          let row := finished_row r finished status counts plan_digest planner_version error_code error_message_safe in
          raise_if (negb (run_row_ok row)) check_violation;;
          modify (on_sync_runs (<[id := row]>));;
          mret row
        else raise (ValueError "run is missing or already terminal")
    | None => raise (ValueError "run is missing or already terminal")
    end).

Definition bound_row (r : SyncRun) (digest version : string) : SyncRun :=
  {| run_id := run_id r; run_source_instance := run_source_instance r; run_source_type := run_source_type r;
     run_trigger := run_trigger r; run_started_at := run_started_at r; run_finished_at := run_finished_at r;
     run_duration_ms := run_duration_ms r; run_status := run_status r; run_plan_digest := Some digest;
     run_planner_version := Some version; run_counts := run_counts r; run_error_code := run_error_code r;
     run_error_message_safe := run_error_message_safe r; run_created_by := run_created_by r |}.

Definition bind_plan (id : N) (digest version : string) : DB unit :=
  raise_if (negb (is_digest digest)) (ValueError "invalid digest");;
  atomic (
    found ← gets (λ s, sync_runs s !! id);
    match found with
    | Some r =>
        if bool_decide (run_status r = RUNNING) && negb (bool_decide (is_Some (run_plan_digest r))) then
          let row := bound_row r digest version in
          raise_if (negb (run_row_ok row)) check_violation;;
          modify (on_sync_runs (<[id := row]>))
        else raise (ValueError "run already bound")
    | None => raise (ValueError "run already bound")
    end).

(** [ORDER BY started_at DESC, run_id DESC]. *)
Definition newest_leb (a b : SyncRun) : bool :=
  (run_started_at b <? run_started_at a)%Z ||
  ((run_started_at b =? run_started_at a)%Z && (run_id b <=? run_id a)%N).
Definition newest_first (rows : list SyncRun) : list SyncRun := isort newest_leb rows.

Definition all_runs (s : db) : list SyncRun := (map_to_list (sync_runs s)).*2.

Definition plan_run (source digest : string) (finished_at : Z) : DB (option string) :=
  gets (λ s, uuid_str ∘ run_id <$> head (newest_first (filter (λ r,
    run_source_instance r = source ∧ run_plan_digest r = Some digest ∧ (finished_at ≤ run_started_at r)%Z) (all_runs s)))).

Definition plan_used (source digest : string) (finished_at : Z) : DB bool :=
  found ← plan_run source digest finished_at; mret (bool_decide (is_Some found)).

Definition get_run (id : N) : DB (option SyncRun) := gets (λ s, sync_runs s !! id).

(** The [WHERE] clauses of [list_runs]: an absent filter is no clause. *)
Definition given {A} (o : option A) (P : A → bool) : bool := match o with Some a => P a | None => true end.
Definition run_matches (source_instance source_type : option string) (trigger : option RunTrigger)
    (status : option RunStatus) (r : SyncRun) : bool :=
  given source_instance (λ x, bool_decide (run_source_instance r = x)) &&
  given source_type (λ x, bool_decide (run_source_type r = x)) &&
  given trigger (λ x, bool_decide (run_trigger r = x)) &&
  given status (λ x, bool_decide (run_status r = x)).

(** [(started_at, run_id) < (SELECT started_at, run_id ...)]: an unknown cursor
    makes the comparison NULL, which no row satisfies. *)
Definition after_cursor (s : db) (cursor : option N) (r : SyncRun) : bool :=
  given cursor (λ c, match sync_runs s !! c with
                     | Some at_cursor => negb (newest_leb r at_cursor)
                     | None => false
                     end).

Definition parse_given {A} (parse : string → result exn A) (o : option string) : result exn (option A) :=
  match o with Some x => a ← parse x; Ok (Some a) | None => Ok None end.

Definition list_runs (source_instance source_type trigger status : option string) (limit : Z) (cursor : option N) :
    DB (list SyncRun) :=
  raise_if (negb ((1 <=? limit)%Z && (limit <=? 200)%Z)) (ValueError "limit must be between 1 and 200");;
  raise_if (negb (given source_instance source_instance_ok)) (ValueError "invalid source_instance");;
  raise_if (negb (given source_type (λ t, bool_decide (t ∈ ["proxmox"; "esxi"])))) (ValueError "invalid source_type");;
  trigger ← lift (parse_given parse_trigger trigger);
  status ← lift (parse_given parse_status status);
  gets (λ s, take (Z.to_nat limit) (newest_first (filter (λ r,
    run_matches source_instance source_type trigger status r && after_cursor s cursor r = true) (all_runs s)))).

(** [DISTINCT ON (source_instance)]: the first row of each source in the order
    of the query. *)
Fixpoint distinct_sources (seen : list string) (rows : list SyncRun) : list SyncRun :=
  match rows with
  | [] => []
  | r :: rest =>
      if bool_decide (run_source_instance r ∈ seen) then distinct_sources seen rest
      else r :: distinct_sources (run_source_instance r :: seen) rest
  end.

(** [ORDER BY source_instance, started_at DESC, run_id DESC]. *)
Definition source_newest_leb (a b : SyncRun) : bool :=
  if bool_decide (run_source_instance a = run_source_instance b) then newest_leb a b
  else String.leb (run_source_instance a) (run_source_instance b).

Definition latest_by_source (trigger status : option string) : DB (list SyncRun) :=
  trigger ← lift (parse_given parse_trigger trigger);
  status ← lift (parse_given parse_status status);
  gets (λ s, distinct_sources [] (isort source_newest_leb
    (filter (λ r, run_matches None None trigger status r = true) (all_runs s)))).

Definition stale_running (started_before : Z) (limit : Z) : DB (list SyncRun) :=
  raise_if (negb ((1 <=? limit)%Z && (limit <=? 100)%Z)) (ValueError "valid stale boundary and limit required");;
  gets (λ s, take (Z.to_nat limit) (isort (λ a b, newest_leb b a)
    (filter (λ r, run_status r = RUNNING ∧ (run_started_at r < started_before)%Z) (all_runs s)))).

(** ** Terminal records are immutable *)

(** A call of the repository that may write, with whatever outcome. *)
Inductive history_step (s : db) : db → Prop :=
| step_start si st tr cb pd pv id : history_step s (start_run si st tr cb pd pv id s).2
| step_bind id d v : history_step s (bind_plan id d v s).2
| step_finish id st c pd pv ec em : history_step s (finish_run id st c pd pv ec em s).2.

Definition same_origin (r r' : SyncRun) : Prop :=
  run_id r' = run_id r ∧ run_source_instance r' = run_source_instance r ∧ run_source_type r' = run_source_type r ∧
  run_trigger r' = run_trigger r ∧ run_started_at r' = run_started_at r ∧ run_created_by r' = run_created_by r.

(** No run disappears, a terminal one does not change, a running one keeps
    where it came from. *)
Definition history_grows (s s' : db) : Prop :=
  ∀ k r, sync_runs s !! k = Some r → ∃ r', sync_runs s' !! k = Some r' ∧ same_origin r r' ∧
    (run_status r ≠ RUNNING → r' = r).

#[export] Instance history_grows_preorder : PreOrder history_grows.
Proof.
  split.
  - intros s k r Hk. exists r. by unfold same_origin.
  - intros s1 s2 s3 H12 H23 k r Hk. destruct (H12 _ _ Hk) as (r2 & Hk2 & Ho2 & Ht2).
    destruct (H23 _ _ Hk2) as (r3 & Hk3 & Ho3 & Ht3). exists r3. split; [done|]. split.
    + unfold same_origin in *. destruct_and!. split_and!; congruence.
    + intros Hr. specialize (Ht2 Hr). subst r2. by apply Ht3.
Qed.

Lemma same_runs_grows s s' : sync_runs s' = sync_runs s → history_grows s s'.
Proof. intros E k r Hk. exists r. rewrite E. by unfold same_origin. Qed.

Lemma update_run_grows s k r r' :
  sync_runs s !! k = Some r → run_status r = RUNNING → same_origin r r' →
  history_grows s (on_sync_runs (<[k := r']>) s).
Proof.
  intros Hk Hr Ho k0 r0 Hk0. simpl. destruct (decide (k0 = k)) as [->|].
  - simplify_eq. exists r'. by rewrite lookup_insert_eq.
  - exists r0. rewrite lookup_insert_ne by done. by unfold same_origin.
Qed.

Lemma insert_run_grows s r : sync_runs s !! run_id r = None → history_grows s (on_sync_runs (<[run_id r := r]>) s).
Proof.
  intros Hr k0 r0 Hk0. simpl. exists r0. rewrite lookup_insert_ne by congruence. by unfold same_origin.
Qed.

Lemma moves_insert_run s r : moves history_grows (insert_run r) s.
Proof.
  unfold insert_run. db_moves. inv_bool. apply insert_run_grows. by apply eq_None_not_Some.
Qed.
#[local] Hint Resolve moves_insert_run : moves.

Lemma moves_start_run s si st tr cb pd pv id : moves history_grows (start_run si st tr cb pd pv id) s.
Proof.
  unfold start_run. db_moves; by apply same_runs_grows.
Qed.

Lemma moves_bind_plan s id d v : moves history_grows (bind_plan id d v) s.
Proof.
  unfold bind_plan. db_moves. inv_bool. eapply update_run_grows; [done|done|]. done.
Qed.

Lemma moves_finish_run s id st c pd pv ec em : moves history_grows (finish_run id st c pd pv ec em) s.
Proof.
  unfold finish_run. db_moves; try by apply same_runs_grows. inv_bool. eapply update_run_grows; [done|done|]. done.
Qed.

(** The repository only adds to the history. *)
Lemma history_step_grows s s' : history_step s s' → history_grows s s'.
Proof. destruct 1; [apply moves_start_run | apply moves_bind_plan | apply moves_finish_run]. Qed.

Definition sample_started : db := (start_run "pve-a" "proxmox" SCHEDULED "system/scheduler" None None None sample_db).2.
Definition sample_finished : db :=
  (finish_run 1 FAILED None None None (Some "APPLY_FAILED") (Some "Synchronization failed.") sample_started).2.

(** ** A failure can always be recorded *)

Lemma assoc_Some_elem {A} k (l : list (string * A)) v : assoc k l = Some v → (k, v) ∈ l.
Proof.
  induction l as [|[k' v'] l IH]; simpl; [done|]. case_bool_decide; [|by right; auto].
  intros [= ->]. subst. left.
Qed.

Lemma safe_code_cases c : safe_error_code c ∈ ERROR_CODES.
Proof.
  unfold safe_error_code. destruct c as [c|]; [|set_unfold; tauto].
  case_bool_decide as E; [|set_unfold; tauto]. destruct E as [m Hm]. apply assoc_Some_elem in Hm.
  unfold SAFE_ERROR_MESSAGES, ERROR_CODES in *. set_unfold. naive_solver.
Qed.

(** The texts the code writes fit the columns. *)
Lemma safe_code_text_ok code :
  code ∈ ERROR_CODES →
  is_Some (assoc code SAFE_ERROR_MESSAGES) ∧ Nat.leb (String.length (safe_error_message code)) 256 = true ∧
  terminal_status code ≠ RUNNING.
Proof.
  assert (forallb (λ c, bool_decide (is_Some (assoc c SAFE_ERROR_MESSAGES)) &&
    Nat.leb (String.length (safe_error_message c)) 256 && negb (bool_decide (terminal_status c = RUNNING))) ERROR_CODES = true)
    as Hall by (vm_compute; reflexivity).
  intros Hin. rewrite forallb_forall in Hall. apply list_elem_of_In, Hall in Hin.
  rewrite !andb_true_iff, negb_true_iff, bool_decide_eq_true, bool_decide_eq_false in Hin. tauto.
Qed.

Lemma run_row_ok_finished r finished status counts pd pv ec em :
  run_row_ok r = true → status ≠ RUNNING → counts_ok counts = true → digest_given_ok pd = true →
  text_within 128 pv = true →
  match ec with Some c => bool_decide (c ∈ ERROR_CODES) | None => true end = true → text_within 256 em = true →
  run_row_ok (finished_row r finished status counts pd pv ec em) = true.
Proof.
  unfold run_row_ok. simpl. intros Hr Hst Hc Hd Hv Hec Hem. rewrite !andb_true_iff in *. destruct_and!.
  split_and!; try done; try lia.
  - by destruct pd.
  - by destruct pv.
  - by destruct status.
Qed.

Lemma finish_run_Ok s id r status counts pd pv ec em :
  sync_runs s !! id = Some r → run_status r = RUNNING → status ≠ RUNNING →
  counts_nonnegative (default no_counts counts) = true →
  digest_given_ok pd = true → text_within 128 pv = true → error_text_ok ec em = Ok tt →
  let row := finished_row r (clock s (ticks s)) status (default no_counts counts) pd pv ec em in
  run_row_ok row = true →
  finish_run id status counts pd pv ec em s = (Ok row, on_sync_runs (<[id := row]>) (on_ticks S s)).
Proof.
  intros Hk Hrun Hst Hc Hd Hv Ht row Hrow.
  unfold finish_run, mbind, M_bind, raise_if, clock_timestamp, lift, atomic, gets, modify, mret, M_ret.
  rewrite bool_decide_false by done. rewrite Hc, Hd, Hv, Ht. cbn [negb].
  change (sync_runs (on_ticks S s)) with (sync_runs s). rewrite Hk, bool_decide_true by done.
  fold row. by rewrite Hrow.
Qed.

(** Whatever exception a source raised, the outcome it is mapped to can be
    persisted: [finish_run] with the mapped code, its public text and its status
    passes its own validation and every database constraint on a RUNNING run,
    and the run is then terminal with that code. *)
Theorem failure_always_recorded s id r code pd pv :
  sync_runs s !! id = Some r → run_status r = RUNNING → run_row_ok r = true →
  digest_given_ok pd = true → text_within 128 pv = true →
  let c := safe_error_code code in
  ∃ row, finish_run id (terminal_status c) None pd pv (Some c) (Some (safe_error_message c)) s =
    (Ok row, on_sync_runs (<[id := row]>) (on_ticks S s)) ∧
    run_status row = terminal_status c ∧ run_status row ≠ RUNNING ∧ run_error_code row = Some c.
Proof.
  intros Hk Hrun Hok Hd Hv c. destruct (safe_code_text_ok c (safe_code_cases code)) as (Hs & Hlen & Hterm).
  rewrite (finish_run_Ok s id r); try done.
  - eauto.
  - unfold error_text_ok. rewrite bool_decide_true by done. cbn [negb]. by rewrite bool_decide_true.
  - apply run_row_ok_finished; try done. by rewrite bool_decide_true by apply safe_code_cases.
Qed.

Lemma failure_always_recorded_witness :
  ∃ row, run_status row = OUTCOME_UNCERTAIN ∧
    (finish_run 1 OUTCOME_UNCERTAIN None None None (Some "OUTCOME_UNCERTAIN")
      (Some "The final NetBox state may be uncertain.") sample_started).1 = Ok row.
Proof.
  assert (∃ r, sync_runs sample_started !! 1%N = Some r) as [r Hr] by (eexists; vm_compute; reflexivity).
  destruct (failure_always_recorded sample_started 1 r (Some "OUTCOME_UNCERTAIN") None None) as (row & E & H1 & _);
    [exact Hr | vm_compute in Hr; injection Hr as <-; vm_compute; reflexivity..|].
  exists row. split; [exact H1|]. exact (f_equal fst E).
Defined.

(** ** A plan is bound once *)

Definition plan_bound (id : N) (s : db) : Prop := ∃ r, sync_runs s !! id = Some r ∧ is_Some (run_plan_digest r).

Lemma keeps_bound_same id s s' : sync_runs s' = sync_runs s → keeps (plan_bound id) s s'.
Proof. unfold keeps, plan_bound. by intros ->. Qed.

Lemma keeps_bound_update id k r s :
  (∀ r0, sync_runs s !! k = Some r0 → is_Some (run_plan_digest r0) → is_Some (run_plan_digest r)) →
  keeps (plan_bound id) s (on_sync_runs (<[k := r]>) s).
Proof.
  intros Hr (r0 & Hk & Hd). destruct (decide (id = k)) as [->|].
  - exists r. simpl. rewrite lookup_insert_eq. eauto.
  - exists r0. simpl. by rewrite lookup_insert_ne.
Qed.

Lemma history_step_bound id s s' : history_step s s' → keeps (plan_bound id) s s'.
Proof.
  destruct 1; [change (moves (keeps (plan_bound id)) (start_run si st tr cb pd pv id0) s); unfold start_run, insert_run
    | change (moves (keeps (plan_bound id)) (bind_plan id0 d v) s); unfold bind_plan
    | change (moves (keeps (plan_bound id)) (finish_run id0 st c pd pv ec em) s); unfold finish_run];
    db_moves; try (by apply keeps_bound_same); apply keeps_bound_update; inv_bool; simpl; try by eauto.
  - intros r0 Hr0. exfalso. eauto.
  - intros r0 Hr0. destruct pd; [by eauto|]. simpl in *. congruence.
Qed.

Lemma bind_plan_binds s s1 id d v : bind_plan id d v s = (Ok tt, s1) → plan_bound id s1.
Proof.
  unfold bind_plan, mbind, M_bind, raise_if, atomic, gets, modify, raise.
  destruct (negb (is_digest d)); [discriminate|]. destruct (sync_runs s !! id) as [r|]; [|discriminate].
  destruct (_ && _); [|discriminate]. destruct (negb (run_row_ok _)); [discriminate|].
  intros [= <-]. eexists. split; [apply lookup_insert_eq|]. simpl. eauto.
Qed.

(** A run is bound to one plan: after a successful [bind_plan] no further
    [bind_plan] of that run succeeds, whatever the repository does in between,
    and the refused call changes nothing. *)
Theorem plan_bound_once s s1 s2 id d v d' v' :
  bind_plan id d v s = (Ok tt, s1) → rtc history_step s1 s2 → ∃ e, bind_plan id d' v' s2 = (Err e, s2).
Proof.
  intros Hb Hsteps.
  assert (plan_bound id s2) as (r & Hr & Hd).
  { revert Hsteps. enough (plan_bound id s1) as Hs1.
    { clear Hb. induction 1 as [|x y z Hxy _ IH]; [done|]. apply IH. by eapply history_step_bound. }
    by eapply bind_plan_binds. }
  unfold bind_plan, mbind, M_bind, raise_if, atomic, gets. destruct (negb _); [by eexists|].
  rewrite Hr, (bool_decide_true (is_Some _)) by done. rewrite andb_false_r. by eexists.
Qed.

Definition sample_digest : string := "0123456789abcdef0123456789abcdef0123456789abcdef0123456789abcdef".
Definition sample_bound : db := (bind_plan 1 sample_digest "v1" sample_started).2.

Lemma plan_bound_once_witness : ∃ e, bind_plan 1 sample_digest "v2" sample_bound = (Err e, sample_bound).
Proof.
  eapply (plan_bound_once sample_started sample_bound sample_bound 1 sample_digest "v1");
    [vm_compute; reflexivity | apply rtc_refl].
Defined.

(** ** Reading the history *)

Lemma newest_leb_total a b : newest_leb a b = true ∨ newest_leb b a = true.
Proof. unfold newest_leb. rewrite !orb_true_iff, !andb_true_iff, !Z.ltb_lt, !Z.eqb_eq, !N.leb_le. lia. Qed.
Lemma newest_leb_trans a b c : newest_leb a b = true → newest_leb b c = true → newest_leb a c = true.
Proof. unfold newest_leb. rewrite !orb_true_iff, !andb_true_iff, !Z.ltb_lt, !Z.eqb_eq, !N.leb_le. lia. Qed.
Lemma newest_leb_antisym a b : newest_leb a b = true → newest_leb b a = true → run_id a = run_id b.
Proof. unfold newest_leb. rewrite !orb_true_iff, !andb_true_iff, !Z.ltb_lt, !Z.eqb_eq, !N.leb_le. lia. Qed.

(** Each row is stored under its own identifier. *)
Definition runs_keyed (s : db) : Prop := ∀ k r, sync_runs s !! k = Some r → run_id r = k.

Lemma all_runs_NoDup s : runs_keyed s → NoDup (run_id <$> all_runs s).
Proof.
  intros Hs. unfold all_runs. rewrite <-list_fmap_compose.
  assert ((run_id ∘ snd) <$> map_to_list (sync_runs s) = (map_to_list (sync_runs s)).*1) as ->.
  { apply list_fmap_ext. intros i [k r] Hi%list_elem_of_lookup_2. apply elem_of_map_to_list in Hi. by apply Hs. }
  apply NoDup_fst_map_to_list.
Qed.

Lemma elem_of_all_runs s r : runs_keyed s → r ∈ all_runs s ↔ sync_runs s !! run_id r = Some r.
Proof.
  intros Hs. unfold all_runs. rewrite list_elem_of_fmap. split.
  - intros ([k r'] & -> & Hin). apply elem_of_map_to_list in Hin. simpl. by rewrite (Hs _ _ Hin).
  - intros Hr. exists (run_id r, r). by rewrite elem_of_map_to_list.
Qed.

(** The rows after [r] in a strictly sorted list are those it is newer than. *)
Lemma filter_after l1 r l2 :
  StronglySorted (lebR newest_leb) (l1 ++ r :: l2)%list → NoDup (run_id <$> (l1 ++ r :: l2)%list) →
  filter (λ x, negb (newest_leb x r) = true) (l1 ++ r :: l2)%list = l2.
Proof.
  intros Hs Hnd. rewrite filter_app, filter_cons. rewrite decide_False.
  2:{ destruct (newest_leb_total r r) as [->| ->]; done. }
  rewrite filter_none, filter_all; [done|..].
  - intros x Hx. apply negb_true_iff, not_true_iff_false. intros Hle.
    apply StronglySorted_app_1_r in Hs. apply StronglySorted_inv in Hs as [_ Hall].
    rewrite Forall_forall in Hall. pose proof (newest_leb_antisym _ _ (Hall _ Hx) Hle) as E.
    rewrite fmap_app, fmap_cons in Hnd. apply NoDup_app in Hnd as (_ & _ & Hnd).
    apply NoDup_cons in Hnd as [Hni _]. apply Hni. rewrite E. by apply list_elem_of_fmap_2.
  - intros x Hx. rewrite negb_true_iff, not_false_iff_true.
    change (lebR newest_leb x r). eapply StronglySorted_app_1_elem_of; [exact Hs|done|left].
Qed.

Definition page (s : db) si st tr stt : list SyncRun :=
  newest_first (filter (λ r, run_matches si st tr stt r = true) (all_runs s)).

Lemma page_NoDup s si st tr stt : runs_keyed s → NoDup (run_id <$> page s si st tr stt).
Proof.
  intros Hs. unfold page, newest_first. rewrite isort_Permutation.
  eapply sublist_NoDup; [by apply all_runs_NoDup|]. apply fmap_sublist, sublist_filter.
Qed.

(** The rows of a query with a cursor are those after it. *)
Lemma cursor_rows s si st tr stt l1 r l2 :
  runs_keyed s → page s si st tr stt = (l1 ++ r :: l2)%list →
  newest_first (filter (λ x, run_matches si st tr stt x && after_cursor s (Some (run_id r)) x = true) (all_runs s)) = l2.
Proof.
  intros Hs Hp. assert (sync_runs s !! run_id r = Some r) as Hr.
  { apply elem_of_all_runs; [done|]. assert (r ∈ page s si st tr stt) as Hin by (rewrite Hp; set_solver).
    unfold page, newest_first in Hin. rewrite elem_of_isort, list_elem_of_filter in Hin. tauto. }
  unfold after_cursor, given. rewrite Hr.
  rewrite (list_filter_iff _ (λ x, negb (newest_leb x r) = true ∧ run_matches si st tr stt x = true)).
  2:{ intros x. rewrite andb_true_iff. tauto. }
  rewrite <-list_filter_filter. unfold newest_first.
  rewrite <-(filter_isort newest_leb newest_leb_total newest_leb_trans).
  change (isort newest_leb (filter _ (all_runs s))) with (page s si st tr stt). rewrite Hp. apply filter_after.
  - rewrite <-Hp. apply isort_StronglySorted; [apply newest_leb_total | apply newest_leb_trans].
  - rewrite <-Hp. by apply page_NoDup.
Qed.

(** Paging neither skips nor repeats a run: with the same filters, the page
    that follows the last run of a page continues the newest-first list exactly
    where that page ended, and a page has at most [limit] runs. *)
Theorem list_runs_pages s si st tr stt limit first r :
  runs_keyed s → list_runs si st tr stt limit None s = (Ok (first ++ [r])%list, s) →
  length (first ++ [r])%list = Z.to_nat limit →
  ∃ all next,
    list_runs si st tr stt limit (Some (run_id r)) s = (Ok next, s) ∧
    all = (first ++ r :: drop (length (first ++ [r])%list) all)%list ∧
    next = take (Z.to_nat limit) (drop (Z.to_nat limit) all) ∧
    NoDup (run_id <$> all) ∧ StronglySorted (lebR newest_leb) all ∧
    ∀ x, x ∈ all ↔ sync_runs s !! run_id x = Some x ∧
      ∃ t' st', parse_given parse_trigger tr = Ok t' ∧ parse_given parse_status stt = Ok st' ∧
        run_matches si st t' st' x = true.
Proof.
  intros Hs Hfirst Hlen. unfold list_runs in Hfirst |- *. 
  apply bind_Ok in Hfirst as ([] & s1 & [Hlim ->]%raise_if_Ok & Hfirst).
  apply bind_Ok in Hfirst as ([] & s1 & [Hsi ->]%raise_if_Ok & Hfirst).
  apply bind_Ok in Hfirst as ([] & s1 & [Hst ->]%raise_if_Ok & Hfirst).
  apply bind_Ok in Hfirst as (t' & s1 & [Ht ->]%lift_Ok & Hfirst).
  apply bind_Ok in Hfirst as (st' & s1 & [Hstt ->]%lift_Ok & Hfirst).
  apply gets_Ok in Hfirst as [Hfirst _]. 
  set (all := page s si st t' st').
  assert ((first ++ [r])%list = take (Z.to_nat limit) all) as Htake.
  { rewrite Hfirst. unfold all, page. do 2 f_equal. apply list_filter_iff. intros x. simpl. by rewrite andb_true_r. }
  assert (all = (first ++ r :: drop (Z.to_nat limit) all)%list) as Hall.
  { rewrite <-(take_drop (Z.to_nat limit) all) at 1. by rewrite <-Htake, <-app_assoc. }
  exists all, (take (Z.to_nat limit) (drop (Z.to_nat limit) all)). split_and!.
  - unfold mbind, M_bind, raise_if, lift, gets. rewrite Hlim, Hsi, Hst, Ht, Hstt.
    by rewrite (cursor_rows s si st t' st' first r (drop (Z.to_nat limit) all)).
  - by rewrite Hlen.
  - done.
  - by apply page_NoDup.
  - apply isort_StronglySorted; [apply newest_leb_total | apply newest_leb_trans].
  - intros x. unfold all, page, newest_first. rewrite elem_of_isort, list_elem_of_filter, elem_of_all_runs by done.
    split.
    + intros [Hm Hx]. eauto 8.
    + intros (Hx & t0 & st0 & E1 & E2 & Hm). rewrite Ht in E1. rewrite Hstt in E2.
      injection E1 as <-. injection E2 as <-. done.
Qed.

Lemma keeps_keyed_same s s' : sync_runs s' = sync_runs s → keeps runs_keyed s s'.
Proof. unfold keeps, runs_keyed. by intros ->. Qed.

Lemma keeps_keyed_update k r s :
  (runs_keyed s → run_id r = k) → keeps runs_keyed s (on_sync_runs (<[k := r]>) s).
Proof.
  intros Hr Hs k0 r0. simpl. rewrite lookup_insert_Some. intros [[<- <-]|[_ H]]; [by apply Hr|by apply Hs].
Qed.

Lemma history_step_keyed s s' : history_step s s' → keeps runs_keyed s s'.
Proof.
  destruct 1; [change (moves (keeps runs_keyed) (start_run si st tr cb pd pv id) s); unfold start_run, insert_run
    | change (moves (keeps runs_keyed) (bind_plan id d v) s); unfold bind_plan
    | change (moves (keeps runs_keyed) (finish_run id st c pd pv ec em) s); unfold finish_run];
    db_moves; try (by apply keeps_keyed_same); apply keeps_keyed_update; simpl; try done; intros Hs; by apply Hs.
Qed.

Definition sample_two : db := (start_run "pve-a" "proxmox" MANUAL "alice" None None None sample_finished).2.

Lemma sample_two_keyed : runs_keyed sample_two.
Proof.
  eapply history_step_keyed; [apply step_start|]. eapply history_step_keyed; [apply step_finish|].
  eapply history_step_keyed; [apply step_start|]. intros k r. simpl. by rewrite lookup_empty.
Qed.

Lemma list_runs_pages_witness : ∃ r next,
  list_runs None None None None 1 None sample_two = (Ok [r], sample_two) ∧
  list_runs None None None None 1 (Some (run_id r)) sample_two = (Ok next, sample_two).
Proof.
  assert (∃ r, list_runs None None None None 1 None sample_two = (Ok [r], sample_two)) as [r Hr]
    by (eexists; vm_compute; reflexivity).
  destruct (list_runs_pages sample_two None None None None 1 [] r sample_two_keyed Hr eq_refl)
    as (all & next & Hn & _).
  exists r, next. split; [exact Hr | exact Hn].
Defined.

(** *** The newest run of each source *)

Lemma source_newest_leb_total a b : source_newest_leb a b = true ∨ source_newest_leb b a = true.
Proof.
  unfold source_newest_leb. repeat case_bool_decide; try congruence; [apply newest_leb_total | apply String.leb_total].
Qed.

Lemma source_newest_leb_trans a b c :
  source_newest_leb a b = true → source_newest_leb b c = true → source_newest_leb a c = true.
Proof.
  unfold source_newest_leb. repeat case_bool_decide; try congruence; intros Hab Hbc.
  - by eapply newest_leb_trans.
  - assert (run_source_instance a = run_source_instance b) by (apply String.leb_antisym; congruence). congruence.
  - by eapply string_leb_trans.
Qed.

Lemma distinct_sources_spec seen rows :
  StronglySorted (lebR source_newest_leb) rows →
  NoDup (run_source_instance <$> distinct_sources seen rows) ∧
  (∀ r, r ∈ distinct_sources seen rows → r ∈ rows ∧ (run_source_instance r ∉ seen) ∧
     ∀ r', r' ∈ rows → run_source_instance r' = run_source_instance r → newest_leb r r' = true) ∧
  (∀ r', r' ∈ rows → run_source_instance r' ∉ seen →
     ∃ r, r ∈ distinct_sources seen rows ∧ run_source_instance r = run_source_instance r').
Proof.
  intros Hs. revert seen. induction Hs as [|x rows Hs IH Hx]; intros seen; simpl.
  { split; [constructor|]. split; intros r Hr; by apply elem_of_nil in Hr. }
  rewrite Forall_forall in Hx. case_bool_decide as Hseen.
  - destruct (IH seen) as (H1 & H2 & H3). split; [done|]. split.
    + intros r Hr. destruct (H2 r Hr) as (Hin & Hns & Hnew). split; [by right|]. split; [done|].
      intros r' [->|Hr']%elem_of_cons E; [congruence|by apply Hnew].
    + intros r' [->|Hr']%elem_of_cons Hns; [done|by apply H3].
  - destruct (IH (run_source_instance x :: seen)) as (H1 & H2 & H3). split; [|split].
    + simpl. constructor; [|done]. rewrite list_elem_of_fmap. intros (r & E & Hr).
      destruct (H2 r Hr) as (_ & Hns & _). apply Hns. rewrite E. left.
    + intros r [->|Hr]%elem_of_cons.
      * split; [left|]. split; [done|]. intros r' [->|Hr']%elem_of_cons E; [by destruct (newest_leb_total x x)|].
        specialize (Hx r' Hr'). unfold lebR, source_newest_leb in Hx. by rewrite bool_decide_true in Hx.
      * destruct (H2 r Hr) as (Hin & Hns & Hnew). split; [by right|]. split; [set_solver|].
        intros r' [->|Hr']%elem_of_cons E; [|by apply Hnew]. exfalso. apply Hns. rewrite E. left.
    + intros r' Hr' Hns. destruct (decide (run_source_instance r' = run_source_instance x)) as [E|E].
      * exists x. split; [left|done].
      * apply elem_of_cons in Hr' as [->|Hr']; [done|]. destruct (H3 r' Hr') as (r & Hr & Er); [set_solver|].
        exists r. split; [by right|done].
Qed.

(** [latest_by_source] returns exactly one run of each source that has a
    matching run, and that run is its newest matching one; the scheduler's
    lookups by source are therefore lookups of the latest run. *)
Theorem latest_by_source_newest s trigger status rows :
  runs_keyed s → latest_by_source trigger status s = (Ok rows, s) →
  ∃ t st, parse_given parse_trigger trigger = Ok t ∧ parse_given parse_status status = Ok st ∧
    NoDup (run_source_instance <$> rows) ∧
    (∀ r, r ∈ rows → sync_runs s !! run_id r = Some r ∧ run_matches None None t st r = true ∧
       ∀ k r', sync_runs s !! k = Some r' → run_matches None None t st r' = true →
         run_source_instance r' = run_source_instance r → newest_leb r r' = true) ∧
    (∀ k r', sync_runs s !! k = Some r' → run_matches None None t st r' = true →
       ∃ r, r ∈ rows ∧ run_source_instance r = run_source_instance r').
Proof.
  intros Hs H. unfold latest_by_source in H.
  apply bind_Ok in H as (t & s1 & [Ht ->]%lift_Ok & H). apply bind_Ok in H as (st & s1 & [Hst ->]%lift_Ok & H).
  apply gets_Ok in H as [-> _]. exists t, st. split; [done|]. split; [done|].
  set (rows := isort source_newest_leb _).
  assert (∀ r, r ∈ rows ↔ sync_runs s !! run_id r = Some r ∧ run_matches None None t st r = true) as Hrows.
  { intros r. unfold rows. rewrite elem_of_isort, list_elem_of_filter, elem_of_all_runs by done. tauto. }
  destruct (distinct_sources_spec [] rows) as (H1 & H2 & H3).
  { apply isort_StronglySorted; [apply source_newest_leb_total | apply source_newest_leb_trans]. }
  split; [done|]. split.
  - intros r Hr. destruct (H2 r Hr) as (Hin%Hrows & _ & Hnew). split_and!; [tauto..|].
    intros k r' Hk Hm E. apply Hnew; [|done]. apply Hrows. by rewrite (Hs _ _ Hk).
  - intros k r' Hk Hm. apply H3; [|apply not_elem_of_nil]. apply Hrows. by rewrite (Hs _ _ Hk).
Qed.

Lemma latest_by_source_newest_witness : ∃ r,
  latest_by_source (Some "scheduled") None sample_two = (Ok [r], sample_two) ∧ sync_runs sample_two !! run_id r = Some r.
Proof.
  assert (∃ r, latest_by_source (Some "scheduled") None sample_two = (Ok [r], sample_two)) as [r Hr]
    by (eexists; vm_compute; reflexivity).
  destruct (latest_by_source_newest _ _ _ _ sample_two_keyed Hr) as (t & st & _ & _ & _ & H & _).
  exists r. split; [exact Hr|]. apply (H r). left.
Defined.

(** *** Counting *)

Definition count_of (name : string) (c : ActionCounts) : Z :=
  default 0%Z (assoc name
    [("CREATE", count_create c); ("UPDATE", count_update c); ("NO_CHANGE", count_no_change c);
     ("REVIEW_REQUIRED", count_review_required c); ("BLOCKED", count_blocked c); ("IGNORED", count_ignored c);
     ("UNSUPPORTED", count_unsupported c); ("RETAIN_ONLY", count_retain_only c)]).

Definition hashable (v : pyval) : bool := match v with PList _ | PDict _ => false | _ => true end.

Definition occurrences (name : string) (items : list plan_item) : Z :=
  Z.of_nat (length (filter (λ i, item_action i = PStr name) items)).

Lemma count_of_action name a c :
  name ∈ ACTION_NAMES → a ∈ ACTION_NAMES →
  count_of name (count_action a c) = (count_of name c + if bool_decide (a = name) then 1 else 0)%Z.
Proof.
  unfold ACTION_NAMES. rewrite !elem_of_cons, elem_of_nil. intros Hn Ha.
  repeat destruct Hn as [->|Hn]; try done; repeat destruct Ha as [->|Ha]; try done; cbn; lia.
Qed.

Lemma count_items_spec items c :
  (forallb (λ i, hashable (item_action i)) items = true → ∃ c', count_items items c = Ok c' ∧
    ∀ name, name ∈ ACTION_NAMES → count_of name c' = (count_of name c + occurrences name items)%Z) ∧
  (forallb (λ i, hashable (item_action i)) items = false → count_items items c = Err (TypeError "unhashable type")).
Proof.
  unfold occurrences. revert c. induction items as [|i items IH]; intros c; simpl.
  { split; [|done]. intros _. exists c. split; [done|]. intros. cbn. lia. }
  assert (∀ name, item_action i ≠ PStr name →
    filter (λ i, item_action i = PStr name) (i :: items) = filter (λ i, item_action i = PStr name) items) as Hskip
    by (intros; by rewrite filter_cons, decide_False).
  assert (∀ c, (∀ name, name ∈ ACTION_NAMES → item_action i ≠ PStr name) →
    (forallb (λ i, hashable (item_action i)) items = true → ∃ c', count_items items c = Ok c' ∧
      ∀ name, name ∈ ACTION_NAMES → count_of name c' = (count_of name c +
        Z.of_nat (length (filter (λ i, item_action i = PStr name) (i :: items))))%Z)) as Hother.
  { intros c0 Hne Hh. destruct (proj1 (IH c0) Hh) as (c' & Hc & Hn). exists c'. split; [done|].
    intros. rewrite Hskip by auto. auto. }
  destruct (item_action i) as [| | |a| |] eqn:Ea; simpl; try (by split);
    try (split; [apply Hother; congruence | apply IH]).
  case_bool_decide as Hin.
  - destruct (IH (count_action a c)) as [IH1 IH2]. split; [|done]. intros Hh.
    destruct (IH1 Hh) as (c' & Hc & Hn). exists c'. split; [done|]. intros name Hname.
    rewrite Hn, count_of_action, filter_cons, Ea by done. case_bool_decide; case_decide; simplify_eq; simpl; lia.
  - split; [|apply IH]. apply Hother. intros name Hname [= ->]. done.
Qed.

(** The persisted counters are the plan's: each counter is the number of
    items with that action, items with an unknown action count nowhere, and the
    only failure is an action that cannot be a dictionary key. *)
Theorem from_items_counts items :
  (forallb (λ i, hashable (item_action i)) items = true → ∃ c, from_items items = Ok c ∧
    ∀ name, name ∈ ACTION_NAMES → count_of name c = occurrences name items) ∧
  (forallb (λ i, hashable (item_action i)) items = false → from_items items = Err (TypeError "unhashable type")).
Proof.
  destruct (count_items_spec items no_counts) as [H1 H2]. split; [|done]. intros Hh.
  destruct (H1 Hh) as (c & Hc & Hn). exists c. split; [done|]. intros name Hname. rewrite Hn by done.
  unfold ACTION_NAMES in Hname. rewrite !elem_of_cons, elem_of_nil in Hname.
  by repeat destruct Hname as [->|Hname].
Qed.

Lemma from_items_counts_witness : ∃ c,
  from_items [ItemTyped (Some "CREATE"); ItemDict [("action", PStr "UPDATE")]; ItemTyped (Some "CREATE")] = Ok c ∧
  count_of "CREATE" c = 2%Z.
Proof.
  destruct (from_items_counts [ItemTyped (Some "CREATE"); ItemDict [("action", PStr "UPDATE")]; ItemTyped (Some "CREATE")])
    as [H _].
  destruct (H eq_refl) as (c & Hc & Hn). exists c. split; [exact Hc|]. rewrite Hn; [vm_compute; reflexivity|].
  unfold ACTION_NAMES. left.
Defined.
