(* ===== verification/Scheduling.v ===== *)
(** * Scheduling policy (netbox_sync/application/scheduling.py)

    The cadence policy shared by the scheduler and the diagnostics. Instants are
    microseconds, so that [total_seconds()] is compared with a number of seconds
    exactly. *)

From S2P Require Import Prelude PyValue Calendar SourceConfig Schema.
From stdpp Require Import base list strings gmap pretty.
From Stdlib Require Import ZArith Lia.
Local Open Scope string_scope.
Local Open Scope Z_scope.

Definition MIN_SYNC_INTERVAL : Z := 60.
Definition MAX_SYNC_INTERVAL : Z := 86400.

(** [int(value)] on a JSON value; [None] is TypeError or ValueError. *)
Definition int_of (v : pyval) : option Z :=
  match v with
  | PInt z => Some z
  | PBool b => Some (if b then 1 else 0)
  | PStr s => py_int s
  | _ => None
  end.

Definition stale_threshold (value : pyval) : Z :=
  match int_of value with
  | Some parsed => if (300 <=? parsed) && (parsed <=? 604800) then parsed else 7200
  | None => 7200
  end.

Inductive SchedulerState := DISABLED | WAITING | DUE | IN_PROGRESS | DELAYED.
Inductive ScheduleEvaluationStatus := EVAL_OK | EVAL_FAILED.

#[global] Instance SchedulerState_eq_dec : EqDecision SchedulerState.
Proof. solve_decision. Defined.
#[global] Instance ScheduleEvaluationStatus_eq_dec : EqDecision ScheduleEvaluationStatus.
Proof. solve_decision. Defined.

(** A validated configuration, or a conversion failure. *)
Record SchedulerSourceInput := mkInput { input_config : option SourceConfig }.

Record ScheduleDecision := mkDecision {
  dec_source_instance : option string;
  dec_state : option SchedulerState;
  dec_last_scheduled_run_at : option Z;
  dec_next_expected_at : option Z;
  dec_evaluation_status : ScheduleEvaluationStatus;
  dec_error_code : option string }.

Definition eligible (d : ScheduleDecision) : bool :=
  bool_decide (dec_evaluation_status d = EVAL_OK) &&
  bool_decide (dec_state d ∈ [Some DUE; Some DELAYED]).

Definition failed_decision (source_instance : option string) : ScheduleDecision :=
  mkDecision source_instance None None None EVAL_FAILED (Some "SCHEDULE_EVALUATION_FAILED").

Definition decided (source : SourceConfig) (state : SchedulerState) (reference next_expected : option Z) :
    ScheduleDecision :=
  mkDecision (Some (cfg_source_instance source)) (Some state) reference next_expected EVAL_OK None.

Definition validate_interval (value : pyval) (current : bool) : result exn Z :=
  let maximum := if current then 2147483647 else MAX_SYNC_INTERVAL in
  match value with
  | PInt z =>
      if ((if current then 1 else MIN_SYNC_INTERVAL) <=? z) && (z <=? maximum) then Ok z
      else Err (ValueError "invalid synchronization interval")
  | _ => Err (ValueError "invalid synchronization interval")
  end.

Section Evaluate.
Context `{MoscowZone}.

(** The instant the policy waits for. *)
Definition next_expected_at (source : SourceConfig) (reference : option Z) (now : Z) : result exn Z :=
  match cfg_sync_calendar source with
  | PNone =>
      Ok (match reference with
          | Some r => r + cfg_sync_interval_seconds source * US_SECOND
          | None => now
          end)
  | calendar =>
      let anchor := default now (cfg_schedule_changed_at source) in
      next_slot calendar (Aware (match reference with Some r => Z.max r anchor | None => anchor end))
  end.

Definition evaluate_schedule (source : SourceConfig) (latest_scheduled latest_running : option SyncRun)
    (now stale_seconds : Z) : result exn ScheduleDecision :=
  let reference := run_started_at <$> latest_scheduled in
  if negb (cfg_enabled source) || negb (cfg_sync_enabled source) then Ok (decided source DISABLED reference None)
  else
    next_expected ← next_expected_at source reference now;
    let running :=
      match latest_running with
      | Some r => now - run_started_at r <=? stale_seconds * US_SECOND
      | None => false
      end in
    if running then Ok (decided source IN_PROGRESS reference (Some next_expected))
    else
      let state :=
        if now <? next_expected then WAITING
        else
          match reference with
          | None => DUE
          | Some r =>
              if now =? next_expected then DUE
              else
                let delayed_after := Z.max (cfg_sync_interval_seconds source * 2) 1800 in
                if delayed_after * US_SECOND <? now - r then DELAYED else DUE
          end in
      Ok (decided source state reference (Some next_expected)).

(** ** What makes a source eligible *)

(** The policy in one sentence: a source is run exactly when it is enabled
    and scheduled, its next expected instant is known and not in the future, and
    no scheduled run that is still RUNNING started within the stale threshold. *)
Theorem eligible_iff source latest running now stale d :
  evaluate_schedule source latest running now stale = Ok d →
  eligible d = true ↔
    cfg_enabled source = true ∧ cfg_sync_enabled source = true ∧
    (∃ t, next_expected_at source (run_started_at <$> latest) now = Ok t ∧ t ≤ now) ∧
    (∀ r, running = Some r → stale * US_SECOND < now - run_started_at r).
Proof.
  unfold evaluate_schedule. intros Hd.
  destruct (cfg_enabled source), (cfg_sync_enabled source); simpl in Hd;
    try (injection Hd as <-; cbn; split; [done|intros (?&?&?); done]).
  apply result_bind_Ok in Hd as (t & Ht & Hd).
  set (busy := match running with Some _ => _ | None => false end) in Hd.
  assert (busy = false ↔ ∀ r, running = Some r → stale * US_SECOND < now - run_started_at r) as Hbusy.
  { subst busy. destruct running as [r|]; [|naive_solver]. rewrite Z.leb_gt. naive_solver. }
  rewrite <-Hbusy. destruct busy; injection Hd as <-.
  { split; [done|]. by intros (_ & _ & _ & ?). }
  destruct (Z.ltb_spec now t) as [Hlt|Hge].
  { split; [done|]. intros (_ & _ & (t' & Ht' & ?) & _). assert (t' = t) by congruence. lia. }
  split; [|by intros; repeat case_match]. intros _. split_and!; eauto.
Qed.
End Evaluate.

Lemma eligible_iff_witness :
  let late := mkRun 1 "pve-a" "proxmox" SCHEDULED 0 (Some 5) (Some 0) SUCCEEDED None None (mkCounts 0 0 0 0 0 0 0 0) None None "s" in
  eligible (decided sample_config DELAYED (Some 0) (Some (600 * US_SECOND))) = true ∧ cfg_sync_enabled sample_config = true ∧
  @evaluate_schedule fixed_msk sample_config (Some late) None (2000 * US_SECOND) 7200 =
    Ok (decided sample_config DELAYED (Some 0) (Some (600 * US_SECOND))).
Proof.
  cbv zeta. set (late := mkRun _ _ _ _ _ _ _ _ _ _ _ _ _ _).
  assert (@evaluate_schedule fixed_msk sample_config (Some late) None (2000 * US_SECOND) 7200 =
    Ok (decided sample_config DELAYED (Some 0) (Some (600 * US_SECOND)))) as E by (vm_compute; reflexivity).
  destruct (@eligible_iff fixed_msk _ _ _ _ _ _ E) as [H1 H2]. split; [|split].
  - vm_compute. reflexivity.
  - apply H1. vm_compute. reflexivity.
  - exact E.
Defined.

(** The cadence of an interval source: after a scheduled run started at an
    instant, the source waits until one interval has passed and is eligible
    from then on (unless that run is still in progress). *)
Theorem interval_cadence `{MoscowZone} source run now stale :
  cfg_enabled source = true → cfg_sync_enabled source = true → cfg_sync_calendar source = PNone →
  0 < cfg_sync_interval_seconds source →
  ∃ d, evaluate_schedule source (Some run) None now stale = Ok d ∧
    (eligible d = true ↔ run_started_at run + cfg_sync_interval_seconds source * US_SECOND ≤ now) ∧
    (eligible d = false → dec_state d = Some WAITING) ∧
    (dec_state d = Some DELAYED → Z.max (cfg_sync_interval_seconds source * 2) 1800 * US_SECOND < now - run_started_at run).
Proof.
  intros He Hs Hc Hi. unfold evaluate_schedule, next_expected_at. rewrite He, Hs, Hc. cbn [negb orb fmap option_fmap option_map].
  eexists. split; [reflexivity|]. cbn.
  destruct (Z.ltb_spec now (run_started_at run + cfg_sync_interval_seconds source * US_SECOND)); cbn.
  { split; [|done]. split; [done|lia]. }
  destruct (Z.eqb_spec now (run_started_at run + cfg_sync_interval_seconds source * US_SECOND)); cbn.
  { split; [|done]. split; [lia|done]. }
  destruct (Z.ltb_spec (Z.max (cfg_sync_interval_seconds source * 2) 1800 * US_SECOND) (now - run_started_at run)); cbn.
  all: split; [split; [lia|done]|done].
Qed.

Lemma interval_cadence_witness : ∃ d,
  @evaluate_schedule fixed_msk sample_config
    (Some (mkRun 1 "pve-a" "proxmox" SCHEDULED 0 (Some 5) (Some 0) SUCCEEDED None None (mkCounts 0 0 0 0 0 0 0 0) None None "s"))
    None (599 * US_SECOND) 7200 = Ok d ∧ dec_state d = Some WAITING.
Proof.
  destruct (@interval_cadence fixed_msk sample_config
    (mkRun 1 "pve-a" "proxmox" SCHEDULED 0 (Some 5) (Some 0) SUCCEEDED None None (mkCounts 0 0 0 0 0 0 0 0) None None "s")
    (599 * US_SECOND) 7200 eq_refl eq_refl eq_refl) as (d & Hd & H1 & H2 & _); [vm_compute; reflexivity|].
  exists d. split; [exact Hd|]. apply H2. apply not_true_iff_false. intros E.
  apply H1 in E. vm_compute in E. apply E. reflexivity.
Defined.
