(* ===== verification/Orchestrator.v ===== *)
(** * Orchestration and the scheduler tick (netbox_sync/orchestrator.py,
    netbox_sync/scheduled_failure.py, netbox_sync/scheduler_runtime.py)

    Sources run one after another, each with its own run record and failure
    evidence. What executes a source is the parameter [execute_source]: a
    computation on the database and on the evidence object of its run, which it
    may mark and which may raise anything. KeyboardInterrupt, which nothing here
    catches, is the end of the process and not a value of [exn]. *)

From S2P Require Import Prelude PyValue Calendar SourceConfig Schema RunHistory Scheduling.
From stdpp Require Import base list strings gmap sorting pretty.
From Stdlib Require Import ZArith Lia.
Local Open Scope string_scope.

(** ** Failure evidence (scheduled_failure.py) *)

Definition STAGES : list string := ["dispatch"; "credentials"; "provider"; "netbox"; "legacy_read"; "planning"; "apply"].

(** A plan, as far as its evidence is read: digest and planner version. *)
Record plan_ref := mkPlanRef { plan_digest_of : option string; planner_version_of : option string }.

Record ExecutionEvidence := mkEvidence {
  ev_stage : string;
  ev_plan : option plan_ref;
  ev_writes_possible : bool;
  ev_run_id : option N }.

(** The evidence [begin] installs. *)
Definition begin (run : option N) : ExecutionEvidence := mkEvidence "dispatch" None false run.

(** [mark] on the evidence of the current context, if there is one. *)
Definition mark (stage : string) (plan : option plan_ref) (current : option ExecutionEvidence) :
    result exn (option ExecutionEvidence) :=
  if negb (bool_decide (stage ∈ STAGES)) then Err (ValueError "Unknown scheduled stage")
  else Ok (match current with
           | None => None
           | Some ev =>
               Some (mkEvidence stage (match plan with Some p => Some p | None => ev_plan ev end)
                       (if bool_decide (stage = "apply") then true else ev_writes_possible ev) (ev_run_id ev))
           end).

Definition current_run_id (current : option ExecutionEvidence) : option N := current ≫= ev_run_id.

(** [type(exc).__name__] and [getattr(exc, "code", None)]. *)
Definition exn_class (e : exn) : string :=
  match e with
  | ValueError _ => "ValueError" | TypeError _ => "TypeError" | KeyError _ => "KeyError"
  | RuntimeError _ => "RuntimeError" | LifecycleError _ => "LifecycleError" | OperationError _ _ => "OperationError"
  | ConfirmationError _ => "ConfirmationError" | ManualSyncError _ => "ManualSyncError"
  | ControlError _ => "ControlError" | DatabaseError _ => "DatabaseError"
  | HostRegistrationConflict _ _ _ _ => "HostRegistrationConflict" | OtherException c _ => c
  end.
Definition exn_code (e : exn) : option string :=
  match e with
  | LifecycleError c | OperationError c _ | ConfirmationError c | ManualSyncError c | ControlError c
  | HostRegistrationConflict c _ _ _ => Some c
  | OtherException _ c => c
  | ValueError _ | TypeError _ | KeyError _ | RuntimeError _ | DatabaseError _ => None
  end.

(** The line [emit] prints, without the traceback frames and the HTTP and guard
    details, which come from the exception object. *)
Record failure_record := mkFailure {
  fail_run_id : option N; fail_stage : string; fail_exception_class : string; fail_write_outcome : string }.

(** [re.fullmatch("[A-Za-z_][A-Za-z0-9_.]{0,100}", name)]. *)
Definition class_name_ok (name : string) : bool :=
  match name with
  | String c rest =>
      (is_upper c || is_lower c || one_of "_" c) &&
      all_chars (λ c, is_upper c || is_lower c || is_digit c || one_of "_." c) rest && Nat.leb (String.length rest) 100
  | EmptyString => false
  end.

Definition record (exc : exn) (evidence : ExecutionEvidence) (run : option N) : failure_record :=
  mkFailure run (ev_stage evidence) (if class_name_ok (exn_class exc) then exn_class exc else "Exception")
    (if ev_writes_possible evidence then "MAY_HAVE_WRITTEN" else "NOT_STARTED").

(** ** One source *)

Inductive HistoryStatus := NOT_REQUESTED | RECORDED | START_FAILED | FINALIZE_FAILED.
#[global] Instance HistoryStatus_eq_dec : EqDecision HistoryStatus.
Proof. solve_decision. Defined.

Definition HISTORY_UNAVAILABLE : string := "RUN_HISTORY_UNAVAILABLE".
Definition SourceReconciliationRequired : exn :=
  OtherException "SourceReconciliationRequired" (Some "SOURCE_RECONCILIATION_REQUIRED").

Record SourceRunResult := mkResult {
  res_source_id : string;
  res_source_instance : string;
  res_source_type : string;
  res_success : bool;
  res_started_at : Z;
  res_finished_at : Z;
  res_error_type : option string;
  res_error_summary : option string;
  res_history_status : HistoryStatus;
  res_history_error_code : option string }.

(** What an executor returns, as far as it is read. *)
Record execution := mkExecution { exec_items : list plan_item; exec_plan : plan_ref }.

(** The state of the orchestrator: the database and the lines on stderr. *)
Record world := mkWorld { w_db : db; w_stderr : list failure_record }.

Definition on_db {A} (m : DB A) : M world exn A := λ w,
  let '(r, s) := m (w_db w) in (r, mkWorld s (w_stderr w)).
Definition emit (exc : exn) (evidence : ExecutionEvidence) (run : option N) : M world exn unit :=
  modify (λ w, mkWorld (w_db w) (w_stderr w ++ [record exc evidence run])).

(** The code recorded for an exception. *)
Definition recorded_code (exc : exn) (evidence : ExecutionEvidence) : string :=
  let code := safe_error_code (exn_code exc) in
  if bool_decide (code = "APPLY_FAILED") && ev_writes_possible evidence then "OUTCOME_UNCERTAIN"
  else if bool_decide (code = "APPLY_FAILED") && bool_decide (ev_stage evidence = "planning") then "FAILED_BEFORE_WRITE"
  else code.

Definition history_error (h : HistoryStatus) : option string :=
  if bool_decide (h = FINALIZE_FAILED) then Some HISTORY_UNAVAILABLE else None.

Section RunSources.
Context (execute_source : SourceConfig → M (db * ExecutionEvidence) exn execution).

(** The [try] body of [_run_source]: the outcome, with the evidence as the
    execution left it. *)
Definition attempt (source : SourceConfig) (has_repository : bool) (run : option N) :
    M world exn (result exn execution * ExecutionEvidence) := λ w,
  let blocked :=
    if has_repository then scheduled_reconciliation_required (cfg_source_instance source) (w_db w)
    else (Ok false, w_db w) in
  match blocked with
  | (Err e, s) => (Ok (Err e, begin run), mkWorld s (w_stderr w))
  | (Ok true, s) => (Ok (Err SourceReconciliationRequired, begin run), mkWorld s (w_stderr w))
  | (Ok false, s) =>
      let '(r, (s', ev)) := execute_source source (s, begin run) in (Ok (r, ev), mkWorld s' (w_stderr w))
  end.

(** Records a terminal outcome; a failure to do so is only reported. *)
Definition finalize (run : option N) (history_status : HistoryStatus) (finish : N → DB SyncRun) : M world exn HistoryStatus :=
  match run with
  | None => mret history_status
  | Some id => catch (on_db (finish id);; mret history_status) (λ _, mret FINALIZE_FAILED)
  end.

(** The run record, opened before anything else: [None] when that fails. *)
Definition open_run (source : SourceConfig) (has_repository : bool) :
    M world exn (option (option N * HistoryStatus)) :=
  if has_repository then
    catch (r ← on_db (start_run (cfg_source_instance source) (cfg_source_type source) SCHEDULED "system/scheduler"
                        None None None);
           mret (Some (Some (run_id r), RECORDED)))
          (λ _, mret None)
  else mret (Some (None, NOT_REQUESTED)).

(** The rest of [_run_source], from the diagnostic context on. *)
Definition run_opened (source : SourceConfig) (has_repository : bool) (started_at : Z) (run : option N)
    (history_status : HistoryStatus) : M world exn SourceRunResult :=
  '(outcome, evidence) ← attempt source has_repository run;
  match outcome with
  | Err exc =>
      emit exc evidence run;;
      let code := recorded_code exc evidence in
      history_status ← finalize run history_status (λ id,
        finish_run id (terminal_status code) None (ev_plan evidence ≫= plan_digest_of)
          (ev_plan evidence ≫= planner_version_of) (Some code) (Some (safe_error_message code)));
      finished_at ← on_db clock_timestamp;
      mret (mkResult (cfg_id source) (cfg_source_instance source) (cfg_source_type source) false started_at
              finished_at (Some (exn_class exc)) (Some "source execution failed") history_status
              (history_error history_status))
  | Ok ex =>
      history_status ← finalize run history_status (λ id,
        counts ← lift (from_items (exec_items ex));
        finish_run id SUCCEEDED (Some counts) (plan_digest_of (exec_plan ex)) (planner_version_of (exec_plan ex))
          None None);
      finished_at ← on_db clock_timestamp;
      mret (mkResult (cfg_id source) (cfg_source_instance source) (cfg_source_type source) true started_at
              finished_at None None history_status (history_error history_status))
  end.

Definition run_source (source : SourceConfig) (has_repository : bool) : M world exn SourceRunResult :=
  started_at ← on_db clock_timestamp;
  started ← open_run source has_repository;
  match started with
  | None =>
      finished_at ← on_db clock_timestamp;
      mret (mkResult (cfg_id source) (cfg_source_instance source) (cfg_source_type source) false started_at finished_at
              (Some "HistoryPersistenceError")
              (Some "source execution skipped because run history is unavailable") START_FAILED (Some HISTORY_UNAVAILABLE))
  | Some (run, history_status) => run_opened source has_repository started_at run history_status
  end.

Fixpoint run_all (sources : list SourceConfig) (has_repository : bool) : M world exn (list SourceRunResult) :=
  match sources with
  | [] => mret []
  | source :: rest => r ← run_source source has_repository; rs ← run_all rest has_repository; mret (r :: rs)
  end.

Definition config_leb (a b : SourceConfig) : bool := String.leb (cfg_id a) (cfg_id b).

Definition run_sources (sources : list SourceConfig) (has_repository : bool) : M world exn (list SourceRunResult) :=
  run_all (isort config_leb sources) has_repository.
End RunSources.

(** [MultiSourceRunResult]. *)
Definition res_total (results : list SourceRunResult) : nat := length results.
Definition res_succeeded (results : list SourceRunResult) : nat := length (filter (λ r, res_success r = true) results).
Definition res_failed (results : list SourceRunResult) : nat := res_total results - res_succeeded results.
Definition res_history_failures (results : list SourceRunResult) : nat :=
  length (filter (λ r, is_Some (res_history_error_code r)) results).

(** ** The tick (scheduler_runtime.py) *)

Record SchedulerTickResult := mkTick { tick_decisions : list ScheduleDecision; tick_execution : list SourceRunResult }.

Definition tick_count (t : SchedulerTickResult) (state : SchedulerState) : nat :=
  length (filter (λ d, dec_evaluation_status d = EVAL_OK ∧ dec_state d = Some state) (tick_decisions t)).
Definition evaluation_failed (t : SchedulerTickResult) : nat :=
  length (filter (λ d, dec_evaluation_status d = EVAL_FAILED) (tick_decisions t)).
Definition tick_failed (t : SchedulerTickResult) : bool :=
  negb (Nat.eqb (evaluation_failed t) 0) || negb (Nat.eqb (res_failed (tick_execution t)) 0) ||
  negb (Nat.eqb (res_history_failures (tick_execution t)) 0).

Definition scheduler_summary_lines (t : SchedulerTickResult) : list string :=
  let line name (n : nat) := name +:+ "=" +:+ pretty n in
  ["SCHEDULER SUMMARY"; line "sources" (length (tick_decisions t));
   line "due" (tick_count t DUE); line "delayed" (tick_count t DELAYED); line "waiting" (tick_count t WAITING);
   line "running" (tick_count t IN_PROGRESS); line "disabled" (tick_count t DISABLED);
   line "evaluation_failed" (evaluation_failed t); line "executed" (res_total (tick_execution t));
   line "failed" (res_failed (tick_execution t)); line "history_failures" (res_history_failures (tick_execution t))].

(** The dictionaries keyed by source: a later run of the same source would win. *)
Definition by_source (runs : list SyncRun) : gmap string SyncRun :=
  foldl (λ m r, <[run_source_instance r := r]> m) ∅ runs.

Section Tick.
Context `{MoscowZone} (execute_source : SourceConfig → M (db * ExecutionEvidence) exn execution).

Definition evaluate_source (latest running : gmap string SyncRun) (now stale_seconds : Z) (source : SourceConfig) :
    ScheduleDecision :=
  match evaluate_schedule source (latest !! cfg_source_instance source) (running !! cfg_source_instance source) now
          stale_seconds with
  | Ok d => d
  | Err _ => failed_decision (Some (cfg_source_instance source))
  end.

(** [_evaluate_sources]. *)
Fixpoint evaluate_sources (configs : list SourceConfig) (latest running : gmap string SyncRun) (now stale_seconds : Z) :
    list ScheduleDecision * list SourceConfig :=
  match configs with
  | [] => ([], [])
  | source :: rest =>
      let d := evaluate_source latest running now stale_seconds source in
      let '(ds, es) := evaluate_sources rest latest running now stale_seconds in
      (d :: ds, if eligible d then source :: es else es)
  end.

Definition run_scheduler_tick (entries : list SchedulerSourceInput) (stale_seconds : Z) (execute_due : bool) :
    M world exn SchedulerTickResult :=
  now ← on_db clock_timestamp;
  let configs := isort config_leb (omap input_config entries) in
  latest ← on_db (latest_by_source (Some "scheduled") None);
  running ← on_db (latest_by_source (Some "scheduled") (Some "RUNNING"));
  let failures := map (λ _, failed_decision None) (filter (λ e, input_config e = None) entries) in
  let '(evaluated, due) := evaluate_sources configs (by_source latest) (by_source running) now stale_seconds in
  results ← run_sources execute_source (if execute_due then due else []) execute_due;
  mret (mkTick (failures ++ evaluated) results).
End Tick.

(** ** Isolation of sources *)

Definition returns {A} (m : M world exn A) : Prop := ∀ w, ∃ a w', m w = (Ok a, w').

Lemma returns_bind {A B} (m : M world exn A) (k : A → M world exn B) : returns m → (∀ a, returns (k a)) → returns (m ≫= k).
Proof.
  intros Hm Hk w. destruct (Hm w) as (a & w1 & E). destruct (Hk a w1) as (b & w2 & E2). exists b, w2.
  apply bind_Ok. eauto.
Qed.
Lemma returns_ret {A} (a : A) : returns (mret a).
Proof. intros w. by eexists _, _. Qed.
Lemma returns_catch {A} (m : M world exn A) h : (∀ e, returns (h e)) → returns (catch m h).
Proof.
  intros Hh w. unfold catch. destruct (m w) as [[a|e] w1]; [by eexists _, _|]. apply Hh.
Qed.
Lemma returns_clock : returns (on_db clock_timestamp).
Proof. intros w. by eexists _, _. Qed.
Lemma returns_emit e ev run : returns (emit e ev run).
Proof. intros w. by eexists _, _. Qed.
Lemma returns_attempt exec source h run : returns (attempt exec source h run).
Proof.
  intros w. unfold attempt. destruct (if h then _ else _) as [[[]|e] s]; try by eexists _, _.
  destruct (exec source _) as [r [s' ev]]. by eexists _, _.
Qed.
Lemma returns_finalize run h finish : returns (finalize run h finish).
Proof. destruct run; [|apply returns_ret]. apply returns_catch. intros. apply returns_ret. Qed.

Create HintDb returns.
#[local] Hint Resolve returns_ret returns_clock returns_emit returns_attempt returns_finalize : returns.
Local Ltac returns := repeat first
  [ apply returns_bind; [|intros ?] | apply returns_catch; intros ? | progress (auto with returns)
  | match goal with |- returns (match ?x with _ => _ end) => destruct x end ].

Lemma returns_open_run source h : returns (open_run source h).
Proof. unfold open_run. returns. Qed.
Lemma returns_run_opened exec source h t run hs : returns (run_opened exec source h t run hs).
Proof. unfold run_opened. returns. Qed.
#[local] Hint Resolve returns_open_run returns_run_opened : returns.

Lemma open_run_Ok source h w st w' :
  open_run source h w = (Ok st, w') →
  match st with
  | Some (run, hs) => (h = false ∧ run = None ∧ hs = NOT_REQUESTED) ∨ (h = true ∧ hs = RECORDED ∧ is_Some run)
  | None => h = true
  end.
Proof.
  unfold open_run. destruct h; [|intros [-> _]%ret_Ok; by left].
  intros [H|(e & w2 & _ & [-> _]%ret_Ok)]%catch_Ok; [|done].
  apply bind_Ok in H as (run & w2 & _ & [-> _]%ret_Ok). right. eauto.
Qed.

Lemma finalize_Ok run hs f w hs' w' :
  finalize run hs f w = (Ok hs', w') → hs' = hs ∨ (is_Some run ∧ hs' = FINALIZE_FAILED).
Proof.
  destruct run; simpl; [|rewrite ret_Ok; intros [-> _]; by left].
  intros [H|(e & w2 & _ & [-> _]%ret_Ok)]%catch_Ok; [|by right; eauto].
  apply bind_Ok in H as (? & ? & _ & [-> _]%ret_Ok). by left.
Qed.

(** What a result says of its source and of its history, once the run is open. *)
Lemma run_opened_Ok exec source h t run hs w r w' :
  run_opened exec source h t run hs w = (Ok r, w') →
  res_source_id r = cfg_id source ∧ res_source_instance r = cfg_source_instance source ∧
  res_source_type r = cfg_source_type source ∧
  (res_history_status r = hs ∨ (is_Some run ∧ res_history_status r = FINALIZE_FAILED)) ∧
  res_history_error_code r = history_error (res_history_status r).
Proof.
  unfold run_opened. intros E. apply bind_Ok in E as ([outcome ev] & w2 & _ & E). destruct outcome as [ex|exc].
  - apply bind_Ok in E as (hs' & w3 & Hf%finalize_Ok & E). apply bind_Ok in E as (t1 & w4 & _ & [-> _]%ret_Ok). done.
  - apply bind_Ok in E as (? & w3 & _ & E). apply bind_Ok in E as (hs' & w4 & Hf%finalize_Ok & E).
    apply bind_Ok in E as (t1 & w5 & _ & [-> _]%ret_Ok). done.
Qed.

(** A source always yields a result, and that result is about it. *)
Lemma run_source_result exec source h w : ∃ r w',
  run_source exec source h w = (Ok r, w') ∧ res_source_id r = cfg_id source ∧
  res_source_instance r = cfg_source_instance source ∧ res_source_type r = cfg_source_type source ∧
  (res_history_status r = NOT_REQUESTED ↔ h = false) ∧
  (is_Some (res_history_error_code r) ↔ res_history_status r = START_FAILED ∨ res_history_status r = FINALIZE_FAILED).
Proof.
  assert (returns (run_source exec source h)) as Hret by (unfold run_source; returns).
  destruct (Hret w) as (r & w' & E). exists r, w'. split; [done|]. unfold run_source in E.
  apply bind_Ok in E as (t0 & w0 & _ & E). apply bind_Ok in E as (st & w1 & Hst%open_run_Ok & E).
  destruct st as [[run hs]|].
  - apply run_opened_Ok in E as (? & ? & ? & Hh & ->). split_and!; try done.
    + destruct Hst as [(->&->&->)|(->&->&?)], Hh as [->|[? ->]]; naive_solver.
    + unfold history_error. destruct Hst as [(->&->&->)|(->&->&?)], Hh as [->|[? ->]]; naive_solver.
  - apply bind_Ok in E as (t1 & w2 & _ & [-> _]%ret_Ok). simpl. subst h. split_and!; try done; split; eauto; done.
Qed.

Lemma run_all_results exec sources h w : ∃ rs w',
  run_all exec sources h w = (Ok rs, w') ∧
  Forall2 (λ source r, res_source_id r = cfg_id source ∧ res_source_instance r = cfg_source_instance source) sources rs.
Proof.
  revert w. induction sources as [|source sources IH]; intros w; [by eexists [], w|].
  destruct (run_source_result exec source h w) as (r & w1 & E & ? & ? & _). destruct (IH w1) as (rs & w2 & E2 & ?).
  exists (r :: rs), w2. split; [|by constructor]. simpl. apply bind_Ok. exists r, w1. split; [done|].
  apply bind_Ok. exists rs, w2. done.
Qed.

(** Failures are isolated: whatever the executor does or raises for any
    source, [run_sources] returns, with exactly one result per source, in the
    order of the source ids; the totals count every source once. *)
Theorem run_sources_isolates exec sources h w : ∃ rs w',
  run_sources exec sources h w = (Ok rs, w') ∧
  map res_source_id rs = map cfg_id (isort config_leb sources) ∧
  map res_source_id rs ≡ₚ map cfg_id sources ∧
  StronglySorted string_le (map res_source_id rs) ∧
  res_succeeded rs + res_failed rs = length sources.
Proof.
  destruct (run_all_results exec (isort config_leb sources) h w) as (rs & w' & E & Hrs). exists rs, w'.
  assert (map res_source_id rs = map cfg_id (isort config_leb sources)) as Hids.
  { clear E. induction Hrs as [|? ? ? ? [? _] ? IH]; simpl; congruence. }
  split; [exact E|]. split; [done|]. split; [rewrite Hids; by rewrite isort_Permutation|]. split.
  - rewrite Hids. assert (StronglySorted (lebR config_leb) (isort config_leb sources)) as Hs.
    { apply isort_StronglySorted; unfold config_leb; [intros; apply String.leb_total | intros ???; apply string_leb_trans]. }
    revert Hs. generalize (isort config_leb sources). intros l Hs. induction Hs as [|x l' Hl IH Hx]; simpl; [constructor|].
    constructor; [done|]. apply Forall_map. eapply Forall_impl; [exact Hx|done].
  - unfold res_failed, res_total. apply Forall2_length in Hrs. rewrite length_isort in Hrs.
    assert (res_succeeded rs ≤ length rs)%nat by (unfold res_succeeded; apply length_filter). lia.
Qed.

(** ** History before execution *)

(** A run whose record says writes may have happened stops the next one. *)
Definition unresolved_run (s : db) (source : string) : Prop :=
  ∃ k r, blocking_sync_runs s !! k = Some r ∧ run_source_instance r = source ∧ unresolved (run_status r) = true.

Lemma unresolved_required s source :
  unresolved_run s source → scheduled_reconciliation_required source s = (Ok true, s).
Proof.
  intros (k & r & Hk & Hs & Hu). unfold scheduled_reconciliation_required, mbind, M_bind, reconciliation_required, gets.
  rewrite (proj2 (exists_row_true _ _)); [done|]. exists k, r. split; [done|]. by rewrite bool_decide_true, Hu.
Qed.

Lemma unresolved_after_start s source si st tr cb pd pv id run s1 :
  unresolved_run s source → start_run si st tr cb pd pv id s = (Ok run, s1) → unresolved_run s1 source.
Proof.
  intros (k & r & Hk & Hs & Hu) E. exists k, r. split; [|done]. apply lookup_blocking in Hk as [Hk Hr].
  assert (history_grows s s1) as Hg by (pose proof (moves_start_run s si st tr cb pd pv id) as H; unfold moves in H; by rewrite E in H).
  destruct (Hg k r Hk) as (r' & Hk' & _ & Hterm).
  assert (r' = r) as -> by (apply Hterm; destruct (run_status r); done).
  apply lookup_blocking. split; [done|].
  assert (run_reconciliations s1 = run_reconciliations s) as ->; [|done].
  unfold start_run, insert_run, mbind, M_bind, lift, raise_if, uuid4, clock_timestamp, atomic, gets, modify, mret, M_ret in E.
  destruct (validate_source _ _); [|done]. destruct (bool_decide _ || _); [done|]. destruct (negb _); [done|].
  destruct (negb (text_within _ _)); [done|]. destruct id; repeat (destruct (negb _); [done|]); destruct (bool_decide _); try done;
    by injection E as _ <-.
Qed.

Lemma attempt_blocked exec source run w :
  unresolved_run (w_db w) (cfg_source_instance source) →
  attempt exec source true run w = (Ok (Err SourceReconciliationRequired, begin run), w).
Proof. intros Hu. unfold attempt. rewrite unresolved_required by done. by destruct w. Qed.

Lemma open_run_unresolved source w st w' :
  unresolved_run (w_db w) (cfg_source_instance source) → open_run source true w = (Ok st, w') →
  match st with Some _ => unresolved_run (w_db w') (cfg_source_instance source) | None => True end.
Proof.
  intros Hu. unfold open_run. intros [H|(e & w2 & _ & [-> _]%ret_Ok)]%catch_Ok; [|done].
  apply bind_Ok in H as (run & w2 & H & [-> ->]%ret_Ok). unfold on_db in H.
  destruct (start_run _ _ _ _ _ _ _ _) as [res s1] eqn:Es. injection H as -> <-. simpl.
  by eapply unresolved_after_start.
Qed.

Lemma run_opened_blocked exec exec' source t run hs w :
  unresolved_run (w_db w) (cfg_source_instance source) →
  run_opened exec source true t run hs w = run_opened exec' source true t run hs w.
Proof. intros Hu. unfold run_opened, mbind, M_bind. by rewrite !attempt_blocked. Qed.

Lemma run_source_blocked_same exec exec' source w :
  unresolved_run (w_db w) (cfg_source_instance source) →
  run_source exec source true w = run_source exec' source true w.
Proof.
  intros Hu. unfold run_source, mbind, M_bind. change (on_db clock_timestamp w) with
    ((Ok (clock (w_db w) (ticks (w_db w))), mkWorld (on_ticks S (w_db w)) (w_stderr w)) : result exn Z * world).
  cbv beta iota. destruct (open_run source true _) as [[[[run hs]|]|e] w1] eqn:Eo; try done.
  apply run_opened_blocked. by apply open_run_unresolved in Eo.
Qed.

Lemma run_source_blocked exec source w :
  unresolved_run (w_db w) (cfg_source_instance source) →
  ∃ r w', run_source exec source true w = (Ok r, w') ∧ res_success r = false ∧
    (res_error_type r = Some "HistoryPersistenceError" ∨ res_error_type r = Some "SourceReconciliationRequired").
Proof.
  intros Hu. destruct (run_source_result exec source true w) as (r & w' & E & _). exists r, w'. split; [done|].
  unfold run_source in E. apply bind_Ok in E as (t0 & w0 & Ht0 & E). injection Ht0 as <- <-.
  apply bind_Ok in E as (st & w1 & Hst & E). apply open_run_unresolved in Hst; [|exact Hu].
  destruct st as [[run hs]|].
  - unfold run_opened in E. apply bind_Ok in E as ([outcome ev] & w3 & Ha & E). rewrite attempt_blocked in Ha by done.
    injection Ha as <- <- <-. apply bind_Ok in E as (? & w4 & _ & E). apply bind_Ok in E as (? & w5 & _ & E).
    apply bind_Ok in E as (? & w6 & _ & [-> _]%ret_Ok). cbn. eauto.
  - apply bind_Ok in E as (t1 & w2 & _ & [-> _]%ret_Ok). cbn. eauto.
Qed.

(** Nothing is executed without a record, and nothing on top of an
    unresolved outcome: while a source has an unreconciled run that is
    OUTCOME_UNCERTAIN or PARTIALLY_APPLIED, a scheduled run of it with history
    is a failure whose result, database and log do not depend on the executor,
    which is therefore never invoked. *)
Theorem unresolved_outcome_blocks_execution source w exec exec' :
  unresolved_run (w_db w) (cfg_source_instance source) →
  run_source exec source true w = run_source exec' source true w ∧
  ∃ r w', run_source exec source true w = (Ok r, w') ∧ res_success r = false ∧
    (res_error_type r = Some "HistoryPersistenceError" ∨ res_error_type r = Some "SourceReconciliationRequired").
Proof.
  intros Hu. destruct (run_source_blocked exec source w Hu) as (r & w' & E & Hr & He).
  destruct (run_source_blocked exec' source w Hu) as (r2 & w2 & E2 & _).
  split; [|eauto 8]. by apply run_source_blocked_same.
Qed.

Definition blocked_db : db :=
  (finish_run 1 OUTCOME_UNCERTAIN None None None (Some "OUTCOME_UNCERTAIN")
    (Some "The final NetBox state may be uncertain.") sample_started).2.
Definition succeeds : SourceConfig → M (db * ExecutionEvidence) exn execution := λ _, mret (mkExecution [] (mkPlanRef None None)).

Lemma blocked_db_unresolved : unresolved_run blocked_db "pve-a".
Proof. exists 1%N. eexists. split; [vm_compute; reflexivity|]. split; vm_compute; reflexivity. Qed.

Lemma unresolved_outcome_blocks_execution_witness : ∃ r w',
  run_source succeeds sample_config true (mkWorld blocked_db []) = (Ok r, w') ∧ res_success r = false.
Proof.
  destruct (unresolved_outcome_blocks_execution sample_config (mkWorld blocked_db []) succeeds succeeds)
    as (_ & r & w' & E & H & _); [exact blocked_db_unresolved|].
  exists r, w'. split; [exact E | exact H].
Defined.

(** ** What is recorded of a failure *)

(** The exception carries a code of its own that says how the run ended. *)
Definition known_code (e : exn) (code : string) : Prop := exn_code e = Some code ∧ code ∈ ERROR_CODES ∧ code ≠ "APPLY_FAILED".

Definition code_by_stage (ev : ExecutionEvidence) : string :=
  if ev_writes_possible ev then "OUTCOME_UNCERTAIN" else if decide (ev_stage ev = "planning") then "FAILED_BEFORE_WRITE" else "APPLY_FAILED".
Lemma recorded_plain e ev : safe_error_code (exn_code e) = "APPLY_FAILED" → recorded_code e ev = code_by_stage ev.
Proof.
  intros E. unfold recorded_code, code_by_stage. rewrite E, (bool_decide_eq_true_2 ("APPLY_FAILED" = "APPLY_FAILED")) by done. cbn [andb].
  destruct (ev_writes_possible ev); [done|]. case_decide; [by rewrite bool_decide_eq_true_2|by rewrite bool_decide_eq_false_2].
Qed.
Lemma recorded_code_cases e ev :
  known_code e (recorded_code e ev) ∨ (∀ c, ¬ known_code e c) ∧ recorded_code e ev = code_by_stage ev.
Proof.
  destruct (decide (safe_error_code (exn_code e) = "APPLY_FAILED")) as [E|E].
  - right. split; [|by apply recorded_plain]. intros c (Hc & Hl & Hne). apply Hne. rewrite Hc in E. unfold safe_error_code in E.
    rewrite bool_decide_eq_true_2 in E; [done|by apply (safe_code_text_ok c)].
  - left. unfold recorded_code. rewrite bool_decide_eq_false_2 by done. cbn [andb]. pose proof (safe_code_cases (exn_code e)) as Hl.
    unfold known_code. split_and!; [|done|done]. unfold safe_error_code in *. destruct (exn_code e) as [c|]; [|done]. by case_bool_decide.
Qed.
Lemma recorded_code_listed e ev : recorded_code e ev ∈ ERROR_CODES.
Proof.
  destruct (recorded_code_cases e ev) as [(_ & ? & _)|[_ ->]]; [done|]. unfold code_by_stage. destruct (ev_writes_possible ev); [decided|]. case_decide; decided.
Qed.

Lemma finish_run_outcome id status pd pv ec em s :
  match finish_run id status None pd pv ec em s with
  | (Ok row, s') => ∃ r, sync_runs s !! id = Some r ∧ run_status r = RUNNING ∧
      row = finished_row r (clock s (ticks s)) status no_counts pd pv ec em ∧ s' = on_sync_runs (<[id := row]>) (on_ticks S s)
  | (Err _, s') => sync_runs s' = sync_runs s
  end.
Proof.
  unfold finish_run, mbind, M_bind, raise_if, clock_timestamp, lift, atomic, gets, modify, mret, M_ret, raise.
  destruct (bool_decide (status = RUNNING)); [done|]. destruct (negb (counts_nonnegative _)); [done|].
  destruct (negb (digest_given_ok pd)); [done|]. destruct (negb (text_within 128 pv)); [done|]. destruct (error_text_ok ec em); [|done]. cbn.
  destruct (sync_runs s !! id) as [r|]; [|done]. case_bool_decide; [|done]. destruct (negb _); [done|]. by exists r.
Qed.

(** The run of a failure, as the history has it afterwards. *)
Record failure_kept (source : string) (id : N) (code : string) (s s' : db) : Prop := {
  fk_run : ∃ r row, sync_runs s !! id = Some r ∧ run_status r = RUNNING ∧ sync_runs s' = <[id := row]> (sync_runs s) ∧
    run_error_code row = Some code ∧ run_status row = terminal_status code ∧ run_error_message_safe row = Some (safe_error_message code) ∧
    run_source_instance row = run_source_instance r ∧
    (unresolved (terminal_status code) = true → run_source_instance r = source →
     (∀ k a, run_reconciliations s !! k = Some a → k.1 ≠ run_id r) → unresolved_run s' source) }.

Lemma finish_kept source id code pd pv s row s' :
  finish_run id (terminal_status code) None pd pv (Some code) (Some (safe_error_message code)) s = (Ok row, s') → failure_kept source id code s s'.
Proof.
  intros E. pose proof (finish_run_outcome id (terminal_status code) pd pv (Some code) (Some (safe_error_message code)) s) as H. rewrite E in H.
  destruct H as (r & Hr & Hrun & -> & ->). split. eexists r, _. split_and!; [done|done|done|done|done|done|done|].
  intros Hu Hs Hrec. exists id. eexists. split; [apply lookup_blocking; split; [apply lookup_insert_eq|]|split; [exact Hs|exact Hu]].
  apply exists_row_false. intros k a Ha. unfold reconciles. rewrite bool_decide_false; [done|]. apply (Hrec _ _ Ha).
Qed.

(** C35: however the execution of a source fails, its run says so, and a failure after
    writes were possible is never recorded as a plain one. The failure is reported on
    stderr and in the result. The code recorded is the exception's own where it carries
    a known one; otherwise OUTCOME_UNCERTAIN as soon as the executor may have written
    (it marked the apply stage), FAILED_BEFORE_WRITE where it had only planned, and
    APPLY_FAILED else. Either the run is closed with that code, its status and its text,
    and a source whose run ends OUTCOME_UNCERTAIN or PARTIALLY_APPLIED is left with an
    unresolved run, which keeps the next scheduled execution from starting; or closing
    failed, the runs are as the execution left them and the result says that the history
    is incomplete. Closing does not fail on a valid run that is still open when the plan's
    digest and version are well formed. *)
Theorem possible_writes_recorded_uncertain exec source t id w e s' ev :
  scheduled_reconciliation_required (cfg_source_instance source) (w_db w) = (Ok false, w_db w) →
  exec source (w_db w, begin (Some id)) = (Err e, (s', ev)) →
  ∃ res w' code, run_opened exec source true t (Some id) RECORDED w = (Ok res, w') ∧
    res_success res = false ∧ w_stderr w' = (w_stderr w ++ [record e ev (Some id)])%list ∧
    (known_code e code ∨
     (∀ c, ¬ known_code e c) ∧
     code = (if ev_writes_possible ev then "OUTCOME_UNCERTAIN" else if decide (ev_stage ev = "planning") then "FAILED_BEFORE_WRITE" else "APPLY_FAILED")) ∧
    (res_history_status res = RECORDED ∧ failure_kept (cfg_source_instance source) id code s' (w_db w') ∨
     res_history_status res = FINALIZE_FAILED ∧ res_history_error_code res = Some HISTORY_UNAVAILABLE ∧ sync_runs (w_db w') = sync_runs s') ∧
    (∀ r, sync_runs s' !! id = Some r → run_status r = RUNNING → run_row_ok r = true →
       digest_given_ok (ev_plan ev ≫= plan_digest_of) = true → text_within 128 (ev_plan ev ≫= planner_version_of) = true →
       res_history_status res = RECORDED).
Proof.
  intros Hgate Hexec.
  assert (attempt exec source true (Some id) w = (Ok (Err e, ev), mkWorld s' (w_stderr w))) as Hatt.
  { unfold attempt. rewrite Hgate. cbv beta iota. by rewrite Hexec. }
  unfold run_opened. rewrite (bind_step _ _ _ _ _ Hatt). cbv beta iota.
  erewrite (bind_step (emit _ _ _)) by reflexivity.
  set (code := recorded_code e ev). pose proof (recorded_code_listed e ev) as Hl. fold code in Hl.
  generalize (ev_plan ev ≫= plan_digest_of) (ev_plan ev ≫= planner_version_of). intros pd pv.
  destruct (finish_run id (terminal_status code) None pd pv (Some code) (Some (safe_error_message code)) s') as [[row|err] s2] eqn:Hfin.
  - erewrite bind_step.
    2:{ unfold finalize, catch. erewrite bind_step; [reflexivity|]. unfold on_db. cbn [w_db]. by rewrite Hfin. }
    do 2 eexists. exists code. split; [reflexivity|]. cbn [res_success res_history_status w_stderr w_db]. split_and!; [done|done|apply recorded_code_cases| |done].
    left. split; [done|]. apply (finish_kept (cfg_source_instance source)) in Hfin as [Hf]. by split.
  - erewrite bind_step.
    2:{ unfold finalize, catch, mbind, M_bind, on_db. cbn [w_db]. by rewrite Hfin. }
    do 2 eexists. exists code. split; [reflexivity|]. cbn [res_success res_history_status w_stderr w_db]. split_and!; [done|done|apply recorded_code_cases| |].
    + right. split_and!; [done|done|]. pose proof (finish_run_outcome id (terminal_status code) pd pv (Some code) (Some (safe_error_message code)) s') as H. by rewrite Hfin in H.
    + intros r Hr Hrun Hok Hd Hv. exfalso. destruct (safe_code_text_ok code Hl) as (Hs & Htxt & Hst).
      rewrite (finish_run_Ok s' id r) in Hfin; try done.
      * unfold error_text_ok. rewrite bool_decide_true by done. cbn [negb]. by rewrite bool_decide_true.
      * apply run_row_ok_finished; try done. by rewrite bool_decide_true by done.
Qed.

Definition half_done : SourceConfig → M (db * ExecutionEvidence) exn execution := λ _ '(s, ev),
  (Err (RuntimeError "connection reset"), (s, mkEvidence "apply" (ev_plan ev) true (ev_run_id ev))).

(** Two failures after writes were possible: one without a code, and one that says it is partial. *)
Definition stopped : SourceConfig → M (db * ExecutionEvidence) exn execution := λ _ '(s, ev),
  (Err (OtherException "ApplyError" (Some "PARTIALLY_APPLIED")), (s, mkEvidence "apply" (ev_plan ev) true (ev_run_id ev))).
Lemma half_done_unresolved :
  unresolved_run (w_db (run_opened half_done sample_config true 0 (Some 1%N) RECORDED (mkWorld sample_started [])).2) "pve-a" ∧
  unresolved_run (w_db (run_opened stopped sample_config true 0 (Some 1%N) RECORDED (mkWorld sample_started [])).2) "pve-a".
Proof. split; (exists 1%N; eexists; split; [vm_compute; reflexivity|]; split; vm_compute; reflexivity). Qed.

Lemma possible_writes_recorded_uncertain_witness : ∃ res w' code,
  run_opened half_done sample_config true 0 (Some 1%N) RECORDED (mkWorld sample_started []) = (Ok res, w') ∧
  res_history_status res = RECORDED ∧ failure_kept "pve-a" 1 code sample_started (w_db w').
Proof.
  assert (∃ r, sync_runs sample_started !! 1%N = Some r) as [r Hr] by (eexists; vm_compute; reflexivity).
  edestruct (possible_writes_recorded_uncertain half_done sample_config 0 1 (mkWorld sample_started []))
    as (res & w' & code & H1 & _ & _ & _ & H2 & H3); [vm_compute; reflexivity|reflexivity|].
  assert (res_history_status res = RECORDED) as H4.
  { apply (H3 r Hr); vm_compute in Hr; injection Hr as <-; vm_compute; reflexivity. }
  exists res, w', code. split; [exact H1|]. split; [exact H4|]. destruct H2 as [[_ H2]|[H2 _]]; [exact H2|congruence].
Defined.

(** ** The tick runs exactly the eligible sources *)

Lemma evaluate_sources_spec `{MoscowZone} configs latest running now stale :
  evaluate_sources configs latest running now stale =
  (map (evaluate_source latest running now stale) configs,
   filter (λ c, eligible (evaluate_source latest running now stale c) = true) configs).
Proof.
  induction configs as [|c configs IH]; simpl; [done|]. rewrite IH, filter_cons.
  destruct (eligible _) eqn:E; [by rewrite decide_True by done|by rewrite decide_False by congruence].
Qed.

Lemma StronglySorted_filter {A} (R : relation A) (P : A → Prop) `{∀ x, Decision (P x)} l :
  StronglySorted R l → StronglySorted R (filter P l).
Proof.
  induction 1 as [|x l Hl IH Hx]; [constructor|]. rewrite filter_cons. case_decide; [|done].
  constructor; [done|]. apply Forall_forall. intros y [_ Hy]%list_elem_of_filter. rewrite Forall_forall in Hx. auto.
Qed.

Lemma entries_split entries :
  length (filter (λ e, input_config e = None) entries) + length (omap input_config entries) = length entries.
Proof.
  induction entries as [|e entries IH]; [done|]. rewrite filter_cons.
  change (omap input_config (e :: entries)) with
    (match input_config e with Some c => c :: omap input_config entries | None => omap input_config entries end).
  destruct (input_config e); case_decide; simplify_eq; cbn [length]; lia.
Qed.

(** One tick takes one decision per registry entry (a row that cannot be
    converted, or whose evaluation raises, being its own failed decision) and
    executes, once and in the order of their ids, exactly the sources whose
    decision at the tick's instant is eligible; with [execute_due] off it
    executes nothing. *)
Theorem tick_runs_eligible `{MoscowZone} exec entries stale execute_due w :
  ∃ t w' now latest running,
    run_scheduler_tick exec entries stale execute_due w = (Ok t, w') ∧
    now = clock (w_db w) (ticks (w_db w)) ∧
    latest_by_source (Some "scheduled") None (on_ticks S (w_db w)) = (Ok latest, on_ticks S (w_db w)) ∧
    latest_by_source (Some "scheduled") (Some "RUNNING") (on_ticks S (w_db w)) = (Ok running, on_ticks S (w_db w)) ∧
    length (tick_decisions t) = length entries ∧
    map res_source_id (tick_execution t) =
      (if execute_due then
         map cfg_id (filter (λ c, eligible (evaluate_source (by_source latest) (by_source running) now stale c) = true)
           (isort config_leb (omap input_config entries)))
       else []).
Proof.
  set (s1 := on_ticks S (w_db w)). set (w1 := mkWorld s1 (w_stderr w)).
  assert (∃ l, latest_by_source (Some "scheduled") None s1 = (Ok l, s1)) as [latest Hl] by (by eexists).
  assert (∃ l, latest_by_source (Some "scheduled") (Some "RUNNING") s1 = (Ok l, s1)) as [running Hr] by (by eexists).
  set (now := clock (w_db w) (ticks (w_db w))). set (configs := isort config_leb (omap input_config entries)).
  set (due := filter (λ c, eligible (evaluate_source (by_source latest) (by_source running) now stale c) = true) configs).
  destruct (run_sources_isolates exec (if execute_due then due else []) execute_due w1) as (rs & w' & E & Hids & _).
  exists (mkTick (map (λ _, failed_decision None) (filter (λ e, input_config e = None) entries) ++
    map (evaluate_source (by_source latest) (by_source running) now stale) configs) rs), w', now, latest, running.
  split_and!; try done.
  - unfold run_scheduler_tick. rewrite (bind_step (on_db clock_timestamp) _ w now w1) by done.
    rewrite (bind_step _ _ w1 latest w1) by (unfold on_db; cbn [w_db w1]; by rewrite Hl).
    rewrite (bind_step _ _ w1 running w1) by (unfold on_db; cbn [w_db w1]; by rewrite Hr).
    rewrite evaluate_sources_spec. cbv beta iota zeta. fold configs. fold due. by rewrite (bind_step _ _ _ _ _ E).
  - cbn. rewrite length_app, !length_map. unfold configs. rewrite length_isort. apply entries_split.
  - cbn [tick_execution]. rewrite Hids. destruct execute_due; [|done]. f_equal. apply isort_sorted.
    apply StronglySorted_filter. apply isort_StronglySorted; unfold config_leb;
      [intros; apply String.leb_total | intros ???; apply string_leb_trans].
Qed.
