(* ===== verification/Confirmation.v ===== *)
(** * Confirmed manual runs (netbox_sync/application/confirmation.py,
    netbox_sync/application/manual_sync.py)

    The in-memory store of single-use confirmation capabilities, and the manual
    run that consumes one. SHA-256, the random tokens and the monotonic clock
    are the interpreter's: the hash is a parameter, the tokens and the readings
    of the clock are arbitrary sequences. The source loader, plan builder and
    executor of [ManualSyncService] are its constructor's parameters,
    computations over a state [X] of their own. *)

From S2P Require Import Prelude PyValue SourceConfig.
From stdpp Require Import base list strings gmap pretty.
From Stdlib Require Import ZArith Lia Ascii.
Local Open Scope string_scope.

Record ConfirmationClaims := mkClaims {
  cl_source_instance : string;
  cl_source_id : string;
  cl_plan_digest : string;
  cl_planner_version : string;
  cl_source_fingerprint : string;
  cl_target_fingerprint : string;
  cl_operation_id : option string;
  cl_actor_id : option string }.

(** The fields of a [ConfirmationStore], its clock and the supply of tokens. *)
Record conf_store := mkStore {
  cs_ttl : Z;
  cs_maximum : nat;
  cs_entries : gmap string (ConfirmationClaims * Z);
  cs_clock : nat → Z;
  cs_ticks : nat;
  cs_tokens : nat → string;
  cs_issued : nat }.

Definition with_entries (f : gmap string (ConfirmationClaims * Z) → gmap string (ConfirmationClaims * Z)) (s : conf_store) :=
  mkStore (cs_ttl s) (cs_maximum s) (f (cs_entries s)) (cs_clock s) (cs_ticks s) (cs_tokens s) (cs_issued s).

Definition token_hex : M conf_store exn string := λ s,
  (Ok (cs_tokens s (cs_issued s)),
   mkStore (cs_ttl s) (cs_maximum s) (cs_entries s) (cs_clock s) (cs_ticks s) (cs_tokens s) (S (cs_issued s))).
Definition monotonic : M conf_store exn Z := λ s,
  (Ok (cs_clock s (cs_ticks s)),
   mkStore (cs_ttl s) (cs_maximum s) (cs_entries s) (cs_clock s) (S (cs_ticks s)) (cs_tokens s) (cs_issued s)).

Definition is_ascii_char (c : ascii) : bool := Nat.ltb (nat_of_ascii c) 128.
Definition is_ascii_text (s : string) : bool := all_chars is_ascii_char s.

(** [secrets.compare_digest] on texts. *)
Definition compare_digest (a b : string) : result exn bool :=
  if is_ascii_text a && is_ascii_text b then Ok (bool_decide (a = b))
  else Err (TypeError "comparing strings with non-ASCII characters is not supported").

Section Store.
Context (sha256 : string → string).

(** [_hash]: encoding a token that is not ASCII raises. *)
Definition hash (token : string) : result exn string :=
  if is_ascii_text token then Ok (sha256 token) else Err (OtherException "UnicodeEncodeError" None).

Definition issue (claims : ConfirmationClaims) : M conf_store exn string :=
  token ← token_hex;
  now ← monotonic;
  modify (with_entries (filter (λ kv, (now < kv.2.2)%Z)));;
  full ← gets (λ s, Nat.leb (cs_maximum s) (size (cs_entries s)));
  raise_if full (ConfirmationError "CONFIRMATION_CAPACITY_EXCEEDED");;
  key ← lift (hash token);
  ttl ← gets cs_ttl;
  modify (with_entries (<[key := (claims, (now + ttl)%Z)]>));;
  mret token.

(** [consume] of a text. *)
Definition consume (token source_instance : string) : M conf_store exn ConfirmationClaims :=
  raise_if (negb (Nat.eqb (String.length token) 64)) (ConfirmationError "CONFIRMATION_INVALID");;
  key ← lift (hash token);
  entry ← gets (λ s, cs_entries s !! key);
  modify (with_entries (delete key));;
  '(claims, expires) ← require entry (ConfirmationError "CONFIRMATION_INVALID");
  now ← monotonic;
  raise_if (expires <=? now)%Z (ConfirmationError "CONFIRMATION_EXPIRED");;
  same ← lift (compare_digest (cl_source_instance claims) source_instance);
  raise_if (negb same) (ConfirmationError "CONFIRMATION_SOURCE_MISMATCH");;
  mret claims.

(** ** The store's guarantees *)

Inductive store_step (s : conf_store) : conf_store → Prop :=
| step_issue claims : store_step s (issue claims s).2
| step_consume token source : store_step s (consume token source s).2.

(** The key is absent and no token still to be issued hashes to it. *)
Definition key_retired (key : string) (s : conf_store) : Prop :=
  cs_entries s !! key = None ∧ ∀ n, (cs_issued s ≤ n)%nat → sha256 (cs_tokens s n) ≠ key.

Lemma hash_Ok token key : hash token = Ok key → key = sha256 token.
Proof. unfold hash. case_match; naive_solver. Qed.

(** What one call does to the entries. *)
Definition entries_shrink (s s' : conf_store) : Prop :=
  cs_maximum s' = cs_maximum s ∧ cs_tokens s' = cs_tokens s ∧ (cs_issued s ≤ cs_issued s')%nat ∧
  ∀ k e, cs_entries s' !! k = Some e → cs_entries s !! k = Some e.
#[export] Instance entries_shrink_preorder : PreOrder entries_shrink.
Proof.
  split.
  - intros s. by split_and!.
  - intros s1 s2 s3 (E1 & E2 & L1 & H1) (E3 & E4 & L2 & H2). split_and!; [congruence|congruence|lia|auto].
Qed.

Lemma moves_consume token source s : moves entries_shrink (consume token source) s.
Proof.
  unfold consume. moves; try (by split_and!).
  - split_and!; try done. simpl. intros k e. rewrite lookup_delete_Some. tauto.
  - case_match. moves. by split_and!.
Qed.

(** A successful issue adds one entry to what survives the pruning. *)
Lemma issue_cases claims s r s' :
  issue claims s = (r, s') →
  (entries_shrink s s' ∧ ∃ e, r = Err e) ∨
  (∃ now s1, entries_shrink s s1 ∧ cs_issued s1 = S (cs_issued s) ∧ cs_issued s' = cs_issued s1 ∧
    cs_tokens s' = cs_tokens s ∧ cs_maximum s' = cs_maximum s ∧ (size (cs_entries s1) < cs_maximum s)%nat ∧
    r = Ok (cs_tokens s (cs_issued s)) ∧
    cs_entries s' = <[sha256 (cs_tokens s (cs_issued s)) := (claims, (now + cs_ttl s)%Z)]> (cs_entries s1)).
Proof.
  unfold issue, mbind, M_bind, token_hex, monotonic, modify, gets, raise_if, lift, mret, M_ret.
  set (pruned := with_entries (filter _) _). intros E.
  assert (entries_shrink s pruned) as Hsh.
  { unfold pruned. split_and!; simpl; try done; [lia|]. intros k e. rewrite map_lookup_filter_Some. tauto. }
  destruct (Nat.leb_spec (cs_maximum pruned) (size (cs_entries pruned))); [injection E as <- <-; left; eauto|].
  unfold hash in E. destruct (is_ascii_text _); [|injection E as <- <-; left; eauto].
  injection E as <- <-. right. do 2 eexists. split; [exact Hsh|]. split_and!; done.
Qed.

Lemma store_step_retired key s s' : store_step s s' → key_retired key s → key_retired key s'.
Proof.
  intros Hstep [Hk Hn].
  assert (∀ s1, entries_shrink s s1 → key_retired key s1) as Hshrink.
  { intros s1 (_ & Et & L & Hent). split.
    - apply eq_None_not_Some. intros [e He]. apply Hent in He. congruence.
    - intros n ?. rewrite Et. apply Hn. lia. }
  destruct Hstep as [claims|token source].
  - destruct (issue claims s) as [r s'] eqn:E. destruct (issue_cases _ _ _ _ E) as [[H _]|H]; [by apply Hshrink|].
    destruct H as (now & s1 & H1 & Ei & Ei' & Et & _ & _ & _ & Hent). destruct (Hshrink s1 H1) as [Hk1 _]. split; simpl.
    + rewrite Hent. rewrite lookup_insert_ne; [done|]. apply Hn. lia.
    + intros n ?. rewrite Et. apply Hn. lia.
  - apply Hshrink. apply (moves_consume token source s).
Qed.

Lemma consume_retired token source s :
  key_retired (sha256 token) s → ∃ e, (consume token source s).1 = Err e.
Proof.
  intros [Hk _]. unfold consume, mbind, M_bind, raise_if, lift, gets, modify. destruct (negb _); [eauto|].
  destruct (hash token) as [key|] eqn:E; [|eauto]. apply hash_Ok in E as ->. rewrite Hk. simpl. eauto.
Qed.

Lemma consume_removes token source s key :
  String.length token = 64 → hash token = Ok key → cs_entries (consume token source s).2 !! key = None.
Proof.
  intros Hlen Hh. unfold consume, mbind, M_bind, raise_if, lift, gets, modify, require, monotonic.
  rewrite Hlen, Hh. simpl.
  destruct (cs_entries s !! key) as [[claims exp]|]; simpl; [|by rewrite lookup_delete_eq].
  destruct (exp <=? _)%Z; simpl; [by rewrite lookup_delete_eq|].
  destruct (compare_digest _ _) as [[]|]; simpl; by rewrite lookup_delete_eq.
Qed.

(** A capability is single use: after a token was presented once, with
    whatever source and outcome, no later presentation of it is accepted, for
    any source and whatever is issued and consumed in between, as long as no new
    token has the same hash. *)
Theorem capability_single_use token source source' s s' :
  String.length token = 64 → is_ascii_text token = true →
  (∀ n, (cs_issued s ≤ n)%nat → sha256 (cs_tokens s n) ≠ sha256 token) →
  rtc store_step (consume token source s).2 s' →
  ∃ e, (consume token source' s').1 = Err e.
Proof.
  intros Hlen Hascii Hfresh Hsteps. apply consume_retired.
  assert (key_retired (sha256 token) (consume token source s).2) as Hr.
  { split; [apply consume_removes; [done|]; unfold hash; by rewrite Hascii|].
    destruct (moves_consume token source s) as (_ & Et & L & _). intros n Hn. rewrite Et. apply Hfresh.
    etrans; [exact L|exact Hn]. }
  induction Hsteps as [|x y z Hxy _ IH]; [done|]. apply IH. by eapply store_step_retired.
Qed.

(** The store is bounded: along every sequence of calls it never holds more
    than [maximum] capabilities. *)
Theorem capacity_bounded s s' :
  rtc store_step s s' → (size (cs_entries s) ≤ cs_maximum s)%nat → (size (cs_entries s') ≤ cs_maximum s')%nat.
Proof.
  assert (∀ s s1, entries_shrink s s1 → (size (cs_entries s1) ≤ size (cs_entries s))%nat) as Hsize.
  { intros s0 s1 (_ & _ & _ & Hent). rewrite <-!size_dom. apply subseteq_size. intros k [e He]%elem_of_dom.
    apply elem_of_dom. eauto. }
  induction 1 as [|x y z Hxy _ IH]; [done|]. intros Hx. apply IH. destruct Hxy as [claims|token source].
  - destruct (issue claims x) as [r s1] eqn:E. simpl. destruct (issue_cases _ _ _ _ E) as [[H _]|H].
    + pose proof (Hsize _ _ H) as Hle. destruct H as (Emax & _). rewrite Emax. lia.
    + destruct H as (now & s2 & _ & _ & _ & _ & -> & Hlt & _ & ->). rewrite map_size_insert. case_match; simpl; lia.
  - pose proof (moves_consume token source x) as H. pose proof (Hsize _ _ H) as Hle. destruct H as (Emax & _).
    etrans; [exact Hle|]. etrans; [exact Hx|]. by rewrite Emax.
Qed.
End Store.

Definition sample_claims : ConfirmationClaims := mkClaims "pve-a" "pve-a" "d" "v" "sf" "tf" None None.
Definition pad64 (s : string) : string := "0000000000000000000000000000000000000000000000000000000000000" +:+ s.
Definition sample_token : string := pad64 "000".
Definition sample_store : conf_store :=
  mkStore 300 2 ∅ (λ n, Z.of_nat n) 0 (λ n, match n with O => sample_token | S _ => pad64 "001" end) 0.
Definition sample_issued : conf_store := (issue id sample_claims sample_store).2.

Lemma capability_single_use_witness :
  (consume id sample_token "pve-a" sample_issued).1 = Ok sample_claims ∧
  ∃ e, (consume id sample_token "pve-a" (consume id sample_token "pve-a" sample_issued).2).1 = Err e.
Proof.
  split; [vm_compute; reflexivity|].
  apply (capability_single_use id sample_token "pve-a" "pve-a" sample_issued);
    [vm_compute; reflexivity | vm_compute; reflexivity | | apply rtc_refl].
  intros [|n] Hn; [vm_compute in Hn; lia | vm_compute; discriminate].
Defined.

Lemma capacity_bounded_witness : (size (cs_entries sample_issued) ≤ cs_maximum sample_issued)%nat.
Proof.
  apply (capacity_bounded id sample_store); [eapply rtc_l; [apply step_issue | apply rtc_refl]|].
  vm_compute. lia.
Defined.

(** ** Manual runs *)

Inductive ApplyOutcome := AO_SUCCEEDED | AO_FAILED_BEFORE_WRITE | AO_PARTIALLY_APPLIED | AO_OUTCOME_UNCERTAIN.

Record ApplyResult := mkApplyResult { ar_status : ApplyOutcome; ar_plan_digest : string }.

(** The attributes of a plan that the service reads. *)
Record manual_plan := mkManualPlan {
  mp_apply_allowed : bool;
  mp_digest : string;
  mp_planner_version : string;
  mp_source_fingerprint : string;
  mp_target_fingerprint : string }.

(** The service: its confirmation store and the state of its parameters. The
    trace of executor invocations is kept for the statements below. *)
Record service (X : Type) := mkService {
  sv_store : conf_store;
  sv_state : X;
  sv_invocations : list (SourceConfig * manual_plan) }.
Arguments mkService {X}.
Arguments sv_store {X}.
Arguments sv_state {X}.
Arguments sv_invocations {X}.

Section ManualSync.
Context (sha256 : string → string) {X : Type}.
Context (source_loader : string → M X exn (option SourceConfig)).
Context (plan_builder : SourceConfig → M X exn manual_plan).
Context (executor : SourceConfig → manual_plan → M X exn unit).

Definition on_store {A} (m : M conf_store exn A) : M (service X) exn A := λ s,
  let '(r, st) := m (sv_store s) in (r, mkService st (sv_state s) (sv_invocations s)).
Definition on_state {A} (m : M X exn A) : M (service X) exn A := λ s,
  let '(r, x) := m (sv_state s) in (r, mkService (sv_store s) x (sv_invocations s)).
Definition invoke (source : SourceConfig) (plan : manual_plan) : M (service X) exn unit :=
  modify (λ s, mkService (sv_store s) (sv_state s) (sv_invocations s ++ [(source, plan)]));;
  on_state (executor source plan).

(** [_enabled_source]. *)
Definition enabled_source (source_instance : string) : M (service X) exn SourceConfig :=
  found ← on_state (source_loader source_instance);
  source ← require found (ManualSyncError "SOURCE_NOT_FOUND");
  raise_if (negb (cfg_enabled source)) (ManualSyncError "SOURCE_DISABLED");;
  mret source.

Definition prepare (source_instance expected_digest : string) : M (service X) exn string :=
  source ← enabled_source source_instance;
  plan ← on_state (plan_builder source);
  raise_if (negb (mp_apply_allowed plan)) (ManualSyncError "PLAN_BLOCKED");;
  raise_if (negb (bool_decide (mp_digest plan = expected_digest))) (ManualSyncError "PLAN_STALE");;
  on_store (issue sha256 (mkClaims (cfg_source_instance source) (cfg_id source) (mp_digest plan) (mp_planner_version plan)
    (mp_source_fingerprint plan) (mp_target_fingerprint plan) None None)).

(** The re-planned run is the confirmed one. *)
Definition plan_confirmed (claims : ConfirmationClaims) (source : SourceConfig) (plan : manual_plan) : bool :=
  mp_apply_allowed plan && bool_decide (cfg_id source = cl_source_id claims) &&
  bool_decide (mp_digest plan = cl_plan_digest claims) && bool_decide (mp_planner_version plan = cl_planner_version claims) &&
  bool_decide (mp_source_fingerprint plan = cl_source_fingerprint claims) &&
  bool_decide (mp_target_fingerprint plan = cl_target_fingerprint claims).

(** The first and the last [try] of [apply]. *)
Definition redeem (source_instance token : string) : M (service X) exn ConfirmationClaims :=
  catch (on_store (consume sha256 token source_instance)) (λ e,
    match e with ConfirmationError code => raise (ManualSyncError code) | _ => raise e end).
Definition delegate (source : SourceConfig) (plan : manual_plan) : M (service X) exn unit :=
  catch (invoke source plan) (λ e,
    match e with ManualSyncError _ => raise e | _ => raise (ManualSyncError "OUTCOME_UNCERTAIN") end).

Definition apply (source_instance token : string) : M (service X) exn ApplyResult :=
  claims ← redeem source_instance token;
  source ← enabled_source source_instance;
  plan ← on_state (plan_builder source);
  raise_if (negb (plan_confirmed claims source plan)) (ManualSyncError "PLAN_STALE");;
  delegate source plan;;
  mret (mkApplyResult AO_SUCCEEDED (mp_digest plan)).

(** *** One guarded invocation *)

Lemma consume_Ok token source s claims s' :
  consume sha256 token source s = (Ok claims, s') →
  ∃ expires, cs_entries s !! sha256 token = Some (claims, expires) ∧ cl_source_instance claims = source ∧
    (cs_clock s (cs_ticks s) < expires)%Z ∧ cs_entries s' = delete (sha256 token) (cs_entries s).
Proof.
  unfold consume, mbind, M_bind, raise_if, lift, gets, modify, require, monotonic, mret, M_ret.
  destruct (negb _); [done|]. destruct (hash sha256 token) as [key|] eqn:Hh; [|done]. apply hash_Ok in Hh as ->.
  destruct (cs_entries s !! _) as [[c e]|] eqn:Hk; [|done]. simpl.
  destruct (Z.leb_spec e (cs_clock s (cs_ticks s))); [done|]. unfold compare_digest.
  destruct (is_ascii_text _ && _); [|done]. case_bool_decide; [|done]. intros [= <- <-]. eauto 8.
Qed.

(** Neither a loader nor a planner touches the store or the trace. *)
Definition untouched (s s' : service X) : Prop := sv_invocations s' = sv_invocations s ∧ sv_store s' = sv_store s.

Lemma on_state_untouched {A} (m : M X exn A) s r s' : on_state m s = (r, s') → untouched s s'.
Proof. unfold on_state. destruct (m _). by intros [= _ <-]. Qed.

Lemma redeem_cases source_instance token s r s' :
  redeem source_instance token s = (r, s') →
  sv_invocations s' = sv_invocations s ∧
  (∀ claims, r = Ok claims → cl_source_instance claims = source_instance ∧ cs_entries (sv_store s') !! sha256 token = None ∧
    ∃ expires, cs_entries (sv_store s) !! sha256 token = Some (claims, expires) ∧
      (cs_clock (sv_store s) (cs_ticks (sv_store s)) < expires)%Z).
Proof.
  unfold redeem, catch, on_store. destruct (consume _ _ _ _) as [[claims|e] st] eqn:E.
  - intros [= <- <-]. split; [done|]. intros ? [= <-]. apply consume_Ok in E as (expires & H1 & H2 & H3 & H4). simpl.
    rewrite H4, lookup_delete_eq. eauto 8.
  - intros H. assert (sv_invocations s' = sv_invocations s ∧ ∃ e', r = Err e') as (H1 & e' & ->)
      by (destruct e; injection H as <- <-; eauto). done.
Qed.

Lemma enabled_source_cases source_instance s r s' :
  enabled_source source_instance s = (r, s') → untouched s s' ∧ ∀ source, r = Ok source → cfg_enabled source = true.
Proof.
  unfold enabled_source. intros [(e & H%on_state_untouched & ->)|(found & s1 & H%on_state_untouched & E)]%bind_cases; [done|].
  destruct found as [source|]; [|by injection E as <- <-].
  apply bind_cases in E as [(e & ? & _)|(x & s2 & [-> ->]%ret_Ok & E)]; [done|].
  unfold mbind, M_bind, raise_if in E. destruct (cfg_enabled source) eqn:He; injection E as <- <-; split; [done|..|done|done].
  by intros ? [= <-].
Qed.

Lemma delegate_cases source plan s r s' :
  delegate source plan s = (r, s') →
  sv_invocations s' = (sv_invocations s ++ [(source, plan)])%list ∧ sv_store s' = sv_store s ∧
  (r = Ok tt ∨ ∃ code, r = Err (ManualSyncError code)).
Proof.
  unfold delegate, catch, invoke, mbind, M_bind, modify, on_state. simpl.
  destruct (executor source plan _) as [[[]|e] x]; [|destruct e]; intros [= <- <-]; simpl; eauto.
Qed.

(** C37: a manual run writes only what was reviewed: [apply] invokes the executor
    at most once, only while an unexpired capability for that very source
    exists, only for an enabled source and a fresh plan whose digest, planner
    version and both fingerprints are those the capability was issued for; the
    capability is gone afterwards. If the executor was not invoked the call is
    an error; if it was, every failure is reported as a manual-sync error. *)
Theorem apply_invokes_confirmed_plan source_instance token s r s' :
  apply source_instance token s = (r, s') →
  (sv_invocations s' = sv_invocations s ∧ ∃ e, r = Err e) ∨
  ∃ claims expires source plan,
    cs_entries (sv_store s) !! sha256 token = Some (claims, expires) ∧
    (cs_clock (sv_store s) (cs_ticks (sv_store s)) < expires)%Z ∧
    cl_source_instance claims = source_instance ∧ cfg_enabled source = true ∧
    mp_apply_allowed plan = true ∧ cfg_id source = cl_source_id claims ∧ mp_digest plan = cl_plan_digest claims ∧
    mp_planner_version plan = cl_planner_version claims ∧ mp_source_fingerprint plan = cl_source_fingerprint claims ∧
    mp_target_fingerprint plan = cl_target_fingerprint claims ∧
    sv_invocations s' = (sv_invocations s ++ [(source, plan)])%list ∧
    cs_entries (sv_store s') !! sha256 token = None ∧
    (r = Ok (mkApplyResult AO_SUCCEEDED (mp_digest plan)) ∨ ∃ code, r = Err (ManualSyncError code)).
Proof.
  unfold apply.
  intros [(e & [H _]%redeem_cases & ->)|(claims & s1 & [Hc1 Hk]%redeem_cases & E)]%bind_cases; [left; eauto|].
  destruct (Hk claims eq_refl) as (Hsrc & Hgone & expires & Hentry & Hexp).
  apply bind_cases in E as [(e & [[H _] _]%enabled_source_cases & ->)|(source & s2 & [[Hc2 Hs2] Hen]%enabled_source_cases & E)];
    [left; split; [congruence|eauto]|].
  apply bind_cases in E as [(e & [H _]%on_state_untouched & ->)|(plan & s3 & [Hc3 Hs3]%on_state_untouched & E)];
    [left; split; [congruence|eauto]|].
  apply bind_cases in E as [(e & H & ->)|([] & s4 & [Hconf ->]%raise_if_Ok & E)].
  { left. unfold raise_if in H. destruct (negb _); [|done]. injection H as _ <-. split; [congruence|eauto]. }
  apply negb_false_iff in Hconf. unfold plan_confirmed in Hconf.
  rewrite !andb_true_iff, !bool_decide_eq_true in Hconf. destruct_and!. right. exists claims, expires, source, plan.
  apply bind_cases in E as [(e & (Hc5 & Hs5 & Hr)%delegate_cases & ->)|([] & s5 & (Hc5 & Hs5 & Hr)%delegate_cases & E)].
  - destruct Hr as [?|[code [= ->]]]; [done|]. split_and!; try done; [by apply Hen|congruence|congruence|eauto].
  - injection E as <- <-. split_and!; try done; [by apply Hen|congruence|congruence|eauto].
Qed.
End ManualSync.

Lemma apply_invokes_confirmed_plan_witness :
  let sv := mkService sample_issued tt [] in
  let plan := mkManualPlan true "d" "v" "sf" "tf" in
  let run := apply id (λ _, mret (Some sample_config)) (λ _, mret plan) (λ _ _, mret tt) "pve-a" sample_token sv in
  run.1 = Ok (mkApplyResult AO_SUCCEEDED "d") ∧ sv_invocations run.2 = [(sample_config, plan)].
Proof.
  cbv zeta. set (plan := mkManualPlan true "d" "v" "sf" "tf"). set (sv := mkService sample_issued tt []).
  set (run := apply id _ _ _ "pve-a" sample_token sv).
  destruct (apply_invokes_confirmed_plan id (λ _, mret (Some sample_config)) (λ _, mret plan) (λ _ _, mret tt)
    "pve-a" sample_token sv run.1 run.2) as [[_ [e He]]|H].
  - exact (surjective_pairing run).
  - vm_compute in He. discriminate He.
  - clear H. split; vm_compute; reflexivity.
Defined.
