(* ===== verification/SourceOperations.v ===== *)
(** * Source operations (netbox_sync/source_operations.py)

    The gate every lifecycle transition of a source passes, and the store of the
    latest PLAN and DISCOVERY operation of each source: deduplicated starts, an
    execution that owns a session advisory lock and completes only the
    generation it was given, and the reads that require the current plan. The
    hash of a plan and the API's result validators (pydantic models) are
    parameters; the work itself is the parameter [callback], a computation on
    the database that may raise. *)

From S2P Require Import Prelude PyValue Calendar SourceConfig Schema Orchestrator.
From stdpp Require Import base list strings gmap sorting pretty.
From Stdlib Require Import ZArith Lia.
Local Open Scope string_scope.

Definition KINDS : list string := ["PLAN"; "DISCOVERY"].
Definition MAX_RESULT_BYTES : Z := (8 * 1024 * 1024)%Z.

(** [plan_diagnostics.safe_reason] and the [OperationError] constructor. *)
Definition REASONS : list string :=
  ["OPERATION_MISSING"; "OPERATION_VERSION"; "OPERATION_EXPIRED"; "OPERATION_STATUS"; "RESULT_MISSING"; "REVIEW_DIGEST";
   "PLANNER_VERSION"; "PLAN_DIGEST"; "PLAN_FORBIDDEN"; "SOURCE_IDENTITY"].
Definition safe_reason (value : option string) : option string :=
  match value with Some r => if bool_decide (r ∈ REASONS) then Some r else None | None => None end.
Definition operation_error (code : string) (reason : option string) : exn := OperationError code (safe_reason reason).

(** The keys of public_errors.json. *)
Definition ERRORS : list string :=
  ["SOURCE_DNS_FAILED"; "SOURCE_CONNECTION_FAILED"; "SOURCE_TIMEOUT"; "SOURCE_TLS_FAILED"; "SOURCE_DESTINATION_DENIED";
   "SOURCE_AUTH_FAILED"; "SOURCE_PERMISSION_DENIED"; "NETBOX_PERMISSION_DENIED"; "NETBOX_AUTH_FAILED"; "NETBOX_TLS_FAILED";
   "NETBOX_UNAVAILABLE"; "MAPPING_INVALID"; "PLANNER_FAILED"; "DISCOVERY_FAILED"; "PROVIDER_UNAVAILABLE"; "DISCOVERY_TIMEOUT";
   "ONBOARDING_TOKEN_INVALID"; "PROBE_RECEIPT_INVALID"; "CATALOG_CHANGED"; "REGISTRATION_UNCERTAIN"; "OUTCOME_UNCERTAIN";
   "OPERATION_FAILED"; "REGISTRATION_CLUSTER_RETAINED"; "NETBOX_PLACEMENT_MISSING"; "HOST_IDENTITY_INCONSISTENT";
   "HOST_IDENTITY_CHANGED"; "RETIREMENT_AUTH_FAILED"; "RETIREMENT_TOKEN_WRITE_REQUIRED";
   "RETIREMENT_AUDIT_PERMISSION_REQUIRED"; "RETIREMENT_SOURCE_SCOPE_DENIED"; "RETIREMENT_OBJECT_VIEW_DENIED";
   "SOURCE_ARCHIVED"; "SOURCE_ARCHIVE_REVIEW_REQUIRED"; "SOURCE_CREDENTIAL_CLEANUP_PENDING";
   "SOURCE_LIFECYCLE_REVIEW_LIMIT"; "HOST_PRIMARY_IP_CONFLICT"].
Definition OPERATION_CODES : list string :=
  (ERRORS ++ ["SOURCE_NOT_FOUND"; "SOURCE_DISABLED"; "CREDENTIAL_UNAVAILABLE"; "REGISTRY_UNAVAILABLE"; "DISCOVERY_TIMEOUT";
    "PROVIDER_UNAVAILABLE"; "NETBOX_UNAVAILABLE"; "DISCOVERY_FAILED"; "RESULT_TOO_LARGE"; "RESULT_INVALID"])%list.
(** The code published for an exception. *)
Definition public_code (e : exn) : string :=
  match exn_code e with
  | Some c => if bool_decide (c ∈ OPERATION_CODES) then c else "OPERATION_FAILED"
  | None => "OPERATION_FAILED"
  end.

(** ** The gate *)

Definition archived (s : db) (source : string) : bool := bool_decide (is_Some (source_archives s !! source)).

Definition retirement_pending (s : db) (source : string) : bool :=
  exists_row (λ _ r, bool_decide (ret_source r = source) && ret_inflight r) (source_retirements s).

Definition source_gate (source : string) (allow_retirement allow_waiting : bool) : DB unit :=
  if allow_retirement then mret tt
  else
    s ← gets id;
    raise_if (archived s source) (operation_error "SOURCE_ARCHIVED" None);;
    raise_if (retirement_pending s source) (operation_error "SOURCE_RETIREMENT_PENDING" None);;
    raise_if (negb allow_waiting && bool_decide (is_Some (removal_requests s !! source)))
      (operation_error "SOURCE_RETIREMENT_PENDING" None).

(** ** Rows *)

Definition with_status (o : operation_row) (status : OperationStatus) (updated : Z) (finished : option Z)
    (code : option string) (result : option pydict) : operation_row :=
  {| op_source := op_source o; op_kind := op_kind o; op_id := op_id o; op_status := status;
     op_started_at := op_started_at o; op_updated_at := updated; op_finished_at := finished; op_error_code := code;
     op_result := result |}.

Definition is_operation (id : N) (_ : string * string) (o : operation_row) : bool := bool_decide (op_id o = id).
Definition is_running (id : N) (_ : string * string) (o : operation_row) : bool :=
  bool_decide (op_id o = id) && bool_decide (op_status o = OP_RUNNING).

Definition us (seconds : Z) : Z := (seconds * US_SECOND)%Z.

Section OperationStore.
Context (schema : string) (sha256 : string → string).
(** [from_worker] of the DTO of a kind accepts the result. *)
Context (from_worker : string → pydict → bool).
(** The validated [evidence] attribute of an exception, if any. *)
Context (placement_evidence : exn → string → option pydict).

Definition lock_key (source kind : string) : string :=
  "netbox-sync:" +:+ schema +:+ ":operation:" +:+ source +:+ ":" +:+ kind.

(** Both kinds of a source, in the order of [ORDER BY operation_kind]. *)
Definition source_rows (s : db) (source : string) : list operation_row :=
  omap (λ kind, source_operations s !! (source, kind)) ["DISCOVERY"; "PLAN"].

(** The loop body of [latest]. *)
Definition reconcile_row (source : string) (row : operation_row) : DB unit :=
  if bool_decide (op_status row = OP_RUNNING) then
    now ← clock_timestamp;
    if negb (op_updated_at row <? now - us 180)%Z then mret tt
    else
      free ← gets (λ s, negb (bool_decide (lock_key source (op_kind row) ∈ session_locks s)));
      if (free : bool) then
        updated ← clock_timestamp;
        finished ← clock_timestamp;
        modify (on_source_operations (update_where (is_running (op_id row))
          (λ o, with_status o OP_FAILED updated (Some finished) (Some "OPERATION_INTERRUPTED") None)))
      else mret tt
  else if bool_decide (is_Some (op_result row)) then
    updated ← clock_timestamp;
    now ← clock_timestamp;
    modify (on_source_operations (update_where
      (λ k o, is_operation (op_id row) k o &&
              match op_finished_at o with Some f => (f <? now - us 86400)%Z | None => false end)
      (λ o, with_status o (if bool_decide (op_kind o = "PLAN") then OP_STALE else OP_FAILED) updated (op_finished_at o)
              (Some "RESULT_EXPIRED") None)))
  else mret tt.

Definition latest (source : string) : DB (list operation_row) :=
  atomic (
    rows ← gets (λ s, source_rows s source);
    forM rows (reconcile_row source);;
    gets (λ s, source_rows s source)).

(** The upsert of [start]; the unique operation id may refuse it. *)
Definition insert_operation (source kind : string) (new_id : N) : DB operation_row :=
  started ← clock_timestamp;
  updated ← clock_timestamp;
  s ← gets id;
  raise_if (exists_row (λ k o, negb (bool_decide (k = (source, kind))) && bool_decide (op_id o = new_id)) (source_operations s))
    unique_violation;;
  let row := {| op_source := source; op_kind := kind; op_id := new_id; op_status := OP_RUNNING; op_started_at := started;
                op_updated_at := updated; op_finished_at := None; op_error_code := None; op_result := None |} in
  modify (on_source_operations (<[(source, kind) := row]>));;
  mret row.

(** A new generation, unless an earlier one still executes. *)
Definition open_generation (source kind : string) : DB (operation_row * bool) :=
  executing ← gets (λ s, bool_decide (lock_key source kind ∈ session_locks s));
  raise_if executing (operation_error "OPERATION_STILL_EXECUTING" None);;
  new_id ← uuid4;
  row ← insert_operation source kind new_id;
  mret (row, true).

(** The second transaction of [start], after [latest]. *)
Definition start_transaction (source kind : string) : DB (operation_row * bool) :=
  atomic (
    source_gate source false false;;
    s ← gets id;
    record ← require (sources s !! source) (operation_error "SOURCE_NOT_FOUND" None);
    raise_if (negb (cfg_enabled (src_config record))) (operation_error "SOURCE_DISABLED" None);;
    match source_operations s !! (source, kind) with
    | Some current =>
        if bool_decide (op_status current = OP_RUNNING) then mret (current, false) else open_generation source kind
    | None => open_generation source kind
    end).
Definition start (source kind : string) : DB (operation_row * bool) :=
  raise_if (negb (bool_decide (kind ∈ KINDS)) || negb (source_instance_ok source)) (operation_error "OPERATION_INVALID" None);;
  latest source;;
  start_transaction source kind.

(** ** Execution *)

(** The checks of a result, in the order of [execute]. *)
Definition check_result (source kind : string) (value : pyval) : result exn pydict :=
  if (MAX_RESULT_BYTES <? Z.of_nat (String.length (json_dumps value)))%Z then Err (operation_error "RESULT_TOO_LARGE" None)
  else
    match value with
    | PDict d =>
        if negb (py_eqb (dget "source_instance" d) (PStr source)) then Err (operation_error "RESULT_INVALID" None)
        else
          (if bool_decide (kind = "PLAN") then
             match dlookup "digest" d with
             | None => Err (KeyError "digest")
             | Some digest =>
                 if py_eqb (PStr (sha256 (json_dumps (PDict (dpop "digest" d))))) digest then Ok tt
                 else Err (operation_error "RESULT_INVALID" None)
             end
           else Ok tt);;
          if from_worker kind d then Ok d else Err (operation_error "RESULT_INVALID" None)
    | _ => Err (OtherException "AttributeError" None)
    end.

(** What [execute] writes for an outcome of the callback. *)
Definition completion (source kind : string) (outcome : result exn pyval) :
    option pydict * OperationStatus * option string :=
  match (value ← outcome; check_result source kind value) with
  | Ok d => (Some d, if bool_decide (kind = "PLAN") then OP_READY else OP_SUCCEEDED, None)
  | Err e =>
      let code := public_code e in
      (if bool_decide (kind = "DISCOVERY") && bool_decide (code = "NETBOX_PLACEMENT_MISSING")
       then placement_evidence e source else None, OP_FAILED, Some code)
  end.

(** [execute] up to the callback: takes the session lock and requires the given
    generation to be RUNNING, giving the lock back when it is not. *)
Definition begin_execution (operation : operation_row) : DB bool :=
  let key := lock_key (op_source operation) (op_kind operation) in
  held ← gets (λ s, bool_decide (key ∈ session_locks s));
  if (held : bool) then mret false
  else
    modify (on_session_locks (λ l, {[key]} ∪ l));;
    running ← gets (λ s, exists_row (is_running (op_id operation)) (source_operations s));
    if (running : bool) then mret true
    else modify (on_session_locks (λ l, l ∖ {[key]}));; mret false.

(** The completing [UPDATE] and the [finally] clause. *)
Definition finish_execution (operation : operation_row) (outcome : result exn pyval) : DB unit :=
  let key := lock_key (op_source operation) (op_kind operation) in
  let '(result, status, code) := completion (op_source operation) (op_kind operation) outcome in
  updated ← clock_timestamp;
  finished ← clock_timestamp;
  modify (on_source_operations (update_where (is_running (op_id operation))
    (λ o, with_status o status updated (Some finished) code result)));;
  modify (on_session_locks (λ l, l ∖ {[key]})).

Definition execute (operation : operation_row) (callback : DB pyval) : DB unit :=
  started ← begin_execution operation;
  if (started : bool) then
    outcome ← (λ s, let '(r, s') := callback s in (Ok r, s')) : DB (result exn pyval);
    finish_execution operation outcome
  else mret tt.

(** ** The current plan *)

(** The reason a plan is refused, in the order of the nested conditions. *)
Definition stale_reason (row : option operation_row) (now : Z) (digest : string) (operation_id : option N) :
    result exn (option string) :=
  match row with
  | None => Ok (Some "OPERATION_MISSING")
  | Some o =>
      if match operation_id with Some i => negb (bool_decide (op_id o = i)) | None => false end then Ok (Some "OPERATION_VERSION")
      else if match op_finished_at o with Some f => (f <=? now - us 86400)%Z | None => true end
      then Ok (Some "OPERATION_EXPIRED")
      else if negb (bool_decide (op_status o = OP_READY)) then Ok (Some "OPERATION_STATUS")
      else
        match op_result o with
        | None | Some [] => Ok (Some "RESULT_MISSING")
        | Some d =>
            match dlookup "digest" d with
            | None => Err (KeyError "digest")
            | Some v => Ok (if py_eqb v (PStr digest) then None else Some "REVIEW_DIGEST")
            end
        end
  end.

(** [current_plan]: the row, whose result or id the caller takes. *)
Definition current_plan (source digest : string) (operation_id : option N) : DB operation_row :=
  now ← clock_timestamp;
  row ← gets (λ s, source_operations s !! (source, "PLAN"));
  reason ← lift (stale_reason row now digest operation_id);
  match reason with
  | Some r => raise (operation_error "PLAN_STALE" (Some r))
  | None => require row (operation_error "PLAN_STALE" (Some "OPERATION_MISSING"))
  end.

Definition plan_time (source : string) (operation_id : N) : DB Z :=
  row ← gets (λ s, source_operations s !! (source, "PLAN"));
  match row with
  | Some o => if bool_decide (op_id o = operation_id)
              then require (op_finished_at o) (operation_error "PLAN_STALE" (Some "OPERATION_MISSING"))
              else raise (operation_error "PLAN_STALE" (Some "OPERATION_MISSING"))
  | None => raise (operation_error "PLAN_STALE" (Some "OPERATION_MISSING"))
  end.

(** [with review_guard(...) as reviewed: body]. *)
Definition review_guard {A} (source digest : string) (operation_id : option N) (body : option pydict → DB A) : DB A :=
  raise_if (negb (bool_decide (is_Some operation_id))) (operation_error "PLAN_STALE" (Some "OPERATION_MISSING"));;
  source_gate source false false;;
  reviewed ← current_plan source digest operation_id;
  body (op_result reviewed).

Definition invalidate_plan (source : string) (operation_id : N) : DB unit :=
  atomic (
    source_gate source false false;;
    updated ← clock_timestamp;
    modify (on_source_operations (update_where
      (λ k o, bool_decide (k = (source, "PLAN")) && is_operation operation_id k o && bool_decide (op_status o = OP_READY))
      (λ o, with_status o OP_STALE updated (op_finished_at o) (Some "PLAN_STALE") None)))).

(** ** Interleaved operations

    Any number of API calls, scheduler processes and executions share the store.
    A state is the database and the operations now being executed; each
    transaction is one step, so that [start] and an execution are two each, with
    anything in between, and the process or the connection of an execution may be
    lost, which frees its session lock. *)

Record sys := mkSys { sys_db : db; sys_executing : list operation_row }.

Inductive op_step : sys → sys → Prop :=
| os_latest s ex source : op_step (mkSys s ex) (mkSys (latest source s).2 ex)
| os_start s ex source kind : op_step (mkSys s ex) (mkSys (start_transaction source kind s).2 ex)
| os_invalidate s ex source id : op_step (mkSys s ex) (mkSys (invalidate_plan source id s).2 ex)
| os_stale s ex source (P : string → bool) updated :
    (* the baseline decision (of the kind PLAN) and the closing of a generation *)
    op_step (mkSys s ex) (mkSys (on_source_operations (update_where
      (λ _ o, bool_decide (op_source o = source) && P (op_kind o) && bool_decide (op_status o = OP_READY))
      (λ o, with_status o OP_STALE updated (op_finished_at o) (Some "PLAN_STALE") None)) s) ex)
| os_purge s ex source :
    (* the purge of a retired source, refused while an operation runs *)
    exists_row (λ _ o, bool_decide (op_source o = source) && bool_decide (op_status o = OP_RUNNING)) (source_operations s) = false →
    op_step (mkSys s ex) (mkSys (on_source_operations (delete_where (λ _ o, bool_decide (op_source o = source))) s) ex)
| os_other s s' ex :
    (* everything that touches other tables *)
    source_operations s' = source_operations s → session_locks s' = session_locks s → uuids s' = uuids s →
    (used_uuids s ≤ used_uuids s')%nat → op_step (mkSys s ex) (mkSys s' ex)
| os_begin s ex operation o :
    source_operations s !! (op_source operation, op_kind operation) = Some o → op_id o = op_id operation →
    (begin_execution operation s).1 = Ok true →
    op_step (mkSys s ex) (mkSys (begin_execution operation s).2 (operation :: ex))
| os_finish s ex1 operation ex2 outcome :
    op_step (mkSys s (ex1 ++ operation :: ex2)) (mkSys (finish_execution operation outcome s).2 (ex1 ++ ex2))
| os_lost s ex1 operation ex2 :
    op_step (mkSys s (ex1 ++ operation :: ex2))
      (mkSys (on_session_locks (λ l, l ∖ {[lock_key (op_source operation) (op_kind operation)]}) s) (ex1 ++ ex2)).

Definition exec_key (o : operation_row) : string := lock_key (op_source o) (op_kind o).

(** A plan that may be reviewed is the one its digest names. *)
Definition plan_intact (o : operation_row) : Prop :=
  op_kind o = "PLAN" ∧ ∃ d digest, op_result o = Some d ∧ dlookup "digest" d = Some digest ∧
    py_eqb (PStr (sha256 (json_dumps (PDict (dpop "digest" d))))) digest = true ∧
    py_eqb (dget "source_instance" d) (PStr (op_source o)) = true ∧ from_worker "PLAN" d = true.

Record sys_ok (y : sys) : Prop := {
  ok_keyed k o : source_operations (sys_db y) !! k = Some o → k = (op_source o, op_kind o);
  ok_known k o : source_operations (sys_db y) !! k = Some o →
    ∃ n, (n < used_uuids (sys_db y))%nat ∧ op_id o = uuids (sys_db y) n;
  ok_unique k k' o o' : source_operations (sys_db y) !! k = Some o → source_operations (sys_db y) !! k' = Some o' →
    op_id o = op_id o' → k = k';
  ok_ready k o : source_operations (sys_db y) !! k = Some o → op_status o = OP_READY → plan_intact o;
  ok_open k o : source_operations (sys_db y) !! k = Some o → op_status o = OP_RUNNING → op_finished_at o = None;
  ok_locked op : op ∈ sys_executing y → exec_key op ∈ session_locks (sys_db y);
  ok_exclusive : NoDup (exec_key <$> sys_executing y);
  ok_live op : op ∈ sys_executing y → ∃ o, source_operations (sys_db y) !! (op_source op, op_kind op) = Some o ∧
    op_id o = op_id op ∧ op_status o = OP_RUNNING }.

(** *** Steps that only change rows in place *)

(** What a row may become while an execution holds ([locked]) its lock. *)
Definition row_tidied (locked : bool) (o o' : operation_row) : Prop :=
  op_source o' = op_source o ∧ op_kind o' = op_kind o ∧ op_id o' = op_id o ∧
  (op_status o' = OP_READY ∨ op_status o' = OP_RUNNING → o' = o) ∧ (locked = true → op_status o = OP_RUNNING → o' = o).

Definition is_locked (s : db) (o : operation_row) : bool := bool_decide (exec_key o ∈ session_locks s).

Definition tidied (s s' : db) : Prop :=
  session_locks s' = session_locks s ∧ uuids s' = uuids s ∧ (used_uuids s ≤ used_uuids s')%nat ∧
  (∀ k o, source_operations s !! k = Some o → ∃ o', source_operations s' !! k = Some o' ∧ row_tidied (is_locked s o) o o') ∧
  (∀ k o', source_operations s' !! k = Some o' → is_Some (source_operations s !! k)).

#[export] Instance tidied_preorder : PreOrder tidied.
Proof.
  split.
  - intros s. split_and!; try done. intros k o Ho. exists o. by unfold row_tidied.
  - intros s1 s2 s3 (L1 & U1 & N1 & F1 & B1) (L2 & U2 & N2 & F2 & B2). split_and!; [congruence|congruence|lia|..].
    + intros k o Ho. destruct (F1 _ _ Ho) as (o2 & Ho2 & (a1&a2&a3&a4&a5)).
      destruct (F2 _ _ Ho2) as (o3 & Ho3 & (b1&b2&b3&b4&b5)). exists o3. split; [done|].
      split_and!; try congruence.
      * intros Hr. specialize (b4 Hr). subst o3. by apply a4.
      * intros Hl Hr. specialize (a5 Hl Hr). subst o2. apply b5; [|done]. unfold is_locked in *. by rewrite L1.
    + intros k o' Ho. destruct (B2 _ _ Ho) as [o2 Ho2]. eauto.
Qed.

Lemma tidied_same s s' :
  source_operations s' = source_operations s → session_locks s' = session_locks s → uuids s' = uuids s →
  (used_uuids s ≤ used_uuids s')%nat → tidied s s'.
Proof.
  intros E1 E2 E3 E4. split_and!; try done.
  - intros k o Ho. exists o. rewrite E1. by unfold row_tidied.
  - intros k o Ho. rewrite E1 in Ho. eauto.
Qed.

Lemma tidied_update P f s :
  (∀ k o, source_operations s !! k = Some o → P k o = true →
    op_source (f o) = op_source o ∧ op_kind (f o) = op_kind o ∧ op_id (f o) = op_id o ∧ op_status (f o) ≠ OP_READY ∧ op_status (f o) ≠ OP_RUNNING ∧
    (is_locked s o = true → op_status o ≠ OP_RUNNING)) →
  tidied s (on_source_operations (update_where P f) s).
Proof.
  intros Hf. split_and!; try done; simpl.
  - intros k o Ho. rewrite lookup_update_where, Ho. simpl. eexists. split; [done|].
    destruct (P k o) eqn:HP; [|by unfold row_tidied]. destruct (Hf k o Ho HP) as (?&?&?&?&?&?).
    split_and!; try done; naive_solver.
  - intros k o'. rewrite lookup_update_where. destruct (source_operations s !! k); [eauto|done].
Qed.

Lemma tidied_ok s s' ex : tidied s s' → sys_ok (mkSys s ex) → sys_ok (mkSys s' ex).
Proof.
  intros (L & U & N & F & B) [Hk Hn Hu Hr Hopen Hl He Hv]; simpl in *.
  assert (∀ k o', source_operations s' !! k = Some o' →
    ∃ o, source_operations s !! k = Some o ∧ row_tidied (is_locked s o) o o') as Hback.
  { intros k o' Ho'. destruct (B _ _ Ho') as [o Ho]. destruct (F _ _ Ho) as (o2 & Ho2 & Ht). assert (o2 = o') as -> by congruence.
    eauto. }
  split; simpl.
  - intros k o' Ho'. destruct (Hback _ _ Ho') as (o & Ho & (-> & -> & _)). by apply Hk.
  - intros k o' Ho'. destruct (Hback _ _ Ho') as (o & Ho & (_ & _ & -> & _)). rewrite U.
    destruct (Hn _ _ Ho) as (n & ? & ->). exists n. split; [lia|done].
  - intros k k' o1 o2 Ho1 Ho2 E. destruct (Hback _ _ Ho1) as (p1 & Hp1 & (_ & _ & E1 & _)).
    destruct (Hback _ _ Ho2) as (p2 & Hp2 & (_ & _ & E2 & _)). eapply (Hu _ _ p1 p2); [done|done|congruence].
  - intros k o' Ho' Hst. destruct (Hback _ _ Ho') as (o & Ho & (_ & _ & _ & Hre & _)). specialize (Hre (or_introl Hst)). subst o'.
    by eapply Hr.
  - intros k o' Ho' Hst. destruct (Hback _ _ Ho') as (o & Hko & (_ & _ & _ & Hre & _)). specialize (Hre (or_intror Hst)).
    subst o'. by eapply Hopen.
  - intros op Hop. rewrite L. auto.
  - done.
  - intros op Hop. destruct (Hv _ Hop) as (o & Ho & Hid & Hrun). destruct (F _ _ Ho) as (o' & Ho' & (_ & _ & Hid' & _ & Hlk)).
    exists o'. split; [done|]. split; [congruence|]. rewrite Hlk; [done| |done].
    unfold is_locked. apply bool_decide_eq_true. unfold exec_key.
    pose proof (Hk _ _ Ho) as [= <- <-]. exact (Hl _ Hop).
Qed.

(** The rows that carry the id of [row] are rows of [source] and its kind, and a
    running one has not finished. *)
Definition row_of (source : string) (row : operation_row) (s : db) : Prop :=
  ∀ k o, source_operations s !! k = Some o → op_id o = op_id row →
    op_source o = source ∧ op_kind o = op_kind row ∧ (op_status o = OP_RUNNING → op_finished_at o = None).

Lemma row_of_tidied source row s s' : tidied s s' → row_of source row s → row_of source row s'.
Proof.
  intros (_ & _ & _ & F & B) H k o' Ho' E. destruct (B _ _ Ho') as [o Ho].
  destruct (F _ _ Ho) as (o2 & Ho2 & (H1 & H2 & H3 & H4 & _)). assert (o2 = o') as -> by congruence.
  destruct (H k o Ho) as (? & ? & Hopen); [congruence|]. split_and!; [congruence..|].
  intros Hr. specialize (H4 (or_intror Hr)). subst o'. auto.
Qed.

Lemma moves_reconcile_row source row s : row_of source row s → moves tidied (reconcile_row source row) s.
Proof.
  intros Hrow. unfold reconcile_row. db_moves; try (by apply tidied_same; simpl; auto).
  - apply tidied_update. simpl. intros k o Ho HP. unfold is_running in HP. inv_bool. split_and!; try done.
    intros Hlk%bool_decide_eq_true. unfold exec_key in Hlk. simpl in *.
    destruct (Hrow k o Ho) as (E1 & E2 & _); [done|]. rewrite E1, E2 in Hlk. done.
  - apply tidied_update. simpl. intros k o Ho HP. unfold is_operation in HP. inv_bool.
    destruct (Hrow k o Ho) as (_ & _ & Hopen); [done|]. split_and!; try done; [by case_bool_decide..|].
    intros _ Hrun. rewrite (Hopen Hrun) in *. done.
Qed.

Lemma moves_latest source s ex : sys_ok (mkSys s ex) → moves tidied (latest source) s.
Proof.
  intros Hok. unfold latest. db_moves.
  assert (Forall (λ row, row_of source row s) (source_rows s source)) as Hrows.
  { apply Forall_forall. intros row (kind & Hkind & Hrow)%list_elem_of_omap k o Ho E.
    pose proof (ok_keyed _ Hok _ _ Hrow) as Hkr.
    assert (k = (source, kind)) as -> by (by eapply (ok_unique _ Hok)).
    assert (o = row) as -> by (simpl in *; congruence). injection Hkr as <- <-.
    split_and!; [done|done|]. by apply (ok_open _ Hok _ _ Hrow). }
  revert Hrows. generalize (source_rows s source). intros rows. clear Hok. revert s.
  induction rows as [|row rows IH]; intros s Hrows; simpl; [by moves|]. apply Forall_cons in Hrows as [Hr Hrs].
  apply (moves_bind tidied); [by apply moves_reconcile_row|]. intros a s1 E. apply IH.
  eapply Forall_impl; [exact Hrs|]. intros row' Hr'. eapply row_of_tidied; [|exact Hr'].
  pose proof (moves_reconcile_row source row s Hr) as Hm. unfold moves in Hm. by rewrite E in Hm.
Qed.

(** *** Steps that add or remove *)

(** A new generation under a fresh id, in a slot whose lock is free. *)
Definition opened (source kind : string) (s s' : db) : Prop :=
  ∃ row, (lock_key source kind ∉ session_locks s) ∧ op_source row = source ∧ op_kind row = kind ∧
    op_status row = OP_RUNNING ∧ op_finished_at row = None ∧ op_id row = uuids s (used_uuids s) ∧
    source_operations s' = <[(source, kind) := row]> (source_operations s) ∧ session_locks s' = session_locks s ∧
    uuids s' = uuids s ∧ used_uuids s' = S (used_uuids s).

Lemma insert_operation_Ok source kind id s row s' :
  insert_operation source kind id s = (Ok row, s') →
  op_source row = source ∧ op_kind row = kind ∧ op_status row = OP_RUNNING ∧ op_finished_at row = None ∧ op_id row = id ∧
  source_operations s' = <[(source, kind) := row]> (source_operations s) ∧ session_locks s' = session_locks s ∧
  uuids s' = uuids s ∧ used_uuids s' = used_uuids s.
Proof.
  unfold insert_operation. intros H. apply bind_Ok in H as (t1 & s1 & H1 & H). injection H1 as _ <-.
  apply bind_Ok in H as (t2 & s2 & H2 & H). injection H2 as _ <-.
  apply bind_Ok in H as (? & ? & [-> ->]%gets_Ok & H). apply bind_Ok in H as ([] & ? & [_ ->]%raise_if_Ok & H).
  apply bind_Ok in H as ([] & ? & ->%modify_Ok & [-> ->]%ret_Ok). done.
Qed.

Lemma open_generation_Ok source kind s r s' : open_generation source kind s = (Ok r, s') → opened source kind s s'.
Proof.
  unfold open_generation. intros H. apply bind_Ok in H as (? & ? & [-> ->]%gets_Ok & H).
  apply bind_Ok in H as ([] & ? & [Hlock%bool_decide_eq_false ->]%raise_if_Ok & H).
  apply bind_Ok in H as (id & s1 & Hid & H). injection Hid as <- <-.
  apply bind_Ok in H as (row & s2 & (?&?&?&?&?&H1&H2&H3&H4)%insert_operation_Ok & [_ ->]%ret_Ok).
  exists row. by rewrite H1, H2, H3, H4.
Qed.

Lemma source_gate_Ok source r w s u s' : source_gate source r w s = (Ok u, s') → s' = s.
Proof.
  unfold source_gate. destruct r; [by intros [_ ->]%ret_Ok|]. intros H.
  apply bind_Ok in H as (? & ? & [-> ->]%gets_Ok & H). apply bind_Ok in H as ([] & ? & [_ ->]%raise_if_Ok & H).
  apply bind_Ok in H as ([] & ? & [_ ->]%raise_if_Ok & H). by apply raise_if_Ok in H as [_ ->].
Qed.

(** The transaction of [start] changes nothing or opens a generation. *)
Lemma start_cases source kind s :
  (start_transaction source kind s).2 = s ∨ opened source kind s (start_transaction source kind s).2.
Proof.
  destruct (start_transaction source kind s) as [r s'] eqn:E. cbn [snd]. unfold start_transaction in E.
  destruct r as [r|e]; [|left; by eapply atomic_Err]. rewrite atomic_Ok in E. apply bind_Ok in E as ([] & ? & ->%source_gate_Ok & E).
  apply bind_Ok in E as (? & ? & [-> ->]%gets_Ok & E). apply bind_Ok in E as (? & ? & [_ ->]%require_Ok & E).
  apply bind_Ok in E as ([] & ? & [_ ->]%raise_if_Ok & E). simpl in E.
  destruct (source_operations s !! (source, kind)); [|right; by eapply open_generation_Ok].
  apply if_Ok in E as [[_ [_ ->]%ret_Ok]|[_ E]]; [by left|]. right. by eapply open_generation_Ok.
Qed.

Lemma opened_ok source kind s s' ex :
  Inj (=) (=) (uuids s) → opened source kind s s' → sys_ok (mkSys s ex) → sys_ok (mkSys s' ex).
Proof.
  intros Hinj (row & Hlock & Hs & Hk & Hst & Hf & Hid & E & L & U & N) [Hkey Hn Hu Hr Hopen Hl He Hv]; simpl in *.
  assert (∀ k o, source_operations s !! k = Some o → op_id o ≠ op_id row) as Hfresh.
  { intros k o Ho. destruct (Hn _ _ Ho) as (n & ? & ->). rewrite Hid. intros ?%Hinj. lia. }
  split; simpl; rewrite ?E, ?L, ?U, ?N; try done.
  - intros k o. rewrite lookup_insert_Some. intros [[<- <-]|[_ Ho]]; [congruence|by apply Hkey].
  - intros k o. rewrite lookup_insert_Some. intros [[<- <-]|[_ Ho]]; [eauto with lia|].
    destruct (Hn _ _ Ho) as (n & ? & ?). exists n. split; [lia|done].
  - intros k k' o o'. rewrite !lookup_insert_Some. intros [[<- <-]|[_ Ho]] [[<- <-]|[_ Ho']] Eid; try done.
    + by destruct (Hfresh _ _ Ho').
    + by destruct (Hfresh _ _ Ho).
    + by eapply Hu.
  - intros k o. rewrite lookup_insert_Some. intros [[<- <-]|[_ Ho]] ?; [congruence|by eapply Hr].
  - intros k o. rewrite lookup_insert_Some. intros [[<- <-]|[_ Ho]] ?; [done|by eapply Hopen].
  - intros op Hop. destruct (Hv _ Hop) as (o & Ho & ? & ?). exists o. rewrite lookup_insert_ne; [done|].
    intros [= -> ->]. apply Hlock. exact (Hl _ Hop).
Qed.

Lemma begin_execution_Ok operation s :
  (begin_execution operation s).1 = Ok true →
  (exec_key operation ∉ session_locks s) ∧
  (∃ k o, source_operations s !! k = Some o ∧ op_id o = op_id operation ∧ op_status o = OP_RUNNING) ∧
  (begin_execution operation s).2 = on_session_locks (λ l, {[exec_key operation]} ∪ l) s.
Proof.
  unfold begin_execution, mbind, M_bind, gets, modify, mret, M_ret. case_bool_decide as Hheld; [done|]. simpl.
  destruct (exists_row _ _) eqn:Er; [|done]. intros _. split; [done|]. split; [|done].
  apply exists_row_true in Er as (k & o & Ho & Hrun). unfold is_running in Hrun. inv_bool. eauto.
Qed.

Lemma begin_ok operation o s ex :
  source_operations s !! (op_source operation, op_kind operation) = Some o → op_id o = op_id operation →
  (begin_execution operation s).1 = Ok true → sys_ok (mkSys s ex) →
  sys_ok (mkSys (begin_execution operation s).2 (operation :: ex)).
Proof.
  intros Ho Hid (Hfree & (k & o' & Ho' & Hid' & Hrun) & ->)%begin_execution_Ok [Hkey Hn Hu Hr Hopen Hl He Hv]; simpl in *.
  assert (k = (op_source operation, op_kind operation)) as -> by (eapply Hu; [done|done|congruence]).
  assert (o' = o) as -> by congruence. split; simpl; try done.
  - intros op [->|Hop]%elem_of_cons; [set_solver|]. apply elem_of_union_r. by apply Hl.
  - constructor; [|done]. intros (op & E & Hop)%list_elem_of_fmap. apply Hfree. rewrite E. by apply Hl.
  - intros op [->|Hop]%elem_of_cons; [eauto|by apply Hv].
Qed.

(** A result that makes a plan READY passed every check. *)
Lemma completion_ready source kind outcome res code :
  completion source kind outcome = (res, OP_READY, code) →
  kind = "PLAN" ∧ ∃ d digest, res = Some d ∧ dlookup "digest" d = Some digest ∧
    py_eqb (PStr (sha256 (json_dumps (PDict (dpop "digest" d))))) digest = true ∧
    py_eqb (dget "source_instance" d) (PStr source) = true ∧ from_worker "PLAN" d = true.
Proof.
  unfold completion. destruct (outcome ≫= _) as [d|e] eqn:E; [|done].
  case_bool_decide as Hkind; [|done]. intros [= <- <-]. subst kind. split; [done|].
  apply result_bind_Ok in E as (v & _ & E). unfold check_result in E. destruct (_ <? _)%Z; [done|].
  destruct v as [| | | | |d0]; try done. destruct (negb _) eqn:Hsrc; [done|].
  apply result_bind_Ok in E as ([] & Hd & E). rewrite bool_decide_true in Hd by done.
  destruct (dlookup "digest" d0) as [digest|] eqn:Hdig; [|done]. destruct (py_eqb _ digest) eqn:Heq; [|done].
  destruct (from_worker _ _) eqn:Hw; [|done]. injection E as ->. exists d, digest. apply negb_false_iff in Hsrc. done.
Qed.

Lemma completion_status source kind outcome res st code : completion source kind outcome = (res, st, code) → st ≠ OP_RUNNING.
Proof. unfold completion. destruct (outcome ≫= _); [case_bool_decide|]; intros [= _ <- _]; done. Qed.

(** The other executions have other locks. *)
Lemma other_executions operation ex1 ex2 :
  NoDup (exec_key <$> (ex1 ++ operation :: ex2)%list) → NoDup (exec_key <$> (ex1 ++ ex2)%list) ∧
  ∀ op, op ∈ (ex1 ++ ex2)%list → op ∈ (ex1 ++ operation :: ex2)%list ∧ exec_key op ≠ exec_key operation.
Proof.
  intros He. split.
  { rewrite fmap_app in *. rewrite fmap_cons in He. eapply sublist_NoDup; [exact He|]. apply sublist_app; [done|]. by apply sublist_cons. }
  intros op Hop. split; [set_solver|]. intros E. rewrite fmap_app, fmap_cons in He.
  apply NoDup_app in He as (_ & H1 & H2). apply NoDup_cons in H2 as [H2 _]. apply elem_of_app in Hop as [Hop|Hop].
  - apply (H1 (exec_key op)); [by apply list_elem_of_fmap_2|rewrite E; left].
  - apply H2. rewrite <-E. by apply list_elem_of_fmap_2.
Qed.

Lemma lost_ok operation s ex1 ex2 :
  sys_ok (mkSys s (ex1 ++ operation :: ex2)%list) →
  sys_ok (mkSys (on_session_locks (λ l, l ∖ {[exec_key operation]}) s) (ex1 ++ ex2)%list).
Proof.
  intros [Hkey Hn Hu Hr Hopen Hl He Hv]; simpl in *. destruct (other_executions _ _ _ He) as [He' Hother]. split; simpl; try done.
  - intros op [Hop Hne]%Hother. apply elem_of_difference. split; [by apply Hl|]. by rewrite elem_of_singleton.
  - intros op [Hop _]%Hother. by apply Hv.
Qed.

Lemma finish_ok operation outcome s ex1 ex2 :
  sys_ok (mkSys s (ex1 ++ operation :: ex2)%list) →
  sys_ok (mkSys (finish_execution operation outcome s).2 (ex1 ++ ex2)%list).
Proof.
  intros [Hkey Hn Hu Hr Hopen Hl He Hv]; simpl in *.
  unfold finish_execution. destruct (completion _ _ outcome) as [[res st] code] eqn:Hc.
  pose proof (completion_status _ _ _ _ _ _ Hc) as Hst.
  set (done_row := λ o, with_status o st (clock s (ticks s)) (Some (clock s (S (ticks s)))) code res).
  match goal with |- sys_ok (mkSys ?x _) => change x with (on_session_locks (λ l, l ∖ {[exec_key operation]})
    (on_source_operations (update_where (is_running (op_id operation)) done_row) (on_ticks S (on_ticks S s)))) end.
  destruct (Hv operation) as (o0 & Ho0 & Hid0 & Hrun0); [set_solver|].
  destruct (other_executions _ _ _ He) as [He' Hother].
  assert (∀ k o, source_operations s !! k = Some o → is_running (op_id operation) k o = true →
    k = (op_source operation, op_kind operation) ∧ o = o0) as Hthis.
  { intros k o Ho Hr'. unfold is_running in Hr'. inv_bool.
    assert (k = (op_source operation, op_kind operation)) as -> by (eapply Hu; [done|done|congruence]). split; [done|congruence]. }
  assert (∀ k o', update_where (is_running (op_id operation)) done_row (source_operations s) !! k = Some o' →
    (source_operations s !! k = Some o' ∧ is_running (op_id operation) k o' = false) ∨
    (k = (op_source operation, op_kind operation) ∧ o' = done_row o0)) as Hback.
  { intros k o'. rewrite lookup_update_where. intros (o & Ho & ->)%fmap_Some_1.
    destruct (is_running (op_id operation) k o) eqn:Er; [|by left]. right. by destruct (Hthis _ _ Ho Er) as [-> ->]. }
  pose proof (Hkey _ _ Ho0) as [= Hsrc Hkind]. split; simpl.
  - intros k o' [[Ho' _]|[-> ->]]%Hback; [by apply Hkey|]. simpl. congruence.
  - intros k o' [[Ho' _]|[-> ->]]%Hback; [by eapply Hn|]. exact (Hn _ _ Ho0).
  - intros k k' o1 o2 [[Ho1 _]|[-> ->]]%Hback [[Ho2 _]|[-> ->]]%Hback E; [by eapply Hu|..|done].
    + eapply Hu; [done|exact Ho0|exact E].
    + eapply Hu; [exact Ho0|done|exact E].
  - intros k o' [[Ho' _]|[-> ->]]%Hback Hready; [by eapply Hr|]. simpl in Hready. subst st.
    apply completion_ready in Hc as [Hp (d & digest & -> & H1 & H2 & H3 & H4)].
    split; [simpl; congruence|]. exists d, digest. split_and!; try done. simpl. by rewrite <-Hsrc.
  - intros k o' [[Ho' _]|[-> ->]]%Hback Hrun; [by eapply Hopen|]. by simpl in Hrun.
  - intros op [Hop Hne]%Hother. apply elem_of_difference. split; [by apply Hl|]. by rewrite elem_of_singleton.
  - exact He'.
  - intros op [Hop Hne]%Hother. destruct (Hv op Hop) as (o & Ho & Hid & Hrun). exists o. split; [|done].
    rewrite lookup_update_where, Ho. simpl. destruct (is_running (op_id operation) _ o) eqn:Er; [|done].
    destruct (Hthis _ _ Ho Er) as [[= E1 E2] _]. destruct Hne. unfold exec_key. by rewrite E1, E2.
Qed.

Lemma purge_ok source s ex :
  exists_row (λ _ o, bool_decide (op_source o = source) && bool_decide (op_status o = OP_RUNNING)) (source_operations s) = false →
  sys_ok (mkSys s ex) →
  sys_ok (mkSys (on_source_operations (delete_where (λ _ o, bool_decide (op_source o = source))) s) ex).
Proof.
  intros Hno [Hkey Hn Hu Hr Hopen Hl He Hv]; simpl in *. rewrite exists_row_false in Hno.
  split; simpl; try done.
  - intros k o [Ho _]%lookup_delete_where. by apply Hkey.
  - intros k o [Ho _]%lookup_delete_where. by eapply Hn.
  - intros k k' o o' [Ho _]%lookup_delete_where [Ho' _]%lookup_delete_where. by eapply Hu.
  - intros k o [Ho _]%lookup_delete_where. by eapply Hr.
  - intros k o [Ho _]%lookup_delete_where. by eapply Hopen.
  - intros op Hop. destruct (Hv op Hop) as (o & Ho & ? & Hrun). exists o. split; [|done].
    apply lookup_delete_where. split; [done|]. specialize (Hno _ _ Ho). rewrite (bool_decide_true (op_status o = _)), andb_true_r in Hno by done.
    done.
Qed.

Lemma op_step_ok y y' : op_step y y' → Inj (=) (=) (uuids (sys_db y)) → sys_ok y → sys_ok y' ∧ uuids (sys_db y') = uuids (sys_db y).
Proof.
  assert (∀ s s' ex, tidied s s' → sys_ok (mkSys s ex) → sys_ok (mkSys s' ex) ∧ uuids s' = uuids s) as Htidy.
  { intros s s' ex Ht Hok. split; [by eapply tidied_ok|]. by destruct Ht as (_ & ? & _). }
  intros Hstep Hinj Hok. destruct Hstep; cbn [sys_db] in *.
  - apply Htidy; [|done]. by eapply (moves_latest source s ex).
  - destruct (start_cases source kind s) as [->|Hs]; [done|]. split; [|by destruct Hs as (? & _ & _ & _ & _ & _ & _ & _ & _ & -> & _)].
    by eapply opened_ok.
  - apply Htidy; [|done]. change (moves tidied (invalidate_plan source id) s). unfold invalidate_plan, source_gate.
    db_moves; try (by apply tidied_same; simpl; auto). apply tidied_update. simpl. intros k o Ho HP. inv_bool.
    split_and!; congruence.
  - apply Htidy; [|done]. apply tidied_update. cbn beta. intros k o Ho HP. inv_bool. split_and!; simpl; congruence.
  - split; [by apply purge_ok|done].
  - apply Htidy; [|done]. by apply tidied_same.
  - split; [by eapply begin_ok|]. by destruct (begin_execution_Ok _ _ ltac:(eassumption)) as (_ & _ & ->).
  - split; [by apply finish_ok|]. unfold finish_execution. by destruct (completion _ _ outcome) as [[??]?].
  - split; [by apply lost_ok|done].
Qed.

(** However API calls, schedulers and executions interleave. *)
Lemma op_steps_ok y y' : rtc op_step y y' → Inj (=) (=) (uuids (sys_db y)) → sys_ok y → sys_ok y'.
Proof.
  induction 1 as [|x y z Hxy _ IH]; [done|]. intros Hinj Hok. destruct (op_step_ok _ _ Hxy Hinj Hok) as [Hok' E].
  apply IH; [by rewrite E|done].
Qed.

(** Before any operation was started. *)
Definition initial_sys (s : db) : Prop := source_operations s = ∅.

Lemma initial_ok s : initial_sys s → sys_ok (mkSys s []).
Proof.
  intros E. split; simpl; rewrite ?E; try (by intros ? ? ?%lookup_empty_Some); try (by intros ? ?%elem_of_nil).
  - by intros ? ? ? ? ?%lookup_empty_Some.
  - constructor.
Qed.

(** C24: however API calls, schedulers and executions interleave from an empty
    table, and whichever executions are lost, at most one execution of each source and kind is in progress, it
    holds the lock of its slot, and the slot still holds its generation,
    RUNNING: the completion is never discarded and never lands on another
    generation. *)
Theorem executions_fenced s y' :
  rtc op_step (mkSys s []) y' → initial_sys s → Inj (=) (=) (uuids s) →
  NoDup (exec_key <$> sys_executing y') ∧
  ∀ op, op ∈ sys_executing y' →
    exec_key op ∈ session_locks (sys_db y') ∧
    ∃ o, source_operations (sys_db y') !! (op_source op, op_kind op) = Some o ∧ op_id o = op_id op ∧ op_status o = OP_RUNNING ∧
      ∀ outcome, let '(result, status, code) := completion (op_source op) (op_kind op) outcome in
        ∃ updated finished, source_operations (finish_execution op outcome (sys_db y')).2 !! (op_source op, op_kind op) =
          Some (with_status o status updated (Some finished) code result).
Proof.
  intros Hr Hi Hinj. pose proof (op_steps_ok _ _ Hr Hinj (initial_ok _ Hi)) as Hok. split; [apply (ok_exclusive _ Hok)|].
  intros op Hop. split; [by apply (ok_locked _ Hok)|]. destruct (ok_live _ Hok op Hop) as (o & Ho & Hid & Hst).
  exists o. split_and!; try done. intros outcome. unfold finish_execution.
  destruct (completion _ _ outcome) as [[result status] code]. do 2 eexists. simpl. rewrite lookup_update_where, Ho. simpl.
  unfold is_running. by rewrite !bool_decide_eq_true_2.
Qed.

Lemma current_plan_Ok source digest id s o s' :
  current_plan source digest id s = (Ok o, s') →
  source_operations s' = source_operations s ∧ source_operations s !! (source, "PLAN") = Some o ∧
  op_status o = OP_READY ∧ (∀ i, id = Some i → op_id o = i) ∧
  (∃ finished, op_finished_at o = Some finished ∧ (clock s (ticks s) - us 86400 < finished)%Z) ∧
  ∃ d v, op_result o = Some d ∧ dlookup "digest" d = Some v ∧ py_eqb v (PStr digest) = true.
Proof.
  unfold current_plan. intros H. apply bind_Ok in H as (now & s1 & Hc & H). injection Hc as <- <-.
  apply bind_Ok in H as (? & ? & [-> ->]%gets_Ok & H). apply bind_Ok in H as (reason & ? & [Hr ->]%lift_Ok & H).
  destruct reason; [by apply raise_Ok in H|]. apply require_Ok in H as [Hrow ->]. simpl in Hrow.
  cbn in Hr. rewrite Hrow in Hr. unfold stale_reason in Hr.
  destruct (match id with Some _ => _ | None => _ end) eqn:Eid; [done|].
  destruct (op_finished_at o) as [f|] eqn:Ef; [|done]. destruct (f <=? _)%Z eqn:Efe; [done|].
  destruct (negb _) eqn:Est; [done|]. inv_bool.
  destruct (op_result o) as [[|kv d]|] eqn:Ed; try done. destruct (dlookup "digest" (kv :: d)) as [v|] eqn:Ev; [|done].
  destruct (py_eqb v (PStr digest)) eqn:Eeq; [|done]. split_and!; try done.
  - intros i ->. by inv_bool.
  - exists f. split; [done|]. apply Z.leb_gt in Efe. lia.
  - eauto.
Qed.

(** C26: the plan a review or an apply receives, whatever ran before, is current
    and intact: it is the READY plan of the named source and operation, less
    than a day old, its digest is the reviewed one, that digest is the hash of
    the canonical JSON of the rest of the plan, and the plan names the source
    and passed the result validator. *)
Theorem reviewed_plan_intact s y' source digest id o s' :
  rtc op_step (mkSys s []) y' → initial_sys s → Inj (=) (=) (uuids s) →
  current_plan source digest (Some id) (sys_db y') = (Ok o, s') →
  op_id o = id ∧ op_source o = source ∧ op_status o = OP_READY ∧
  (∃ finished, op_finished_at o = Some finished ∧ (clock (sys_db y') (ticks (sys_db y')) - us 86400 < finished)%Z) ∧
  ∃ d v, op_result o = Some d ∧ dlookup "digest" d = Some v ∧ py_eqb v (PStr digest) = true ∧
    py_eqb (PStr (sha256 (json_dumps (PDict (dpop "digest" d))))) v = true ∧
    py_eqb (dget "source_instance" d) (PStr source) = true ∧ from_worker "PLAN" d = true.
Proof.
  intros Hr Hi Hinj (_ & Ho & Hst & Hid & Hf & d & v & Ed & Ev & Eeq)%current_plan_Ok.
  pose proof (op_steps_ok _ _ Hr Hinj (initial_ok _ Hi)) as Hok. pose proof (ok_keyed _ Hok _ _ Ho) as [= Hsrc _].
  destruct (ok_ready _ Hok _ _ Ho Hst) as (_ & d' & v' & Ed' & Ev' & Hhash & Hname & Hfw).
  assert (d' = d) as -> by congruence. assert (v' = v) as -> by congruence. rewrite Hsrc.
  split_and!; eauto. exists d, v. by split_and!.
Qed.

(** While an execution of a source and kind is in progress, starting the
    operation again never opens a second generation: the call is refused by
    the gate, or returns the generation being executed, not created. *)
Theorem start_joins_execution s0 s ex op r s' :
  rtc op_step (mkSys s0 []) (mkSys s ex) → initial_sys s0 → Inj (=) (=) (uuids s0) → op ∈ ex →
  start (op_source op) (op_kind op) s = (Ok r, s') →
  r.2 = false ∧ op_id r.1 = op_id op ∧ source_operations s' !! (op_source op, op_kind op) = Some r.1.
Proof.
  intros Hr Hi Hinj Hop E. pose proof (op_steps_ok _ _ Hr Hinj (initial_ok _ Hi)) as Hok.
  destruct (ok_live _ Hok op Hop) as (o & Ho & Hid & Hst). pose proof (ok_locked _ Hok op Hop) as Hlock. simpl in *.
  unfold start, start_transaction in E. apply bind_Ok in E as ([] & ? & [_ ->]%raise_if_Ok & E). apply bind_Ok in E as (rows & s1 & Hlat & E).
  pose proof (moves_latest (op_source op) s ex Hok) as Hl. unfold moves in Hl. rewrite Hlat in Hl. simpl in Hl.
  destruct Hl as (_ & _ & _ & F & _). destruct (F _ _ Ho) as (o' & Ho' & (_ & _ & _ & _ & Hkeep)).
  assert (o' = o) as ->.
  { apply Hkeep; [|done]. apply bool_decide_eq_true. unfold exec_key. pose proof (ok_keyed _ Hok _ _ Ho) as [= <- <-]. done. }
  rewrite atomic_Ok in E. apply bind_Ok in E as ([] & ? & ->%source_gate_Ok & E).
  apply bind_Ok in E as (? & ? & [-> ->]%gets_Ok & E). apply bind_Ok in E as (? & ? & [_ ->]%require_Ok & E).
  apply bind_Ok in E as ([] & ? & [_ ->]%raise_if_Ok & E). simpl in E. rewrite Ho' in E.
  rewrite bool_decide_eq_true_2 in E by done. apply ret_Ok in E as [-> ->]. done.
Qed.
End OperationStore.

(** ** A concrete run: a plan is started, executed and reviewed *)

Definition sample_plan : pydict := [("source_instance", PStr "pve-a"); ("digest", PStr "d1")].
Definition sample_sha (_ : string) : string := "d1".
Definition sample_worker (_ : string) (_ : pydict) : bool := true.
Definition sample_evidence (_ : exn) (_ : string) : option pydict := None.
Definition sample_operation : operation_row :=
  {| op_source := "pve-a"; op_kind := "PLAN"; op_id := 1; op_status := OP_RUNNING; op_started_at := 0%Z;
     op_updated_at := 60000000%Z; op_finished_at := None; op_error_code := None; op_result := None |}.
Definition sample_listed : db := (latest "netbox_sync" "pve-a" sample_db).2.
Definition sample_started : db := (start_transaction "netbox_sync" "pve-a" "PLAN" sample_listed).2.
Definition sample_begun : db := (begin_execution "netbox_sync" sample_operation sample_started).2.
Definition sample_finished : db :=
  (finish_execution "netbox_sync" sample_sha sample_worker sample_evidence sample_operation (Ok (PDict sample_plan)) sample_begun).2.

Definition sample_step : sys → sys → Prop := op_step "netbox_sync" sample_sha sample_worker sample_evidence.

Lemma sample_opens : sample_step (mkSys sample_listed []) (mkSys sample_started []).
Proof. exact (os_start _ _ _ _ sample_listed [] "pve-a" "PLAN"). Qed.
Lemma sample_begins : sample_step (mkSys sample_started []) (mkSys sample_begun [sample_operation]).
Proof. refine (os_begin _ _ _ _ sample_started [] sample_operation sample_operation _ _ _); vm_compute; reflexivity. Qed.
Lemma sample_executing : rtc sample_step (mkSys sample_db []) (mkSys sample_begun [sample_operation]).
Proof.
  apply (rtc_l _ _ (mkSys sample_listed [])); [exact (os_latest _ _ _ _ sample_db [] "pve-a")|].
  exact (rtc_l _ _ _ _ sample_opens (rtc_once _ _ sample_begins)).
Qed.

Lemma sample_reviewable : rtc sample_step (mkSys sample_db []) (mkSys sample_finished []).
Proof.
  eapply rtc_r; [exact sample_executing|]. apply (os_finish _ _ _ _ _ [] sample_operation []).
Qed.

#[export] Instance sample_uuids_inj : Inj (=) (=) (uuids sample_db).
Proof. intros n m. simpl. lia. Qed.

Lemma executions_fenced_witness : NoDup [exec_key "netbox_sync" sample_operation] ∧
  exec_key "netbox_sync" sample_operation ∈ session_locks sample_begun.
Proof.
  destruct (executions_fenced "netbox_sync" sample_sha sample_worker sample_evidence sample_db _ sample_executing
    ltac:(reflexivity) sample_uuids_inj) as [H1 H2].
  split; [exact H1|]. apply (H2 sample_operation). by left.
Defined.

Lemma reviewed_plan_intact_witness : ∃ o,
  (current_plan "pve-a" "d1" (Some 1%N) sample_finished).1 = Ok o ∧ op_id o = 1%N ∧ op_result o = Some sample_plan.
Proof.
  eexists. split; [vm_compute; reflexivity|].
  destruct (reviewed_plan_intact "netbox_sync" sample_sha sample_worker sample_evidence sample_db (mkSys sample_finished [])
    "pve-a" "d1" 1%N _ (current_plan "pve-a" "d1" (Some 1%N) sample_finished).2
    sample_reviewable ltac:(reflexivity) sample_uuids_inj ltac:(vm_compute; reflexivity)) as (H & _). split; [exact H|reflexivity].
Defined.

Lemma start_joins_execution_witness : ∃ r,
  (start "netbox_sync" "pve-a" "PLAN" sample_begun).1 = Ok r ∧ r.2 = false ∧ op_id r.1 = 1%N.
Proof.
  eexists. split; [vm_compute; reflexivity|].
  destruct (start_joins_execution "netbox_sync" sample_sha sample_worker sample_evidence sample_db sample_begun [sample_operation]
    sample_operation _ (start "netbox_sync" "pve-a" "PLAN" sample_begun).2 sample_executing ltac:(reflexivity) sample_uuids_inj
    ltac:(by left) ltac:(vm_compute; reflexivity)) as (H1 & H2 & _). split; [exact H1|exact H2].
Defined.
