(* ===== verification/Registry.v ===== *)
(** * The source registry (netbox_sync/source_registry.py)

    Rows of [sources] become validated configurations and back. A row holds the
    columns of a configuration; the onboarding mapping of the target is not a
    column but a member of the settings, and a calendar is written by the
    schedule worker only. The operations check the configuration again after
    every read, and an update is refused when [updated_at] moved since the row
    was read. A [jsonb] column is the object it was written from. *)

From S2P Require Import Prelude PyValue Calendar SourceConfig Schema EsxiIdentity RunHistory SourceOperations.
From stdpp Require Import base list strings gmap pretty.
From Stdlib Require Import ZArith Lia Ascii.
Local Open Scope string_scope.

Definition SUPPORTED_SOURCE_TYPES : list string := ["esxi"; "proxmox"].
Definition SUPPORTED_SECRET_PROVIDERS : list string := ["env"; "file"].
Definition IMMUTABLE_UPDATE_FIELDS : list string := ["id"; "source_instance"; "source_type"].
Definition MUTABLE_UPDATE_FIELDS : list string :=
  ["name"; "address"; "enabled"; "sync_enabled"; "sync_interval_seconds"; "verify_ssl"; "target"; "credentials";
   "legacy_identity_owner"; "settings"].

(** ** Validation *)

(** [part in text]. *)
Definition contains (part text : string) : bool := bool_decide (is_Some (String.index 0 part text)).

Definition secret_setting (key : string) : bool :=
  let lowered := casefold key in
  existsb (λ part, contains part lowered) ["password"; "secret"; "token_value"].

Definition validate_reference (r : SecretReference) : result exn unit :=
  if bool_decide (secret_provider r ∈ SUPPORTED_SECRET_PROVIDERS) then Ok tt
  else Err (ValueError ("unsupported secret provider: " +:+ repr_str (secret_provider r))).

Definition validate_config (c : SourceConfig) : result exn unit :=
  if negb (bool_decide (cfg_source_type c ∈ SUPPORTED_SOURCE_TYPES))
  then Err (ValueError ("unsupported source_type: " +:+ repr_str (cfg_source_type c)))
  else if bool_decide (cfg_source_type c = "esxi") && cfg_legacy_identity_owner c
  then Err (ValueError "ESXi cannot be a legacy identity owner")
  else
    validate_reference (cred_token_id (cfg_credentials c));;
    validate_reference (cred_token_secret (cfg_credentials c));;
    if existsb secret_setting (dkeys (cfg_settings c))
    then Err (ValueError "secret values are not allowed in source settings") else Ok tt.

(** ** Rows *)

(** A [SourceRecord] is a configuration and the two timestamps of its row. *)
Abbreviation SourceRecord := source_row.

Definition row_to_record (r : source_row) : result exn SourceRecord :=
  let c := src_config r in let t := cfg_target c in let k := cfg_credentials c in
  target ← new_target (with_mapping t []);
  token_id ← new_secret_reference (secret_provider (cred_token_id k)) (secret_key (cred_token_id k));
  token_secret ← new_secret_reference (secret_provider (cred_token_secret k)) (secret_key (cred_token_secret k));
  credentials ← new_credentials (cred_username k) token_id token_secret;
  config ← new_source_config (cfg_id c) (cfg_source_instance c) (cfg_name c) (cfg_source_type c) (cfg_address c)
             (cfg_enabled c) (cfg_sync_enabled c) (PInt (cfg_sync_interval_seconds c)) (cfg_verify_ssl c) target credentials
             (cfg_sync_calendar c) (if truthy (cfg_sync_calendar c) then cfg_schedule_changed_at c else None)
             (cfg_legacy_identity_owner c) (PDict (cfg_settings c));
  validate_config config;;
  Ok (mkSourceRow config (src_created_at r) (src_updated_at r)).

(** [_create_parameters] and the defaults of the columns the INSERT leaves out. *)
Definition create_row (c : SourceConfig) (now : Z) : source_row :=
  mkSourceRow
    {| cfg_id := cfg_id c; cfg_source_instance := cfg_source_instance c; cfg_name := cfg_name c;
       cfg_source_type := cfg_source_type c; cfg_address := cfg_address c; cfg_enabled := cfg_enabled c;
       cfg_sync_enabled := cfg_sync_enabled c; cfg_sync_interval_seconds := cfg_sync_interval_seconds c;
       cfg_verify_ssl := cfg_verify_ssl c; cfg_target := with_mapping (cfg_target c) []; cfg_credentials := cfg_credentials c;
       cfg_sync_calendar := PNone; cfg_schedule_changed_at := Some now;
       cfg_legacy_identity_owner := cfg_legacy_identity_owner c; cfg_settings := cfg_settings c |} now now.

(** [_update_parameters]: the calendar, its timestamp and the creation time are
    kept. *)
Definition update_row (c : SourceConfig) (now : Z) (old : source_row) : source_row :=
  let o := src_config old in
  mkSourceRow
    {| cfg_id := cfg_id o; cfg_source_instance := cfg_source_instance o; cfg_name := cfg_name c;
       cfg_source_type := cfg_source_type o; cfg_address := cfg_address c; cfg_enabled := cfg_enabled c;
       cfg_sync_enabled := cfg_sync_enabled c; cfg_sync_interval_seconds := cfg_sync_interval_seconds c;
       cfg_verify_ssl := cfg_verify_ssl c; cfg_target := with_mapping (cfg_target c) []; cfg_credentials := cfg_credentials c;
       cfg_sync_calendar := cfg_sync_calendar o; cfg_schedule_changed_at := cfg_schedule_changed_at o;
       cfg_legacy_identity_owner := cfg_legacy_identity_owner c; cfg_settings := cfg_settings c |}
    (src_created_at old) now.

Definition credential_refs (c : SourceConfig) : list SecretReference :=
  [cred_token_id (cfg_credentials c); cred_token_secret (cfg_credentials c)].

(** [guard_source_credential_refs] (migration 0005): a reference of a source
    with a tombstone is reserved, restored or not. *)
Definition refs_reserved (s : db) (c : SourceConfig) : bool :=
  exists_row (λ k r, bool_decide (is_Some (source_tombstones s !! k)) &&
                     existsb (λ ref, bool_decide (ref ∈ credential_refs c)) (credential_refs (src_config r))) (sources s).

Definition out_of_range : exn := DatabaseError "22003".
Definition int4 (z : Z) : bool := (-2147483648 <=? z)%Z && (z <=? 2147483647)%Z.

Definition by_id (id : string) (_ : string) (r : source_row) : bool := bool_decide (cfg_id (src_config r) = id).

(** [INSERT INTO sources ... RETURNING *]. *)
Definition insert_source (c : SourceConfig) : DB source_row :=
  now ← clock_timestamp;
  s ← gets id;
  raise_if (negb (int4 (cfg_sync_interval_seconds c))) out_of_range;;
  raise_if (refs_reserved s c) check_violation;;
  raise_if (negb (0 <? cfg_sync_interval_seconds c)%Z) check_violation;;
  raise_if (bool_decide (is_Some (sources s !! cfg_source_instance c)) || exists_row (by_id (cfg_id c)) (sources s))
    unique_violation;;
  let row := create_row c now in
  modify (on_sources (<[cfg_source_instance c := row]>));;
  mret row.

(** ** Operations *)

Definition SourceConflictError : exn := OtherException "SourceConflictError" None.
Definition SourceConcurrentUpdateError : exn := OtherException "SourceConcurrentUpdateError" None.

Definition create_source (c : SourceConfig) : DB SourceRecord :=
  lift (validate_config c);;
  row ← catch (atomic (insert_source c))
          (λ e, if bool_decide (e = unique_violation) then raise SourceConflictError else raise e);
  lift (row_to_record row).

Definition get_one (row : option source_row) : result exn (option SourceRecord) :=
  match row with Some r => record ← row_to_record r; Ok (Some record) | None => Ok None end.

Definition row_by_id (s : db) (id : string) : option source_row := snd <$> head (select (by_id id) (sources s)).

Definition get_source (id : string) : DB (option SourceRecord) :=
  s ← gets (λ s, s); lift (get_one (row_by_id s id)).

Definition get_by_source_instance (source : string) : DB (option SourceRecord) :=
  s ← gets (λ s, s); lift (get_one (sources s !! source)).

Definition get_source_config (id : string) : DB (option SourceConfig) :=
  record ← get_source id; mret (src_config <$> record).

(** [ORDER BY id]. *)
Definition id_leb (a b : source_row) : bool := String.leb (cfg_id (src_config a)) (cfg_id (src_config b)).
Definition rows_by_id (P : source_row → bool) (s : db) : list source_row :=
  isort id_leb (select (λ _ r, P r) (sources s)).*2.

Definition list_sources : DB (list SourceRecord) :=
  s ← gets id; lift (mapR row_to_record (rows_by_id (λ _, true) s)).

Definition load_result (r : source_row) : option SourceRecord :=
  match row_to_record r with Ok record => Some record | Err _ => None end.
(** [SourceLoadResult]s: a record, or an invalid row. *)
Definition list_sources_isolated : DB (list (option SourceRecord)) :=
  gets (λ s, map load_result (rows_by_id (λ _, true) s)).

Definition list_runnable_sources : DB (list SourceConfig) :=
  s ← gets id;
  records ← lift (mapR row_to_record (rows_by_id (λ r, cfg_enabled (src_config r) && cfg_sync_enabled (src_config r)) s));
  mret (map src_config records).

(** [settings.get("legacy_admission", {}).get("state")]. *)
Definition admission_state (c : SourceConfig) : result exn pyval := attr_get "state" (admission_decision (cfg_settings c)).

Definition assert_exclusive_host (c : SourceConfig) : DB unit :=
  let source := cfg_source_instance c in
  s ← gets id;
  raise_if (archived s source) (HostRegistrationConflict "SOURCE_ARCHIVED" (Some source) [] false);;
  if negb (bool_decide (cfg_source_type c = "esxi")) then mret tt
  else
    state ← lift (admission_state c);
    raise_if (py_eqb state (PStr "ISOLATED_UNPROVED") || py_eqb state (PStr "OBSERVED_ENDPOINT"))
      (HostRegistrationConflict "HOST_REGISTRY_REVIEW_REQUIRED" (Some source) [] false);;
    match registration_anchor (PDict (cfg_settings c)) with
    | None => mret tt
    | Some anchor =>
        raise_if (exists_row (λ k r, bool_decide (cfg_source_type (src_config r) = "esxi") && cfg_enabled (src_config r) &&
                    negb (bool_decide (k = source)) &&
                    bool_decide (registration_anchor (PDict (cfg_settings (src_config r))) = Some anchor)) (sources s))
          (host_conflict "HOST_IDENTITY_CONFLICT")
    end.

(** ** Updates *)

(** The keyword arguments of [update_source]; [ChOther] is any other name. *)
Inductive change :=
| ChName (v : string) | ChAddress (v : string) | ChEnabled (v : bool) | ChSyncEnabled (v : bool)
| ChInterval (v : pyval) | ChVerifySsl (v : bool) | ChTarget (v : NetBoxTargetConfig) | ChCredentials (v : SourceCredentials)
| ChLegacyOwner (v : bool) | ChSettings (v : pyval) | ChOther (field : string).

Definition change_field (ch : change) : string :=
  match ch with
  | ChName _ => "name" | ChAddress _ => "address" | ChEnabled _ => "enabled" | ChSyncEnabled _ => "sync_enabled"
  | ChInterval _ => "sync_interval_seconds" | ChVerifySsl _ => "verify_ssl" | ChTarget _ => "target"
  | ChCredentials _ => "credentials" | ChLegacyOwner _ => "legacy_identity_owner" | ChSettings _ => "settings"
  | ChOther f => f
  end.

(** The arguments of [replace]: the fields of the configuration, the interval
    and the settings not checked yet. *)
Record draft := mkDraft { dr_config : SourceConfig; dr_interval : pyval; dr_settings : pyval }.

Definition with_field (c : SourceConfig) (ch : change) : SourceConfig :=
  {| cfg_id := cfg_id c; cfg_source_instance := cfg_source_instance c;
     cfg_name := match ch with ChName v => v | _ => cfg_name c end;
     cfg_source_type := cfg_source_type c; cfg_address := match ch with ChAddress v => v | _ => cfg_address c end;
     cfg_enabled := match ch with ChEnabled v => v | _ => cfg_enabled c end;
     cfg_sync_enabled := match ch with ChSyncEnabled v => v | _ => cfg_sync_enabled c end;
     cfg_sync_interval_seconds := cfg_sync_interval_seconds c;
     cfg_verify_ssl := match ch with ChVerifySsl v => v | _ => cfg_verify_ssl c end;
     cfg_target := match ch with ChTarget v => v | _ => cfg_target c end;
     cfg_credentials := match ch with ChCredentials v => v | _ => cfg_credentials c end;
     cfg_sync_calendar := cfg_sync_calendar c; cfg_schedule_changed_at := cfg_schedule_changed_at c;
     cfg_legacy_identity_owner := match ch with ChLegacyOwner v => v | _ => cfg_legacy_identity_owner c end;
     cfg_settings := cfg_settings c |}.

Definition apply_change (d : draft) (ch : change) : draft :=
  mkDraft (with_field (dr_config d) ch) (match ch with ChInterval v => v | _ => dr_interval d end)
    (match ch with ChSettings v => v | _ => dr_settings d end).

Definition replace (c : SourceConfig) (changes : list change) : result exn SourceConfig :=
  let d := foldl apply_change (mkDraft c (PInt (cfg_sync_interval_seconds c)) (PDict (cfg_settings c))) changes in
  let e := dr_config d in
  new_source_config (cfg_id e) (cfg_source_instance e) (cfg_name e) (cfg_source_type e) (cfg_address e) (cfg_enabled e)
    (cfg_sync_enabled e) (dr_interval d) (cfg_verify_ssl e) (cfg_target e) (cfg_credentials e) (cfg_sync_calendar e)
    (cfg_schedule_changed_at e) (cfg_legacy_identity_owner e) (dr_settings d).

(** [==] of two configurations: dictionaries compare without their order. *)
Definition target_eqb (a b : NetBoxTargetConfig) : bool :=
  bool_decide (site_slug a = site_slug b) && bool_decide (device_role_slug a = device_role_slug b) &&
  bool_decide (platform_slug a = platform_slug b) && bool_decide (device_type_slug a = device_type_slug b) &&
  bool_decide (cluster_type_slug a = cluster_type_slug b) && bool_decide (cluster_name a = cluster_name b) &&
  py_eqb (PDict (onboarding_mapping a)) (PDict (onboarding_mapping b)).

Definition config_eqb (a b : SourceConfig) : bool :=
  bool_decide (cfg_id a = cfg_id b) && bool_decide (cfg_source_instance a = cfg_source_instance b) &&
  bool_decide (cfg_name a = cfg_name b) && bool_decide (cfg_source_type a = cfg_source_type b) &&
  bool_decide (cfg_address a = cfg_address b) && bool_decide (cfg_enabled a = cfg_enabled b) &&
  bool_decide (cfg_sync_enabled a = cfg_sync_enabled b) &&
  bool_decide (cfg_sync_interval_seconds a = cfg_sync_interval_seconds b) &&
  bool_decide (cfg_verify_ssl a = cfg_verify_ssl b) && target_eqb (cfg_target a) (cfg_target b) &&
  bool_decide (cred_username (cfg_credentials a) = cred_username (cfg_credentials b)) &&
  bool_decide (credential_refs a = credential_refs b) &&
  py_eqb (cfg_sync_calendar a) (cfg_sync_calendar b) &&
  bool_decide (cfg_schedule_changed_at a = cfg_schedule_changed_at b) &&
  bool_decide (cfg_legacy_identity_owner a = cfg_legacy_identity_owner b) &&
  py_eqb (PDict (cfg_settings a)) (PDict (cfg_settings b)).

(** [UPDATE sources SET ... WHERE id=%s AND updated_at=%s RETURNING *]. *)
Definition write_update (c : SourceConfig) (expected : Z) : DB source_row :=
  now ← clock_timestamp;
  s ← gets id;
  match head (select (λ k r, by_id (cfg_id c) k r && bool_decide (src_updated_at r = expected)) (sources s)) with
  | None => raise SourceConcurrentUpdateError
  | Some (k, old) =>
      raise_if (negb (int4 (cfg_sync_interval_seconds c))) out_of_range;;
      raise_if (negb (bool_decide (credential_refs c = credential_refs (src_config old))) && refs_reserved s c) check_violation;;
      raise_if (negb (0 <? cfg_sync_interval_seconds c)%Z) check_violation;;
      let row := update_row c now old in
      modify (on_sources (<[k := row]>));;
      mret row
  end.

Definition forbidden_fields (changes : list change) : list string :=
  filter (.∈ IMMUTABLE_UPDATE_FIELDS) (map change_field changes).
Definition unknown_fields (changes : list change) : list string :=
  filter (.∉ MUTABLE_UPDATE_FIELDS) (map change_field changes).

(** [between] is what other sessions do between the read and the update, which
    are two transactions. *)
Definition update_source (between : db → db) (id : string) (changes : list change) : DB SourceRecord :=
  let forbidden := forbidden_fields changes in
  raise_if (negb (bool_decide (forbidden = [])))
    (ValueError ("immutable source fields cannot be updated: " +:+ PyValue.join ", " (isort String.leb forbidden)));;
  raise_if (negb (bool_decide (unknown_fields changes = [])))
    (ValueError ("unsupported source update fields: " +:+ py_repr (PList (map PStr (isort String.leb (unknown_fields changes))))));;
  found ← get_source id;
  existing ← require found (KeyError id);
  if bool_decide (length changes = 0%nat) then mret existing
  else
    candidate ← lift (replace (src_config existing) changes);
    lift (validate_config candidate);;
    if config_eqb candidate (src_config existing) then mret existing
    else
      modify between;;
      row ← atomic (write_update candidate (src_updated_at existing));
      lift (row_to_record row).

(** ** Every configuration that leaves the registry is admitted *)

Record admitted (c : SourceConfig) : Prop := {
  admitted_valid : valid_config c;
  admitted_target : valid_target (cfg_target c) = true;
  admitted_type : cfg_source_type c = "esxi" ∧ cfg_legacy_identity_owner c = false ∨ cfg_source_type c = "proxmox";
  admitted_refs : ∀ r, r ∈ credential_refs c →
    secret_provider r ∈ SUPPORTED_SECRET_PROVIDERS ∧ blank (secret_key r) = false;
  admitted_user : blank (cred_username (cfg_credentials c)) = false;
  admitted_settings : ∀ k, k ∈ dkeys (cfg_settings c) → secret_setting k = false }.

Lemma validate_config_Ok c u :
  validate_config c = Ok u →
  (cfg_source_type c = "esxi" ∧ cfg_legacy_identity_owner c = false ∨ cfg_source_type c = "proxmox") ∧
  (∀ r, r ∈ credential_refs c → secret_provider r ∈ SUPPORTED_SECRET_PROVIDERS) ∧
  (∀ k, k ∈ dkeys (cfg_settings c) → secret_setting k = false).
Proof.
  unfold validate_config, validate_reference. intros H.
  destruct (negb _) eqn:Et; [done|]. destruct (_ && _) eqn:El; [done|]. inv_m. inv_bool.
  repeat match goal with H : (if bool_decide _ then _ else _) = Ok _ |- _ => case_bool_decide; [|done] end.
  destruct (existsb _ _) eqn:Es; [done|]. split_and!.
  - unfold SUPPORTED_SOURCE_TYPES in *. apply list_elem_of_In in Et. simpl in Et.
    destruct Et as [E|[E|[]]]; [left|by right]. symmetry in E. rewrite (bool_decide_eq_true_2 _ E) in El. by rewrite andb_true_l in El.
  - unfold credential_refs. intros r Hr. apply list_elem_of_In in Hr. destruct Hr as [<-|[<-|[]]]; done.
  - intros k Hk. apply not_true_iff_false. intros Hs. apply not_true_iff_false in Es. apply Es, existsb_exists. exists k.
    by rewrite <-list_elem_of_In.
Qed.

Lemma new_target_Ok t t' : new_target t = Ok t' → t' = t ∧ valid_target t = true.
Proof.
  unfold new_target, valid_target. intros H. inv_m. rewrite require_text_Ok in *.
  repeat match goal with H : blank _ = false |- _ => rewrite H; clear H end. done.
Qed.

Lemma new_reference_Ok p k r : new_secret_reference p k = Ok r → r = mkSecretReference p k ∧ blank k = false.
Proof. unfold new_secret_reference. intros H. inv_m. rewrite require_text_Ok in *. done. Qed.

Lemma new_credentials_Ok u a b c : new_credentials u a b = Ok c → c = mkCredentials u a b ∧ blank u = false.
Proof. unfold new_credentials. intros H. inv_m. rewrite require_text_Ok in *. done. Qed.

Lemma valid_with_mapping t m : valid_target (with_mapping t m) = valid_target t.
Proof. done. Qed.

(** The fields of a constructed configuration are its arguments, apart from the
    mapping of the target. *)
Lemma new_source_config_fields i si n st a e se z vs t cr cal ch lo set c :
  new_source_config i si n st a e se (PInt z) vs t cr cal ch lo (PDict set) = Ok c →
  ∃ m, c = mkSourceConfig i si n st a e se z vs (with_mapping t m) cr cal ch lo set ∧
       (valid_target t = true → valid_target (cfg_target c) = true).
Proof.
  unfold new_source_config. intros Hc. inv_m.
  destruct (source_instance_ok si); [|done]. destruct (source_type_ok st); [|done]. simpl in *.
  inv_m. destruct (z <=? 0)%Z; [done|]. inv_m.
  match goal with H : (if truthy _ then _ else _) = Ok _ |- _ => rename H into Ht end.
  destruct (truthy _); inv_m.
  - match goal with H : new_target _ = Ok _ |- _ => apply new_target_Ok in H as [-> Hv] end. eauto.
  - match goal with |- ∃ _, mkSourceConfig _ _ _ _ _ _ _ _ _ ?t _ _ _ _ _ = _ ∧ _ =>
      exists (onboarding_mapping t); by destruct t end.
Qed.

Lemma row_to_record_Ok r rec :
  row_to_record r = Ok rec →
  admitted (src_config rec) ∧ cfg_id (src_config rec) = cfg_id (src_config r) ∧
  cfg_source_instance (src_config rec) = cfg_source_instance (src_config r) ∧
  cfg_enabled (src_config rec) = cfg_enabled (src_config r) ∧
  cfg_sync_enabled (src_config rec) = cfg_sync_enabled (src_config r) ∧
  cfg_settings (src_config rec) = cfg_settings (src_config r) ∧ src_updated_at rec = src_updated_at r.
Proof.
  unfold row_to_record. intros H. inv_m.
  repeat match goal with
  | H : new_target _ = Ok _ |- _ => apply new_target_Ok in H as [-> Hvt]
  | H : new_secret_reference _ _ = Ok _ |- _ => apply new_reference_Ok in H as [-> ?]
  | H : new_credentials _ _ _ = Ok _ |- _ => apply new_credentials_Ok in H as [-> ?]
  | H : validate_config _ = Ok _ |- _ => apply validate_config_Ok in H as (Hty & Hrefs & Hset)
  end.
  match goal with H : new_source_config _ _ _ _ _ _ _ _ _ _ _ _ _ _ _ = Ok _ |- _ =>
    pose proof (proj1 (new_source_config_Ok _ _ _ _ _ _ _ _ _ _ _ _ _ _ _ _ H)) as Hv;
    apply new_source_config_fields in H as (m & -> & Ht) end.
  simpl. split_and!; try done. split; try done.
  - intros r' Hr. split; [by apply Hrefs|]. apply list_elem_of_In in Hr. simpl in Hr. naive_solver.
Qed.

Lemma rows_by_id_perm P s : rows_by_id P s ≡ₚ (select (λ _ r, P r) (sources s)).*2.
Proof. apply isort_Permutation. Qed.

Lemma elem_of_rows_by_id P s r : r ∈ rows_by_id P s → ∃ k, sources s !! k = Some r ∧ P r = true.
Proof.
  rewrite rows_by_id_perm. intros ([k r'] & -> & Hin)%list_elem_of_fmap. exists k. by apply elem_of_select in Hin.
Qed.

Lemma length_rows_by_id s : length (rows_by_id (λ _, true) s) = size (sources s).
Proof.
  rewrite rows_by_id_perm, length_fmap. unfold select. rewrite filter_all by done. apply length_map_to_list.
Qed.

Lemma mapR_records rows records :
  mapR row_to_record rows = Ok records → Forall2 (λ r rec, row_to_record r = Ok rec) rows records.
Proof. intros H. by apply mapR_Ok. Qed.

(** C31: every configuration the registry hands out is well typed. Whatever the
    rows hold, a read by id or by instance, the full list, the isolated list of
    the scheduler and the runnable list return only configurations that satisfy
    the checks of [SourceConfig] and of the registry: patterns, positive
    interval, valid calendar and port, a supported type and provider, no ESXi
    legacy owner and no secret in the settings. The isolated list has one entry
    per row, and every runnable configuration is enabled for synchronization. *)
Theorem registry_hands_out_admitted s :
  (∀ id rec, (get_source id s).1 = Ok (Some rec) → admitted (src_config rec) ∧ cfg_id (src_config rec) = id) ∧
  (∀ source rec, (get_by_source_instance source s).1 = Ok (Some rec) → admitted (src_config rec)) ∧
  (∀ l, (list_sources s).1 = Ok l → Forall (λ rec, admitted (src_config rec)) l ∧ length l = size (sources s)) ∧
  (∀ l, (list_sources_isolated s).1 = Ok l →
     length l = size (sources s) ∧ ∀ rec, Some rec ∈ l → admitted (src_config rec)) ∧
  (∀ l, (list_runnable_sources s).1 = Ok l →
     Forall (λ c, admitted c ∧ cfg_enabled c = true ∧ cfg_sync_enabled c = true) l).
Proof.
  split_and!.
  - unfold get_source, get_one, row_by_id. intros id rec H. simpl in H.
    destruct (head _) as [[k r]|] eqn:Eh; simpl in H; [|done].
    apply head_select_Some in Eh as [_ Hid%bool_decide_eq_true]. destruct (row_to_record r) eqn:E; [|done]. simpl in H.
    simplify_eq. apply row_to_record_Ok in E as (? & ? & _). naive_solver.
  - unfold get_by_source_instance, get_one. intros source rec H. simpl in H. destruct (sources s !! source); [|done].
    destruct (row_to_record _) eqn:E; [|done]. simpl in H. simplify_eq. by apply row_to_record_Ok in E as [? _].
  - unfold list_sources. intros l H. simpl in H. apply mapR_records in H. split.
    + apply Forall_forall. intros rec (i & Hi)%list_elem_of_lookup. destruct (Forall2_lookup_r _ _ _ _ _ H Hi) as (r & _ & E).
      by apply row_to_record_Ok in E as [? _].
    + by rewrite <-(Forall2_length _ _ _ H), length_rows_by_id.
  - intros l [= <-]. rewrite length_map, length_rows_by_id. split; [done|].
    intros rec (r & E & _)%list_elem_of_fmap. unfold load_result in E. destruct (row_to_record r) eqn:Er; [|done].
    simplify_eq. by apply row_to_record_Ok in Er as [? _].
  - intros l H. destruct (list_runnable_sources s) as [res s1] eqn:E. simpl in H. subst res.
    unfold list_runnable_sources in E. inv_m. match goal with H : mapR _ _ = _ |- _ => apply mapR_records in H as Em end.
    apply Forall_fmap, Forall_forall. intros rec (i & Hi)%list_elem_of_lookup.
    destruct (Forall2_lookup_r _ _ _ _ _ Em Hi) as (r & Hr & E). apply list_elem_of_lookup_2, elem_of_rows_by_id in Hr as (k & _ & Hf).
    apply row_to_record_Ok in E as (? & _ & _ & He & Hs & _). simpl. rewrite He, Hs. by inv_bool.
Qed.

(** ** Creating *)

Definition registry_ok (s : db) : Prop :=
  (∀ k r, sources s !! k = Some r → cfg_source_instance (src_config r) = k) ∧
  (∀ k k' r r', sources s !! k = Some r → sources s !! k' = Some r' → cfg_id (src_config r) = cfg_id (src_config r') → k = k').

(** A configuration as the constructors build it, without a calendar. *)
Inductive built (c : SourceConfig) : Prop :=
| built_by t p1 k1 r1 p2 k2 r2 u cr i si n st a e se z vs lo set :
    new_target t = Ok t → onboarding_mapping t = [] →
    new_secret_reference p1 k1 = Ok r1 → new_secret_reference p2 k2 = Ok r2 → new_credentials u r1 r2 = Ok cr →
    new_source_config i si n st a e se (PInt z) vs t cr PNone None lo (PDict set) = Ok c →
    built c.

Lemma row_of_built c now :
  built c → validate_config c = Ok tt → row_to_record (create_row c now) = Ok (mkSourceRow c now now).
Proof.
  intros [t p1 k1 r1 p2 k2 r2 u cr i si n st a e se z vs lo set Ht Hm H1 H2 Hcr Hc] Hv.
  pose proof H1 as [-> _]%new_reference_Ok. pose proof H2 as [-> _]%new_reference_Ok. pose proof Hcr as [-> _]%new_credentials_Ok.
  pose proof (new_source_config_fields _ _ _ _ _ _ _ _ _ _ _ _ _ _ _ _ Hc) as (m & -> & _).
  unfold row_to_record, create_row. cbn -[new_target new_secret_reference new_credentials new_source_config validate_config with_mapping].
  assert (with_mapping (with_mapping (with_mapping t m) []) [] = t) as -> by (destruct t; simpl in *; by subst).
  rewrite Ht, H1, H2. cbn -[new_credentials new_source_config validate_config]. rewrite Hcr.
  cbn -[new_source_config validate_config]. rewrite Hc. cbn -[validate_config]. by rewrite Hv.
Qed.

Lemma insert_source_Ok c s r s' :
  insert_source c s = (Ok r, s') →
  r = create_row c (clock s (ticks s)) ∧
  s' = on_sources (<[cfg_source_instance c := r]>) (on_ticks S s) ∧ refs_reserved s c = false ∧
  sources s !! cfg_source_instance c = None ∧ exists_row (by_id (cfg_id c)) (sources s) = false.
Proof.
  unfold insert_source. intros H. inv_m. inv_db. inv_bool. simpl in *.
  split_and!; try done. by apply eq_None_not_Some.
Qed.

Lemma create_source_Ok c s rec s' :
  create_source c s = (Ok rec, s') →
  validate_config c = Ok tt ∧ ∃ r, insert_source c s = (Ok r, s') ∧ row_to_record r = Ok rec.
Proof.
  unfold create_source. intros H. apply bind_Ok in H as ([] & ? & [Hv ->]%lift_Ok & H). split; [done|].
  apply bind_Ok in H as (r & ? & Hc & [Hr ->]%lift_Ok). exists r. split; [|done].
  apply catch_Ok in Hc as [Hc|(e & ? & _ & He)]; [by apply (proj1 (atomic_Ok _ _ _ _))|]. case_bool_decide; by apply raise_Ok in He.
Qed.

(** C32: a created source is read back as it was given. For a configuration built by
    its constructors without a calendar, a successful [create_source] adds one row
    under an instance and an id that were free, keeps every other row and every other
    table, and is followed by reads, by id and by instance, that return exactly that
    configuration with the mapping of its settings; the registry keeps its keys
    unique. It is what a registration relies on when it reconciles an uncertain commit
    by comparing the stored configuration with its own. *)
Theorem created_reads_back c s rec s' :
  registry_ok s → built c → create_source c s = (Ok rec, s') →
  src_config rec = c ∧ registry_ok s' ∧
  sources s !! cfg_source_instance c = None ∧ (∀ k r, sources s !! k = Some r → cfg_id (src_config r) ≠ cfg_id c) ∧
  is_Some (sources s' !! cfg_source_instance c) ∧ (∀ k, k ≠ cfg_source_instance c → sources s' !! k = sources s !! k) ∧
  s' = on_ticks (λ _, ticks s') (on_sources (λ _, sources s') s) ∧
  get_by_source_instance (cfg_source_instance c) s' = (Ok (Some rec), s') ∧ get_source (cfg_id c) s' = (Ok (Some rec), s').
Proof.
  intros [Hk Hid] Hb Hc. pose proof Hc as (Hv & r & (-> & -> & _ & Hn & Hx)%insert_source_Ok & Hr)%create_source_Ok.
  rewrite row_of_built in Hr by done. injection Hr as <-.
  assert (∀ k r0, sources s !! k = Some r0 → cfg_id (src_config r0) ≠ cfg_id c) as Hfresh.
  { intros k r0 Hr0. by apply exists_row_false with (k := k) (r := r0) in Hx; [apply bool_decide_eq_false in Hx|]. }
  split; [done|]. split_and!.
  - split; simpl.
    + intros k r0 [[<- <-]|[_ H0]]%lookup_insert_Some; [done|by apply Hk].
    + intros k k' r0 r1 [[<- <-]|[_ H0]]%lookup_insert_Some [[<- <-]|[_ H1]]%lookup_insert_Some E; try done.
      * symmetry in E. by destruct (Hfresh _ _ H1).
      * by destruct (Hfresh _ _ H0).
      * by eapply Hid.
  - done.
  - done.
  - simpl. by rewrite lookup_insert_eq.
  - intros k Hne. simpl. by rewrite lookup_insert_ne.
  - by destruct s.
  - unfold get_by_source_instance. simpl. unfold mbind, M_bind, gets, lift. simpl. rewrite lookup_insert_eq. simpl.
    by rewrite row_of_built.
  - unfold get_source, row_by_id. simpl. unfold mbind, M_bind, gets, lift. simpl.
    destruct (head _) as [[k r0]|] eqn:Eh.
    + apply head_select_Some in Eh as [[[<- <-]|[_ H0]]%lookup_insert_Some Hi%bool_decide_eq_true]; [|by destruct (Hfresh _ _ H0)].
      simpl. by rewrite row_of_built.
    + exfalso. pose proof (proj1 (head_select_None _ _) Eh (cfg_source_instance c) _ (lookup_insert_eq _ _ _)) as Hf.
      unfold by_id in Hf. by rewrite bool_decide_eq_true_2 in Hf.
Qed.

(** ** Updating *)

Lemma get_one_Ok row rec : get_one row = Ok (Some rec) → ∃ r, row = Some r ∧ row_to_record r = Ok rec.
Proof. unfold get_one. destruct row as [r|]; [|done]. destruct (row_to_record r) eqn:E; [|done]. intros [= <-]. eauto. Qed.

Lemma replace_fields c changes d :
  replace c changes = Ok d → forbidden_fields changes = [] →
  cfg_id d = cfg_id c ∧ cfg_source_instance d = cfg_source_instance c ∧ cfg_source_type d = cfg_source_type c.
Proof.
  intros H _. unfold replace in H.
  apply new_source_config_Ok in H as (_ & Hi & Hs & Ht & _). rewrite Hi, Hs, Ht. clear.
  set (d0 := mkDraft _ _ _).
  assert (cfg_id (dr_config d0) = cfg_id c ∧ cfg_source_instance (dr_config d0) = cfg_source_instance c ∧
          cfg_source_type (dr_config d0) = cfg_source_type c) as H0 by done.
  clearbody d0. revert d0 H0. induction changes as [|ch changes IH]; intros d0 H0; [done|]. simpl. by apply IH.
Qed.

(** The columns an update never writes. *)
Definition kept_columns (old new : source_row) : Prop :=
  cfg_id (src_config new) = cfg_id (src_config old) ∧
  cfg_source_instance (src_config new) = cfg_source_instance (src_config old) ∧
  cfg_source_type (src_config new) = cfg_source_type (src_config old) ∧
  cfg_sync_calendar (src_config new) = cfg_sync_calendar (src_config old) ∧
  cfg_schedule_changed_at (src_config new) = cfg_schedule_changed_at (src_config old) ∧
  src_created_at new = src_created_at old.

Lemma write_update_cases c expected s :
  (∃ e, atomic (write_update c expected) s = (Err e, s)) ∨
  ∃ k old, let new := update_row c (clock s (ticks s)) old in
    sources s !! k = Some old ∧ cfg_id (src_config old) = cfg_id c ∧ src_updated_at old = expected ∧
    atomic (write_update c expected) s = (Ok new, on_sources (<[k := new]>) (on_ticks S s)).
Proof.
  destruct (write_update c expected s) as [[r|e] s'] eqn:E; [right|left; exists e; unfold atomic; by rewrite E].
  pose proof E as Ea. apply atomic_Ok in Ea. rewrite Ea. unfold write_update in E. inv_m. inv_db. simpl in *.
  match goal with H : match head _ with _ => _ end _ = _ |- _ => rename H into E end.
  destruct (head _) as [[k old]|] eqn:Eh; [|by apply raise_Ok in E].
  apply head_select_Some in Eh as [Hk [Hi Hu]%andb_prop]. unfold by_id in Hi. inv_m. inv_bool. exists k, old. done.
Qed.

(** Queries and checks at the head of a handler leave the state as it is. *)
Lemma checked {A B} (m : DB A) (k : A → DB B) s res s' :
  moves eq m s → (m ≫= k) s = (res, s') → s' = s ∨ ∃ a, m s = (Ok a, s) ∧ k a s = (res, s').
Proof.
  unfold moves. intros Hm H. apply bind_cases in H as [(e & E & _)|(a & s1 & E & H)]; rewrite E in Hm; simpl in Hm; subst.
  - by left.
  - right. eauto.
Qed.
Ltac checked H x E := apply checked in H; [destruct H as [H|(x & E & H)]; [by left|]|by db_moves].

(** C33: an update is optimistic and narrow. Whatever other sessions do between the
    read of the row and the transaction that writes it, [update_source] ends in
    one of three ways: it changes nothing; it raises and leaves what the others
    did; or it rewrites one row, whose [updated_at] is still the one that was
    read, and keeps its id, instance, type, calendar and creation time. So a row
    whose [updated_at] moved in between is never overwritten. *)
Theorem update_is_optimistic between id changes s res s' :
  update_source between id changes s = (res, s') →
  s' = s ∨
  (s' = between s ∧ ∃ e, res = Err e) ∨
  ∃ k read old new,
    row_by_id s id = Some read ∧ sources (between s) !! k = Some old ∧ cfg_id (src_config old) = id ∧
    src_updated_at old = src_updated_at read ∧ kept_columns old new ∧ sources s' = <[k := new]> (sources (between s)).
Proof.
  unfold update_source, get_source. intros H.
  checked H x E1. apply raise_if_Ok in E1 as [Ef%negb_false_iff%bool_decide_eq_true _]. checked H x2 E2.
  checked H found E3. apply bind_Ok in E3 as (s0 & ? & [-> ->]%gets_Ok & [Eg _]%lift_Ok).
  checked H rec E4. apply require_Ok in E4 as [-> _]. apply get_one_Ok in Eg as (read & Eread & Erec).
  apply row_to_record_Ok in Erec as (_ & Hid & _ & _ & _ & _ & Hup).
  case_bool_decide; [left; by injection H|]. checked H cand E5. apply lift_Ok in E5 as [Er _].
  apply replace_fields in Er as (Hci & _); [|done]. checked H x6 E6.
  destruct (config_eqb cand (src_config rec)); [left; by injection H|].
  apply bind_cases in H as [(e & E & _)|(? & s1 & ->%modify_Ok & H)]; [done|].
  unfold mbind, M_bind in H.
  destruct (write_update_cases cand (src_updated_at rec) (between s)) as [(e & Ew)|(k & old & Hk & Ho & Hu & Ew)]; rewrite Ew in H.
  - right; left. injection H as <- <-. eauto.
  - right; right. injection H as _ <-. exists k, read, old, (update_row cand (clock (between s) (ticks (between s))) old).
    split_and!; [done|done| |by rewrite <-Hup|by unfold kept_columns|done].
    rewrite Ho, Hci, Hid. unfold row_by_id in Eread. destruct (head _) as [[k' r']|] eqn:Eh; [|done].
    apply head_select_Some in Eh as [_ Hb%bool_decide_eq_true]. simpl in Eread. by simplify_eq.
Qed.

(** ** A concrete registry *)

Definition esxi_mapping : pydict :=
  [("hosts", PList [PDict [("id", PStr "44454C4C-3600-104B-8034-B7C04F4D3432")]])].
Definition esxi_target : NetBoxTargetConfig := mkTarget "site" "role" "platform" "type" "ctype" "cluster" [].
Definition esxi_ref : SecretReference := mkSecretReference "file" "src-esx-a-secret".
Definition esxi_config : SourceConfig := {|
  cfg_id := "esx-a"; cfg_source_instance := "esx-a"; cfg_name := "esx-a"; cfg_source_type := "esxi";
  cfg_address := "10.0.0.2"; cfg_enabled := true; cfg_sync_enabled := false; cfg_sync_interval_seconds := 600;
  cfg_verify_ssl := true; cfg_target := with_mapping esxi_target esxi_mapping;
  cfg_credentials := mkCredentials "root" esxi_ref esxi_ref; cfg_sync_calendar := PNone; cfg_schedule_changed_at := None;
  cfg_legacy_identity_owner := false; cfg_settings := [("onboarding_mapping", PDict esxi_mapping)] |}.

Lemma esxi_built : built esxi_config.
Proof.
  by apply (built_by esxi_config esxi_target "file" "src-esx-a-secret" esxi_ref "file" "src-esx-a-secret" esxi_ref "root"
    (mkCredentials "root" esxi_ref esxi_ref) "esx-a" "esx-a" "esx-a" "esxi" "10.0.0.2" true false 600 true false
    [("onboarding_mapping", PDict esxi_mapping)]).
Qed.

Lemma empty_registry : registry_ok empty_db.
Proof. split; simpl; intros *; by rewrite lookup_empty. Qed.

Definition esxi_record : SourceRecord := mkSourceRow esxi_config 0 0.
Definition esxi_db : db := (create_source esxi_config empty_db).2.

Lemma esxi_created : create_source esxi_config empty_db = (Ok esxi_record, esxi_db).
Proof. vm_compute. reflexivity. Qed.

Lemma registry_hands_out_admitted_witness :
  (get_source "esx-a" esxi_db).1 = Ok (Some esxi_record) ∧ admitted esxi_config.
Proof.
  assert ((get_source "esx-a" esxi_db).1 = Ok (Some esxi_record)) as E by (vm_compute; reflexivity).
  split; [exact E|]. exact (proj1 (proj1 (registry_hands_out_admitted esxi_db) "esx-a" esxi_record E)).
Defined.

Lemma created_reads_back_witness : get_source "esx-a" esxi_db = (Ok (Some esxi_record), esxi_db).
Proof.
  destruct (created_reads_back esxi_config empty_db esxi_record esxi_db empty_registry esxi_built esxi_created) as (_ & _ & _ & _ & _ & _ & _ & _ & H).
  exact H.
Defined.

(** Another session touches the row between the read and the write. *)
Definition touch (s : db) : db := on_sources (alter (λ r, mkSourceRow (src_config r) (src_created_at r) 7) "esx-a") s.

Lemma update_is_optimistic_witness :
  update_source touch "esx-a" [ChName "renamed"] esxi_db = (Err SourceConcurrentUpdateError, touch esxi_db) ∧
  (touch esxi_db = esxi_db ∨ (touch esxi_db = touch esxi_db ∧ ∃ e, Err SourceConcurrentUpdateError = (Err e : result exn SourceRecord)) ∨
   ∃ k read old new,
     row_by_id esxi_db "esx-a" = Some read ∧ sources (touch esxi_db) !! k = Some old ∧ cfg_id (src_config old) = "esx-a" ∧
     src_updated_at old = src_updated_at read ∧ kept_columns old new ∧
     sources (touch esxi_db) = <[k := new]> (sources (touch esxi_db))).
Proof.
  assert (update_source touch "esx-a" [ChName "renamed"] esxi_db = (Err SourceConcurrentUpdateError, touch esxi_db)) as E
    by (vm_compute; reflexivity).
  split; [exact E|]. exact (update_is_optimistic touch "esx-a" [ChName "renamed"] esxi_db _ _ E).
Defined.

Example update_renames :
  (update_source id "esx-a" [ChName "renamed"] esxi_db).1 =
  Ok (mkSourceRow (with_field esxi_config (ChName "renamed")) 0 60000000).
Proof. vm_compute. reflexivity. Qed.
Example update_refuses_identity :
  (update_source id "esx-a" [ChOther "source_type"; ChOther "id"] esxi_db).1 =
  Err (ValueError "immutable source fields cannot be updated: id, source_type").
Proof. vm_compute. reflexivity. Qed.
Example sharp_s : secret_setting ("Pa" +:+ String (ascii_of_nat 223) "WORD") = true ∧ secret_setting "api_port" = false.
Proof. vm_compute. done. Qed.
