(* ===== verification/SourceLifecycle.v ===== *)
(** * Source lifecycle (netbox_sync/source_lifecycle.py)

    Tombstones and the narrow removal capability: the projection the admin reads,
    rename, removal under the shared apply lock, and the cleanup of credential
    files that no other source references. The hash, the rendering of a
    timestamp and the outcome of a deletion of files are parameters. The state
    is the database together with the log of the key lists handed to [cleanup];
    the flock on [lock_path] is a member of the set of held locks. *)

From S2P Require Import Prelude PyValue SourceConfig Schema RunHistory SourceOperations.
From stdpp Require Import base list strings gmap pretty.
From Stdlib Require Import ZArith Lia Ascii.
Local Open Scope string_scope.

Record lworld := mkLW { lw_db : db; lw_cleaned : list (list string) }.

Definition in_db {A} (m : DB A) : M lworld exn A := λ w,
  let '(r, s) := m (lw_db w) in (r, mkLW s (lw_cleaned w)).

(** ** Conditions shared by the lifecycle transitions *)

Definition operation_active (s : db) (source : string) : bool :=
  exists_row (λ _ o, bool_decide (op_source o = source) && bool_decide (op_status o = OP_RUNNING)) (source_operations s).

Definition run_blocks (st : RunStatus) : bool := bool_decide (st ∈ [RUNNING; OUTCOME_UNCERTAIN; PARTIALLY_APPLIED]).

Definition run_blocked (s : db) (source : string) : bool :=
  exists_row (λ _ r, bool_decide (run_source_instance r = source) && run_blocks (run_status r)) (blocking_sync_runs s).

(** ** Rows *)

Definition with_name (name : string) (r : source_row) : source_row :=
  let c := src_config r in
  mkSourceRow
    {| cfg_id := cfg_id c; cfg_source_instance := cfg_source_instance c; cfg_name := name;
       cfg_source_type := cfg_source_type c; cfg_address := cfg_address c; cfg_enabled := cfg_enabled c;
       cfg_sync_enabled := cfg_sync_enabled c; cfg_sync_interval_seconds := cfg_sync_interval_seconds c;
       cfg_verify_ssl := cfg_verify_ssl c; cfg_target := cfg_target c; cfg_credentials := cfg_credentials c;
       cfg_sync_calendar := cfg_sync_calendar c; cfg_schedule_changed_at := cfg_schedule_changed_at c;
       cfg_legacy_identity_owner := cfg_legacy_identity_owner c; cfg_settings := cfg_settings c |}
    (src_created_at r) (src_updated_at r).

Definition with_flags (enabled sync_enabled : bool) (r : source_row) : source_row :=
  let c := src_config r in
  mkSourceRow
    {| cfg_id := cfg_id c; cfg_source_instance := cfg_source_instance c; cfg_name := cfg_name c;
       cfg_source_type := cfg_source_type c; cfg_address := cfg_address c; cfg_enabled := enabled;
       cfg_sync_enabled := sync_enabled; cfg_sync_interval_seconds := cfg_sync_interval_seconds c;
       cfg_verify_ssl := cfg_verify_ssl c; cfg_target := cfg_target c; cfg_credentials := cfg_credentials c;
       cfg_sync_calendar := cfg_sync_calendar c; cfg_schedule_changed_at := cfg_schedule_changed_at c;
       cfg_legacy_identity_owner := cfg_legacy_identity_owner c; cfg_settings := cfg_settings c |}
    (src_created_at r) (src_updated_at r).

(** [UPDATE sources SET enabled=false, sync_enabled=false WHERE source_instance=...]. *)
Definition disable_source (source : string) : DB unit := modify (on_sources (alter (with_flags false false) source)).

Definition with_credential_state (state : CredentialState) (t : tombstone_row) : tombstone_row :=
  mkTombstone (tomb_display_name t) (tomb_removed_at t) state (tomb_restored_at t).

(** The tombstone of a removed source that was not restored. *)
Definition removed_row (s : db) (source : string) : option tombstone_row :=
  t ← source_tombstones s !! source; if bool_decide (is_Some (tomb_restored_at t)) then None else Some t.

(** ** The projection *)

Inductive retirement_hint :=
| Retiring (operation_id : string) (state : RetirementState) (archive_required : bool)
| Queued (operation_id : string) (state : RemovalState).

Inductive lifecycle_view :=
| RemovedView (display_name : string) (removed_at : Z) (credential_state : CredentialState) (archive_mode : option string)
    (retirement : option retirement_hint)
| RegisteredView (display_name : string) (retirement : option retirement_hint) (removal_blocker : option string)
    (revision : string).

Record source_evidence := mkSourceEvidence {
  ev_source : string; ev_plan_status : option OperationStatus; ev_plan_checked_at : option Z; ev_plan_blocked : bool;
  ev_outcome_unconfirmed : bool }.

(** The condition and the order of [_retirement_hint]. *)
Definition hinted (source : string) (removed : option tombstone_row) (_ : N) (r : retirement_row) : bool :=
  bool_decide (ret_source r = source) &&
  (ret_inflight r ||
   match removed with
   | Some t =>
       bool_decide (ret_state r = RT_BLOCKED) ||
       (bool_decide (ret_state r = RT_FINALIZED) &&
        match ret_finished_at r with Some f => (tomb_removed_at t <=? f)%Z | None => false end)
   | None => bool_decide (ret_state r = RT_BLOCKED) && bool_decide (ret_safe_code r = Some "SOURCE_OPERATION_ACTIVE")
   end).

Definition hint_leb (a b : N * retirement_row) : bool :=
  match ret_inflight a.2, ret_inflight b.2 with
  | true, true => (ret_created_at a.2 <=? ret_created_at b.2)%Z
  | true, false => true
  | false, true => false
  | false, false => (ret_created_at b.2 <=? ret_created_at a.2)%Z
  end.

Definition archive_required (r : retirement_row) : bool :=
  bool_decide (ret_state r = RT_SUCCEEDED) &&
  match ret_receipt r with
  | Some receipt => negb (bool_decide (receipt = [])) && negb (is_True (dget "generation_closed" receipt))
  | None => false
  end.

Definition retirement_hint_of (s : db) (source : string) (removed : option tombstone_row) : option retirement_hint :=
  match head (isort hint_leb (select (hinted source removed) (source_retirements s))) with
  | Some (operation, r) => Some (Retiring (uuid_str operation) (ret_state r) (archive_required r))
  | None =>
      q ← removal_requests s !! source;
      Some (Queued (uuid_str (rmv_operation q)) (rmv_state q))
  end.

(** The labels [rename] accepts. *)
Definition label_ok (name : string) : bool :=
  negb (blank name) && Nat.leb (String.length name) 200 &&
  all_chars (λ c, negb (Nat.ltb (nat_of_ascii c) 32) && negb (Nat.eqb (nat_of_ascii c) 127)) name.

(** ** Credential references *)

(** [re.fullmatch(r"[A-Za-z0-9][A-Za-z0-9_-]{15,127}", key)]. *)
Definition owned_key (key : string) : bool :=
  match key with
  | String c rest =>
      (is_lower c || is_upper c || is_digit c) && all_chars (λ c, is_lower c || is_upper c || is_digit c || one_of "_-" c) rest &&
      Nat.leb 15 (String.length rest) && Nat.leb (String.length rest) 127
  | EmptyString => false
  end.

Definition ref_leb (a b : SecretReference) : bool :=
  if bool_decide (secret_provider a = secret_provider b) then String.leb (secret_key a) (secret_key b)
  else String.leb (secret_provider a) (secret_provider b).

(** [sorted(refs)] of the set of the two references. *)
Definition row_refs (r : source_row) : list SecretReference :=
  isort ref_leb (remove_dups [cred_token_id (cfg_credentials (src_config r)); cred_token_secret (cfg_credentials (src_config r))]).

(** The references of every other source. *)
Definition shared_refs (s : db) (source : string) : list SecretReference :=
  (select (λ k _, negb (bool_decide (k = source))) (sources s)) ≫= (λ kv, row_refs kv.2).

Definition exclusive_refs (refs shared : list SecretReference) : bool :=
  forallb (λ r, bool_decide (secret_provider r = "file") && owned_key (secret_key r) && negb (bool_decide (r ∈ shared))) refs.

(** ** Inversion *)

Lemma in_db_Ok {A} (m : DB A) w a w' :
  in_db m w = (Ok a, w') ↔ ∃ s, m (lw_db w) = (Ok a, s) ∧ w' = mkLW s (lw_cleaned w).
Proof. unfold in_db. destruct (m (lw_db w)) as [r s]. naive_solver. Qed.

Lemma in_db_Err {A} (m : DB A) w e w' :
  in_db m w = (Err e, w') ↔ ∃ s, m (lw_db w) = (Err e, s) ∧ w' = mkLW s (lw_cleaned w).
Proof. unfold in_db. destruct (m (lw_db w)) as [r s]. naive_solver. Qed.

Lemma in_db_gets {A} (f : db → A) w : in_db (gets f) w = (Ok (f (lw_db w)), w).
Proof. by destruct w. Qed.

Lemma source_gate_passed source s u s' :
  source_gate source false false s = (Ok u, s') →
  s' = s ∧ archived s source = false ∧ retirement_pending s source = false ∧ removal_requests s !! source = None.
Proof.
  unfold source_gate. intros H. inv_m. simpl in *. inv_bool. split_and!; try done. apply eq_None_not_Some. by inv_bool.
Qed.

Section Lifecycle.
Context (sha256 : string → string).
(** [str(timestamp)] in the time zone of the session. *)
Context (time_str : Z → string).
(** What [cleanup(keys)] does after the calls made so far: it returns a value or
    raises. *)
Context (cleanup : list (list string) → list string → result exn pyval).
Context (lock_path : string).

(** The columns of [SELECT * FROM sources]. *)
Definition source_columns (r : source_row) : pydict :=
  let c := src_config r in let t := cfg_target c in let k := cfg_credentials c in
  [("id", PStr (cfg_id c)); ("source_instance", PStr (cfg_source_instance c)); ("name", PStr (cfg_name c));
   ("source_type", PStr (cfg_source_type c)); ("address", PStr (cfg_address c)); ("site_slug", PStr (site_slug t));
   ("device_role_slug", PStr (device_role_slug t)); ("platform_slug", PStr (platform_slug t));
   ("device_type_slug", PStr (device_type_slug t)); ("cluster_type_slug", PStr (cluster_type_slug t));
   ("cluster_name", PStr (cluster_name t)); ("username", PStr (cred_username k));
   ("token_id_provider", PStr (secret_provider (cred_token_id k))); ("token_id_key", PStr (secret_key (cred_token_id k)));
   ("token_secret_provider", PStr (secret_provider (cred_token_secret k)));
   ("token_secret_key", PStr (secret_key (cred_token_secret k))); ("enabled", PBool (cfg_enabled c));
   ("sync_enabled", PBool (cfg_sync_enabled c)); ("verify_ssl", PBool (cfg_verify_ssl c));
   ("sync_interval_seconds", PInt (cfg_sync_interval_seconds c));
   ("legacy_identity_owner", PBool (cfg_legacy_identity_owner c)); ("settings", PDict (cfg_settings c));
   ("created_at", PStr (time_str (src_created_at r))); ("updated_at", PStr (time_str (src_updated_at r)));
   ("sync_calendar", cfg_sync_calendar c);
   ("schedule_changed_at", match cfg_schedule_changed_at c with Some t => PStr (time_str t) | None => PNone end)].

(** [LifecycleStore.revision]. *)
Definition revision_of (row : pydict) : string := sha256 (json_dumps (PDict row)).
Definition revision (r : source_row) : string := revision_of (source_columns r).

Definition read (source : string) : DB lifecycle_view :=
  s ← gets id;
  match removed_row s source with
  | Some t =>
      mret (RemovedView (tomb_display_name t) (tomb_removed_at t) (tomb_credential_state t)
              (arc_mode <$> source_archives s !! source) (retirement_hint_of s source (Some t)))
  | None =>
      row ← require (sources s !! source) (LifecycleError "SOURCE_NOT_FOUND");
      let retirement := retirement_hint_of s source None in
      let unconfirmed := exists_row (λ _ r, bool_decide (run_source_instance r = source) && unresolved (run_status r))
                           (blocking_sync_runs s) in
      mret (RegisteredView (cfg_name (src_config row)) retirement
        (if bool_decide (is_Some retirement) then Some "SOURCE_RETIREMENT_PENDING"
         else if unconfirmed then Some "SOURCE_APPLY_UNCONFIRMED"
         else if operation_active s source || run_blocked s source then Some "SOURCE_OPERATION_ACTIVE" else None)
        (revision row))
  end.

Definition evidence_row (s : db) (source : string) : source_evidence :=
  let p := source_operations s !! (source, "PLAN") in
  {| ev_source := source; ev_plan_status := op_status <$> p; ev_plan_checked_at := p ≫= op_finished_at;
     ev_plan_blocked :=
       match p with
       | Some o => bool_decide (op_status o = OP_READY) &&
                   bool_decide (op_result o ≫= (λ d, json_member_text "apply_allowed" (PDict d)) = Some "false")
       | None => false
       end;
     ev_outcome_unconfirmed :=
       exists_row (λ _ r, bool_decide (run_source_instance r = source) && unresolved (run_status r)) (blocking_sync_runs s) |}.

(** [evidence]: a page of at most 50 sources and the cursor of the next one. *)
Definition evidence (after : string) : DB (list source_evidence * option string) :=
  gets (λ s,
    let keys := take 50 (isort String.leb (filter (λ k, String.leb k after = false) (map_to_list (sources s)).*1)) in
    (map (evidence_row s) keys, if Nat.eqb (length keys) 50 then last keys else None)).

(** [with self.lock(self.lock_path): body]. *)
Definition apply_lock {A} (body : M lworld exn A) : M lworld exn A :=
  held ← in_db (gets (λ s, bool_decide (lock_path ∈ session_locks s)));
  raise_if held (LifecycleError "SOURCE_APPLY_ACTIVE");;
  in_db (modify (on_session_locks (λ l, {[lock_path]} ∪ l)));;
  finally body (λ w, mkLW (on_session_locks (λ l, l ∖ {[lock_path]}) (lw_db w)) (lw_cleaned w)).

Definition rename_row (source expected_revision name : string) : DB unit :=
  atomic (
    source_gate source false false;;
    s ← gets id;
    row ← require (sources s !! source) (LifecycleError "SOURCE_NOT_FOUND");
    raise_if (tombstoned s source) (LifecycleError "SOURCE_NOT_FOUND");;
    raise_if (negb (bool_decide (revision row = expected_revision))) (LifecycleError "SOURCE_LIFECYCLE_CONFLICT");;
    raise_if (operation_active s source) (LifecycleError "SOURCE_OPERATION_ACTIVE");;
    modify (on_sources (alter (with_name name) source))).

Definition rename (source expected_revision name : string) : M lworld exn lifecycle_view :=
  raise_if (negb (label_ok name)) (LifecycleError "REQUEST_INVALID");;
  apply_lock (in_db (rename_row source expected_revision name));;
  in_db (read source).

(** The transaction of [_remove_locked]. *)
Definition remove_row (source expected_revision confirmed_source : string) (remove_credentials : bool)
    (retirement_operation : option N) : DB unit :=
  atomic (
    source_gate source (bool_decide (is_Some retirement_operation)) false;;
    s ← gets id;
    raise_if (match retirement_operation with
              | Some op => match source_retirements s !! op with
                           | Some r => negb (bool_decide (ret_source r = source) && bool_decide (ret_state r = RT_SUCCEEDED) &&
                                             bool_decide (is_Some (ret_receipt r)))
                           | None => true
                           end
              | None => false
              end) (LifecycleError "RETIREMENT_CONFLICT");;
    row ← require (sources s !! source) (LifecycleError "SOURCE_NOT_FOUND");
    raise_if (tombstoned s source) (LifecycleError "SOURCE_ALREADY_REMOVED");;
    raise_if (negb (bool_decide (revision row = expected_revision))) (LifecycleError "SOURCE_LIFECYCLE_CONFLICT");;
    raise_if (negb (bool_decide (confirmed_source = cfg_name (src_config row)))) (LifecycleError "SOURCE_CONFIRMATION_INVALID");;
    raise_if (operation_active s source) (LifecycleError "SOURCE_OPERATION_ACTIVE");;
    raise_if (run_blocked s source) (LifecycleError "SOURCE_APPLY_UNCONFIRMED");;
    disable_source source;;
    removed_at ← clock_timestamp;
    modify (on_source_tombstones (<[source := mkTombstone (cfg_name (src_config row)) removed_at
      (if remove_credentials then CR_CLEANUP_FAILED else CR_RETAINED_BY_REQUEST) None]>))).

(** ** [cleanup_credentials] *)

Definition settled (state : CredentialState) : bool := bool_decide (state ∈ [CR_REMOVED; CR_RETAINED_SHARED_OR_LEGACY]).

Definition set_credential_state (source : string) (state : CredentialState) : DB unit :=
  modify (on_source_tombstones (alter (with_credential_state state) source)).

(** The first transaction: the state it returns at once, or the row to clean. *)
Definition begin_cleanup (source : string) : DB (CredentialState + source_row) :=
  atomic (
    s ← gets id;
    match sources s !! source, removed_row s source with
    | Some row, Some removed =>
        if settled (tomb_credential_state removed) then mret (inl (tomb_credential_state removed))
        else set_credential_state source CR_CLEANUP_FAILED;; mret (inr row)
    | _, _ => raise (LifecycleError "SOURCE_NOT_FOUND")
    end).

Definition call_cleanup (keys : list string) : M lworld exn pyval := λ w,
  (cleanup (lw_cleaned w) keys, mkLW (lw_db w) (lw_cleaned w ++ [keys])%list).

(** The credential state the files end up in. *)
Definition clean_state (row : source_row) (shared : list SecretReference) : M lworld exn CredentialState :=
  if exclusive_refs (row_refs row) shared then
    cleaned ← call_cleanup (secret_key <$> row_refs row);
    mret (if bool_decide (cleaned = PBool false) then CR_RETAINED_SHARED_OR_LEGACY else CR_REMOVED)
  else mret CR_RETAINED_SHARED_OR_LEGACY.

(** The second: the files are removed before the state is, and an exception
    leaves CLEANUP_FAILED. *)
Definition clean_files (source : string) (row : source_row) : M lworld exn unit :=
  shared ← in_db (gets (λ s, shared_refs s source));
  state ← clean_state row shared;
  in_db (set_credential_state source state).

Definition cleanup_credentials (source : string) : M lworld exn CredentialState :=
  step ← in_db (begin_cleanup source);
  match step with
  | inl state => mret state
  | inr row =>
      catch (clean_files source row) (λ _, mret tt);;
      s ← in_db (gets id);
      t ← require (source_tombstones s !! source) (TypeError "'NoneType' object is not subscriptable");
      mret (tomb_credential_state t)
  end.

Definition remove_locked (source expected_revision confirmed_source : string) (remove_credentials : bool)
    (retirement_operation : option N) : M lworld exn lifecycle_view :=
  in_db (remove_row source expected_revision confirmed_source remove_credentials retirement_operation);;
  (if remove_credentials then cleanup_credentials source;; mret tt else mret tt);;
  in_db (read source).

Definition remove (source expected_revision confirmed_source : string) (remove_credentials : bool) :
    M lworld exn lifecycle_view :=
  apply_lock (remove_locked source expected_revision confirmed_source remove_credentials None).

(** ** The transactions *)

(** The guards a removal has passed, and what its transaction leaves. *)
Record removal_admitted (source expected_revision confirmed_source : string) (row : source_row) (s : db) : Prop := {
  adm_row : sources s !! source = Some row;
  adm_present : tombstoned s source = false;
  adm_revision : revision row = expected_revision;
  adm_confirmed : confirmed_source = cfg_name (src_config row);
  adm_idle : operation_active s source = false;
  adm_settled : run_blocked s source = false }.

Definition removed_db (source : string) (row : source_row) (remove_credentials : bool) (s : db) : db :=
  on_source_tombstones (<[source := mkTombstone (cfg_name (src_config row)) (clock s (ticks s))
      (if remove_credentials then CR_CLEANUP_FAILED else CR_RETAINED_BY_REQUEST) None]>)
    (on_ticks S (on_sources (alter (with_flags false false) source) s)).

Lemma remove_row_Ok source rev name rc op s u s' :
  remove_row source rev name rc op s = (Ok u, s') →
  ∃ row, removal_admitted source rev name row s ∧ s' = removed_db source row rc s ∧
    (op = None → archived s source = false ∧ retirement_pending s source = false ∧ removal_requests s !! source = None).
Proof.
  unfold remove_row. intros H. rewrite atomic_Ok in H. apply bind_Ok in H as ([] & s1 & Hg & H).
  assert (s1 = s) as -> by (by eapply source_gate_Ok). apply bind_Ok in H as (? & ? & [-> ->]%gets_Ok & H). simpl in H.
  apply bind_Ok in H as ([] & ? & [_ ->]%raise_if_Ok & H). apply bind_Ok in H as (row & ? & [Hrow ->]%require_Ok & H).
  unfold disable_source in H. inv_m. inv_db. inv_bool.
  exists row. split; [by constructor|]. split; [done|]. intros ->. by apply source_gate_passed in Hg as (_ & ? & ? & ?).
Qed.

Lemma removed_db_row source row rc s :
  removed_row (removed_db source row rc s) source =
    Some (mkTombstone (cfg_name (src_config row)) (clock s (ticks s)) (if rc then CR_CLEANUP_FAILED else CR_RETAINED_BY_REQUEST) None).
Proof. unfold removed_row, removed_db. simpl. rewrite lookup_insert_eq. done. Qed.

Lemma read_removed source t s : removed_row s source = Some t → ∃ v, read source s = (Ok v, s).
Proof. unfold read. intros H. rewrite (bind_step _ _ s s s) by done. rewrite H. eauto. Qed.

Lemma begin_cleanup_removed source row t s :
  sources s !! source = Some row → removed_row s source = Some t →
  begin_cleanup source s =
    if settled (tomb_credential_state t) then (Ok (inl (tomb_credential_state t)), s)
    else (Ok (inr row), on_source_tombstones (alter (with_credential_state CR_CLEANUP_FAILED) source) s).
Proof.
  intros Hrow Ht. unfold begin_cleanup, atomic. rewrite (bind_step _ _ s s s) by done. rewrite Hrow, Ht.
  by destruct (settled _).
Qed.

Lemma begin_cleanup_Ok source s r s' :
  begin_cleanup source s = (Ok r, s') → ∃ row t, sources s !! source = Some row ∧ removed_row s source = Some t.
Proof.
  unfold begin_cleanup. intros H. rewrite atomic_Ok in H. apply bind_Ok in H as (? & ? & [-> ->]%gets_Ok & H). simpl in H.
  destruct (sources s !! source) as [row|]; [|by apply raise_Ok in H].
  destruct (removed_row s source) as [t|]; [eauto|by apply raise_Ok in H].
Qed.

(** What [clean_files] leaves, whether it returns or raises. *)
Lemma clean_files_cases source row w :
  let refs := row_refs row in
  let keys := secret_key <$> refs in
  let set st := on_source_tombstones (alter (with_credential_state st) source) (lw_db w) in
  if exclusive_refs refs (shared_refs (lw_db w) source) then
    match cleanup (lw_cleaned w) keys with
    | Ok v => clean_files source row w =
        (Ok tt, mkLW (set (if bool_decide (v = PBool false) then CR_RETAINED_SHARED_OR_LEGACY else CR_REMOVED))
          (lw_cleaned w ++ [keys])%list)
    | Err e => clean_files source row w = (Err e, mkLW (lw_db w) (lw_cleaned w ++ [keys])%list)
    end
  else clean_files source row w = (Ok tt, mkLW (set CR_RETAINED_SHARED_OR_LEGACY) (lw_cleaned w)).
Proof.
  intros refs keys set. unfold clean_files. rewrite (bind_step _ _ w (shared_refs (lw_db w) source) w) by apply in_db_gets.
  unfold clean_state, call_cleanup, mbind, M_bind. destruct (exclusive_refs _ _); [|done]. by destruct (cleanup _ _).
Qed.

(** ** Removal *)

Lemma cleanup_returns source w row t :
  sources (lw_db w) !! source = Some row → removed_row (lw_db w) source = Some t →
  ∃ st w' t', cleanup_credentials source w = (Ok st, w') ∧ source_tombstones (lw_db w') !! source = Some t' ∧
    tomb_credential_state t' = st ∧ tomb_restored_at t' = None ∧ sources (lw_db w') = sources (lw_db w) ∧
    session_locks (lw_db w') = session_locks (lw_db w) ∧ ∀ k, k ≠ source → source_tombstones (lw_db w') !! k = source_tombstones (lw_db w) !! k.
Proof.
  intros Hrow Ht. unfold cleanup_credentials.
  assert (source_tombstones (lw_db w) !! source = Some t ∧ tomb_restored_at t = None) as [Htomb Hnone].
  { unfold removed_row in Ht. destruct (source_tombstones (lw_db w) !! source) as [t0|] eqn:E; [|done]. simpl in Ht.
    case_bool_decide as Hr; simplify_eq. split; [done|]. by apply eq_None_not_Some. }
  destruct (settled (tomb_credential_state t)) eqn:Hs.
  { exists (tomb_credential_state t), w, t. split_and!; try done.
    unfold mbind, M_bind, in_db. rewrite (begin_cleanup_removed source row t), Hs by done. by destruct w. }
  set (w1 := mkLW (on_source_tombstones (alter (with_credential_state CR_CLEANUP_FAILED) source) (lw_db w)) (lw_cleaned w)).
  rewrite (bind_step _ _ w (inr row) w1) by (unfold in_db; by rewrite (begin_cleanup_removed source row t), Hs by done).
  pose proof (clean_files_cases source row w1) as Hc. simpl in Hc.
  assert (∃ w2 st, catch (clean_files source row) (λ _, mret tt) w1 = (Ok tt, w2) ∧
    lw_db w2 = on_source_tombstones (alter (with_credential_state st) source) (lw_db w1)) as (w2 & st & Hcatch & Ew2).
  { unfold catch. destruct (exclusive_refs _ _); [destruct (cleanup _ _)|]; rewrite Hc; eexists _, _; (split; [reflexivity|]); try done.
    simpl. instantiate (1 := CR_CLEANUP_FAILED). unfold on_source_tombstones. simpl. f_equal.
    apply map_eq. intros k. destruct (decide (k = source)) as [->|]; [|by rewrite !lookup_alter_ne].
    rewrite !lookup_alter_eq. by destruct (source_tombstones (lw_db w) !! source). }
  erewrite (bind_step _ _ w1 tt w2) by done. rewrite (bind_step _ _ w2 (lw_db w2) w2) by (apply in_db_gets).
  rewrite Ew2. simpl. rewrite !lookup_alter_eq, Htomb. simpl. eexists _, _, _. split; [reflexivity|]. rewrite Ew2. simpl.
  rewrite !lookup_alter_eq, Htomb. simpl. split_and!; try done. intros k Hk. by rewrite !lookup_alter_ne.
Qed.

Definition locked (w : lworld) : lworld := mkLW (on_session_locks (λ l, {[lock_path]} ∪ l) (lw_db w)) (lw_cleaned w).
Definition unlocked (w : lworld) : lworld := mkLW (on_session_locks (λ l, l ∖ {[lock_path]}) (lw_db w)) (lw_cleaned w).

Lemma apply_lock_cases {A} (body : M lworld exn A) w :
  apply_lock body w =
    if bool_decide (lock_path ∈ session_locks (lw_db w)) then (Err (LifecycleError "SOURCE_APPLY_ACTIVE"), w)
    else let '(r, w1) := body (locked w) in (r, unlocked w1).
Proof.
  unfold apply_lock. rewrite (bind_step _ _ w _ w) by apply in_db_gets. unfold mbind, M_bind, raise_if. cbn beta.
  by destruct (bool_decide _).
Qed.

Lemma unlocked_locked w : (lock_path ∉ session_locks (lw_db w)) → unlocked (locked w) = w.
Proof.
  intros H. destruct w as [s c]. unfold unlocked, locked. simpl. f_equal. destruct s. unfold on_session_locks. simpl in *.
  f_equal. set_solver.
Qed.

(** After its transaction committed, a removal always returns. *)
Lemma removed_returns source row rc s c :
  sources s !! source = Some row →
  ∃ v w', ((if rc : bool then cleanup_credentials source ≫= (λ _, mret tt) else mret tt) ≫= (λ _, in_db (read source)))
            (mkLW (removed_db source row rc s) c) = (Ok v, w') ∧
    sources (lw_db w') = alter (with_flags false false) source (sources s) ∧ tombstoned (lw_db w') source = true ∧
    session_locks (lw_db w') = session_locks s ∧
    (∀ k, k ≠ source → source_tombstones (lw_db w') !! k = source_tombstones s !! k) ∧
    (rc = false → lw_cleaned w' = c).
Proof.
  intros Hrow. set (w := mkLW (removed_db source row rc s) c). pose proof (removed_db_row source row rc s) as Ht. destruct rc.
  - edestruct (cleanup_returns source w (with_flags false false row)) as (st & w' & t' & Hc & Ht' & Est & Hn & Es & El & Eo);
      [by simpl; rewrite lookup_alter_eq, Hrow|exact Ht|].
    destruct (read_removed source t' (lw_db w')) as [v Hv].
    { unfold removed_row. rewrite Ht'. simpl. rewrite Hn. done. }
    exists v, w'. split.
    { rewrite (bind_step _ _ w tt w') by (by rewrite (bind_step _ _ w st w')). unfold in_db. rewrite Hv. by destruct w'. }
    rewrite Es, El. unfold tombstoned. rewrite Ht', Hn. split_and!; try done. intros k Hk. rewrite Eo by done. simpl.
    by rewrite lookup_insert_ne.
  - destruct (read_removed source _ _ Ht) as [v Hv]. exists v, w. split.
    { rewrite (bind_step _ _ w tt w) by done. unfold in_db. simpl. rewrite Hv. done. }
    unfold tombstoned. simpl. rewrite lookup_insert_eq. split_and!; try done. intros k Hk. by rewrite lookup_insert_ne.
Qed.

(** A removal that is refused or raises changes nothing: the registry, the
    tombstones, the held locks and the credential files are as before the call. *)
Theorem remove_refused_unchanged source rev name rc w e w' :
  remove source rev name rc w = (Err e, w') → w' = w.
Proof.
  unfold remove. rewrite apply_lock_cases. case_bool_decide as Hl; [by intros [= _ <-]|].
  destruct (remove_locked _ _ _ _ _ (locked w)) as [r w1] eqn:E. intros [= -> <-].
  unfold remove_locked in E. apply bind_cases in E as [(e' & H & _)|([] & w2 & (s2 & H & ->)%in_db_Ok & E)].
  - apply in_db_Err in H as (s2 & ->%atomic_Err & ->). exact (unlocked_locked w Hl).
  - apply remove_row_Ok in H as (row & Hadm & -> & _).
    destruct (removed_returns source row rc (lw_db (locked w)) (lw_cleaned (locked w)) (adm_row _ _ _ _ _ Hadm)) as (v & w' & Hv & _).
    by rewrite Hv in E.
Qed.

(** A removal that succeeds had the admin's confirmation of the current row
    and found nothing in progress: the source was registered, not archived, not
    retiring and not queued, its revision and name are the confirmed ones, no
    operation runs and no run is unresolved. It leaves the source disabled and
    tombstoned and every other source as it was, and gives the apply lock back. *)
Theorem remove_confirmed source rev name rc w v w' :
  remove source rev name rc w = (Ok v, w') →
  (∃ row, removal_admitted source rev name row (lw_db w)) ∧
  archived (lw_db w) source = false ∧ retirement_pending (lw_db w) source = false ∧ removal_requests (lw_db w) !! source = None ∧
  (lock_path ∉ session_locks (lw_db w)) ∧ session_locks (lw_db w') = session_locks (lw_db w) ∧
  sources (lw_db w') = alter (with_flags false false) source (sources (lw_db w)) ∧ tombstoned (lw_db w') source = true ∧
  (∀ k, k ≠ source → source_tombstones (lw_db w') !! k = source_tombstones (lw_db w) !! k) ∧
  (rc = false → lw_cleaned w' = lw_cleaned w).
Proof.
  unfold remove. rewrite apply_lock_cases. case_bool_decide as Hl; [done|].
  destruct (remove_locked _ _ _ _ _ (locked w)) as [r w1] eqn:E. intros [= -> <-].
  unfold remove_locked in E. apply bind_Ok in E as ([] & w2 & (s2 & H & ->)%in_db_Ok & E).
  apply remove_row_Ok in H as (row & Hadm & -> & Hno). destruct (Hno eq_refl) as (Ha & Hr & Hq).
  destruct (removed_returns source row rc (lw_db (locked w)) (lw_cleaned (locked w)) (adm_row _ _ _ _ _ Hadm))
    as (v' & w' & Hv & E1 & E2 & E3 & E4 & E5).
  rewrite Hv in E. injection E as <- <-. split; [exists row; by destruct Hadm; constructor|].
  split_and!; try done. simpl. rewrite E3. simpl. set_solver.
Qed.

(** ** Cleanup of credentials *)

(** The keys of a source that nobody else references. *)
Definition own_key (s : db) (source : string) (row : source_row) (key : string) : Prop :=
  owned_key key = true ∧ mkSecretReference "file" key ∈ row_refs row ∧
  ∀ other row', other ≠ source → sources s !! other = Some row' → mkSecretReference "file" key ∉ row_refs row'.

Lemma exclusive_own s source row key :
  exclusive_refs (row_refs row) (shared_refs s source) = true → key ∈ secret_key <$> row_refs row → own_key s source row key.
Proof.
  intros Hex (r & -> & Hr)%list_elem_of_fmap. unfold exclusive_refs in Hex. rewrite forallb_forall in Hex.
  specialize (Hex r). rewrite <-list_elem_of_In in Hex. specialize (Hex Hr). inv_bool. destruct r as [p key]. simpl in *. subst p.
  split_and!; try done. intros other row' Hne Hrow' Hin. match goal with H : _ ∉ _ |- _ => apply H end.
  unfold shared_refs. apply list_elem_of_bind. exists (other, row'). split; [done|]. apply elem_of_select.
  split; [done|]. by apply negb_true_iff, bool_decide_eq_false.
Qed.

(** Credential cleanup deletes only files of the removed source: it makes at
    most one call, for a source that is registered and removed, and every key in
    it is one of that source's own file references, of the generated format,
    which no other source references. *)
Theorem cleanup_exclusive source w r w' :
  cleanup_credentials source w = (r, w') →
  lw_cleaned w' = lw_cleaned w ∨
  ∃ keys row, lw_cleaned w' = (lw_cleaned w ++ [keys])%list ∧ sources (lw_db w) !! source = Some row ∧
    tombstoned (lw_db w) source = true ∧ ∀ key, key ∈ keys → own_key (lw_db w) source row key.
Proof.
  unfold cleanup_credentials. intros H.
  apply bind_cases in H as [(e & (s & _ & ->)%in_db_Err & _)|(step & w1 & (s1 & Hb & ->)%in_db_Ok & H)]; [by left|].
  destruct (begin_cleanup_Ok _ _ _ _ Hb) as (row & t & Hrow & Ht).
  rewrite (begin_cleanup_removed source row t) in Hb by done.
  destruct (settled _); injection Hb as <- <-; [injection H as <- <-; by left|].
  set (w1 := mkLW _ _) in H. pose proof (clean_files_cases source row w1) as Hc. simpl in Hc.
  assert (lw_cleaned w' = lw_cleaned (catch (clean_files source row) (λ _, mret tt) w1).2) as ->.
  { destruct (catch _ _ w1) as [[[]|e] w2] eqn:Ecatch.
    - rewrite (bind_step _ _ w1 tt w2) in H by done. rewrite (bind_step _ _ w2 (lw_db w2) w2) in H by apply in_db_gets.
      destruct (source_tombstones (lw_db w2) !! source); by injection H as _ <-.
    - unfold catch in Ecatch. by destruct (clean_files source row w1) as [[?|?] ?]. }
  unfold catch. assert (tombstoned (lw_db w) source = true) as Htomb.
  { unfold removed_row in Ht. unfold tombstoned. destruct (source_tombstones _ !! source); [|done]. simpl in Ht.
    by case_bool_decide. }
  destruct (exclusive_refs _ _) eqn:Hex; [|rewrite Hc; by left]. right. exists (secret_key <$> row_refs row), row.
  split; [by destruct (cleanup _ _); rewrite Hc|]. split_and!; try done. intros key Hkey. by eapply exclusive_own.
Qed.

(** The credential state recorded is what happened: REMOVED only if the files
    were already removed or this call removed exactly the source's keys, and a
    deletion that raises is left as CLEANUP_FAILED. *)
Theorem credential_state_honest source w st w' :
  cleanup_credentials source w = (Ok st, w') →
  ∃ row t, sources (lw_db w) !! source = Some row ∧ removed_row (lw_db w) source = Some t ∧
    tomb_credential_state <$> source_tombstones (lw_db w') !! source = Some st ∧
    (if settled (tomb_credential_state t) then st = tomb_credential_state t
     else if exclusive_refs (row_refs row) (shared_refs (lw_db w) source) then
       match cleanup (lw_cleaned w) (secret_key <$> row_refs row) with
       | Ok (PBool false) => st = CR_RETAINED_SHARED_OR_LEGACY
       | Ok _ => st = CR_REMOVED
       | Err _ => st = CR_CLEANUP_FAILED
       end
     else st = CR_RETAINED_SHARED_OR_LEGACY).
Proof.
  intros H. assert (∃ row t, sources (lw_db w) !! source = Some row ∧ removed_row (lw_db w) source = Some t) as (row & t & Hrow & Ht).
  { unfold cleanup_credentials in H. apply bind_Ok in H as (step & w1 & (s1 & Hb & ->)%in_db_Ok & _).
    by eapply begin_cleanup_Ok. }
  exists row, t. destruct (cleanup_returns source w row t Hrow Ht) as (st' & w2 & t' & H' & Ht' & Est & _).
  rewrite H in H'. injection H' as <- <-. rewrite Ht'. split_and!; try done; [by simpl; rewrite Est|].
  unfold cleanup_credentials in H. unfold mbind at 1, M_bind at 1, in_db at 1 in H.
  rewrite (begin_cleanup_removed source row t) in H by done. destruct (settled _); [by injection H as <- _|].
  set (w1 := mkLW _ _) in H. pose proof (clean_files_cases source row w1) as Hc. simpl in Hc.
  assert (source_tombstones (lw_db (catch (clean_files source row) (λ _, mret tt) w1).2) !! source = Some t') as Hst.
  { destruct (catch _ _ w1) as [[[]|e] w2] eqn:Ecatch.
    - rewrite (bind_step _ _ w1 tt w2) in H by done. rewrite (bind_step _ _ w2 (lw_db w2) w2) in H by apply in_db_gets.
      simpl. destruct (source_tombstones (lw_db w2) !! source) eqn:E2; [|done]. injection H as _ <-. by rewrite <-E2.
    - unfold catch in Ecatch. by destruct (clean_files source row w1) as [[?|?] ?]. }
  assert (is_Some (source_tombstones (lw_db w) !! source)) as [t0 Ht0].
  { unfold removed_row in Ht. destruct (source_tombstones _ !! source); [eauto|done]. }
  unfold catch in Hst. revert Hst. destruct (exclusive_refs _ _); [destruct (cleanup _ _) as [v|]|]; rewrite Hc; simpl;
    rewrite ?lookup_alter_eq, Ht0; simpl; intros [= <-]; simpl in *; subst st; try done.
  by destruct v as [| [] | | | |].
Qed.
End Lifecycle.

(** ** A concrete removal *)

Definition sample_row : source_row := mkSourceRow
  {| cfg_id := "pve-a"; cfg_source_instance := "pve-a"; cfg_name := "PVE A"; cfg_source_type := "proxmox";
     cfg_address := "10.0.0.1"; cfg_enabled := true; cfg_sync_enabled := true; cfg_sync_interval_seconds := 300;
     cfg_verify_ssl := true; cfg_target := cfg_target sample_config;
     cfg_credentials := mkCredentials "root@pam" (mkSecretReference "file" "abcdefabcdef0001") (mkSecretReference "file" "abcdefabcdef0002");
     cfg_sync_calendar := PNone; cfg_schedule_changed_at := Some 0%Z; cfg_legacy_identity_owner := false; cfg_settings := [] |} 0 0.
Definition sample_world : lworld := mkLW (on_sources (λ _, {[ "pve-a" := sample_row ]}) empty_db) [].
Definition sample_hash (s : string) : string := s.
Definition sample_time (_ : Z) : string := "2026-01-01 00:00:00+00:00".
Definition sample_delete (_ : list (list string)) (_ : list string) : result exn pyval := Ok PNone.
Definition sample_remove (name : string) : result exn lifecycle_view * lworld :=
  remove sample_hash sample_time sample_delete "/run/apply.lock" "pve-a" (revision sample_hash sample_time sample_row) name true sample_world.

Lemma remove_refused_unchanged_witness : (sample_remove "other").2 = sample_world.
Proof.
  apply (remove_refused_unchanged sample_hash sample_time sample_delete "/run/apply.lock" "pve-a"
    (revision sample_hash sample_time sample_row) "other" true sample_world (LifecycleError "SOURCE_CONFIRMATION_INVALID")).
  vm_compute. reflexivity.
Defined.

Lemma remove_confirmed_witness : ∃ v, (sample_remove "PVE A").1 = Ok v ∧ tombstoned (lw_db (sample_remove "PVE A").2) "pve-a" = true.
Proof.
  eexists. split; [vm_compute; reflexivity|].
  refine (proj1 (proj2 (proj2 (proj2 (proj2 (proj2 (proj2 (proj2 (remove_confirmed sample_hash sample_time sample_delete
    "/run/apply.lock" "pve-a" (revision sample_hash sample_time sample_row) "PVE A" true sample_world _ (sample_remove "PVE A").2 _))))))))).
  vm_compute. reflexivity.
Defined.

Definition sample_removed : lworld := mkLW (removed_db "pve-a" sample_row true (lw_db sample_world)) [].

Lemma cleanup_exclusive_witness :
  lw_cleaned (cleanup_credentials sample_delete "pve-a" sample_removed).2 = [["abcdefabcdef0001"; "abcdefabcdef0002"]] ∧
  ∃ row, own_key (lw_db sample_removed) "pve-a" row "abcdefabcdef0001".
Proof.
  split; [vm_compute; reflexivity|].
  destruct (cleanup_exclusive sample_delete "pve-a" sample_removed _ _ (surjective_pairing _)) as [H|(keys & row & H & _ & _ & Hown)].
  - exfalso. vm_compute in H. discriminate H.
  - exists row. apply Hown. vm_compute in H. injection H as <-. by left.
Defined.

Lemma credential_state_honest_witness :
  (cleanup_credentials sample_delete "pve-a" sample_removed).1 = Ok CR_REMOVED ∧
  tomb_credential_state <$> source_tombstones (lw_db (cleanup_credentials sample_delete "pve-a" sample_removed).2) !! "pve-a" = Some CR_REMOVED.
Proof.
  split; [vm_compute; reflexivity|].
  destruct (credential_state_honest sample_delete "pve-a" sample_removed CR_REMOVED
    (cleanup_credentials sample_delete "pve-a" sample_removed).2 ltac:(vm_compute; reflexivity)) as (_ & _ & _ & _ & H & _).
  exact H.
Defined.
