(* ===== verification/Retirement.v ===== *)
(** * Retirement (netbox_sync/retirement_journal.py, source_archive.py, retirement_codes.py)

    The journal of retirements: reviewed plans, dispatch, the receipt of the
    remote guard and the two ways a generation of a source ends, the archive of
    [close_generation] and the purge of migration 0014. The hash of a row and the
    renderings of a timestamp are parameters; JSON documents are arbitrary Python
    values, so that a plan or a receipt of another shape raises what the code
    raises. *)

From S2P Require Import Prelude PyValue SourceConfig Schema SourceOperations SourceLifecycle.
From stdpp Require Import base list strings gmap pretty.
From Stdlib Require Import ZArith Lia Ascii.
Local Open Scope string_scope.
#[local] Arguments py_eqb _ _ : simpl never.

(** ** Closed refusal codes *)

Definition RETIREMENT_REASONS : list (string * string) :=
  [("SOURCE_OBJECTS_REMAIN", "RETIREMENT_SOURCE_OBJECTS_REMAIN");
   ("OWNED_OBJECT_OUTSIDE_PLACEMENT", "RETIREMENT_SOURCE_OBJECTS_REMAIN");
   ("OBJECT_MISSING", "RETIREMENT_DEPENDENCIES_CHANGED");
   ("SOURCE_NAMESPACE_CLOSED", "SOURCE_ARCHIVED");
   ("SOURCE_NAMESPACE_BUSY", "RETIREMENT_SERVER_BUSY");
   ("RETIREMENT_DEADLINE", "RETIREMENT_BUDGET_EXCEEDED");
   ("DEPENDENCY_DATABASE_REFUSAL", "RETIREMENT_DATABASE_REFUSAL");
   ("PERMISSION_DENIED", "RETIREMENT_PERMISSION_DENIED");
   ("AUTHENTICATION_REQUIRED", "RETIREMENT_AUTH_FAILED");
   ("TOKEN_WRITE_REQUIRED", "RETIREMENT_TOKEN_WRITE_REQUIRED");
   ("GUARD_AUDIT_PERMISSION_REQUIRED", "RETIREMENT_AUDIT_PERMISSION_REQUIRED");
   ("GUARD_SOURCE_SCOPE_DENIED", "RETIREMENT_SOURCE_SCOPE_DENIED");
   ("GUARD_OBJECT_VIEW_DENIED", "RETIREMENT_OBJECT_VIEW_DENIED");
   ("CREATION_OWNERSHIP_UNPROVEN", "RETIREMENT_OWNERSHIP_UNPROVEN");
   ("OWNERSHIP_CONFLICT", "RETIREMENT_OWNERSHIP_CONFLICT");
   ("PLACEMENT_CHANGED", "RETIREMENT_DEPENDENCIES_CHANGED");
   ("DEPENDENCIES_CHANGED", "RETIREMENT_DEPENDENCIES_CHANGED");
   ("OBJECT_GENERATION_CHANGED", "RETIREMENT_DEPENDENCIES_CHANGED");
   ("EXTERNAL_FIELD_UPDATE", "RETIREMENT_MANUAL_CHANGE");
   ("PROTECTED_DEPENDENCY", "RETIREMENT_PROTECTED_DEPENDENCY");
   ("GUARD_INSTANCE_CHANGED", "RETIREMENT_GUARD_CHANGED");
   ("GUARD_CAPABILITY_MISMATCH", "RETIREMENT_GUARD_CHANGED")].

Definition DEFINITE_REFUSALS : list string :=
  (filter (λ c, c ≠ "RETIREMENT_SERVER_BUSY") RETIREMENT_REASONS.*2 ++ ["RETIREMENT_BLOCKED"])%list.

(** ** Python on JSON lists *)

(** [item[0]]. *)
Definition py_first (v : pyval) : result exn pyval :=
  match v with
  | PList (x :: _) => Ok x
  | PList [] | PStr EmptyString => Err (OtherException "IndexError" None)
  | PStr (String c _) => Ok (PStr (String c ""))
  | PDict _ => Err (KeyError "0")
  | _ => Err (TypeError "object is not subscriptable")
  end.

(** ** Placement *)

(** [identity_placement] of host_registration.py. *)
Definition identity_placement (settings : pydict) : result exn (pyval * pyval) :=
  let mapping := default (PDict []) (dlookup "onboarding_mapping" settings) in
  let refs := match mapping with PDict m => default (PDict []) (dlookup "references" m) | _ => PDict [] end in
  site ← attr_get "site" refs;
  both ← (if truthy site then cluster ← attr_get "cluster" refs; Ok (truthy cluster) else Ok false) : result exn bool;
  if (both : bool) then
    site_id ← attr_get "id" site;
    cluster ← attr_get "cluster" refs;
    cluster_id ← attr_get "id" cluster;
    Ok (site_id, cluster_id)
  else
    let proof := default (PDict []) (dlookup "provider_identity" settings) in
    site_id ← attr_get "site_id" proof;
    cluster_id ← attr_get "cluster_id" proof;
    Ok (site_id, cluster_id).

(** No other registered source is placed in the cluster. *)
Fixpoint check_peers (archive : bool) (cluster : pyval) (peers : list source_row) : result exn unit :=
  match peers with
  | [] => Ok tt
  | peer :: rest =>
      other ← identity_placement (cfg_settings (src_config peer));
      if negb archive && py_eqb other.2 cluster then Err (LifecycleError "RETIREMENT_BLOCKED")
      else check_peers archive cluster rest
  end.

Definition peer_rows (s : db) (source : string) : list source_row :=
  (select (λ k _, negb (bool_decide (k = source)) && negb (tombstoned s k)) (sources s)).*2.

(** ** Plans *)

Definition plan_remote (r : retirement_row) : result exn pyval := py_item "remote" (PDict (ret_plan r)).
Definition plan_manifest (r : retirement_row) : result exn pyval := remote ← plan_remote r; py_item "manifest" remote.
(** [record["plan"]["remote"]["manifest"].get("format") == n]. *)
Definition plan_format_is (n : Z) (r : retirement_row) : result exn bool :=
  manifest ← plan_manifest r; format ← attr_get "format" manifest; Ok (py_eqb format (PInt n)).

(** ** Updates of a record *)

Definition with_retirement (r : retirement_row) (state : RetirementState) (receipt : option pydict) (code : option string)
    (consent : option bool) (finished : option Z) (superseded : option N) (verified : bool) : retirement_row :=
  {| ret_operation := ret_operation r; ret_source := ret_source r; ret_actor := ret_actor r; ret_revision := ret_revision r;
     ret_guard_instance := ret_guard_instance r; ret_plan := ret_plan r; ret_state := state; ret_receipt := receipt;
     ret_safe_code := code; ret_remove_credentials := consent; ret_created_at := ret_created_at r; ret_finished_at := finished;
     ret_superseded_by := superseded; ret_local_cleanup_verified := verified |}.

Definition set_state (state : RetirementState) (code : option string) (r : retirement_row) : retirement_row :=
  with_retirement r state (ret_receipt r) code (ret_remove_credentials r) (ret_finished_at r) (ret_superseded_by r)
    (ret_local_cleanup_verified r).
Definition set_sending (consent : bool) (r : retirement_row) : retirement_row :=
  with_retirement r RT_SENDING (ret_receipt r) (ret_safe_code r) (Some consent) (ret_finished_at r) (ret_superseded_by r)
    (ret_local_cleanup_verified r).
Definition set_consent (r : retirement_row) : retirement_row :=
  with_retirement r (ret_state r) (ret_receipt r) (ret_safe_code r) (Some true) (ret_finished_at r) (ret_superseded_by r)
    (ret_local_cleanup_verified r).
Definition set_superseded (by_operation : N) (r : retirement_row) : retirement_row :=
  with_retirement r (ret_state r) (ret_receipt r) (ret_safe_code r) (ret_remove_credentials r) (ret_finished_at r)
    (Some by_operation) (ret_local_cleanup_verified r).
Definition set_succeeded (receipt : pydict) (finished : Z) (r : retirement_row) : retirement_row :=
  with_retirement r RT_SUCCEEDED (Some receipt) None (ret_remove_credentials r) (Some finished) (ret_superseded_by r)
    (ret_local_cleanup_verified r).
Definition set_verified (r : retirement_row) : retirement_row :=
  with_retirement r (ret_state r) (ret_receipt r) (ret_safe_code r) (ret_remove_credentials r) (ret_finished_at r)
    (ret_superseded_by r) true.

(** The rows of the partial unique index on [source_instance]. *)
Definition ret_indexed (r : retirement_row) : bool := ret_inflight r && negb (bool_decide (is_Some (ret_superseded_by r))).

(** [UPDATE source_retirements SET f WHERE operation_id=...] under the index. *)
Definition update_retirement (operation : N) (f : retirement_row → retirement_row) : DB unit :=
  s ← gets id;
  raise_if
    match source_retirements s !! operation with
    | Some r => ret_indexed (f r) &&
        exists_row (λ k r', negb (bool_decide (k = operation)) && bool_decide (ret_source r' = ret_source (f r)) && ret_indexed r')
          (source_retirements s)
    | None => false
    end unique_violation;;
  modify (on_source_retirements (alter f operation)).
(** [... RETURNING *]. *)
Definition returning (operation : N) : DB retirement_row :=
  s ← gets id; require (source_retirements s !! operation) (TypeError "'NoneType' object is not subscriptable").

Definition abandon_recovery (finished : Z) (r : recovery_row) : recovery_row :=
  mkRecovery (rec_source r) (rec_actor r) (rec_revision r) (rec_plan r) RC_ABANDONED (rec_created_at r) (Some finished).

(** ** The archive of a generation *)

Definition closes_generation (receipt : option pydict) : bool :=
  match receipt with
  | None | Some [] => false
  | Some d => py_eqb (dget "status" d) (PStr "SUCCEEDED") && is_True (dget "generation_closed" d)
  end.

Definition insert_archive (source : string) (row : archive_row) : DB unit :=
  s ← gets id;
  if bool_decide (is_Some (source_archives s !! source)) ||
     exists_row (λ _ a, bool_decide (arc_operation a = arc_operation row)) (source_archives s)
  then mret tt else modify (on_source_archives (<[source := row]>)).

Definition close_generation (r : retirement_row) : DB unit :=
  let source := ret_source r in
  raise_if (negb (bool_decide (ret_state r ∈ [RT_SUCCEEDED; RT_FINALIZED])) || negb (closes_generation (ret_receipt r)))
    (LifecycleError "RETIREMENT_CONFLICT");;
  receipt ← require (ret_receipt r) (LifecycleError "RETIREMENT_CONFLICT");
  removed ← gets (λ s, removed_row s source);
  raise_if match removed with Some t => negb (settled (tomb_credential_state t)) | None => true end
    (LifecycleError "SOURCE_CREDENTIAL_CLEANUP_PENDING");;
  manifest ← lift (py_item "manifest" (PDict receipt));
  format ← lift (attr_get "format" manifest);
  created ← clock_timestamp;
  insert_archive source (mkArchive (ret_operation r) (ret_actor r)
    (if py_eqb format (PInt 4) then "LEGACY_RETAIN" else "FULL_DELETE") (ret_guard_instance r) receipt (Some created) created);;
  previous ← gets (λ s, source_archives s !! source);
  raise_if match previous with
           | Some a => negb (bool_decide (arc_operation a = ret_operation r) && bool_decide (arc_guard_instance a = ret_guard_instance r)
                             && py_eqb (PDict (arc_receipt a)) (PDict receipt))
           | None => true
           end (LifecycleError "RETIREMENT_CONFLICT");;
  released ← clock_timestamp;
  modify (on_host_reservations (update_where (λ k _, bool_decide (k.2 = source))
    (λ h, mkReservation (resv_operation h) (resv_actor h) (resv_created_at h) (Some (default released (resv_released_at h))))));;
  updated ← clock_timestamp;
  modify (on_source_operations (update_where (λ _ o, bool_decide (op_source o = source) && bool_decide (op_status o = OP_READY))
    (λ o, with_status o OP_STALE updated (op_finished_at o) (Some "PLAN_STALE") None))).

(** ** The purge of a retired source (migrations 0014, 0015 and 0016) *)

(** [(j ->> 'revision')::bigint]. *)
Definition bigint_of (v : option pyval) : result exn Z :=
  match v ≫= json_text with
  | None => Ok 0%Z
  | Some text =>
      match py_int text with
      | Some z => if (-9223372036854775808 <=? z)%Z && (z <=? 9223372036854775807)%Z then Ok z else Err (DatabaseError "22003")
      | None => Err (DatabaseError "22P02")
      end
  end.

(** The team assignment of the source is dropped and the revision of the
    assignments moves on; nothing changes where the source has none. *)
Definition unassign (source : string) (value : pydict) : result exn pydict :=
  match dlookup "source_teams" value with
  | Some (PDict teams) =>
      match dlookup "assignments" teams with
      | Some (PDict a) =>
          if bool_decide (is_Some (dlookup source a)) then
            revision ← bigint_of (dlookup "revision" teams);
            Ok (dset "source_teams" (PDict (dset "revision" (PInt (revision + 1)) (dset "assignments" (PDict (dpop source a)) teams))) value)
          else Ok value
      | Some (PList l) =>
          if bool_decide (PStr source ∈ l) then
            revision ← bigint_of (dlookup "revision" teams);
            Ok (dset "source_teams" (PDict (dset "revision" (PInt (revision + 1))
                  (dset "assignments" (PList (filter (λ v, v ≠ PStr source) l)) teams))) value)
          else Ok value
      | _ => Ok value
      end
  | _ => Ok value
  end.

(** The condition under which [purge_retired_source] does not refuse. *)
Definition purge_admitted (s : db) (source : string) (operation : N) (actor : string) : bool :=
  match source_retirements s !! operation with
  | Some r =>
      let receipt := PDict (default [] (ret_receipt r)) in
      let remote := json_member "remote" (PDict (ret_plan r)) in
      bool_decide (ret_source r = source) && bool_decide (ret_actor r = actor) &&
      bool_decide (ret_state r = RT_SUCCEEDED) && bool_decide (ret_remove_credentials r = Some true) &&
      ret_local_cleanup_verified r && negb (bool_decide (is_Some (ret_superseded_by r))) &&
      bool_decide (is_Some (ret_receipt r)) &&
      bool_decide (json_member_text "status" receipt = Some "SUCCEEDED") &&
      bool_decide (json_member_text "generation_closed" receipt = Some "true") &&
      bool_decide (json_member "manifest" receipt ≫= json_member_text "format" = Some "2") &&
      bool_decide (json_member_text "source_instance" receipt = Some source) &&
      bool_decide (json_member_text "nonce" receipt = Some (uuid_str operation)) &&
      bool_decide (json_member_text "digest" receipt = (remote ≫= json_member_text "digest")) &&
      match json_member "manifest" receipt, remote ≫= json_member "manifest" with
      | Some a, Some b => jsonb_eqb a b
      | None, None => true
      | _, _ => false
      end &&
      match removed_row s source with Some t => settled (tomb_credential_state t) | None => false end &&
      match sources s !! source with
      | Some row => negb (cfg_enabled (src_config row)) && negb (cfg_sync_enabled (src_config row))
      | None => false
      end &&
      negb (operation_active s source) && negb (run_blocked s source) &&
      negb (exists_row (λ _ c, bool_decide (rec_source c = source) && bool_decide (rec_state c = RC_CREDENTIALS_PENDING))
              (source_recoveries s))
  | None => false
  end.

(** The deletions, with those the trigger and the foreign key on [sources] make. *)
Definition purged (source : string) (s : db) : db :=
  on_auth_audit (filter (λ event, json_member_text "source_instance" (PDict event) ≠ Some source))
  (on_run_reconciliations (delete_where (λ _ a, bool_decide (rcn_source a = source)))
  (on_sync_runs (delete_where (λ _ r, bool_decide (run_source_instance r = source)))
  (on_source_operations (delete_where (λ _ o, bool_decide (op_source o = source)))
  (on_identity_verifications (delete_where (λ _ v, bool_decide (ver_source v = source)))
  (on_source_recoveries (delete_where (λ _ c, bool_decide (rec_source c = source)))
  (on_registration_intents (delete source)
  (on_host_reservations (delete_where (λ k _, bool_decide (k.2 = source)))
  (on_source_archives (delete source)
  (on_source_tombstones (delete source)
  (on_source_retirements (delete_where (λ _ r, bool_decide (ret_source r = source)))
  (on_registration_jobs (delete source)
  (on_removal_requests (delete source)
  (on_sources (delete source) s))))))))))))).

Section Journal.
Context (schema : string) (sha256 : string → string).
(** [str(timestamp)] and [timestamp.isoformat()] in the time zone of the session. *)
Context (time_str isoformat : Z → string).

Definition admission_key : string := "netbox-sync:" +:+ schema +:+ ":legacy-admission".

(** [admission_lock] of legacy_admission.py, exclusive. *)
Definition admission_lock : DB unit :=
  held ← gets (λ s, bool_decide (admission_key ∈ session_locks s));
  raise_if held (LifecycleError "SOURCE_LIFECYCLE_CONFLICT").

Definition purge_retired_source (source : string) (operation : N) (actor : string) : DB unit :=
  s ← gets id;
  raise_if (bool_decide (admission_key ∈ session_locks s)) (DatabaseError "P0001");;
  raise_if (negb (purge_admitted s source operation actor)) (DatabaseError "P0001");;
  value ← lift (unassign source (auth_state s));
  modify (on_auth_state (λ _, value));;
  modify (purged source).

(** ** The journal *)

Definition removal_generation (s : db) (source : string) : pyval :=
  match source_tombstones s !! source with
  | Some t => PDict [("removed_at", PStr (isoformat (tomb_removed_at t)));
                     ("restored_at", match tomb_restored_at t with Some x => PStr (isoformat x) | None => PNone end)]
  | None => PNone
  end.

Definition journal_row (source : string) : DB source_row :=
  s ← gets id; require (sources s !! source) (LifecycleError "SOURCE_NOT_FOUND").

(** [{**row, **pending_flags}]. *)
Definition checked_columns (row : source_row) (pending_flags : option pyval) : result exn pydict :=
  match pending_flags with
  | None => Ok (source_columns time_str row)
  | Some (PDict flags) => Ok (dupdate (source_columns time_str row) flags)
  | Some _ => Err (TypeError "object is not a mapping")
  end.

Definition guard (source revision : string) (pending_flags : option pyval) (archive : bool) :
    DB (source_row * pyval * pyval) :=
  row ← journal_row source;
  raise_if (bool_decide (is_Some pending_flags) && (cfg_enabled (src_config row) || cfg_sync_enabled (src_config row)))
    (LifecycleError "SOURCE_LIFECYCLE_CONFLICT");;
  checked ← lift (checked_columns row pending_flags);
  raise_if (negb (bool_decide (revision_of sha256 checked = revision))) (LifecycleError "SOURCE_LIFECYCLE_CONFLICT");;
  s ← gets id;
  raise_if (operation_active s source) (LifecycleError "SOURCE_OPERATION_ACTIVE");;
  raise_if (run_blocked s source) (LifecycleError "SOURCE_APPLY_UNCONFIRMED");;
  raise_if (exists_row (λ _ c, bool_decide (rec_source c = source) && bool_decide (rec_state c = RC_CREDENTIALS_PENDING))
              (source_recoveries s)) (LifecycleError "SOURCE_RECOVERY_OUTCOME_UNCERTAIN");;
  placement ← lift (identity_placement (cfg_settings (src_config row)));
  raise_if (negb archive && negb match placement.2 with PInt z => (0 <? z)%Z | _ => false end)
    (LifecycleError "RETIREMENT_BLOCKED");;
  let peers := peer_rows s source in
  raise_if (10000 <? Z.of_nat (length peers))%Z (LifecycleError "RETIREMENT_BLOCKED");;
  lift (check_peers archive placement.2 peers);;
  mret (row, placement.2, removal_generation s source).

Definition record_of (source : string) (operation : N) (actor : string) : DB retirement_row :=
  s ← gets id;
  r ← require (source_retirements s !! operation) (LifecycleError "RETIREMENT_CONFLICT");
  raise_if (negb (bool_decide (ret_source r = source))) (LifecycleError "RETIREMENT_CONFLICT");;
  raise_if (negb (bool_decide (ret_actor r = actor))) (LifecycleError "RETIREMENT_CONFLICT");;
  mret r.

(** [json.dumps(remote)] with its default separators, of which only the length
    matters. *)
Fixpoint dumps_length (v : pyval) : nat :=
  match v with
  | PList l => 2 + foldr (λ n acc, n + acc) 0 (map dumps_length l) + 2 * pred (length l)
  | PDict d => 2 + foldr (λ n acc, n + acc) 0 (map (λ kv, String.length (json_string kv.1) + 2 + dumps_length kv.2) d) + 2 * pred (length d)
  | _ => String.length (json_dumps v)
  end.

(** The reviewed manifest is the one asked for. *)
Definition review_matches (source : string) (operation : N) (cluster : pyval) (remote : pydict) : result exn bool :=
  if negb (py_eqb (dget "nonce" remote) (PStr (uuid_str operation))) then Ok false
  else if negb (py_eqb (dget "source_instance" remote) (PStr source)) then Ok false
  else if negb (py_eqb (dget "status" remote) (PStr "REVIEWED")) then Ok false
  else
    format ← attr_get "format" (default (PDict []) (dlookup "manifest" remote));
    if negb (py_eqb format (PInt 2) || py_eqb format (PInt 4)) then Ok false
    else
      manifest ← py_item "manifest" (PDict remote);
      format ← attr_get "format" manifest;
      if py_eqb format (PInt 2) then cluster_id ← attr_get "cluster_id" manifest; Ok (py_eqb cluster_id cluster)
      else Ok true.

Definition prepare (source : string) (operation : N) (actor revision : string) (guard_instance : N) (remote : pydict) :
    DB retirement_row :=
  raise_if (bool_decide (actor = "") || Nat.ltb 200 (String.length actor)) (LifecycleError "REQUEST_INVALID");;
  raise_if (2 * 1024 * 1024 <? Z.of_nat (dumps_length (PDict remote)))%Z (LifecycleError "RETIREMENT_BLOCKED");;
  atomic (
    source_gate source true false;;
    format ← lift (attr_get "format" (default (PDict []) (dlookup "manifest" remote)));
    checked ← guard source revision None (py_eqb format (PInt 4));
    let '(row, cluster, generation) := checked in
    matches ← lift (review_matches source operation cluster remote);
    raise_if (negb matches) (LifecycleError "RETIREMENT_CONFLICT");;
    let plan := [("remote", PDict remote); ("removal_generation", generation);
                 ("source_flags", PDict [("enabled", PBool (cfg_enabled (src_config row)));
                                         ("sync_enabled", PBool (cfg_sync_enabled (src_config row)))])] in
    s ← gets id;
    match source_retirements s !! operation with
    | Some previous =>
        raise_if (negb (bool_decide (ret_source previous = source) && bool_decide (ret_actor previous = actor) &&
                        bool_decide (ret_revision previous = revision) && bool_decide (ret_guard_instance previous = guard_instance) &&
                        py_eqb (PDict (ret_plan previous)) (PDict plan))) (LifecycleError "RETIREMENT_CONFLICT");;
        mret previous
    | None =>
        created ← clock_timestamp;
        let r := {| ret_operation := operation; ret_source := source; ret_actor := actor; ret_revision := revision;
                    ret_guard_instance := guard_instance; ret_plan := plan; ret_state := RT_READY; ret_receipt := None;
                    ret_safe_code := None; ret_remove_credentials := None; ret_created_at := created; ret_finished_at := None;
                    ret_superseded_by := None; ret_local_cleanup_verified := false |} in
        modify (on_source_retirements (<[operation := r]>));;
        mret r
    end).

(** A committed legacy outcome that an archive may supersede. *)
Definition legacy_outcome (r : retirement_row) : bool :=
  bool_decide (ret_state r = RT_SUCCEEDED) &&
  match ret_receipt r with
  | None | Some [] => false
  | Some d => py_eqb (dget "status" d) (PStr "SUCCEEDED") && negb (is_True (dget "generation_closed" d))
  end.

(** The later consent of an operation already dispatched. *)
Definition extend_consent (r : retirement_row) (remove_credentials : bool) : DB retirement_row :=
  if bool_decide (ret_remove_credentials r = Some remove_credentials) then mret r
  else
    raise_if (negb (bool_decide (ret_remove_credentials r = Some false) && remove_credentials && ret_inflight r))
      (LifecycleError "RETIREMENT_CONFLICT");;
    update_retirement (ret_operation r) set_consent;;
    returning (ret_operation r).

(** The dispatch of a READY operation. *)
Definition dispatch (source : string) (r : retirement_row) (remove_credentials : bool) : DB retirement_row :=
  s ← gets id;
  archive ← lift (plan_format_is 4 r);
  raise_if (exists_row (λ _ o, bool_decide (ret_source o = source) && ret_inflight o && negb (archive && legacy_outcome o))
              (source_retirements s)) (LifecycleError "SOURCE_RETIREMENT_PENDING");;
  (if (archive : bool) then
     modify (on_source_retirements (update_where
       (λ _ o, bool_decide (ret_source o = source) && bool_decide (ret_state o = RT_SUCCEEDED) &&
               negb (bool_decide (ret_receipt o ≫= (λ d, json_member_text "generation_closed" (PDict d)) = Some "true")) &&
               negb (bool_decide (is_Some (ret_superseded_by o))))
       (set_superseded (ret_operation r))))
   else mret tt);;
  finished ← clock_timestamp;
  modify (on_source_recoveries (update_where
    (λ _ c, bool_decide (rec_source c = source) && bool_decide (rec_state c = RC_PREPARED)) (abandon_recovery finished)));;
  disable_source source;;
  update_retirement (ret_operation r) (set_sending remove_credentials);;
  returning (ret_operation r).

Definition begin (source : string) (operation : N) (actor : string) (digest : pyval) (confirmed_source : string)
    (remove_credentials : pyval) : DB (retirement_row * bool) :=
  match remove_credentials with
  | PBool consent =>
      atomic (
        source_gate source true false;;
        r ← record_of source operation actor;
        raise_if (bool_decide (is_Some (ret_superseded_by r))) (LifecycleError "SOURCE_ARCHIVE_REVIEW_REQUIRED");;
        flags ← lift (if bool_decide (ret_state r ∈ [RT_SENDING; RT_UNCERTAIN; RT_SUCCEEDED; RT_BLOCKED])
                      then f ← py_item "source_flags" (PDict (ret_plan r)); Ok (Some f) else Ok None);
        archive ← lift (plan_format_is 4 r);
        checked ← guard source (ret_revision r) flags archive;
        let '(row, _, generation) := checked in
        remote ← lift (plan_remote r);
        reviewed ← lift (py_item "digest" remote);
        raise_if (negb (py_eqb reviewed digest)) (LifecycleError "RETIREMENT_CONFLICT");;
        changed ← lift (if bool_decide (ret_state r = RT_SUCCEEDED) then Ok false
                        else g ← py_item "removal_generation" (PDict (ret_plan r)); Ok (negb (py_eqb generation g)));
        raise_if changed (LifecycleError "RETIREMENT_CONFLICT");;
        raise_if (negb (bool_decide (confirmed_source = cfg_name (src_config row)))) (LifecycleError "RETIREMENT_CONFLICT");;
        if bool_decide (ret_state r = RT_READY)
        then r' ← dispatch source r consent; mret (r', true)
        else r' ← extend_consent r consent; mret (r', false))
  | _ => raise (LifecycleError "REQUEST_INVALID")
  end.

Definition resume_legacy_busy (source : string) (operation : N) (actor : string) : DB unit :=
  atomic (
    source_gate source true false;;
    r ← record_of source operation actor;
    raise_if (negb (bool_decide (ret_state r = RT_BLOCKED)) ||
              negb (bool_decide (ret_safe_code r = Some "SOURCE_OPERATION_ACTIVE")) ||
              negb (bool_decide (ret_remove_credentials r = Some true)) || bool_decide (is_Some (ret_receipt r)) ||
              bool_decide (is_Some (ret_superseded_by r))) (LifecycleError "RETIREMENT_CONFLICT");;
    full ← lift (plan_format_is 2 r);
    raise_if (negb full) (LifecycleError "RETIREMENT_CONFLICT");;
    flags ← lift (py_item "source_flags" (PDict (ret_plan r)));
    guard source (ret_revision r) (Some flags) false;;
    s ← gets id;
    raise_if (exists_row (λ k o, bool_decide (ret_source o = source) && negb (bool_decide (k = ret_operation r)) && ret_inflight o)
                (source_retirements s)) (LifecycleError "SOURCE_RETIREMENT_PENDING");;
    update_retirement (ret_operation r) (set_state RT_UNCERTAIN (Some "RETIREMENT_SERVER_BUSY"))).

Definition dispatched (r : retirement_row) : bool := bool_decide (ret_state r ∈ [RT_SENDING; RT_UNCERTAIN]).

Definition uncertain (source : string) (operation : N) (actor code : string) : DB unit :=
  raise_if (negb (bool_decide (code ∈ ["RETIREMENT_UNCERTAIN"; "RETIREMENT_SERVER_BUSY"]))) (LifecycleError "REQUEST_INVALID");;
  atomic (
    source_gate source true false;;
    r ← record_of source operation actor;
    raise_if (negb (dispatched r)) (LifecycleError "RETIREMENT_CONFLICT");;
    update_retirement (ret_operation r) (set_state RT_UNCERTAIN (Some code))).

(** The receipt is of this operation, guard and manifest, and accounts for
    exactly the reviewed objects. *)
Definition receipt_matches (source : string) (r : retirement_row) (guard_instance : N) (receipt : pydict) : result exn bool :=
  expected ← plan_remote r;
  if negb (bool_decide (ret_guard_instance r = guard_instance)) then Ok false
  else if negb (py_eqb (dget "nonce" receipt) (PStr (uuid_str (ret_operation r)))) then Ok false
  else if negb (py_eqb (dget "source_instance" receipt) (PStr source)) then Ok false
  else
    digest ← py_item "digest" expected;
    if negb (py_eqb (dget "digest" receipt) digest) then Ok false
    else
      manifest ← py_item "manifest" expected;
      if negb (py_eqb (dget "manifest" receipt) manifest) then Ok false
      else if negb (py_eqb (dget "status" receipt) (PStr "SUCCEEDED")) then Ok false
      else
        match dget "deleted" receipt, default (PList []) (dlookup "already_absent" receipt) with
        | PList deleted, PList absent =>
            if truthy (dget "already_absent" receipt) && truthy (PList deleted) then Ok false
            else
              reported ← py_sorted (deleted ++ absent)%list;
              format ← py_item "format" manifest;
              reviewed ← (if py_eqb format (PInt 2) then
                            objects ← py_item "objects" manifest;
                            items ← py_iter objects;
                            names ← mapR py_first items;
                            py_sorted names
                          else Ok []);
              Ok (py_eqb (PList reported) (PList reviewed))
        | _, _ => Ok false
        end.

Definition resolve (source : string) (operation : N) (actor : string) (guard_instance : N) (receipt : pydict) : DB retirement_row :=
  atomic (
    source_gate source true false;;
    r ← record_of source operation actor;
    matches ← lift (receipt_matches source r guard_instance receipt);
    raise_if (negb matches) (LifecycleError "RETIREMENT_CONFLICT");;
    if bool_decide (ret_state r ∈ [RT_SUCCEEDED; RT_FINALIZED]) then
      raise_if match ret_receipt r with Some d => negb (py_eqb (PDict d) (PDict receipt)) | None => true end
        (LifecycleError "RETIREMENT_CONFLICT");;
      mret r
    else
      raise_if (negb (dispatched r)) (LifecycleError "RETIREMENT_CONFLICT");;
      finished ← clock_timestamp;
      update_retirement (ret_operation r) (set_succeeded receipt finished);;
      returning (ret_operation r)).

Definition blocked (source : string) (operation : N) (actor code : string) : DB unit :=
  raise_if (negb (bool_decide (code ∈ DEFINITE_REFUSALS))) (LifecycleError "REQUEST_INVALID");;
  atomic (
    source_gate source true false;;
    r ← record_of source operation actor;
    raise_if (negb (dispatched r)) (LifecycleError "RETIREMENT_CONFLICT");;
    update_retirement (ret_operation r) (set_state RT_BLOCKED (Some code))).

Definition finalized (source : string) (operation : N) (actor : string) : DB unit :=
  atomic (
    source_gate source true false;;
    r ← record_of source operation actor;
    raise_if (negb (bool_decide (ret_state r ∈ [RT_SUCCEEDED; RT_FINALIZED]))) (LifecycleError "RETIREMENT_CONFLICT");;
    removed ← gets (λ s, tombstoned s source);
    raise_if (negb removed) (LifecycleError "RETIREMENT_CONFLICT");;
    admission_lock;;
    full ← lift (plan_format_is 2 r);
    if (full : bool) then
      raise_if (negb (ret_local_cleanup_verified r)) (LifecycleError "SOURCE_CREDENTIAL_CLEANUP_PENDING");;
      purge_retired_source source (ret_operation r) actor
    else
      close_generation r;;
      update_retirement (ret_operation r) (set_state RT_FINALIZED None)).

(** The two updates of retirement_coordinator.py. *)
Definition cleanup_pending (operation : N) : DB unit :=
  atomic (update_retirement operation (λ r, set_state (ret_state r) (Some "SOURCE_CREDENTIAL_CLEANUP_PENDING") r)).
Definition cleanup_verified (operation : N) : DB unit := atomic (update_retirement operation set_verified).

(** ** Reachable journals *)

(** A transaction of the journal, of the coordinator or of the source lifecycle,
    an update of a source that enables nothing, or anything that touches neither
    the registry nor the journal. *)
Inductive journal_step (s : db) : db → Prop :=
| js_prepare source operation actor revision instance remote :
    journal_step s (prepare source operation actor revision instance remote s).2
| js_begin source operation actor digest confirmed consent :
    journal_step s (begin source operation actor digest confirmed consent s).2
| js_resume source operation actor : journal_step s (resume_legacy_busy source operation actor s).2
| js_uncertain source operation actor code : journal_step s (uncertain source operation actor code s).2
| js_resolve source operation actor instance receipt :
    journal_step s (resolve source operation actor instance receipt s).2
| js_blocked source operation actor code : journal_step s (blocked source operation actor code s).2
| js_finalized source operation actor : journal_step s (finalized source operation actor s).2
| js_pending operation : journal_step s (cleanup_pending operation s).2
| js_verified operation : journal_step s (cleanup_verified operation s).2
| js_rename source revision name : journal_step s (rename_row sha256 time_str source revision name s).2
| js_remove source revision name credentials operation :
    journal_step s (remove_row sha256 time_str source revision name credentials operation s).2
| js_source f source :
    (∀ row, cfg_enabled (src_config (f row)) = true → cfg_enabled (src_config row) = true) →
    (∀ row, cfg_sync_enabled (src_config (f row)) = true → cfg_sync_enabled (src_config row) = true) →
    journal_step s (on_sources (alter f source) s)
| js_other s' : sources s' = sources s → source_retirements s' = source_retirements s → journal_step s s'.

Definition disabled (s : db) (source : string) : Prop :=
  ∀ row, sources s !! source = Some row → cfg_enabled (src_config row) = false ∧ cfg_sync_enabled (src_config row) = false.

(** What a record's receipt must be in its state. *)
Definition receipt_ok (r : retirement_row) : Prop :=
  if bool_decide (ret_state r ∈ [RT_SUCCEEDED; RT_FINALIZED])
  then ∃ receipt, ret_receipt r = Some receipt ∧ receipt_matches (ret_source r) r (ret_guard_instance r) receipt = Ok true
  else ret_receipt r = None.

(** The invariant of the journal; the flags of a source are part of it for the sources
    in [guarded], those no other writer of the registry enables again. *)
Context {guarded : string → Prop}.
Record journal_ok_for (s : db) : Prop := {
  jo_keyed k r : source_retirements s !! k = Some r → ret_operation r = k;
  jo_disabled k r : source_retirements s !! k = Some r → ret_inflight r = true → guarded (ret_source r) → disabled s (ret_source r);
  jo_receipt k r : source_retirements s !! k = Some r → receipt_ok r;
  jo_ready k r : source_retirements s !! k = Some r → ret_state r = RT_READY → ret_remove_credentials r = None;
  jo_unique k k' r r' : source_retirements s !! k = Some r → source_retirements s !! k' = Some r' →
    ret_source r = ret_source r' → ret_indexed r = true → ret_indexed r' = true → k = k' }.

(** *** Queries leave the database as it is *)

Lemma guard_reads source revision flags archive s : moves eq (guard source revision flags archive) s.
Proof. unfold guard, journal_row. db_moves. Qed.
Lemma record_of_reads source operation actor s : moves eq (record_of source operation actor) s.
Proof. unfold record_of. db_moves. Qed.

Lemma guard_Ok source revision flags archive s x s' :
  guard source revision flags archive s = (Ok x, s') →
  s' = s ∧ sources s !! source = Some x.1.1 ∧ (is_Some flags → disabled s source).
Proof.
  intros Hg. pose proof (guard_reads source revision flags archive s) as Hr. unfold moves in Hr. rewrite Hg in Hr. simpl in Hr.
  subst s'. split; [done|]. unfold guard, journal_row in Hg. inv_m. simpl in *. split; [done|].
  intros Hf row' Hrow'. simplify_eq. rewrite bool_decide_eq_true_2 in * by done. simpl in *. by inv_bool.
Qed.

Lemma record_of_Ok source operation actor s r s' :
  record_of source operation actor s = (Ok r, s') →
  s' = s ∧ source_retirements s !! operation = Some r ∧ ret_source r = source ∧ ret_actor r = actor.
Proof. unfold record_of. intros H. inv_m. inv_bool. done. Qed.

Lemma admission_lock_Ok s u s' : admission_lock s = (Ok u, s') → s' = s ∧ (admission_key ∉ session_locks s).
Proof.
  unfold admission_lock. intros H. inv_m. split; [done|]. by eapply bool_decide_eq_false_1.
Qed.

(** *** Statements that keep the invariant *)

Definition evolves_ok (s : db) (r r' : retirement_row) : Prop :=
  ret_operation r' = ret_operation r ∧ ret_source r' = ret_source r ∧
  (ret_inflight r' = true → ret_inflight r = true ∨ disabled s (ret_source r)) ∧
  (receipt_ok r → receipt_ok r') ∧
  (ret_state r' = RT_READY → ret_state r = RT_READY ∧ ret_remove_credentials r' = ret_remove_credentials r).

Lemma update_retirement_ok operation f s :
  (∀ r, source_retirements s !! operation = Some r → journal_ok_for s → evolves_ok s r (f r) ∨ f r = r) →
  moves (keeps journal_ok_for) (update_retirement operation f) s.
Proof.
  intros Hf. unfold update_retirement. db_moves. simpl in *.
  match goal with H : _ = false |- _ => rename H into Hidx end. intros Hok.
  assert (∀ k r', alter f operation (source_retirements s) !! k = Some r' →
    source_retirements s !! k = Some r' ∨
    ∃ r, k = operation ∧ source_retirements s !! k = Some r ∧ r' = f r ∧ evolves_ok s r r') as Hback.
  { intros k r'. destruct (decide (k = operation)) as [->|]; [|rewrite lookup_alter_ne by done; by left].
    rewrite lookup_alter_eq. destruct (source_retirements s !! operation) as [r|] eqn:E; [|done]. intros [= <-].
    destruct (Hf r eq_refl Hok) as [?|?]; [right; eauto|left; congruence]. }
  split; simpl.
  - intros k r' [H|(r & -> & H & -> & (E & _))]%Hback; [by apply (jo_keyed _ Hok)|]. rewrite E. by apply (jo_keyed _ Hok).
  - intros k r' [H|(r & -> & H & -> & (_ & E & Hd & _))]%Hback Hi; [by apply (jo_disabled _ Hok _ _ H)|].
    rewrite E. destruct (Hd Hi) as [?|?]; [by apply (jo_disabled _ Hok _ _ H)|done].
  - intros k r' [H|(r & -> & H & -> & (_ & _ & _ & Hr & _))]%Hback; [by apply (jo_receipt _ Hok _ _ H)|].
    apply Hr. by apply (jo_receipt _ Hok _ _ H).
  - intros k r' [H|(r & -> & H & -> & (_ & _ & _ & _ & Hn))]%Hback Hst; [by apply (jo_ready _ Hok _ _ H)|].
    destruct (Hn Hst) as [? ->]. by apply (jo_ready _ Hok _ _ H).
  - assert (∀ k r', source_retirements s !! k = Some r' → k ≠ operation → ret_indexed r' = true →
      ∀ r, source_retirements s !! operation = Some r → ret_indexed (f r) = true → ret_source r' = ret_source (f r) → False) as Hno.
    { intros k r' Hk Hne Hi' r Hr Hi Es. simpl in Hidx. rewrite Hr, Hi in Hidx. simpl in Hidx.
      rewrite exists_row_false in Hidx. specialize (Hidx _ _ Hk).
      rewrite bool_decide_eq_false_2, bool_decide_eq_true_2, Hi' in Hidx by done. done. }
    intros k k' r1 r2 H1 H2 Es Hi1 Hi2.
    destruct (decide (k = operation)) as [->|Hk], (decide (k' = operation)) as [->|Hk']; try done.
    + rewrite lookup_alter_eq in H1. rewrite lookup_alter_ne in H2 by done. apply fmap_Some in H1 as (r & Hr & ->).
      exfalso. by eapply (Hno k' r2).
    + rewrite lookup_alter_eq in H2. rewrite lookup_alter_ne in H1 by done. apply fmap_Some in H2 as (r & Hr & ->).
      exfalso. by eapply (Hno k r1).
    + rewrite lookup_alter_ne in H1, H2 by done. by eapply (jo_unique _ Hok).
Qed.

Lemma moves_reads {A} (R : relation db) `{!PreOrder R} (m : DB A) s : moves eq m s → moves R m s.
Proof. unfold moves. intros <-. reflexivity. Qed.
Lemma moves_guard (R : relation db) `{!PreOrder R} source revision flags archive s :
  moves R (guard source revision flags archive) s.
Proof. apply moves_reads; [done|apply guard_reads]. Qed.
Lemma moves_record (R : relation db) `{!PreOrder R} source operation actor s : moves R (record_of source operation actor) s.
Proof. apply moves_reads; [done|apply record_of_reads]. Qed.
Lemma moves_gate (R : relation db) `{!PreOrder R} source a b s : moves R (source_gate source a b) s.
Proof. apply moves_reads; [done|]. unfold source_gate. db_moves. Qed.
Lemma moves_returning (R : relation db) `{!PreOrder R} operation s : moves R (returning operation) s.
Proof. unfold returning. db_moves. Qed.
Lemma moves_admission (R : relation db) `{!PreOrder R} s : moves R admission_lock s.
Proof. unfold admission_lock. db_moves. Qed.
Hint Extern 0 (moves ?R (guard _ _ _ _) _) => apply (moves_guard R) : moves.
Hint Extern 0 (moves ?R (record_of _ _ _) _) => apply (moves_record R) : moves.
Hint Extern 0 (moves ?R (source_gate _ _ _) _) => apply (moves_gate R) : moves.
Hint Extern 0 (moves ?R (returning _) _) => apply (moves_returning R) : moves.
Hint Extern 0 (moves ?R admission_lock _) => apply (moves_admission R) : moves.

(** The facts of the queries a handler made, on the database they left alone. *)
Ltac inv_journal :=
  repeat match goal with
  | H : guard _ _ _ _ _ = (Ok _, _) |- _ => apply guard_Ok in H as (-> & ? & ?)
  | H : record_of _ _ _ _ = (Ok _, _) |- _ => apply record_of_Ok in H as (-> & ? & ? & ?)
  | H : source_gate _ _ _ _ = (Ok _, _) |- _ => apply source_gate_Ok in H as ->
  | H : admission_lock _ = (Ok _, _) |- _ => apply admission_lock_Ok in H as [-> ?]
  end; simpl in *; inv_bool; subst.

Lemma same_tables_ok s s' :
  sources s' = sources s → source_retirements s' = source_retirements s → journal_ok_for s → journal_ok_for s'.
Proof.
  intros E1 E2 [H1 H2 H3 H4 H5]. split; rewrite ?E2; try done. intros k r Hk Hi Hg row. rewrite E1. by eapply H2.
Qed.

(** The record a handler read is the one its update finds. *)
Ltac keyed Hok Hr :=
  match goal with H : source_retirements _ !! _ = Some ?a |- _ =>
    simpl in Hr; rewrite (jo_keyed _ Hok _ _ H) in Hr; simpl in Hr; rewrite H in Hr; injection Hr as <-
  end.

Ltac journal := db_moves; try (unfold keeps; by apply same_tables_ok); inv_journal.

(** The flags of a source can only be switched off. *)
Lemma alter_source_ok f source s :
  (∀ row, cfg_enabled (src_config (f row)) = true → cfg_enabled (src_config row) = true) →
  (∀ row, cfg_sync_enabled (src_config (f row)) = true → cfg_sync_enabled (src_config row) = true) →
  journal_ok_for s → journal_ok_for (on_sources (alter f source) s).
Proof.
  intros He Hs [H1 H2 H3 H4 H5]. split; try done. intros k r Hk Hi Hg row. simpl.
  destruct (decide (ret_source r = source)) as [<-|Hne]; [|rewrite lookup_alter_ne by done; by eapply H2].
  rewrite lookup_alter_eq. intros (row0 & Hrow & ->)%fmap_Some. destruct (H2 k r Hk Hi Hg _ Hrow) as [E1 E2].
  split; apply not_true_iff_false; [intros E%He|intros E%Hs]; congruence.
Qed.

Lemma receipt_ok_open r r' :
  ret_receipt r' = ret_receipt r → ret_state r ∉ [RT_SUCCEEDED; RT_FINALIZED] → ret_state r' ∉ [RT_SUCCEEDED; RT_FINALIZED] →
  receipt_ok r → receipt_ok r'.
Proof. intros E H H'. unfold receipt_ok. rewrite !bool_decide_eq_false_2 by done. congruence. Qed.

Lemma receipt_matches_guard source r g receipt : receipt_matches source r g receipt = Ok true → ret_guard_instance r = g.
Proof.
  unfold receipt_matches. destruct (plan_remote r); [|done]. unfold mbind, result_bind. case_bool_decide; [done|]. done.
Qed.

Lemma dispatched_states r : dispatched r = true ↔ ret_state r = RT_SENDING ∨ ret_state r = RT_UNCERTAIN.
Proof. clear. unfold dispatched. rewrite bool_decide_eq_true. set_solver. Qed.

Lemma dispatched_inflight r : dispatched r = true → ret_inflight r = true.
Proof. clear. unfold ret_inflight. rewrite dispatched_states, bool_decide_eq_true. set_solver. Qed.

(** An open record moves to another open state or gets a code. *)
Lemma set_state_ok s state code r :
  ret_state r ∉ [RT_SUCCEEDED; RT_FINALIZED] → state ∉ [RT_READY; RT_SUCCEEDED; RT_FINALIZED] →
  ret_inflight r = true ∨ disabled s (ret_source r) → evolves_ok s r (set_state state code r).
Proof.
  clear. intros Hr Hs Hd. split_and!; try done; [apply receipt_ok_open; [done|done|set_solver]|]. simpl. set_solver.
Qed.

Lemma set_state_dispatched_ok s state code r :
  dispatched r = true → state ∉ [RT_READY; RT_SUCCEEDED; RT_FINALIZED] → evolves_ok s r (set_state state code r).
Proof.
  intros Hd Hs. apply set_state_ok; [|done|left; by apply dispatched_inflight].
  apply dispatched_states in Hd as [-> | ->]; decided.
Qed.

Lemma prepare_ok source operation actor revision instance remote s :
  moves (keeps journal_ok_for) (prepare source operation actor revision instance remote) s.
Proof.
  unfold prepare. journal. intros [K1 K2 K3 K4 K5]. simpl in *.
  split; simpl.
  - intros k r. rewrite lookup_insert_Some. intros [[<- <-]|[_ ?]]; [done|by apply K1].
  - intros k r. rewrite lookup_insert_Some. intros [[<- <-]|[_ ?]] Hi; [done|by eapply K2].
  - intros k r. rewrite lookup_insert_Some. intros [[<- <-]|[_ ?]]; [done|by eapply K3].
  - intros k r. rewrite lookup_insert_Some. intros [[<- <-]|[_ ?]]; [done|by eapply K4].
  - intros k k' r r'. rewrite !lookup_insert_Some. intros [[<- <-]|[_ ?]] [[<- <-]|[_ ?]] ? ? ?; try done. by eapply (K5 k k').
Qed.

Lemma uncertain_ok source operation actor code s : moves (keeps journal_ok_for) (uncertain source operation actor code) s.
Proof.
  unfold uncertain. journal. apply update_retirement_ok. intros r Hr Hok. keyed Hok Hr. left.
  apply set_state_dispatched_ok; [done|decided].
Qed.

Lemma blocked_ok source operation actor code s : moves (keeps journal_ok_for) (blocked source operation actor code) s.
Proof.
  unfold blocked. journal. apply update_retirement_ok. intros r Hr Hok. keyed Hok Hr. left.
  apply set_state_dispatched_ok; [done|decided].
Qed.

(** An update of fields that play no part in the invariant. *)
Lemma same_state_ok s r r' :
  ret_operation r' = ret_operation r → ret_source r' = ret_source r → ret_state r' = ret_state r → ret_receipt r' = ret_receipt r →
  ret_plan r' = ret_plan r → ret_guard_instance r' = ret_guard_instance r →
  (ret_state r = RT_READY → ret_remove_credentials r' = ret_remove_credentials r) → evolves_ok s r r'.
Proof.
  intros E1 E2 E3 E4 E5 E6 E7. split_and!; try done.
  - unfold ret_inflight. rewrite E3. by left.
  - unfold receipt_ok, receipt_matches, plan_remote. by rewrite E1, E2, E3, E4, E5, E6.
  - rewrite E3. auto.
Qed.

Lemma cleanup_pending_ok operation s : moves (keeps journal_ok_for) (cleanup_pending operation) s.
Proof. unfold cleanup_pending. journal. apply update_retirement_ok. intros r Hr Hok. left. by apply same_state_ok. Qed.

Lemma cleanup_verified_ok operation s : moves (keeps journal_ok_for) (cleanup_verified operation) s.
Proof. unfold cleanup_verified. journal. apply update_retirement_ok. intros r Hr Hok. left. by apply same_state_ok. Qed.

Lemma resolve_ok source operation actor instance receipt s :
  moves (keeps journal_ok_for) (resolve source operation actor instance receipt) s.
Proof.
  unfold resolve. journal. apply update_retirement_ok. intros r Hr Hok. keyed Hok Hr. left.
  split_and!; try done; [by left; apply dispatched_inflight|]. intros _. unfold receipt_ok. simpl.
  exists receipt. split; [done|].
  match goal with H : receipt_matches _ _ _ _ = _ |- _ => pose proof (receipt_matches_guard _ _ _ _ H); subst instance; exact H end.
Qed.

Lemma resume_ok source operation actor s : moves (keeps journal_ok_for) (resume_legacy_busy source operation actor) s.
Proof.
  unfold resume_legacy_busy. journal. apply update_retirement_ok. intros r Hr Hok. keyed Hok Hr. left.
  apply set_state_ok; [|decided|right; eauto].
  match goal with H : ret_state _ = RT_BLOCKED |- _ => rewrite H; decided end.
Qed.

(** Superseding takes a record out of the index and changes nothing else. *)
Lemma supersede_ok P operation s :
  journal_ok_for s → journal_ok_for (on_source_retirements (update_where P (set_superseded operation)) s).
Proof.
  intros [K1 K2 K3 K4 K5].
  assert (∀ k r', update_where P (set_superseded operation) (source_retirements s) !! k = Some r' →
    ∃ r, source_retirements s !! k = Some r ∧ (r' = r ∨ r' = set_superseded operation r)) as Hback.
  { intros k r'. rewrite lookup_update_where. intros (r & Hr & ->)%fmap_Some. exists r. destruct (P k r); auto. }
  split; simpl.
  - intros k r' (r & Hr & [-> | ->])%Hback; by apply (K1 _ _ Hr).
  - intros k r' (r & Hr & [-> | ->])%Hback Hi; by apply (K2 _ _ Hr).
  - intros k r' (r & Hr & [-> | ->])%Hback; by apply (K3 _ _ Hr).
  - intros k r' (r & Hr & [-> | ->])%Hback Hst; by apply (K4 _ _ Hr).
  - intros k k' r1' r2' (r1 & Hr1 & [-> | ->])%Hback (r2 & Hr2 & [-> | ->])%Hback Es Hi1 Hi2; try (by eapply (K5 k k' r1 r2));
      unfold ret_indexed in *; simpl in *; rewrite ?andb_false_r in *; done.
Qed.

Lemma disabled_after source s : disabled (on_sources (alter (with_flags false false) source) s) source.
Proof. intros row. simpl. rewrite lookup_alter_eq. by intros (row0 & _ & ->)%fmap_Some. Qed.

Lemma dispatch_ok source r consent s :
  source_retirements s !! ret_operation r = Some r → ret_source r = source → ret_state r = RT_READY →
  moves (keeps journal_ok_for) (dispatch source r consent) s.
Proof.
  intros Hr Hs Hst.
  assert (∀ s', source_retirements s' !! ret_operation r = Some r → disabled s' source →
    moves (keeps journal_ok_for) (update_retirement (ret_operation r) (set_sending consent)) s') as Hsend.
  { intros s' Hr' Hd. apply update_retirement_ok. intros r0 Hr0 Hok. rewrite Hr' in Hr0. injection Hr0 as <-. left.
    split_and!; try done; [intros _; right; by rewrite Hs|]. apply receipt_ok_open; [done|rewrite Hst; decided|decided]. }
  unfold dispatch, disable_source. journal.
  - intros Hok. by apply supersede_ok.
  - intros Hok. by apply alter_source_ok.
  - apply Hsend; [|apply disabled_after]. simpl.
    match goal with H : (if _ then modify _ else _) _ = _ |- _ => apply if_Ok in H as [[_ ->%modify_Ok]|[_ [_ ->]%ret_Ok]] end; [|done].
    simpl. rewrite lookup_update_where, Hr. simpl. rewrite Hst. by rewrite andb_false_r.
Qed.

Lemma extend_consent_ok r consent s :
  source_retirements s !! ret_operation r = Some r → moves (keeps journal_ok_for) (extend_consent r consent) s.
Proof.
  intros Hr. unfold extend_consent. journal. apply update_retirement_ok. intros r0 Hr0 Hok. rewrite Hr in Hr0. injection Hr0 as <-.
  left. apply same_state_ok; try done. intros E. unfold ret_inflight in *. rewrite E in *. done.
Qed.

Lemma retirement_begin_ok source operation actor digest confirmed consent s :
  moves (keeps journal_ok_for) (begin source operation actor digest confirmed consent) s.
Proof.
  unfold begin. destruct consent as [|consent| | | |]; try (by db_moves). journal; intros Hok;
    match goal with H : source_retirements _ !! _ = Some _ |- _ => pose proof (jo_keyed _ Hok _ _ H); subst operation end.
  - by apply dispatch_ok.
  - by apply extend_consent_ok.
Qed.

Lemma close_generation_same r s :
  moves (λ s s', sources s' = sources s ∧ source_retirements s' = source_retirements s) (close_generation r) s.
Proof.
  assert (PreOrder (λ s s', sources s' = sources s ∧ source_retirements s' = source_retirements s)).
  { split; [by intros ?|]. intros ??? [-> ->] [-> ->]. done. }
  unfold close_generation, insert_archive. db_moves; done.
Qed.

(** A purge takes the rows of one source away. *)
Lemma purged_ok source s : journal_ok_for s → journal_ok_for (purged source s).
Proof.
  intros [K1 K2 K3 K4 K5]. split; simpl.
  - intros k r [Hr _]%lookup_delete_where. by apply K1.
  - intros k r [Hr Hs]%lookup_delete_where Hi Hg row Hrow. apply (K2 _ _ Hr Hi Hg). simpl in Hrow.
    destruct (decide (source = ret_source r)) as [->|Hne]; [by rewrite lookup_delete_eq in Hrow|by rewrite lookup_delete_ne in Hrow].
  - intros k r [Hr _]%lookup_delete_where. by apply (K3 _ _ Hr).
  - intros k r [Hr _]%lookup_delete_where. by apply (K4 _ _ Hr).
  - intros k k' r r' [Hr _]%lookup_delete_where [Hr' _]%lookup_delete_where. by eapply K5.
Qed.

Lemma purge_retired_ok source operation actor s : moves (keeps journal_ok_for) (purge_retired_source source operation actor) s.
Proof. unfold purge_retired_source. journal. intros Hok. by apply purged_ok. Qed.

Lemma finalized_ok source operation actor s : moves (keeps journal_ok_for) (finalized source operation actor) s.
Proof.
  unfold finalized. db_moves; try apply purge_retired_ok.
  - intros Hok. eapply same_tables_ok; [..|exact Hok]; apply close_generation_same.
  - match goal with H : close_generation ?r ?s1 = (Ok _, ?s2) |- _ =>
      pose proof (close_generation_same r s1) as Hc; unfold moves in Hc; rewrite H in Hc; destruct Hc as [E1 E2] end.
    inv_journal. apply update_retirement_ok. intros r Hr Hok. rewrite E2 in Hr. simpl in *.
    match goal with H : source_retirements _ !! _ = Some ?a, Hs : ret_state ?a ∈ _ |- _ => rename H into Ha; rename Hs into Hst end.
    pose proof Ha as Hk. rewrite <-E2 in Hk. rewrite (jo_keyed _ Hok _ _ Hk), Ha in Hr. injection Hr as <-. left.
    split_and!; try done. intros Hrc. unfold receipt_ok in *. rewrite bool_decide_eq_true_2 in Hrc by done. exact Hrc.
Qed.

Lemma lifecycle_ok source revision name credentials operation s :
  moves (keeps journal_ok_for) (rename_row sha256 time_str source revision name) s ∧
  moves (keeps journal_ok_for) (remove_row sha256 time_str source revision name credentials operation) s.
Proof.
  split.
  - unfold rename_row. journal. intros Hok. by apply alter_source_ok.
  - unfold remove_row, disable_source. journal. intros Hok. by apply alter_source_ok.
Qed.

Lemma journal_step_ok s s' : journal_step s s' → journal_ok_for s → journal_ok_for s'.
Proof.
  destruct 1; intros Hok.
  - by apply prepare_ok.
  - by apply retirement_begin_ok.
  - by apply resume_ok.
  - by apply uncertain_ok.
  - by apply resolve_ok.
  - by apply blocked_ok.
  - by apply finalized_ok.
  - by apply cleanup_pending_ok.
  - by apply cleanup_verified_ok.
  - by apply (lifecycle_ok source revision name false None s).
  - by apply lifecycle_ok.
  - by apply alter_source_ok.
  - by eapply same_tables_ok.
Qed.

Lemma journal_steps_ok s s' : rtc journal_step s s' → journal_ok_for s → journal_ok_for s'.
Proof. induction 1; [done|]. eauto using journal_step_ok. Qed.

Lemma empty_journal_ok s : source_retirements s = ∅ → journal_ok_for s.
Proof. intros E. split; intros *; rewrite E; by intros ?%lookup_empty_Some. Qed.

(** *** Writers of the registry that may enable a source *)

(** A step of the journal, or any write to the registry row of a source outside
    [guarded]: [SourceRegistry.update_source] can write the flags back. *)
Inductive registry_step (s : db) : db → Prop :=
| rs_journal s' : journal_step s s' → registry_step s s'
| rs_registry f source : ¬ guarded source → registry_step s (on_sources (partial_alter f source) s).

Lemma registry_write_ok f source s : ¬ guarded source → journal_ok_for s → journal_ok_for (on_sources (partial_alter f source) s).
Proof.
  intros Hng [H1 H2 H3 H4 H5]. split; try done. intros k r Hk Hi Hg row. simpl.
  rewrite lookup_partial_alter_ne by (by intros ->). by eapply H2.
Qed.
Lemma registry_steps_ok s s' : rtc registry_step s s' → journal_ok_for s → journal_ok_for s'.
Proof. induction 1 as [|s1 s2 s3 H Hs IH]; [done|]. intros Hok. apply IH. destruct H; [by eapply journal_step_ok|by apply registry_write_ok]. Qed.

(** *** What a receipt proves *)

(** The names of the objects a manifest lists: the first members of its objects in the
    format that lists them, none in the others. *)
Definition manifest_names (manifest : pyval) (names : list pyval) : Prop :=
  ∃ format, py_item "format" manifest = Ok format ∧
  if py_eqb format (PInt 2)
  then ∃ objects items, py_item "objects" manifest = Ok objects ∧ py_iter objects = Ok items ∧ Forall2 (λ item name, py_first item = Ok name) items names
  else names = [].
(** The receipt names this operation and source, repeats the reviewed digest and
    manifest, reports success, and the objects it deleted or found absent, never some of
    each, are the reviewed ones, each as often as it was reviewed. *)
Record receipt_proves (r : retirement_row) (receipt : pydict) : Prop := {
  rp_nonce : py_eqb (dget "nonce" receipt) (PStr (uuid_str (ret_operation r))) = true;
  rp_source : py_eqb (dget "source_instance" receipt) (PStr (ret_source r)) = true;
  rp_status : py_eqb (dget "status" receipt) (PStr "SUCCEEDED") = true;
  rp_plan : ∃ expected digest manifest deleted absent names reported reviewed,
    plan_remote r = Ok expected ∧ py_item "digest" expected = Ok digest ∧ py_item "manifest" expected = Ok manifest ∧
    py_eqb (dget "digest" receipt) digest = true ∧ py_eqb (dget "manifest" receipt) manifest = true ∧
    dget "deleted" receipt = PList deleted ∧ default (PList []) (dlookup "already_absent" receipt) = PList absent ∧
    (deleted = [] ∨ absent = []) ∧ manifest_names manifest names ∧
    reported ≡ₚ (deleted ++ absent)%list ∧ reviewed ≡ₚ names ∧ Forall2 (λ x y, py_eqb x y = true) reported reviewed }.

Lemma py_insert_perm x l l' : py_insert x l = Ok l' → l' ≡ₚ x :: l.
Proof using Type.
  revert l'. induction l as [|y l IH]; intros l' H; cbn [py_insert] in H; [by injection H as <-|].
  apply result_bind_Ok in H as (less & _ & H). destruct less; [|by injection H as <-].
  apply result_bind_Ok in H as (rest & Hr & [= <-]). rewrite (IH _ Hr). by rewrite Permutation_swap.
Qed.
Lemma py_sorted_perm l l' : py_sorted l = Ok l' → l' ≡ₚ l.
Proof using Type.
  revert l'. induction l as [|x l IH]; intros l' H; cbn [py_sorted] in H; [by injection H as <-|].
  apply result_bind_Ok in H as (rest & Hr & H). rewrite (py_insert_perm _ _ _ H). by rewrite (IH rest Hr).
Qed.
Lemma py_eqb_lists l l' : py_eqb (PList l) (PList l') = true → Forall2 (λ x y, py_eqb x y = true) l l'.
Proof using Type.
  revert l'. induction l as [|x l IH]; intros [|y l'] H; cbn in H; try done.
  apply andb_prop in H as [H1 H2]. constructor; [done|]. by apply IH.
Qed.

Lemma receipt_matches_proves source r g receipt : receipt_matches source r g receipt = Ok true → ret_source r = source → receipt_proves r receipt.
Proof using Type.
  intros H <-. unfold receipt_matches in H. apply result_bind_Ok in H as (expected & He & H).
  case_bool_decide as Hg; [|done]. cbn [negb] in H.
  destruct (py_eqb (dget "nonce" receipt) _) eqn:Hn; [|done]. destruct (py_eqb (dget "source_instance" receipt) _) eqn:Hs; [|done]. cbn [negb] in H.
  apply result_bind_Ok in H as (digest & Hd & H). destruct (py_eqb (dget "digest" receipt) _) eqn:Hd'; [|done]. cbn [negb] in H.
  apply result_bind_Ok in H as (manifest & Hm & H). destruct (py_eqb (dget "manifest" receipt) _) eqn:Hm'; [|done]. cbn [negb] in H.
  destruct (py_eqb (dget "status" receipt) _) eqn:Hst; [|done]. cbn [negb] in H.
  destruct (dget "deleted" receipt) as [| | | |deleted|] eqn:Hdel; try done.
  destruct (default (PList []) (dlookup "already_absent" receipt)) as [| | | |absent|] eqn:Habs; try done.
  destruct (_ && _) eqn:Hboth; [done|].
  apply result_bind_Ok in H as (reported & Hrep & H). apply result_bind_Ok in H as (format & Hf & H).
  apply result_bind_Ok in H as (reviewed & Hrev & [= H]). apply py_sorted_perm in Hrep. apply py_eqb_lists in H.
  assert (∃ names, manifest_names manifest names ∧ reviewed ≡ₚ names) as (names & Hnames & Hperm).
  { unfold manifest_names. rewrite Hf. destruct (py_eqb format (PInt 2)) eqn:E; [|injection Hrev as <-; exists []; split; [exists format; by rewrite E|done]].
    apply result_bind_Ok in Hrev as (objects & Ho & Hrev). apply result_bind_Ok in Hrev as (items & Hi & Hrev).
    apply result_bind_Ok in Hrev as (names & Hna & Hrev). exists names. split; [|by apply py_sorted_perm].
    exists format. rewrite E. split; [done|]. exists objects, items. by rewrite <-mapR_Ok. }
  split; [done..|]. exists expected, digest, manifest, deleted, absent, names, reported, reviewed. split_and!; try done.
  destruct deleted as [|x deleted]; [by left|right]. unfold dget in Hboth. destruct (dlookup "already_absent" receipt) as [v|]; simpl in Habs, Hboth; [|by injection Habs as <-].
  subst v. destruct absent; [done|]. done.
Qed.

(** C27: in every reachable state of the journal, whatever the order of reviews,
    confirmations, worker outcomes, removals, finalizations and other writes to the
    registry: at most one retirement of a source is in flight and not superseded; a
    retirement counts as succeeded or finalized only with a recorded receipt that names
    its operation and source, repeats the reviewed digest and manifest and accounts for
    exactly the reviewed objects; and a source with a retirement in flight is disabled
    and unscheduled, unless a writer outside the journal and the lifecycle has written
    its registry row (for the sources in [guarded] none has, for the others any write
    may happen at any time). *)
Theorem retirement_journal_safe s s' :
  rtc registry_step s s' → source_retirements s = ∅ →
  (∀ k r row, source_retirements s' !! k = Some r → ret_inflight r = true → guarded (ret_source r) → sources s' !! ret_source r = Some row →
     cfg_enabled (src_config row) = false ∧ cfg_sync_enabled (src_config row) = false) ∧
  (∀ k k' r r', source_retirements s' !! k = Some r → source_retirements s' !! k' = Some r' → ret_source r = ret_source r' →
     ret_indexed r = true → ret_indexed r' = true → k = k') ∧
  (∀ k r, source_retirements s' !! k = Some r → ret_state r = RT_SUCCEEDED ∨ ret_state r = RT_FINALIZED →
     ret_operation r = k ∧ ∃ receipt, ret_receipt r = Some receipt ∧ receipt_proves r receipt).
Proof.
  intros Hsteps He. pose proof (registry_steps_ok _ _ Hsteps (empty_journal_ok _ He)) as Hok. split_and!.
  - intros k r row Hr Hi Hg. by apply (jo_disabled _ Hok _ _ Hr Hi Hg).
  - apply (jo_unique _ Hok).
  - intros k r Hr Hst. pose proof (jo_receipt _ Hok _ _ Hr) as Hrc. unfold receipt_ok in Hrc. split; [by apply (jo_keyed _ Hok)|].
    rewrite bool_decide_eq_true_2 in Hrc by (destruct Hst as [-> | ->]; decided). destruct Hrc as (receipt & ? & ?).
    exists receipt. split; [done|]. by eapply receipt_matches_proves.
Qed.

(** ** What a record may become *)

Definition may_become (a b : RetirementState) : bool :=
  match a, b with
  | RT_READY, _ => true
  | RT_SENDING, (RT_SENDING | RT_UNCERTAIN | RT_BLOCKED | RT_SUCCEEDED | RT_FINALIZED) => true
  | RT_UNCERTAIN, (RT_UNCERTAIN | RT_BLOCKED | RT_SUCCEEDED | RT_FINALIZED) => true
  | RT_BLOCKED, (RT_BLOCKED | RT_UNCERTAIN | RT_SUCCEEDED | RT_FINALIZED) => true
  | RT_SUCCEEDED, (RT_SUCCEEDED | RT_FINALIZED) => true
  | RT_FINALIZED, RT_FINALIZED => true
  | _, _ => false
  end.

Record evolves (r r' : retirement_row) : Prop := {
  evo_review : ret_operation r' = ret_operation r ∧ ret_source r' = ret_source r ∧ ret_actor r' = ret_actor r ∧
    ret_revision r' = ret_revision r ∧ ret_guard_instance r' = ret_guard_instance r ∧ ret_plan r' = ret_plan r ∧
    ret_created_at r' = ret_created_at r;
  evo_state : may_become (ret_state r) (ret_state r') = true;
  evo_receipt receipt : ret_receipt r = Some receipt → ret_receipt r' = Some receipt;
  evo_consent : ret_remove_credentials r = Some true → ret_remove_credentials r' = Some true }.

#[export] Instance evolves_preorder : PreOrder evolves.
Proof.
  split.
  - intros r. split; try done. by destruct (ret_state r).
  - intros r1 r2 r3 [(?&?&?&?&?&?&?) A1 A2 A3] [(?&?&?&?&?&?&?) B1 B2 B3]. split; auto.
    + split_and!; congruence.
    + by destruct (ret_state r1), (ret_state r2), (ret_state r3).
Qed.

Definition grows (s s' : db) : Prop :=
  ∀ k r, source_retirements s !! k = Some r → ∃ r', source_retirements s' !! k = Some r' ∧ evolves r r'.

#[export] Instance grows_preorder : PreOrder grows.
Proof.
  split; [intros s k r Hr; by exists r|]. intros s1 s2 s3 H12 H23 k r Hr.
  destruct (H12 _ _ Hr) as (r2 & Hr2 & He). destruct (H23 _ _ Hr2) as (r3 & Hr3 & He'). exists r3. split; [done|]. by etrans.
Qed.

Lemma grows_same s s' : source_retirements s' = source_retirements s → grows s s'.
Proof. intros E k r Hr. exists r. by rewrite E. Qed.

Lemma update_retirement_grows operation f s :
  (∀ r, source_retirements s !! operation = Some r → evolves r (f r)) → moves grows (update_retirement operation f) s.
Proof.
  intros Hf. unfold update_retirement. db_moves. intros k r Hr. simpl. destruct (decide (k = operation)) as [->|Hne].
  - rewrite lookup_alter_eq, Hr. eauto.
  - rewrite lookup_alter_ne by done. by exists r.
Qed.

(** Updates that keep the receipt and do not withdraw consent. *)
Lemma with_retirement_evolves r state code consent finished superseded verified :
  may_become (ret_state r) state = true → (ret_remove_credentials r = Some true → consent = Some true) →
  evolves r (with_retirement r state (ret_receipt r) code consent finished superseded verified).
Proof. intros Hs Hc. by split. Qed.

Ltac journal_grows := db_moves; try (by apply grows_same); inv_journal.
Ltac keyed_row Hok Hr :=
  match goal with H : source_retirements _ !! _ = Some ?a |- _ =>
    simpl in Hr; rewrite (jo_keyed _ Hok _ _ H) in Hr; rewrite H in Hr; injection Hr as <-
  end.

Lemma dispatched_becomes r state :
  dispatched r = true → state ∈ [RT_UNCERTAIN; RT_BLOCKED; RT_SUCCEEDED] → may_become (ret_state r) state = true.
Proof.
  intros [E|E]%dispatched_states Hs; rewrite E; rewrite !elem_of_cons, elem_of_nil in Hs; by destruct Hs as [->|[->|[->|[]]]].
Qed.

Lemma dispatch_grows source r consent s :
  journal_ok_for s → source_retirements s !! ret_operation r = Some r → ret_state r = RT_READY → moves grows (dispatch source r consent) s.
Proof.
  intros Hok Hr Hst. unfold dispatch, disable_source. journal_grows.
  - intros k o Ho. simpl. rewrite lookup_update_where, Ho. simpl. eexists. split; [done|].
    destruct (_ && _); [|reflexivity]. apply with_retirement_evolves; [by destruct (ret_state o)|done].
  - apply update_retirement_grows. intros r0 Hr0. simpl in Hr0.
    match goal with H : (if _ then modify _ else _) _ = _ |- _ => apply if_Ok in H as [[_ ->%modify_Ok]|[_ [_ ->]%ret_Ok]] end.
    + simpl in Hr0. rewrite lookup_update_where, Hr in Hr0. simpl in Hr0. rewrite Hst in Hr0. rewrite andb_false_r in Hr0. simpl in Hr0.
      injection Hr0 as <-. apply with_retirement_evolves; [by rewrite Hst|]. by rewrite (jo_ready _ Hok _ _ Hr Hst).
    + rewrite Hr in Hr0. injection Hr0 as <-. apply with_retirement_evolves; [by rewrite Hst|]. by rewrite (jo_ready _ Hok _ _ Hr Hst).
Qed.

Lemma begin_grows source operation actor digest confirmed consent s :
  journal_ok_for s → moves grows (begin source operation actor digest confirmed consent) s.
Proof.
  intros Hok. unfold begin. destruct consent as [|consent| | | |]; try (by db_moves). journal_grows;
    match goal with H : source_retirements _ !! _ = Some _ |- _ => pose proof (jo_keyed _ Hok _ _ H); subst operation end.
  - by apply dispatch_grows.
  - unfold extend_consent. journal_grows. apply update_retirement_grows. intros r Hr. apply with_retirement_evolves; [|done].
    by destruct (ret_state r).
Qed.

Lemma prepare_grows source operation actor revision instance remote s :
  moves grows (prepare source operation actor revision instance remote) s.
Proof.
  unfold prepare. journal_grows. intros k r Hr. simpl in *. exists r. rewrite lookup_insert_ne; [done|]. congruence.
Qed.

Lemma transitions_grow source operation actor code instance receipt s :
  journal_ok_for s →
  moves grows (resume_legacy_busy source operation actor) s ∧ moves grows (uncertain source operation actor code) s ∧
  moves grows (resolve source operation actor instance receipt) s ∧ moves grows (blocked source operation actor code) s.
Proof.
  intros Hok. split_and!.
  - unfold resume_legacy_busy. journal_grows. apply update_retirement_grows. intros r Hr. keyed_row Hok Hr.
    apply with_retirement_evolves; [|done]. match goal with H : ret_state _ = RT_BLOCKED |- _ => by rewrite H end.
  - unfold uncertain. journal_grows. apply update_retirement_grows. intros r Hr. keyed_row Hok Hr.
    apply with_retirement_evolves; [|done]. apply dispatched_becomes; [done|decided].
  - unfold resolve. journal_grows. apply update_retirement_grows. intros r Hr. keyed_row Hok Hr. split; try done.
    + apply dispatched_becomes; [done|decided].
    + intros d Hd. exfalso. match goal with H : source_retirements _ !! _ = Some _ |- _ => pose proof (jo_receipt _ Hok _ _ H) as Hrc end.
      unfold receipt_ok in Hrc. rewrite bool_decide_eq_false_2 in Hrc; [congruence|].
      match goal with H : dispatched _ = true |- _ => apply dispatched_states in H as [-> | ->]; decided end.
  - unfold blocked. journal_grows. apply update_retirement_grows. intros r Hr. keyed_row Hok Hr.
    apply with_retirement_evolves; [|done]. apply dispatched_becomes; [done|decided].
Qed.

Lemma bookkeeping_grows source operation revision name credentials removal s :
  moves grows (cleanup_pending operation) s ∧ moves grows (cleanup_verified operation) s ∧
  moves grows (rename_row sha256 time_str source revision name) s ∧
  moves grows (remove_row sha256 time_str source revision name credentials removal) s.
Proof.
  split_and!.
  - unfold cleanup_pending. journal_grows. apply update_retirement_grows. intros r _. apply with_retirement_evolves; [|done].
    by destruct (ret_state r).
  - unfold cleanup_verified. journal_grows. apply update_retirement_grows. intros r _. apply with_retirement_evolves; [|done].
    by destruct (ret_state r).
  - unfold rename_row. journal_grows.
  - unfold remove_row, disable_source. journal_grows.
Qed.

(** ** Finalization *)

(** The team a source is assigned to in the authorization state (membership, where the
    assignments are a list), and another field of the team settings. *)
Definition team_field (key : string) (value : pydict) : option pyval :=
  match dlookup "source_teams" value with Some (PDict teams) => dlookup key teams | _ => None end.
Definition assigned (source : string) (value : pydict) : option pyval :=
  match team_field "assignments" value with
  | Some (PDict a) => dlookup source a
  | Some (PList l) => if decide (PStr source ∈ l) then Some (PStr source) else None
  | _ => None
  end.
(** Only the assignment of the source and the revision may differ. *)
Record auth_kept (source : string) (value value' : pydict) : Prop := {
  ak_fields key : key ≠ "source_teams" → dlookup key value' = dlookup key value;
  ak_teams key : key ∉ ["assignments"; "revision"] → team_field key value' = team_field key value;
  ak_assigned k : k ≠ source → assigned k value' = assigned k value }.
(** The audit events that do not name the source, in their order. *)
Definition other_events (source : string) (events : list pydict) : list pydict :=
  filter (λ event, json_member_text "source_instance" (PDict event) ≠ Some source) events.

(** No table holds a row of the source, no audit event names it and no team has it. *)
Record erased (source : string) (s : db) : Prop := {
  er_source : sources s !! source = None;
  er_runs k r : sync_runs s !! k = Some r → run_source_instance r ≠ source;
  er_operations k o : source_operations s !! k = Some o → op_source o ≠ source;
  er_tombstone : source_tombstones s !! source = None;
  er_reservations k h : host_reservations s !! k = Some h → k.2 ≠ source;
  er_recoveries k c : source_recoveries s !! k = Some c → rec_source c ≠ source;
  er_intent : registration_intents s !! source = None;
  er_verifications k v : identity_verifications s !! k = Some v → ver_source v ≠ source;
  er_retirements k r : source_retirements s !! k = Some r → ret_source r ≠ source;
  er_reconciliations k a : run_reconciliations s !! k = Some a → rcn_source a ≠ source;
  er_archive : source_archives s !! source = None;
  er_job : registration_jobs s !! source = None;
  er_request : removal_requests s !! source = None;
  er_audit event : event ∈ auth_audit s → json_member_text "source_instance" (PDict event) ≠ Some source;
  er_team : assigned source (auth_state s) = None }.

(** The rows of every other source are those of the earlier database, and so are its
    audit events and its team. *)
Record others_kept (source : string) (s s' : db) : Prop := {
  ok_sources k : k ≠ source → sources s' !! k = sources s !! k;
  ok_runs k r : run_source_instance r ≠ source → sync_runs s' !! k = Some r ↔ sync_runs s !! k = Some r;
  ok_operations k o : op_source o ≠ source → source_operations s' !! k = Some o ↔ source_operations s !! k = Some o;
  ok_tombstones k : k ≠ source → source_tombstones s' !! k = source_tombstones s !! k;
  ok_reservations k h : k.2 ≠ source → host_reservations s' !! k = Some h ↔ host_reservations s !! k = Some h;
  ok_recoveries k c : rec_source c ≠ source → source_recoveries s' !! k = Some c ↔ source_recoveries s !! k = Some c;
  ok_intents k : k ≠ source → registration_intents s' !! k = registration_intents s !! k;
  ok_verifications k v : ver_source v ≠ source → identity_verifications s' !! k = Some v ↔ identity_verifications s !! k = Some v;
  ok_retirements k r : ret_source r ≠ source → source_retirements s' !! k = Some r ↔ source_retirements s !! k = Some r;
  ok_reconciliations k a : rcn_source a ≠ source → run_reconciliations s' !! k = Some a ↔ run_reconciliations s !! k = Some a;
  ok_archives k : k ≠ source → source_archives s' !! k = source_archives s !! k;
  ok_jobs k : k ≠ source → registration_jobs s' !! k = registration_jobs s !! k;
  ok_requests k : k ≠ source → removal_requests s' !! k = removal_requests s !! k;
  ok_audit : other_events source (auth_audit s') = other_events source (auth_audit s);
  ok_auth : auth_kept source (auth_state s) (auth_state s') }.

#[export] Instance auth_kept_preorder source : PreOrder (auth_kept source).
Proof.
  split; [by split|]. intros v1 v2 v3 [A1 A2 A3] [B1 B2 B3].
  split; intros; [rewrite B1 by done; by apply A1|rewrite B2 by done; by apply A2|rewrite B3 by done; by apply A3].
Qed.

(** Dropping the assignment of a source drops it and leaves the others. *)
Lemma team_field_set key teams value : team_field key (dset "source_teams" (PDict teams) value) = dlookup key teams.
Proof using Type. unfold team_field. by rewrite dlookup_dset, decide_True. Qed.
Lemma reassigned source teams value revision rest :
  dlookup "source_teams" value = Some (PDict teams) →
  (∀ k, k ≠ source →
     match rest with PDict a => dlookup k a | PList l => if decide (PStr k ∈ l) then Some (PStr k) else None | _ => None end = assigned k value) →
  auth_kept source value (dset "source_teams" (PDict (dset "revision" revision (dset "assignments" rest teams))) value).
Proof using Type.
  intros Ht Hrest. split.
  - intros key Hk. by rewrite dlookup_dset, decide_False.
  - intros key Hk. rewrite team_field_set, !dlookup_dset. unfold team_field. rewrite Ht.
    rewrite !decide_False; [done|intros ->; apply Hk; rewrite !elem_of_cons; auto..].
  - intros k Hk. rewrite <-Hrest by done. unfold assigned. by rewrite team_field_set, !dlookup_dset, decide_False, decide_True.
Qed.
Lemma unassign_Ok source value value' :
  unassign source value = Ok value' → assigned source value' = None ∧ auth_kept source value value'.
Proof using Type.
  assert (assigned source value = None → value' = value → assigned source value' = None ∧ auth_kept source value value') as Hsame by (by intros ? ->).
  unfold unassign. destruct (dlookup "source_teams" value) as [[| | | | |teams]|] eqn:Et;
    try (intros [= <-]; apply Hsame; [unfold assigned, team_field; by rewrite Et|done]).
  destruct (dlookup "assignments" teams) as [[| | | |l|a]|] eqn:Ea;
    try (intros [= <-]; apply Hsame; [unfold assigned, team_field; by rewrite Et, Ea|done]).
  - case_bool_decide as Hin; [|intros [= <-]; apply Hsame; [unfold assigned, team_field; by rewrite Et, Ea, decide_False|done]].
    destruct (bigint_of _) as [revision|e]; [|done]. intros [= <-]. split.
    + unfold assigned. rewrite team_field_set, !dlookup_dset, decide_False, decide_True by done.
      rewrite decide_False; [done|]. intros [H _]%list_elem_of_filter. done.
    + apply reassigned; [done|]. intros k Hk. unfold assigned, team_field. rewrite Et, Ea. apply decide_ext. rewrite list_elem_of_filter. split; [by intros [_ ?]|]. intros ?. split; [by intros [= ->]|done].
  - case_bool_decide as Hin.
    2: { intros [= <-]. apply Hsame; [|done]. unfold assigned, team_field. rewrite Et, Ea. by apply eq_None_not_Some. }
    destruct (bigint_of _) as [revision|e]; [|done]. intros [= <-]. split.
    + unfold assigned. rewrite team_field_set, !dlookup_dset, decide_False, decide_True by done. by rewrite dlookup_dpop, decide_True.
    + apply reassigned; [done|]. intros k Hk. unfold assigned, team_field. rewrite Et, Ea. by rewrite dlookup_dpop, decide_False.
Qed.

Lemma purged_erased source s : assigned source (auth_state s) = None → erased source (purged source s).
Proof using Type.
  intros Ha. split; simpl; try apply lookup_delete_eq; try (intros ? ? [_ H]%lookup_delete_where; by apply bool_decide_eq_false in H); [|done].
  intros event Hin. apply list_elem_of_filter in Hin. by destruct Hin.
Qed.

Lemma purged_keeps_others source s : others_kept source s (purged source s).
Proof.
  clear. split; simpl; intros; try (by apply lookup_delete_ne); try reflexivity;
    try (rewrite lookup_delete_where, bool_decide_eq_false; naive_solver).
  unfold other_events. apply list_filter_filter_l. done.
Qed.

(** A purge that is admitted erases the source and nothing else. *)
Lemma purge_Ok source operation actor s u s' :
  purge_retired_source source operation actor s = (Ok u, s') →
  purge_admitted s source operation actor = true ∧ erased source s' ∧ others_kept source s s' ∧ session_locks s' = session_locks s.
Proof using Type.
  unfold purge_retired_source. intros H. inv_m. simpl in *. inv_bool.
  match goal with H : unassign _ _ = Ok ?v |- _ => apply unassign_Ok in H as [Ha Hk]; rename v into value end.
  split_and!; [done|by apply purged_erased| |done].
  destruct (purged_keeps_others source (on_auth_state (λ _, value) s)). by split.
Qed.

Lemma purge_Err source operation actor s e s' : purge_retired_source source operation actor s = (Err e, s') → s' = s.
Proof using Type.
  unfold purge_retired_source, mbind, M_bind, gets, raise_if, lift, modify, mret, M_ret, raise. cbn.
  repeat (case_match; simplify_eq); intros; by simplify_eq.
Qed.

(** A closed generation: archived with this receipt, its host identity released,
    no plan left to apply. *)
Record generation_closed (r : retirement_row) (s : db) : Prop := {
  gc_receipt : closes_generation (ret_receipt r) = true;
  gc_archive : ∃ a receipt, source_archives s !! ret_source r = Some a ∧ ret_receipt r = Some receipt ∧
    arc_operation a = ret_operation r ∧ arc_guard_instance a = ret_guard_instance r ∧
    py_eqb (PDict (arc_receipt a)) (PDict receipt) = true;
  gc_released k h : host_reservations s !! k = Some h → k.2 = ret_source r → is_Some (resv_released_at h);
  gc_no_plan k o : source_operations s !! k = Some o → op_source o = ret_source r → op_status o ≠ OP_READY }.

(** Closing a generation archives it where it was not, releases its host reservations
    and makes its ready plans stale; it changes nothing else. *)
Record only_closed (source : string) (s s' : db) : Prop := {
  oc_others : others_kept source s s';
  oc_tables : sources s' = sources s ∧ sync_runs s' = sync_runs s ∧ source_tombstones s' = source_tombstones s ∧
    source_recoveries s' = source_recoveries s ∧ registration_intents s' = registration_intents s ∧
    identity_verifications s' = identity_verifications s ∧ run_reconciliations s' = run_reconciliations s ∧
    registration_jobs s' = registration_jobs s ∧ removal_requests s' = removal_requests s ∧
    auth_state s' = auth_state s ∧ auth_audit s' = auth_audit s ∧ session_locks s' = session_locks s;
  oc_archive a : source_archives s !! source = Some a → source_archives s' !! source = Some a;
  oc_reservations k h : host_reservations s !! k = Some h → k.2 = source → ∃ at_time,
    host_reservations s' !! k = Some (mkReservation (resv_operation h) (resv_actor h) (resv_created_at h) (Some at_time)) ∧
    (∀ t, resv_released_at h = Some t → at_time = t);
  oc_operations k o0 : source_operations s !! k = Some o0 → op_source o0 = source → ∃ o, source_operations s' !! k = Some o ∧
    (op_status o0 ≠ OP_READY → o = o0) ∧
    (op_status o0 = OP_READY → ∃ at_time, o = with_status o0 OP_STALE at_time (op_finished_at o0) (Some "PLAN_STALE") None);
  oc_no_new : dom (source_operations s') = dom (source_operations s) ∧ dom (host_reservations s') = dom (host_reservations s) }.

Lemma dom_update_where {K A} `{Countable K} (P : K → A → bool) (f : A → A) (t : gmap K A) : dom (update_where P f t) = dom t.
Proof using Type. apply set_eq. intros k. rewrite !elem_of_dom, lookup_update_where. by destruct (t !! k). Qed.
Lemma insert_archive_Ok source row s u s' :
  insert_archive source row s = (Ok u, s') →
  s' = s ∨ source_archives s !! source = None ∧ s' = on_source_archives (<[source := row]>) s.
Proof using Type.
  unfold insert_archive. intros H. rewrite (bind_step _ _ _ s s) in H by done.
  apply if_Ok in H as [[_ [_ ->]%ret_Ok]|[E ->%modify_Ok]]; [by left|]. right. inv_bool. split; [|done]. by apply eq_None_not_Some.
Qed.

Definition release_at (released : Z) (h : reservation_row) : reservation_row :=
  mkReservation (resv_operation h) (resv_actor h) (resv_created_at h) (Some (default released (resv_released_at h))).
Definition make_stale (updated : Z) (o : operation_row) : operation_row := with_status o OP_STALE updated (op_finished_at o) (Some "PLAN_STALE") None.
Lemma closing_frame source released updated s s2 :
  s2 = on_ticks S s ∨ (∃ row, source_archives s !! source = None ∧ s2 = on_source_archives (<[source := row]>) (on_ticks S s)) →
  only_closed source s
    (on_source_operations (update_where (λ _ o, bool_decide (op_source o = source) && bool_decide (op_status o = OP_READY)) (make_stale updated))
      (on_ticks S (on_host_reservations (update_where (λ k _, bool_decide (k.2 = source)) (release_at released)) (on_ticks S s2)))).
Proof using Type.
  intros Hs2. split.
  - destruct Hs2 as [->|(row & _ & ->)]; split; simpl; try done; try (intros; by rewrite lookup_insert_ne).
    all: try (intros k o Hne; rewrite lookup_update_where; destruct (source_operations s !! k) as [o0|]; [|done]; simpl;
      case_bool_decide; simpl; [|done]; case_bool_decide; [|done]; split; intros [= <-]; done).
    all: intros k h Hne; rewrite lookup_update_where; destruct (host_reservations s !! k); simpl; [by rewrite bool_decide_eq_false_2|done].
  - by destruct Hs2 as [->|(row & _ & ->)].
  - intros a Ha. destruct Hs2 as [->|(row & Hn & ->)]; [done|congruence].
  - intros k h Hh Hk. exists (default released (resv_released_at h)). split; [|by intros t ->].
    destruct Hs2 as [->|(row & Hn & ->)]; simpl; rewrite lookup_update_where, Hh; simpl; by rewrite bool_decide_eq_true_2.
  - intros k o Ho Hk. assert (source_operations s2 !! k = Some o) as Ho2 by (by destruct Hs2 as [->|(row & Hn & ->)]).
    simpl. rewrite lookup_update_where, Ho2. simpl. rewrite bool_decide_eq_true_2 by done. simpl.
    case_bool_decide as Hst; (eexists; split; [done|]); [|done]. split; [done|]. intros _. by exists updated.
  - simpl. rewrite !dom_update_where. by destruct Hs2 as [->|(row & Hn & ->)].
Qed.

Lemma close_generation_Ok r s u s' :
  close_generation r s = (Ok u, s') →
  generation_closed r s' ∧ only_closed (ret_source r) s s' ∧ source_retirements s' = source_retirements s ∧
  ∃ t, removed_row s (ret_source r) = Some t ∧ settled (tomb_credential_state t) = true.
Proof using Type.
  intros H. pose proof (close_generation_same r s) as Hsame. unfold moves in Hsame. rewrite H in Hsame. destruct Hsame as [_ E2].
  unfold close_generation in H. inv_m. inv_db. inv_m. simpl in *.
  match goal with H : insert_archive _ _ _ = (Ok _, ?x) |- _ => apply insert_archive_Ok in H as Harch; clear H; set (s2 := x) in * end.
  match goal with H : match source_archives s2 !! _ with _ => _ end = false |- _ =>
    destruct (source_archives s2 !! ret_source r) as [a|] eqn:Ea; [|done] end.
  destruct (removed_row s (ret_source r)) as [t|] eqn:Et; [|done]. inv_bool.
  split_and!; [|apply closing_frame; destruct Harch as [->|[? ->]]; eauto|done|by exists t]. split; simpl; [done|..].
  { exists a. eexists. split_and!; [done|eassumption|done|done|done]. }
  - intros k h. rewrite lookup_update_where. intros (h0 & Hh0 & ->)%fmap_Some Hk. rewrite bool_decide_eq_true_2 by done. eauto.
  - intros k o. rewrite lookup_update_where. intros (o0 & Ho0 & ->)%fmap_Some.
    destruct (_ && _) eqn:E; [done|]. intros Hs Hst. rewrite !bool_decide_eq_true_2 in E by done. done.
Qed.

Lemma only_closed_retirements source f s s1 :
  source_retirements s1 = source_retirements s → only_closed source s s1 →
  only_closed source s (on_source_retirements (λ _, source_retirements s) (on_source_retirements f s1)).
Proof using Type. intros E [[] ? ? ? ? ?]. split; [split|..]; done. Qed.

(** C28: finalization ends a generation in exactly one of two ways, and only after
    the source was removed and its operation succeeded for this actor. A full
    deletion is purged only with the remote proof and the local cleanup the
    purge function demands, and then no table holds a row of the source, no audit
    event names it and no team has it, while every row, audit event and team of every
    other source is kept. An archive is recorded with the operation's closing receipt,
    the host identity is released, no plan remains ready, the record is FINALIZED,
    and apart from that nothing changes: no other table, no other source, no archive
    that existed, and of the source's own reservations and operations only the time
    of the release and the state of the ready plans. *)
Theorem finalization_exact source operation actor s u s' :
  finalized source operation actor s = (Ok u, s') →
  tombstoned s source = true ∧ session_locks s' = session_locks s ∧
  ∃ r, source_retirements s !! operation = Some r ∧ ret_source r = source ∧ ret_actor r = actor ∧
  ret_state r ∈ [RT_SUCCEEDED; RT_FINALIZED] ∧
  match plan_format_is 2 r with
  | Ok true => ret_local_cleanup_verified r = true ∧ purge_admitted s source (ret_operation r) actor = true ∧
      erased source s' ∧ others_kept source s s'
  | Ok false => generation_closed r s' ∧ only_closed source s (on_source_retirements (λ _, source_retirements s) s') ∧
      source_retirements s' = alter (set_state RT_FINALIZED None) (ret_operation r) (source_retirements s)
  | Err _ => False
  end.
Proof using Type.
  intros H. unfold finalized in H. rewrite atomic_Ok in H. apply bind_Ok in H as ([] & ? & ->%source_gate_Ok & H).
  apply bind_Ok in H as (r & ? & (-> & Hr & Hsrc & Hact)%record_of_Ok & H). apply bind_Ok in H as ([] & ? & [Hst ->]%raise_if_Ok & H).
  apply bind_Ok in H as (removed & ? & [-> ->]%gets_Ok & H). apply bind_Ok in H as ([] & ? & [Ht ->]%raise_if_Ok & H).
  apply bind_Ok in H as ([] & ? & [-> Hadm]%admission_lock_Ok & H). apply bind_Ok in H as (full & ? & [Hfmt ->]%lift_Ok & H). inv_bool.
  destruct full.
  - apply bind_Ok in H as ([] & ? & [Hv ->]%raise_if_Ok & H). apply purge_Ok in H as (Hp & He & Hk & Hl). inv_bool.
    split_and!; [done|done|]. exists r. split_and!; try done. by rewrite Hfmt.
  - apply bind_Ok in H as ([] & s1 & (Hgc & Hoc & E2 & _)%close_generation_Ok & H). unfold update_retirement in H. inv_m.
    destruct (oc_tables _ _ _ Hoc) as (_ & _ & _ & _ & _ & _ & _ & _ & _ & _ & _ & Hl).
    split_and!; [done|done|]. exists r. split_and!; try done. rewrite Hfmt. split_and!; [|by apply only_closed_retirements|by simpl; rewrite E2].
    destruct Hgc. by split.
Qed.

Lemma finalized_grows source operation actor s k r :
  journal_ok_for s → source_retirements s !! k = Some r →
  let s' := (finalized source operation actor s).2 in
  (∃ r', source_retirements s' !! k = Some r' ∧ evolves r r') ∨ (ret_source r = source ∧ erased source s').
Proof.
  intros Hok Hr. cbn zeta. unfold finalized, atomic.
  match goal with |- context [match ?m s with _ => _ end] => destruct (m s) as [[u|e] s'] eqn:E end; [|left; by exists r].
  assert (finalized source operation actor s = (Ok u, s')) as Hfin by (unfold finalized; by rewrite atomic_Ok). clear E. simpl.
  assert (∀ r0, source_retirements s !! operation = Some r0 → ret_operation r0 = operation) as Hkey by apply (jo_keyed _ Hok).
  unfold finalized in Hfin. rewrite atomic_Ok in Hfin. apply bind_Ok in Hfin as ([] & ? & ->%source_gate_Ok & H).
  apply bind_Ok in H as (r0 & ? & (-> & Hr0 & Hsrc & Hact)%record_of_Ok & H). apply bind_Ok in H as ([] & ? & [Hst ->]%raise_if_Ok & H).
  apply bind_Ok in H as (removed & ? & [-> ->]%gets_Ok & H). apply bind_Ok in H as ([] & ? & [Ht ->]%raise_if_Ok & H).
  apply bind_Ok in H as ([] & ? & [-> Hadm]%admission_lock_Ok & H). apply bind_Ok in H as (full & ? & [Hfmt ->]%lift_Ok & H). inv_bool.
  destruct full.
  - apply bind_Ok in H as ([] & ? & [Hv ->]%raise_if_Ok & H). apply purge_Ok in H as (Hp & He & Hk & _).
    destruct (decide (ret_source r = source)) as [Es|Ne]; [by right|].
    left. exists r. split; [|reflexivity]. by apply (ok_retirements _ _ _ Hk).
  - apply bind_Ok in H as ([] & s1 & (_ & _ & E2 & _)%close_generation_Ok & H). left.
    pose proof (update_retirement_grows (ret_operation r0) (set_state RT_FINALIZED None) s1) as Hg. unfold moves in Hg.
    rewrite H in Hg. apply Hg; [|by rewrite E2]. intros r1 Hr1. apply with_retirement_evolves; [|done].
    rewrite E2, (Hkey _ Hr0), Hr0 in Hr1. injection Hr1 as <-.
    rewrite !elem_of_cons, elem_of_nil in Hst. by destruct Hst as [-> |[-> |[]]].
Qed.

(** No step of the journal rewrites what was agreed: in any reachable state a
    record keeps its operation, source, actor, revision, guard and reviewed plan,
    only moves forward through its states, never loses or changes a receipt and
    never withdraws a granted consent; the only other thing that can happen to it
    is the purge of its whole source. *)
Theorem retirement_record_final s0 s s' k r :
  rtc journal_step s0 s → source_retirements s0 = ∅ → journal_step s s' → source_retirements s !! k = Some r →
  (∃ r', source_retirements s' !! k = Some r' ∧ evolves r r') ∨ erased (ret_source r) s'.
Proof.
  intros Hreach He Hstep Hr. pose proof (journal_steps_ok _ _ Hreach (empty_journal_ok _ He)) as Hok.
  destruct Hstep as [| | | |src o act inst rcpt| |src o act| | | | |f src ? ?|].
  - left. by apply prepare_grows.
  - left. by apply begin_grows.
  - left. by apply (transitions_grow source operation actor "" 0 [] s Hok).
  - left. by apply (transitions_grow source operation actor code 0 [] s Hok).
  - left. by apply (transitions_grow src o act "" inst rcpt s Hok).
  - left. by apply (transitions_grow source operation actor code 0 [] s Hok).
  - destruct (finalized_grows src o act s k r Hok Hr) as [?|[<- ?]]; auto.
  - left. by apply (bookkeeping_grows "" operation "" "" false None s).
  - left. by apply (bookkeeping_grows "" operation "" "" false None s).
  - left. by apply (bookkeeping_grows source 0 revision name false None s).
  - left. by apply (bookkeeping_grows source 0 revision name credentials operation s).
  - left. by apply (grows_same s (on_sources (alter f src) s)).
  - left. by apply (grows_same s s').
Qed.
End Journal.
Arguments journal_ok_for guarded s : clear implicits.
Abbreviation journal_ok := (journal_ok_for (λ _, True)).

(** ** A concrete retirement: reviewed, confirmed, deleted remotely, purged *)

Definition sample_placed : source_row := mkSourceRow
  (let c := src_config sample_row in
   {| cfg_id := cfg_id c; cfg_source_instance := cfg_source_instance c; cfg_name := cfg_name c;
      cfg_source_type := cfg_source_type c; cfg_address := cfg_address c; cfg_enabled := true; cfg_sync_enabled := true;
      cfg_sync_interval_seconds := 300; cfg_verify_ssl := true; cfg_target := cfg_target c; cfg_credentials := cfg_credentials c;
      cfg_sync_calendar := PNone; cfg_schedule_changed_at := Some 0%Z; cfg_legacy_identity_owner := false;
      cfg_settings := [("provider_identity", PDict [("site_id", PInt 1); ("cluster_id", PInt 7)])] |}) 0 0.
Definition retiring_db : db := on_sources (λ _, {[ "pve-a" := sample_placed ]}) empty_db.
Definition sample_revision : string := revision sample_hash sample_time sample_placed.
Definition sample_manifest : pyval :=
  PDict [("format", PInt 2); ("cluster_id", PInt 7); ("objects", PList [PList [PStr "vm:2"]; PList [PStr "vm:1"]])].
Definition sample_remote : pydict :=
  [("nonce", PStr (uuid_str 9)); ("source_instance", PStr "pve-a"); ("status", PStr "REVIEWED"); ("digest", PStr "dd"); ("manifest", sample_manifest)].
Definition sample_receipt : pydict :=
  [("nonce", PStr (uuid_str 9)); ("source_instance", PStr "pve-a"); ("status", PStr "SUCCEEDED"); ("digest", PStr "dd");
   ("manifest", sample_manifest); ("deleted", PList [PStr "vm:1"; PStr "vm:2"]); ("generation_closed", PBool true)].

Definition reviewed_db : db := (prepare sample_hash sample_time sample_time "pve-a" 9 "admin" sample_revision 5 sample_remote retiring_db).2.
Definition sending_db : db := (begin sample_hash sample_time sample_time "pve-a" 9 "admin" (PStr "dd") "PVE A" (PBool true) reviewed_db).2.
Definition resolved_db : db := (resolve "pve-a" 9 "admin" 5 sample_receipt sending_db).2.
(** The removal of the source and of its credential files, and the worker's
    report of its local files. *)
Definition cleaned_db : db :=
  (cleanup_verified 9 (on_source_tombstones (λ _, {[ "pve-a" := mkTombstone "PVE A" 0 CR_REMOVED None ]}) resolved_db)).2.
Definition finalized_db : db := (finalized "netbox_sync" "pve-a" 9 "admin" cleaned_db).2.

Definition sample_journal_step : db → db → Prop := journal_step "netbox_sync" sample_hash sample_time sample_time.

Lemma sample_resolved : rtc sample_journal_step retiring_db resolved_db.
Proof.
  eapply rtc_l; [apply (js_prepare _ _ _ _ retiring_db "pve-a" 9 "admin" sample_revision 5 sample_remote)|].
  eapply rtc_l; [apply (js_begin _ _ _ _ reviewed_db "pve-a" 9 "admin" (PStr "dd") "PVE A" (PBool true))|].
  eapply rtc_l; [apply (js_resolve _ _ _ _ sending_db "pve-a" 9 "admin" 5 sample_receipt)|]. apply rtc_refl.
Qed.

Definition state_of (s : db) (operation : N) : option RetirementState := ret_state <$> source_retirements s !! operation.

(** A writer of the registry gives the row of the source to another one, enabled or not. *)
Definition copied_db : db := on_sources (partial_alter (λ _, sources retiring_db !! "pve-a") "pve-b") resolved_db.
Lemma sample_copied : rtc (registry_step "netbox_sync" sample_hash sample_time sample_time (guarded := λ source, source = "pve-a")) retiring_db copied_db.
Proof.
  eapply rtc_r; [|by apply rs_registry]. eapply rtc_subrel; [|exact sample_resolved]. intros s s' H. by apply rs_journal.
Qed.

Lemma retirement_journal_safe_witness :
  state_of copied_db 9 = Some RT_SUCCEEDED ∧
  (∀ row, sources copied_db !! "pve-a" = Some row → cfg_enabled (src_config row) = false ∧ cfg_sync_enabled (src_config row) = false) ∧
  ∃ r receipt, source_retirements copied_db !! 9%N = Some r ∧ ret_receipt r = Some receipt ∧ receipt_proves r receipt.
Proof.
  split; [vm_compute; reflexivity|].
  destruct (retirement_journal_safe "netbox_sync" sample_hash sample_time sample_time retiring_db copied_db sample_copied
    ltac:(reflexivity)) as (H & _ & H3).
  destruct (source_retirements copied_db !! 9%N) as [r|] eqn:E; [|vm_compute in E; discriminate E].
  split.
  - intros row Hrow. apply (H 9%N r row E); vm_compute in E; injection E as <-; [vm_compute; reflexivity|reflexivity|exact Hrow].
  - destruct (H3 9%N r E) as (_ & receipt & H4 & H5); [left; vm_compute in E; injection E as <-; reflexivity|].
    exists r, receipt. auto.
Defined.

Lemma finalization_exact_witness :
  state_of cleaned_db 9 = Some RT_SUCCEEDED ∧ (finalized "netbox_sync" "pve-a" 9 "admin" cleaned_db).1 = Ok tt ∧ erased "pve-a" finalized_db.
Proof.
  split; [vm_compute; reflexivity|]. split; [vm_compute; reflexivity|].
  destruct (finalization_exact "netbox_sync" "pve-a" 9 "admin" cleaned_db tt finalized_db ltac:(vm_compute; reflexivity))
    as (_ & _ & r & Hr & _ & _ & _ & H).
  assert (plan_format_is 2 r = Ok true) as Hf by (vm_compute in Hr; injection Hr as <-; vm_compute; reflexivity).
  rewrite Hf in H. apply H.
Defined.

Lemma retirement_record_final_witness : state_of cleaned_db 9 = Some RT_SUCCEEDED ∧
  ∀ r, source_retirements resolved_db !! 9%N = Some r →
    (∃ r', source_retirements (uncertain "pve-a" 9 "admin" "RETIREMENT_UNCERTAIN" resolved_db).2 !! 9%N = Some r' ∧ evolves r r') ∨
    erased (ret_source r) (uncertain "pve-a" 9 "admin" "RETIREMENT_UNCERTAIN" resolved_db).2.
Proof.
  split; [vm_compute; reflexivity|]. intros r Hr.
  apply (retirement_record_final (guarded := λ _, True) "netbox_sync" sample_hash sample_time sample_time retiring_db resolved_db _ 9%N r sample_resolved
    ltac:(reflexivity)); [|exact Hr].
  apply (js_uncertain _ _ _ _ resolved_db "pve-a" 9 "admin" "RETIREMENT_UNCERTAIN").
Defined.
