(* ===== verification/HostRegistration.v ===== *)
(** * Host reservations and legacy admission (netbox_sync/host_registration.py,
    netbox_sync/legacy_admission.py)

    An ESXi host is one hardware anchor; at most one source may claim it, whether
    by an open reservation or by a registered row whose settings carry the
    anchor. [HostReservations] reserves an anchor before any side effect of a
    registration, [LegacyAdmission] records a reviewed decision about an old row
    that carries no anchor. The registration DTO, the name-based UUID and the
    contention with concurrent transactions are parameters: a nonblocking
    advisory lock that another transaction holds is refused. *)

From S2P Require Import Prelude PyValue SourceConfig Schema PyUuid EsxiIdentity RunHistory SourceOperations SourceLifecycle.
From S2P Require Import Retirement.
From stdpp Require Import base list strings gmap pretty.
From Stdlib Require Import ZArith Lia Ascii.
Local Open Scope string_scope.

Abbreviation settings_of r := (PDict (cfg_settings (src_config r))).

(** ** The registry as the reservations read it *)

Definition is_esxi (r : source_row) : bool := bool_decide (cfg_source_type (src_config r) = "esxi").

(** The rows [_live_rows] returns. *)
Definition live (s : db) (k : string) (r : source_row) : bool := is_esxi r && negb (archived s k).

Definition pending_archive (s : db) : option string :=
  head (isort String.leb (select (λ _ a, negb (bool_decide (is_Some (arc_verified_at a)))) (source_archives s)).*1).

Definition live_rows : DB (list (string * source_row)) :=
  s ← gets id;
  match pending_archive s with
  | Some source => raise (HostRegistrationConflict "HOST_ARCHIVE_RECHECK_REQUIRED" (Some source) [] false)
  | None => mret (select (live s) (sources s))
  end.

(** An enabled row without an anchor and without a reviewed decision. *)
Definition needs_review (r : source_row) : result exn bool :=
  if negb (cfg_enabled (src_config r)) then Ok false
  else match legacy_anchor (settings_of r) with
       | Some _ => Ok false
       | None => resolved ← resolved_for_admission (src_config r); Ok (negb resolved)
       end.

Definition unknown_sources (rows : list (string * source_row)) : result exn (list string) :=
  found ← filterR (λ kr, needs_review kr.2) rows; Ok (isort String.leb found.*1).

Definition claims_anchor (anchor : string) (r : source_row) : bool :=
  bool_decide (registration_anchor (settings_of r) = Some anchor).

Definition existing_sources (anchor : string) (rows : list (string * source_row)) : list string :=
  isort String.leb (filter (λ kr, claims_anchor anchor kr.2 = true) rows).*1.

(** [_existing]: which refusal the registered claimants get. *)
Definition existing_refusal (s : db) (existing : list string) : exn :=
  match existing with
  | [source] =>
      if negb (tombstoned s source) then HostRegistrationConflict "HOST_ALREADY_REGISTERED" (Some source) [] false
      else match sources s !! source with
           | Some r =>
               HostRegistrationConflict
                 (if bool_decide (legacy_anchor (settings_of r) = None) ||
                     exists_row (λ _ t, bool_decide (ret_source t = source) && bool_decide (ret_state t = RT_FINALIZED))
                       (source_retirements s)
                  then "HOST_SOURCE_ARCHIVE_REQUIRED" else "HOST_SOURCE_REMOVED") (Some source) [] false
           | None => TypeError "'NoneType' object is not subscriptable"
           end
  | _ =>
      HostRegistrationConflict "HOST_IDENTITY_CONFLICT" None
        (map (λ source, (source, if tombstoned s source then "REMOVED" else "REGISTERED")) (take 100 existing))
        (Nat.ltb 100 (length existing))
  end.

Definition open_reservation (anchor : string) (k : string * string * string) (v : reservation_row) : bool :=
  bool_decide (k.1 = ("esxi", anchor)) && negb (bool_decide (is_Some (resv_released_at v))).

(** The open reservation of an anchor: its source, operation and actor. *)
Definition active_reservation (s : db) (anchor : string) : option (string * N * string) :=
  (λ kv, (kv.1.2, resv_operation kv.2, resv_actor kv.2)) <$> head (select (open_reservation anchor) (host_reservations s)).

(** The reservation of a source, open or not; [source_instance] is unique. *)
Definition reservation_of (s : db) (source : string) : option ((string * string * string) * reservation_row) :=
  head (select (λ k _, bool_decide (k.2 = source)) (host_reservations s)).

(** [INSERT INTO host_reservations] under its primary key, the unique
    [source_instance] and the partial unique index on open reservations. *)
Definition insert_reservation (anchor source : string) (operation : N) (actor : string) : DB unit :=
  created ← clock_timestamp;
  s ← gets id;
  raise_if (bool_decide (is_Some (reservation_of s source)) || bool_decide (is_Some (active_reservation s anchor)))
    unique_violation;;
  modify (on_host_reservations (<[("esxi", anchor, source) := mkReservation operation actor created None]>)).

(** [UUID(str(value))]. *)
Definition as_uuid (value : pyval) (e : exn) : DB N := require (parse_uuid (py_str value)) e.
Definition bad_uuid : exn := ValueError "badly formed hexadecimal UUID string".

(** The refusals both entry points share. *)
Definition admit_anchor (anchor : string) : DB unit :=
  rows ← live_rows;
  unknown ← lift (unknown_sources rows);
  s ← gets id;
  let existing := existing_sources anchor rows in
  raise_if (negb (bool_decide (existing = []))) (existing_refusal s existing);;
  raise_if (negb (bool_decide (unknown = [])))
    (HostRegistrationConflict "HOST_REGISTRY_REVIEW_REQUIRED" (head unknown) [] false).

(** What a nonblocking advisory lock finds: whether a concurrent transaction
    holds the admission lock or the lock of the host. *)
Record contention := mkContention { admission_busy : bool; host_busy : bool }.

(** The replayable request bound to a reservation. *)
Record intent := mkIntentRequest { in_fingerprint : string; in_request : option pydict }.

Section Reservations.
Context (schema : string).
(** [RegistrationRequest.model_validate({**request, ...})]: the durable request
    and the fingerprint of the validated DTO, or the exception. *)
Context (validate_request : pydict → result exn (pydict * string)).
(** [uuid5(namespace, name).hex]. *)
Context (uuid5_hex : string → string).

Definition host_key (anchor : string) : string := "netbox-sync:" +:+ schema +:+ ":host:" +:+ anchor.

(** [HostReservations.check]. *)
Definition check (preview : pyval) (resume : option (string * pyval)) (actor : pyval) : DB unit :=
  anchor ← lift (esxi_anchor preview);
  admit_anchor anchor;;
  reserved ← gets (λ s, active_reservation s anchor);
  match reserved, resume with
  | Some (source, operation, owner), Some (rsource, rid) =>
      id ← as_uuid rid bad_uuid;
      raise_if (negb (bool_decide (source = rsource) && bool_decide (operation = id) && py_eqb (PStr owner) actor))
        (HostRegistrationConflict "HOST_REGISTRATION_RESERVED" (Some source) [] false)
  | Some (source, _, _), None => raise (HostRegistrationConflict "HOST_REGISTRATION_RESERVED" (Some source) [] false)
  | None, Some _ => raise (host_conflict "HOST_REGISTRATION_INVALID")
  | None, None => mret tt
  end.

(** [validated.durable_request() != request or ...]. *)
Definition check_intent (fingerprint : string) (request : option pydict) : DB unit :=
  raise_if (negb (is_digest fingerprint)) (host_conflict "HOST_REGISTRATION_INVALID");;
  match request with
  | Some r =>
      validated ← lift (validate_request r);
      raise_if (negb (py_eqb (PDict validated.1) (PDict r)) || negb (bool_decide (validated.2 = fingerprint)))
        (host_conflict "HOST_REGISTRATION_INVALID")
  | None => mret tt
  end.

(** [INSERT INTO registration_intents ... ON CONFLICT DO NOTHING]. *)
Definition insert_intent (source : string) (row : Z → intent_row) : DB unit :=
  created ← clock_timestamp;
  s ← gets id;
  let i := row created in
  if bool_decide (is_Some (registration_intents s !! source)) ||
     exists_row (λ _ j, bool_decide (intent_operation j = intent_operation i)) (registration_intents s)
  then mret tt
  else modify (on_registration_intents (<[source := i]>)).

(** The transaction of [bind_intent]. *)
Definition bind_intent_row (anchor source : string) (operation : N) (actor : string) (i : intent) : DB unit :=
  claim ← gets (λ s, reservation_of s source);
  raise_if (negb match claim with
                 | Some (k, v) => bool_decide (resv_operation v = operation) && bool_decide (resv_actor v = actor) &&
                                  bool_decide (k.1.2 = anchor)
                 | None => false
                 end) (host_conflict "HOST_REGISTRATION_INVALID");;
  insert_intent source (mkIntent operation actor anchor (in_fingerprint i) (PDict <$> in_request i));;
  stored ← gets (λ s, registration_intents s !! source);
  raise_if (negb match stored with
                 | Some j => bool_decide (intent_operation j = operation) && bool_decide (intent_actor j = actor) &&
                             bool_decide (intent_anchor j = anchor) && bool_decide (intent_fingerprint j = in_fingerprint i)
                 | None => false
                 end) (host_conflict "HOST_REGISTRATION_INTENT_CHANGED").

(** The broker references of an attempt: [credential_key], [broker_operation]. *)
Definition attempt_references (source : string) (operation : N) (actor : string) : string * string :=
  let key := uuid5_hex (actor +:+ ":" +:+ source +:+ ":" +:+ uuid_str operation) in ("src-registration-" +:+ key, key).

Definition bind_intent (preview : pyval) (source : string) (operation : pyval) (actor : string) (i : intent) :
    DB (string * string) :=
  check_intent (in_fingerprint i) (in_request i);;
  anchor ← lift (esxi_anchor preview);
  id ← as_uuid operation bad_uuid;
  atomic (bind_intent_row anchor source id actor i);;
  mret (attempt_references source id actor).

(** The same within the caller's transaction. *)
Definition bind_intent_inside (preview : pyval) (source : string) (id : N) (actor : string) (i : intent) : DB unit :=
  check_intent (in_fingerprint i) (in_request i);;
  anchor ← lift (esxi_anchor preview);
  bind_intent_row anchor source id actor i.

(** The locks of [reserve] are transaction-level; a [registration_guard] holds
    the lock of its host for its session. *)
Definition reserve_locks (c : contention) (anchor : string) : DB unit :=
  raise_if (admission_busy c) (host_conflict "HOST_REGISTRATION_RESERVED");;
  held ← gets (λ s, bool_decide (host_key anchor ∈ session_locks s));
  raise_if (host_busy c || held) (host_conflict "HOST_REGISTRATION_RESERVED").

Definition reserve (c : contention) (preview : pyval) (source : string) (operation : pyval) (actor : string)
    (i : option intent) : DB string :=
  anchor ← lift (esxi_anchor preview);
  raise_if (negb (source_instance_ok source)) (ValueError "Invalid source identity");;
  id ← as_uuid operation (host_conflict "HOST_REGISTRATION_INVALID");
  raise_if (Nat.eqb (String.length actor) 0 || Nat.ltb 200 (String.length actor)) (ValueError "Invalid actor identity");;
  atomic (
    reserve_locks c anchor;;
    admit_anchor anchor;;
    current ← gets (λ s, active_reservation s anchor);
    match current with
    | Some (csource, cid, cactor) =>
        raise_if (negb (bool_decide (csource = source) && bool_decide (cid = id) && bool_decide (cactor = actor)))
          (HostRegistrationConflict "HOST_REGISTRATION_RESERVED" (Some csource) [] false)
    | None => insert_reservation anchor source id actor
    end;;
    match i with Some i => bind_intent_inside preview source id actor i | None => mret tt end);;
  mret anchor.

(** [outcome]: the identity status of an attempt. *)
Definition outcome (source : string) (operation : pyval) (actor : string) : DB string :=
  op ← as_uuid operation (host_conflict "HOST_REGISTRATION_INVALID");
  s ← gets id;
  mret match reservation_of s source with
       | Some (k, v) =>
           if negb (bool_decide (resv_operation v = op) && bool_decide (resv_actor v = actor)) then "NO_BOUND_ATTEMPT"
           else if archived s source then "GENERATION_CLOSED"
           else match sources s !! source with
                | None => "OUTCOME_UNCERTAIN"
                | Some r =>
                    if negb (bool_decide (legacy_anchor (settings_of r) = Some k.1.2)) then "IDENTITY_CONFLICT"
                    else if tombstoned s source then "RESTORE_REQUIRED" else "REGISTERED"
                end
       | None => "NO_BOUND_ATTEMPT"
       end.

(** What [registration_guard] checks once it holds both locks. *)
Definition guard_checks (anchor source : string) (operation : pyval) (actor : string) : DB unit :=
  reserved ← gets (λ s, active_reservation s anchor);
  match reserved with
  | None => raise (HostRegistrationConflict "HOST_REGISTRATION_RESERVED" (Some source) [] false)
  | Some (rsource, rid, ractor) =>
      id ← as_uuid operation bad_uuid;
      raise_if (negb (bool_decide (rsource = source) && bool_decide (rid = id) && bool_decide (ractor = actor)))
        (HostRegistrationConflict "HOST_REGISTRATION_RESERVED" (Some source) [] false)
  end;;
  rows ← live_rows;
  s ← gets id;
  let existing := existing_sources anchor rows in
  raise_if (negb (bool_decide (existing = [])))
    (existing_refusal s (filter (λ kr, claims_anchor anchor kr.2 = true) rows).*1);;
  unknown ← lift (filterR (λ kr, needs_review kr.2) rows);
  raise_if (negb (bool_decide (unknown.*1 = []))) (host_conflict "HOST_REGISTRY_REVIEW_REQUIRED").

(** The locks released at the end: the shared admission lock unless another
    session holds it too, and the lock of the host. *)
Definition release (shared : bool) (anchor : string) (s : db) : db :=
  on_session_locks (λ l, (if shared then l else l ∖ {[admission_key schema]}) ∖ {[host_key anchor]}) s.

(** The two locks; whether the shared one was held before. *)
Definition guard_locks (c : contention) (anchor source : string) : DB bool :=
  raise_if (admission_busy c) (host_conflict "HOST_REGISTRATION_RESERVED");;
  locks ← gets session_locks;
  raise_if (host_busy c || bool_decide (host_key anchor ∈ locks))
    (HostRegistrationConflict "HOST_REGISTRATION_RESERVED" (Some source) [] false);;
  modify (on_session_locks (λ l, {[admission_key schema; host_key anchor]} ∪ l));;
  mret (bool_decide (admission_key schema ∈ locks)).

Definition registration_guard {A} (c : contention) (preview : pyval) (source : string) (operation : pyval) (actor : string)
    (body : DB A) : DB A :=
  anchor ← lift (esxi_anchor preview);
  shared ← guard_locks c anchor source;
  finally (guard_checks anchor source operation actor;; body) (release shared anchor).

(** [pending_requests]: at most 100 intents of the actor without a source, the
    newest first; a stored request is validated again. *)
Definition newer (a b : string * intent_row) : bool := (intent_created_at b.2 <=? intent_created_at a.2)%Z.

Definition pending_view (k : string * intent_row) : result exn (string * string * option pydict * Z) :=
  request ← match intent_request k.2 with
            | Some (PDict r) => validated ← validate_request r; Ok (Some (validated.1))
            | Some _ => Err (TypeError "object is not a mapping")
            | None => Ok None
            end;
  Ok (k.1, uuid_str (intent_operation k.2), request, intent_created_at k.2).

Definition pending_requests (actor : string) : DB (list (string * string * option pydict * Z)) :=
  s ← gets id;
  let rows := take 100 (isort newer
    (select (λ k i, bool_decide (intent_actor i = actor) && negb (bool_decide (is_Some (sources s !! k)))) (registration_intents s))) in
  lift (mapR pending_view rows).
End Reservations.

(** ** Legacy admission *)

Definition with_settings (settings : pydict) (enabled sync_enabled : bool) (r : source_row) : source_row :=
  let c := src_config r in
  mkSourceRow
    {| cfg_id := cfg_id c; cfg_source_instance := cfg_source_instance c; cfg_name := cfg_name c;
       cfg_source_type := cfg_source_type c; cfg_address := cfg_address c; cfg_enabled := enabled;
       cfg_sync_enabled := sync_enabled; cfg_sync_interval_seconds := cfg_sync_interval_seconds c;
       cfg_verify_ssl := cfg_verify_ssl c; cfg_target := cfg_target c; cfg_credentials := cfg_credentials c;
       cfg_sync_calendar := cfg_sync_calendar c; cfg_schedule_changed_at := cfg_schedule_changed_at c;
       cfg_legacy_identity_owner := cfg_legacy_identity_owner c; cfg_settings := settings |}
    (src_created_at r) (src_updated_at r).

Record admission_view := mkAdmissionView {
  adm_name : string; adm_address : string; adm_port : pyval; adm_verify_ssl : bool; adm_revision : string;
  adm_host_uuid : option string; adm_state : string; adm_isolated : bool; adm_site : string; adm_cluster : string;
  adm_decision : option pyval }.

(** The reviewed decision, with the anchor an observation names. *)
Inductive decision := ISOLATE | OBSERVE.
Definition decision_of (text : string) : option decision :=
  if bool_decide (text = "ISOLATE") then Some ISOLATE else if bool_decide (text = "OBSERVE") then Some OBSERVE else None.
Definition decision_text (d : decision) : string := match d with ISOLATE => "ISOLATE" | OBSERVE => "OBSERVE" end.

Definition recovery_active (s : db) (source : string) : bool :=
  exists_row (λ _ c, bool_decide (rec_source c = source) && bool_decide (rec_state c ∈ [RC_PREPARED; RC_CREDENTIALS_PENDING]))
    (source_recoveries s).

(** Another row, unless its archive is verified, or another reservation holds
    the observed anchor. *)
Definition observed_elsewhere (s : db) (source anchor : string) : bool :=
  exists_row (λ k r, is_esxi r && negb (bool_decide (k = source)) &&
      negb match source_archives s !! k with Some a => bool_decide (is_Some (arc_verified_at a)) | None => false end &&
      claims_anchor anchor r) (sources s) ||
  match active_reservation s anchor with Some (holder, _, _) => negb (bool_decide (holder = source)) | None => false end.

Definition anchor_value (anchor : option string) : pyval := match anchor with Some a => PStr a | None => PNone end.

Definition admission_record (d : decision) (operation : N) (anchor : option string) : pyval :=
  PDict [("state", PStr (match d with ISOLATE => "ISOLATED_UNPROVED" | OBSERVE => "OBSERVED_ENDPOINT" end));
         ("operation_id", PStr (uuid_str operation)); ("observed_uuid", anchor_value anchor);
         ("physical_identity_proved", PBool false); ("object_ownership_proved", PBool false)].

Definition admission_proof (d : decision) (reason : string) (anchor : option string) : pydict :=
  [("purpose", PStr "LEGACY_ADMISSION"); ("decision", PStr (decision_text d)); ("reason", PStr (strip reason));
   ("anchor", anchor_value anchor)].

Section Admission.
Context (schema : string) (sha256 : string → string) (time_str : Z → string) (lock_path : string).

(** [_row]. *)
Definition admission_row (source : string) : DB source_row :=
  s ← gets id;
  row ← require (sources s !! source) (LifecycleError "SOURCE_NOT_FOUND");
  raise_if (negb (is_esxi row)) (LifecycleError "SOURCE_IDENTITY_UNSUPPORTED");;
  mret row.

Definition describe (source : string) : DB admission_view :=
  row ← admission_row source;
  removed ← gets (λ s, tombstoned s source);
  let c := src_config row in
  i ← lift (isolated c);
  mret {| adm_name := cfg_name c; adm_address := cfg_address c;
          adm_port := default (PInt 443) (dlookup "api_port" (cfg_settings c)); adm_verify_ssl := cfg_verify_ssl c;
          adm_revision := revision sha256 time_str row; adm_host_uuid := registration_anchor (settings_of row);
          adm_state := if removed : bool then "REMOVED" else if cfg_enabled c then "ACTIVE" else "DISABLED";
          adm_isolated := i; adm_site := site_slug (cfg_target c); adm_cluster := cluster_name (cfg_target c);
          adm_decision := dlookup "legacy_admission" (cfg_settings c) |}.

(** [status]: the revision and the proof, or nothing. *)
Definition status (source actor : string) (operation : pyval) : DB (option (string * pyval)) :=
  op ← as_uuid operation bad_uuid;
  s ← gets id;
  match identity_verifications s !! op with
  | Some v =>
      if bool_decide (ver_source v = source) && bool_decide (ver_actor v = actor) then
        purpose ← lift (attr_get "purpose" (ver_proof v));
        mret (if py_eqb purpose (PStr "LEGACY_ADMISSION") then Some (ver_revision v, ver_proof v) else None)
      else mret None
  | None => mret None
  end.

(** The arguments [confirm] accepts: the decision and the normalised anchor. *)
Definition confirm_request (text actor reason : string) (anchor : pyval) : result exn (decision * option string) :=
  match decision_of text with
  | Some d =>
      let n := String.length actor in let m := String.length (strip reason) in
      if negb (Nat.leb 1 n && Nat.leb n 200 && Nat.leb 3 m && Nat.leb m 500) then Err (LifecycleError "REQUEST_INVALID")
      else match d with
           | OBSERVE =>
               match esxi_anchor (PDict [("provider", PStr "esxi"); ("hosts", PList [PDict [("id", anchor)]])]) with
               | Ok a => Ok (OBSERVE, Some a)
               | Err _ => Err (LifecycleError "SOURCE_IDENTITY_UNPROVED")
               end
           | ISOLATE => match anchor with PNone => Ok (ISOLATE, None) | _ => Err (LifecycleError "REQUEST_INVALID") end
           end
  | None => Err (LifecycleError "REQUEST_INVALID")
  end.

(** The plans of a quarantined source become stale. *)
Definition stale_plans (source : string) : DB unit :=
  now ← clock_timestamp;
  modify (on_source_operations (update_where
    (λ _ o, bool_decide (op_source o = source) && bool_decide (op_kind o = "PLAN") && bool_decide (op_status o = OP_READY))
    (λ o, with_status o OP_STALE now (op_finished_at o) (Some "PLAN_STALE") None))).

Definition record_admission (source actor : string) (operation : N) (rev : string) (d : decision) (reason : string)
    (anchor : option string) : DB unit :=
  row ← admission_row source;
  s ← gets id;
  raise_if (negb (bool_decide (revision sha256 time_str row = rev))) (LifecycleError "SOURCE_LIFECYCLE_CONFLICT");;
  raise_if (bool_decide (is_Some (registration_anchor (settings_of row)))) (LifecycleError "SOURCE_IDENTITY_CHANGED");;
  raise_if (operation_active s source) (LifecycleError "SOURCE_OPERATION_ACTIVE");;
  raise_if (run_blocked s source) (LifecycleError "SOURCE_APPLY_UNCONFIRMED");;
  raise_if (recovery_active s source) (LifecycleError "SOURCE_RECOVERY_ACTIVE");;
  raise_if match anchor with Some a => observed_elsewhere s source a | None => false end
    (LifecycleError "SOURCE_IDENTITY_CONFLICT");;
  created ← clock_timestamp;
  modify (on_identity_verifications (<[operation :=
    mkVerification source actor rev (default "UNPROVED" anchor) (PDict (admission_proof d reason anchor)) created]>));;
  modify (on_sources (alter (with_settings
    (dset "legacy_admission" (admission_record d operation anchor) (cfg_settings (src_config row))) false false) source));;
  stale_plans source.

Definition confirm_transaction (c : contention) (source actor : string) (operation : N) (rev : string) (d : decision)
    (reason : string) (anchor : option string) : DB unit :=
  atomic (
    raise_if (admission_busy c) (LifecycleError "SOURCE_LIFECYCLE_CONFLICT");;
    admission_lock schema;;
    source_gate source false false;;
    s ← gets id;
    match identity_verifications s !! operation with
    | Some v =>
        raise_if (negb (bool_decide (ver_source v = source) && bool_decide (ver_actor v = actor) &&
                        bool_decide (ver_revision v = rev) && py_eqb (ver_proof v) (PDict (admission_proof d reason anchor))))
          (LifecycleError "SOURCE_LIFECYCLE_CONFLICT")
    | None => record_admission source actor operation rev d reason anchor
    end).

Definition confirm (c : contention) (source actor : string) (operation : pyval) (rev text reason : string)
    (anchor : pyval) : M lworld exn unit :=
  op ← in_db (as_uuid operation bad_uuid);
  request ← lift (confirm_request text actor reason anchor);
  apply_lock lock_path (in_db (confirm_transaction c source actor op rev request.1 reason request.2)).
End Admission.

(** ** One claimant per host *)

(** A source claims an anchor by a live registered row or by an open
    reservation. *)
Definition claims (s : db) (source anchor : string) : Prop :=
  (∃ r, sources s !! source = Some r ∧ live s source r = true ∧ registration_anchor (settings_of r) = Some anchor) ∨
  (∃ v, host_reservations s !! ("esxi", anchor, source) = Some v ∧ resv_released_at v = None).

Definition one_claimant (s : db) : Prop := ∀ anchor x y, claims s x anchor → claims s y anchor → x = y.

Lemma open_reservation_Some anchor k v :
  open_reservation anchor k v = true ↔ k = ("esxi", anchor, k.2) ∧ resv_released_at v = None.
Proof.
  unfold open_reservation. destruct k as [[p a] x]; simpl. rewrite andb_true_iff, bool_decide_eq_true, negb_true_iff,
    bool_decide_eq_false, <-eq_None_not_Some. naive_solver.
Qed.

Lemma active_reservation_Some s anchor x op actor :
  active_reservation s anchor = Some (x, op, actor) →
  ∃ v, host_reservations s !! ("esxi", anchor, x) = Some v ∧ resv_released_at v = None ∧ resv_operation v = op ∧ resv_actor v = actor.
Proof.
  unfold active_reservation. destruct (head _) as [[k v]|] eqn:E; [|done]. simpl. intros [= <- <- <-].
  apply head_select_Some in E as [Hk (Ek & Hv)%open_reservation_Some]. exists v. by rewrite <-Ek.
Qed.

Lemma active_reservation_None s anchor x v :
  active_reservation s anchor = None → host_reservations s !! ("esxi", anchor, x) = Some v → resv_released_at v ≠ None.
Proof.
  unfold active_reservation. destruct (head _) eqn:E; [done|]. intros _ Hv Hr.
  pose proof (proj1 (head_select_None _ _) E _ _ Hv) as Hf. rewrite (proj2 (open_reservation_Some _ _ _)) in Hf; done.
Qed.

(** The statements that concern neither rows, archives nor reservations. *)
Record same_claims (s s' : db) : Prop := {
  same_sources : sources s' = sources s;
  same_archives : source_archives s' = source_archives s;
  same_reservations : host_reservations s' = host_reservations s }.

#[global] Instance same_claims_preorder : PreOrder same_claims.
Proof. split; [done|]. intros s1 s2 s3 [] []. split; by etrans. Qed.

Lemma same_claims_iff s s' x a : same_claims s s' → claims s' x a ↔ claims s x a.
Proof. intros [E1 E2 E3]. unfold claims, live, archived. by rewrite E1, E2, E3. Qed.
Lemma same_claims_keeps s s' : same_claims s s' → keeps one_claimant s s'.
Proof. intros Hs Hi a x y. rewrite !(same_claims_iff _ _ _ _ Hs). apply Hi. Qed.

Lemma moves_same_claims {A} (m : DB A) s : moves same_claims m s → moves (keeps one_claimant) m s.
Proof. intros Hm. by apply same_claims_keeps. Qed.

Ltac framed :=
  match goal with
  | |- moves _ _ _ => apply moves_same_claims; db_moves
  | |- keeps _ _ _ => apply same_claims_keeps
  end; by split.

(** *** Reading *)

Lemma live_rows_Ok s rows s' :
  live_rows s = (Ok rows, s') → s' = s ∧ pending_archive s = None ∧ rows = select (live s) (sources s).
Proof. unfold live_rows. intros H. inv_m. simpl in *. destruct (pending_archive s); inv_m; done. Qed.

Lemma existing_nil anchor rows :
  existing_sources anchor rows = [] → ∀ k r, (k, r) ∈ rows → registration_anchor (settings_of r) ≠ Some anchor.
Proof.
  unfold existing_sources. intros E k r Hin Ha.
  assert (k ∈ isort String.leb (filter (λ kr, claims_anchor anchor kr.2 = true) rows).*1) as Hk.
  { apply elem_of_isort, list_elem_of_fmap. exists (k, r). split; [done|]. apply list_elem_of_filter. split; [|done].
    unfold claims_anchor. by apply bool_decide_eq_true. }
  rewrite E in Hk. by apply not_elem_of_nil in Hk.
Qed.

Lemma admit_anchor_Ok anchor s u s' :
  admit_anchor anchor s = (Ok u, s') →
  s' = s ∧ ∀ k r, sources s !! k = Some r → live s k r = true → registration_anchor (settings_of r) ≠ Some anchor.
Proof.
  unfold admit_anchor. intros H. inv_m.
  match goal with H : live_rows _ = _ |- _ => apply live_rows_Ok in H as (-> & _ & ->) end. simpl in *. inv_bool.
  split; [done|]. intros k r Hk Hl. eapply existing_nil; [done|]. by apply elem_of_select.
Qed.

Lemma admit_anchor_reads (R : relation db) `{!PreOrder R} anchor s : moves R (admit_anchor anchor) s.
Proof. unfold admit_anchor, live_rows. db_moves. Qed.

(** *** Reserving *)

Lemma insert_reservation_keeps anchor source op actor s :
  (∀ x, ¬ claims s x anchor) → moves (keeps one_claimant) (insert_reservation anchor source op actor) s.
Proof.
  intros Hfree. unfold insert_reservation. db_moves; [framed|]. intros Hi b0 x y.
  assert (∀ z b, claims (on_host_reservations (<[("esxi", anchor, source) := mkReservation op actor (clock s (ticks s)) None]>)
                   (on_ticks S s)) z b → claims s z b ∨ b = anchor ∧ z = source) as Hc.
  { intros z b [Hrow|(v & Hv & Hr)]; [by left; left|]. simpl in Hv.
    apply lookup_insert_Some in Hv as [[[= <- <-] _]|[_ Hv]]; [by right|]. left; right; eauto. }
  intros Hx%Hc Hy%Hc. destruct Hx as [Hx|[-> ->]], Hy as [Hy|[E ->]]; try done.
  - by eapply Hi.
  - subst b0. by destruct (Hfree x).
  - by destruct (Hfree y).
Qed.

Section ReserveKeeps.
Context (schema : string) (validate_request : pydict → result exn (pydict * string)).

Lemma bind_intent_inside_same preview source op actor i s :
  moves same_claims (bind_intent_inside validate_request preview source op actor i) s.
Proof.
  unfold bind_intent_inside, check_intent, bind_intent_row, insert_intent.
  destruct (in_request i); db_moves; by split.
Qed.

Lemma reserve_locks_reads (R : relation db) `{!PreOrder R} c anchor s : moves R (reserve_locks schema c anchor) s.
Proof. unfold reserve_locks. db_moves. Qed.
Lemma reserve_locks_Ok c anchor s u s' : reserve_locks schema c anchor s = (Ok u, s') → s' = s.
Proof. unfold reserve_locks. intros H. inv_m. done. Qed.

Lemma reserve_keeps c preview source operation actor i s :
  moves (keeps one_claimant) (reserve schema validate_request c preview source operation actor i) s.
Proof.
  unfold reserve, as_uuid. db_moves.
  - apply reserve_locks_reads, _.
  - apply admit_anchor_reads, _.
  - apply insert_reservation_keeps. intros x Hx.
    repeat match goal with
    | H : reserve_locks _ _ _ _ = _ |- _ => apply reserve_locks_Ok in H as ->
    | H : admit_anchor _ _ = _ |- _ => apply admit_anchor_Ok in H as [-> ?]
    end. destruct Hx as [(r & Hr & Hl & Ha)|(v & Hv & Hr)]; [naive_solver|]. by eapply active_reservation_None.
  - apply moves_same_claims, bind_intent_inside_same.
Qed.
End ReserveKeeps.

(** *** Admitting *)

(** The record of a decision changes neither the mapping nor the proof the
    recorded anchor is read from. *)
Lemma legacy_anchor_admission v d : legacy_anchor (PDict (dset "legacy_admission" v d)) = legacy_anchor (PDict d).
Proof. unfold legacy_anchor. by rewrite !dget_dset_ne. Qed.

Lemma admission_anchor d operation anchor settings :
  legacy_anchor (PDict settings) = None → (∀ a, anchor = Some a → ∃ v, validated_host_hardware_uuid v = Some a) →
  ∀ b, registration_anchor (PDict (dset "legacy_admission" (admission_record d operation anchor) settings)) = Some b →
  anchor = Some b.
Proof.
  intros Hl Ha b. unfold registration_anchor. rewrite legacy_anchor_admission, Hl. unfold observed_anchor.
  rewrite dlookup_dset, decide_True by done. unfold admission_record. destruct (negb _); [done|]. destruct (negb _); [done|].
  destruct anchor as [a|]; [|done]. destruct (Ha a eq_refl) as [v Hv]. cbn [anchor_value].
  change (dget "observed_uuid" _) with (PStr a). rewrite (validated_str _ _ Hv). done.
Qed.

Lemma observed_free s source anchor y :
  one_claimant s → observed_elsewhere s source anchor = false → claims s y anchor → y = source.
Proof.
  intros Hi Ho Hc. unfold observed_elsewhere in Ho. apply orb_false_iff in Ho as [Hrows Hres].
  destruct Hc as [(r & Hr & Hl & Ha)|(v & Hv & Hrel)].
  - apply exists_row_false with (k := y) (r := r) in Hrows; [|done].
    unfold live, archived in Hl. apply andb_prop in Hl as [He Hn]. rewrite He in Hrows.
    apply negb_true_iff, bool_decide_eq_false in Hn. rewrite <-eq_None_not_Some in Hn. rewrite Hn in Hrows.
    unfold claims_anchor in Hrows. rewrite (bool_decide_eq_true_2 _ Ha) in Hrows. simpl in Hrows.
    rewrite !andb_true_r in Hrows. by inv_bool.
  - destruct (active_reservation s anchor) as [[[holder op] ac]|] eqn:E; [|by destruct (active_reservation_None _ _ _ _ E Hv)].
    apply active_reservation_Some in E as (v' & Hv' & Hrel' & _). inv_bool. subst holder.
    apply (Hi anchor); right; eauto.
Qed.

Lemma settings_keeps s source row settings enabled sync :
  sources s !! source = Some row →
  (∀ a y, registration_anchor (PDict settings) = Some a → claims s y a → y = source) →
  one_claimant s → one_claimant (on_sources (alter (with_settings settings enabled sync) source) s).
Proof.
  intros Hrow Hfree Hi a x y.
  assert (∀ z b, claims (on_sources (alter (with_settings settings enabled sync) source) s) z b →
                 claims s z b ∨ z = source ∧ registration_anchor (PDict settings) = Some b) as Hc.
  { intros z b [(r & Hr & Hl & Hb)|Hv]; [|by left; right]. simpl in Hr. destruct (decide (z = source)) as [->|Hne].
    - rewrite lookup_alter_eq, Hrow in Hr. simplify_eq/=. by right.
    - rewrite lookup_alter_ne in Hr by done. left; left; eauto. }
  intros [Hx|[-> Hx]]%Hc [Hy|[-> Hy]]%Hc; [by eapply Hi|by eapply Hfree|by symmetry; eapply Hfree|done].
Qed.

Section ConfirmKeeps.
Context (schema : string) (sha256 : string → string) (time_str : Z → string) (lock_path : string).

Lemma record_admission_keeps source actor operation rev d reason anchor s :
  (∀ a, anchor = Some a → ∃ v, validated_host_hardware_uuid v = Some a) →
  moves (keeps one_claimant) (record_admission sha256 time_str source actor operation rev d reason anchor) s.
Proof.
  intros Ha. unfold record_admission, admission_row, stale_plans. db_moves; try framed.
  intros Hi. simpl in *. inv_bool. eapply settings_keeps; [done| |done].
  intros b y Hb Hy. eapply admission_anchor in Hb; [subst anchor|..|done].
    - by apply (observed_free s _ b).
    - match goal with H : ¬ is_Some (registration_anchor _) |- _ => rewrite <-eq_None_not_Some in H; revert H end.
      unfold registration_anchor. by destruct (legacy_anchor _).
Qed.

Lemma confirm_request_Ok text actor reason anchor d a :
  confirm_request text actor reason anchor = Ok (d, Some a) → ∃ v, validated_host_hardware_uuid v = Some a.
Proof.
  unfold confirm_request. destruct (decision_of text) as [[]|]; try done; destruct (negb _); try done.
  - destruct anchor; done.
  - destruct (esxi_anchor _) eqn:E; [|done]. intros [= <- <-]. by eapply esxi_anchor_validated.
Qed.

Lemma confirm_transaction_keeps c source actor operation rev d reason anchor s :
  (∀ a, anchor = Some a → ∃ v, validated_host_hardware_uuid v = Some a) →
  moves (keeps one_claimant) (confirm_transaction schema sha256 time_str c source actor operation rev d reason anchor) s.
Proof.
  intros Ha. unfold confirm_transaction. db_moves.
  - apply moves_admission, _.
  - apply moves_gate, _.
  - by apply record_admission_keeps.
Qed.
End ConfirmKeeps.
