(* ===== verification/IdentityReview.v ===== *)
(** * Reviews of a registered source (netbox_sync/source_identity_verification.py,
    netbox_sync/placement_control.py, netbox_sync/provider_evidence.py)

    An admin verifies the hardware identity of an ESXi source from a fresh
    discovery, or saves the reviewed placement of a source. Both read the stored
    result of the last discovery and rewrite the settings of one row. The host
    DTO is a parameter. *)

From S2P Require Import Prelude PyValue Calendar SourceConfig Schema PyUuid EsxiIdentity NetworkScopes RunHistory.
From S2P Require Import SourceOperations SourceLifecycle Retirement HostRegistration.
From stdpp Require Import base list strings gmap pretty.
From Stdlib Require Import ZArith Lia Ascii.
Local Open Scope string_scope.
#[local] Arguments py_eqb _ _ : simpl never.

(** [interval '10 minutes'] and [interval '24 hours'] in microseconds. *)
Definition TEN_MINUTES : Z := 600000000.
Definition ONE_DAY : Z := 86400000000.

(** The stored discovery of a source, while it is fresh enough. *)
Definition recent_discovery (s : db) (source : string) (now age : Z) : option operation_row :=
  o ← source_operations s !! (source, "DISCOVERY");
  finished ← op_finished_at o;
  if (now - age <? finished)%Z then Some o else None.

(** The rows both reviews refuse: [row] of placement_control.py. *)
Definition active_row (source : string) : DB source_row :=
  s ← gets id;
  row ← require (sources s !! source) (LifecycleError "SOURCE_NOT_FOUND");
  raise_if (tombstoned s source) (LifecycleError "SOURCE_NOT_FOUND");;
  mret row.

Definition operation_value (o : operation_row) : pyval := match op_result o with Some d => PDict d | None => PNone end.

Section Reviews.
Context (schema : string) (sha256 : string → string) (time_str isoformat : Z → string) (lock_path : string).
(** [DiscoveryHostDTO.model_validate(item).model_dump()]; a refusal is a
    [ValueError]. *)
Context (host_dto : pyval → result exn pydict).

(** ** Identity verification *)

Definition discovery_required : exn := LifecycleError "SOURCE_DISCOVERY_REQUIRED".

(** The body of the [try] of [_evidence]; every exception it raises is caught. *)
Definition discovered_anchor (source : string) (o : operation_row) : result exn string :=
  instance ← py_item "source_instance" (operation_value o);
  if negb (py_eqb instance (PStr source)) then Err (ValueError "")
  else
    rows ← py_item "hosts" (operation_value o);
    items ← py_iter rows;
    hosts ← mapR host_dto items;
    esxi_anchor (PDict [("provider", PStr "esxi"); ("hosts", PList (map PDict hosts))]).

Definition identity_evidence (source : string) : DB (N * string * Z) :=
  now ← clock_timestamp;
  s ← gets id;
  o ← require (recent_discovery s source now TEN_MINUTES) discovery_required;
  raise_if (negb (bool_decide (op_status o = OP_SUCCEEDED))) discovery_required;;
  match discovered_anchor source o with
  | Ok anchor => mret (op_id o, anchor, default 0%Z (op_finished_at o))
  | Err _ => raise discovery_required
  end.

Record identity_view := mkIdentityView {
  idv_revision : string; idv_discovery : N; idv_host_uuid : string; idv_recorded : option string; idv_observed_at : string;
  idv_site : string; idv_cluster : string }.

Definition describe_identity (source : string) : DB (source_row * identity_view) :=
  row ← active_row source;
  raise_if (negb (is_esxi row)) (LifecycleError "SOURCE_IDENTITY_UNSUPPORTED");;
  found ← identity_evidence source;
  let '(discovery, anchor, observed) := found in
  mret (row, {| idv_revision := revision sha256 time_str row; idv_discovery := discovery; idv_host_uuid := anchor;
                idv_recorded := registration_anchor (settings_of row); idv_observed_at := isoformat observed;
                idv_site := site_slug (cfg_target (src_config row)); idv_cluster := cluster_name (cfg_target (src_config row)) |}).

Definition describe_verification (source : string) : DB identity_view :=
  atomic (source_gate source false false;; found ← describe_identity source; mret found.2).

(** The device count of the proof: [item.get("kind") == "device"]. *)
Definition owned_devices (proof : pydict) : result exn nat :=
  items ← py_iter (default (PList []) (dlookup "owned" proof));
  devices ← filterR (λ item, kind ← attr_get "kind" item; Ok (py_eqb kind (PStr "device"))) items;
  Ok (length devices).

(** The proof names this source, host and placement and has no blocker. *)
Definition proof_fields_ok (source : string) (v : identity_view) (p : pydict) : bool :=
  py_eqb (dget "source_instance" p) (PStr source) && py_eqb (dget "host_uuid" p) (PStr (idv_host_uuid v)) &&
  py_eqb (dget "blockers" p) (PList []) &&
  py_eqb (dget "configured_target" p) (PDict [("site_slug", PStr (idv_site v)); ("cluster_name", PStr (idv_cluster v))]) &&
  is_positive_int (dget "site_id" p) && is_positive_int (dget "cluster_id" p).

Definition proof_ok (source : string) (v : identity_view) (proof : pyval) : result exn bool :=
  match proof with
  | PDict p => if proof_fields_ok source v p then n ← owned_devices p; Ok (Nat.eqb n 1) else Ok false
  | _ => Ok false
  end.

Definition verified_identity (operation : N) (anchor : string) (proof : pyval) : pyval :=
  PDict [("version", PInt 1); ("provider", PStr "esxi"); ("hardware_uuid", PStr anchor);
         ("verification_id", PStr (uuid_str operation)); ("site_id", py_get "site_id" proof);
         ("cluster_id", py_get "cluster_id" proof)].

(** [settings - 'legacy_admission'] with [provider_identity] set. *)
Definition verified_settings (operation : N) (anchor : string) (proof : pyval) (settings : pydict) : pydict :=
  dset "provider_identity" (verified_identity operation anchor proof) (dpop "legacy_admission" settings).

Definition keep_flags (settings : pydict) (r : source_row) : source_row :=
  with_settings settings (cfg_enabled (src_config r)) (cfg_sync_enabled (src_config r)) r.

Definition record_verification (source actor : string) (operation : N) (rev : string) (proof : pyval) : DB string :=
  found ← describe_identity source;
  let '(row, v) := found in
  let anchor := idv_host_uuid v in
  raise_if match idv_recorded v with Some recorded => negb (bool_decide (recorded = anchor)) | None => false end
    (LifecycleError "SOURCE_IDENTITY_CHANGED");;
  raise_if (negb (bool_decide (idv_revision v = rev) && bool_decide (idv_discovery v = operation)))
    (LifecycleError "SOURCE_LIFECYCLE_CONFLICT");;
  s ← gets id;
  raise_if (operation_active s source) (LifecycleError "SOURCE_OPERATION_ACTIVE");;
  raise_if (run_blocked s source) (LifecycleError "SOURCE_APPLY_UNCONFIRMED");;
  proved ← lift (proof_ok source v proof);
  raise_if (negb proved) (LifecycleError "SOURCE_IDENTITY_UNPROVED");;
  raise_if (observed_elsewhere s source anchor) (LifecycleError "SOURCE_IDENTITY_CONFLICT");;
  created ← clock_timestamp;
  modify (on_identity_verifications (<[operation := mkVerification source actor rev anchor proof created]>));;
  modify (on_sources (alter (keep_flags (verified_settings operation anchor proof (cfg_settings (src_config row)))) source));;
  stale_plans source;;
  mret anchor.

Definition verify_transaction (c : contention) (source actor : string) (operation : N) (rev : string) (proof : pyval) : DB string :=
  atomic (
    source_gate source false false;;
    raise_if (admission_busy c) (LifecycleError "SOURCE_LIFECYCLE_CONFLICT");;
    admission_lock schema;;
    s ← gets id;
    match identity_verifications s !! operation with
    | Some v =>
        raise_if (negb (bool_decide (ver_source v = source) && bool_decide (ver_actor v = actor) &&
                        bool_decide (ver_revision v = rev) && py_eqb (ver_proof v) proof))
          (LifecycleError "SOURCE_LIFECYCLE_CONFLICT");;
        mret (ver_anchor v)
    | None => record_verification source actor operation rev proof
    end).

Definition verify_identity (c : contention) (source actor rev : string) (discovery_id proof : pyval) : M lworld exn string :=
  operation ← in_db (as_uuid discovery_id bad_uuid);
  raise_if (Nat.eqb (String.length actor) 0 || Nat.ltb 200 (String.length actor)) (LifecycleError "REQUEST_INVALID");;
  apply_lock lock_path (in_db (verify_transaction c source actor operation rev proof)).

(** ** Placement *)

Definition PLACEMENT_KINDS : list string := ["site"; "cluster"; "platform"; "device_role"; "cluster_type"].
Definition request_invalid : exn := LifecycleError "REQUEST_INVALID".

(** [{h["id"] for h in hosts}] of validated hosts has no repetition. *)
Definition unique_ids (hosts : list pydict) : bool :=
  bool_decide (NoDup (map (λ h, py_str (dget "id" h)) hosts)).

(** [provider_evidence.validate]. *)
Definition provider_evidence_ok (value : pyval) (source : string) : result exn unit :=
  match value with
  | PDict d =>
      if negb (Calendar.same_keys d ["source_instance"; "hosts"] && py_eqb (dget "source_instance" d) (PStr source))
      then Err (ValueError "Invalid provider evidence")
      else match dget "hosts" d with
           | PList rows =>
               if negb (Nat.leb 1 (length rows) && Nat.leb (length rows) 16) then Err (ValueError "Invalid provider evidence")
               else hosts ← mapR host_dto rows;
                    if unique_ids hosts then Ok tt else Err (ValueError "Ambiguous provider evidence")
           | _ => Err (ValueError "Invalid provider evidence")
           end
  | _ => Err (ValueError "Invalid provider evidence")
  end.

Definition placement_hosts (source : string) (o : operation_row) : result exn (list pydict) :=
  (if bool_decide (op_status o = OP_FAILED) then provider_evidence_ok (operation_value o) source else Ok tt);;
  rows ← py_item "hosts" (operation_value o);
  items ← py_iter rows;
  hosts ← mapR host_dto items;
  if Nat.leb 1 (length hosts) && Nat.leb (length hosts) 16 && unique_ids hosts then Ok hosts else Err (ValueError "").

(** [evidence]: the discovery and its hosts. *)
Definition placement_evidence (source : string) : DB (N * list pydict) :=
  now ← clock_timestamp;
  s ← gets id;
  o ← require (recent_discovery s source now ONE_DAY) discovery_required;
  raise_if (negb (bool_decide (op_status o = OP_SUCCEEDED) ||
                  bool_decide (op_status o = OP_FAILED) && bool_decide (op_error_code o = Some "NETBOX_PLACEMENT_MISSING")))
    discovery_required;;
  match placement_hosts source o with
  | Ok hosts => mret (op_id o, hosts)
  | Err _ => raise discovery_required
  end.

Definition choice (kind : string) (value : pyval) : result exn pydict :=
  match value with
  | PDict d =>
      result ← project sha256 kind (if bool_decide (kind = "device_type") then dset "model" (dget "name" d) d else d);
      if py_eqb (dget "fingerprint" result) (dget "fingerprint" d) then Ok result else Err request_invalid
  | _ => Err (TypeError "object is not a mapping")
  end.

(** [set(value)] and [value.items()]. *)
Definition members (v : pyval) : result exn (list pyval) :=
  l ← py_iter v; if existsb (λ x, is_list x || is_dict x) l then Err (TypeError "unhashable type") else Ok l.
Definition same_set (l : list pyval) (keys : list pyval) : bool :=
  forallb (λ x, existsb (py_eqb x) keys) l && forallb (λ k, existsb (λ x, py_eqb x k) l) keys.
Definition items (v : pyval) : result exn pydict :=
  match v with PDict d => Ok d | _ => Err (OtherException "AttributeError" None) end.

Definition choices (kind_of : string → string) (d : pydict) : result exn (list (string * pydict)) :=
  mapR (λ kv : string * pyval, c ← choice (kind_of kv.1) kv.2; Ok (kv.1, c)) d.

Definition entry (k : string) (l : list (string * pydict)) : pydict := default [] ((λ found, found.2.2) <$> list_find (λ e, e.1 = k) l).
Definition as_dict (l : list (string * pydict)) : pydict := map (λ e, (e.1, PDict e.2)) l.

(** A stored rule, up to the order of its keys. *)
Definition rule_value (r : scope_rule) : pyval :=
  PDict [("host_id", PStr (rule_host r)); ("bridge", PStr (rule_bridge r));
         ("vlan_id", match rule_vlan r with Some z => PInt z | None => PNone end); ("vrf", PDict (rule_vrf r))].

(** The keys of a mapping, apart from the two optional ones. *)
Definition mapping_keys_ok (m : pydict) : bool :=
  Calendar.same_keys (filter (λ kv, kv.1 ∉ ["ip_conflict_policy"; "network_scope_rules"]) m)
    ["version"; "references"; "host_types"; "hosts"].

Record placement := mkPlacement {
  pl_refs : list (string * pydict); pl_types : list (string * pydict); pl_mapping : pydict }.

Definition retained_mapping (settings : pydict) (mapping : pyval) (hosts : list pydict) : result exn placement :=
  match mapping with
  | PDict m =>
      if negb (mapping_keys_ok m && py_eqb (dget "version" m) (PInt 1) && py_eqb (dget "hosts" m) (PList (map PDict hosts)))
      then Err request_invalid
      else
        ref_keys ← members (dget "references" m);
        type_keys ← (if same_set ref_keys (map PStr PLACEMENT_KINDS) then members (dget "host_types" m) else Err request_invalid);
        if negb (same_set type_keys (map (dget "id") hosts)) then Err request_invalid
        else
          ref_items ← items (dget "references" m);
          refs ← choices id ref_items;
          type_items ← items (dget "host_types" m);
          types ← choices (λ _, "device_type") type_items;
          let cluster := entry "cluster" refs in
          let ctype := if truthy (dget "type" cluster) then py_get "id" (dget "type" cluster) else PNone in
          if negb (py_eqb (dget "scope_type" cluster) (PStr "dcim.site") &&
                   py_eqb (dget "scope_id" cluster) (dget "id" (entry "site" refs)) &&
                   py_eqb ctype (dget "id" (entry "cluster_type" refs))) then Err request_invalid
          else
            previous ← items (default (PDict []) (dlookup "onboarding_mapping" settings));
            let policy := default (default (PStr "strict") (dlookup "ip_conflict_policy" previous)) (dlookup "ip_conflict_policy" m) in
            if negb (py_eqb policy (PStr "strict") || py_eqb policy (PStr "observe")) then Err request_invalid
            else
              old ← py_iter (default (PList []) (dlookup "hosts" previous));
              old_hosts ← filterR (λ h, i ← py_item "id" h; _ ← members (PList [i]);
                                     Ok (negb (existsb (λ t : string * pydict, py_eqb i (PStr t.1)) types))) old;
              scopes ← match rules sha256 (default (default (PList []) (dlookup "network_scope_rules" previous))
                                             (dlookup "network_scope_rules" m)) with
                       | Ok rs => Ok rs
                       | Err _ => Err request_invalid
                       end;
              let kept := (old_hosts ++ map PDict hosts)%list in
              if negb (forallb (λ r, existsb (λ h, py_eqb (py_get "id" h) (PStr (rule_host r))) kept) scopes)
              then Err request_invalid
              else
                old_types ← items (default (PDict []) (dlookup "host_types" previous));
                let retained := [("version", PInt 1); ("ip_conflict_policy", policy); ("references", PDict (as_dict refs));
                                 ("host_types", PDict (dupdate old_types (as_dict types))); ("hosts", PList kept)] in
                Ok (mkPlacement refs types
                      (if negb (bool_decide (length scopes = 0%nat)) || bool_decide (is_Some (dlookup "network_scope_rules" previous)) ||
                          bool_decide (is_Some (dlookup "network_scope_rules" m))
                       then dset "network_scope_rules" (PList (map rule_value scopes)) retained else retained))
  | _ => Err request_invalid
  end.

(** [placement_control.read]: the revision, the discovery and what the stored
    mapping says of the discovered hosts. *)
Record placement_view := mkPlacementView {
  plv_revision : string; plv_discovery : string; plv_provider : string; plv_name : pyval; plv_hosts : list pydict;
  plv_references : list (string * pydict); plv_host_types : list (string * pydict); plv_policy : pyval; plv_scopes : pyval }.

Definition stored_type (mapping : pydict) (host : pydict) : result exn (option (string * pydict)) :=
  types ← items (default (PDict []) (dlookup "host_types" mapping));
  match dget "id" host with
  | PStr i =>
      match dlookup i types with
      | Some value => c ← choice "device_type" value; Ok (Some (i, c))
      | None => Ok None
      end
  | _ => Ok None
  end.

Definition read_placement (source : string) : DB placement_view :=
  atomic (
    source_gate source false false;;
    row ← active_row source;
    found ← placement_evidence source;
    let hosts := found.2 in
    mapping ← lift (items (default (PDict []) (dlookup "onboarding_mapping" (cfg_settings (src_config row)))));
    references ← lift (items (default (PDict []) (dlookup "references" mapping)));
    refs ← lift (choices id (filter (λ kv, kv.1 ∈ PLACEMENT_KINDS) references));
    types ← lift (mapR (stored_type mapping) hosts);
    mret {| plv_revision := revision sha256 time_str row; plv_discovery := uuid_str found.1;
            plv_provider := cfg_source_type (src_config row);
            plv_name := match hosts with [h] => dget "name" h | _ => PNone end; plv_hosts := hosts;
            plv_references := refs; plv_host_types := omap (λ t, t) types;
            plv_policy := default (PStr "strict") (dlookup "ip_conflict_policy" mapping);
            plv_scopes := default (PList []) (dlookup "network_scope_rules" mapping) |}).

Definition slug_of (d : pydict) : string := match dget "slug" d with PStr s => s | _ => "" end.
Definition name_of (d : pydict) : string := match dget "name" d with PStr s => s | _ => "" end.

Definition placed (p : placement) (r : source_row) : source_row :=
  let c := src_config r in
  mkSourceRow
    {| cfg_id := cfg_id c; cfg_source_instance := cfg_source_instance c; cfg_name := cfg_name c;
       cfg_source_type := cfg_source_type c; cfg_address := cfg_address c; cfg_enabled := cfg_enabled c;
       cfg_sync_enabled := cfg_sync_enabled c; cfg_sync_interval_seconds := cfg_sync_interval_seconds c;
       cfg_verify_ssl := cfg_verify_ssl c;
       cfg_target := mkTarget (slug_of (entry "site" (pl_refs p))) (slug_of (entry "device_role" (pl_refs p)))
                       (slug_of (entry "platform" (pl_refs p))) (slug_of (default [] (snd <$> head (pl_types p))))
                       (slug_of (entry "cluster_type" (pl_refs p))) (name_of (entry "cluster" (pl_refs p)))
                       (onboarding_mapping (cfg_target c));
       cfg_credentials := cfg_credentials c; cfg_sync_calendar := cfg_sync_calendar c;
       cfg_schedule_changed_at := cfg_schedule_changed_at c; cfg_legacy_identity_owner := cfg_legacy_identity_owner c;
       cfg_settings := dset "onboarding_mapping" (PDict (pl_mapping p)) (cfg_settings c) |}
    (src_created_at r) (src_updated_at r).

Definition save_transaction (source rev : string) (discovery_id : string) (mapping : pyval) : DB unit :=
  atomic (
    source_gate source false false;;
    row ← active_row source;
    raise_if (negb (bool_decide (revision sha256 time_str row = rev))) (LifecycleError "SOURCE_LIFECYCLE_CONFLICT");;
    s ← gets id;
    raise_if (operation_active s source) (LifecycleError "SOURCE_OPERATION_ACTIVE");;
    raise_if (run_blocked s source) (LifecycleError "SOURCE_APPLY_UNCONFIRMED");;
    found ← placement_evidence source;
    raise_if (negb (bool_decide (uuid_str found.1 = discovery_id))) (LifecycleError "SOURCE_LIFECYCLE_CONFLICT");;
    p ← lift (retained_mapping (cfg_settings (src_config row)) mapping found.2);
    modify (on_sources (alter (placed p) source));;
    stale_plans source).

(** [placement_control.save]. *)
Definition save_placement (source rev discovery_id : string) (mapping : pyval) : M lworld exn lifecycle_view :=
  apply_lock lock_path (in_db (save_transaction source rev discovery_id mapping));;
  in_db (read sha256 time_str source).
End Reviews.

(** ** A verified identity keeps one claimant per host *)


Lemma verified_anchor operation anchor proof settings b :
  validated_host_hardware_uuid (PStr anchor) = Some anchor →
  registration_anchor (PDict (verified_settings operation anchor proof settings)) = Some b → b = anchor.
Proof.
  intros Hv. unfold verified_settings, registration_anchor, legacy_anchor, observed_anchor. rewrite dget_dset_eq.
  unfold verified_identity. cbv iota. set (p := [_; _; _; _; _; _]).
  destruct (proof_anchor (PDict p) _) as [c|] eqn:Ep.
  - unfold proof_anchor in Ep.
    assert (py_eqb (dget "provider" p) (PStr "esxi") && py_eqb (dget "version" p) (PInt 1) = true) as E by reflexivity.
    rewrite E in Ep. cbn [negb] in Ep.
    change (dget "hardware_uuid" p) with (PStr anchor) in Ep. rewrite Hv in Ep. cbn [mbind option_bind] in Ep.
    destruct (negb _); [done|]. destruct (match dget "onboarding_mapping" _ with PDict m => _ | _ => _ end); try done.
    destruct (hosts_agree _ _); congruence.
  - rewrite dlookup_dset, decide_False, dlookup_dpop, decide_True by done. done.
Qed.

Lemma discovered_validated host_dto source o anchor :
  discovered_anchor host_dto source o = Ok anchor → validated_host_hardware_uuid (PStr anchor) = Some anchor.
Proof.
  unfold discovered_anchor. intros H. inv_m. destruct (negb _); [done|]. inv_m.
  match goal with H : esxi_anchor _ = Ok _ |- _ => apply esxi_anchor_validated in H as [v Hv] end. by eapply validated_str.
Qed.

Section VerifyKeeps.
Context (schema : string) (sha256 : string → string) (time_str isoformat : Z → string).
Context (host_dto : pyval → result exn pydict).

Lemma describe_identity_Ok source s row v s' :
  describe_identity sha256 time_str isoformat host_dto source s = (Ok (row, v), s') →
  same_claims s s' ∧ sources s !! source = Some row ∧
  validated_host_hardware_uuid (PStr (idv_host_uuid v)) = Some (idv_host_uuid v).
Proof.
  unfold describe_identity, active_row, identity_evidence. intros H. inv_m. inv_db. simpl in *.
  match goal with H : match discovered_anchor ?a ?b ?c with _ => _ end _ = _ |- _ =>
    destruct (discovered_anchor a b c) eqn:E; [|by apply raise_Ok in H] end.
  inv_m. simpl. split; [by split|]. split; [done|]. by eapply discovered_validated.
Qed.

Lemma describe_identity_same source s : moves same_claims (describe_identity sha256 time_str isoformat host_dto source) s.
Proof. unfold describe_identity, active_row, identity_evidence. db_moves; by split. Qed.

Lemma keep_flags_keeps s source row settings :
  sources s !! source = Some row →
  (∀ a y, registration_anchor (PDict settings) = Some a → claims s y a → y = source) →
  one_claimant s → one_claimant (on_sources (alter (keep_flags settings) source) s).
Proof.
  intros Hrow Hfree Hi.
  assert (alter (keep_flags settings) source (sources s) =
          alter (with_settings settings (cfg_enabled (src_config row)) (cfg_sync_enabled (src_config row))) source (sources s)) as E.
  { apply map_eq. intros k. destruct (decide (k = source)) as [->|Hne]; [|by rewrite !lookup_alter_ne].
    by rewrite !lookup_alter_eq, Hrow. }
  unfold on_sources. rewrite E. by apply (settings_keeps s source row).
Qed.

Lemma record_verification_keeps source actor operation rev proof s :
  moves (keeps one_claimant) (record_verification sha256 time_str isoformat host_dto source actor operation rev proof) s.
Proof.
  unfold record_verification, stale_plans. db_moves; try framed; try (apply moves_same_claims, describe_identity_same).
  match goal with H : describe_identity _ _ _ _ _ _ = _ |- _ => apply describe_identity_Ok in H as (Hs & Hrow & Hv) end.
  intros Hi. simpl in *. eapply keep_flags_keeps; [simpl; rewrite (same_sources _ _ Hs); exact Hrow| |done].
  intros b y Ha Hy. apply verified_anchor in Ha as ->; [|done]. eapply observed_free; [exact Hi|done|exact Hy].
Qed.

Lemma verify_keeps c source actor operation rev proof s :
  moves (keeps one_claimant) (verify_transaction schema sha256 time_str isoformat host_dto c source actor operation rev proof) s.
Proof.
  unfold verify_transaction. db_moves.
  - apply moves_gate, _.
  - apply moves_admission, _.
  - apply record_verification_keeps.
Qed.
End VerifyKeeps.
