(* ===== verification/SourceRecovery.v ===== *)
(** * Recovery of a removed source (netbox_sync/source_recovery.py)

    A removed ESXi source is restored in three transactions: a reviewed plan is
    recorded, the credential stage is entered, and the row is enabled again with
    new credentials once the broker has confirmed that it owns their file. The
    broker's answer and the rendering of timestamps are parameters. *)

From S2P Require Import Prelude PyValue SourceConfig Schema PyUuid EsxiIdentity NetworkScopes RunHistory SourceOperations.
From S2P Require Import Registry SourceLifecycle Retirement HostRegistration.
From stdpp Require Import base list strings gmap pretty relations.
From Stdlib Require Import ZArith Lia Ascii.
Local Open Scope string_scope.
#[local] Arguments py_eqb _ _ : simpl never.

(** [_row]. *)
Definition recovery_row_of (source : string) : DB source_row :=
  s ← gets id; require (sources s !! source) (LifecycleError "SOURCE_NOT_FOUND").

(** The finalized retirements of a removed source that no completed recovery
    followed, the latest first. *)
Definition retired_rows (s : db) (source : string) : list (N * retirement_row) :=
  select (λ _ r, bool_decide (ret_source r = source) && bool_decide (ret_state r = RT_FINALIZED) && tombstoned s source &&
    match ret_finished_at r with
    | Some f => negb (exists_row (λ _ c, bool_decide (rec_source c = source) && bool_decide (rec_state c = RC_RESTORED) &&
                        match rec_finished_at c with Some g => (f <=? g)%Z | None => false end) (source_recoveries s))
    | None => false
    end) (source_retirements s).
Definition finished_leb (a b : N * retirement_row) : bool :=
  (default 0 (ret_finished_at b.2) <=? default 0 (ret_finished_at a.2))%Z.
Definition retired (s : db) (source : string) : option (N * retirement_row) := head (isort finished_leb (retired_rows s source)).

(** A registered row that has no anchor or the anchor of the recovered one. *)
Definition recovery_disputed (s : db) (source anchor : string) : bool :=
  exists_row (λ k r, is_esxi r && negb (bool_decide (k = source)) && negb (tombstoned s k) &&
    match legacy_anchor (settings_of r) with Some a => bool_decide (a = anchor) | None => true end) (sources s).

(** [re.fullmatch("[a-f0-9]{64}", value)]. *)
Definition digest_text (v : pyval) : result exn bool :=
  match v with PStr t => Ok (is_digest t) | _ => Err (TypeError "expected string or bytes-like object") end.

(** The fields of a proof that do not need a query. *)
Definition recovery_proof_ok (source anchor : string) (placement : pyval * pyval) (proof : pyval) : result exn bool :=
  match proof with
  | PDict p =>
      if py_eqb (dget "source_instance" p) (PStr source) && py_eqb (dget "host_uuid" p) (PStr anchor) &&
         py_eqb (dget "blockers" p) (PList [])
      then d ← digest_text (default (PStr "") (dlookup "digest" p));
           Ok (d && py_eqb (dget "site_id" p) placement.1 && py_eqb (dget "cluster_id" p) placement.2)
      else Ok false
  | _ => Ok false
  end.

(** A proof of mode RETIRED_EMPTY names the retirement it follows. *)
Definition empty_proof_ok (s : db) (source : string) (proof : pyval) : bool :=
  negb (py_eqb (py_get "mode" proof) (PStr "RETIRED_EMPTY")) ||
  match retired s source with
  | Some (operation, r) =>
      py_eqb (py_get "retirement_id" proof) (PStr (uuid_str operation)) &&
      py_eqb (py_get "guard_instance" proof) (PStr (uuid_str (ret_guard_instance r))) &&
      py_eqb (py_get "owned" proof) (PList []) && py_eqb (py_get "retained_manual" proof) (PList [])
  | None => false
  end.

Definition with_recovery_state (state : RecoveryState) (finished : option Z) (c : recovery_row) : recovery_row :=
  mkRecovery (rec_source c) (rec_actor c) (rec_revision c) (rec_plan c) state (rec_created_at c) finished.

(** What the worker RPC returns: the operation, its state and its plan. *)
Definition recovery_result : Type := N * RecoveryState * pyval.

(** The public description of a removed source. *)
Record recovery_view := mkRecoveryView {
  rcv_name : string; rcv_revision : string; rcv_pending : option N; rcv_host_uuid : option string;
  rcv_placement : pyval * pyval; rcv_retired : bool }.

Section Recovery.
Context (sha256 : string → string) (time_str isoformat : Z → string) (lock_path : string).
(** [broker.verify_owned(key, operation)]. *)
Context (verify_owned : pyval → pyval → result exn pyval).

Definition describe_recovery (source actor : string) : DB recovery_view :=
  atomic (
    source_gate source false false;;
    row ← recovery_row_of source;
    s ← gets id;
    raise_if (negb (tombstoned s source)) (LifecycleError "SOURCE_RECOVERY_NOT_REMOVED");;
    placement ← lift (identity_placement (cfg_settings (src_config row)));
    raise_if (negb (is_esxi row && is_positive_int placement.1 && is_positive_int placement.2))
      (LifecycleError "SOURCE_RECOVERY_IDENTITY_REVIEW");;
    mret {| rcv_name := cfg_name (src_config row); rcv_revision := revision sha256 time_str row;
            rcv_pending := fst <$> head (select (λ _ c, bool_decide (rec_source c = source) && bool_decide (rec_actor c = actor) &&
                             bool_decide (rec_state c ∈ [RC_PREPARED; RC_CREDENTIALS_PENDING])) (source_recoveries s));
            rcv_host_uuid := legacy_anchor (settings_of row); rcv_placement := placement;
            rcv_retired := bool_decide (is_Some (retired s source)) |}).

(** [_guard]: what is rechecked before every step. *)
Definition recovery_guard (source : string) (row : source_row) (rev : string) (proof : pyval) : DB tombstone_row :=
  s ← gets id;
  raise_if (negb (bool_decide (revision sha256 time_str row = rev))) (LifecycleError "SOURCE_LIFECYCLE_CONFLICT");;
  removed ← require (removed_row s source) (LifecycleError "SOURCE_RECOVERY_NOT_REMOVED");
  raise_if (cfg_enabled (src_config row)) (LifecycleError "SOURCE_RECOVERY_NOT_REMOVED");;
  raise_if (operation_active s source) (LifecycleError "SOURCE_OPERATION_ACTIVE");;
  raise_if (run_blocked s source) (LifecycleError "SOURCE_APPLY_UNCONFIRMED");;
  placement ← lift (identity_placement (cfg_settings (src_config row)));
  let identity_review := LifecycleError "SOURCE_RECOVERY_IDENTITY_REVIEW" in
  raise_if (negb (is_esxi row)) identity_review;;
  anchor ← require (legacy_anchor (settings_of row)) identity_review;
  proved ← lift (recovery_proof_ok source anchor placement proof);
  raise_if (negb proved) identity_review;;
  raise_if (negb (empty_proof_ok s source proof)) (LifecycleError "SOURCE_RECOVERY_EVIDENCE_CHANGED");;
  raise_if (recovery_disputed s source anchor) (LifecycleError "SOURCE_RECOVERY_IDENTITY_CONFLICT");;
  mret removed.

Definition credential_state_text (st : CredentialState) : string :=
  match st with
  | CR_RETAINED_BY_REQUEST => "RETAINED_BY_REQUEST" | CR_REMOVED => "REMOVED"
  | CR_RETAINED_SHARED_OR_LEGACY => "RETAINED_SHARED_OR_LEGACY" | CR_CLEANUP_FAILED => "CLEANUP_FAILED"
  end.

(** [operation.hex]. *)
Definition uuid_hex (operation : N) : string := hex_digits 32 operation.

Definition recovery_plan (source : string) (operation : N) (row : source_row) (removed : tombstone_row) (proof : pyval) : pyval :=
  let k := cfg_credentials (src_config row) in
  PDict [("proof", proof);
         ("removal", PDict [("source_instance", PStr source); ("display_name", PStr (tomb_display_name removed));
                            ("removed_at", PStr (isoformat (tomb_removed_at removed)));
                            ("credential_state", PStr (credential_state_text (tomb_credential_state removed)));
                            ("restored_at", PNone)]);
         ("credential_key", PStr ("src-recovery-" +:+ uuid_hex operation)); ("broker_operation", PStr (uuid_hex operation));
         ("previous_credentials", PDict [("token_id_provider", PStr (secret_provider (cred_token_id k)));
                                         ("token_id_key", PStr (secret_key (cred_token_id k)));
                                         ("token_secret_provider", PStr (secret_provider (cred_token_secret k)));
                                         ("token_secret_key", PStr (secret_key (cred_token_secret k)))])].

Definition result_of (operation : N) (c : recovery_row) : recovery_result := (operation, rec_state c, rec_plan c).

Definition prepare_transaction (source : string) (operation : N) (actor rev : string) (proof : pyval) : DB recovery_result :=
  atomic (
    source_gate source false false;;
    s ← gets id;
    match source_recoveries s !! operation with
    | Some previous =>
        stored ← lift (py_item "proof" (rec_plan previous));
        raise_if (negb (bool_decide (rec_source previous = source) && bool_decide (rec_actor previous = actor) &&
                        bool_decide (rec_revision previous = rev) && py_eqb stored proof))
          (LifecycleError "SOURCE_LIFECYCLE_CONFLICT");;
        mret (result_of operation previous)
    | None =>
        row ← recovery_row_of source;
        removed ← recovery_guard source row rev proof;
        raise_if (recovery_active s source) (LifecycleError "SOURCE_RECOVERY_ACTIVE");;
        created ← clock_timestamp;
        let c := mkRecovery source actor rev (recovery_plan source operation row removed proof) RC_PREPARED created None in
        modify (on_source_recoveries (<[operation := c]>));;
        mret (result_of operation c)
    end).

(** [_attempt]. *)
Definition attempt_row (source : string) (operation : N) (actor : string) : DB recovery_row :=
  s ← gets id;
  c ← require (source_recoveries s !! operation) (LifecycleError "SOURCE_RECOVERY_NOT_FOUND");
  raise_if (negb (bool_decide (rec_source c = source) && bool_decide (rec_actor c = actor)))
    (LifecycleError "SOURCE_RECOVERY_NOT_FOUND");;
  mret c.

Definition begin_transaction (source : string) (value : pyval) (actor : string) : DB recovery_result :=
  atomic (
    source_gate source false false;;
    operation ← as_uuid value bad_uuid;
    c ← attempt_row source operation actor;
    if bool_decide (rec_state c = RC_RESTORED) then mret (result_of operation c)
    else
      raise_if (negb (bool_decide (rec_state c ∈ [RC_PREPARED; RC_CREDENTIALS_PENDING]))) (LifecycleError "SOURCE_LIFECYCLE_CONFLICT");;
      row ← recovery_row_of source;
      proof ← lift (py_item "proof" (rec_plan c));
      recovery_guard source row (rec_revision c) proof;;
      modify (on_source_recoveries (alter (λ c, with_recovery_state RC_CREDENTIALS_PENDING (rec_finished_at c) c) operation));;
      mret (operation, RC_CREDENTIALS_PENDING, rec_plan c)).

(** The connection the restored source uses, from the probe receipt. *)
Record connection := mkConnection { con_username : string; con_address : pyval; con_verify_ssl : bool; con_port : pyval }.

Definition read_metadata (metadata : pyval) : result exn connection :=
  match metadata with
  | PDict d =>
      match Calendar.same_keys d ["username"; "address"; "verify_ssl"; "port"], dget "username" d, dget "verify_ssl" d with
      | true, PStr u, PBool v =>
          if bool_decide (u = "") then Err (LifecycleError "REQUEST_INVALID")
          else Ok (mkConnection u (dget "address" d) v (dget "port" d))
      | _, _, _ => Err (LifecycleError "REQUEST_INVALID")
      end
  | _ => Err (LifecycleError "REQUEST_INVALID")
  end.

(** The text a constructor requires. *)
Definition text_field (v : pyval) (field : string) : result exn string :=
  match v with PStr s => Ok s | _ => Err (ValueError (field +:+ " must be a non-empty string")) end.

(** The restored configuration: [replace] of the stored one. *)
Definition restored_config (row : source_row) (m : connection) (key : pyval) : result exn SourceConfig :=
  record ← row_to_record row;
  let c := src_config record in
  k ← text_field key "key";
  ref ← new_secret_reference "file" k;
  credentials ← new_credentials (con_username m) ref ref;
  address ← text_field (con_address m) "address";
  config ← replace c [ChEnabled true; ChSyncEnabled false; ChAddress address; ChVerifySsl (con_verify_ssl m);
                      ChSettings (PDict (dset "api_port" (if truthy (con_port m) then con_port m else PInt 443) (cfg_settings c)));
                      ChCredentials credentials];
  validate_config config;;
  Ok config.

(** The columns the UPDATE writes. *)
Definition restored_row (c : SourceConfig) (r : source_row) : source_row :=
  let o := src_config r in
  mkSourceRow
    {| cfg_id := cfg_id o; cfg_source_instance := cfg_source_instance o; cfg_name := cfg_name o;
       cfg_source_type := cfg_source_type o; cfg_address := cfg_address c; cfg_enabled := true; cfg_sync_enabled := false;
       cfg_sync_interval_seconds := cfg_sync_interval_seconds o; cfg_verify_ssl := cfg_verify_ssl c;
       cfg_target := cfg_target o; cfg_credentials := cfg_credentials c; cfg_sync_calendar := cfg_sync_calendar o;
       cfg_schedule_changed_at := cfg_schedule_changed_at o; cfg_legacy_identity_owner := cfg_legacy_identity_owner o;
       cfg_settings := cfg_settings c |}
    (src_created_at r) (src_updated_at r).

Definition restore_tombstone (now : Z) (t : tombstone_row) : tombstone_row :=
  mkTombstone (tomb_display_name t) (tomb_removed_at t) (tomb_credential_state t)
    (match tomb_restored_at t with Some r => Some r | None => Some now end).

Definition complete_transaction (source : string) (value : pyval) (actor : string) (proof : pyval) (m : connection) :
    DB recovery_result :=
  atomic (
    source_gate source false false;;
    operation ← as_uuid value bad_uuid;
    c ← attempt_row source operation actor;
    if bool_decide (rec_state c = RC_RESTORED) then mret (result_of operation c)
    else
      raise_if (negb (bool_decide (rec_state c = RC_CREDENTIALS_PENDING))) (LifecycleError "SOURCE_LIFECYCLE_CONFLICT");;
      stored ← lift (py_item "proof" (rec_plan c));
      raise_if (negb (py_eqb proof stored)) (LifecycleError "SOURCE_RECOVERY_EVIDENCE_CHANGED");;
      row ← recovery_row_of source;
      recovery_guard source row (rec_revision c) proof;;
      key ← lift (py_item "credential_key" (rec_plan c));
      broker ← lift (py_item "broker_operation" (rec_plan c));
      owned ← lift (verify_owned key broker);
      raise_if (negb (is_True owned)) (LifecycleError "SOURCE_RECOVERY_CREDENTIALS_UNCONFIRMED");;
      config ← lift (restored_config row m key);
      s ← gets id;
      raise_if (negb (bool_decide (credential_refs config = credential_refs (src_config row))) && refs_reserved s config)
        check_violation;;
      modify (on_sources (alter (restored_row config) source));;
      restored ← clock_timestamp;
      modify (on_source_tombstones (alter (restore_tombstone restored) source));;
      stale_plans source;;
      finished ← clock_timestamp;
      modify (on_source_recoveries (alter (with_recovery_state RC_RESTORED (Some finished)) operation));;
      mret (operation, RC_RESTORED, rec_plan c)).

Definition recovery_status (source : string) (value : pyval) (actor : string) : DB (RecoveryState * bool) :=
  atomic (
    source_gate source false false;;
    operation ← as_uuid value bad_uuid;
    c ← attempt_row source operation actor;
    row ← recovery_row_of source;
    mret (rec_state c, cfg_enabled (src_config row))).

Definition abandon_transaction (source : string) (value : pyval) (actor : string) : DB recovery_result :=
  atomic (
    source_gate source false false;;
    operation ← as_uuid value bad_uuid;
    c ← attempt_row source operation actor;
    if bool_decide (rec_state c = RC_ABANDONED) then mret (result_of operation c)
    else
      raise_if (negb (bool_decide (rec_state c = RC_PREPARED))) (LifecycleError "SOURCE_RECOVERY_OUTCOME_UNCERTAIN");;
      finished ← clock_timestamp;
      modify (on_source_recoveries (alter (with_recovery_state RC_ABANDONED (Some finished)) operation));;
      mret (operation, RC_ABANDONED, rec_plan c)).

(** ** The entry points, under the shared apply lock *)

Definition prepare_recovery (source : string) (operation : pyval) (actor rev : string) (proof : pyval) : M lworld exn recovery_result :=
  op ← in_db (as_uuid operation bad_uuid);
  raise_if (Nat.eqb (String.length actor) 0 || Nat.ltb 200 (String.length actor)) (LifecycleError "REQUEST_INVALID");;
  apply_lock lock_path (in_db (prepare_transaction source op actor rev proof)).

Definition begin_credentials (source : string) (operation : pyval) (actor : string) : M lworld exn recovery_result :=
  apply_lock lock_path (in_db (begin_transaction source operation actor)).

Definition complete (source : string) (operation : pyval) (actor : string) (proof metadata : pyval) : M lworld exn recovery_result :=
  m ← lift (read_metadata metadata);
  lift (source_port "esxi" (con_port m));;
  apply_lock lock_path (in_db (complete_transaction source operation actor proof m)).

Definition abandon_prepared (source : string) (operation : pyval) (actor : string) : M lworld exn recovery_result :=
  apply_lock lock_path (in_db (abandon_transaction source operation actor)).
End Recovery.

(** ** The states of an attempt *)

(** The edges of the table; an attempt that the retirement protocol overtakes is
    abandoned too. *)
Inductive recovery_edge : RecoveryState → RecoveryState → Prop :=
| edge_stay st : recovery_edge st st
| edge_begin : recovery_edge RC_PREPARED RC_CREDENTIALS_PENDING
| edge_abandon : recovery_edge RC_PREPARED RC_ABANDONED
| edge_restore : recovery_edge RC_CREDENTIALS_PENDING RC_RESTORED.

Definition active_state (st : RecoveryState) : bool := bool_decide (st ∈ [RC_PREPARED; RC_CREDENTIALS_PENDING]).

(** The attempt keeps its binding and its plan. *)
Definition same_attempt (c c' : recovery_row) : Prop :=
  rec_source c' = rec_source c ∧ rec_actor c' = rec_actor c ∧ rec_revision c' = rec_revision c ∧ rec_plan c' = rec_plan c ∧
  rec_created_at c' = rec_created_at c.

(** At most one attempt of a source is active. *)
Definition one_attempt (s : db) : Prop :=
  ∀ k k' c c', source_recoveries s !! k = Some c → source_recoveries s !! k' = Some c' → rec_source c = rec_source c' →
    active_state (rec_state c) = true → active_state (rec_state c') = true → k = k'.

Lemma recovery_active_false s source k c :
  recovery_active s source = false → source_recoveries s !! k = Some c → rec_source c = source → active_state (rec_state c) = false.
Proof.
  unfold recovery_active. intros Ha Hk <-. apply exists_row_false with (k := k) (r := c) in Ha; [|done].
  by rewrite bool_decide_eq_true_2 in Ha.
Qed.

(** How the transactions move the attempts: none disappears, each keeps its
    binding and follows an edge, and a new one starts PREPARED while its source
    has no active one. *)
Record attempts_move (s s' : db) : Prop := {
  am_old : ∀ k c, source_recoveries s !! k = Some c →
    ∃ c', source_recoveries s' !! k = Some c' ∧ same_attempt c c' ∧ rtc recovery_edge (rec_state c) (rec_state c');
  am_one : one_attempt s → one_attempt s' }.

#[global] Instance attempts_move_preorder : PreOrder attempts_move.
Proof.
  split.
  - intros s. split; [|done]. intros k c Hc. exists c. split; [done|]. split; [done|]. apply rtc_refl.
  - intros s1 s2 s3 [H1 I1] [H2 I2]. split; [|auto]. intros k c Hc. destruct (H1 k c Hc) as (c2 & Hc2 & S2 & E2).
    destruct (H2 k c2 Hc2) as (c3 & Hc3 & S3 & E3). exists c3. split; [done|]. split; [|by etrans].
    unfold same_attempt in *. naive_solver congruence.
Qed.

Lemma attempts_kept s s' : source_recoveries s' = source_recoveries s → attempts_move s s'.
Proof.
  intros E. split; unfold one_attempt; rewrite E; [|done]. intros k c Hc. exists c. split; [done|]. split; [done|]. apply rtc_refl.
Qed.

Lemma attempt_moved s operation c st finished :
  source_recoveries s !! operation = Some c → recovery_edge (rec_state c) st →
  attempts_move s (on_source_recoveries (alter (λ c, with_recovery_state st (finished c) c) operation) s).
Proof.
  intros Hc He. split.
  - intros k c0 Hc0. simpl. destruct (decide (k = operation)) as [->|Hne].
    + rewrite lookup_alter_eq, Hc. simplify_eq. eexists. split; [done|]. split; [done|]. by apply rtc_once.
    + rewrite lookup_alter_ne by done. exists c0. split; [done|]. split; [done|]. apply rtc_refl.
  - intros Hone k k' c1 c2 H1 H2 Es A1 A2. simpl in H1, H2.
    assert (∀ k0 c0, alter (λ c, with_recovery_state st (finished c) c) operation (source_recoveries s) !! k0 = Some c0 →
              active_state (rec_state c0) = true →
              ∃ d, source_recoveries s !! k0 = Some d ∧ rec_source d = rec_source c0 ∧ active_state (rec_state d) = true) as Hback.
    { intros k0 c0 H0 A0. destruct (decide (k0 = operation)) as [->|Hne].
      - rewrite lookup_alter_eq, Hc in H0. simplify_eq/=. exists c. split; [done|]. split; [done|].
        by destruct He.
      - rewrite lookup_alter_ne in H0 by done. eauto. }
    destruct (Hback _ _ H1 A1) as (d1 & D1 & S1 & B1). destruct (Hback _ _ H2 A2) as (d2 & D2 & S2 & B2).
    eapply Hone; [exact D1|exact D2| |done|done]. congruence.
Qed.

Section Steps.
Context (sha256 : string → string) (time_str isoformat : Z → string).
Context (verify_owned : pyval → pyval → result exn pyval).

Lemma recovery_guard_reads (R : relation db) `{!PreOrder R} source row rev proof s :
  moves R (recovery_guard sha256 time_str source row rev proof) s.
Proof using Type. unfold recovery_guard. db_moves. Qed.
Lemma attempt_row_reads (R : relation db) `{!PreOrder R} source operation actor s : moves R (attempt_row source operation actor) s.
Proof using Type. unfold attempt_row. db_moves. Qed.
Lemma recovery_row_reads (R : relation db) `{!PreOrder R} source s : moves R (recovery_row_of source) s.
Proof using Type. unfold recovery_row_of. db_moves. Qed.

Lemma attempt_row_Ok source operation actor s c s' :
  attempt_row source operation actor s = (Ok c, s') →
  s' = s ∧ source_recoveries s !! operation = Some c ∧ rec_source c = source ∧ rec_actor c = actor.
Proof using Type. unfold attempt_row. intros H. inv_m. inv_bool. done. Qed.
Lemma recovery_row_Ok source s r s' : recovery_row_of source s = (Ok r, s') → s' = s ∧ sources s !! source = Some r.
Proof using Type. unfold recovery_row_of. intros H. inv_m. done. Qed.
Lemma recovery_guard_Ok source row rev proof s t s' :
  recovery_guard sha256 time_str source row rev proof s = (Ok t, s') →
  s' = s ∧ removed_row s source = Some t ∧ cfg_enabled (src_config row) = false ∧ is_esxi row = true ∧
  ∃ anchor, legacy_anchor (settings_of row) = Some anchor ∧ recovery_disputed s source anchor = false.
Proof using Type. unfold recovery_guard. intros H. inv_m. inv_bool. simpl in *. eauto 10. Qed.

Hint Extern 0 (moves ?R (recovery_guard _ _ _ _ _ _) _) => apply (recovery_guard_reads R) : moves.
Hint Extern 0 (moves ?R (attempt_row _ _ _) _) => apply (attempt_row_reads R) : moves.
Hint Extern 0 (moves ?R (recovery_row_of _) _) => apply (recovery_row_reads R) : moves.
Hint Extern 0 (moves ?R (source_gate _ _ _) _) => apply (moves_gate R) : moves.

Ltac inv_recovery :=
  repeat match goal with
  | H : source_gate _ _ _ _ = (Ok _, _) |- _ => apply source_gate_Ok in H as ->
  | H : attempt_row _ _ _ _ = (Ok _, _) |- _ => apply attempt_row_Ok in H as (-> & ? & ? & ?)
  | H : recovery_row_of _ _ = (Ok _, _) |- _ => apply recovery_row_Ok in H as [-> ?]
  | H : recovery_guard _ _ _ _ _ _ _ = (Ok _, _) |- _ => apply recovery_guard_Ok in H as (-> & ? & ? & ? & ? & ? & ?)
  end; simpl in *; inv_bool.

Ltac recovery := unfold as_uuid, stale_plans; db_moves; try (by apply attempts_kept); inv_recovery.

Lemma prepare_attempts source operation actor rev proof s :
  moves attempts_move (prepare_transaction sha256 time_str isoformat source operation actor rev proof) s.
Proof using Type.
  unfold prepare_transaction. recovery. split.
  - intros k c Hc. exists c. simpl in *. destruct (decide (k = operation)) as [->|Hne]; [congruence|].
    rewrite lookup_insert_ne by done. split; [done|]. split; [done|]. apply rtc_refl.
  - intros Hone k k' c1 c2 L1 L2 Es A1 A2. simpl in *.
    apply lookup_insert_Some in L1 as [[<- <-]|[Hk1 L1]]; apply lookup_insert_Some in L2 as [[<- <-]|[Hk2 L2]]; try done.
    + by rewrite (recovery_active_false _ _ _ _ ltac:(eassumption) L2 (eq_sym Es)) in A2.
    + by rewrite (recovery_active_false _ _ _ _ ltac:(eassumption) L1 Es) in A1.
    + by eapply Hone.
Qed.

Lemma begin_attempts source value actor s : moves attempts_move (begin_transaction sha256 time_str source value actor) s.
Proof using Type.
  unfold begin_transaction. recovery. eapply attempt_moved; [eassumption|]. destruct (rec_state _) eqn:E; try constructor.
  all: match goal with H : _ ∈ _ |- _ => clear -H; apply list_elem_of_In in H; simpl in H; naive_solver end.
Qed.

Lemma abandon_attempts source value actor s : moves attempts_move (abandon_transaction source value actor) s.
Proof using Type.
  unfold abandon_transaction. recovery. eapply attempt_moved; [eassumption|].
  match goal with H : rec_state _ = RC_PREPARED |- _ => rewrite H end. constructor.
Qed.

Lemma complete_attempts source value actor proof m s :
  moves attempts_move (complete_transaction sha256 time_str verify_owned source value actor proof m) s.
Proof using Type.
  unfold complete_transaction. recovery. eapply attempt_moved; [eassumption|].
  match goal with H : rec_state _ = RC_CREDENTIALS_PENDING |- _ => rewrite H end. constructor.
Qed.
End Steps.

(** ** What a completed recovery restores *)

Lemma anchor_api_port v d : registration_anchor (PDict (dset "api_port" v d)) = registration_anchor (PDict d).
Proof.
  unfold registration_anchor, legacy_anchor, observed_anchor. rewrite !dget_dset_ne, dlookup_dset, decide_False by done. done.
Qed.

Lemma restored_config_Ok row m key c :
  restored_config row m key = Ok c →
  ∃ k port, key = PStr k ∧ cfg_credentials c = mkCredentials (con_username m) (mkSecretReference "file" k) (mkSecretReference "file" k) ∧
    cfg_settings c = dset "api_port" port (cfg_settings (src_config row)).
Proof.
  unfold restored_config. intros H. inv_m.
  match goal with H : row_to_record _ = Ok _ |- _ => apply row_to_record_Ok in H as (_ & _ & _ & _ & _ & Hset & _) end.
  match goal with H : text_field key _ = Ok _ |- _ => destruct key as [| | |k| |]; try done; injection H as <- end.
  match goal with H : new_secret_reference _ _ = Ok _ |- _ => apply new_reference_Ok in H as [-> _] end.
  match goal with H : new_credentials _ _ _ = Ok _ |- _ => apply new_credentials_Ok in H as [-> _] end.
  match goal with H : replace _ _ = Ok _ |- _ => unfold replace in H; simpl in H; apply new_source_config_fields in H as (? & -> & _) end.
  eexists k, _. split; [done|]. split; [done|]. simpl. by rewrite Hset.
Qed.

(** What a completed recovery changes. The row keeps its identity, its name, target and
    schedule columns; of the other tables only the tombstone, which gets the time it
    was lifted, the attempt, which is RESTORED, and the plans of the source that were
    ready, which are stale, differ. *)
Record recovery_effects (source : string) (operation : N) (c : recovery_row) (row row' : source_row) (s s' : db) : Prop := {
  re_row : sources s' = <[source := row']> (sources s);
  re_identity : let o := src_config row in let n := src_config row' in
    cfg_id n = cfg_id o ∧ cfg_source_instance n = cfg_source_instance o ∧ cfg_source_type n = cfg_source_type o ∧ cfg_name n = cfg_name o ∧
    cfg_target n = cfg_target o ∧ cfg_sync_interval_seconds n = cfg_sync_interval_seconds o ∧ cfg_sync_calendar n = cfg_sync_calendar o ∧
    cfg_schedule_changed_at n = cfg_schedule_changed_at o ∧ cfg_legacy_identity_owner n = cfg_legacy_identity_owner o ∧
    (∀ k, k ≠ "api_port" → dlookup k (cfg_settings n) = dlookup k (cfg_settings o)) ∧
    src_created_at row' = src_created_at row;
  re_tombstone : ∃ t at_time, source_tombstones s !! source = Some t ∧ tomb_restored_at t = None ∧
    source_tombstones s' = <[source := mkTombstone (tomb_display_name t) (tomb_removed_at t) (tomb_credential_state t) (Some at_time)]> (source_tombstones s);
  re_attempt : ∃ at_time, source_recoveries s' =
    <[operation := mkRecovery (rec_source c) (rec_actor c) (rec_revision c) (rec_plan c) RC_RESTORED (rec_created_at c) (Some at_time)]> (source_recoveries s);
  re_plans k : ∃ at_time, source_operations s' !! k =
    (λ o : operation_row, if decide (op_source o = source ∧ op_kind o = "PLAN" ∧ op_status o = OP_READY)
          then with_status o OP_STALE at_time (op_finished_at o) (Some "PLAN_STALE") None else o) <$> source_operations s !! k;
  re_others : s' = on_ticks (λ _, ticks s') (on_sources (λ _, sources s') (on_source_tombstones (λ _, source_tombstones s')
    (on_source_recoveries (λ _, source_recoveries s') (on_source_operations (λ _, source_operations s') s)))) }.

Lemma alter_present {K A} `{Countable K} (f : A → A) (k : K) (t : gmap K A) a : t !! k = Some a → alter f k t = <[k := f a]> t.
Proof.
  intros Ha. apply map_eq. intros j. destruct (decide (j = k)) as [->|Hne]; [by rewrite lookup_alter_eq, Ha, lookup_insert_eq|by rewrite lookup_alter_ne, lookup_insert_ne].
Qed.
Lemma completed_effects source operation c row config port restored stale finished s :
  sources s !! source = Some row → source_recoveries s !! operation = Some c → tombstoned s source = true →
  cfg_settings config = dset "api_port" port (cfg_settings (src_config row)) →
  recovery_effects source operation c row (restored_row config row) s
    (on_source_recoveries (alter (with_recovery_state RC_RESTORED (Some finished)) operation)
      (on_ticks S (on_source_operations (update_where
          (λ _ o, bool_decide (op_source o = source) && bool_decide (op_kind o = "PLAN") && bool_decide (op_status o = OP_READY))
          (λ o, with_status o OP_STALE stale (op_finished_at o) (Some "PLAN_STALE") None))
        (on_ticks S (on_source_tombstones (alter (restore_tombstone restored) source)
          (on_ticks S (on_sources (alter (restored_row config) source) s))))))).
Proof.
  intros Hrow Hc Ht Hset. split.
  - simpl. by apply alter_present.
  - simpl. split_and!; try done. intros k Hk. by rewrite Hset, dlookup_dset, decide_False.
  - unfold tombstoned in Ht. destruct (source_tombstones s !! source) as [t|] eqn:Et; [|done]. inv_bool.
    assert (tomb_restored_at t = None) as Hl by (by apply eq_None_not_Some). exists t, restored. split_and!; [done|done|]. simpl.
    rewrite (alter_present _ _ _ t) by done. unfold restore_tombstone. by rewrite Hl.
  - exists finished. simpl. by rewrite (alter_present _ _ _ c).
  - intros k. exists stale. simpl. rewrite lookup_update_where. destruct (source_operations s !! k) as [o|]; [|done]. simpl. f_equal.
    destruct (decide (_ ∧ _ ∧ _)) as [(E1 & E2 & E3)|Hn]; [by rewrite !bool_decide_eq_true_2|].
    destruct (_ && _) eqn:E; [|done]. inv_bool. by destruct Hn.
  - by destruct s.
Qed.


(** ** Attempts over time *)

Section Attempts.
Context (sha256 : string → string) (time_str isoformat : Z → string).
Context (verify_owned : pyval → pyval → result exn pyval).

(** A transaction of this component, or one that leaves the attempts alone. *)
Inductive recovery_step (s : db) : db → Prop :=
| rs_prepare source operation actor rev proof :
    recovery_step s (prepare_transaction sha256 time_str isoformat source operation actor rev proof s).2
| rs_begin source value actor : recovery_step s (begin_transaction sha256 time_str source value actor s).2
| rs_complete source value actor proof m :
    recovery_step s (complete_transaction sha256 time_str verify_owned source value actor proof m s).2
| rs_abandon source value actor : recovery_step s (abandon_transaction source value actor s).2
| rs_other s' : source_recoveries s' = source_recoveries s → recovery_step s s'.

Lemma recovery_step_attempts s s' : recovery_step s s' → attempts_move s s'.
Proof.
  destruct 1.
  - apply prepare_attempts.
  - apply begin_attempts.
  - apply complete_attempts.
  - apply abandon_attempts.
  - by apply attempts_kept.
Qed.

Lemma edges_from st st' :
  rtc recovery_edge st st' →
  match st with
  | RC_PREPARED => True
  | RC_CREDENTIALS_PENDING => st' = RC_CREDENTIALS_PENDING ∨ st' = RC_RESTORED
  | RC_RESTORED => st' = RC_RESTORED
  | RC_ABANDONED => st' = RC_ABANDONED
  end.
Proof.
  induction 1 as [st|st1 st2 st3 He _ IH]; [destruct st; auto|]. destruct He; try destruct st; naive_solver.
Qed.

(** C30: recovery attempts are durable and move one way. Over any sequence of
    prepare, begin, complete and abandon calls, for any sources and actors, an
    attempt never disappears and never changes its source, actor, revision or
    plan; once it waits for credentials it can only be restored, and a restored
    or abandoned attempt stays so; and a source never has two active attempts. *)
Theorem attempts_move_one_way s s' :
  rtc recovery_step s s' → one_attempt s →
  one_attempt s' ∧
  ∀ k c, source_recoveries s !! k = Some c →
    ∃ c', source_recoveries s' !! k = Some c' ∧ same_attempt c c' ∧
      match rec_state c with
      | RC_PREPARED => True
      | RC_CREDENTIALS_PENDING => rec_state c' = RC_CREDENTIALS_PENDING ∨ rec_state c' = RC_RESTORED
      | RC_RESTORED => rec_state c' = RC_RESTORED
      | RC_ABANDONED => rec_state c' = RC_ABANDONED
      end.
Proof.
  intros Hs Hone. assert (attempts_move s s') as [Hold Hkeep].
  { induction Hs as [|s1 s2 s3 H _ IH]; [reflexivity|]. pose proof (recovery_step_attempts _ _ H) as Hm. etrans; [exact Hm|].
    apply IH, (am_one _ _ Hm), Hone. }
  split; [auto|]. intros k c Hc. destruct (Hold k c Hc) as (c' & Hc' & Hsame & He). exists c'. split; [done|]. split; [done|].
  apply (edges_from _ _ He).
Qed.
End Attempts.

(** ** A recovery *)

(** The ESXi source of Registry.v, removed and disabled. *)
Definition removed_db : db :=
  on_source_tombstones (<["esx-a" := mkTombstone "esx-a" 5 CR_REMOVED None]>)
    (on_sources (alter (with_flags false false) "esx-a") esxi_db).
Definition removed_revision : string :=
  match sources removed_db !! "esx-a" with Some r => revision sample_hash sample_time r | None => "" end.
Definition recovery_proof : pyval :=
  PDict [("source_instance", PStr "esx-a"); ("host_uuid", PStr "44454c4c-3600-104b-8034-b7c04f4d3432"); ("blockers", PList []);
         ("digest", PStr (hex_digits 64 0))].
Definition broker_says_yes (_ _ : pyval) : result exn pyval := Ok (PBool true).
Definition new_connection : connection := mkConnection "root" (PStr "10.0.0.3") true PNone.

Definition prepared_db : db :=
  (prepare_transaction sample_hash sample_time sample_time "esx-a" 7 "admin" removed_revision recovery_proof removed_db).2.
Definition pending_db : db := (begin_transaction sample_hash sample_time "esx-a" (PStr (uuid_str 7)) "admin" prepared_db).2.
Definition restored_db : db :=
  (complete_transaction sample_hash sample_time broker_says_yes "esx-a" (PStr (uuid_str 7)) "admin" recovery_proof new_connection pending_db).2.
Definition pending_plan : pyval := match source_recoveries pending_db !! 7%N with Some c => rec_plan c | None => PNone end.

Lemma restored_run :
  complete_transaction sample_hash sample_time broker_says_yes "esx-a" (PStr (uuid_str 7)) "admin" recovery_proof new_connection
    pending_db = (Ok (7%N, RC_RESTORED, pending_plan), restored_db).
Proof. vm_compute. reflexivity. Qed.

Lemma restored_enabled : (cfg_enabled ∘ src_config <$> sources restored_db !! "esx-a") = Some true.
Proof. vm_compute. reflexivity. Qed.

Lemma restored_changes : restored_db ≠ pending_db.
Proof. intros E. pose proof restored_enabled as H. rewrite E in H. vm_compute in H. discriminate H. Qed.

Lemma no_attempts : one_attempt removed_db.
Proof.
  assert (source_recoveries removed_db = ∅) as E by (vm_compute; reflexivity).
  intros k k' c c' H. rewrite E in H. by apply lookup_empty_Some in H.
Qed.

Lemma attempts_move_one_way_witness : one_attempt restored_db.
Proof.
  refine (proj1 (attempts_move_one_way sample_hash sample_time sample_time broker_says_yes removed_db restored_db _ no_attempts)).
  eapply rtc_l; [exact (rs_prepare sample_hash sample_time sample_time broker_says_yes removed_db "esx-a" 7 "admin" removed_revision recovery_proof)|].
  eapply rtc_l; [exact (rs_begin sample_hash sample_time sample_time broker_says_yes prepared_db "esx-a" (PStr (uuid_str 7)) "admin")|].
  eapply rtc_l; [exact (rs_complete sample_hash sample_time sample_time broker_says_yes pending_db "esx-a" (PStr (uuid_str 7)) "admin"
    recovery_proof new_connection)|]. apply rtc_refl.
Defined.
