(* ===== verification/RetirementSpec.v ===== *)
(** * What a retirement promises

    An abstract machine of claims, one per operation, and the proof that every
    step of the journal is a sequence of its steps. The machine knows nothing of
    plans, receipts, flags or codes: a claim is reviewed, dispatched once the
    source is free, refused or proved, and closed or purged only when proved. *)

From S2P Require Import Prelude PyValue SourceConfig Schema SourceOperations SourceLifecycle Retirement.
From stdpp Require Import base list strings gmap pretty.
From Stdlib Require Import ZArith Lia Ascii.
Local Open Scope string_scope.
#[local] Arguments py_eqb _ _ : simpl never.

(** ** The machine *)

Inductive phase := Reviewed | Dispatched | Refused | Proved | Superseded | Closed.
#[global] Instance phase_eq_dec : EqDecision phase.
Proof. solve_decision. Defined.

Abbreviation claims := (gmap N (string * phase)).
(** A claim that holds its source. *)
Definition active (p : phase) : bool := bool_decide (p ∈ [Dispatched; Proved]).
Definition free (a : claims) (op : N) (source : string) : Prop :=
  ∀ op' p, op' ≠ op → a !! op' = Some (source, p) → active p = false.

Inductive spec_step (a : claims) : claims → Prop :=
| sp_review op source : a !! op = None → spec_step a (<[op := (source, Reviewed)]> a)
| sp_dispatch op source p : a !! op = Some (source, p) → p = Reviewed ∨ p = Refused → free a op source →
    spec_step a (<[op := (source, Dispatched)]> a)
| sp_refuse op source : a !! op = Some (source, Dispatched) → spec_step a (<[op := (source, Refused)]> a)
| sp_prove op source : a !! op = Some (source, Dispatched) → spec_step a (<[op := (source, Proved)]> a)
| sp_supersede op source : a !! op = Some (source, Proved) → spec_step a (<[op := (source, Superseded)]> a)
| sp_close op source : a !! op = Some (source, Proved) → spec_step a (<[op := (source, Closed)]> a)
| sp_purge op source : a !! op = Some (source, Proved) → spec_step a (filter (λ kv, kv.2.1 ≠ source) a).

(** At most one claim holds a source. *)
Definition exclusive (a : claims) : Prop :=
  ∀ op op' source p p', a !! op = Some (source, p) → a !! op' = Some (source, p') → active p = true → active p' = true → op = op'.

Lemma spec_exclusive a a' : spec_step a a' → exclusive a → exclusive a'.
Proof.
  intros Hs He.
  assert (∀ op source p, a !! op = Some (source, p) → active p = true → free a op source) as Hheld.
  { intros op source p Hop Hp op' p' Hne Hop'. apply not_true_iff_false. intros Hp'. by apply Hne, (He op' op source p' p). }
  assert (∀ op source p, (active p = true → free a op source) → exclusive (<[op := (source, p)]> a)) as Hset.
  { intros op source p Hfree o o' src q q' Ho Ho' Hq Hq'. rewrite lookup_insert_Some in Ho, Ho'.
    destruct Ho as [[<- Ho]|[Hne Ho]], Ho' as [[<- Ho']|[Hne' Ho']]; simplify_eq; try done.
    - pose proof (Hfree Hq _ _ (not_eq_sym Hne') Ho'). congruence.
    - pose proof (Hfree Hq' _ _ (not_eq_sym Hne) Ho). congruence.
    - by apply (He o o' src q q'). }
  destruct Hs; try (apply Hset; first [done|intros _; eauto]).
  intros o o' src q q' [Ho _]%map_lookup_filter_Some [Ho' _]%map_lookup_filter_Some. by apply (He o o' src).
Qed.

(** ** The journal as claims *)

Definition phase_of (r : retirement_row) : phase :=
  match ret_state r with
  | RT_READY => Reviewed
  | RT_SENDING | RT_UNCERTAIN => Dispatched
  | RT_BLOCKED => Refused
  | RT_SUCCEEDED => if bool_decide (is_Some (ret_superseded_by r)) then Superseded else Proved
  | RT_FINALIZED => Closed
  end.
Definition claim_of (r : retirement_row) : string * phase := (ret_source r, phase_of r).
Definition abs (s : db) : claims := claim_of <$> source_retirements s.

(** Only a success whose receipt closes no generation is superseded. *)
Definition closing (r : retirement_row) : bool :=
  bool_decide (ret_receipt r ≫= (λ d, json_member_text "generation_closed" (PDict d)) = Some "true").
Definition superseded_ok (r : retirement_row) : Prop :=
  is_Some (ret_superseded_by r) → ret_state r = RT_SUCCEEDED ∧ closing r = false.

Record journal_inv (s : db) : Prop := {
  ji_ok : journal_ok s;
  ji_superseded k r : source_retirements s !! k = Some r → superseded_ok r }.

Definition refines (s s' : db) : Prop := journal_inv s → journal_inv s' ∧ rtc spec_step (abs s) (abs s').
#[export] Instance refines_preorder : PreOrder refines.
Proof.
  split; [by intros s Hi|]. intros s1 s2 s3 A B Hi. destruct (A Hi) as [H2 R1]. destruct (B H2) as [H3 R2].
  split; [done|]. by etrans.
Qed.

Lemma lookup_abs s k : abs s !! k = claim_of <$> source_retirements s !! k.
Proof. apply lookup_fmap. Qed.

Lemma refines_same s s' :
  source_retirements s' = source_retirements s → keeps journal_ok s s' → refines s s'.
Proof.
  intros E Hk [Hok Hs]. split; [|unfold abs; by rewrite E]. split; [by apply Hk|]. intros k r. rewrite E. apply Hs.
Qed.

Lemma refines_tables s s' :
  sources s' = sources s → source_retirements s' = source_retirements s → refines s s'.
Proof. intros E1 E2. apply refines_same; [done|]. unfold keeps. by apply same_tables_ok. Qed.

(** An indexed record holds its source. *)
Lemma active_indexed s k r : journal_inv s → source_retirements s !! k = Some r → active (phase_of r) = true → ret_indexed r = true.
Proof.
  intros Hi Hr Ha. unfold ret_indexed. pose proof (ji_superseded _ Hi _ _ Hr) as Hs. unfold phase_of, active in Ha. unfold ret_inflight.
  destruct (ret_state r) eqn:E; try done; destruct (bool_decide (is_Some (ret_superseded_by r))) eqn:Es; try done;
    apply bool_decide_eq_true in Es; destruct (Hs Es); congruence.
Qed.

Lemma free_of_index s op source :
  journal_inv s →
  exists_row (λ k r', negb (bool_decide (k = op)) && bool_decide (ret_source r' = source) && ret_indexed r') (source_retirements s) = false →
  free (abs s) op source.
Proof.
  intros Hi Hno op' p Hne. rewrite lookup_abs. intros (r & Hr & E)%fmap_Some. injection E as Es ->.
  apply not_true_iff_false. intros Ha. rewrite exists_row_false in Hno. specialize (Hno _ _ Hr).
  rewrite bool_decide_eq_false_2, bool_decide_eq_true_2 in Hno by done. simpl in Hno.
  by rewrite (active_indexed s op' r) in Hno.
Qed.

(** ** One update of a record *)

Lemma abs_update op f s r :
  source_retirements s !! op = Some r → abs (on_source_retirements (alter f op) s) = <[op := claim_of (f r)]> (abs s).
Proof.
  intros Hr. apply map_eq. intros k. unfold abs. simpl. rewrite lookup_fmap. destruct (decide (k = op)) as [->|Hne].
  - by rewrite lookup_alter_eq, lookup_insert_eq, Hr.
  - by rewrite lookup_alter_ne, lookup_insert_ne, lookup_fmap by done.
Qed.

Lemma update_refines op f s :
  (∀ r, source_retirements s !! op = Some r → journal_inv s →
     evolves_ok s r (f r) ∧ superseded_ok (f r) ∧
     (phase_of (f r) = phase_of r ∨
      ((ret_indexed (f r) = true → free (abs s) op (ret_source r)) → spec_step (abs s) (<[op := (ret_source r, phase_of (f r))]> (abs s))))) →
  moves refines (update_retirement op f) s.
Proof.
  intros Hf Hi. pose proof (update_retirement_ok (guarded := λ _, True) op f s) as Hok. unfold moves in *. unfold update_retirement in *.
  rewrite (bind_step _ _ s s s) in * by done. unfold raise_if, mbind, M_bind in *.
  destruct (source_retirements s !! op) as [r|] eqn:Hr.
  - destruct (_ && _) eqn:Ei; [done|]. simpl in *. destruct (Hf r eq_refl Hi) as ((_ & Es & _) & Hsup & Hstep).
    assert (∀ r', Some r = Some r' → journal_ok s → evolves_ok s r' (f r') ∨ f r' = r') as Hevo.
    { intros r' [= <-] _. left. by apply Hf. }
    split.
    + split; [by apply Hok; [|apply ji_ok]|]. simpl. intros k r'. destruct (decide (k = op)) as [->|]; [|rewrite lookup_alter_ne by done; by apply ji_superseded].
      rewrite lookup_alter_eq, Hr. by intros [= <-].
    + rewrite (abs_update op f s r Hr). unfold claim_of. rewrite Es. destruct Hstep as [->|Hstep].
      * rewrite insert_id; [done|]. by rewrite lookup_abs, Hr.
      * apply rtc_once, Hstep. intros Hidx. rewrite Hidx in Ei. simpl in Ei. apply free_of_index; [done|]. by rewrite <-Es.
  - simpl in *. split.
    + split; [by apply Hok; [|apply ji_ok]|]. simpl. intros k r'. destruct (decide (k = op)) as [->|]; [by rewrite lookup_alter_eq, Hr|].
      rewrite lookup_alter_ne by done. by apply ji_superseded.
    + replace (abs (on_source_retirements (alter f op) s)) with (abs s); [done|]. unfold abs. simpl. f_equal. apply map_eq. intros k.
      destruct (decide (k = op)) as [->|]; [by rewrite lookup_alter_eq, Hr|by rewrite lookup_alter_ne].
Qed.

(** An open record moves to another open state. *)
Lemma open_unsuperseded r : superseded_ok r → ret_state r ≠ RT_SUCCEEDED → ret_superseded_by r = None.
Proof. intros Hs Hne. destruct (ret_superseded_by r) eqn:E; [|done]. destruct Hs as [? _]; [eauto|done]. Qed.

Lemma claimed s op r : source_retirements s !! op = Some r → abs s !! op = Some (ret_source r, phase_of r).
Proof. intros Hr. by rewrite lookup_abs, Hr. Qed.

(** Statements that leave the journal alone. *)
Definition same_journal (s s' : db) : Prop := source_retirements s' = source_retirements s.
#[export] Instance same_journal_preorder : PreOrder same_journal.
Proof. split; [done|]. intros s1 s2 s3 E1 E2. unfold same_journal in *. by rewrite E2. Qed.

Section Refinement.
Context (schema : string) (sha256 : string → string) (time_str isoformat : Z → string).

Hint Extern 0 (moves ?R (Retirement.guard _ _ _ _ _ _ _) _) => apply (moves_guard _ _ _ R) : moves.
Hint Extern 0 (moves ?R (record_of _ _ _) _) => apply (moves_record R) : moves.
Hint Extern 0 (moves ?R (source_gate _ _ _) _) => apply (moves_gate R) : moves.
Hint Extern 0 (moves ?R (returning _) _) => apply (moves_returning R) : moves.
Hint Extern 0 (moves ?R (admission_lock _) _) => apply (moves_admission _ R) : moves.

Ltac inv_reads :=
  repeat match goal with
  | H : record_of _ _ _ _ = (Ok _, _) |- _ => apply record_of_Ok in H as (-> & ? & ? & ?)
  | H : Retirement.guard _ _ _ _ _ _ _ _ = (Ok _, _) |- _ => apply guard_Ok in H as (-> & ? & ?)
  | H : source_gate _ _ _ _ = (Ok _, _) |- _ => apply source_gate_Ok in H as ->
  | H : admission_lock _ _ = (Ok _, _) |- _ => apply admission_lock_Ok in H as [-> ?]
  end; simpl in *; inv_bool; subst.
Ltac refining := db_moves; try (by apply refines_tables); inv_reads.

(** The record a handler read is the one its update finds. *)
Ltac the_record Hi Hr :=
  match goal with H : source_retirements _ !! _ = Some ?a |- _ =>
    simpl in Hr; rewrite (jo_keyed _ (ji_ok _ Hi) _ _ H) in *; rewrite H in Hr; injection Hr as <- end.

(** A review adds a record or changes nothing. *)
Lemma prepare_effect source operation actor revision instance remote s :
  let s' := (prepare sha256 time_str isoformat source operation actor revision instance remote s).2 in
  source_retirements s' = source_retirements s ∨
  ∃ r, source_retirements s !! operation = None ∧ ret_state r = RT_READY ∧ ret_superseded_by r = None ∧
    source_retirements s' = <[operation := r]> (source_retirements s).
Proof.
  cbn zeta. destruct (prepare sha256 time_str isoformat source operation actor revision instance remote s) as [[r|e] s'] eqn:H.
  2: { left. simpl. unfold prepare in H. apply bind_cases in H as [(e' & H & _)|([] & ? & [_ ->]%raise_if_Ok & H)].
       - unfold raise_if in H. by destruct (_ || _); injection H as _ <-.
       - apply bind_cases in H as [(e' & H & _)|([] & ? & [_ ->]%raise_if_Ok & H)]; [unfold raise_if in H; by destruct (_ <? _)%Z; injection H as _ <-|].
         by apply atomic_Err in H as ->. }
  unfold prepare in H. apply bind_Ok in H as ([] & ? & [_ ->]%raise_if_Ok & H). apply bind_Ok in H as ([] & ? & [_ ->]%raise_if_Ok & H).
  rewrite atomic_Ok in H. apply bind_Ok in H as ([] & ? & ->%source_gate_Ok & H). apply bind_Ok in H as (format & ? & [_ ->]%lift_Ok & H).
  apply bind_Ok in H as ([[row cluster] generation] & ? & (-> & _ & _)%guard_Ok & H). apply bind_Ok in H as (ok & ? & [_ ->]%lift_Ok & H).
  apply bind_Ok in H as ([] & ? & [_ ->]%raise_if_Ok & H). apply bind_Ok in H as (? & ? & [-> ->]%gets_Ok & H). simpl in H.
  destruct (source_retirements s !! operation) as [previous|]; [left; by inv_m|].
  apply bind_Ok in H as (now & ? & Hc & H). injection Hc as <- <-. apply bind_Ok in H as ([] & ? & ->%modify_Ok & [-> ->]%ret_Ok).
  right. simpl. eexists. by split_and!; [| | |reflexivity].
Qed.

Lemma prepare_refines source operation actor revision instance remote s :
  moves refines (prepare sha256 time_str isoformat source operation actor revision instance remote) s.
Proof.
  pose proof (prepare_ok (guarded := λ _, True) sha256 time_str isoformat source operation actor revision instance remote s) as Hok.
  pose proof (prepare_effect source operation actor revision instance remote s) as Heff. unfold moves in *.
  destruct (prepare _ _ _ _ _ _ _ _ _ s) as [res s']. simpl in *. destruct Heff as [E|(r & Hn & Est & Esup & E)].
  - by apply refines_same.
  - intros Hi. split.
    + split; [by apply Hok, ji_ok|]. intros k r'. rewrite E, lookup_insert_Some.
      intros [[_ <-]|[_ ?]]; [unfold superseded_ok; rewrite Esup; by intros [? ?]|by eapply ji_superseded].
    + unfold abs. rewrite E, fmap_insert. replace (claim_of r) with (ret_source r, Reviewed) by (unfold claim_of, phase_of; by rewrite Est).
      apply rtc_once, sp_review.
      by rewrite lookup_fmap, Hn.
Qed.

(** The updates of a dispatched record. *)
Lemma dispatched_unsuperseded s k r :
  journal_inv s → source_retirements s !! k = Some r → dispatched r = true →
  ret_superseded_by r = None ∧ phase_of r = Dispatched.
Proof.
  intros Hi Hr Hd. apply dispatched_states in Hd. split.
  - apply open_unsuperseded; [by eapply ji_superseded|]. destruct Hd; congruence.
  - unfold phase_of. by destruct Hd as [-> | ->].
Qed.

Lemma unsuperseded_ok r : ret_superseded_by r = None → superseded_ok r.
Proof. intros E. unfold superseded_ok. rewrite E. by intros [? ?]. Qed.

Ltac dispatched_record Hi Hr :=
  the_record Hi Hr;
  match goal with Hd : dispatched ?a = true, H : source_retirements _ !! _ = Some ?a |- _ =>
    destruct (dispatched_unsuperseded _ _ _ Hi H Hd) as [Esup Eph]; pose proof (claimed _ _ _ H) as Hclaim; rewrite Eph in Hclaim end.

Lemma uncertain_refines source operation actor code s : moves refines (uncertain source operation actor code) s.
Proof.
  unfold uncertain. refining. apply update_refines.
  intros r Hr Hi. dispatched_record Hi Hr. split_and!; [apply set_state_dispatched_ok; [done|decided]|by apply unsuperseded_ok|]. left. by rewrite Eph.
Qed.

Lemma blocked_refines source operation actor code s : moves refines (blocked source operation actor code) s.
Proof.
  unfold blocked. refining. apply update_refines.
  intros r Hr Hi. dispatched_record Hi Hr. split_and!; [apply set_state_dispatched_ok; [done|decided]|by apply unsuperseded_ok|].
  right. intros _. by apply sp_refuse.
Qed.

Lemma resolve_refines source operation actor instance receipt s : moves refines (resolve source operation actor instance receipt) s.
Proof.
  unfold resolve. refining. apply update_refines.
  match goal with Hm : receipt_matches _ _ _ _ = _ |- _ => rename Hm into Hmatch end.
  intros r Hr Hi. dispatched_record Hi Hr. split_and!; [|by apply unsuperseded_ok|].
  { split_and!; try done; [by left; apply dispatched_inflight|]. intros _. unfold receipt_ok. simpl.
    exists receipt. split; [done|]. pose proof (receipt_matches_guard _ _ _ _ Hmatch). subst instance. exact Hmatch. }
  right. intros _. unfold phase_of at 1. simpl. rewrite Esup. by apply sp_prove.
Qed.

Lemma resume_refines source operation actor s :
  moves refines (resume_legacy_busy sha256 time_str isoformat source operation actor) s.
Proof.
  unfold resume_legacy_busy. refining. apply update_refines. intros r Hr Hi. the_record Hi Hr.
  match goal with H : ret_state ?a = RT_BLOCKED, Hl : source_retirements _ !! _ = Some ?a |- _ =>
    rename H into Hst; rename Hl into Hlook end.
  pose proof (open_unsuperseded _ (ji_superseded _ Hi _ _ Hlook)) as Esup. rewrite Hst in Esup. specialize (Esup ltac:(done)).
  split_and!; [apply set_state_ok; [rewrite Hst; decided|decided|right; eauto]|by apply unsuperseded_ok|]. right. intros Hfree.
  eapply sp_dispatch; [by apply claimed|right; unfold phase_of; by rewrite Hst|]. apply Hfree.
  unfold ret_indexed. simpl. by rewrite Esup.
Qed.

(** Bookkeeping that moves no claim. *)
Lemma same_phase_refines operation f s :
  (∀ r, ret_operation (f r) = ret_operation r ∧ ret_source (f r) = ret_source r ∧ ret_state (f r) = ret_state r ∧
        ret_receipt (f r) = ret_receipt r ∧ ret_plan (f r) = ret_plan r ∧ ret_guard_instance (f r) = ret_guard_instance r ∧
        ret_superseded_by (f r) = ret_superseded_by r) →
  (∀ r, source_retirements s !! operation = Some r → ret_state r = RT_READY → ret_remove_credentials (f r) = ret_remove_credentials r) →
  moves refines (update_retirement operation f) s.
Proof.
  intros Hf Hc. apply update_refines. intros r Hr Hi. destruct (Hf r) as (E1 & E2 & E3 & E4 & E5 & E6 & E7). split_and!.
  - apply same_state_ok; auto.
  - pose proof (ji_superseded _ Hi _ _ Hr) as Hs. unfold superseded_ok, closing in *. by rewrite E3, E4, E7.
  - left. unfold phase_of. by rewrite E3, E7.
Qed.

Lemma extend_consent_refines r consent s :
  source_retirements s !! ret_operation r = Some r → moves refines (extend_consent r consent) s.
Proof.
  intros Hr. unfold extend_consent. refining. apply same_phase_refines; [done|]. intros r0 Hr0. rewrite Hr in Hr0. injection Hr0 as <-.
  intros E. unfold ret_inflight in *. rewrite E in *. done.
Qed.

(** At most one record of the source is superseded at a time. *)
Lemma supersede_one P k r f s :
  journal_inv s → source_retirements s !! k = Some r → P k r = true →
  (∀ k' r', P k' r' = true → ret_source r' = ret_source r ∧ ret_indexed r' = true) →
  update_where P f (source_retirements s) = alter f k (source_retirements s).
Proof.
  intros Hi Hr HP Hone. apply map_eq. intros k'. rewrite lookup_update_where. destruct (decide (k' = k)) as [->|Hne].
  - rewrite lookup_alter_eq, Hr. simpl. by rewrite HP.
  - rewrite lookup_alter_ne by done. destruct (source_retirements s !! k') as [r'|] eqn:E; [|done]. simpl.
    destruct (P k' r') eqn:E'; [|done]. destruct (Hone _ _ E') as [Es Hi']. destruct (Hone _ _ HP) as [_ Hi''].
    destruct Hne. by eapply (jo_unique _ (ji_ok _ Hi)).
Qed.

Lemma supersede_refines source by_operation s :
  refines s (on_source_retirements (update_where
    (λ _ o, bool_decide (ret_source o = source) && bool_decide (ret_state o = RT_SUCCEEDED) &&
            negb (bool_decide (ret_receipt o ≫= (λ d, json_member_text "generation_closed" (PDict d)) = Some "true")) &&
            negb (bool_decide (is_Some (ret_superseded_by o)))) (set_superseded by_operation)) s).
Proof.
  set (P := λ (_ : N) o, _). intros Hi.
  assert (∀ k r, P k r = true → ret_source r = source ∧ ret_state r = RT_SUCCEEDED ∧ closing r = false ∧ ret_superseded_by r = None) as HP.
  { intros k r H. unfold P in H. inv_bool. split_and!; try done; [by unfold closing; apply bool_decide_eq_false|]. by apply eq_None_not_Some. }
  destruct (exists_row P (source_retirements s)) eqn:Ex.
  - apply exists_row_true in Ex as (k & r & Hr & Hp). destruct (HP _ _ Hp) as (Es & Est & Hcl & Esup).
    assert (update_where P (set_superseded by_operation) (source_retirements s) = alter (set_superseded by_operation) k (source_retirements s)) as E.
    { eapply supersede_one; [done|done|done|]. intros k' r' (Es' & Est' & _ & Esup')%HP. split; [congruence|].
      unfold ret_indexed, ret_inflight. by rewrite Est', Esup'. }
    split.
    + split; [by apply supersede_ok, ji_ok|]. simpl. intros k' r'. rewrite E. destruct (decide (k' = k)) as [->|];
        [|rewrite lookup_alter_ne by done; by apply ji_superseded].
      rewrite lookup_alter_eq, Hr. by intros [= <-] _.
    + assert (on_source_retirements (update_where P (set_superseded by_operation)) s =
              on_source_retirements (alter (set_superseded by_operation) k) s) as -> by (unfold on_source_retirements; by rewrite E).
      rewrite (abs_update _ _ _ r Hr). unfold claim_of, phase_of. simpl. rewrite Est. apply rtc_once, sp_supersede.
      rewrite (claimed _ _ _ Hr). unfold phase_of. by rewrite Est, Esup.
  - assert (update_where P (set_superseded by_operation) (source_retirements s) = source_retirements s) as E.
    { apply map_eq. intros k. rewrite lookup_update_where. destruct (source_retirements s !! k) as [r|] eqn:Hr; [|done]. simpl.
      rewrite exists_row_false in Ex. by rewrite (Ex _ _ Hr). }
    revert Hi. by apply refines_tables.
Qed.

Lemma dispatch_refines source r consent s :
  source_retirements s !! ret_operation r = Some r → ret_source r = source → ret_state r = RT_READY →
  moves refines (dispatch source r consent) s.
Proof.
  intros Hr Hs Hst.
  assert (∀ s', source_retirements s' !! ret_operation r = Some r → disabled s' source →
    moves refines (update_retirement (ret_operation r) (set_sending consent)) s') as Hsend.
  { intros s' Hr' Hd. apply update_refines. intros r0 Hr0 Hi. rewrite Hr' in Hr0. injection Hr0 as <-.
    pose proof (open_unsuperseded _ (ji_superseded _ Hi _ _ Hr')) as Esup. rewrite Hst in Esup. specialize (Esup ltac:(done)).
    split_and!; [|by apply unsuperseded_ok|].
    - split_and!; try done; [intros _; right; by rewrite Hs|]. apply receipt_ok_open; [done|rewrite Hst; decided|decided].
    - right. intros Hfree. eapply sp_dispatch; [by apply claimed|left; unfold phase_of; by rewrite Hst|]. apply Hfree.
      unfold ret_indexed. simpl. by rewrite Esup. }
  unfold dispatch, disable_source. refining.
  - apply supersede_refines.
  - apply refines_same; [done|]. intros Hok. by apply alter_source_ok.
  - apply Hsend; [|apply disabled_after]. simpl.
    match goal with H : (if _ then modify _ else _) _ = _ |- _ => apply if_Ok in H as [[_ ->%modify_Ok]|[_ [_ ->]%ret_Ok]] end; [|done].
    simpl. rewrite lookup_update_where, Hr. simpl. rewrite Hst. by rewrite andb_false_r.
Qed.

Lemma begin_refines source operation actor digest confirmed consent s :
  moves refines (begin sha256 time_str isoformat source operation actor digest confirmed consent) s.
Proof.
  unfold begin. destruct consent as [|consent| | | |]; try (by db_moves). refining; intros Hi;
    match goal with H : source_retirements _ !! _ = Some _ |- _ => pose proof (jo_keyed _ (ji_ok _ Hi) _ _ H); subst operation end.
  - by apply dispatch_refines.
  - by apply extend_consent_refines.
Qed.

(** A purge takes the claims of one source away. *)
Lemma abs_purged source s : abs (purged source s) = filter (λ kv, kv.2.1 ≠ source) (abs s).
Proof.
  apply map_eq. intros k. rewrite lookup_abs, map_lookup_filter, lookup_abs. simpl.
  destruct (source_retirements s !! k) as [r|] eqn:Hr; simpl.
  - case_guard as Hs.
    + apply fmap_Some. exists r. split; [|done]. apply lookup_delete_where. split; [done|]. by apply bool_decide_eq_false.
    + apply fmap_None. destruct (delete_where _ _ !! k) as [r'|] eqn:E; [|done].
      apply lookup_delete_where in E as [E Hb]. apply bool_decide_eq_false in Hb. rewrite Hr in E. injection E as <-. done.
  - apply fmap_None. destruct (delete_where _ _ !! k) as [r'|] eqn:E; [|done]. apply lookup_delete_where in E as [E _]. congruence.
Qed.

Lemma purge_admitted_proved s source operation actor :
  purge_admitted s source operation actor = true → abs s !! operation = Some (source, Proved).
Proof.
  unfold purge_admitted. destruct (source_retirements s !! operation) as [r|] eqn:Hr; [|done]. intros H. inv_bool. subst.
  rewrite (claimed _ _ _ Hr). unfold phase_of. match goal with H : ret_state r = _ |- _ => rewrite H end.
  by rewrite bool_decide_eq_false_2.
Qed.

Lemma purge_refines source operation actor s : moves refines (purge_retired_source schema source operation actor) s.
Proof.
  unfold purge_retired_source. refining. intros Hi. split.
  - split; [by apply purged_ok, ji_ok|]. simpl. intros k r [Hr _]%lookup_delete_where. by eapply ji_superseded.
  - rewrite abs_purged. apply rtc_once. eapply sp_purge. by eapply purge_admitted_proved.
Qed.

Lemma closes_closing r : closes_generation (ret_receipt r) = true → closing r = true.
Proof.
  unfold closes_generation, closing. destruct (ret_receipt r) as [d|]; [|done]. intros H.
  assert (is_True (dget "generation_closed" d) = true) as Ht by (destruct d; [done|]; by inv_bool). clear H.
  apply bool_decide_eq_true. unfold json_member_text, json_member, dget in *. simpl.
  destruct (dlookup "generation_closed" d) as [v|]; [|done]. simpl in *. by destruct v as [|[]| | | |].
Qed.

Lemma finalized_refines source operation actor s : moves refines (finalized schema source operation actor) s.
Proof.
  unfold finalized. db_moves; try apply purge_refines.
  - apply refines_tables; apply close_generation_same.
  - match goal with H : close_generation ?r ?s1 = (Ok _, ?s2) |- _ =>
      pose proof (close_generation_Ok _ _ _ _ H) as ([Hgc _ _ _] & E1 & E2 & _) end.
    inv_reads.
    match goal with H : source_retirements _ !! _ = Some ?a, Hs : ret_state ?a ∈ _ |- _ => rename H into Ha; rename Hs into Hst; rename a into r0 end.
    apply update_refines. intros r Hr Hi. rewrite E2 in Hr. pose proof Ha as Hk. rewrite <-E2 in Hk.
    rewrite (jo_keyed _ (ji_ok _ Hi) _ _ Hk) in *. rewrite Ha in Hr. injection Hr as <-.
    assert (ret_superseded_by r0 = None) as Esup.
    { destruct (ret_superseded_by r0) eqn:E; [|done]. destruct (ji_superseded _ Hi _ _ Hk) as [_ Hcl]; [eauto|].
      by rewrite closes_closing in Hcl. }
    split_and!; [|by apply unsuperseded_ok|].
    + split_and!; try done. intros Hrc. unfold receipt_ok in *. rewrite bool_decide_eq_true_2 in Hrc by done. exact Hrc.
    + rewrite !elem_of_cons, elem_of_nil in Hst. destruct Hst as [Hst|[Hst|[]]]; [right; intros _|left].
      * apply sp_close. rewrite (claimed _ _ _ Hk). unfold phase_of. by rewrite Hst, Esup.
      * unfold phase_of. by rewrite Hst.
Qed.

(** A step of the journal is a sequence of steps of the machine. *)
Lemma journal_step_refines s s' : journal_step schema sha256 time_str isoformat s s' → refines s s'.
Proof.
  destruct 1.
  - apply prepare_refines.
  - apply begin_refines.
  - apply resume_refines.
  - apply uncertain_refines.
  - apply resolve_refines.
  - apply blocked_refines.
  - apply finalized_refines.
  - unfold cleanup_pending. apply (moves_atomic _), same_phase_refines; [done|done].
  - unfold cleanup_verified. apply (moves_atomic _), same_phase_refines; [done|done].
  - apply refines_same; [|exact (proj1 (lifecycle_ok sha256 time_str source revision name false None s))].
    change (moves same_journal (rename_row sha256 time_str source revision name) s). unfold rename_row. db_moves. done.
  - apply refines_same; [|exact (proj2 (lifecycle_ok sha256 time_str source revision name credentials operation s))].
    change (moves same_journal (remove_row sha256 time_str source revision name credentials operation) s).
    unfold remove_row, disable_source. db_moves; done.
  - apply refines_same; [done|]. intros Hok. by apply alter_source_ok.
  - by apply refines_tables.
Qed.

Lemma journal_steps_refine s s' : rtc (journal_step schema sha256 time_str isoformat) s s' → refines s s'.
Proof. induction 1; [done|]. etrans; [by apply journal_step_refines|done]. Qed.
End Refinement.

Lemma empty_inv s : source_retirements s = ∅ → journal_inv s.
Proof. intros E. split; [by apply empty_journal_ok|]. intros k r. rewrite E. by intros ?%lookup_empty_Some. Qed.
