(* ===== verification/RunReconciliation.v ===== *)
(** * Run reconciliation (netbox_sync/run_reconciliation.py)

    The admin's explicit acceptance of the current inventory as a new baseline
    after runs whose writes are unproved: a review of the unresolved runs and of
    what the remote guard observes now, and a confirmation bound to the digest of
    that review. The remote audit, the hash and the renderings of a timestamp are
    parameters. [_waiting_lock] takes two locks; its ten seconds of retries on
    the second are the caller's waiting, of which the last attempt counts. *)

From S2P Require Import Prelude PyValue SourceConfig Schema RunHistory SourceOperations SourceLifecycle Retirement.
From stdpp Require Import base list strings gmap pretty.
From Stdlib Require Import ZArith Lia Ascii.
Local Open Scope string_scope.
#[local] Arguments py_eqb _ _ : simpl never.

(** The columns [_local] selects of a run. *)
Record blocked_run := mkBlockedRun {
  br_run_id : N; br_status : RunStatus; br_finished_at : Z; br_plan_digest : option string; br_planner_version : option string;
  br_error_code : option string }.

Definition status_text (st : RunStatus) : string :=
  match st with
  | RUNNING => "RUNNING" | SUCCEEDED => "SUCCEEDED" | FAILED_BEFORE_WRITE => "FAILED_BEFORE_WRITE"
  | PARTIALLY_APPLIED => "PARTIALLY_APPLIED" | OUTCOME_UNCERTAIN => "OUTCOME_UNCERTAIN" | BLOCKED => "BLOCKED"
  | LOCKED => "LOCKED" | FAILED => "FAILED"
  end.

Definition opt_str (o : option string) : pyval := match o with Some x => PStr x | None => PNone end.

(** The unresolved runs of a source, by id. *)
Definition run_id_leb (a b : SyncRun) : bool := (run_id a <=? run_id b)%N.
Definition unresolved_runs (s : db) (source : string) : list SyncRun :=
  isort run_id_leb
    (select (λ _ r, bool_decide (run_source_instance r = source) && unresolved (run_status r)) (blocking_sync_runs s)).*2.

Definition blocked_run_of (r : SyncRun) : option blocked_run :=
  finished ← run_finished_at r;
  Some (mkBlockedRun (run_id r) (run_status r) finished (run_plan_digest r) (run_planner_version r) (run_error_code r)).

Definition sync_run_active (s : db) (source : string) : bool :=
  exists_row (λ _ r, bool_decide (run_source_instance r = source) && bool_decide (run_status r = RUNNING)) (sync_runs s).

(** [_local]. *)
Definition local (source : string) : DB (source_row * list blocked_run) :=
  s ← gets id;
  row ← require (sources s !! source) (LifecycleError "SOURCE_NOT_FOUND");
  raise_if (sync_run_active s source) (LifecycleError "SOURCE_OPERATION_ACTIVE");;
  raise_if (operation_active s source) (LifecycleError "SOURCE_OPERATION_ACTIVE");;
  let runs := take 101 (unresolved_runs s source) in
  raise_if (Nat.ltb 100 (length runs) || existsb (λ r, negb (bool_decide (is_Some (run_finished_at r)))) runs)
    (LifecycleError "RUN_RECONCILIATION_UNAVAILABLE");;
  mret (row, omap blocked_run_of runs).

(** One earlier decision: the rows of an operation. *)
Record decision_group := mkGroup { grp_operation : N; grp_actor : string; grp_created_at : Z; grp_valid : bool }.
#[global] Instance decision_group_eq_dec : EqDecision decision_group.
Proof. solve_decision. Defined.

Definition group_of (kv : N * N * reconciliation_row) : decision_group :=
  mkGroup kv.1.2 (rcn_actor kv.2) (rcn_created_at kv.2) (rcn_valid kv.2).
Definition group_leb (a b : decision_group) : bool := (grp_created_at b <=? grp_created_at a)%Z.
Definition previous_decisions (s : db) (source : string) : list (decision_group * list N) :=
  let rows := select (λ _ a, bool_decide (rcn_source a = source)) (run_reconciliations s) in
  map (λ g, (g, isort N.leb (map (λ kv, kv.1.1) (filter (λ kv, group_of kv = g) rows))))
    (take 100 (isort group_leb (remove_dups (map group_of rows)))).

Section Reconciliation.
Context (sha256 : string → string) (time_str isoformat : Z → string).
(** [remote.call("audit", operation, source_instance=source)]: the guard's
    identity and result, or the exception of the transport. *)
Context (audit : N → string → result exn pydict).
Context (lock_path : string).

Definition run_json (r : blocked_run) : pyval :=
  PDict [("run_id", PStr (uuid_str (br_run_id r))); ("status", PStr (status_text (br_status r)));
         ("finished_at", PStr (isoformat (br_finished_at r))); ("plan_digest", opt_str (br_plan_digest r));
         ("planner_version", opt_str (br_planner_version r)); ("error_code", opt_str (br_error_code r))].

Definition decision_json (d : decision_group * list N) : pyval :=
  PDict [("operation_id", PStr (uuid_str (grp_operation d.1))); ("actor_id", PStr (grp_actor d.1));
         ("created_at", PStr (isoformat (grp_created_at d.1))); ("valid", PBool (grp_valid d.1));
         ("runs", PList (map (λ r, PStr (uuid_str r)) d.2)); ("historical_outcome", PStr "UNPROVED")].

(** [fingerprint] of netbox_catalog.py. *)
Definition fingerprint (row : pydict) : string := sha256 (json_dumps (PDict row)).

Definition observe (source : string) (operation : N) (runs : list blocked_run) : result exn pydict :=
  if bool_decide (runs = []) then
    Ok [("guard_instance", PNone);
        ("result", PDict [("source_instance", PStr source); ("objects", PList []); ("historical_outcome", PStr "UNPROVED")])]
  else audit operation source.

(** [_review]: the review and the runs it lists. *)
Definition review_baseline (source : string) (operation : N) : DB (pydict * list blocked_run) :=
  read ← atomic (
    source_gate source false true;;
    found ← local source;
    s ← gets id;
    mret (found, previous_decisions s source));
  let '((row, runs), decisions) := read in
  observed ← lift (observe source operation runs);
  guard_instance ← lift (py_item "guard_instance" (PDict observed));
  inventory ← lift (py_item "result" (PDict observed));
  let result := [("source_instance", PStr source); ("revision", PStr (revision sha256 time_str row));
                 ("runs", PList (run_json <$> runs)); ("decisions", PList (decision_json <$> decisions));
                 ("guard_instance", guard_instance); ("inventory", inventory);
                 ("decision", PStr "ACCEPT_CURRENT_BASELINE"); ("historical_outcome", PStr "UNPROVED");
                 ("schedule_after", PBool false)] in
  mret (dset "digest" (PStr (fingerprint result)) result, runs).

(** [with self._waiting_lock(): body]. *)
Definition with_lock {A} (key : string) (body : DB A) : DB A :=
  held ← gets (λ s, bool_decide (key ∈ session_locks s));
  raise_if held (LifecycleError "SOURCE_APPLY_ACTIVE");;
  modify (on_session_locks (λ l, {[key]} ∪ l));;
  finally body (on_session_locks (λ l, l ∖ {[key]})).
Definition waiting_lock {A} (body : DB A) : DB A :=
  with_lock (lock_path +:+ ".reconciliation") (with_lock lock_path body).

Definition review (source : string) (operation : N) : DB pydict :=
  waiting_lock (reviewed ← review_baseline source operation; mret reviewed.1).

Definition ACKNOWLEDGEMENTS : pydict :=
  [("old_writes_stopped", PBool true); ("outcome_stays_unknown", PBool true); ("fresh_plan_required", PBool true)].

(** [INSERT INTO run_reconciliations], under the primary key and the unique index
    of the valid decisions. *)
Definition insert_reconciliation (source actor : string) (operation : N) (decision : pydict) (run : blocked_run) : DB unit :=
  created ← clock_timestamp;
  s ← gets id;
  raise_if (bool_decide (is_Some (run_reconciliations s !! (br_run_id run, operation))) ||
            exists_row (λ k a, bool_decide (k.1 = br_run_id run) && rcn_valid a) (run_reconciliations s)) unique_violation;;
  modify (on_run_reconciliations (<[(br_run_id run, operation) :=
    mkReconciliation source actor (br_status run) (br_finished_at run) decision true created]>)).

Definition unschedule (r : source_row) : source_row := with_flags (cfg_enabled (src_config r)) false r.

(** The deciding transaction of [confirm]. *)
Definition accept_baseline (source actor : string) (operation : N) (acknowledgements reviewed : pydict) : DB unit :=
  atomic (
    source_gate source false true;;
    found ← local source;
    raise_if (negb (py_eqb (PStr (revision sha256 time_str found.1)) (dget "revision" reviewed)) ||
              negb (py_eqb (PList (run_json <$> found.2)) (dget "runs" reviewed))) (LifecycleError "SOURCE_LIFECYCLE_CONFLICT");;
    forM found.2 (insert_reconciliation source actor operation (dset "acknowledgements" (PDict acknowledgements) reviewed));;
    modify (on_sources (alter unschedule source));;
    updated ← clock_timestamp;
    modify (on_source_operations (update_where
      (λ _ o, bool_decide (op_source o = source) && bool_decide (op_kind o = "PLAN") && bool_decide (op_status o = OP_READY))
      (λ o, with_status o OP_STALE updated (op_finished_at o) (Some "PLAN_STALE") None)))).

(** A row of the operation, if it was decided before. *)
Definition decided_before (s : db) (operation : N) : option reconciliation_row :=
  head (select (λ k _, bool_decide (k.2 = operation)) (run_reconciliations s)).*2.

(** [confirm] under the locks. *)
Definition confirm_body (source : string) (operation : N) (actor digest : string) (acknowledgements : pydict) : DB unit :=
  previous ← gets (λ s, decided_before s operation);
  match previous with
  | Some a =>
      stored ← lift (if rcn_valid a then py_item "digest" (PDict (rcn_decision a)) else Ok PNone);
      raise_if (negb (rcn_valid a) || negb (bool_decide (rcn_actor a = actor) && bool_decide (rcn_source a = source) &&
                                            py_eqb stored (PStr digest))) (LifecycleError "SOURCE_LIFECYCLE_CONFLICT")
  | None =>
      found ← review_baseline source operation;
      raise_if (negb (py_eqb (dget "digest" found.1) (PStr digest)) || negb (truthy (dget "runs" found.1)))
        (LifecycleError "SOURCE_LIFECYCLE_CONFLICT");;
      accept_baseline source actor operation acknowledgements found.1
  end.

Definition confirm (source : string) (operation : N) (actor digest : string) (acknowledgements : pydict) : DB unit :=
  raise_if (bool_decide (actor = "") || Nat.ltb 200 (String.length actor) || negb (forallb (λ kv, is_bool kv.2) acknowledgements) ||
            negb (py_eqb (PDict acknowledgements) (PDict ACKNOWLEDGEMENTS))) (LifecycleError "REQUEST_INVALID");;
  waiting_lock (confirm_body source operation actor digest acknowledgements).

(** ** What the queries found *)

(** A listed run is an unresolved run of the source, and every such run is
    listed. *)
Definition lists_unresolved (s : db) (source : string) (runs : list blocked_run) : Prop :=
  ∀ r, (∃ k, blocking_sync_runs s !! k = Some r) → run_source_instance r = source → unresolved (run_status r) = true →
  ∃ b, b ∈ runs ∧ br_run_id b = run_id r ∧ br_status b = run_status r ∧ Some (br_finished_at b) = run_finished_at r.

Lemma local_reads source s : moves eq (local source) s.
Proof. unfold local. db_moves. Qed.

Lemma local_Ok source s row runs s' :
  local source s = (Ok (row, runs), s') →
  s' = s ∧ sources s !! source = Some row ∧ sync_run_active s source = false ∧ operation_active s source = false ∧
  lists_unresolved s source runs.
Proof.
  unfold local. intros H. inv_m. inv_bool. simpl in *. split_and!; try done.
  match goal with H : (100 <? _)%nat = false |- _ => rename H into Hlen end.
  match goal with H : existsb _ _ = false |- _ => rename H into Hfin end.
  intros r [k Hk] Hs Hu. assert (r ∈ unresolved_runs s source) as Hin.
  { unfold unresolved_runs. rewrite elem_of_isort. apply list_elem_of_fmap. exists (k, r). split; [done|].
    apply elem_of_select. split; [done|]. by rewrite bool_decide_eq_true_2, Hu. }
  apply Nat.ltb_ge in Hlen. rewrite length_take in Hlen. rewrite take_ge in * by lia.
  assert (is_Some (run_finished_at r)) as [f Hf].
  { destruct (run_finished_at r) eqn:E; [by eauto|]. exfalso. apply not_true_iff_false in Hfin. apply Hfin.
    apply existsb_exists. exists r. rewrite <-list_elem_of_In. split; [done|]. by rewrite E. }
  exists (mkBlockedRun (run_id r) (run_status r) f (run_plan_digest r) (run_planner_version r) (run_error_code r)).
  split_and!; try done. apply list_elem_of_omap. exists r. split; [done|]. unfold blocked_run_of. by rewrite Hf.
Qed.

(** ** The decision rows *)

Record rows_added (source : string) (operation : N) (runs : list blocked_run) (s s' : db) : Prop := {
  ra_same : sync_runs s' = sync_runs s ∧ sources s' = sources s ∧ source_operations s' = source_operations s ∧
    session_locks s' = session_locks s ∧ clock s' = clock s;
  ra_old k a : run_reconciliations s !! k = Some a → run_reconciliations s' !! k = Some a;
  ra_new k a : run_reconciliations s' !! k = Some a → run_reconciliations s !! k = Some a ∨ rcn_source a = source;
  ra_each b : b ∈ runs → ∃ a, run_reconciliations s' !! (br_run_id b, operation) = Some a ∧ rcn_source a = source ∧
    rcn_run_status a = br_status b ∧ rcn_run_finished_at a = br_finished_at b ∧ rcn_valid a = true }.

Lemma insert_reconciliation_Ok source actor operation decision b s u s' :
  insert_reconciliation source actor operation decision b s = (Ok u, s') → rows_added source operation [b] s s' ∧
  ∃ a, run_reconciliations s' !! (br_run_id b, operation) = Some a ∧ rcn_created_at a = clock s (ticks s).
Proof.
  unfold insert_reconciliation. intros H. apply bind_Ok in H as (created & s1 & Hc & H). injection Hc as <- <-. inv_m. simpl in *. inv_bool.
  match goal with H : ¬ is_Some _ |- _ => apply eq_None_not_Some in H; rename H into Hno end.
  split; [|eexists; rewrite lookup_insert_eq; done]. split; simpl; [done|..].
  - intros k a Ha. rewrite lookup_insert_ne; [done|]. congruence.
  - intros k a. rewrite lookup_insert_Some. intros [[_ <-]|[_ ?]]; [by right|by left].
  - intros b' ->%list_elem_of_singleton. eexists. rewrite lookup_insert_eq. done.
Qed.

Lemma insert_all_Ok source actor operation decision runs s u s' :
  forM runs (insert_reconciliation source actor operation decision) s = (Ok u, s') → rows_added source operation runs s s'.
Proof.
  revert s. induction runs as [|b runs IH]; intros s; simpl.
  - intros [_ ->]%ret_Ok. split; [done|by auto|by auto|by intros ? ?%elem_of_nil].
  - intros H. apply bind_Ok in H as ([] & s1 & [[(A1&A2&A3&A4&A5) Aold Anew Aeach] _]%insert_reconciliation_Ok & H).
    apply IH in H as [(B1&B2&B3&B4&B5) Bold Bnew Beach]. split.
    + split_and!; congruence.
    + auto.
    + intros k a [Ha|?]%Bnew; auto.
    + intros b' [->|Hin]%elem_of_cons; [|by apply Beach]. destruct (Aeach b) as (a & Ha & ?); [by left|]. eauto.
Qed.

(** ** The new baseline *)

Record baseline (source : string) (s s' : db) : Prop := {
  bl_history : sync_runs s' = sync_runs s;
  bl_resolved k r : blocking_sync_runs s' !! k = Some r → run_source_instance r = source → unresolved (run_status r) = false;
  bl_unscheduled row : sources s' !! source = Some row → cfg_sync_enabled (src_config row) = false;
  bl_no_plan k o : source_operations s' !! k = Some o → op_source o = source → op_kind o = "PLAN" → op_status o ≠ OP_READY;
  bl_other_runs k r : run_source_instance r ≠ source → blocking_sync_runs s' !! k = Some r ↔ blocking_sync_runs s !! k = Some r;
  bl_other_sources k : k ≠ source → sources s' !! k = sources s !! k }.

Lemma rows_added_blocking source operation runs s s' k r :
  rows_added source operation runs s s' → lists_unresolved s source runs →
  blocking_sync_runs s' !! k = Some r →
  blocking_sync_runs s !! k = Some r ∧ (run_source_instance r = source → unresolved (run_status r) = false).
Proof.
  intros [(E1&_) Hold Hnew Heach] Hl. rewrite !lookup_blocking, E1. intros [Hr Hno].
  assert (exists_row (reconciles r) (run_reconciliations s) = false) as Hno0.
  { apply exists_row_false. intros k0 a Ha. rewrite exists_row_false in Hno. by apply Hno, Hold. }
  split; [done|]. intros Hs. apply not_true_iff_false. intros Hu.
  destruct (Hl r) as (b & Hb & Eid & Est & Efin); [exists k; by rewrite lookup_blocking|done|done|].
  destruct (Heach b Hb) as (a & Ha & Ea & Est' & Efin' & Hv). rewrite exists_row_false in Hno. specialize (Hno _ _ Ha).
  unfold reconciles in Hno. simpl in Hno. rewrite !bool_decide_eq_true_2, Hv in Hno by congruence. done.
Qed.

Lemma rows_added_others source operation runs s s' k r :
  rows_added source operation runs s s' → run_source_instance r ≠ source →
  blocking_sync_runs s' !! k = Some r ↔ blocking_sync_runs s !! k = Some r.
Proof.
  intros [(E1&_) Hold Hnew Heach] Hne. rewrite !lookup_blocking, E1, !exists_row_false. split; intros [Hr Hno]; (split; [done|]).
  - intros k0 a Ha. by apply Hno, Hold.
  - intros k0 a [Ha|Ha]%Hnew; [by apply Hno|]. unfold reconciles. rewrite (bool_decide_eq_false_2 (rcn_source a = _)) by congruence.
    by rewrite andb_false_r.
Qed.

Lemma accept_baseline_Ok source actor operation ack reviewed s u s' :
  accept_baseline source actor operation ack reviewed s = (Ok u, s') →
  baseline source s s' ∧ session_locks s' = session_locks s ∧
  ∃ row runs, local source s = (Ok (row, runs), s) ∧
    py_eqb (PStr (revision sha256 time_str row)) (dget "revision" reviewed) = true ∧
    py_eqb (PList (run_json <$> runs)) (dget "runs" reviewed) = true ∧
    ∀ b, b ∈ runs → ∃ a, run_reconciliations s' !! (br_run_id b, operation) = Some a ∧ rcn_source a = source ∧ rcn_valid a = true.
Proof.
  unfold accept_baseline. intros H. rewrite atomic_Ok in H. apply bind_Ok in H as ([] & ? & ->%source_gate_Ok & H).
  apply bind_Ok in H as ([row runs] & s0 & Hl & H). pose proof (local_Ok _ _ _ _ _ Hl) as (-> & Hrow & _ & _ & Hlist).
  apply bind_Ok in H as ([] & ? & [Hm ->]%raise_if_Ok & H). apply bind_Ok in H as ([] & s1 & Hadd%insert_all_Ok & H).
  apply bind_Ok in H as ([] & ? & ->%modify_Ok & H). apply bind_Ok in H as (updated & ? & Hc & ->%modify_Ok). injection Hc as <- <-.
  simpl in *. inv_bool. pose proof (ra_same _ _ _ _ _ Hadd) as (E1 & E2 & E3 & E4 & E5).
  split; [|split; [done|]].
  - split; simpl; [done|..].
    + intros k r Hk. by eapply (rows_added_blocking source operation runs s s1 k r).
    + intros r. rewrite lookup_alter_eq. by intros (r0 & _ & ->)%fmap_Some.
    + intros k o. rewrite lookup_update_where. intros (o0 & _ & ->)%fmap_Some.
      destruct (_ && _) eqn:E; [done|]. intros Hs Hk Hst. rewrite !bool_decide_eq_true_2 in E by done. done.
    + intros k r Hne. by apply (rows_added_others source operation runs s s1).
    + intros k Hne. rewrite lookup_alter_ne by done. by rewrite E2.
  - exists row, runs. split_and!; try done. intros b Hb. destruct (ra_each _ _ _ _ _ Hadd b Hb) as (a & Ha & ? & _ & _ & ?). eauto.
Qed.

Lemma review_reads source operation s : moves eq (review_baseline source operation) s.
Proof.
  unfold review_baseline, source_gate. db_moves; try apply local_reads.
Qed.

Lemma review_Ok source operation s x s' :
  review_baseline source operation s = (Ok x, s') →
  s' = s ∧ ∃ row, local source s = (Ok (row, x.2), s) ∧ dget "revision" x.1 = PStr (revision sha256 time_str row) ∧
    dget "runs" x.1 = PList (run_json <$> x.2) ∧
    dget "digest" x.1 = PStr (fingerprint (dpop "digest" x.1)).
Proof.
  intros H. pose proof (review_reads source operation s) as Hr. unfold moves in Hr. rewrite H in Hr. simpl in Hr. subst s'.
  split; [done|]. unfold review_baseline in H. apply bind_Ok in H as ([[row runs] decisions] & s1 & H1 & H).
  rewrite atomic_Ok in H1. apply bind_Ok in H1 as ([] & ? & ->%source_gate_Ok & H1).
  apply bind_Ok in H1 as ([row0 runs0] & s2 & Hl & H1). pose proof (local_Ok _ _ _ _ _ Hl) as (-> & _).
  apply bind_Ok in H1 as (? & ? & [-> ->]%gets_Ok & [E ->]%ret_Ok). injection E as -> -> ->.
  apply bind_Ok in H as (observed & ? & [_ ->]%lift_Ok & H). apply bind_Ok in H as (gi & ? & [_ ->]%lift_Ok & H).
  apply bind_Ok in H as (inv & ? & [_ ->]%lift_Ok & H). apply ret_Ok in H as [-> _]. exists row0. by split_and!.
Qed.

(** ** The locks *)

Lemma with_lock_cases {A} key (body : DB A) s :
  with_lock key body s =
    if bool_decide (key ∈ session_locks s) then (Err (LifecycleError "SOURCE_APPLY_ACTIVE"), s)
    else let '(r, s1) := body (on_session_locks (λ l, {[key]} ∪ l) s) in (r, on_session_locks (λ l, l ∖ {[key]}) s1).
Proof.
  unfold with_lock. rewrite (bind_step _ _ s _ s) by done. unfold mbind, M_bind, raise_if. cbn beta.
  by destruct (bool_decide (key ∈ session_locks s)).
Qed.

(** A body that leaves the locks alone is seen through [with_lock]: its effect is
    that of the body on the other tables. *)
Lemma relock key s : (key ∉ session_locks s) →
  on_session_locks (λ l, l ∖ {[key]}) (on_session_locks (λ l, {[key]} ∪ l) s) = s.
Proof. intros H. destruct s. unfold on_session_locks. simpl in *. f_equal. set_solver. Qed.

Lemma with_lock_Err {A} key (body : DB A) s e s' :
  (∀ s1 e1 s2, body s1 = (Err e1, s2) → s2 = s1) → with_lock key body s = (Err e, s') → s' = s.
Proof.
  intros Hbody. rewrite with_lock_cases. case_bool_decide as Hk; [by intros [= _ <-]|].
  destruct (body _) as [r s1] eqn:E. intros [= -> <-]. apply Hbody in E as ->. by apply relock.
Qed.

Lemma with_lock_Ok {A} key (body : DB A) s a s' :
  with_lock key body s = (Ok a, s') →
  (key ∉ session_locks s) ∧ ∃ s1, body (on_session_locks (λ l, {[key]} ∪ l) s) = (Ok a, s1) ∧
    s' = on_session_locks (λ l, l ∖ {[key]}) s1.
Proof.
  rewrite with_lock_cases. case_bool_decide as Hk; [done|]. destruct (body _) as [r s1] eqn:E. intros [= -> <-]. eauto.
Qed.

Lemma confirm_body_Err source operation actor digest ack s e s' :
  confirm_body source operation actor digest ack s = (Err e, s') → s' = s.
Proof.
  unfold confirm_body. rewrite (bind_step _ _ s _ s) by done. destruct (decided_before s operation) as [a|].
  - intros H. apply bind_cases in H as [(e' & H & _)|(st & ? & [_ ->]%lift_Ok & H)]; [by injection H as _ <-|].
    unfold raise_if in H. by destruct (_ || _); injection H as _ <-.
  - intros H. apply bind_cases in H as [(e' & H & _)|(x & s1 & Hx & H)].
    { pose proof (review_reads source operation s) as Hr. unfold moves in Hr. by rewrite H in Hr. }
    apply review_Ok in Hx as [-> _]. apply bind_cases in H as [(e' & H & _)|([] & ? & [_ ->]%raise_if_Ok & H)].
    + unfold raise_if in H. by destruct (_ || _); injection H as _ <-.
    + by apply atomic_Err in H.
Qed.

(** A baseline decision that is refused or fails changes nothing, whatever the
    remote audit did: no decision row, no flag, no plan and no lock. *)
Theorem confirm_refused_unchanged source operation actor digest ack s e s' :
  confirm source operation actor digest ack s = (Err e, s') → s' = s.
Proof.
  unfold confirm. intros H. apply bind_cases in H as [(e' & H & _)|([] & ? & [_ ->]%raise_if_Ok & H)].
  - unfold raise_if in H. by destruct (_ || _); injection H as _ <-.
  - unfold waiting_lock in H. apply with_lock_Err in H; [done|]. intros s1 e1 s2. apply with_lock_Err.
    intros ???. apply confirm_body_Err.
Qed.

Lemma confirm_body_Ok source operation actor digest ack s u s' :
  confirm_body source operation actor digest ack s = (Ok u, s') →
  session_locks s' = session_locks s ∧
  ((∃ a, decided_before s operation = Some a ∧ rcn_valid a = true ∧ rcn_actor a = actor ∧ rcn_source a = source ∧ s' = s) ∨
   (decided_before s operation = None ∧ baseline source s s' ∧
    ∃ reviewed runs, review_baseline source operation s = (Ok (reviewed, runs), s) ∧ runs ≠ [] ∧
      py_eqb (PStr (fingerprint (dpop "digest" reviewed))) (PStr digest) = true ∧ lists_unresolved s source runs)).
Proof.
  unfold confirm_body. rewrite (bind_step _ _ s _ s) by done. destruct (decided_before s operation) as [a|].
  - intros H. inv_m. inv_bool. split; [done|]. left. by exists a.
  - intros H. apply bind_Ok in H as ([reviewed runs] & s1 & Hx & H). pose proof (review_Ok _ _ _ _ _ Hx) as (-> & row & Hl & _ & Eruns & Edig).
    apply bind_Ok in H as ([] & ? & [Hg ->]%raise_if_Ok & H). simpl in *. apply orb_false_iff in Hg as [Hd Ht].
    rewrite Edig in Hd. rewrite Eruns in Ht. apply negb_false_iff in Hd. apply accept_baseline_Ok in H as (Hb & El & _).
    split; [done|]. right. split_and!; try done. exists reviewed, runs. split_and!; try done; [by intros ->|].
    by apply local_Ok in Hl as (_ & _ & _ & _ & ?).
Qed.

Lemma unresolved_none s source :
  (∀ k r, blocking_sync_runs s !! k = Some r → run_source_instance r = source → unresolved (run_status r) = false) →
  reconciliation_required source s = (Ok false, s).
Proof.
  intros H. unfold reconciliation_required, gets. f_equal. f_equal. apply exists_row_false. intros k r Hk.
  case_bool_decide as E; [by rewrite (H k r Hk E)|done].
Qed.

(** Accepting a baseline resolves exactly the reviewed runs. A confirmation
    that succeeds either repeats a valid decision of the same operation, actor
    and source and changes nothing, or is bound to the digest of the review made
    in the same call, whose runs are all the unresolved runs of the source: then
    no run of the source requires reconciliation any more, the run history is
    untouched, the source is unscheduled and has no ready plan, and no other
    source's runs or configuration change. Both locks are given back. *)
Theorem baseline_accepted source operation actor digest ack s u s' :
  confirm source operation actor digest ack s = (Ok u, s') →
  session_locks s' = session_locks s ∧
  ((∃ a, decided_before s operation = Some a ∧ rcn_valid a = true ∧ rcn_actor a = actor ∧ rcn_source a = source ∧ s' = s) ∨
   (decided_before s operation = None ∧ baseline source s s' ∧ reconciliation_required source s' = (Ok false, s') ∧
    ∃ reviewed runs, runs ≠ [] ∧ dget "runs" reviewed = PList (run_json <$> runs) ∧
      py_eqb (PStr (fingerprint (dpop "digest" reviewed))) (PStr digest) = true ∧ lists_unresolved s source runs)).
Proof.
  unfold confirm. intros H. apply bind_Ok in H as ([] & ? & [_ ->]%raise_if_Ok & H).
  unfold waiting_lock in H. apply with_lock_Ok in H as (Hk1 & s1 & H & ->). apply with_lock_Ok in H as (Hk2 & s2 & H & ->).
  apply confirm_body_Ok in H as (El & H). simpl in El.
  assert (session_locks s2 ∖ {[lock_path]} ∖ {[lock_path +:+ ".reconciliation"]} = session_locks s) as Elocks.
  { rewrite El. simpl in Hk2. set_solver. }
  split; [exact Elocks|]. destruct H as [(a & Ha & ? & ? & ? & ->)|(Hn & Hb & reviewed & runs & Hrev & Hne & Hd & Hl)].
  - left. exists a. split_and!; try done. destruct s. unfold on_session_locks in *. simpl in *. by rewrite Elocks.
  - right. split; [done|]. destruct Hb as [b1 b2 b3 b4 b5 b6]. split; [by split|]. split; [by apply unresolved_none|].
    apply review_Ok in Hrev as (_ & row & _ & _ & Eruns & _). exists reviewed, runs. by split_and!.
Qed.
End Reconciliation.

(** ** A concrete decision *)

Definition uncertain_run : SyncRun :=
  mkRun 3 "pve-a" "proxmox" SCHEDULED 0 (Some 1000%Z) (Some 1%Z) OUTCOME_UNCERTAIN None None no_counts (Some "OUTCOME_UNCERTAIN") None
    "system/scheduler".
Definition uncertain_db : db := on_sync_runs (λ _, {[ 3%N := uncertain_run ]}) sample_db.
Definition sample_audit (_ : N) (source : string) : result exn pydict :=
  Ok [("guard_instance", PStr "g"); ("result", PDict [("source_instance", PStr source)])].
Definition sample_review : pydict :=
  match (review sample_hash sample_time sample_time sample_audit "/run/apply.lock" "pve-a" 8 uncertain_db).1 with
  | Ok d => d
  | Err _ => []
  end.
Definition review_digest : string := py_str (dget "digest" sample_review).
Definition sample_confirm (digest : string) : result exn unit * db :=
  confirm sample_hash sample_time sample_time sample_audit "/run/apply.lock" "pve-a" 8 "admin" digest ACKNOWLEDGEMENTS uncertain_db.

Lemma confirm_refused_unchanged_witness : (sample_confirm "other").2 = uncertain_db.
Proof.
  apply (confirm_refused_unchanged sample_hash sample_time sample_time sample_audit "/run/apply.lock" "pve-a" 8 "admin" "other"
    ACKNOWLEDGEMENTS uncertain_db (LifecycleError "SOURCE_LIFECYCLE_CONFLICT")).
  vm_compute. reflexivity.
Defined.

Lemma baseline_accepted_witness :
  (sample_confirm review_digest).1 = Ok tt ∧ reconciliation_required "pve-a" uncertain_db = (Ok true, uncertain_db) ∧
  reconciliation_required "pve-a" (sample_confirm review_digest).2 = (Ok false, (sample_confirm review_digest).2).
Proof.
  split; [vm_compute; reflexivity|]. split; [vm_compute; reflexivity|].
  destruct (baseline_accepted sample_hash sample_time sample_time sample_audit "/run/apply.lock" "pve-a" 8 "admin" review_digest
    ACKNOWLEDGEMENTS uncertain_db tt (sample_confirm review_digest).2 ltac:(vm_compute; reflexivity))
    as [_ [(a & Ha & _)|(_ & _ & H & _)]].
  - exfalso. vm_compute in Ha. discriminate Ha.
  - exact H.
Defined.

(** ** The history over time *)

(** The writers of [sync_runs]: the calls of the repository, with whatever outcome, and
    the purge of a retired source. Everything else leaves the table alone. *)
Inductive runs_step (schema : string) (s : db) : db → Prop :=
| rn_repository s' : history_step s s' → runs_step schema s s'
| rn_purge source operation actor : runs_step schema s (purge_retired_source schema source operation actor s).2
| rn_other s' : sync_runs s' = sync_runs s → runs_step schema s s'.

(** The source of a run was purged on the way, under the conditions of the purge. *)
Definition purged_between (schema source : string) (s s' : db) : Prop :=
  ∃ s1 s2 operation actor, rtc (runs_step schema) s s1 ∧ purge_admitted s1 source operation actor = true ∧
    purge_retired_source schema source operation actor s1 = (Ok tt, s2) ∧ rtc (runs_step schema) s2 s'.

Lemma runs_step_keeps schema s s' k r :
  runs_step schema s s' → sync_runs s !! k = Some r →
  (∃ r', sync_runs s' !! k = Some r' ∧ same_origin r r' ∧ (run_status r ≠ RUNNING → r' = r)) ∨
  ∃ operation actor, purge_admitted s (run_source_instance r) operation actor = true ∧
    purge_retired_source schema (run_source_instance r) operation actor s = (Ok tt, s').
Proof.
  intros Hstep Hr. destruct Hstep as [s' H|source operation actor|s' E].
  - left. by apply (history_step_grows _ _ H).
  - destruct (purge_retired_source schema source operation actor s) as [[[]|e] s'] eqn:E; cbn [snd].
    + pose proof E as (Ha & _ & Hk & _)%purge_Ok. destruct (decide (run_source_instance r = source)) as [<-|Hne]; [right; eauto|].
      left. exists r. split; [by apply (ok_runs _ _ _ Hk)|]. done.
    + apply purge_Err in E as ->. left. by exists r.
  - left. exists r. rewrite E. done.
Qed.

(** C38: the history of runs is append-only. Along every sequence of repository calls,
    purges and other writes, with whatever arguments and outcomes, a recorded run keeps
    its identity, source, trigger, start and author, and never changes again once it is
    not RUNNING; it disappears only when its source was purged on the way, which
    happens only under the proof of its retirement the purge demands. *)
Theorem history_append_only schema s s' k r :
  rtc (runs_step schema) s s' → sync_runs s !! k = Some r →
  (∃ r', sync_runs s' !! k = Some r' ∧ same_origin r r' ∧ (run_status r ≠ RUNNING → r' = r)) ∨
  purged_between schema (run_source_instance r) s s'.
Proof.
  intros Hs. revert r. induction Hs as [s|s1 s2 s3 H12 H23 IH]; intros r Hr; [left; by exists r|].
  destruct (runs_step_keeps _ _ _ _ _ H12 Hr) as [(r2 & Hr2 & Ho & Ht)|(operation & actor & Ha & Hp)].
  2: { right. exists s1, s2, operation, actor. split_and!; [apply rtc_refl|done|done|done]. }
  assert (run_source_instance r2 = run_source_instance r) as Hsrc by apply Ho.
  destruct (IH r2 Hr2) as [(r3 & Hr3 & Ho3 & Ht3)|(s4 & s5 & operation & actor & H1 & Ha & Hp & H2)].
  - left. exists r3. split; [done|]. split.
    + unfold same_origin in *. destruct_and!. split_and!; congruence.
    + intros Hn. specialize (Ht Hn). subst r2. by apply Ht3.
  - right. rewrite Hsrc in Ha, Hp. exists s4, s5, operation, actor. split_and!; [by eapply rtc_l|done|done|done].
Qed.

Lemma history_append_only_witness :
  (∃ r, sync_runs RunHistory.sample_started !! 1%N = Some r ∧ run_status r = RUNNING) ∧
  (∃ r, sync_runs RunHistory.sample_finished !! 1%N = Some r ∧ run_status r = FAILED) ∧
  ∃ r r', sync_runs RunHistory.sample_started !! 1%N = Some r ∧ sync_runs RunHistory.sample_finished !! 1%N = Some r' ∧
    (same_origin r r' ∨ purged_between "netbox_sync" (run_source_instance r) RunHistory.sample_started RunHistory.sample_finished).
Proof.
  split; [eexists; vm_compute; split; reflexivity|]. split; [eexists; vm_compute; split; reflexivity|].
  destruct (sync_runs RunHistory.sample_started !! 1%N) as [r|] eqn:E; [|vm_compute in E; discriminate E].
  destruct (sync_runs RunHistory.sample_finished !! 1%N) as [r'|] eqn:E'; [|vm_compute in E'; discriminate E']. exists r, r'. split; [reflexivity|]. split; [reflexivity|].
  assert (rtc (runs_step "netbox_sync") RunHistory.sample_started RunHistory.sample_finished) as Hs by (eapply rtc_l; [apply rn_repository, step_finish|apply rtc_refl]).
  destruct (history_append_only "netbox_sync" RunHistory.sample_started RunHistory.sample_finished 1%N r Hs E) as [(r2 & H2 & H3 & _)|H]; [left|right; exact H].
  rewrite E' in H2. injection H2 as <-. exact H3.
Defined.
