(* ===== verification/Coordinator.v ===== *)
(** * Retirement coordinator (netbox_sync/retirement_coordinator.py)

    The handlers that drive a retirement: the review, the execution with its
    remote mutation, and the projection of a record. The remote worker is the
    class [GuardRemote] over a state of its own; every exchange with it is logged
    together with the database it found, so that what was durable when a mutation
    was sent can be stated. *)

From S2P Require Import Prelude PyValue SourceConfig Schema SourceOperations SourceLifecycle Retirement.
From stdpp Require Import base list strings gmap pretty.
From Stdlib Require Import ZArith Lia Ascii.
Local Open Scope string_scope.
#[local] Arguments py_eqb _ _ : simpl never.

(** ** The remote worker *)

(** [remote.call(action, operation, **fields)]. *)
Inductive remote_request :=
| Receipt (operation : N)
| Review (operation : N) (source : string) (cluster : pyval)
| ArchiveReview (operation : N) (source : string)
| Execute (operation : N) (digest : pyval)
| ArchiveExecute (operation : N) (digest : pyval)
| PurgeLocal (operation : N) (source : string) (digest : pyval)
| Audit (operation : N) (source : string)
| Namespace (operation : N) (source : string).
#[global] Instance remote_request_eq_dec : EqDecision remote_request.
Proof. solve_decision. Defined.

(** [{"guard_instance": ..., "result": ...}]. *)
Record envelope := mkEnvelope { env_guard : N; env_result : pydict }.

Class GuardRemote (W : Type) := remote_call : remote_request → M W exn envelope.

(** The requests that ask the guard to delete or to archive. *)
Definition mutates (q : remote_request) : bool :=
  match q with Execute _ _ | ArchiveExecute _ _ => true | _ => false end.

(** One exchange: the database at the time of the request, and the worker before
    and after it. *)
Record exchange (W : Type) := mkExchange {
  ex_db : db; ex_request : remote_request; ex_answer : result exn envelope; ex_before : W; ex_after : W }.
Arguments mkExchange {W}.
Arguments ex_db {W}.
Arguments ex_request {W}.
Arguments ex_answer {W}.
Arguments ex_before {W}.
Arguments ex_after {W}.

Record cworld (W : Type) := mkCW { cw_store : lworld; cw_remote : W; cw_log : list (exchange W) }.
Arguments mkCW {W}.
Arguments cw_store {W}.
Arguments cw_remote {W}.
Arguments cw_log {W}.
Definition cw_db {W} (w : cworld W) : db := lw_db (cw_store w).

(** The projection of a record; [purged] is the key only [_completed] adds. *)
Record retirement_view := mkView {
  vw_operation : string; vw_source : string; vw_state : RetirementState; vw_digest : pyval; vw_revision : string;
  vw_guard : string; vw_manifest : pyval; vw_mode : string; vw_safe_code : option string; vw_remove_credentials : option bool;
  vw_purged : bool }.

Definition public (r : retirement_row) : result exn retirement_view :=
  remote ← plan_remote r;
  digest ← py_item "digest" remote;
  manifest ← py_item "manifest" remote;
  format ← attr_get "format" manifest;
  Ok (mkView (uuid_str (ret_operation r)) (ret_source r) (ret_state r) digest (ret_revision r) (uuid_str (ret_guard_instance r))
        manifest (if py_eqb format (PInt 4) then "LEGACY_RETAIN" else "FULL_DELETE") (ret_safe_code r) (ret_remove_credentials r) false).

(** The keys of the file references of a row that no other source has. *)
Definition exclusive_keys (row : source_row) (refs : list SecretReference) : list string :=
  isort String.leb (remove_dups (secret_key <$> filter (λ r, secret_provider r = "file" ∧ r ∉ refs) (row_refs row))).

Section Coordinator.
Context {W : Type} `{!GuardRemote W}.
Context (schema : string) (sha256 : string → string) (time_str isoformat : Z → string).
Context (cleanup : list (list string) → list string → result exn pyval).
Context (lock_path : string).

Definition in_store {A} (m : M lworld exn A) : M (cworld W) exn A := λ w,
  let '(r, l) := m (cw_store w) in (r, mkCW l (cw_remote w) (cw_log w)).
Definition in_journal {A} (m : DB A) : M (cworld W) exn A := in_store (in_db m).

Definition call (q : remote_request) : M (cworld W) exn envelope := λ w,
  let '(r, g) := remote_call q (cw_remote w) in (r, mkCW (cw_store w) g (cw_log w ++ [mkExchange (cw_db w) q r (cw_remote w) g])%list).

(** [with self.store.lock(self.store.lock_path): body]. *)
Definition hold : cworld W → cworld W := λ w, mkCW (locked lock_path (cw_store w)) (cw_remote w) (cw_log w).
Definition release : cworld W → cworld W := λ w, mkCW (unlocked lock_path (cw_store w)) (cw_remote w) (cw_log w).
Definition store_lock {A} (body : M (cworld W) exn A) : M (cworld W) exn A :=
  held ← gets (λ w, bool_decide (lock_path ∈ session_locks (cw_db w)));
  raise_if held (LifecycleError "SOURCE_APPLY_ACTIVE");;
  modify hold;;
  finally body release.

(** ** Reads *)

Record retained_view := mkRetained { rt_view : lifecycle_view; rt_revision : string; rt_retirement : option retirement_hint }.

Definition retained_context (source : string) : M (cworld W) exn retained_view :=
  current ← in_journal (read sha256 time_str source);
  match current with
  | RegisteredView _ _ _ _ => raise (LifecycleError "SOURCE_RECOVERY_NOT_REMOVED")
  | RemovedView _ _ _ _ retirement =>
      row ← in_journal (journal_row source);
      hint ← in_journal (gets (λ s, retirement_hint_of s source None));
      mret (mkRetained current (revision sha256 time_str row) (match hint with Some h => Some h | None => retirement end))
  end.

(** The receipt that proves an operation whose rows are gone. *)
Definition completes (source : string) (operation : N) (receipt : pydict) : result exn bool :=
  if negb (py_eqb (dget "nonce" receipt) (PStr (uuid_str operation))) then Ok false
  else if negb (py_eqb (dget "source_instance" receipt) (PStr source)) then Ok false
  else if negb (py_eqb (dget "status" receipt) (PStr "SUCCEEDED")) then Ok false
  else if negb (is_True (dget "generation_closed" receipt)) then Ok false
  else format ← attr_get "format" (default (PDict []) (dlookup "manifest" receipt)); Ok (py_eqb format (PInt 2)).

Definition completed (source : string) (operation : N) : M (cworld W) exn retirement_view :=
  registered ← in_journal (gets (λ s, bool_decide (is_Some (sources s !! source))));
  raise_if registered (LifecycleError "RETIREMENT_CONFLICT");;
  result ← call (Receipt operation);
  let receipt := env_result result in
  proved ← lift (completes source operation receipt);
  raise_if (negb proved) (LifecycleError "RETIREMENT_CONFLICT");;
  digest ← lift (py_item "digest" (PDict receipt));
  manifest ← lift (py_item "manifest" (PDict receipt));
  mret (mkView (uuid_str operation) source RT_FINALIZED digest "" (uuid_str (env_guard result)) manifest "FULL_DELETE" None (Some true) true).

Definition journaled (operation : N) : M (cworld W) exn bool :=
  in_journal (gets (λ s, bool_decide (is_Some (source_retirements s !! operation)))).

Definition status (source : string) (operation : N) (actor : string) : M (cworld W) exn retirement_view :=
  exists_ ← journaled operation;
  if (exists_ : bool) then r ← in_journal (record_of source operation actor); lift (public r)
  else completed source operation.

(** ** Review *)

(** What a review must not compete with. *)
Definition archive_competes (source : string) (r : retirement_row) : bool :=
  bool_decide (ret_source r = source) &&
  (dispatched r ||
   (bool_decide (ret_state r = RT_SUCCEEDED) &&
    bool_decide (ret_receipt r ≫= (λ d, json_member_text "generation_closed" (PDict d)) = Some "true"))).
Definition review_competes (source : string) (operation : N) (r : retirement_row) : bool :=
  bool_decide (ret_source r = source) && negb (bool_decide (ret_operation r = operation)) &&
  negb (bool_decide (is_Some (ret_superseded_by r))) &&
  (ret_inflight r ||
   (bool_decide (ret_state r = RT_BLOCKED) && bool_decide (ret_safe_code r = Some "SOURCE_OPERATION_ACTIVE"))).

Definition admit_review (source : string) (operation : N) (revision : string) (archive queued : bool) : DB pyval :=
  atomic (
    source_gate source (archive || queued) false;;
    s ← gets id;
    (if archive then
       raise_if (archived s source) (LifecycleError "SOURCE_ARCHIVED");;
       raise_if (exists_row (λ _ r, archive_competes source r) (source_retirements s)) (LifecycleError "SOURCE_RETIREMENT_PENDING")
     else mret tt);;
    raise_if (negb archive && exists_row (λ _ r, review_competes source operation r) (source_retirements s))
      (LifecycleError "SOURCE_RETIREMENT_PENDING");;
    checked ← Retirement.guard sha256 time_str isoformat source revision None archive;
    mret checked.1.2).

Definition review (source : string) (operation : N) (actor revision : string) (archive queued : bool) : M (cworld W) exn retirement_view :=
  store_lock (
    cluster ← in_journal (admit_review source operation revision archive queued);
    result ← call (if archive then ArchiveReview operation source else Review operation source cluster);
    r ← in_journal (prepare sha256 time_str isoformat source operation actor revision (env_guard result) (env_result result));
    lift (public r)).

(** ** Execution *)

(** [_finish_exclusive_credentials]. *)
Definition finish_exclusive_credentials (source : string) : M lworld exn unit :=
  row ← in_db (journal_row source);
  s ← in_db (gets id);
  removed ← require (removed_row s source) (LifecycleError "RETIREMENT_CONFLICT");
  if bool_decide (tomb_credential_state removed = CR_REMOVED) then mret tt
  else
    let exclusive := exclusive_keys row (shared_refs s source) in
    raise_if (existsb (λ key, negb (owned_key key)) exclusive) (LifecycleError "SOURCE_CREDENTIAL_CLEANUP_PENDING");;
    if bool_decide (exclusive = []) then mret tt
    else
      cleaned ← call_cleanup cleanup exclusive;
      raise_if (bool_decide (cleaned = PBool false)) (LifecycleError "SOURCE_CREDENTIAL_CLEANUP_PENDING").

(** The request that executes the reviewed manifest. *)
Definition execute_request (r : retirement_row) (operation : N) (digest : pyval) : result exn remote_request :=
  archive ← plan_format_is 4 r; Ok (if (archive : bool) then ArchiveExecute operation digest else Execute operation digest).

Definition answered (text : string) (result : envelope) : bool := py_eqb (dget "status" (env_result result)) (PStr text).

(** [except ControlError]: a definite refusal of a dispatched mutation blocks,
    anything else is uncertain. *)
Definition refused (source : string) (operation : N) (actor : string) (dispatch : bool) (code : string) :
    M (cworld W) exn retirement_view :=
  in_journal (if dispatch && bool_decide (code ∈ DEFINITE_REFUSALS) then blocked source operation actor code
              else uncertain source operation actor
                     (if bool_decide (code = "RETIREMENT_SERVER_BUSY") then code else "RETIREMENT_UNCERTAIN"));;
  status source operation actor.

(** A part of the [try] block, under the value [dispatch] has there. *)
Definition attempt {A} (source : string) (operation : N) (actor : string) (dispatch : bool) (m : M (cworld W) exn A)
    (k : A → M (cworld W) exn (retirement_row + retirement_view)) : M (cworld W) exn (retirement_row + retirement_view) :=
  answer ← catch (a ← m; mret (inl a)) (λ e, match e with ControlError code => mret (inr code) | _ => raise e end);
  match answer with
  | inl a => k a
  | inr code => v ← refused source operation actor dispatch code; mret (inr v)
  end.

(** The answer is recorded: a success, or an outcome that stays uncertain. *)
Definition settle (source : string) (operation : N) (actor : string) (dispatch : bool) (result : envelope) :
    M (cworld W) exn (retirement_row + retirement_view) :=
  attempt source operation actor dispatch
    (if negb (answered "SUCCEEDED" result) then
       in_journal (uncertain source operation actor "RETIREMENT_UNCERTAIN");;
       v ← status source operation actor; mret (inr v)
     else
       r ← in_journal (resolve source operation actor (env_guard result) (env_result result)); mret (inl r))
    mret.

(** The [try] statement of [execute]. *)
Definition send (source : string) (operation : N) (actor : string) (digest : pyval) (resume : bool) (r : retirement_row)
    (dispatch : bool) : M (cworld W) exn (retirement_row + retirement_view) :=
  attempt source operation actor dispatch
    (q ← lift (if dispatch then execute_request r operation digest else Ok (Receipt operation)); call q)
    (λ result,
       if resume && negb dispatch && answered "REVIEWED" result then
         expected ← lift (plan_remote r);
         raise_if (negb (bool_decide (ret_guard_instance r = env_guard result)) || negb (py_eqb (PDict (env_result result)) expected))
           (LifecycleError "RETIREMENT_CONFLICT");;
         attempt source operation actor true (q ← lift (execute_request r operation digest); call q) (settle source operation actor true)
       else settle source operation actor dispatch result).

(** The checks before the local removal: whether the source is already removed,
    and its current revision. *)
Definition check_removal (source : string) (r : retirement_row) : DB (bool * string) :=
  atomic (
    source_gate source true false;;
    flags ← lift (py_item "source_flags" (PDict (ret_plan r)));
    archive ← lift (plan_format_is 4 r);
    checked ← Retirement.guard sha256 time_str isoformat source (ret_revision r) (Some flags) archive;
    let '(row, _, generation) := checked in
    recorded ← lift (py_item "removal_generation" (PDict (ret_plan r)));
    already ←
      (if negb (py_eqb generation recorded) then
         s ← gets id;
         raise_if (negb (bool_decide (is_Some (removed_row s source)))) (LifecycleError "RETIREMENT_CONFLICT");;
         mret true
       else
         match generation with
         | PNone => mret false
         | _ => restored ← lift (py_item "restored_at" generation); mret (bool_decide (restored = PNone))
         end) : DB bool;
    mret (already, revision sha256 time_str row)).

(** [UPDATE ... SET safe_code='SOURCE_CREDENTIAL_CLEANUP_PENDING'] and its status. *)
Definition hold_pending (source : string) (operation : N) (actor : string) : M (cworld W) exn retirement_view :=
  in_journal (cleanup_pending operation);; status source operation actor.

(** Local finalization of a retirement whose receipt is recorded. *)
Definition purge_local (source : string) (operation : N) (digest : pyval) (r : retirement_row) : M (cworld W) exn unit :=
  result ← call (PurgeLocal operation source digest);
  raise_if (negb (bool_decide (env_guard result = ret_guard_instance r)) ||
            negb (py_eqb (PDict (env_result result)) (PDict [("local_cleanup_verified", PBool true)]))) (LifecycleError "RETIREMENT_CONFLICT");;
  in_journal (cleanup_verified operation).

Definition close (source : string) (operation : N) (actor : string) : M (cworld W) exn retirement_view :=
  catch (in_journal (finalized schema source operation actor))
    (λ e, if bool_decide (e = LifecycleError "SOURCE_CREDENTIAL_CLEANUP_PENDING") then in_journal (cleanup_pending operation) else raise e);;
  status source operation actor.

Definition finish (source : string) (operation : N) (actor : string) (digest : pyval) (confirmed_source : string)
    (remove_credentials : pyval) (r : retirement_row) : M (cworld W) exn retirement_view :=
  receipt ← require (ret_receipt r) (OtherException "AttributeError" None);
  raise_if (negb (is_True (dget "generation_closed" receipt))) (LifecycleError "RETIREMENT_CONFLICT");;
  checked ← in_journal (check_removal source r);
  (if (checked.1 : bool) then mret tt
   else in_store (remove_locked sha256 time_str cleanup source checked.2 confirmed_source (truthy remove_credentials) (Some operation));; mret tt);;
  if negb (bool_decide (ret_remove_credentials r = Some true)) then hold_pending source operation actor
  else
    credential_state ← in_store (cleanup_credentials cleanup source);
    if bool_decide (credential_state = CR_CLEANUP_FAILED) then hold_pending source operation actor
    else
      full ← lift (plan_format_is 2 r);
      if (full : bool) then
        kept ← catch (in_store (finish_exclusive_credentials source);; mret None) (λ _, v ← hold_pending source operation actor; mret (Some v));
        match kept with
        | Some v => mret v
        | None => purge_local source operation digest r;; close source operation actor
        end
      else close source operation actor.

Definition consent_matches (r : retirement_row) (remove_credentials : pyval) : bool :=
  py_eqb (match ret_remove_credentials r with Some b => PBool b | None => PNone end) remove_credentials.

(** The record found before the dispatch: [Some] for an operation that is over. *)
Definition find_prior (source : string) (operation : N) (actor : string) (digest remove_credentials : pyval) (resume : bool) :
    M (cworld W) exn (option retirement_view) :=
  prior ← in_journal (record_of source operation actor);
  (if resume && bool_decide (ret_state prior = RT_BLOCKED) && bool_decide (ret_safe_code prior = Some "SOURCE_OPERATION_ACTIVE")
   then in_journal (resume_legacy_busy sha256 time_str isoformat source operation actor) else mret tt);;
  if bool_decide (ret_state prior = RT_FINALIZED) then
    remote ← lift (plan_remote prior);
    reviewed ← lift (py_item "digest" remote);
    raise_if (negb (py_eqb reviewed digest) || negb (consent_matches prior remove_credentials)) (LifecycleError "RETIREMENT_CONFLICT");;
    closed ← in_journal (gets (λ s, archived s source));
    raise_if (negb closed) (LifecycleError "SOURCE_ARCHIVE_REVIEW_REQUIRED");;
    v ← lift (public prior); mret (Some v)
  else mret None.

(** The receipt of a recorded success is read again; otherwise the request is
    sent. *)
Definition obtain (source : string) (operation : N) (actor : string) (digest : pyval) (resume : bool) (r : retirement_row)
    (dispatch : bool) : M (cworld W) exn (retirement_row + retirement_view) :=
  if bool_decide (ret_state r = RT_SUCCEEDED) then
    result ← call (Receipt operation);
    r' ← in_journal (resolve source operation actor (env_guard result) (env_result result));
    mret (inl r')
  else send source operation actor digest resume r dispatch.

(** What [execute] does with the record [begin] answered. *)
Definition proceed (source : string) (operation : N) (actor : string) (digest : pyval) (confirmed_source : string)
    (remove_credentials : pyval) (resume : bool) (r : retirement_row) (dispatch : bool) : M (cworld W) exn retirement_view :=
  if bool_decide (ret_state r = RT_BLOCKED) then lift (public r)
  else
    outcome ← obtain source operation actor digest resume r dispatch;
    match outcome with
    | inl r' => finish source operation actor digest confirmed_source remove_credentials r'
    | inr v => mret v
    end.

(** The body of [execute] under the lock. *)
Definition execute_locked (source : string) (operation : N) (actor : string) (digest : pyval) (confirmed_source : string)
    (remove_credentials : pyval) (resume : bool) : M (cworld W) exn retirement_view :=
  exists_ ← journaled operation;
  if negb exists_ then
    done_ ← completed source operation;
    raise_if (negb (py_eqb (vw_digest done_) digest) || negb (is_True remove_credentials)) (LifecycleError "RETIREMENT_CONFLICT");;
    mret done_
  else
    over ← find_prior source operation actor digest remove_credentials resume;
    match over with
    | Some v => mret v
    | None =>
        begun ← in_journal (begin sha256 time_str isoformat source operation actor digest confirmed_source remove_credentials);
        let '(r, dispatch) := begun in
        proceed source operation actor digest confirmed_source remove_credentials resume r dispatch
    end.

Definition execute (source : string) (operation : N) (actor : string) (digest : pyval) (confirmed_source : string)
    (remove_credentials resume : pyval) : M (cworld W) exn retirement_view :=
  match resume with
  | PBool b => store_lock (execute_locked source operation actor digest confirmed_source remove_credentials b)
  | _ => raise (LifecycleError "REQUEST_INVALID")
  end.

(** ** Every handler is a sequence of transactions of its own operation *)

Inductive coord_step (source : string) (operation : N) (s : db) : db → Prop :=
| cs_prepare actor revision instance remote :
    coord_step source operation s (prepare sha256 time_str isoformat source operation actor revision instance remote s).2
| cs_begin actor digest confirmed consent :
    coord_step source operation s (begin sha256 time_str isoformat source operation actor digest confirmed consent s).2
| cs_resume actor : coord_step source operation s (resume_legacy_busy sha256 time_str isoformat source operation actor s).2
| cs_uncertain actor code : coord_step source operation s (uncertain source operation actor code s).2
| cs_resolve actor instance receipt : coord_step source operation s (resolve source operation actor instance receipt s).2
| cs_blocked actor code : coord_step source operation s (blocked source operation actor code s).2
| cs_finalized actor : coord_step source operation s (finalized schema source operation actor s).2
| cs_pending : coord_step source operation s (cleanup_pending operation s).2
| cs_verified : coord_step source operation s (cleanup_verified operation s).2
| cs_remove revision name credentials :
    coord_step source operation s (remove_row sha256 time_str source revision name credentials (Some operation) s).2
| cs_credentials f : coord_step source operation s (on_source_tombstones (alter f source) s)
| cs_locks f : coord_step source operation s (on_session_locks f s).

Section Lifting.
Context (R : relation db) `{!PreOrder R}.

Definition on_lw (l l' : lworld) : Prop := R (lw_db l) (lw_db l').
Definition on_cw (w w' : cworld W) : Prop := R (cw_db w) (cw_db w').
#[export] Instance on_lw_preorder : PreOrder on_lw.
Proof. unfold on_lw. split; [intros ?; reflexivity|]. intros ? ? ? H1 H2. by etrans. Qed.
#[export] Instance on_cw_preorder : PreOrder on_cw.
Proof. unfold on_cw. split; [intros ?; reflexivity|]. intros ? ? ? H1 H2. by etrans. Qed.

Lemma moves_in_db {A} (m : DB A) l : moves R m (lw_db l) → moves on_lw (in_db m) l.
Proof. unfold moves, on_lw, in_db. by destruct (m (lw_db l)). Qed.
Lemma moves_in_store {A} (m : M lworld exn A) w : moves on_lw m (cw_store w) → moves on_cw (in_store m) w.
Proof. unfold moves, on_lw, on_cw, in_store, cw_db. by destruct (m (cw_store w)). Qed.
Lemma moves_in_journal {A} (m : DB A) w : moves R m (cw_db w) → moves on_cw (in_journal m) w.
Proof. intros H. by apply moves_in_store, moves_in_db. Qed.
Lemma moves_call q w : moves on_cw (call q) w.
Proof. unfold moves, on_cw, call, cw_db. destruct (remote_call q (cw_remote w)). simpl. reflexivity. Qed.

Lemma moves_store_lock {A} (body : M (cworld W) exn A) w :
  (∀ s f, R s (on_session_locks f s)) → (∀ w1, moves on_cw body w1) → moves on_cw (store_lock body) w.
Proof.
  intros Hl Hb. unfold store_lock. moves; [apply Hl|]. apply (moves_finally _); [apply Hb|]. intros. apply Hl.
Qed.

Lemma moves_attempt {A} source operation actor dispatch (m : M (cworld W) exn A) k w :
  moves on_cw m w → (∀ a w1, moves on_cw (k a) w1) → (∀ d code w1, moves on_cw (refused source operation actor d code) w1) →
  moves on_cw (attempt source operation actor dispatch m k) w.
Proof.
  intros Hm Hk Hr. unfold attempt. apply (moves_bind _).
  - apply (moves_catch _); [moves; done|]. intros e w1 _. destruct e; moves.
  - intros [a|code] w1 _; [apply Hk|by moves].
Qed.
End Lifting.

Abbreviation runs source operation := (on_cw (rtc (coord_step source operation))).

Lemma runs_journal {A} source operation (m : DB A) w :
  coord_step source operation (cw_db w) (m (cw_db w)).2 → moves (runs source operation) (in_journal m) w.
Proof. intros H. apply (moves_in_journal _), rtc_once, H. Qed.

Lemma runs_reads {A} source operation (m : DB A) w : moves eq m (cw_db w) → moves (runs source operation) (in_journal m) w.
Proof. unfold moves. intros H. apply (moves_in_journal _). unfold moves. by rewrite <-H. Qed.

Lemma read_reads source s : moves eq (read sha256 time_str source) s.
Proof. unfold read. db_moves. Qed.

Hint Extern 1 (moves (runs _ _) (in_journal (gets _)) _) => apply runs_reads; by db_moves : moves.
Hint Extern 1 (moves (runs _ _) (in_journal (record_of _ _ _)) _) => apply runs_reads; apply record_of_reads : moves.
Hint Extern 1 (moves (runs _ _) (call _) _) => apply (moves_call _) : moves.
Hint Extern 1 (moves (runs _ _) (in_journal _) _) => apply runs_journal; constructor : moves.

Lemma status_runs source operation actor w : moves (runs source operation) (status source operation actor) w.
Proof. unfold status, journaled, completed. moves. Qed.
Hint Resolve status_runs : moves.

Lemma refused_runs source operation actor dispatch code w :
  moves (runs source operation) (refused source operation actor dispatch code) w.
Proof. unfold refused. apply (moves_bind _); [|intros; apply status_runs]. destruct (_ && _); eauto with moves. Qed.

Lemma settle_runs source operation actor dispatch result w :
  moves (runs source operation) (settle source operation actor dispatch result) w.
Proof. unfold settle. apply (moves_attempt _); [moves|intros; moves|intros; apply refused_runs]. Qed.
Hint Resolve settle_runs refused_runs : moves.

Lemma send_runs source operation actor digest resume r dispatch w :
  moves (runs source operation) (send source operation actor digest resume r dispatch) w.
Proof.
  unfold send. apply (moves_attempt _); [by moves| |intros; apply refused_runs]. intros result w1. moves.
  apply (moves_attempt _); [by moves|intros; apply settle_runs|intros; apply refused_runs].
Qed.

Lemma check_removal_reads source r s : moves eq (check_removal source r) s.
Proof. unfold check_removal, source_gate. db_moves. apply guard_reads. Qed.

Lemma cleanup_runs source operation l :
  moves (on_lw (rtc (coord_step source operation))) (cleanup_credentials cleanup source) l.
Proof.
  assert (∀ f (m : DB unit) l1, m = modify (on_source_tombstones (alter f source)) →
    moves (on_lw (rtc (coord_step source operation))) (in_db m) l1) as Hset.
  { intros f m l1 ->. apply (moves_in_db _), rtc_once, cs_credentials. }
  unfold cleanup_credentials. apply (moves_bind _).
  - apply (moves_in_db _), (moves_atomic _). db_moves. apply rtc_once, cs_credentials.
  - intros [state|row] l1 _; moves; [|apply (moves_in_db _); by db_moves].
    apply (moves_catch _); [|intros; moves]. unfold clean_files, clean_state, call_cleanup.
    moves; [apply (moves_in_db _); by db_moves|]. unfold moves, on_lw. simpl. reflexivity.
Qed.

Lemma remove_runs source operation rev name rc l :
  moves (on_lw (rtc (coord_step source operation)))
    (remove_locked sha256 time_str cleanup source rev name rc (Some operation)) l.
Proof.
  unfold remove_locked. moves.
  - apply (moves_in_db _), rtc_once, cs_remove.
  - apply cleanup_runs.
  - apply (moves_in_db _). apply moves_reads; [apply _|apply read_reads].
Qed.

Lemma exclusive_runs source operation l :
  moves (on_lw (rtc (coord_step source operation))) (finish_exclusive_credentials source) l.
Proof.
  unfold finish_exclusive_credentials, journal_row. moves; try (apply (moves_in_db _); by db_moves).
  unfold moves, on_lw. simpl. reflexivity.
Qed.

Lemma close_runs source operation actor w : moves (runs source operation) (close source operation actor) w.
Proof. unfold close. moves. apply (moves_catch _); [eauto with moves|]. intros. by moves. Qed.
Hint Resolve close_runs : moves.

Lemma finish_runs source operation actor digest confirmed consent r w :
  moves (runs source operation) (finish source operation actor digest confirmed consent r) w.
Proof.
  unfold finish, hold_pending, purge_local. db_moves.
  - apply runs_reads, check_removal_reads.
  - apply (moves_in_store _), remove_runs.
  - apply (moves_in_store _), cleanup_runs.
  - apply (moves_catch _); [|intros; by moves]. moves. apply (moves_in_store _), exclusive_runs.
Qed.
Hint Resolve finish_runs send_runs : moves.

Lemma execute_locked_runs source operation actor digest confirmed consent resume w :
  moves (runs source operation) (execute_locked source operation actor digest confirmed consent resume) w.
Proof. unfold execute_locked, journaled, find_prior, completed, proceed, obtain. by db_moves. Qed.

(** The transactions of a coordinator call. *)
Lemma execute_runs source operation actor digest confirmed consent resume w :
  moves (runs source operation) (execute source operation actor digest confirmed consent resume) w.
Proof.
  unfold execute. destruct resume; moves. apply (moves_store_lock _); [intros; apply rtc_once, cs_locks|].
  intros. apply execute_locked_runs.
Qed.

Lemma review_runs source operation actor revision archive queued w :
  moves (runs source operation) (review source operation actor revision archive queued) w.
Proof.
  unfold review. apply (moves_store_lock _); [intros; apply rtc_once, cs_locks|]. intros w1. moves.
  apply runs_reads. unfold admit_review, source_gate. db_moves. apply guard_reads.
Qed.

Lemma coord_journal source operation s s' :
  coord_step source operation s s' → journal_step schema sha256 time_str isoformat s s'.
Proof. destruct 1; by econstructor. Qed.

Lemma coord_steps_journal source operation s s' :
  rtc (coord_step source operation) s s' → rtc (journal_step schema sha256 time_str isoformat) s s'.
Proof. apply rtc_subrel. by apply coord_journal. Qed.

(** ** Isolation *)

Ltac chain f :=
  match goal with A : others_kept _ ?s1 ?s2, B : others_kept _ ?s2 ?s3 |- _ =>
    etrans; [by apply (f _ _ _ B)|by apply (f _ _ _ A)] end.
#[export] Instance others_kept_preorder source : PreOrder (others_kept source).
Proof.
  split; [by split|]. intros s1 s2 s3 A B.
  split; intros; [chain ok_sources|chain ok_runs|chain ok_operations|chain ok_tombstones|chain ok_reservations|chain ok_recoveries|
    chain ok_intents|chain ok_verifications|chain ok_retirements|chain ok_reconciliations|chain ok_archives|chain ok_jobs|chain ok_requests|chain ok_audit|].
  transitivity (auth_state s2); [apply A|apply B].
Qed.

(** The journal is keyed by operation and this operation is of this source. *)
Record owns (source : string) (operation : N) (s : db) : Prop := {
  ow_keyed k r : source_retirements s !! k = Some r → ret_operation r = k;
  ow_own r : source_retirements s !! operation = Some r → ret_source r = source }.
Definition isolated (source : string) (operation : N) (s s' : db) : Prop :=
  owns source operation s → owns source operation s' ∧ others_kept source s s'.
#[export] Instance isolated_preorder source operation : PreOrder (isolated source operation).
Proof.
  split; [done|]. intros s1 s2 s3 A B H. destruct (A H) as [H2 K1]. destruct (B H2) as [H3 K2]. split; [done|]. by etrans.
Qed.

(** A statement that leaves the journal alone. *)
Lemma isolated_frame source operation s s' :
  source_retirements s' = source_retirements s → others_kept source s s' → isolated source operation s s'.
Proof. intros E H [H1 H2]. split; [|done]. split; by rewrite E. Qed.

Lemma update_isolated source operation f s :
  (∀ r, ret_operation (f r) = ret_operation r ∧ ret_source (f r) = ret_source r) →
  moves (isolated source operation) (update_retirement operation f) s.
Proof.
  intros Hf. unfold update_retirement. db_moves. intros [H1 H2]. split.
  - split; simpl.
    + intros k r. destruct (decide (k = operation)) as [->|]; [|rewrite lookup_alter_ne by done; by apply H1].
      rewrite lookup_alter_eq. intros (r0 & Hr0 & ->)%fmap_Some. rewrite (proj1 (Hf r0)). by apply H1.
    + intros r. rewrite lookup_alter_eq. intros (r0 & Hr0 & ->)%fmap_Some. rewrite (proj2 (Hf r0)). by apply H2.
  - split; try done. intros k r Hne. simpl. destruct (decide (k = operation)) as [->|]; [|by rewrite lookup_alter_ne].
    rewrite lookup_alter_eq, fmap_Some. split.
    + intros (r0 & Hr0 & ->). rewrite (proj2 (Hf r0)) in Hne. by destruct Hne; apply H2.
    + intros Hr. by destruct Hne; apply H2.
Qed.

(** A statement restricted to the rows of the source. *)
Lemma kept_sources f source s : others_kept source s (on_sources (alter f source) s).
Proof. split; try done. intros k Hk. simpl. by rewrite lookup_alter_ne. Qed.
Lemma kept_update {K A} `{Countable K} (P : K → A → bool) (f : A → A) (owner : A → string) source (t : gmap K A) k a :
  (∀ k a, P k a = true → owner a = source) → (∀ a, owner (f a) = owner a) → owner a ≠ source →
  update_where P f t !! k = Some a ↔ t !! k = Some a.
Proof.
  intros HP Hf Hne. rewrite lookup_update_where, fmap_Some. split.
  - intros (a0 & Ha0 & ->). destruct (P k a0) eqn:E; [|done]. apply HP in E. rewrite Hf in Hne. done.
  - intros Ha. exists a. split; [done|]. destruct (P k a) eqn:E; [|done]. by apply HP in E.
Qed.

(** The update of the record a handler read. *)
Lemma update_read_isolated source operation r f s :
  (∀ r, ret_operation (f r) = ret_operation r ∧ ret_source (f r) = ret_source r) →
  source_retirements s !! operation = Some r → moves (isolated source operation) (update_retirement (ret_operation r) f) s.
Proof.
  intros Hf Hr H. pose proof (ow_keyed _ _ _ H _ _ Hr) as E. revert H. rewrite E. by apply update_isolated.
Qed.

Ltac isolate :=
  db_moves;
  try (by apply isolated_frame; [|split]);
  try (by apply isolated_frame; [|apply kept_sources]);
  repeat match goal with
  | H : record_of _ _ _ _ = (Ok _, _) |- _ => apply record_of_Ok in H as (-> & ? & ? & ?)
  | H : Retirement.guard _ _ _ _ _ _ _ _ = (Ok _, _) |- _ => apply guard_Ok in H as (-> & ? & ?)
  | H : source_gate _ _ _ _ = (Ok _, _) |- _ => apply source_gate_Ok in H as ->
  | H : admission_lock _ _ = (Ok _, _) |- _ => apply admission_lock_Ok in H as [-> ?]
  end; simpl in *; try (solve [apply update_read_isolated; [done|by simpl]]).

Hint Extern 0 (moves ?R (Retirement.guard _ _ _ _ _ _ _) _) => apply (moves_guard _ _ _ R) : moves.
Hint Extern 0 (moves ?R (record_of _ _ _) _) => apply (moves_record R) : moves.
Hint Extern 0 (moves ?R (source_gate _ _ _) _) => apply (moves_gate R) : moves.
Hint Extern 0 (moves ?R (returning _) _) => apply (moves_returning R) : moves.
Hint Extern 0 (moves ?R (admission_lock _) _) => apply (moves_admission _ R) : moves.

Lemma prepare_isolated source operation actor revision instance remote s :
  moves (isolated source operation) (prepare sha256 time_str isoformat source operation actor revision instance remote) s.
Proof.
  unfold prepare. isolate. intros [Kk Ko]. split.
  - split; simpl; [intros k r; rewrite lookup_insert_Some; intros [[<- <-]|[_ ?]]; eauto|].
    intros r. rewrite lookup_insert_eq. by intros [= <-].
  - split; try done. intros k r Hne. simpl. rewrite lookup_insert_Some. naive_solver.
Qed.

Lemma supersede_isolated P source operation by_operation s :
  (∀ k o, P k o = true → ret_source o = source) →
  isolated source operation s (on_source_retirements (update_where P (set_superseded by_operation)) s).
Proof.
  intros HP [H1 H2]. split.
  - split; simpl; [intros k r|intros r]; rewrite lookup_update_where; intros (r0 & Hr0 & ->)%fmap_Some; destruct (P _ r0); simpl; eauto.
  - split; try done. intros k o Hne. simpl. by apply (kept_update _ _ ret_source source).
Qed.

Lemma dispatch_isolated source operation r consent s :
  source_retirements s !! operation = Some r → ret_source r = source → ret_state r = RT_READY →
  moves (isolated source operation) (dispatch source r consent) s.
Proof.
  intros Hr Hs Hst. unfold dispatch, disable_source. isolate.
  - apply supersede_isolated. intros k o E. by inv_bool.
  - apply isolated_frame; [done|]. split; try done. intros k c Hne. simpl.
    apply (kept_update _ _ rec_source (ret_source r)); [intros ? ? E; by inv_bool|done|done].
  - apply update_read_isolated; [done|]. simpl.
    match goal with H : (if _ then modify _ else _) _ = _ |- _ => apply if_Ok in H as [[_ ->%modify_Ok]|[_ [_ ->]%ret_Ok]] end; [|done].
    simpl. rewrite lookup_update_where, Hr. simpl. rewrite Hst. by rewrite andb_false_r.
Qed.

Lemma begin_isolated source operation actor digest confirmed consent s :
  moves (isolated source operation) (begin sha256 time_str isoformat source operation actor digest confirmed consent) s.
Proof.
  unfold begin. destruct consent; try (by db_moves). isolate.
  - inv_bool. by apply dispatch_isolated.
  - unfold extend_consent. isolate.
Qed.

Lemma transitions_isolated source operation actor code instance receipt s :
  moves (isolated source operation) (resume_legacy_busy sha256 time_str isoformat source operation actor) s ∧
  moves (isolated source operation) (uncertain source operation actor code) s ∧
  moves (isolated source operation) (resolve source operation actor instance receipt) s ∧
  moves (isolated source operation) (blocked source operation actor code) s.
Proof. split_and!; [unfold resume_legacy_busy|unfold uncertain|unfold resolve|unfold blocked]; isolate. Qed.


Lemma close_generation_isolated operation r s : moves (isolated (ret_source r) operation) (close_generation r) s.
Proof.
  unfold close_generation, insert_archive. isolate; (apply isolated_frame; [done|]); split; try done; simpl.
  - intros k Hk. by rewrite lookup_insert_ne.
  - intros [k1 k2] h Hne. simpl in *. rewrite lookup_update_where, fmap_Some. simpl.
    rewrite bool_decide_eq_false_2 by done. naive_solver.
  - intros k o Hne. apply (kept_update _ _ op_source (ret_source r)); [intros ? ? E; by inv_bool|done|done].
Qed.

Lemma purge_isolated source operation by_operation actor s :
  moves (isolated source operation) (purge_retired_source schema source by_operation actor) s.
Proof.
  unfold moves. destruct (purge_retired_source schema source by_operation actor s) as [[u|e] s'] eqn:E; simpl.
  - apply purge_Ok in E as (_ & He & Hk & _). intros [Kk Ko].
    assert (∀ k r, source_retirements s' !! k = Some r → source_retirements s !! k = Some r) as Hsub.
    { intros k r Hr. by apply (ok_retirements _ _ _ Hk); [apply (er_retirements _ _ He k)|]. }
    split; [|done]. split; eauto.
  - apply purge_Err in E as ->. reflexivity.
Qed.

Lemma finalized_isolated source operation actor s : moves (isolated source operation) (finalized schema source operation actor) s.
Proof.
  unfold finalized. isolate; try apply purge_isolated.
  - match goal with H : ret_source _ = _ |- _ => rewrite <-H end. apply close_generation_isolated.
  - match goal with H : close_generation _ _ = (Ok _, _) |- _ => apply close_generation_Ok in H as (_ & _ & E & _) end.
    apply update_read_isolated; [done|]. by rewrite E.
Qed.

Lemma coord_step_isolated source operation s s' : coord_step source operation s s' → isolated source operation s s'.
Proof.
  destruct 1.
  - apply prepare_isolated.
  - apply begin_isolated.
  - apply (transitions_isolated source operation actor "" 0 [] s).
  - apply (transitions_isolated source operation actor code 0 [] s).
  - apply (transitions_isolated source operation actor "" instance receipt s).
  - apply (transitions_isolated source operation actor code 0 [] s).
  - apply finalized_isolated.
  - apply (moves_atomic _), update_isolated. done.
  - apply (moves_atomic _), update_isolated. done.
  - unfold remove_row, disable_source. change (moves (isolated source operation)
      (remove_row sha256 time_str source revision name credentials (Some operation)) s). unfold remove_row, disable_source. isolate.
    apply isolated_frame; [done|]. split; try done. intros k Hk. simpl. by rewrite lookup_insert_ne.
  - apply isolated_frame; [done|]. split; try done. intros k Hk. simpl. by rewrite lookup_alter_ne.
  - by apply isolated_frame; [|split].
Qed.

Lemma coord_steps_isolated source operation s s' : rtc (coord_step source operation) s s' → isolated source operation s s'.
Proof. induction 1; [done|]. etrans; [by apply coord_step_isolated|done]. Qed.

(** ** The exchanges of a call *)

(** Further exchanges, none of them a mutation. *)
Definition quiet (w w' : cworld W) : Prop :=
  ∃ new, cw_log w' = (cw_log w ++ new)%list ∧ ∀ x, x ∈ new → mutates (ex_request x) = false.
#[export] Instance quiet_preorder : PreOrder quiet.
Proof.
  split.
  - intros w. exists []. rewrite app_nil_r. split; [done|]. by intros ? ?%elem_of_nil.
  - intros w1 w2 w3 (n1 & E1 & H1) (n2 & E2 & H2). exists (n1 ++ n2)%list. rewrite E2, E1, (assoc_L (++)). split; [done|].
    intros x [?|?]%elem_of_app; auto.
Qed.

Lemma in_store_quiet {A} (m : M lworld exn A) w : moves quiet (in_store m) w.
Proof. unfold moves, in_store. destruct (m (cw_store w)). simpl. exists []. rewrite app_nil_r. split; [done|]. by intros ? ?%elem_of_nil. Qed.
Lemma in_journal_quiet {A} (m : DB A) w : moves quiet (in_journal m) w.
Proof. apply in_store_quiet. Qed.
Lemma call_quiet q w : mutates q = false → moves quiet (call q) w.
Proof.
  intros Hq. unfold moves, call. destruct (remote_call q (cw_remote w)). simpl. eexists. split; [done|].
  by intros x ->%list_elem_of_singleton.
Qed.
Hint Resolve in_store_quiet in_journal_quiet : moves.
Hint Extern 1 (moves quiet (call _) _) => apply call_quiet; reflexivity : moves.

Lemma status_quiet source operation actor w : moves quiet (status source operation actor) w.
Proof. unfold status, journaled, completed. moves. Qed.
Hint Resolve status_quiet : moves.
Lemma refused_quiet source operation actor dispatch code w : moves quiet (refused source operation actor dispatch code) w.
Proof. unfold refused. moves. Qed.
Hint Resolve refused_quiet : moves.

Lemma attempt_cases {A} source operation actor dispatch (m : M (cworld W) exn A) k w res w' :
  attempt source operation actor dispatch m k w = (res, w') →
  (∃ a w1, m w = (Ok a, w1) ∧ k a w1 = (res, w')) ∨
  (∃ code w1, m w = (Err (ControlError code), w1) ∧ quiet w1 w') ∨ (∃ e, m w = (Err e, w') ∧ res = Err e).
Proof.
  unfold attempt. intros H. apply bind_cases in H as [(e & H & ->)|(answer & w1 & H & Hk)].
  - right; right. unfold catch, mbind at 1, M_bind at 1 in H. destruct (m w) as [[a|e'] w1] eqn:E; [done|].
    exists e. destruct e'; try done; by injection H as <- <-.
  - unfold catch, mbind at 1, M_bind at 1 in H. destruct (m w) as [[a|e'] w2] eqn:E.
    + injection H as <- <-. left. eauto.
    + destruct e'; try done. injection H as <- <-. right; left. eexists _, _. split; [done|].
      match type of Hk with ?mk w2 = _ => assert (moves quiet mk w2) as Hq by moves end.
      unfold moves in Hq. by rewrite Hk in Hq.
Qed.

Lemma settle_quiet source operation actor dispatch result w : moves quiet (settle source operation actor dispatch result) w.
Proof.
  unfold moves, settle. destruct (attempt _ _ _ _ _ _ w) as [res w'] eqn:E. simpl.
  match type of E with attempt _ _ _ _ ?m _ _ = _ => assert (moves quiet m w) as Hq by moves; unfold moves in Hq end.
  apply attempt_cases in E as [(a & w1 & E & [= _ <-])|[(code & w1 & E & H)|(e & E & _)]]; rewrite E in Hq; [done| |done].
  by etrans.
Qed.

(** The receipt that lets a dispatched operation be sent again: the guard still
    has the reviewed intent of this operation, unexecuted and unchanged. *)
Definition intent_intact (operation : N) (r : retirement_row) (x : exchange W) : Prop :=
  ex_request x = Receipt operation ∧ ∃ env expected, ex_answer x = Ok env ∧ answered "REVIEWED" env = true ∧
    env_guard env = ret_guard_instance r ∧ plan_remote r = Ok expected ∧ py_eqb (PDict (env_result env)) expected = true.

(** What may be sent on behalf of a record: at most one mutation, the execution of
    its own plan, at once after the dispatch or after an intact intent was read. *)
Record sends (operation : N) (digest : pyval) (resume dispatch : bool) (r : retirement_row) (s : db) (new : list (exchange W)) : Prop := {
  sd_once : (length (filter (λ x, mutates (ex_request x) = true) new) ≤ 1)%nat;
  sd_each x : x ∈ new → mutates (ex_request x) = true →
    ex_db x = s ∧ execute_request r operation digest = Ok (ex_request x) ∧
    (dispatch = true ∨ (resume = true ∧ ∃ y, y ∈ new ∧ intent_intact operation r y)) }.

Lemma sends_none operation digest resume dispatch r s new :
  (∀ x, x ∈ new → mutates (ex_request x) = false) → sends operation digest resume dispatch r s new.
Proof.
  intros H. split.
  - rewrite filter_none; [simpl; lia|]. intros x Hx. by rewrite H.
  - intros x Hx. by rewrite H.
Qed.

Lemma sends_app operation digest resume dispatch r s n1 n2 :
  sends operation digest resume dispatch r s n1 → (∀ x, x ∈ n2 → mutates (ex_request x) = false) →
  sends operation digest resume dispatch r s (n1 ++ n2)%list.
Proof.
  intros [H1 H2] Hq. split.
  - rewrite filter_app, (filter_none _ n2), app_nil_r; [done|]. intros x Hx. by rewrite Hq.
  - intros x [Hx|Hx]%elem_of_app Hm; [|by rewrite Hq in Hm]. destruct (H2 x Hx Hm) as (? & ? & [?|(? & y & ? & ?)]); split_and!; auto.
    right. split; [done|]. exists y. split; [apply elem_of_app; by left|done].
Qed.

Lemma call_log q w r w1 :
  call q w = (r, w1) →
  cw_log w1 = (cw_log w ++ [mkExchange (cw_db w) q r (cw_remote w) (cw_remote w1)])%list ∧ cw_store w1 = cw_store w ∧
  remote_call q (cw_remote w) = (r, cw_remote w1).
Proof. unfold call. destruct (remote_call q (cw_remote w)) eqn:E. by intros [= <- <-]. Qed.

(** The second part of [send]: the resumed mutation. *)
Lemma resend_log source operation actor digest r w res w' :
  attempt source operation actor true (q ← lift (execute_request r operation digest); call q) (settle source operation actor true) w = (res, w') →
  ∃ new, cw_log w' = (cw_log w ++ new)%list ∧
    (length (filter (λ x, mutates (ex_request x) = true) new) ≤ 1)%nat ∧
    ∀ x, x ∈ new → mutates (ex_request x) = true → ex_db x = cw_db w ∧ execute_request r operation digest = Ok (ex_request x).
Proof.
  intros H.
  assert (∀ q a w1, execute_request r operation digest = Ok q → call q w = (a, w1) → quiet w1 w' →
    ∃ new, cw_log w' = (cw_log w ++ new)%list ∧ (length (filter (λ x, mutates (ex_request x) = true) new) ≤ 1)%nat ∧
    ∀ x, x ∈ new → mutates (ex_request x) = true → ex_db x = cw_db w ∧ execute_request r operation digest = Ok (ex_request x)) as Hone.
  { intros q a w1 Hq (El & _ & _)%call_log (n & En & Hn). exists (mkExchange (cw_db w) q a (cw_remote w) (cw_remote w1) :: n). rewrite En, El, <-(assoc_L (++)). split; [done|].
    split.
    - rewrite filter_cons, (filter_none _ n); [by case_decide; simpl; lia|]. intros x Hx. by rewrite Hn.
    - intros x [->|Hx]%elem_of_cons Hm; [done|]. by rewrite Hn in Hm. }
  apply attempt_cases in H as [(env & w1 & H & Hk)|[(code & w1 & H & Hq)|(e & H & _)]].
  - apply bind_Ok in H as (q & ? & [Hq ->]%lift_Ok & H). eapply Hone; [done|done|].
    pose proof (settle_quiet source operation actor true env w1) as Hs. unfold moves in Hs. by rewrite Hk in Hs.
  - apply bind_cases in H as [(e & H & He)|(q & ? & [Hq' ->]%lift_Ok & H)]; [|by eapply Hone].
    injection H as _ <-. destruct Hq as (n & En & Hn). exists n. split; [done|].
    split; [rewrite filter_none; [simpl; lia|]; intros x Hx; by rewrite Hn|]. intros x Hx. by rewrite Hn.
  - apply bind_cases in H as [(e' & H & He)|(q & ? & [Hq' ->]%lift_Ok & H)]; [|eapply Hone; [done|done|reflexivity]].
    injection H as H <-. exists []. rewrite app_nil_r. split; [done|]. split; [simpl; lia|]. by intros x ?%elem_of_nil.
Qed.

Lemma send_log source operation actor digest resume r dispatch w res w' :
  send source operation actor digest resume r dispatch w = (res, w') →
  ∃ new, cw_log w' = (cw_log w ++ new)%list ∧ sends operation digest resume dispatch r (cw_db w) new.
Proof.
  intros H. unfold send in H.
  set (first := if dispatch then execute_request r operation digest else Ok (Receipt operation)) in *.
  assert (∀ q a w1, first = Ok q → call q w = (a, w1) → quiet w1 w' →
    ∃ new, cw_log w' = (cw_log w ++ new)%list ∧ sends operation digest resume dispatch r (cw_db w) new) as Hone.
  { intros q a w1 Hq (El & _ & _)%call_log (n & En & Hn). exists ([mkExchange (cw_db w) q a (cw_remote w) (cw_remote w1)] ++ n)%list. rewrite En, El, <-(assoc_L (++)).
    split; [done|]. apply sends_app; [|done]. unfold first in Hq. destruct dispatch.
    - split; [rewrite filter_cons; case_decide; simpl; lia|]. intros x ->%list_elem_of_singleton _. auto.
    - injection Hq as <-. apply sends_none. by intros x ->%list_elem_of_singleton. }
  apply attempt_cases in H as [(env & w1 & H & Hk)|[(code & w1 & H & Hq)|(e & H & _)]].
  - apply bind_Ok in H as (q & ? & [Hq ->]%lift_Ok & H). destruct (_ && _) eqn:Ec.
    + inv_bool. subst dispatch. injection Hq as <-. pose proof H as (El & Es & _)%call_log.
      apply bind_cases in Hk as [(e & Hk & _)|(expected & ? & [Hp ->]%lift_Ok & Hk)].
      { injection Hk as _ <-. eapply Hone; [done|done|reflexivity]. }
      apply bind_cases in Hk as [(e & Hk & _)|([] & ? & [Hg ->]%raise_if_Ok & Hk)].
      { unfold raise_if in Hk. destruct (_ || _); [|done]. injection Hk as _ <-. eapply Hone; [done|done|reflexivity]. }
      apply resend_log in Hk as (n & En & Hlen & Hn). exists ([mkExchange (cw_db w) (Receipt operation) (Ok env) (cw_remote w) (cw_remote w1)] ++ n)%list.
      rewrite En, El, <-(assoc_L (++)). split; [done|]. inv_bool. split; [by rewrite filter_app|].
      intros x [->%list_elem_of_singleton|Hx]%elem_of_app Hm; [done|]. destruct (Hn x Hx Hm) as [E1 E2]. split_and!; [|done|].
      * rewrite E1. unfold cw_db. by rewrite Es.
      * right. split; [done|]. eexists. split; [apply elem_of_app; left; by apply list_elem_of_singleton|].
        split; [done|]. by exists env, expected.
    + eapply Hone; [done|done|]. pose proof (settle_quiet source operation actor dispatch env w1) as Hs.
      unfold moves in Hs. by rewrite Hk in Hs.
  - apply bind_cases in H as [(e & H & He)|(q & ? & [Hq' ->]%lift_Ok & H)]; [|by eapply Hone].
    injection H as _ <-. destruct Hq as (n & En & Hn). exists n. split; [done|]. by apply sends_none.
  - apply bind_cases in H as [(e' & H & He)|(q & ? & [Hq' ->]%lift_Ok & H)]; [|eapply Hone; [done|done|reflexivity]].
    injection H as _ <-. exists []. rewrite app_nil_r. split; [done|]. apply sends_none. by intros x ?%elem_of_nil.
Qed.

Lemma close_quiet source operation actor w : moves quiet (close source operation actor) w.
Proof. unfold close. moves. apply (moves_catch _); [moves|]. intros. by moves. Qed.
Hint Resolve close_quiet : moves.

Lemma finish_quiet source operation actor digest confirmed consent r w :
  moves quiet (finish source operation actor digest confirmed consent r) w.
Proof.
  unfold finish, hold_pending, purge_local. db_moves. apply (moves_catch _); [by moves|]. intros. by moves.
Qed.

(** ** The durable intent *)

(** The record [begin] answers with is the one it left, with the reviewed plan. *)
Record begun (source : string) (operation : N) (actor : string) (digest : pyval) (s : db) (r' : retirement_row) (dispatch : bool)
    (s' : db) : Prop := {
  bg_found : ∃ r, source_retirements s !! operation = Some r ∧ ret_source r = source ∧ ret_actor r = actor ∧
    ret_plan r' = ret_plan r ∧ (if dispatch then ret_state r = RT_READY ∧ ret_state r' = RT_SENDING
                                else ret_state r ≠ RT_READY ∧ ret_state r' = ret_state r);
  bg_saved : source_retirements s' !! operation = Some r';
  bg_own : ret_source r' = source ∧ ret_actor r' = actor;
  bg_digest : ∃ remote reviewed, plan_remote r' = Ok remote ∧ py_item "digest" remote = Ok reviewed ∧ py_eqb reviewed digest = true;
  bg_locks : session_locks s' = session_locks s }.

Lemma update_returning operation f s r s' :
  (update_retirement operation f ≫= λ _, returning operation) s = (Ok r, s') →
  ∃ r0, source_retirements s !! operation = Some r0 ∧ r = f r0 ∧ s' = on_source_retirements (alter f operation) s.
Proof.
  unfold update_retirement, returning. intros H. inv_m. simpl in *.
  match goal with H : alter _ _ _ !! _ = Some _ |- _ => rewrite lookup_alter_eq in H; apply fmap_Some in H as (r0 & Hr0 & ->) end.
  by exists r0.
Qed.

Lemma dispatch_Ok source r consent s r' s' :
  source_retirements s !! ret_operation r = Some r → ret_state r = RT_READY →
  dispatch source r consent s = (Ok r', s') →
  r' = set_sending consent r ∧ source_retirements s' !! ret_operation r = Some r' ∧ session_locks s' = session_locks s.
Proof.
  intros Hr Hst H. unfold dispatch, disable_source in H. apply bind_Ok in H as (? & ? & [-> ->]%gets_Ok & H).
  apply bind_Ok in H as (archive & ? & [_ ->]%lift_Ok & H). apply bind_Ok in H as ([] & ? & [_ ->]%raise_if_Ok & H).
  apply bind_Ok in H as ([] & s1 & Hsup & H).
  assert (source_retirements s1 !! ret_operation r = Some r ∧ session_locks s1 = session_locks s) as [Hr1 El].
  { apply if_Ok in Hsup as [[_ ->%modify_Ok]|[_ [_ ->]%ret_Ok]]; [|done]. simpl. split; [|done].
    rewrite lookup_update_where, Hr. simpl. rewrite Hst. by rewrite andb_false_r. }
  apply bind_Ok in H as (now & ? & Hc & H). injection Hc as <- <-. apply bind_Ok in H as ([] & ? & ->%modify_Ok & H).
  apply bind_Ok in H as ([] & ? & ->%modify_Ok & H). apply update_returning in H as (r0 & Hr0 & -> & ->). simpl in *.
  rewrite Hr1 in Hr0. injection Hr0 as <-. rewrite lookup_alter_eq, Hr1. done.
Qed.

Lemma extend_consent_Ok r consent s r' s' :
  source_retirements s !! ret_operation r = Some r → extend_consent r consent s = (Ok r', s') →
  (r' = r ∨ r' = set_consent r) ∧ source_retirements s' !! ret_operation r = Some r' ∧ session_locks s' = session_locks s.
Proof.
  intros Hr H. unfold extend_consent in H. apply if_Ok in H as [[_ [-> ->]%ret_Ok]|[_ H]]; [auto|].
  apply bind_Ok in H as ([] & ? & [_ ->]%raise_if_Ok & H). apply update_returning in H as (r0 & Hr0 & -> & ->). simpl.
  rewrite Hr in Hr0. injection Hr0 as <-. rewrite lookup_alter_eq, Hr. auto.
Qed.

Lemma begin_Ok source operation actor digest confirmed consent s r' dispatch s' :
  journal_ok s → begin sha256 time_str isoformat source operation actor digest confirmed consent s = (Ok (r', dispatch), s') →
  begun source operation actor digest s r' dispatch s'.
Proof.
  intros Hok H. destruct consent as [|consent| | | |]; try done. unfold begin in H. rewrite atomic_Ok in H.
  apply bind_Ok in H as ([] & ? & ->%source_gate_Ok & H). apply bind_Ok in H as (r & ? & (-> & Hr & Hs & Ha)%record_of_Ok & H).
  pose proof (jo_keyed _ Hok _ _ Hr) as Hkey. apply bind_Ok in H as ([] & ? & [_ ->]%raise_if_Ok & H).
  apply bind_Ok in H as (flags & ? & [_ ->]%lift_Ok & H). apply bind_Ok in H as (archive & ? & [_ ->]%lift_Ok & H).
  apply bind_Ok in H as ([[row c] g] & ? & (-> & _ & _)%guard_Ok & H). apply bind_Ok in H as (remote & ? & [Hrem ->]%lift_Ok & H).
  apply bind_Ok in H as (reviewed & ? & [Hrev ->]%lift_Ok & H). apply bind_Ok in H as ([] & ? & [Hd ->]%raise_if_Ok & H).
  apply bind_Ok in H as (changed & ? & [_ ->]%lift_Ok & H). apply bind_Ok in H as ([] & ? & [_ ->]%raise_if_Ok & H).
  apply bind_Ok in H as ([] & ? & [_ ->]%raise_if_Ok & H). inv_bool.
  apply if_Ok in H as [[Hst H]|[Hst H]]; apply bind_Ok in H as (r1 & s1 & H & [E ->]%ret_Ok); injection E as -> ->; inv_bool.
  - apply dispatch_Ok in H as (-> & Hr' & El); [|by rewrite Hkey|done]. rewrite Hkey in Hr'. split; try done; [exists r; done|].
    exists remote, reviewed. done.
  - apply extend_consent_Ok in H as (Hr1 & Hr' & El); [|by rewrite Hkey]. rewrite Hkey in Hr'.
    assert (ret_plan r1 = ret_plan r ∧ ret_state r1 = ret_state r ∧ ret_source r1 = ret_source r ∧ ret_actor r1 = ret_actor r) as (Ep & Est & Es & Ea)
      by (by destruct Hr1 as [-> | ->]).
    split; try done.
    + exists r. done.
    + split; congruence.
    + exists remote, reviewed. unfold plan_remote in *. by rewrite Ep.
Qed.

(** What the steps before the dispatch leave of the journal. *)
Definition prelude_ok (s s' : db) : Prop :=
  journal_ok s → journal_ok s' ∧ grows s s' ∧ session_locks s' = session_locks s.
#[export] Instance prelude_ok_preorder : PreOrder prelude_ok.
Proof.
  split; [by intros s Hok|]. intros s1 s2 s3 A B Hok. destruct (A Hok) as (H2 & G1 & L1). destruct (B H2) as (H3 & G2 & L2).
  split_and!; [done|by etrans|congruence].
Qed.

Lemma resume_prelude source operation actor s :
  moves prelude_ok (resume_legacy_busy sha256 time_str isoformat source operation actor) s.
Proof.
  intros Hok. split_and!.
  - by apply resume_ok.
  - by apply (transitions_grow sha256 time_str isoformat source operation actor "" 0 [] s Hok).
  - assert (moves (λ s s', session_locks s' = session_locks s) (resume_legacy_busy sha256 time_str isoformat source operation actor) s) as H;
      [|exact H].
    assert (PreOrder (λ s s' : db, session_locks s' = session_locks s)) by (split; [done|intros ? ? ? ? ?; congruence]).
    unfold resume_legacy_busy, update_retirement. db_moves; done.
Qed.

Lemma find_prior_moves source operation actor digest consent resume w :
  moves (on_cw prelude_ok) (find_prior source operation actor digest consent resume) w ∧
  moves quiet (find_prior source operation actor digest consent resume) w.
Proof.
  split; unfold find_prior; [|by moves].
  assert (∀ A (m : DB A) w1, moves eq m (cw_db w1) → moves (on_cw prelude_ok) (in_journal m) w1) as Hread.
  { intros A m w1 H. apply (moves_in_journal _). by apply moves_reads; [apply _|]. }
  moves; try (apply Hread; first [apply record_of_reads|by db_moves]). apply (moves_in_journal _), resume_prelude.
Qed.

Lemma still_ready s s' k r : grows s s' → source_retirements s' !! k = Some r → ret_state r = RT_READY →
  is_Some (source_retirements s !! k) → state_of s k = Some RT_READY.
Proof.
  intros Hg Hr Hst [r0 Hr0]. destruct (Hg _ _ Hr0) as (r1 & Hr1 & He). rewrite Hr in Hr1. injection Hr1 as <-.
  pose proof (evo_state _ _ He) as Hm. rewrite Hst in Hm. unfold state_of. rewrite Hr0. simpl. f_equal.
  by destruct (ret_state r0).
Qed.

(** The mutation that may be sent on behalf of an operation. *)
Record authorized (source : string) (operation : N) (actor : string) (digest : pyval) (resume : bool) (s : db) (new : list (exchange W))
    (x : exchange W) : Prop := {
  au_record : ∃ r remote reviewed, source_retirements (ex_db x) !! operation = Some r ∧ ret_source r = source ∧ ret_actor r = actor ∧
    dispatched r = true ∧ execute_request r operation digest = Ok (ex_request x) ∧
    plan_remote r = Ok remote ∧ py_item "digest" remote = Ok reviewed ∧ py_eqb reviewed digest = true ∧
    (state_of s operation = Some RT_READY ∨ (resume = true ∧ ∃ y, y ∈ new ∧ intent_intact operation r y));
  au_disabled : disabled (ex_db x) source;
  au_locked : lock_path ∈ session_locks (ex_db x) }.

Definition authorized_log source operation actor digest resume (s : db) (new : list (exchange W)) : Prop :=
  (length (filter (λ x, mutates (ex_request x) = true) new) ≤ 1)%nat ∧
  ∀ x, x ∈ new → mutates (ex_request x) = true → authorized source operation actor digest resume s new x.

Lemma quiet_authorized source operation actor digest resume s w w' :
  quiet w w' → ∃ new, cw_log w' = (cw_log w ++ new)%list ∧ authorized_log source operation actor digest resume s new.
Proof.
  intros (new & E & H). exists new. split; [done|]. split.
  - rewrite filter_none; [simpl; lia|]. intros x Hx. by rewrite H.
  - intros x Hx. by rewrite H.
Qed.

Lemma authorized_log_app source operation actor digest resume s n1 n2 n3 :
  (∀ x, x ∈ n1 → mutates (ex_request x) = false) → authorized_log source operation actor digest resume s n2 →
  (∀ x, x ∈ n3 → mutates (ex_request x) = false) → authorized_log source operation actor digest resume s (n1 ++ n2 ++ n3)%list.
Proof.
  intros H1 [Hl H2] H3. split.
  - rewrite !filter_app, (filter_none _ n1), (filter_none _ n3), app_nil_r; [done|..]; intros x Hx; [by rewrite H3|by rewrite H1].
  - intros x Hx Hm. assert (x ∈ n2) as Hx2.
    { apply elem_of_app in Hx as [Hx|[Hx|Hx]%elem_of_app]; [by rewrite H1 in Hm|done|by rewrite H3 in Hm]. }
    destruct (H2 x Hx2 Hm) as [(r & remote & reviewed & ? & ? & ? & ? & ? & ? & ? & ? & Hwhy) Hd Hk]. split; [|done|done].
    exists r, remote, reviewed. split_and!; try done. destruct Hwhy as [?|(? & y & Hy & ?)]; [by left|right]. split; [done|].
    exists y. split; [|done]. rewrite !elem_of_app. auto.
Qed.

Lemma in_journal_Ok {A} (m : DB A) w a w' :
  in_journal m w = (Ok a, w') → ∃ s, m (cw_db w) = (Ok a, s) ∧ cw_db w' = s.
Proof.
  unfold in_journal, in_store, in_db, cw_db. destruct (m (lw_db (cw_store w))) as [r s]. intros [= -> <-]. eauto.
Qed.

Lemma find_prior_open source operation actor digest consent resume w w1 :
  journal_ok (cw_db w) → find_prior source operation actor digest consent resume w = (Ok None, w1) →
  ∀ r, source_retirements (cw_db w1) !! operation = Some r → ret_state r ≠ RT_FINALIZED.
Proof.
  unfold find_prior. intros Hok H. apply bind_Ok in H as (prior & w2 & (s & (-> & Hr & _)%record_of_Ok & Es)%in_journal_Ok & H).
  apply bind_Ok in H as ([] & w3 & Hres & H). case_bool_decide as Hf; [inv_m|]. apply ret_Ok in H as [_ ->].
  apply if_Ok in Hres as [[_ Hres]|[_ [_ ->]%ret_Ok]]; [|by rewrite Es, Hr; intros r [= <-]].
  apply in_journal_Ok in Hres as (s3 & Hres & Es3). rewrite Es in Hres. intros r. rewrite Es3. clear Es3.
  unfold resume_legacy_busy, update_retirement in Hres. inv_m.
  repeat match goal with
  | H : record_of _ _ _ _ = (Ok _, _) |- _ => apply record_of_Ok in H as (-> & ? & ? & ?)
  | H : Retirement.guard _ _ _ _ _ _ _ _ = (Ok _, _) |- _ => apply guard_Ok in H as (-> & ? & ?)
  | H : source_gate _ _ _ _ = (Ok _, _) |- _ => apply source_gate_Ok in H as ->
  end. simpl in *. match goal with H : source_retirements _ !! _ = Some ?a, H' : source_retirements _ !! _ = Some ?b |- _ =>
    rewrite H in H'; injection H' as <-; rewrite (jo_keyed _ Hok _ _ H), lookup_alter_eq, H end.
  by intros [= <-].
Qed.

Lemma quiet_moves {A} (m : M (cworld W) exn A) w res w' : moves quiet m w → m w = (res, w') → quiet w w'.
Proof. unfold moves. by intros H E; rewrite E in H. Qed.

(** The exchanges after [begin]. *)
Lemma send_authorized source operation actor digest resume s s1 r dispatch w res w' :
  journal_ok (cw_db w) → lock_path ∈ session_locks (cw_db w) → grows s s1 → is_Some (source_retirements s !! operation) →
  begun source operation actor digest s1 r dispatch (cw_db w) → ret_state r ∉ [RT_BLOCKED; RT_SUCCEEDED; RT_FINALIZED] →
  send source operation actor digest resume r dispatch w = (res, w') →
  ∃ new, cw_log w' = (cw_log w ++ new)%list ∧ authorized_log source operation actor digest resume s new.
Proof.
  intros Hok Hlock Hg Hsome [(r0 & Hr0 & _ & _ & _ & Hst) Hsaved [Hs Ha] (remote & reviewed & Hrem & Hrev & Hd) _] Hopen
    (new & E & [Hlen Heach])%send_log.
  exists new. split; [done|]. split; [done|]. intros x Hx Hm. destruct (Heach x Hx Hm) as (Edb & Hreq & Hwhy).
  assert (dispatched r = true) as Hdisp.
  { apply dispatched_states. destruct dispatch; [by left; apply Hst|]. destruct Hst as [Hne Hst]. rewrite <-Hst in Hne.
    destruct (ret_state r) eqn:Est; auto; first [done|exfalso; apply Hopen; rewrite !elem_of_cons; auto]. }
  split; [|rewrite Edb, <-Hs; eapply (jo_disabled _ Hok); [done|by apply dispatched_inflight|done]|by rewrite Edb].
  exists r, remote, reviewed. rewrite Edb. split_and!; try done. destruct Hwhy as [->|Hwhy]; [|by right]. left.
  eapply (still_ready s s1); [done|done|apply Hst|done].
Qed.

Lemma after_begin_log source operation actor digest confirmed consent resume s s1 r dispatch w res w' :
  journal_ok (cw_db w) → lock_path ∈ session_locks (cw_db w) → grows s s1 → is_Some (source_retirements s !! operation) →
  begun source operation actor digest s1 r dispatch (cw_db w) → ret_state r ≠ RT_FINALIZED →
  proceed source operation actor digest confirmed consent resume r dispatch w = (res, w') →
  ∃ new, cw_log w' = (cw_log w ++ new)%list ∧ authorized_log source operation actor digest resume s new.
Proof.
  intros Hok Hlock Hg Hsome Hb Hnf H. unfold proceed in H. case_bool_decide as Hbl; [injection H as _ <-; by apply (quiet_authorized _ _ _ _ _ _ w w)|].
  assert (∀ o w1, obtain source operation actor digest resume r dispatch w = (o, w1) → ∃ new, cw_log w1 = (cw_log w ++ new)%list ∧ authorized_log source operation actor digest resume s new) as Hout.
  { intros o w1 Ho. unfold obtain in Ho. case_bool_decide as Hsu.
    - eapply quiet_authorized, quiet_moves; [|exact Ho]. by moves.
    - eapply send_authorized; [done|done|done|done|done| |exact Ho]. set_solver. }
  apply bind_cases in H as [(e & H & _)|(o & w1 & H & Hk)]; [by apply Hout in H|]. apply Hout in H as (n & En & Hn).
  assert (quiet w1 w') as (n' & En' & Hn').
  { destruct o as [r'|v]; [by eapply quiet_moves; [apply finish_quiet|exact Hk]|]. injection Hk as _ <-. reflexivity. }
  exists ([] ++ n ++ n')%list. rewrite En', En, <-(assoc_L (++)). split; [done|]. apply authorized_log_app; [|done|done].
  by intros x ?%elem_of_nil.
Qed.

Lemma execute_locked_log source operation actor digest confirmed consent resume w res w' :
  journal_ok (cw_db w) → lock_path ∈ session_locks (cw_db w) →
  execute_locked source operation actor digest confirmed consent resume w = (res, w') →
  ∃ new, cw_log w' = (cw_log w ++ new)%list ∧ authorized_log source operation actor digest resume (cw_db w) new.
Proof.
  intros Hok Hlock H. unfold execute_locked in H. rewrite (bind_step _ _ w _ w) in H
    by (unfold journaled, in_journal, in_store; rewrite in_db_gets; by destruct w).
  case_bool_decide as Hex; simpl in H.
  2: { eapply quiet_authorized, quiet_moves; [|exact H]. unfold completed. by moves. }
  destruct (find_prior_moves source operation actor digest consent resume w) as [Hm Hq].
  apply bind_cases in H as [(e & H & _)|(over & w1 & H & Hk)].
  { by eapply quiet_authorized, quiet_moves; [|exact H]. }
  unfold moves, on_cw in Hm. rewrite H in Hm. destruct (Hm Hok) as (Hok1 & Hg & El). pose proof (quiet_moves _ _ _ _ Hq H) as Hq1.
  destruct over as [v|]; [injection Hk as _ <-; by apply quiet_authorized|].
  apply bind_cases in Hk as [(e & Hk & _)|([r dispatch] & w2 & Hb & Hk)].
  { eapply quiet_authorized. etrans; [exact Hq1|]. eapply quiet_moves; [|exact Hk]. apply in_journal_quiet. }
  pose proof (in_journal_quiet (begin sha256 time_str isoformat source operation actor digest confirmed consent) w1) as Hq2.
  apply (quiet_moves _ _ _ _) with (1 := Hq2) in Hb as Hq2'. clear Hq2. apply in_journal_Ok in Hb as (s2 & Hb & Es).
  pose proof (begin_Ok _ _ _ _ _ _ _ _ _ _ Hok1 Hb) as Hbg. rewrite <-Es in Hbg.
  eapply after_begin_log in Hk; [|..|exact Hg|done|exact Hbg|].
  - destruct Hk as (n & En & Hn). destruct Hq1 as (n1 & En1 & Hn1). destruct Hq2' as (n2 & En2 & Hn2).
    exists ((n1 ++ n2) ++ n ++ [])%list. split; [by rewrite En, En2, En1, app_nil_r, !(assoc_L (++))|].
    apply authorized_log_app; [|done|by intros x ?%elem_of_nil]. intros x [?|?]%elem_of_app; auto.
  - rewrite Es. pose proof (retirement_begin_ok (guarded := λ _, True) sha256 time_str isoformat source operation actor digest confirmed consent (cw_db w1)) as Hkeep.
    unfold moves in Hkeep. rewrite Hb in Hkeep. by apply Hkeep.
  - by rewrite (bg_locks _ _ _ _ _ _ _ _ Hbg), El.
  - destruct (bg_found _ _ _ _ _ _ _ _ Hbg) as (r0 & Hr0 & _ & _ & _ & Hst).
    pose proof (find_prior_open _ _ _ _ _ _ _ _ Hok H r0 Hr0). destruct dispatch; [by destruct Hst as [_ ->]|by destruct Hst as [_ ->]].
Qed.

Lemma store_lock_cases {A} (body : M (cworld W) exn A) w :
  store_lock body w =
    if bool_decide (lock_path ∈ session_locks (cw_db w)) then (Err (LifecycleError "SOURCE_APPLY_ACTIVE"), w)
    else let '(r, w1) := body (hold w) in (r, release w1).
Proof.
  unfold store_lock. rewrite (bind_step _ _ w _ w) by done. unfold mbind, M_bind, raise_if. by destruct (bool_decide _).
Qed.

End Coordinator.
