(* ===== verification/CoordinatorOutcome.v ===== *)
(** * What a refused retirement proves (netbox_sync/retirement_coordinator.py)

    The coordinator records a retirement as BLOCKED only when the mutation it
    sent was refused for a definite reason; every other failure after the
    dispatch leaves it uncertain. The proof needs that no local step can pose as
    an answer of the worker: only an exchange raises a [ControlError]. *)

From S2P Require Import Prelude PyValue SourceConfig Schema SourceOperations SourceLifecycle Retirement RetirementSpec Coordinator.
From stdpp Require Import base list strings gmap pretty.
From Stdlib Require Import ZArith Lia Ascii.
Local Open Scope string_scope.
#[local] Arguments py_eqb _ _ : simpl never.

(** ** Only an exchange raises a [ControlError] *)

Definition local_error (e : exn) : Prop := match e with ControlError _ => False | _ => True end.

Lemma py_item_local k v : fails local_error (py_item k v).
Proof. destruct v as [| | | | |d]; try done. simpl. by destruct (dlookup k d). Qed.
Lemma attr_get_local k v : fails local_error (attr_get k v).
Proof. by destruct v. Qed.
#[export] Hint Resolve py_item_local attr_get_local : raises.

Lemma plan_remote_local r : fails local_error (plan_remote r).
Proof. apply py_item_local. Qed.
#[export] Hint Resolve plan_remote_local : raises.
Lemma plan_format_local n r : fails local_error (plan_format_is n r).
Proof. unfold plan_format_is, plan_manifest. raises. Qed.
Lemma public_local r : fails local_error (public r).
Proof. unfold public. raises. Qed.
#[export] Hint Resolve plan_format_local public_local : raises.

Lemma py_ltb_local v w : fails local_error (py_ltb v w).
Proof.
  revert w. induction v as [| | | |l IH|] using pyval_ind'; intros w; destruct w as [| | | |l'|]; try done.
  revert l'. induction IH as [|x l Hx Hl IHl]; intros [|y l']; try done. cbn [py_ltb]. destruct (py_eqb x y); [apply (IHl l')|apply Hx].
Qed.
#[export] Hint Resolve py_ltb_local : raises.
Lemma py_insert_local x l : fails local_error (py_insert x l).
Proof. induction l as [|y l IH]; simpl; by raises. Qed.
#[export] Hint Resolve py_insert_local : raises.
Lemma py_sorted_local l : fails local_error (py_sorted l).
Proof. induction l as [|y l IH]; simpl; by raises. Qed.
Lemma mapR_local {A B} (f : A → result exn B) l : (∀ x, fails local_error (f x)) → fails local_error (mapR f l).
Proof. intros Hf. induction l as [|x l IH]; simpl; by raises. Qed.
Lemma py_first_local v : fails local_error (py_first v).
Proof. unfold py_first. raises; done. Qed.
Lemma py_iter_local v : fails local_error (py_iter v).
Proof. unfold py_iter. raises; done. Qed.
#[export] Hint Resolve py_sorted_local mapR_local py_first_local py_iter_local : raises.

Lemma receipt_matches_local source r g receipt : fails local_error (receipt_matches source r g receipt).
Proof. unfold receipt_matches. raises. Qed.
#[export] Hint Resolve receipt_matches_local : raises.

Lemma record_of_local source operation actor s : raises local_error (record_of source operation actor) s.
Proof. unfold record_of. raises; done. Qed.
Lemma update_local operation f s : raises local_error (update_retirement operation f) s.
Proof. unfold update_retirement. raises; done. Qed.
Lemma returning_local operation s : raises local_error (returning operation) s.
Proof. unfold returning. raises; done. Qed.
Lemma gate_local source s : raises local_error (source_gate source true false) s.
Proof. done. Qed.
Lemma clock_local s : raises local_error clock_timestamp s.
Proof. done. Qed.
#[export] Hint Resolve record_of_local update_local returning_local gate_local clock_local : raises.

Lemma uncertain_local source operation actor code s : raises local_error (uncertain source operation actor code) s.
Proof. unfold uncertain. raises; done. Qed.
Lemma resolve_local source operation actor g receipt s : raises local_error (resolve source operation actor g receipt) s.
Proof. unfold resolve. raises; done. Qed.
#[export] Hint Resolve uncertain_local resolve_local : raises.

(** ** Steps that block nothing *)

Definition unblocked (operation : N) (s : db) : Prop := state_of s operation ≠ Some RT_BLOCKED.

Lemma unblocked_same operation s s' :
  source_retirements s' = source_retirements s → keeps (unblocked operation) s s'.
Proof. intros E. unfold keeps, unblocked, state_of. by rewrite E. Qed.

Lemma update_unblocked operation k f s :
  (∀ r, ret_state (f r) = RT_BLOCKED → ret_state r = RT_BLOCKED) → moves (keeps (unblocked operation)) (update_retirement k f) s.
Proof.
  intros Hf. unfold update_retirement. db_moves. unfold keeps, unblocked, state_of. simpl.
  destruct (decide (k = operation)) as [->|]; [|by rewrite lookup_alter_ne]. rewrite lookup_alter_eq.
  destruct (source_retirements s !! operation) as [r|]; [|done]. simpl. intros Hn [= E]. apply Hn. f_equal. auto.
Qed.

Lemma supersede_unblocked operation P by_operation s :
  keeps (unblocked operation) s (on_source_retirements (update_where P (set_superseded by_operation)) s).
Proof.
  unfold keeps, unblocked, state_of. simpl. rewrite lookup_update_where.
  destruct (source_retirements s !! operation) as [r|]; [|done]. simpl. by destruct (P _ _).
Qed.

Ltac unblock := db_moves; try (by apply unblocked_same); try (by apply update_unblocked).

Section Outcome.
Context {W : Type} `{!GuardRemote W}.
Context (schema : string) (sha256 : string → string) (time_str isoformat : Z → string).
Context (cleanup : list (list string) → list string → result exn pyval).
Context (lock_path : string).

Hint Extern 0 (moves ?R (Retirement.guard _ _ _ _ _ _ _) _) => apply (moves_guard _ _ _ R) : moves.
Hint Extern 0 (moves ?R (record_of _ _ _) _) => apply (moves_record R) : moves.
Hint Extern 0 (moves ?R (source_gate _ _ _) _) => apply (moves_gate R) : moves.
Hint Extern 0 (moves ?R (returning _) _) => apply (moves_returning R) : moves.
Hint Extern 0 (moves ?R (admission_lock _) _) => apply (moves_admission _ R) : moves.

Lemma begin_unblocked source operation actor digest confirmed consent k s :
  moves (keeps (unblocked k)) (begin sha256 time_str isoformat source operation actor digest confirmed consent) s.
Proof.
  unfold begin, dispatch, extend_consent, disable_source. destruct consent; unblock. apply supersede_unblocked.
Qed.

Lemma transitions_unblocked source operation actor code g receipt k s :
  moves (keeps (unblocked k)) (resume_legacy_busy sha256 time_str isoformat source operation actor) s ∧
  moves (keeps (unblocked k)) (uncertain source operation actor code) s ∧
  moves (keeps (unblocked k)) (resolve source operation actor g receipt) s.
Proof. split_and!; [unfold resume_legacy_busy|unfold uncertain|unfold resolve]; unblock. Qed.

Lemma purged_unblocked source k s : keeps (unblocked k) s (purged source s).
Proof.
  unfold keeps, unblocked, state_of. simpl. destruct (delete_where _ _ !! k) as [r|] eqn:E; [|done].
  apply lookup_delete_where in E as [E _]. by rewrite E.
Qed.

Lemma finalized_unblocked source operation actor k s : moves (keeps (unblocked k)) (finalized schema source operation actor) s.
Proof.
  unfold finalized, purge_retired_source. unblock; try apply purged_unblocked.
  - unfold moves. apply unblocked_same. apply close_generation_same.
Qed.

(** The local removal leaves the journal alone. *)
Lemma cleanup_same_journal source l : moves (on_lw same_journal) (cleanup_credentials cleanup source) l.
Proof.
  unfold cleanup_credentials. apply (moves_bind _).
  - apply (moves_in_db _), (moves_atomic _). db_moves. done.
  - intros [state|row] l1 _; moves; [|apply (moves_in_db _); by db_moves].
    apply (moves_catch _); [|intros; moves]. unfold clean_files, clean_state, call_cleanup, set_credential_state.
    moves; try (apply (moves_in_db _); by db_moves). unfold moves, on_lw. simpl. reflexivity.
Qed.

Lemma remove_same_journal source rev name rc op l :
  moves (on_lw same_journal) (remove_locked sha256 time_str cleanup source rev name rc op) l.
Proof.
  unfold remove_locked. moves.
  - apply (moves_in_db _). unfold remove_row, disable_source. db_moves; done.
  - apply cleanup_same_journal.
  - apply (moves_in_db _), moves_reads; [apply _|]. apply read_reads.
Qed.

Lemma exclusive_same_journal source l : moves (on_lw same_journal) (finish_exclusive_credentials cleanup source) l.
Proof.
  unfold finish_exclusive_credentials, journal_row. moves; try (apply (moves_in_db _); by db_moves).
  unfold moves, on_lw. simpl. reflexivity.
Qed.

(** ** The explanation of a refusal *)

(** A mutation the worker refused for a definite reason. *)
Definition definite (x : exchange W) : Prop :=
  mutates (ex_request x) = true ∧ (∃ code, ex_answer x = Err (ControlError code) ∧ code ∈ DEFINITE_REFUSALS) ∧
  remote_call (ex_request x) (ex_before x) = (ex_answer x, ex_after x).

Definition explained (operation : N) (w w' : cworld W) : Prop :=
  ∃ new, cw_log w' = (cw_log w ++ new)%list ∧
    (unblocked operation (cw_db w) → unblocked operation (cw_db w') ∨ ∃ x, x ∈ new ∧ definite x).
#[export] Instance explained_preorder operation : PreOrder (explained operation).
Proof.
  split.
  - intros w. exists []. rewrite app_nil_r. auto.
  - intros w1 w2 w3 (n1 & E1 & H1) (n2 & E2 & H2). exists (n1 ++ n2)%list. rewrite E2, E1, (assoc_L (++)). split; [done|].
    intros Hu. destruct (H1 Hu) as [Hu2|(x & ? & ?)]; [|right; exists x; rewrite elem_of_app; auto].
    destruct (H2 Hu2) as [?|(x & ? & ?)]; [by left|right; exists x; rewrite elem_of_app; auto].
Qed.

Lemma explained_journal {A} operation (m : DB A) w :
  moves (keeps (unblocked operation)) m (cw_db w) → moves (explained operation) (in_journal m) w.
Proof.
  unfold moves, in_journal, in_store, in_db, cw_db. destruct (m (lw_db (cw_store w))) as [r s]. simpl. intros H. exists [].
  rewrite app_nil_r. auto.
Qed.
Lemma explained_store {A} operation (m : M lworld exn A) w :
  moves (on_lw same_journal) m (cw_store w) → moves (explained operation) (in_store m) w.
Proof.
  unfold moves, in_store, on_lw. destruct (m (cw_store w)) as [r l]. simpl. intros H. exists []. rewrite app_nil_r. split; [done|].
  intros Hu. left. revert Hu. by apply unblocked_same.
Qed.
Lemma explained_call operation q w : moves (explained operation) (call q) w.
Proof. unfold moves, call. destruct (remote_call q (cw_remote w)). simpl. eexists. split; [done|]. auto. Qed.
Lemma explained_reads {A} operation (m : DB A) w : moves eq m (cw_db w) → moves (explained operation) (in_journal m) w.
Proof. intros H. apply explained_journal. by apply moves_reads; [apply _|]. Qed.
Hint Extern 1 (moves (explained _) (in_journal (gets _)) _) => apply explained_reads; by db_moves : moves.
Hint Extern 1 (moves (explained _) (in_journal (record_of _ _ _)) _) => apply explained_reads; apply record_of_reads : moves.
Hint Extern 1 (moves (explained _) (in_journal (uncertain _ _ _ _)) _) =>
  apply explained_journal; by eapply (transitions_unblocked _ _ _ _ 0 []) : moves.
Hint Extern 1 (moves (explained _) (in_journal (resolve _ _ _ _ _)) _) =>
  apply explained_journal; by eapply (transitions_unblocked _ _ _ "" _ _) : moves.
Hint Extern 1 (moves (explained _) (in_journal (cleanup_pending _)) _) =>
  apply explained_journal; unfold cleanup_pending; apply (moves_atomic _), update_unblocked; done : moves.
Hint Extern 1 (moves (explained _) (in_journal (cleanup_verified _)) _) =>
  apply explained_journal; unfold cleanup_verified; apply (moves_atomic _), update_unblocked; done : moves.
Hint Resolve explained_call : moves.

Lemma status_explained k source operation actor w : moves (explained k) (status source operation actor) w.
Proof. unfold status, journaled, completed. by moves. Qed.
Hint Resolve status_explained : moves.

Lemma refused_explained source operation actor dispatch code w :
  dispatch && bool_decide (code ∈ DEFINITE_REFUSALS) = false → moves (explained operation) (refused source operation actor dispatch code) w.
Proof. intros E. unfold refused. rewrite E. by moves. Qed.

(** A definite exchange in the log explains whatever follows. *)
Lemma definite_explains operation w w1 w2 new x :
  cw_log w1 = (cw_log w ++ new)%list → x ∈ new → definite x → quiet w1 w2 → explained operation w w2.
Proof.
  intros E Hx Hd (n & En & _). exists (new ++ n)%list. rewrite En, E, (assoc_L (++)). split; [done|]. intros _. right.
  exists x. rewrite elem_of_app. auto.
Qed.

Lemma attempt_run {A} source operation actor dispatch (m : M (cworld W) exn A) k w :
  attempt source operation actor dispatch m k w =
    match m w with
    | (Ok a, w1) => k a w1
    | (Err (ControlError code), w1) => (v ← refused source operation actor dispatch code; mret (inr v)) w1
    | (Err e, w1) => (Err e, w1)
    end.
Proof. unfold attempt, catch, mbind, M_bind. destruct (m w) as [[a|[]] w1]; done. Qed.

Lemma attempt_explained {A} source operation actor dispatch (m : M (cworld W) exn A) k w :
  moves (explained operation) m w → (∀ a w1, m w = (Ok a, w1) → moves (explained operation) (k a) w1) →
  (∀ code w1, m w = (Err (ControlError code), w1) → dispatch = true → code ∈ DEFINITE_REFUSALS →
     ∃ new x, cw_log w1 = (cw_log w ++ new)%list ∧ x ∈ new ∧ definite x) →
  moves (explained operation) (attempt source operation actor dispatch m k) w.
Proof.
  intros Hm Hk Hc. unfold moves in *. rewrite attempt_run.
  destruct (m w) as [[a|e] w1]; simpl in *; [etrans; [exact Hm|]; by apply Hk|].
  destruct e as [| | | | | | | |code| | |]; try exact Hm.
  match goal with |- explained _ _ (?m1 w1).2 => set (mk := m1) end.
  destruct (dispatch && bool_decide (code ∈ DEFINITE_REFUSALS)) eqn:E.
  - inv_bool. destruct (Hc code w1 eq_refl) as (new & x & El & Hx & Hd); [done|done|].
    eapply definite_explains; [done|done|done|]. assert (moves quiet mk w1) as Hq; [|exact Hq].
    unfold mk. moves. apply refused_quiet.
  - etrans; [exact Hm|]. assert (moves (explained operation) mk w1) as Hq; [|exact Hq].
    unfold mk. moves. by apply refused_explained.
Qed.

Lemma uncertain_saved source operation actor code s u s' :
  uncertain source operation actor code s = (Ok u, s') → is_Some (source_retirements s' !! operation).
Proof.
  unfold uncertain, update_retirement. intros H. inv_m.
  match goal with H : record_of _ _ _ _ = (Ok _, _) |- _ => apply record_of_Ok in H as (-> & Hr & _ & _) end.
  match goal with H : source_gate _ _ _ _ = (Ok _, _) |- _ => apply source_gate_Ok in H as -> end. simpl.
  match goal with |- is_Some (alter _ ?k _ !! _) => destruct (decide (k = operation)) as [->|] end.
  - rewrite lookup_alter_eq, Hr. eauto.
  - rewrite lookup_alter_ne by done. eauto.
Qed.

Lemma raises_in_journal {A} (m : DB A) w : raises local_error m (cw_db w) → raises local_error (in_journal m : M (cworld W) exn A) w.
Proof. unfold raises, in_journal, in_store, in_db, cw_db. by destruct (m (lw_db (cw_store w))). Qed.

(** Recording an answer exchanges nothing. *)
Lemma settle_explained source operation actor dispatch result w :
  moves (explained operation) (settle source operation actor dispatch result) w.
Proof.
  unfold settle. apply attempt_explained; [by moves|intros; by moves|]. intros code w1 H _ _. exfalso.
  match type of H with ?m w = _ => assert (raises local_error m w) as Hr; [|by apply (raises_Err _ _ _ _ _ Hr) in H] end.
  destruct (answered "SUCCEEDED" result); simpl.
  - raises. apply raises_in_journal. eauto with raises.
  - apply (raises_bind _); [apply raises_in_journal; eauto with raises|]. intros u w2 (s2 & Hs & E2)%in_journal_Ok.
    apply uncertain_saved in Hs. rewrite <-E2 in Hs. raises. unfold raises, status. rewrite (bind_step _ _ w2 true w2).
    + match goal with |- fails ?P (?m ?s).1 => change (raises P m s) end. raises. apply raises_in_journal. eauto with raises.
    + unfold journaled, in_journal, in_store. rewrite in_db_gets, bool_decide_eq_true_2 by done. by destruct w2.
Qed.

Lemma execute_request_mutates r operation digest q : execute_request r operation digest = Ok q → mutates q = true.
Proof. unfold execute_request. destruct (plan_format_is 4 r) as [[]|]; by intros [= <-]. Qed.

Lemma execute_request_local r operation digest : fails local_error (execute_request r operation digest).
Proof. unfold execute_request. raises. Qed.

(** A mutation that raises a definite refusal is in the log. *)
Lemma mutation_refused r operation digest w code w1 :
  (q ← lift (execute_request r operation digest); call q) w = (Err (ControlError code), w1) → code ∈ DEFINITE_REFUSALS →
  ∃ new x, cw_log w1 = (cw_log w ++ new)%list ∧ x ∈ new ∧ definite x.
Proof.
  intros H Hc. apply bind_cases in H as [(e & H & He)|(q & ? & [Hq ->]%lift_Ok & H)].
  - injection H as H _. injection He as <-. pose proof (execute_request_local r operation digest) as Hl. by rewrite H in Hl.
  - apply call_log in H as (El & _ & Hcall). eexists _, _. split; [exact El|]. split; [by apply list_elem_of_singleton|].
    split_and!; [by eapply execute_request_mutates|by eauto|exact Hcall].
Qed.

Lemma send_explained source operation actor digest resume r dispatch w :
  moves (explained operation) (send source operation actor digest resume r dispatch) w.
Proof.
  unfold send. apply attempt_explained; [by moves| |].
  - intros result w1 _. moves; [|apply settle_explained].
    apply attempt_explained; [by moves|intros; apply settle_explained|]. intros code w2 Herr _. by apply (mutation_refused r operation digest).
  - intros code w1 H -> Hc. by eapply (mutation_refused r operation digest).
Qed.

Lemma close_explained source operation actor w : moves (explained operation) (close schema source operation actor) w.
Proof.
  unfold close. moves. apply (moves_catch _); [apply explained_journal, finalized_unblocked|]. intros. by moves.
Qed.

Lemma finish_explained source operation actor digest confirmed consent r w :
  moves (explained operation) (finish schema sha256 time_str isoformat cleanup source operation actor digest confirmed consent r) w.
Proof.
  unfold finish, hold_pending, purge_local. db_moves; try apply close_explained.
  - apply explained_reads, check_removal_reads.
  - apply explained_store, remove_same_journal.
  - apply explained_store, cleanup_same_journal.
  - apply (moves_catch _); [|intros; by moves]. moves. apply explained_store, exclusive_same_journal.
Qed.

Lemma execute_locked_explained source operation actor digest confirmed consent resume w :
  moves (explained operation)
    (execute_locked schema sha256 time_str isoformat cleanup source operation actor digest confirmed consent resume) w.
Proof.
  unfold execute_locked, journaled, find_prior, completed, proceed, obtain. db_moves; try apply send_explained; try apply finish_explained.
  - apply explained_journal. by apply (transitions_unblocked source operation actor "" 0 []).
  - apply explained_journal, begin_unblocked.
Qed.

(** A request of the call was answered with a definite refusal. *)
Definition definitely_refused (new : list (exchange W)) : Prop :=
  ∃ x code, x ∈ new ∧ mutates (ex_request x) = true ∧
    remote_call (ex_request x) (ex_before x) = (Err (ControlError code), ex_after x) ∧ code ∈ DEFINITE_REFUSALS.
(** The operation became BLOCKED. *)
Definition becomes_blocked (operation : N) (before after : db) : Prop :=
  state_of before operation ≠ Some RT_BLOCKED ∧ state_of after operation = Some RT_BLOCKED.

(** What [blocked_only_by_refusal] states, for the layers below the worker. *)
Lemma blocked_by_refusal source operation actor digest confirmed consent resume w res w' :
  execute schema sha256 time_str isoformat cleanup lock_path source operation actor digest confirmed consent resume w = (res, w') →
  becomes_blocked operation (cw_db w) (cw_db w') → ∃ new, cw_log w' = (cw_log w ++ new)%list ∧ definitely_refused new.
Proof.
  intros H [Hn Hb]. unfold execute in H. destruct resume as [|resume| | | |]; try (injection H as _ <-; done).
  rewrite store_lock_cases in H. case_bool_decide as Hl; [by injection H as _ <-|].
  destruct (execute_locked _ _ _ _ _ _ _ _ _ _ _ _ (hold lock_path w)) as [r w1] eqn:E. injection H as _ <-.
  pose proof (execute_locked_explained source operation actor digest confirmed consent resume (hold lock_path w)) as Hm.
  unfold moves in Hm. rewrite E in Hm. destruct Hm as (new & En & Hx). destruct (Hx Hn) as [Hu|(x & Hin & Hmut & (code & Ha & Hc) & Hcall)].
  - done.
  - exists new. split; [done|]. exists x, code. by rewrite <-Ha.
Qed.

(** C4: an uncertain write is never recorded as a refusal. If a call of [execute]
    leaves as BLOCKED a retirement that was not, then in this very call the worker
    answered the mutating request with one of the definite refusals; a lost
    answer, an unknown code, a refused read or any local failure cannot have that
    effect. *)
Theorem blocked_only_by_refusal source operation actor digest confirmed consent resume w res w' :
  execute schema sha256 time_str isoformat cleanup lock_path source operation actor digest confirmed consent resume w = (res, w') →
  becomes_blocked operation (cw_db w) (cw_db w') → ∃ new, cw_log w' = (cw_log w ++ new)%list ∧ definitely_refused new.
Proof. apply blocked_by_refusal. Qed.
End Outcome.

(** ** A retirement touches its own source *)

Section Calls.
Context {W : Type} `{!GuardRemote W}.
Context (schema : string) (sha256 : string → string) (time_str isoformat : Z → string).
Context (cleanup : list (list string) → list string → result exn pyval).
Context (lock_path : string).

(** An operation of another source is refused at once. *)
Lemma find_prior_foreign source operation actor digest consent resume (w : cworld W) r :
  source_retirements (cw_db w) !! operation = Some r → ret_source r ≠ source →
  find_prior sha256 time_str isoformat source operation actor digest consent resume w = (Err (LifecycleError "RETIREMENT_CONFLICT"), w).
Proof.
  intros Hr Hne. unfold find_prior. unfold mbind at 1, M_bind at 1.
  assert (record_of source operation actor (cw_db w) = (Err (LifecycleError "RETIREMENT_CONFLICT"), cw_db w)) as E.
  { unfold record_of. rewrite (bind_step _ _ _ (cw_db w) (cw_db w)) by done. rewrite Hr. simpl.
    unfold mbind, M_bind, mret, M_ret, raise_if. by rewrite bool_decide_eq_false_2. }
  unfold in_journal at 1, in_store at 1, in_db at 1. unfold cw_db in E. rewrite E. by destruct w as [[? ?] ? ?].
Qed.

(** Nothing of another source changed, in any table. *)
Definition call_isolated (source : string) (w w' : cworld W) : Prop := others_kept source (cw_db w) (cw_db w').

(** C7: a retirement touches its own source only: whatever the outcome of the call,
    and whichever source the operation belongs to, every row of every other
    source in every table of the schema is as before, the audit events that do not
    name the source are the same in the same order, and of the authorization state
    only the team of this source and the revision of the assignments may differ. *)
Theorem execute_isolates_sources source operation actor digest confirmed consent resume w res w' :
  journal_ok (cw_db w) →
  execute schema sha256 time_str isoformat cleanup lock_path source operation actor digest confirmed consent resume w = (res, w') →
  call_isolated source w w'.
Proof.
  intros Hok H.
  assert ((∃ r, source_retirements (cw_db w) !! operation = Some r ∧ ret_source r ≠ source) ∨ owns source operation (cw_db w)) as [(r & Hr & Hne)|Hown].
  { destruct (source_retirements (cw_db w) !! operation) as [r|] eqn:Hr; [destruct (decide (ret_source r = source))|]; [right|left; eauto|right];
      (split; [apply (jo_keyed _ Hok)|]); rewrite Hr; [by intros ? [= <-]|done]. }
  - unfold execute in H. destruct resume as [|resume| | | |]; try (by injection H as _ <-). rewrite store_lock_cases in H.
    case_bool_decide as Hl; [by injection H as _ <-|]. unfold execute_locked in H.
    rewrite (bind_step _ _ (hold lock_path w) true (hold lock_path w)) in H.
    2: { unfold journaled, in_journal, in_store. rewrite in_db_gets, bool_decide_eq_true_2; [done|]. exists r. exact Hr. }
    cbn [negb] in H. unfold mbind at 1, M_bind at 1 in H. rewrite (find_prior_foreign _ _ _ _ _ _ _ r) in H by done.
    injection H as _ <-. by split.
  - pose proof (execute_runs schema sha256 time_str isoformat cleanup lock_path source operation actor digest confirmed consent resume w) as Hm.
    unfold moves, on_cw in Hm. rewrite H in Hm. by apply coord_steps_isolated in Hm as [_ ?].
Qed.
End Calls.

(** ** A concrete run against a worker that has executed ([true]) or not *)

Definition sample_guard (answer : result exn envelope) : GuardRemote bool := λ q executed,
  match q with
  | Receipt _ => (Ok (mkEnvelope 5 (if executed then sample_receipt else sample_remote)), executed)
  | Review _ _ _ => (Ok (mkEnvelope 5 sample_remote), executed)
  | Execute _ _ => (answer, match answer with Ok _ => true | Err _ => executed end)
  | PurgeLocal _ _ _ => (Ok (mkEnvelope 5 [("local_cleanup_verified", PBool true)]), executed)
  | _ => (Err (ControlError "RETIREMENT_UNAVAILABLE"), executed)
  end.
Definition sample_succeeds : result exn envelope := Ok (mkEnvelope 5 sample_receipt).
Definition sample_refuses : result exn envelope := Err (ControlError "RETIREMENT_OWNERSHIP_CONFLICT").

Definition sample_start : cworld bool := mkCW (mkLW retiring_db []) false [].
Definition sample_review answer (w : cworld bool) : result exn retirement_view * cworld bool :=
  review (GuardRemote0 := sample_guard answer) sample_hash sample_time sample_time "/run/apply.lock" "pve-a" 9 "admin" sample_revision false false w.
Definition sample_execute answer (w : cworld bool) : result exn retirement_view * cworld bool :=
  execute (GuardRemote0 := sample_guard answer) "netbox_sync" sample_hash sample_time sample_time sample_delete "/run/apply.lock"
    "pve-a" 9 "admin" (PStr "dd") "PVE A" (PBool true) (PBool false) w.
Definition sample_reviewed answer : cworld bool := (sample_review answer sample_start).2.

Lemma sample_reviewed_ok answer : journal_ok (cw_db (sample_reviewed answer)).
Proof.
  pose proof (review_runs (GuardRemote0 := sample_guard answer) "netbox_sync" sample_hash sample_time sample_time "/run/apply.lock" "pve-a" 9
    "admin" sample_revision false false sample_start) as H.
  apply coord_steps_journal in H. eapply journal_steps_ok; [exact H|]. by apply empty_journal_ok.
Qed.


Lemma blocked_only_by_refusal_witness :
  state_of (cw_db (sample_execute sample_refuses (sample_reviewed sample_refuses)).2) 9 = Some RT_BLOCKED ∧
  ∃ q g g' code, sample_guard sample_refuses q g = (Err (ControlError code), g') ∧ code ∈ DEFINITE_REFUSALS.
Proof.
  split; [vm_compute; reflexivity|].
  destruct (blocked_only_by_refusal (GuardRemote0 := sample_guard sample_refuses) "netbox_sync" sample_hash sample_time sample_time
    sample_delete "/run/apply.lock" "pve-a" 9 "admin" (PStr "dd") "PVE A" (PBool true) (PBool false) (sample_reviewed sample_refuses)
    (sample_execute sample_refuses (sample_reviewed sample_refuses)).1 (sample_execute sample_refuses (sample_reviewed sample_refuses)).2
    (surjective_pairing _)) as (new & _ & x & code & _ & _ & Ha & Hc).
  - split; [intros H; vm_compute in H; discriminate H|vm_compute; reflexivity].
  - exists (ex_request x), (ex_before x), (ex_after x), code. split; [exact Ha|exact Hc].
Defined.

Lemma execute_isolates_sources_witness :
  others_kept "pve-a" (cw_db (sample_reviewed sample_succeeds)) (cw_db (sample_execute sample_succeeds (sample_reviewed sample_succeeds)).2).
Proof.
  apply (execute_isolates_sources (GuardRemote0 := sample_guard sample_succeeds) "netbox_sync" sample_hash sample_time sample_time
    sample_delete "/run/apply.lock" "pve-a" 9 "admin" (PStr "dd") "PVE A" (PBool true) (PBool false) (sample_reviewed sample_succeeds)
    (sample_execute sample_succeeds (sample_reviewed sample_succeeds)).1); [apply sample_reviewed_ok|].
  apply surjective_pairing.
Defined.
