(* ===== verification/GuardTransport.v ===== *)
(** * The guard transport (netbox_sync/retirement_transport.py, retirement_worker.py, local_control.py)

    How a request of the coordinator becomes HTTP requests to NetBox and how
    their outcomes become codes: the client of the guard protocol, the child
    process that runs it, the worker around that child and the socket in front of
    the worker. NetBox itself is the parameter [http], which answers, refuses,
    times out or fails as it likes; what happens to the child process and to the
    socket are parameters too. *)

From S2P Require Import Prelude PyValue SourceConfig Schema PyUuid SourceOperations SourceLifecycle Retirement RetirementSpec Coordinator CoordinatorOutcome.
From stdpp Require Import base list strings gmap pretty.
From Stdlib Require Import ZArith Lia Ascii.
Local Open Scope string_scope.
#[local] Arguments py_eqb _ _ : simpl never.

Definition GUARD_CODES : list string :=
  ["RETIREMENT_DEADLINE"; "DEPENDENCY_DATABASE_REFUSAL"; "SOURCE_OBJECTS_REMAIN"; "OWNED_OBJECT_OUTSIDE_PLACEMENT"; "OBJECT_MISSING";
   "SOURCE_NAMESPACE_CLOSED"; "SOURCE_NAMESPACE_BUSY"; "PERMISSION_DENIED"; "GUARD_INSTANCE_CHANGED"; "REQUEST_CONFLICT"; "OBJECT_INVALID";
   "OBJECT_FIELDS_UNSUPPORTED"; "REQUEST_INVALID"; "REQUEST_TOO_LARGE"; "OWNERSHIP_CONFLICT"; "PLACEMENT_CHANGED";
   "CREATION_OWNERSHIP_UNPROVEN"; "DEPENDENCIES_CHANGED"; "OBJECT_GENERATION_CHANGED"; "EXTERNAL_FIELD_UPDATE"; "PROTECTED_DEPENDENCY";
   "REQUEST_NOT_FOUND"; "AUTHENTICATION_REQUIRED"; "REQUEST_REFUSED"; "TOKEN_WRITE_REQUIRED"; "GUARD_AUDIT_PERMISSION_REQUIRED";
   "GUARD_SOURCE_SCOPE_DENIED"; "GUARD_OBJECT_VIEW_DENIED"; "INVALID_SOURCE"; "INVALID_CREATE"; "UNSAVED_REFERENCE"; "INVALID_CREATE_VALUE";
   "CREATED_OBJECT_NO_LONGER_OWNED"; "PLACEMENT_UNPROVEN"].

Definition DIAGNOSTIC_CODES : list string :=
  ["RETIREMENT_DEADLINE"; "DEPENDENCY_DATABASE_REFUSAL"; "GUARD_CONNECTION_FAILED"; "GUARD_TLS_FAILED"; "GUARD_TIMEOUT";
   "GUARD_CAPABILITY_MISMATCH"; "GUARD_RESPONSE_INVALID"; "GUARD_RESPONSE_UNCONFIRMED"; "SOURCE_OBJECTS_REMAIN";
   "OWNED_OBJECT_OUTSIDE_PLACEMENT"; "OBJECT_MISSING"; "SOURCE_NAMESPACE_CLOSED"; "SOURCE_NAMESPACE_BUSY"; "PERMISSION_DENIED";
   "GUARD_INSTANCE_CHANGED"; "REQUEST_CONFLICT"; "REQUEST_REFUSED"; "AUTHENTICATION_REQUIRED"; "TOKEN_WRITE_REQUIRED";
   "GUARD_AUDIT_PERMISSION_REQUIRED"; "GUARD_SOURCE_SCOPE_DENIED"; "GUARD_OBJECT_VIEW_DENIED"; "CREATION_OWNERSHIP_UNPROVEN";
   "OWNERSHIP_CONFLICT"; "PLACEMENT_CHANGED"; "DEPENDENCIES_CHANGED"; "OBJECT_GENERATION_CHANGED"; "EXTERNAL_FIELD_UPDATE";
   "PROTECTED_DEPENDENCY"; "REQUEST_NOT_FOUND"; "RETIREMENT_REFUSED"].

(** [isinstance(value, str) and re.fullmatch("[a-f0-9]{64}", value)]. *)
Definition digest_value (v : pyval) : bool := match v with PStr s => is_digest s | _ => false end.

(** [isinstance(source, str) and re.fullmatch("[a-z0-9][a-z0-9_-]{0,127}", source)]. *)
Definition guard_source_ok (v : pyval) : bool :=
  match v with
  | PStr (String c s) =>
      (is_lower c || is_digit c) && all_chars (λ c, is_lower c || is_digit c || one_of "_-" c) s && Nat.leb (String.length s) 127
  | _ => false
  end.

(** ** One HTTP request *)

Inductive http_method := GET | POST.
#[global] Instance http_method_eq_dec : EqDecision http_method.
Proof. solve_decision. Defined.
Record http_request := mkHttp { hr_method : http_method; hr_path : string; hr_body : pydict }.

(** The body of a response: over the size limit, no JSON, or a JSON value. *)
Inductive http_body := TooLarge | NotJson | Json (value : pyval).
Inductive http_outcome :=
| SSLError
| Timeout
| RequestException
| Unexpected
| Response (status : Z) (body : http_body).

(** The exceptions of the child: [GuardTransportError], [ControlError] and any
    other, of which only the two attributes [code] and [uncertain] matter. *)
Inductive guard_exn := GuardTransportError (code : string) (uncertain : bool) | GuardControlError (code : string) | GuardOther.

(** [atomic_refusal] of selectel_diagnostic.py. *)
Definition atomic_refusal (q : http_request) (status : Z) (value : pydict) : bool :=
  bool_decide (hr_method q = POST) && bool_decide (hr_path q = "providers/account-import/") && (status =? 409)%Z &&
  py_eqb (dget "code" value) (PStr "PROVIDER_IMPORT_ROLLED_BACK") && is_True (dget "rolled_back" value) &&
  match dget "nonce" (hr_body q), dget "account" (hr_body q) with
  | PStr nonce, PStr account => py_eqb (dget "nonce" value) (PStr nonce) && py_eqb (dget "account" value) (PStr account)
  | _, _ => false
  end.

Definition known_code (v : pyval) : bool := match v with PStr c => bool_decide (c ∈ GUARD_CODES) | _ => false end.

(** The answer is a refusal that proves no mutation. *)
Definition refuses (q : http_request) (status : Z) (value : pydict) : bool :=
  atomic_refusal q status value || (bool_decide (status ∈ [400; 401; 403; 404; 409]%Z) && known_code (dget "code" value)).

Definition code_text (v : pyval) : string := match v with PStr c => c | _ => "" end.

(** What [_request] makes of the outcome. *)
Definition interpret (q : http_request) (o : http_outcome) : result guard_exn pydict :=
  let mutation := bool_decide (hr_method q = POST) in
  match o with
  | SSLError => Err (GuardTransportError "GUARD_TLS_FAILED" mutation)
  | Timeout => Err (GuardTransportError "GUARD_TIMEOUT" mutation)
  | RequestException => Err (GuardTransportError "GUARD_CONNECTION_FAILED" mutation)
  | Unexpected => Err GuardOther
  | Response status (Json (PDict value)) =>
      if bool_decide (status ∈ [200; 201]%Z) then Ok value
      else if refuses q status value then Err (GuardTransportError (code_text (dget "code" value)) false)
      else Err (GuardTransportError "GUARD_RESPONSE_UNCONFIRMED" mutation)
  | Response _ _ => Err (GuardTransportError "GUARD_RESPONSE_INVALID" mutation)
  end.

(** The requests sent so far with their outcomes. *)
Definition hlog := list (http_request * http_outcome).

(** ** The client of the guard *)

Section Client.
Context (http : hlog → http_request → http_outcome).
Context (instance : N) (sha256 : string → string).

Definition request_ (q : http_request) : M hlog guard_exn pydict := λ log,
  (interpret q (http log q), (log ++ [(q, http log q)])%list).

Definition capabilities : M hlog guard_exn pydict :=
  value ← request_ (mkHttp GET "capabilities/" []);
  raise_if (negb (py_eqb (dget "protocol" value) (PInt 1)) || negb (py_eqb (dget "guard_instance" value) (PStr (uuid_str instance))) ||
            negb (py_eqb (dget "netbox_version" value) (PStr "4.7.0")) || negb (is_True (dget "atomic_dependency_guard" value)) ||
            negb (is_True (dget "creation_receipts" value)) || negb (is_True (dget "retirement_receipts" value)))
    (GuardTransportError "GUARD_CAPABILITY_MISMATCH" false);;
  mret value.

(** [set(value) == {...}]. *)
Definition same_keys (value : pydict) (keys : list string) : bool :=
  bool_decide (list_to_set (C := gset string) (dkeys value) = list_to_set keys).

(** [_receipt]. *)
Definition check_receipt (value : pydict) (nonce : string) (uncertain : bool) : M hlog guard_exn unit :=
  raise_if (negb (py_eqb (dget "nonce" value) (PStr nonce)) ||
            negb (py_eqb (dget "status" value) (PStr "REVIEWED") || py_eqb (dget "status" value) (PStr "SUCCEEDED")) ||
            negb (is_dict (dget "manifest" value)) || negb (is_list (dget "deleted" value)) || negb (digest_value (dget "digest" value)))
    (GuardTransportError "GUARD_RESPONSE_INVALID" uncertain).

Definition manifest_get (key : string) (value : pydict) : pyval :=
  match dget "manifest" value with PDict m => dget key m | _ => PNone end.

(** [_nonce]: the canonical text; a text that is no UUID is a [ValueError]. *)
Definition nonce_ (value : pyval) : M hlog guard_exn string :=
  match parse_uuid (py_str value) with Some u => mret (uuid_str u) | None => raise GuardOther end.

Definition receipt (operation : pyval) : M hlog guard_exn pydict :=
  nonce ← nonce_ operation;
  value ← request_ (mkHttp GET ("retirements/" +:+ nonce +:+ "/") []);
  check_receipt value nonce false;;
  mret value.

Definition too_many (objects : pyval) : bool :=
  match objects with PList l => (10000 <? Z.of_nat (length l))%Z | _ => true end.

Definition audit_source (source : pyval) (operation : pyval) : M hlog guard_exn pydict :=
  raise_if (negb (guard_source_ok source)) (GuardTransportError "GUARD_RESPONSE_INVALID" false);;
  nonce ← nonce_ operation;
  value ← request_ (mkHttp POST ("sources/" +:+ py_str source +:+ "/audit/") [("nonce", PStr nonce)]);
  let expected := sha256 (json_dumps (PDict (dpop "digest" value))) in
  raise_if (negb (py_eqb (dget "source_instance" value) source) || negb (py_eqb (dget "historical_outcome" value) (PStr "UNPROVED")) ||
            too_many (dget "objects" value) || negb (py_eqb (PStr expected) (dget "digest" value)))
    (GuardTransportError "GUARD_RESPONSE_INVALID" false);;
  mret value.

Definition namespace_state (source : pyval) : M hlog guard_exn pydict :=
  raise_if (negb (guard_source_ok source)) (GuardTransportError "GUARD_RESPONSE_INVALID" false);;
  caps ← capabilities;
  raise_if (negb (is_True (dget "source_namespace_state" caps))) (GuardTransportError "GUARD_CAPABILITY_MISMATCH" false);;
  value ← request_ (mkHttp GET ("sources/" +:+ py_str source +:+ "/state/") []);
  raise_if (negb (same_keys value ["source_instance"; "closed"]) || negb (py_eqb (dget "source_instance" value) source) ||
            negb (is_bool (dget "closed" value))) (GuardTransportError "GUARD_RESPONSE_INVALID" false);;
  mret value.

Definition review_source (operation source cluster : pyval) : M hlog guard_exn pydict :=
  nonce ← nonce_ operation;
  value ← request_ (mkHttp POST "sources/review/" [("nonce", PStr nonce); ("source_instance", source); ("cluster_id", cluster)]);
  check_receipt value nonce false;;
  raise_if (negb (py_eqb (dget "source_instance" value) source) || negb (py_eqb (manifest_get "format" value) (PInt 2)) ||
            negb (py_eqb (manifest_get "cluster_id" value) cluster)) (GuardTransportError "GUARD_RESPONSE_INVALID" false);;
  mret value.

Definition archive_review (operation source : pyval) : M hlog guard_exn pydict :=
  nonce ← nonce_ operation;
  value ← request_ (mkHttp POST "sources/archive-review/" [("nonce", PStr nonce); ("source_instance", source)]);
  check_receipt value nonce false;;
  raise_if (negb (py_eqb (dget "source_instance" value) source) || negb (py_eqb (manifest_get "format" value) (PInt 4)))
    (GuardTransportError "GUARD_RESPONSE_INVALID" false);;
  mret value.

(** The two requests that delete or close a source. *)
Definition execute_source (operation digest : pyval) : M hlog guard_exn pydict :=
  nonce ← nonce_ operation;
  raise_if (negb (digest_value digest)) (GuardTransportError "GUARD_DIGEST_INVALID" false);;
  value ← request_ (mkHttp POST "sources/execute/" [("nonce", PStr nonce); ("digest", digest)]);
  check_receipt value nonce true;;
  raise_if (negb (py_eqb (dget "digest" value) digest) || negb (py_eqb (dget "status" value) (PStr "SUCCEEDED")) ||
            negb (py_eqb (manifest_get "format" value) (PInt 2))) (GuardTransportError "GUARD_RESPONSE_INVALID" true);;
  mret value.

Definition archive_execute (operation digest : pyval) : M hlog guard_exn pydict :=
  nonce ← nonce_ operation;
  raise_if (negb (digest_value digest)) (GuardTransportError "GUARD_DIGEST_INVALID" false);;
  value ← request_ (mkHttp POST "sources/archive-execute/" [("nonce", PStr nonce); ("digest", digest)]);
  check_receipt value nonce true;;
  raise_if (negb (py_eqb (dget "digest" value) digest) || negb (py_eqb (dget "status" value) (PStr "SUCCEEDED")) ||
            negb (py_eqb (manifest_get "format" value) (PInt 4)) || truthy (dget "deleted" value))
    (GuardTransportError "GUARD_RESPONSE_INVALID" true);;
  mret value.

(** The requests about single objects. *)
Definition positive_id (v : pyval) : bool := match v with PInt z => (0 <? z)%Z | _ => false end.

Definition create_body (nonce : string) (source resource cluster data : pyval) : pydict :=
  [("nonce", PStr nonce); ("source_instance", source); ("resource", resource); ("cluster_id", cluster); ("data", data)].

Definition create (nonce source resource cluster data : pyval) : M hlog guard_exn pydict :=
  nonce ← nonce_ nonce;
  value ← request_ (mkHttp POST "objects/create/" (create_body nonce source resource cluster data));
  raise_if (negb (positive_id (dget "id" value))) (GuardTransportError "GUARD_RESPONSE_INVALID" true);;
  mret value.

Definition wire_digest (v : pyval) : string := sha256 (json_dumps v).

Definition creation_receipt (nonce source resource cluster data : pyval) : M hlog guard_exn pydict :=
  nonce ← nonce_ nonce;
  let body := create_body nonce source resource cluster data in
  let expected := wire_digest (PList [source; resource; PDict [("wire", PStr (wire_digest (PDict body)))]; cluster]) in
  value ← request_ (mkHttp GET ("objects/receipts/" +:+ nonce +:+ "/") []);
  let mismatch := negb (py_eqb (dget "nonce" value) (PStr nonce)) || negb (py_eqb (dget "source_instance" value) source) ||
                  negb (py_eqb (dget "resource" value) resource) || negb (py_eqb (dget "digest" value) (PStr expected)) in
  match dget "object" value with
  | PDict obj => raise_if (mismatch || negb (positive_id (dget "id" obj))) (GuardTransportError "GUARD_RESPONSE_INVALID" false);; mret obj
  | _ => raise (GuardTransportError "GUARD_RESPONSE_INVALID" false)
  end.

Definition review_object (nonce source cluster : pyval) (root : list pyval) : M hlog guard_exn pydict :=
  nonce ← nonce_ nonce;
  value ← request_ (mkHttp POST "retirements/review/"
    [("nonce", PStr nonce); ("source_instance", source); ("cluster_id", cluster); ("root", PList root)]);
  check_receipt value nonce false;;
  raise_if (negb (py_eqb (dget "source_instance" value) source) || negb (py_eqb (manifest_get "cluster_id" value) cluster) ||
            negb (py_eqb (manifest_get "roots" value) (PList [PList root]))) (GuardTransportError "GUARD_RESPONSE_INVALID" true);;
  mret value.

Definition execute_object (nonce digest : pyval) : M hlog guard_exn pydict :=
  nonce ← nonce_ nonce;
  raise_if (negb (digest_value digest)) (GuardTransportError "GUARD_DIGEST_INVALID" false);;
  value ← request_ (mkHttp POST "retirements/execute/" [("nonce", PStr nonce); ("digest", digest)]);
  check_receipt value nonce true;;
  raise_if (negb (py_eqb (dget "digest" value) digest) || negb (py_eqb (dget "status" value) (PStr "SUCCEEDED")))
    (GuardTransportError "GUARD_RESPONSE_INVALID" true);;
  mret value.

(** ** The child process *)

(** [value[key]]. *)
Definition item (key : string) (value : pydict) : M hlog guard_exn pyval :=
  match dlookup key value with Some v => mret v | None => raise GuardOther end.

Definition require (key : string) (caps : pydict) (code : string) : M hlog guard_exn unit :=
  raise_if (negb (is_True (dget key caps))) (GuardTransportError code false).

Definition action_in (actions : list string) (action : pyval) : bool :=
  match action with PStr a => bool_decide (a ∈ actions) | _ => false end.

(** The body of [child] once the session is set up; [setup] raised otherwise. *)
Definition child (setup : option guard_exn) (value : pydict) : M hlog guard_exn pydict :=
  match setup with Some e => raise e | None => mret tt end;;
  caps ← capabilities;
  raise_if (negb (is_True (dget "source_tree_retirement" caps))) (GuardControlError "RETIREMENT_UNAVAILABLE");;
  action ← item "action" value;
  (if action_in ["review"; "execute"; "archive_review"; "archive_execute"; "purge_local"] action
   then require "source_generation_closure" caps "GUARD_CAPABILITY_MISMATCH" else mret tt);;
  (if action_in ["purge_local"] action then require "source_namespace_state" caps "GUARD_CAPABILITY_MISMATCH" else mret tt);;
  result ← (if action_in ["namespace"] action then source ← item "source_instance" value; namespace_state source
            else if action_in ["audit"] action then
              require "source_audit" caps "GUARD_CAPABILITY_MISMATCH";;
              require "audit_permission" caps "GUARD_AUDIT_PERMISSION_REQUIRED";;
              require "token_write_enabled" caps "TOKEN_WRITE_REQUIRED";;
              source ← item "source_instance" value; operation ← item "operation_id" value; audit_source source operation
            else if action_in ["archive_review"] action then
              operation ← item "operation_id" value; source ← item "source_instance" value; archive_review operation source
            else if action_in ["archive_execute"] action then
              operation ← item "operation_id" value; digest ← item "digest" value; archive_execute operation digest
            else if action_in ["review"] action then
              operation ← item "operation_id" value; source ← item "source_instance" value; cluster ← item "cluster_id" value;
              review_source operation source cluster
            else if action_in ["execute"] action then
              operation ← item "operation_id" value; digest ← item "digest" value; execute_source operation digest
            else operation ← item "operation_id" value; receipt operation);
  mret [("guard_instance", PStr (uuid_str instance)); ("result", PDict result)].

Definition exn_code (e : guard_exn) : option string :=
  match e with GuardTransportError c _ | GuardControlError c => Some c | GuardOther => None end.
Definition exn_uncertain (e : guard_exn) : bool := match e with GuardTransportError _ u => u | _ => true end.

(** What the child prints: the [--child] branch of [main]. *)
Definition child_main (setup : option guard_exn) (value : pydict) (log : hlog) : pydict * hlog :=
  match child setup value log with
  | (Ok result, log') => (result, log')
  | (Err e, log') =>
      ([("error", PStr match exn_code e with
                       | Some c => if bool_decide (c ∈ DIAGNOSTIC_CODES) then c else "RETIREMENT_REFUSED"
                       | None => "RETIREMENT_REFUSED"
                       end); ("uncertain", PBool (exn_uncertain e))], log')
  end.
End Client.

(** ** The worker and its socket *)

(** What becomes of the child: it ends by itself, is stopped at the time limit or
    breaks down, the last two after a number of its requests have been sent. *)
Inductive child_fate := Finished | TimedOut (sent : nat) | Broken (sent : nat).

(** What becomes of a message: it is exchanged, never arrives, arrives in pieces
    the server refuses, or its answer is lost or cut short. *)
Inductive link_fate := Delivered | NeverSent | RequestCut | ReplyLost | ReplyCut.

Definition SAFE_CODES : list string :=
  (["CONTROL_UNAVAILABLE"; "CONTROL_REQUEST_INVALID"; "PEER_NOT_AUTHORIZED"; "SOURCE_NOT_FOUND"; "SOURCE_ALREADY_REMOVED";
    "SOURCE_LIFECYCLE_CONFLICT"; "SOURCE_CONFIRMATION_INVALID"; "SOURCE_OPERATION_ACTIVE"; "SOURCE_APPLY_ACTIVE"; "SOURCE_APPLY_UNCONFIRMED";
    "LIFECYCLE_UNAVAILABLE"; "REQUEST_INVALID"; "BOOTSTRAP_CONFLICT"; "BOOTSTRAP_NOT_READY"; "BOOTSTRAP_INVALID"; "BOOTSTRAP_BUSY"] ++
   ["AUTH_REQUIRED"; "AUTH_REAUTH_REQUIRED"; "AUTH_DENIED"; "AUTH_INVALID"; "AUTH_RATE_LIMITED"; "AUTH_UNAVAILABLE"; "ENROLLMENT_INVALID";
    "POLICY_CONFLICT"; "POLICY_INVALID"; "POLICY_HOST_MANAGED"; "PROBE_RECEIPT_INVALID"] ++
   ["LDAP_INVALID"; "LDAP_TLS_FAILED"; "LDAP_UNAVAILABLE"; "LDAP_BIND_FAILED"; "LDAP_ACCESS_DENIED"; "LDAP_CONFLICT"] ++
   ["SOURCE_RETIREMENT_PENDING"; "SOURCE_RETIREMENT_REVIEW_REQUIRED"; "RETIREMENT_UNAVAILABLE"; "RETIREMENT_CONFLICT"; "RETIREMENT_BLOCKED";
    "RETIREMENT_UNCERTAIN"] ++
   ["RUN_RECONCILIATION_UNAVAILABLE"; "SOURCE_DISCOVERY_REQUIRED"; "SOURCE_PLACEMENT_INVALID"; "SOURCE_IDENTITY_UNSUPPORTED";
    "SOURCE_IDENTITY_CHANGED"; "SOURCE_IDENTITY_UNPROVED"; "SOURCE_IDENTITY_CONFLICT"; "SOURCE_RECOVERY_NOT_REMOVED";
    "SOURCE_RECOVERY_IDENTITY_REVIEW"; "SOURCE_RECOVERY_IDENTITY_CONFLICT"; "SOURCE_RECOVERY_ACTIVE"; "SOURCE_RECOVERY_NOT_FOUND";
    "SOURCE_RECOVERY_EVIDENCE_CHANGED"; "SOURCE_RECOVERY_CREDENTIALS_UNCONFIRMED"; "SOURCE_RECOVERY_OUTCOME_UNCERTAIN"] ++
   DEFINITE_REFUSALS ++ ["RETIREMENT_SERVER_BUSY"] ++
   ["SOURCE_ARCHIVED"; "SOURCE_ARCHIVE_REVIEW_REQUIRED"; "SOURCE_CREDENTIAL_CLEANUP_PENDING"; "SOURCE_LIFECYCLE_REVIEW_LIMIT"])%list.

(** The requests sent to NetBox and the number of messages so far. *)
Record gworld := mkGW { gw_log : hlog; gw_calls : nat }.

(** What surrounds the worker, message by message: NetBox, the fates, the guard
    instance of the environment, the stored connection, the set-up of the child's
    session and the removal of a source's files. *)
Record surroundings := mkAround {
  at_http : hlog → http_request → http_outcome;
  at_child : nat → child_fate;
  at_link : nat → link_fate;
  at_instance : string;
  at_netbox : nat → result exn unit;
  at_setup : nat → option guard_exn;
  at_purge : nat → string → result exn pydict;
  at_uid : Z }.

Section Worker.
Context (env : surroundings) (sha256 : string → string).

Definition executes (action : pyval) : bool := action_in ["execute"; "archive_execute"] action.
Definition failed_child (action : pyval) : string := if executes action then "RETIREMENT_UNCERTAIN" else "RETIREMENT_UNAVAILABLE".

(** The fields of a request by its action. *)
Definition request_fields (action : pyval) : option (list string) :=
  if action_in ["purge_local"] action then Some ["action"; "operation_id"; "source_instance"; "digest"]
  else if action_in ["audit"; "archive_review"; "namespace"] action then Some ["action"; "operation_id"; "source_instance"]
  else if action_in ["review"] action then Some ["action"; "operation_id"; "source_instance"; "cluster_id"]
  else if executes action then Some ["action"; "operation_id"; "digest"]
  else if action_in ["receipt"] action then Some ["action"; "operation_id"]
  else None.

(** [UUID(value)]: a text may be refused; a value that is no text has no
    [replace], except null, which is refused before it is read. *)
Definition uuid_value (v : pyval) : result exn N :=
  match v with
  | PStr t => match parse_uuid t with Some u => Ok u | None => Err (ValueError "badly formed hexadecimal UUID string") end
  | PNone => Err (TypeError "one of the arguments must be given")
  | _ => Err (OtherException "AttributeError" None)
  end.

Definition source_value (v : pyval) : bool := match v with PStr s => source_instance_ok s | _ => false end.
Definition positive_int (v : pyval) : bool := match v with PInt z => (0 <? z)%Z | _ => false end.

(** The checks of [handle] before anything is read: the guard instance, or the
    refusal. *)
Definition checked (value : pydict) : result exn N :=
  let action := dget "action" value in
  match request_fields action with
  | None => Err (ControlError "CONTROL_REQUEST_INVALID")
  | Some fields =>
      if negb (same_keys value fields) then Err (ControlError "CONTROL_REQUEST_INVALID")
      else
        match (_ ← uuid_value (dget "operation_id" value); uuid_value (PStr (at_instance env))) with
        | Err (ValueError _ | TypeError _) => Err (ControlError "RETIREMENT_UNAVAILABLE")
        | Err e => Err e
        | Ok instance =>
            if action_in ["audit"; "archive_review"; "namespace"; "purge_local"] action && negb (source_value (dget "source_instance" value))
            then Err (ControlError "CONTROL_REQUEST_INVALID")
            else if action_in ["review"] action &&
                    (negb (source_value (dget "source_instance" value)) || negb (positive_int (dget "cluster_id" value)))
            then Err (ControlError "CONTROL_REQUEST_INVALID")
            else if action_in ["execute"; "archive_execute"; "purge_local"] action && negb (digest_value (dget "digest" value))
            then Err (ControlError "CONTROL_REQUEST_INVALID")
            else Ok instance
        end
  end.

(** The requests of [after] beyond [before], up to [sent] of them. *)
Definition cut_log (before after : hlog) (sent : nat) : hlog := take (length before + sent) after.

(** The output of the child process; [Err] is a time-out or a breakdown. *)
Definition run_child (instance : N) (value : pydict) : M gworld exn pydict := λ w,
  let n := gw_calls w in
  let '(output, log') := child_main (at_http env) instance sha256 (at_setup env n) value (gw_log w) in
  match at_child env n with
  | Finished => (Ok output, mkGW log' n)
  | TimedOut sent => (Err (ControlError (failed_child (dget "action" value))), mkGW (cut_log (gw_log w) log' sent) n)
  | Broken sent => (Err (ValueError ""), mkGW (cut_log (gw_log w) log' sent) n)
  end.

(** [REASONS.get(code, "RETIREMENT_BLOCKED")]. *)
Definition reason (code : string) : string :=
  default "RETIREMENT_BLOCKED" (snd <$> List.find (λ p, bool_decide (p.1 = code)) RETIREMENT_REASONS).

(** The error a child reports. *)
Definition reported (output : pydict) : string :=
  let code := match dget "error" output with PStr c => if bool_decide (c ∈ DIAGNOSTIC_CODES) then c else "RETIREMENT_REFUSED" | _ => "RETIREMENT_REFUSED" end in
  if truthy (dget "uncertain" output) then "RETIREMENT_UNCERTAIN" else reason code.

(** The receipt that allows the local files of a source to go. *)
Definition purgeable (value : pydict) (receipt : pyval) : result exn bool :=
  source ← attr_get "source_instance" receipt;
  nonce ← attr_get "nonce" receipt;
  digest ← attr_get "digest" receipt;
  status ← attr_get "status" receipt;
  closed ← attr_get "generation_closed" receipt;
  manifest ← attr_get_or "manifest" (PDict []) receipt;
  if negb (py_eqb source (dget "source_instance" value)) || negb (py_eqb nonce (dget "operation_id" value)) ||
     negb (py_eqb digest (dget "digest" value)) || negb (py_eqb status (PStr "SUCCEEDED")) || negb (is_True closed)
  then Ok false
  else format ← attr_get "format" manifest; Ok (py_eqb format (PInt 2)).

Definition worker_body (instance : N) (value : pydict) : M gworld exn pydict :=
  let action := dget "action" value in
  output ← run_child instance value;
  if truthy (dget "error" output) then raise (ControlError (reported output))
  else if negb (same_keys output ["guard_instance"; "result"]) then raise (ValueError "")
  else if action_in ["purge_local"] action then
    proved ← lift (purgeable value (dget "result" output));
    raise_if (negb proved) (ControlError "RETIREMENT_CONFLICT");;
    n ← gets gw_calls;
    files ← lift (at_purge env n (py_str (dget "source_instance" value)));
    mret (dset "result" (PDict files) output)
  else mret output.

Definition handle (value : pydict) : M gworld exn pydict :=
  if py_eqb (PDict value) (PDict [("action", PStr "health")]) then mret [("status", PStr "ok")]
  else
    instance ← lift (checked value);
    n ← gets gw_calls;
    lift (at_netbox env n);;
    catch (worker_body instance value) (λ e,
      match e with
      | ControlError _ => raise e
      | _ => raise (ControlError (failed_child (dget "action" value)))
      end).

(** [getattr(error, "code", "CONTROL_UNAVAILABLE")], filtered. *)
Definition safe_code (e : exn) : string :=
  let code := match e with
              | LifecycleError c | OperationError c _ | ConfirmationError c | ManualSyncError c | ControlError c
              | HostRegistrationConflict c _ _ _ => c
              | OtherException _ (Some c) => c
              | _ => "CONTROL_UNAVAILABLE"
              end in
  if bool_decide (code ∈ SAFE_CODES) then code else "CONTROL_UNAVAILABLE".

(** [_handle_request] with [allowed_uid=0]: the code to send back, or the result. *)
Definition handle_request (arrived : bool) (value : pydict) : M gworld exn pydict :=
  catch (raise_if (negb (at_uid env =? 0)%Z) (ControlError "PEER_NOT_AUTHORIZED");;
         raise_if (negb arrived) (ControlError "CONTROL_REQUEST_INVALID");;
         handle value)
    (λ e, raise (ControlError (safe_code e))).

(** [RetirementClient.call] over [local_control.request]. *)
Definition request (value : pydict) : M gworld exn pydict := λ w,
  let '(answer, w') := match at_link env (gw_calls w) with
                       | NeverSent => (Err (ControlError "CONTROL_UNAVAILABLE"), w)
                       | RequestCut => handle_request false value w
                       | Delivered => handle_request true value w
                       | ReplyLost => (Err (ControlError "CONTROL_UNAVAILABLE"), (handle_request true value w).2)
                       | ReplyCut => (Err (ControlError "CONTROL_REQUEST_INVALID"), (handle_request true value w).2)
                       end in
  (answer, mkGW (gw_log w') (S (gw_calls w'))).

Definition message (q : remote_request) : pydict :=
  let base action operation := [("action", PStr action); ("operation_id", PStr (uuid_str operation))] in
  match q with
  | Receipt operation => base "receipt" operation
  | Review operation source cluster => base "review" operation ++ [("source_instance", PStr source); ("cluster_id", cluster)]
  | ArchiveReview operation source => base "archive_review" operation ++ [("source_instance", PStr source)]
  | Execute operation digest => base "execute" operation ++ [("digest", digest)]
  | ArchiveExecute operation digest => base "archive_execute" operation ++ [("digest", digest)]
  | PurgeLocal operation source digest => base "purge_local" operation ++ [("source_instance", PStr source); ("digest", digest)]
  | Audit operation source => base "audit" operation ++ [("source_instance", PStr source)]
  | Namespace operation source => base "namespace" operation ++ [("source_instance", PStr source)]
  end%list.

(** The envelope the coordinator unpacks. *)
Definition unpack (answer : pydict) : result exn envelope :=
  guard ← py_item "guard_instance" (PDict answer);
  instance ← uuid_value guard;
  value ← py_item "result" (PDict answer);
  match value with PDict d => Ok (mkEnvelope instance d) | _ => Err (TypeError "result") end.

#[export] Instance worker_remote : GuardRemote gworld := λ q,
  answer ← request (message q); lift (unpack answer).
End Worker.
