(* ===== verification/GuardRefusal.v ===== *)
(** * What a definite refusal says about NetBox

    From the HTTP exchange up to the journal: a request to delete or archive a
    source that comes back as a definite refusal has changed nothing, because it
    was never sent or NetBox refused it by a known code. Together with the
    coordinator's rule for BLOCKED this reaches from a response of NetBox to the
    state of the record. *)

From S2P Require Import Prelude PyValue SourceConfig Schema PyUuid SourceOperations SourceLifecycle Retirement RetirementSpec Coordinator CoordinatorOutcome GuardTransport.
From stdpp Require Import base list strings gmap pretty.
From Stdlib Require Import ZArith Lia Ascii.
Local Open Scope string_scope.
#[local] Arguments py_eqb _ _ : simpl never.

(** ** Refused by a known code *)

Definition refused_by_code (x : http_request * http_outcome) : Prop :=
  ∃ status value code, x.2 = Response status (Json (PDict value)) ∧ status ∈ [400; 401; 403; 404; 409]%Z ∧
    dget "code" value = PStr code ∧ code ∈ GUARD_CODES.

(** A log whose mutating requests were all refused. *)
Definition untouched (new : hlog) : Prop := ∀ x, x ∈ new → hr_method x.1 = POST → refused_by_code x.

Definition only_reads (log log' : hlog) : Prop := ∃ new, log' = (log ++ new)%list ∧ Forall (λ x, hr_method x.1 = GET) new.
#[export] Instance only_reads_preorder : PreOrder only_reads.
Proof.
  split.
  - intros log. exists []. by rewrite app_nil_r.
  - intros l1 l2 l3 (n1 & -> & H1) (n2 & -> & H2). exists (n1 ++ n2)%list. by rewrite (assoc_L (++)%list), Forall_app.
Qed.
Lemma only_reads_untouched log log' : only_reads log log' → ∃ new, log' = (log ++ new)%list ∧ untouched new.
Proof.
  intros (new & -> & H). exists new. split; [done|]. intros x Hx Hp. rewrite Forall_forall in H. rewrite H in Hp by done. done.
Qed.

(** An error that claims certainty leaves NetBox untouched. *)
Definition certain {A} (m : M hlog guard_exn A) (log : hlog) : Prop :=
  ∀ e log', m log = (Err e, log') → exn_uncertain e = false → ∃ new, log' = (log ++ new)%list ∧ untouched new.

Lemma certain_reads {A} (m : M hlog guard_exn A) log : moves only_reads m log → certain m log.
Proof. unfold moves. intros H e log' E _. rewrite E in H. by apply only_reads_untouched. Qed.

Lemma certain_bind {A B} (m : M hlog guard_exn A) (k : A → M hlog guard_exn B) log :
  moves only_reads m log → (∀ a log1, m log = (Ok a, log1) → certain (k a) log1) → certain (m ≫= k) log.
Proof.
  unfold moves. intros Hm Hk e log' H Hu. unfold mbind, M_bind in H. destruct (m log) as [[a|e1] log1]; simpl in Hm.
  - destruct (Hk a log1 eq_refl e log' H Hu) as (new & -> & Hn). apply only_reads_untouched in Hm as (n1 & -> & H1).
    exists (n1 ++ new)%list. rewrite (assoc_L (++)%list). split; [done|]. intros x [?|?]%elem_of_app; auto.
  - injection H as <- <-. by apply only_reads_untouched.
Qed.

Section Certain.
Context (http : hlog → http_request → http_outcome) (instance : N) (sha256 : string → string).

Lemma request_refused q log e log' :
  hr_path q ≠ "providers/account-import/" → request_ http q log = (Err e, log') → exn_uncertain e = false → hr_method q = POST →
  log' = (log ++ [(q, http log q)])%list ∧ refused_by_code (q, http log q).
Proof.
  intros Hp H Hu Hm. unfold request_ in H. injection H as H <-. split; [done|]. unfold interpret in H.
  rewrite (bool_decide_eq_true_2 (hr_method q = POST)) in H by done.
  destruct (http log q) as [| | | |status [| |[| | | | |value]]] eqn:Eo; try (injection H as <-; discriminate Hu).
  case_bool_decide; [discriminate H|]. destruct (refuses q status value) eqn:Er; [|injection H as <-; discriminate Hu].
  unfold refuses, atomic_refusal in Er. rewrite (bool_decide_eq_false_2 (hr_path q = _)), andb_false_r in Er by done. simpl in Er.
  inv_bool. destruct (dget "code" value) as [| | |code| |] eqn:Ec; try done. exists status, value, code.
  split_and!; [done|done|done|]. by eapply bool_decide_eq_true.
Qed.

(** After the answer to a mutation every error is uncertain. *)
Lemma certain_post {A} q (k : pydict → M hlog guard_exn A) log :
  hr_method q = POST → hr_path q ≠ "providers/account-import/" →
  (∀ v log1, raises (λ e, exn_uncertain e = true) (k v) log1) → certain (v ← request_ http q; k v) log.
Proof.
  intros Hm Hp Hk e log' H Hu. unfold mbind, M_bind in H. destruct (request_ http q log) as [[v|e1] log1] eqn:E.
  - pose proof (raises_Err _ _ _ _ _ (Hk v log1) H) as Hk'. simpl in Hk'. by rewrite Hu in Hk'.
  - injection H as -> ->. destruct (request_refused q log e log' Hp E Hu Hm) as [-> Hr]. eexists. split; [done|].
    intros x ->%list_elem_of_singleton _. exact Hr.
Qed.

Lemma check_receipt_uncertain value nonce log : raises (λ e, exn_uncertain e = true) (check_receipt value nonce true) log.
Proof. unfold check_receipt. by raises. Qed.

Lemma nonce_reads v log : moves only_reads (nonce_ v) log.
Proof. unfold nonce_. destruct (parse_uuid _); moves. Qed.
Lemma item_reads k v log : moves only_reads (item k v) log.
Proof. unfold item. destruct (dlookup k v); moves. Qed.
Lemma request_get_reads q log : hr_method q = GET → moves only_reads (request_ http q) log.
Proof. intros H. unfold moves, request_. simpl. eexists. split; [done|]. by constructor. Qed.
Lemma capabilities_reads log : moves only_reads (capabilities http instance) log.
Proof. unfold capabilities. moves. by apply request_get_reads. Qed.

Lemma execute_certain operation digest log :
  certain (execute_source http operation digest) log ∧ certain (archive_execute http operation digest) log ∧
  certain (execute_object http operation digest) log.
Proof.
  unfold execute_source, archive_execute, execute_object.
  split_and!; (apply certain_bind; [apply nonce_reads|]; intros nonce log1 _; apply certain_bind; [moves|]; intros _ log2 _;
          apply certain_post; [done|done|]; intros; raises; first [done|apply check_receipt_uncertain]).
Qed.

(** The tests on a known action. *)
Ltac known_action :=
  repeat match goal with
  | |- context [action_in ?l (PStr ?a)] =>
      let b := eval vm_compute in (action_in l (PStr a)) in change (action_in l (PStr a)) with b; cbv iota
  end.

Lemma child_certain setup value log :
  executes (dget "action" value) = true → certain (child http instance sha256 setup value) log.
Proof.
  intros Hx. unfold child. apply certain_bind; [destruct setup; moves|]. intros _ log1 _.
  apply certain_bind; [apply capabilities_reads|]. intros caps log2 _. apply certain_bind; [moves|]. intros _ log3 _.
  apply certain_bind; [apply item_reads|]. intros action log4 Hi.
  assert (action = PStr "execute" ∨ action = PStr "archive_execute") as Ha.
  { unfold item in Hi. unfold dget in Hx. destruct (dlookup "action" value) as [v|]; [|discriminate Hi]. injection Hi as <- _. simpl in Hx.
    destruct v; try discriminate Hx. apply bool_decide_eq_true in Hx. rewrite !elem_of_cons, elem_of_nil in Hx. naive_solver. }
  clear Hi Hx. destruct Ha as [-> | ->]; known_action; unfold require;
    (apply certain_bind; [moves|]; intros _ log5 _; apply certain_bind; [moves|]; intros _ log6 _;
     intros e log' H; apply bind_Err in H as [H|(a & log7 & _ & H)]; [|discriminate H]; revert e log' H;
     apply certain_bind; [apply item_reads|]; intros operation log7 _; apply certain_bind; [apply item_reads|]; intros digest log8 _;
     apply execute_certain).
Qed.
End Certain.

(** ** Through the worker and the socket *)

(** An exception whose code is a definite refusal leaves NetBox untouched. *)
Definition honest {A} (m : M gworld exn A) : Prop :=
  ∀ w e w', m w = (Err e, w') → safe_code e ∈ DEFINITE_REFUSALS → ∃ new, gw_log w' = (gw_log w ++ new)%list ∧ untouched new.

Lemma unsent_untouched w w' : gw_log w' = gw_log w → ∃ new, gw_log w' = (gw_log w ++ new)%list ∧ untouched new.
Proof. intros ->. exists []. rewrite app_nil_r. split; [done|]. by intros ? ?%not_elem_of_nil. Qed.

Lemma not_definite code : bool_decide (code ∈ DEFINITE_REFUSALS) = false → ¬ code ∈ DEFINITE_REFUSALS.
Proof. apply bool_decide_eq_false. Qed.
Ltac indefinite := exfalso; match goal with H : ?c ∈ DEFINITE_REFUSALS |- _ => revert H; apply not_definite; vm_compute; reflexivity end.

Lemma executes_cases action : executes action = true → action = PStr "execute" ∨ action = PStr "archive_execute".
Proof.
  destruct action; try discriminate. intros H%bool_decide_eq_true. rewrite !elem_of_cons, elem_of_nil in H. naive_solver.
Qed.

Section Honest.
Context (env : surroundings) (sha256 : string → string).

Lemma reported_keys code uncertain :
  same_keys [("error", PStr code); ("uncertain", PBool uncertain)] ["guard_instance"; "result"] = false.
Proof. vm_compute. reflexivity. Qed.

Lemma worker_body_honest instance value :
  executes (dget "action" value) = true → honest (catch (worker_body env sha256 instance value) (λ e,
      match e with ControlError _ => raise e | _ => raise (ControlError (failed_child (dget "action" value))) end)).
Proof.
  intros Hx w e w' H Hc. unfold catch, failed_child in H. rewrite Hx in H.
  unfold worker_body in H. unfold mbind at 1, M_bind at 1 in H. unfold run_child, child_main in H.
  destruct (child _ _ _ _ _ _) as [[result|e1] log'] eqn:Ec;
    (destruct (at_child env (gw_calls w)); [|unfold failed_child in H; rewrite Hx in H; injection H as <- _; indefinite|injection H as <- _; indefinite]).
  - unfold child in Ec. inv_m. destruct (executes_cases _ Hx) as [E|E]; rewrite E in H; discriminate H.
  - match type of H with context [PStr ?c] => set (c0 := c) in *; clearbody c0 end.
    destruct (exn_uncertain e1) eqn:Eu; simpl in H; destruct (negb (bool_decide (c0 = ""))); simpl in H.
    all: try (rewrite (reported_keys c0) in H; simpl in H; injection H as <- _; indefinite).
    + injection H as <- _. indefinite.
    + injection H as _ <-. by apply (child_certain _ _ _ _ _ _ Hx _ _ Ec).
Qed.

Lemma handle_honest value : executes (dget "action" value) = true → honest (handle env sha256 value).
Proof.
  intros Hx w e w' H Hc. unfold handle in H. destruct (py_eqb _ _); [discriminate H|].
  apply bind_Err in H as [H|(instance & w1 & H1 & H)]; [injection H as _ <-; by apply unsent_untouched|]. injection H1 as _ <-.
  apply bind_Err in H as [H|(n & w1 & H1 & H)]; [discriminate H|]. injection H1 as <- <-.
  apply bind_Err in H as [H|(u & w1 & H1 & H)]; [injection H as _ <-; by apply unsent_untouched|]. injection H1 as _ <-.
  by apply (worker_body_honest instance value Hx w e w').
Qed.

(** The filter keeps a definite code and makes none. *)
Lemma safe_code_idem e : safe_code (ControlError (safe_code e)) = safe_code e.
Proof.
  assert (safe_code e ∈ SAFE_CODES) as H.
  { unfold safe_code. case_bool_decide; [done|decided]. }
  unfold safe_code at 1. by rewrite bool_decide_eq_true_2.
Qed.

Lemma handle_request_honest arrived value :
  executes (dget "action" value) = true → honest (handle_request env sha256 arrived value).
Proof.
  intros Hx w e w' H Hc. unfold handle_request, catch in H.
  match type of H with context [match ?m w with _ => _ end] => destruct (m w) as [[r|e1] w1] eqn:E end; [discriminate H|].
  injection H as <- <-. rewrite safe_code_idem in Hc.
  apply bind_Err in E as [E|(u & w2 & E1 & E)].
  - destruct (at_uid env =? 0)%Z; [discriminate E|]. injection E as _ <-. by apply unsent_untouched.
  - destruct (at_uid env =? 0)%Z; [injection E1 as _ <-|discriminate E1].
    apply bind_Err in E as [E|(u' & w2 & E1 & E)].
    + destruct arrived; [discriminate E|]. injection E as _ <-. by apply unsent_untouched.
    + destruct arrived; [injection E1 as _ <-|discriminate E1]. by apply (handle_honest value Hx w e1 w1).
Qed.

Lemma request_honest value : executes (dget "action" value) = true → honest (request env sha256 value).
Proof.
  intros Hx w e w' H Hc. unfold request in H. destruct (at_link env (gw_calls w)); try (injection H as <- _; indefinite).
  all: destruct (handle_request _ _ _ value w) as [r w1] eqn:E; injection H as -> <-; by eapply (handle_request_honest _ value Hx w e w1).
Qed.

Lemma mutation_message q : mutates q = true → executes (dget "action" (message q)) = true.
Proof. by destruct q. Qed.

Lemma unpack_local answer : fails local_error (unpack answer).
Proof.
  unfold unpack, uuid_value. raises; repeat case_match; done.
Qed.

Lemma worker_honest q w code w' :
  mutates q = true → remote_call (GuardRemote := worker_remote env sha256) q w = (Err (ControlError code), w') → code ∈ DEFINITE_REFUSALS →
  ∃ new, gw_log w' = (gw_log w ++ new)%list ∧ untouched new.
Proof.
  intros Hq H Hc. unfold remote_call, worker_remote in H. apply bind_Err in H as [H|(answer & w1 & _ & H)].
  - apply (request_honest _ (mutation_message q Hq) w _ w' H). unfold safe_code. rewrite bool_decide_eq_true_2; [done|].
    unfold SAFE_CODES. rewrite !elem_of_app. tauto.
  - injection H as H _. pose proof (unpack_local answer) as Hl. by rewrite H in Hl.
Qed.
End Honest.

Section EndToEnd.
Context (env : surroundings).
Context (schema : string) (sha256 : string → string) (time_str isoformat : Z → string).
Context (cleanup : list (list string) → list string → result exn pyval).
Context (lock_path : string).
#[local] Existing Instance worker_remote.

(** NetBox answered with a refusal status and a code of the guard. *)
Definition netbox_refused (o : http_outcome) : Prop :=
  ∃ status value code, o = Response status (Json (PDict value)) ∧ status ∈ [400; 401; 403; 404; 409]%Z ∧
    dget "code" value = PStr code ∧ code ∈ GUARD_CODES.

(** C5: BLOCKED is NetBox's own refusal. Whatever NetBox answers, whenever the child
    process is killed or breaks down and whichever message is lost: when a call of
    [execute] leaves as BLOCKED a retirement that was not, then in the exchange
    that caused it every POST that reached NetBox was answered with one of the
    statuses 400, 401, 403, 404 or 409 and a code of the guard's vocabulary, so
    none of them had an unknown outcome. *)
Theorem blocked_leaves_netbox_untouched source operation actor digest confirmed consent resume w res w' :
  execute (GuardRemote0 := worker_remote env sha256) schema sha256 time_str isoformat cleanup lock_path source operation actor digest confirmed
    consent resume w = (res, w') →
  becomes_blocked operation (cw_db w) (cw_db w') →
  ∃ new x sent, cw_log w' = (cw_log w ++ new)%list ∧ x ∈ new ∧ mutates (ex_request x) = true ∧
    gw_log (ex_after x) = (gw_log (ex_before x) ++ sent)%list ∧
    ∀ q o, (q, o) ∈ sent → hr_method q = POST → netbox_refused o.
Proof.
  intros H Hb.
  destruct (blocked_by_refusal _ _ _ _ _ _ _ _ _ _ _ _ _ _ _ _ H Hb) as (new & El & x & code & Hx & Hm & Hcall & Hc).
  destruct (worker_honest _ _ _ _ _ _ Hm Hcall Hc) as (sent & Es & Hu). exists new, x, sent.
  split_and!; [done|done|done|done|]. intros q o Hin Hp. exact (Hu (q, o) Hin Hp).
Qed.
End EndToEnd.

(** ** Names the guard does not take *)

(** A source named with a dot is valid for the configuration and for the worker,
    but the client refuses to ask NetBox about it: no request leaves. *)
Lemma dotted_source_never_asked http instance sha256 operation log :
  source_instance_ok "pve.lab" = true ∧
  namespace_state http instance (PStr "pve.lab") log = (Err (GuardTransportError "GUARD_RESPONSE_INVALID" false), log) ∧
  audit_source http sha256 (PStr "pve.lab") operation log = (Err (GuardTransportError "GUARD_RESPONSE_INVALID" false), log).
Proof. split_and!; [vm_compute; reflexivity|reflexivity|reflexivity]. Qed.

(** ** A concrete NetBox: it reviews, and refuses to execute *)

Definition guard_digest : string := "00112233445566778899aabbccddeeff00112233445566778899aabbccddeeff".
Definition guard_capabilities : pydict :=
  [("protocol", PInt 1); ("guard_instance", PStr (uuid_str 5)); ("netbox_version", PStr "4.7.0"); ("atomic_dependency_guard", PBool true);
   ("creation_receipts", PBool true); ("retirement_receipts", PBool true); ("source_tree_retirement", PBool true);
   ("source_generation_closure", PBool true); ("source_namespace_state", PBool true)].
Definition guard_reviewed : pydict :=
  [("nonce", PStr (uuid_str 9)); ("source_instance", PStr "pve-a"); ("status", PStr "REVIEWED"); ("digest", PStr guard_digest);
   ("manifest", sample_manifest); ("deleted", PList [])].
Definition sample_netbox (_ : hlog) (q : http_request) : http_outcome :=
  match hr_method q with
  | GET => Response 200 (Json (PDict (if bool_decide (hr_path q = "capabilities/") then guard_capabilities else guard_reviewed)))
  | POST => if bool_decide (hr_path q = "sources/review/") then Response 201 (Json (PDict guard_reviewed))
            else Response 409 (Json (PDict [("code", PStr "OWNERSHIP_CONFLICT")]))
  end.
Definition sample_env : surroundings :=
  mkAround sample_netbox (λ _, Finished) (λ _, Delivered) (uuid_str 5) (λ _, Ok tt) (λ _, None)
    (λ _ _, Ok [("local_cleanup_verified", PBool true)]) 0.

Definition worker_start : cworld gworld := mkCW (mkLW retiring_db []) (mkGW [] 0) [].
Definition worker_reviewed : cworld gworld :=
  (Coordinator.review (GuardRemote0 := worker_remote sample_env sample_hash) sample_hash sample_time sample_time "/run/apply.lock"
     "pve-a" 9 "admin" sample_revision false false worker_start).2.
Definition worker_executed : result exn retirement_view * cworld gworld :=
  execute (GuardRemote0 := worker_remote sample_env sample_hash) "netbox_sync" sample_hash sample_time sample_time sample_delete "/run/apply.lock"
    "pve-a" 9 "admin" (PStr guard_digest) "PVE A" (PBool true) (PBool false) worker_reviewed.

Lemma blocked_leaves_netbox_untouched_witness :
  state_of (cw_db worker_executed.2) 9 = Some RT_BLOCKED ∧
  ∃ (new : list (exchange gworld)) x, x ∈ new ∧ mutates (ex_request x) = true.
Proof.
  split; [vm_compute; reflexivity|].
  destruct (blocked_leaves_netbox_untouched sample_env "netbox_sync" sample_hash sample_time sample_time sample_delete "/run/apply.lock"
    "pve-a" 9 "admin" (PStr guard_digest) "PVE A" (PBool true) (PBool false) worker_reviewed worker_executed.1 worker_executed.2
    (surjective_pairing _)) as (new & x & _ & _ & Hx & Hm & _).
  - split; [intros H; vm_compute in H; discriminate H|vm_compute; reflexivity].
  - exists new, x. split; [exact Hx|exact Hm].
Defined.
