(* ===== verification/RemovalQueue.v ===== *)
(** * Removal queue (netbox_sync/removal_queue.py)

    A confirmed removal that waits for admitted work: the request that fences
    every later admission of the source, and the failing of abandoned read
    operations. [tick], which drives the retirement coordinator, is not part of
    this file. *)

From S2P Require Import Prelude PyValue SourceConfig Schema RunHistory SourceOperations SourceLifecycle RunReconciliation.
From stdpp Require Import base list strings gmap pretty.
From Stdlib Require Import ZArith Lia Ascii.
Local Open Scope string_scope.

(** [public]. *)
Record removal_view := mkRemovalView {
  rv_source : string; rv_operation : string; rv_state : RemovalState; rv_safe_code : option string }.
Definition public_request (source : string) (q : removal_row) : removal_view :=
  mkRemovalView source (uuid_str (rmv_operation q)) (rmv_state q) (rmv_safe_code q).

(** A retirement that is dispatched, or whose refusal may still be resumed. *)
Definition removal_blocking (r : retirement_row) : bool :=
  ret_inflight r ||
  (bool_decide (ret_state r = RT_BLOCKED) && bool_decide (ret_safe_code r = Some "SOURCE_OPERATION_ACTIVE")).

Section Queue.
Context (sha256 : string → string) (time_str : Z → string).

(** The upsert of the request, under the unique operation id. *)
Definition save_request (source : string) (saved : option removal_row) (operation : N) (actor revision name : string) : DB removal_row :=
  s ← gets id;
  raise_if (exists_row (λ k q, negb (bool_decide (k = source)) && bool_decide (rmv_operation q = operation)) (removal_requests s))
    unique_violation;;
  created ← match saved with Some q => mret (rmv_created_at q) | None => clock_timestamp end;
  let q := mkRemoval operation actor revision name RM_WAITING None created in
  modify (on_removal_requests (<[source := q]>));;
  mret q.

(** The request saved earlier: the caller's own is returned, another one must
    be BLOCKED to be replaced. *)
Definition replays (operation : N) (actor : string) (saved : option removal_row) : bool :=
  match saved with Some q => bool_decide (rmv_operation q = operation) && bool_decide (rmv_actor q = actor) | None => false end.
Definition occupied (saved : option removal_row) : bool :=
  match saved with Some q => negb (bool_decide (rmv_state q = RM_BLOCKED)) | None => false end.

Definition enqueue (source : string) (operation : N) (actor revision_seen : string) (confirmed : pyval) : DB removal_view :=
  raise_if (negb (is_True confirmed) || bool_decide (actor = "") || Nat.ltb 200 (String.length actor)) (LifecycleError "REQUEST_INVALID");;
  atomic (
    s ← gets id;
    row ← require (sources s !! source) (LifecycleError "SOURCE_NOT_FOUND");
    let saved := removal_requests s !! source in
    if replays operation actor saved then
      q ← require saved (LifecycleError "SOURCE_NOT_FOUND");
      mret (public_request source q)
    else
      raise_if (occupied saved) (LifecycleError "SOURCE_RETIREMENT_PENDING");;
      raise_if (negb (bool_decide (revision sha256 time_str row = revision_seen))) (LifecycleError "SOURCE_LIFECYCLE_CONFLICT");;
      raise_if (exists_row (λ _ r, bool_decide (run_source_instance r = source) && unresolved (run_status r)) (blocking_sync_runs s))
        (LifecycleError "SOURCE_APPLY_UNCONFIRMED");;
      raise_if (exists_row (λ _ c, bool_decide (rec_source c = source) && bool_decide (rec_state c = RC_CREDENTIALS_PENDING))
                  (source_recoveries s)) (LifecycleError "SOURCE_RECOVERY_OUTCOME_UNCERTAIN");;
      raise_if (exists_row (λ _ r, bool_decide (ret_source r = source) && removal_blocking r) (source_retirements s))
        (LifecycleError "SOURCE_RETIREMENT_PENDING");;
      modify (on_sources (alter unschedule source));;
      q ← save_request source saved operation actor (revision sha256 time_str (unschedule row)) (cfg_name (src_config row));
      mret (public_request source q)).
End Queue.

Section Reads.
Context (schema : string).

(** The loop body of [reconcile_abandoned_reads]. *)
Definition fail_abandoned (source : string) (row : operation_row) : DB unit :=
  if negb (bool_decide (op_kind row ∈ ["DISCOVERY"; "PLAN"])) then mret tt
  else
    free ← gets (λ s, negb (bool_decide (lock_key schema source (op_kind row) ∈ session_locks s)));
    if (free : bool) then
      updated ← clock_timestamp;
      finished ← clock_timestamp;
      modify (on_source_operations (update_where (is_running (op_id row))
        (λ o, with_status o OP_FAILED updated (Some finished) (Some "OPERATION_INTERRUPTED") None)))
    else mret tt.

Definition reconcile_abandoned_reads (source : string) : DB unit :=
  atomic (
    now ← clock_timestamp;
    rows ← gets (λ s, (select (λ _ o, bool_decide (op_source o = source) && bool_decide (op_status o = OP_RUNNING) &&
                               (op_updated_at o <? now - us 180)%Z) (source_operations s)).*2);
    forM rows (fail_abandoned source)).
End Reads.

(** ** The fence *)

(** Nothing new is admitted for the source: no operation starts, no run is
    inserted and no lifecycle transition passes the gate, and the scheduler does
    not select it. *)
Record fenced (source : string) (s : db) : Prop := {
  fe_gate : ∃ e, source_gate source false false s = (Err e, s);
  fe_run r : run_source_instance r = source → ∃ e, insert_run r s = (Err e, s);
  fe_unscheduled row : sources s !! source = Some row → cfg_sync_enabled (src_config row) = false }.

Lemma queued_fenced source s q :
  removal_requests s !! source = Some q →
  (∀ row, sources s !! source = Some row → cfg_sync_enabled (src_config row) = false) → fenced source s.
Proof.
  intros Hq Hrow. split; [| |done].
  - unfold source_gate. rewrite (bind_step _ _ s s s) by done. unfold mbind, M_bind, raise_if.
    destruct (archived s source); [eauto|]. destruct (retirement_pending s source); [eauto|].
    rewrite bool_decide_eq_true_2 by eauto. simpl. eauto.
  - intros r Hr. unfold insert_run. rewrite (bind_step _ _ s s s) by done. unfold mbind, M_bind, raise_if.
    destruct (guard_run_source s (run_source_instance r)); simpl; [|eauto].
    unfold guard_queued_run. rewrite Hr, Hq. simpl. eauto.
Qed.

(** Once a removal is queued the source is fenced. A request that succeeds is
    the caller's own, saved before or now; a new one was confirmed against the
    current row with no unresolved run, no pending recovery and no dispatched
    retirement, leaves the source unscheduled, and from then on no operation
    starts, no run is inserted and no transition passes the gate. Other sources
    and requests are untouched. *)
Theorem enqueue_fences sha256 time_str source operation actor rev confirmed s v s' :
  enqueue sha256 time_str source operation actor rev confirmed s = (Ok v, s') →
  rv_operation v = uuid_str operation ∧ (∃ q, removal_requests s' !! source = Some q ∧ rmv_operation q = operation ∧ rmv_actor q = actor) ∧
  (s' = s ∨
   ∃ row, sources s !! source = Some row ∧ revision sha256 time_str row = rev ∧ occupied (removal_requests s !! source) = false ∧
     reconciliation_required source s = (Ok false, s) ∧ retirement_pending s source = false ∧ fenced source s' ∧
     sync_runs s' = sync_runs s ∧ source_retirements s' = source_retirements s ∧
     ∀ k, k ≠ source → sources s' !! k = sources s !! k ∧ removal_requests s' !! k = removal_requests s !! k).
Proof.
  unfold enqueue. intros H. apply bind_Ok in H as ([] & ? & [_ ->]%raise_if_Ok & H). rewrite atomic_Ok in H.
  apply bind_Ok in H as (? & ? & [-> ->]%gets_Ok & H). apply bind_Ok in H as (row & ? & [Hrow ->]%require_Ok & H). simpl in *.
  apply if_Ok in H as [[Hre H]|[Hre H]].
  - apply bind_Ok in H as (q & ? & [Hq ->]%require_Ok & [-> ->]%ret_Ok). rewrite Hq in Hre. simpl in Hre. inv_bool. subst.
    split; [done|]. split; [by exists q|by left].
  - apply bind_Ok in H as ([] & ? & [Hocc ->]%raise_if_Ok & H). apply bind_Ok in H as ([] & ? & [Hrev ->]%raise_if_Ok & H).
    apply bind_Ok in H as ([] & ? & [Hunres ->]%raise_if_Ok & H). apply bind_Ok in H as ([] & ? & [_ ->]%raise_if_Ok & H).
    apply bind_Ok in H as ([] & ? & [Hret ->]%raise_if_Ok & H). apply bind_Ok in H as ([] & ? & ->%modify_Ok & H).
    apply bind_Ok in H as (q & s1 & Hsave & [-> ->]%ret_Ok).
    assert (∃ created t, q = mkRemoval operation actor (revision sha256 time_str (unschedule row)) (cfg_name (src_config row)) RM_WAITING None created ∧
      s1 = on_removal_requests (<[source := q]>) (on_ticks t (on_sources (alter unschedule source) s))) as (created & tk & Eq & ->).
    { unfold save_request in Hsave. apply bind_Ok in Hsave as (? & ? & [-> ->]%gets_Ok & Hsave).
      apply bind_Ok in Hsave as ([] & ? & [_ ->]%raise_if_Ok & Hsave). apply bind_Ok in Hsave as (created & s2 & Hc & Hsave). inv_m.
      exists created. destruct (removal_requests s !! source).
      - apply ret_Ok in Hc as [-> ->]. exists id. split; [done|]. by destruct s.
      - injection Hc as <- <-. exists S. done. }
    inv_bool. subst q. split; [done|]. split; [eexists; simpl; rewrite lookup_insert_eq; done|]. right. exists row.
    split_and!; try done.
    + apply unresolved_none. intros k r Hk Hs. rewrite exists_row_false in Hunres. specialize (Hunres _ _ Hk).
      by rewrite bool_decide_eq_true_2 in Hunres.
    + unfold retirement_pending. apply exists_row_false. intros k r Hk. rewrite exists_row_false in Hret. specialize (Hret _ _ Hk).
      unfold removal_blocking in Hret. destruct (bool_decide _); [|done]. simpl in *. by apply orb_false_iff in Hret as [-> _].
    + eapply queued_fenced; simpl; [by rewrite lookup_insert_eq|]. intros row'. rewrite lookup_alter_eq, Hrow. by intros [= <-].
    + intros k Hk. simpl. by rewrite lookup_alter_ne, lookup_insert_ne.
Qed.

Lemma enqueue_fences_witness :
  let s' := (enqueue sample_hash sample_time "pve-a" 4 "admin" (revision sample_hash sample_time sample_row) (PBool true) (lw_db sample_world)).2 in
  fenced "pve-a" s'.
Proof.
  cbn zeta. set (s' := (enqueue _ _ _ _ _ _ _ _).2).
  destruct (enqueue_fences sample_hash sample_time "pve-a" 4 "admin" (revision sample_hash sample_time sample_row) (PBool true)
    (lw_db sample_world) (mkRemovalView "pve-a" (uuid_str 4) RM_WAITING None) s' ltac:(vm_compute; reflexivity))
    as (_ & (q & Hq & _) & [H|(row & _ & _ & _ & _ & _ & H & _)]); [|exact H].
  exfalso. rewrite H in Hq. vm_compute in Hq. discriminate Hq.
Defined.
