(* ===== verification/FairCursor.v ===== *)
(** * The rotating cursor

    The background workers take one item at a time with
    [ORDER BY (id > after) DESC, id LIMIT 1] and remember its id in [after]. The
    order, its first element, and why no item starves: the number of items ahead
    of a given one falls with every turn that serves another. *)

From S2P Require Import Prelude.
From stdpp Require Import base list gmap relations.
From Stdlib Require Import ZArith Lia.

Definition turn_leb (after a b : N) : bool :=
  match (after <? a)%N, (after <? b)%N with
  | true, false => true
  | false, true => false
  | _, _ => (a <=? b)%N
  end.

(** [... ORDER BY (id > after) DESC, id LIMIT 1]. *)
Definition next_turn {A} (id : A → N) (after : N) (l : list A) : option A :=
  head (isort (λ x y, turn_leb after (id x) (id y)) l).

Ltac turns :=
  unfold turn_leb in *;
  repeat match goal with
  | H : context [(?a <? ?b)%N] |- _ => destruct (N.ltb_spec a b)
  | |- context [(?a <? ?b)%N] => destruct (N.ltb_spec a b)
  | H : context [(?a <=? ?b)%N] |- _ => destruct (N.leb_spec a b)
  | |- context [(?a <=? ?b)%N] => destruct (N.leb_spec a b)
  end; try done; try lia; auto.

Lemma turn_total after a b : turn_leb after a b = true ∨ turn_leb after b a = true.
Proof. turns. Qed.
Lemma turn_trans after a b c : turn_leb after a b = true → turn_leb after b c = true → turn_leb after a c = true.
Proof. intros H1 H2. turns. Qed.

Lemma next_turn_Some {A} (id : A → N) after l x :
  next_turn id after l = Some x → x ∈ l ∧ ∀ y, y ∈ l → turn_leb after (id x) (id y) = true.
Proof.
  unfold next_turn. set (leb := λ x y, turn_leb after (id x) (id y)). intros H.
  pose proof (isort_StronglySorted leb (λ x y, turn_total after (id x) (id y)) (λ x y z, turn_trans after (id x) (id y) (id z)) l) as Hs.
  assert (∀ y, y ∈ isort leb l ↔ y ∈ l) as Hin by (intros; apply elem_of_isort).
  destruct (isort leb l) as [|x' l']; [done|]. injection H as ->. inversion Hs as [|? ? _ Hx]; subst. split; [apply Hin; left|].
  intros y [->|Hy]%Hin%elem_of_cons; [by destruct (turn_total after (id x) (id x))|]. rewrite Forall_forall in Hx. by apply Hx.
Qed.

Lemma next_turn_None {A} (id : A → N) after l : next_turn id after l = None → l = [].
Proof.
  unfold next_turn. intros H. destruct (isort _ l) eqn:E; [|done]. apply Permutation_nil. symmetry.
  by rewrite <-(isort_Permutation (λ x y, turn_leb after (id x) (id y)) l), E.
Qed.

(** The items that come before [t] when the cursor is at [after]. *)
Definition ahead (after t : N) (ids : gset N) : gset N := filter (λ a, turn_leb after a t = true ∧ a ≠ t) ids.

Lemma ahead_decreases after x t (ids ids' : gset N) :
  x ∈ ids → (∀ y, y ∈ ids → turn_leb after x y = true) → t ∈ ids → t ≠ x → ids' ⊆ ids →
  (size (ahead x t ids') < size (ahead after t ids))%nat.
Proof.
  intros Hx Hmin Ht Hne Hsub. apply subset_size. split.
  - intros y. unfold ahead. rewrite !elem_of_filter. intros [[Hy Hyt] Hin]. apply Hsub in Hin. split; [|done]. split; [|done].
    pose proof (Hmin _ Hin). pose proof (Hmin _ Ht). turns.
  - intros Hincl. assert (x ∈ ahead x t ids') as Hbad.
    { apply Hincl. unfold ahead. rewrite elem_of_filter. pose proof (Hmin _ Ht). by split_and!. }
    unfold ahead in Hbad. rewrite elem_of_filter in Hbad. destruct Hbad as [[Hbad _] _]. turns.
Qed.

Lemma ahead_size after t (ids : gset N) : t ∈ ids → (size (ahead after t ids) < size ids)%nat.
Proof.
  intros Ht. apply subset_size. split; [unfold ahead; set_solver|]. intros Hincl. specialize (Hincl t Ht).
  unfold ahead in Hincl. rewrite elem_of_filter in Hincl. by destruct Hincl as [[_ ?] _].
Qed.

(** ** Fairness *)

(** A system that serves, at every step, the next of the items it still has, and
    gets no new ones. *)
Class RotatingCursor (S : Type) (step : relation S) := {
  cursor : S → N;
  items : S → gset N;
  serves : S → option N;
  serves_next s x : serves s = Some x → x ∈ items s ∧ ∀ y, y ∈ items s → turn_leb (cursor s) x y = true;
  serves_some s : items s ≠ ∅ → is_Some (serves s);
  step_cursor s s' x : step s s' → serves s = Some x → cursor s' = x;
  step_items s s' : step s s' → items s' ⊆ items s }.
Arguments cursor {S step _}.
Arguments items {S step _}.
Arguments serves {S step _}.

Lemma turn_comes {S} (step : relation S) `{!RotatingCursor S step} n s s' t :
  nsteps step n s s' → t ∈ items s → (size (ahead (cursor s) t (items s)) < n)%nat →
  ∃ i si, (i < n)%nat ∧ nsteps step i s si ∧ nsteps step (n - i) si s' ∧ (serves si = Some t ∨ (t ∉ items si)).
Proof.
  intros Hn. induction Hn as [s|n s1 s2 s3 Hstep Hn IH]; intros Ht Hlt; [lia|].
  destruct (serves_some s1) as [x Hx]; [set_solver|]. destruct (decide (x = t)) as [->|Hne].
  { exists 0%nat, s1. split_and!; [lia|constructor|by econstructor|by left]. }
  destruct (decide (t ∈ items s2)) as [Ht2|Ht2].
  - destruct IH as (i & si & Hi & H1 & H2 & Hserve); [done| |].
    + destruct (serves_next _ _ Hx) as [Hin Hmin]. rewrite (step_cursor _ _ _ Hstep Hx).
      pose proof (ahead_decreases (cursor s1) x t (items s1) (items s2) Hin Hmin Ht ltac:(done) (step_items _ _ Hstep)). lia.
    + exists (Datatypes.S i), si. split_and!; [lia|by econstructor|done|done].
  - destruct n as [|n].
    + destruct (serves_next _ _ Hx) as [Hin Hmin]. exfalso.
      assert (x ∈ ahead (cursor s1) t (items s1)) as Hxa.
      { unfold ahead. rewrite elem_of_filter. split_and!; [by apply Hmin|done|done]. }
      assert (size (ahead (cursor s1) t (items s1)) ≠ 0%nat) by (intros E%size_empty_inv; set_solver). lia.
    + exists 1%nat, s2. split_and!; [lia|by eapply nsteps_once|done|by right].
Qed.

(** Nothing starves: within as many steps as there are items, each is served or
    gone. *)
Lemma nobody_starves {S} (step : relation S) `{!RotatingCursor S step} n s s' t :
  nsteps step n s s' → t ∈ items s → (size (items s) ≤ n)%nat →
  ∃ i si, (i < n)%nat ∧ nsteps step i s si ∧ nsteps step (n - i) si s' ∧ (serves si = Some t ∨ (t ∉ items si)).
Proof. intros Hn Ht Hle. eapply turn_comes; [done|done|]. pose proof (ahead_size (cursor s) t (items s) Ht). lia. Qed.
