(* ===== verification/RemovalTick.v ===== *)
(** * Background removal (netbox_sync/removal_queue.py, retirement_continuation.py)

    The maintenance of the lifecycle worker: one tick of the removal queue, which
    reviews and executes one confirmed request, and the continuation, which
    resumes one dispatched retirement. Both take turns with a cursor. *)

From S2P Require Import Prelude PyValue SourceConfig Schema RunHistory SourceOperations SourceLifecycle Retirement RetirementSpec Coordinator CoordinatorOutcome RunReconciliation RemovalQueue FairCursor.
From stdpp Require Import base list strings gmap pretty relations.
From Stdlib Require Import ZArith Lia Ascii.
Local Open Scope string_scope.
#[local] Arguments py_eqb _ _ : simpl never.

(** The maintenance worker: the cursors of the queue and of the continuation. *)
Record qworld (W : Type) := mkQW { qw_world : cworld W; qw_after : N; qw_resumed : N }.
Arguments mkQW {W}.
Arguments qw_world {W}.
Arguments qw_after {W}.
Arguments qw_resumed {W}.
Definition qw_db {W} (w : qworld W) : db := cw_db (qw_world w).

Definition waiting (s : db) : list (string * removal_row) :=
  select (λ _ q, bool_decide (rmv_state q = RM_WAITING)) (removal_requests s).
Definition next_request (after : N) (s : db) : option (string * removal_row) :=
  next_turn (λ kq, rmv_operation kq.2) after (waiting s).

(** Conditions that may end by themselves. *)
Definition transient : list string :=
  ["SOURCE_OPERATION_ACTIVE"; "SOURCE_APPLY_ACTIVE"; "LIFECYCLE_UNAVAILABLE"; "RETIREMENT_UNAVAILABLE"].

Definition block_request (source : string) (operation : N) (code : string) (s : db) : db :=
  on_removal_requests (update_where (λ k q, bool_decide (k = source) && bool_decide (rmv_operation q = operation))
    (λ q, mkRemoval (rmv_operation q) (rmv_actor q) (rmv_revision q) (rmv_display_name q) RM_BLOCKED (Some code) (rmv_created_at q))) s.

(** [code or fallback]. *)
Definition code_or (code : option string) (fallback : string) : string :=
  match code with Some c => if bool_decide (c = "") then fallback else c | None => fallback end.

(** The retirements the continuation may resume, oldest first for each source. *)
Definition resumable (r : retirement_row) : bool :=
  ret_inflight r || (bool_decide (ret_state r = RT_BLOCKED) && bool_decide (ret_safe_code r = Some "SOURCE_OPERATION_ACTIVE")).
Definition unsuperseded (r : retirement_row) : bool := negb (bool_decide (is_Some (ret_superseded_by r))).
Definition is_blocked (r : retirement_row) : Z := if bool_decide (ret_state r = RT_BLOCKED) then 1 else 0.
Definition older (a b : retirement_row) : bool :=
  (is_blocked a <? is_blocked b)%Z ||
  ((is_blocked a =? is_blocked b)%Z &&
   ((ret_created_at a <? ret_created_at b)%Z ||
    ((ret_created_at a =? ret_created_at b)%Z && (ret_operation a <? ret_operation b)%N))).
Definition first_of_source (s : db) (r : retirement_row) : bool :=
  negb (exists_row (λ _ o, bool_decide (ret_source o = ret_source r) && unsuperseded o && resumable o && older o r) (source_retirements s)).
Definition continuable (s : db) : list retirement_row :=
  (select (λ _ r, bool_decide (is_Some (sources s !! ret_source r)) && resumable r && unsuperseded r &&
                  bool_decide (ret_remove_credentials r = Some true) && first_of_source s r) (source_retirements s)).*2.

Section Tick.
Context {W : Type} `{!GuardRemote W}.
Context (schema : string) (sha256 : string → string) (time_str isoformat : Z → string).
Context (cleanup : list (list string) → list string → result exn pyval).
Context (lock_path : string).

Definition on_world {A} (m : M (cworld W) exn A) : M (qworld W) exn A := λ w,
  let '(r, c) := m (qw_world w) in (r, mkQW c (qw_after w) (qw_resumed w)).

Definition queue_status (source : string) (operation : N) (actor : string) : M (cworld W) exn (removal_view + retirement_view) :=
  s ← in_journal (gets id);
  let remote := match source_retirements s !! operation with Some r => bool_decide (ret_source r = source) | None => false end in
  match removal_requests s !! source, remote with
  | Some q, false =>
      raise_if (negb (bool_decide (rmv_operation q = operation)) || negb (bool_decide (rmv_actor q = actor))) (LifecycleError "RETIREMENT_CONFLICT");;
      mret (inl (public_request source q))
  | _, _ => v ← status source operation actor; mret (inr v)
  end.

(** The [try] block of [tick]. *)
Definition serve_request (source : string) (q : removal_row) : M (cworld W) exn unit :=
  let operation := rmv_operation q in
  let run digest :=
    execute schema sha256 time_str isoformat cleanup lock_path source operation (rmv_actor q) digest (rmv_display_name q) (PBool true) (PBool false);;
    mret tt in
  in_journal (reconcile_abandoned_reads schema source);;
  record ← in_journal (gets (λ s, source_retirements s !! operation));
  match record with
  | Some r =>
      raise_if (bool_decide (ret_state r = RT_BLOCKED)) (LifecycleError (code_or (ret_safe_code r) "RETIREMENT_BLOCKED"));;
      if negb (bool_decide (ret_state r = RT_READY)) then mret tt
      else v ← lift (public r); run (vw_digest v)
  | None =>
      v ← Coordinator.review sha256 time_str isoformat lock_path source operation (rmv_actor q) (rmv_revision q) false true;
      run (vw_digest v)
  end.

Definition tick : M (qworld W) exn unit :=
  w ← gets id;
  match next_request (qw_after w) (qw_db w) with
  | None => mret tt
  | Some (source, q) =>
      modify (λ w, mkQW (qw_world w) (rmv_operation q) (qw_resumed w));;
      on_world (catch (serve_request source q)
        (λ e, match e with
              | LifecycleError code =>
                  if bool_decide (code ∈ transient) then mret tt
                  else in_journal (atomic (modify (block_request source (rmv_operation q) code)))
              | _ => mret tt
              end))
  end.

(** [RetirementContinuation.__call__]: every exception is logged and dropped. *)
Definition resume_one : M (qworld W) exn unit :=
  w ← gets id;
  match next_turn ret_operation (qw_resumed w) (continuable (qw_db w)) with
  | None => mret tt
  | Some r =>
      modify (λ w, mkQW (qw_world w) (qw_after w) (ret_operation r));;
      remote ← lift (plan_remote r);
      digest ← lift (py_item "digest" remote);
      row ← require (sources (qw_db w) !! ret_source r) (KeyError "name");
      on_world (execute schema sha256 time_str isoformat cleanup lock_path (ret_source r) (ret_operation r) (ret_actor r) digest
                  (cfg_name (src_config row)) (PBool true) (PBool true));;
      mret tt
  end.
Definition continuation : M (qworld W) exn unit := catch (tick;; resume_one) (λ _, mret tt).

(** ** A turn touches one request *)

Definition only_request (source : string) (s s' : db) : Prop :=
  (∀ k, k ≠ source → removal_requests s' !! k = removal_requests s !! k) ∧
  (removal_requests s' !! source = None ∨ ∃ q, removal_requests s !! source = Some q ∧
     (removal_requests s' !! source = Some q ∨
      ∃ q', removal_requests s' !! source = Some q' ∧ rmv_operation q' = rmv_operation q ∧ rmv_state q' = RM_BLOCKED)).
#[export] Instance only_request_preorder source : PreOrder (only_request source).
Proof.
  split.
  - intros s. split; [done|]. destruct (removal_requests s !! source) as [q|]; [right; eauto|by left].
  - intros s1 s2 s3 [A1 A2] [B1 B2]. split; [intros k Hk; by rewrite B1, A1|].
    destruct B2 as [?|(q2 & Hq2 & B2)]; [by left|]. rewrite Hq2 in A2. destruct A2 as [?|(q1 & Hq1 & A2)]; [done|]. right. exists q1.
    split; [done|]. destruct A2 as [[= ->]|(q2' & [= <-] & E & Hb)]; [done|]. right.
    destruct B2 as [B2|(q3 & B2 & E' & Hb')]; eexists; (split; [done|]); [done|]. split; [congruence|done].
Qed.

Lemma same_requests source s s' : removal_requests s' = removal_requests s → only_request source s s'.
Proof. intros E. unfold only_request. rewrite E. split; [done|]. destruct (removal_requests s !! source) as [q|]; [right; eauto|by left]. Qed.

Hint Extern 0 (moves ?R (Retirement.guard _ _ _ _ _ _ _) _) => apply (moves_guard _ _ _ R) : moves.
Hint Extern 0 (moves ?R (record_of _ _ _) _) => apply (moves_record R) : moves.
Hint Extern 0 (moves ?R (source_gate _ _ _) _) => apply (moves_gate R) : moves.
Hint Extern 0 (moves ?R (returning _) _) => apply (moves_returning R) : moves.
Hint Extern 0 (moves ?R (admission_lock _) _) => apply (moves_admission _ R) : moves.

Ltac one_request := db_moves; try (by apply same_requests).

Lemma coord_step_request source operation s s' :
  coord_step schema sha256 time_str isoformat source operation s s' → only_request source s s'.
Proof.
  destruct 1 as [actor revision instance remote|actor digest confirmed consent|actor|actor code|actor instance receipt|actor code|actor| | |
                 revision name credentials| |].
  - change (moves (only_request source) (prepare sha256 time_str isoformat source operation actor revision instance remote) s).
    unfold prepare. one_request.
  - change (moves (only_request source) (begin sha256 time_str isoformat source operation actor digest confirmed consent) s).
    unfold begin, dispatch, extend_consent, disable_source, update_retirement. one_request.
  - change (moves (only_request source) (resume_legacy_busy sha256 time_str isoformat source operation actor) s).
    unfold resume_legacy_busy, update_retirement. one_request.
  - change (moves (only_request source) (uncertain source operation actor code) s). unfold uncertain, update_retirement. one_request.
  - change (moves (only_request source) (resolve source operation actor instance receipt) s). unfold resolve, update_retirement. one_request.
  - change (moves (only_request source) (blocked source operation actor code) s). unfold blocked, update_retirement. one_request.
  - change (moves (only_request source) (finalized schema source operation actor) s).
    unfold finalized, purge_retired_source, close_generation, insert_archive, update_retirement. one_request.
    split; [intros k Hk; simpl; by rewrite lookup_delete_ne|left; apply lookup_delete_eq].
  - change (moves (only_request source) (cleanup_pending operation) s). unfold cleanup_pending, update_retirement. one_request.
  - change (moves (only_request source) (cleanup_verified operation) s). unfold cleanup_verified, update_retirement. one_request.
  - change (moves (only_request source) (remove_row sha256 time_str source revision name credentials (Some operation)) s).
    unfold remove_row, disable_source. one_request.
  - by apply same_requests.
  - by apply same_requests.
Qed.

Lemma runs_request {A} source operation (m : M (cworld W) exn A) w :
  moves (on_cw (rtc (coord_step schema sha256 time_str isoformat source operation))) m w → moves (on_cw (only_request source)) m w.
Proof.
  unfold moves, on_cw. generalize (cw_db (m w).2). intros s' H. induction H; [reflexivity|].
  etrans; [by eapply coord_step_request|done].
Qed.

Lemma reads_request source other w : moves (on_cw (only_request source)) (in_journal (W := W) (reconcile_abandoned_reads schema other)) w.
Proof.
  apply (moves_in_journal _). unfold reconcile_abandoned_reads. one_request.
  apply (moves_forM _). intros row s1 _. unfold fail_abandoned. one_request.
Qed.

Lemma serve_request_one source q w : moves (on_cw (only_request source)) (serve_request source q) w.
Proof.
  unfold serve_request. db_moves; try apply reads_request; try (eapply runs_request, execute_runs); try (eapply runs_request, review_runs).
  apply (moves_in_journal _). by db_moves.
Qed.

(** What one tick does to the queue. *)
Lemma tick_one w :
  match next_request (qw_after w) (qw_db w) with
  | Some (source, q) => qw_after (tick w).2 = rmv_operation q ∧ only_request source (qw_db w) (qw_db (tick w).2)
  | None => (tick w).2 = w
  end.
Proof.
  unfold tick. rewrite (bind_step _ _ w w w) by done.
  destruct (next_request (qw_after w) (qw_db w)) as [[source q]|] eqn:E; [|done].
  unfold mbind, M_bind, modify, on_world. simpl.
  match goal with |- context [catch ?m ?h (qw_world w)] => assert (moves (on_cw (only_request source)) (catch m h) (qw_world w)) as Hm end.
  { apply (moves_catch _); [apply serve_request_one|]. intros e w1 _. destruct e; moves. apply (moves_in_journal _). moves.
    unfold block_request. split; [intros k Hk; simpl; rewrite lookup_update_where; rewrite bool_decide_eq_false_2 by done; by destruct (_ !! k)|].
    simpl. rewrite lookup_update_where. destruct (removal_requests (cw_db w1) !! source) as [q'|]; [|by left]. right. exists q'. split; [done|].
    simpl. destruct (_ && _); [right; eexists; split; [done|done]|by left]. }
  unfold moves, on_cw in Hm. unfold qw_db at 2. by destruct (catch _ _ (qw_world w)) as [r c].
Qed.

(** ** No request starves *)

Definition waiting_ids (s : db) : gset N := list_to_set ((λ kq, rmv_operation kq.2) <$> waiting s).
Lemma elem_of_waiting_ids s t :
  t ∈ waiting_ids s ↔ ∃ k q, removal_requests s !! k = Some q ∧ rmv_state q = RM_WAITING ∧ rmv_operation q = t.
Proof.
  unfold waiting_ids, waiting. rewrite elem_of_list_to_set, list_elem_of_fmap. split.
  - intros ([k q] & -> & [Hk Hb]%elem_of_select). apply bool_decide_eq_true in Hb. eauto.
  - intros (k & q & Hk & Hs & <-). exists (k, q). split; [done|]. apply elem_of_select. split; [done|]. by apply bool_decide_eq_true.
Qed.

(** A tick, and then anything that adds no waiting request and leaves the cursor. *)
Definition queue_step (w w' : qworld W) : Prop :=
  waiting_ids (qw_db w') ⊆ waiting_ids (qw_db (tick w).2) ∧ qw_after w' = qw_after (tick w).2.

Definition served (w : qworld W) : option N := (λ kq, rmv_operation kq.2) <$> next_request (qw_after w) (qw_db w).

Lemma tick_waiting w : waiting_ids (qw_db (tick w).2) ⊆ waiting_ids (qw_db w).
Proof.
  pose proof (tick_one w) as H. destruct (next_request (qw_after w) (qw_db w)) as [[source q]|]; [|by rewrite H].
  destruct H as [_ [Ho Hs]]. intros t (k & q' & Hk & Hw & <-)%elem_of_waiting_ids. apply elem_of_waiting_ids.
  destruct (decide (k = source)) as [->|Hne]; [|rewrite Ho in Hk by done; eauto].
  destruct Hs as [Hs|(q0 & Hq0 & [Hs|(q1 & Hs & _ & Hb)])]; rewrite Hs in Hk; simplify_eq; [eauto|congruence].
Qed.

#[export] Instance queue_rotates : RotatingCursor (qworld W) queue_step.
Proof.
  refine {| cursor := qw_after; items w := waiting_ids (qw_db w); serves := served |}.
  - intros w x. unfold served, next_request. intros ([k q] & Hn & ->)%fmap_Some. apply next_turn_Some in Hn as [Hin Hmin]. split.
    + unfold waiting_ids. apply elem_of_list_to_set, list_elem_of_fmap. by exists (k, q).
    + intros y. unfold waiting_ids. rewrite elem_of_list_to_set, list_elem_of_fmap. intros ([k' q'] & -> & Hy). by apply (Hmin (k', q')).
  - intros w Hne. unfold served, next_request. destruct (next_turn _ _ _) as [kq|] eqn:E; [eauto|]. apply next_turn_None in E.
    destruct Hne. unfold waiting_ids. by rewrite E.
  - intros w w' x [_ Ha]. unfold served. intros (kq & Hn & ->)%fmap_Some. pose proof (tick_one w) as H. rewrite Hn in H.
    destruct kq as [source q]. by rewrite Ha, (proj1 H).
  - intros w w' [Hs _]. etrans; [exact Hs|apply tick_waiting].
Defined.

(** C36: no confirmed removal starves. As long as no new request arrives, within as many
    ticks as there are waiting requests every one of them gets its turn, whatever
    the coordinator and the worker do with the others: it is the one the tick
    serves, or it is no longer waiting. *)
Theorem queue_serves_every_request n w w' source q :
  nsteps queue_step n w w' → removal_requests (qw_db w) !! source = Some q → rmv_state q = RM_WAITING →
  (size (waiting_ids (qw_db w)) ≤ n)%nat →
  ∃ i wi, (i < n)%nat ∧ nsteps queue_step i w wi ∧ nsteps queue_step (n - i) wi w' ∧
    (served wi = Some (rmv_operation q) ∨ (rmv_operation q ∉ waiting_ids (qw_db wi))).
Proof.
  intros Hn Hq Hw Hle. exact (nobody_starves queue_step n w w' (rmv_operation q) Hn
    (proj2 (elem_of_waiting_ids _ _) (ex_intro _ source (ex_intro _ q (conj Hq (conj Hw eq_refl))))) Hle).
Qed.
End Tick.

(** ** A concrete queue *)

Definition queued_db : db :=
  (enqueue sample_hash sample_time "pve-a" 9 "admin" sample_revision (PBool true) retiring_db).2.
Definition queued_world : qworld bool := mkQW (mkCW (mkLW queued_db []) false []) 0 0.
Definition sample_tick : result exn unit * qworld bool :=
  tick (GuardRemote0 := sample_guard sample_succeeds) "netbox_sync" sample_hash sample_time sample_time sample_delete "/run/apply.lock" queued_world.

Lemma queue_serves_every_request_witness :
  (∃ q, removal_requests queued_db !! "pve-a" = Some q ∧ rmv_state q = RM_WAITING) ∧ removal_requests (qw_db sample_tick.2) !! "pve-a" = None ∧
  ∃ wi, served wi = Some 9%N ∨ (9%N ∉ waiting_ids (qw_db (W := bool) wi)).
Proof.
  destruct (removal_requests queued_db !! "pve-a") as [q|] eqn:E; [|vm_compute in E; discriminate E].
  assert (Hq : rmv_operation q = 9%N ∧ rmv_state q = RM_WAITING) by (vm_compute in E; injection E as <-; split; reflexivity).
  split; [exists q; split; [reflexivity|exact (proj2 Hq)]|]. split.
  { vm_compute. reflexivity. }
  destruct (queue_serves_every_request (GuardRemote0 := sample_guard sample_succeeds) "netbox_sync" sample_hash sample_time sample_time
    sample_delete "/run/apply.lock" 1 queued_world sample_tick.2 "pve-a" q) as (i & wi & _ & _ & _ & H).
  - apply nsteps_once. split; [reflexivity|reflexivity].
  - exact E.
  - exact (proj2 Hq).
  - vm_compute. lia.
  - exists wi. rewrite <-(proj1 Hq). exact H.
Defined.
