(* ===== verification/RetirementSystem.v ===== *)
(** * The retirement subsystem as a whole

    Every entry point that can move a retirement, in any order: reviews and
    executions an admin asks for, queued requests, the maintenance tick with its
    continuation, renames and removals. The journal they leave is one the machine
    of claims allows. *)

From S2P Require Import Prelude PyValue SourceConfig Schema RunHistory SourceOperations SourceLifecycle Retirement RetirementSpec Coordinator CoordinatorOutcome RunReconciliation RemovalQueue FairCursor RemovalTick.
From stdpp Require Import base list strings gmap pretty relations.
From Stdlib Require Import ZArith Lia Ascii.
Local Open Scope string_scope.
#[local] Arguments py_eqb _ _ : simpl never.

Section System.
Context {W : Type} `{!GuardRemote W}.
Context (schema : string) (sha256 : string → string) (time_str isoformat : Z → string).
Context (cleanup : list (list string) → list string → result exn pyval).
Context (lock_path : string).

(** A call of an entry point, or anything else that touches neither the registry
    nor the journal; the worker's state changes as it likes. *)
Inductive system_step (w : qworld W) : qworld W → Prop :=
| ss_review source operation actor revision archive queued :
    system_step w (on_world (Coordinator.review sha256 time_str isoformat lock_path source operation actor revision archive queued) w).2
| ss_execute source operation actor digest confirmed consent resume :
    system_step w (on_world (execute schema sha256 time_str isoformat cleanup lock_path source operation actor digest confirmed consent resume) w).2
| ss_rename source rev name : system_step w (on_world (in_store (rename sha256 time_str lock_path source rev name)) w).2
| ss_remove source rev name credentials :
    system_step w (on_world (in_store (SourceLifecycle.remove sha256 time_str cleanup lock_path source rev name credentials)) w).2
| ss_enqueue source operation actor rev confirmed :
    system_step w (on_world (in_journal (enqueue sha256 time_str source operation actor rev confirmed)) w).2
| ss_continuation : system_step w (continuation schema sha256 time_str isoformat cleanup lock_path w).2
| ss_other s cleaned g after resumed :
    sources s = sources (qw_db w) → source_retirements s = source_retirements (qw_db w) →
    system_step w (mkQW (mkCW (mkLW s cleaned) g (cw_log (qw_world w))) after resumed).

Definition journal_moves : relation db := rtc (journal_step schema sha256 time_str isoformat).

Lemma lock_journal (s : db) f : journal_moves s (on_session_locks f s).
Proof. apply rtc_once. by apply js_other. Qed.

Lemma moves_apply_lock {A} (body : M lworld exn A) l :
  (∀ l1, moves (on_lw journal_moves) body l1) → moves (on_lw journal_moves) (apply_lock lock_path body) l.
Proof.
  intros Hb. unfold apply_lock. moves; [apply (moves_in_db _); by db_moves|apply (moves_in_db _); apply lock_journal|].
  apply (moves_finally _); [apply Hb|]. intros. apply lock_journal.
Qed.

Lemma read_journal source l : moves (on_lw journal_moves) (in_db (read sha256 time_str source)) l.
Proof. apply (moves_in_db _), moves_reads; [apply _|apply read_reads]. Qed.

Lemma cleanup_journal source l : moves (on_lw journal_moves) (cleanup_credentials cleanup source) l.
Proof.
  assert (∀ l1 f, moves (on_lw journal_moves) (in_db (modify (on_source_tombstones (alter f source)))) l1) as Hset.
  { intros l1 f. apply (moves_in_db _), rtc_once. by apply js_other. }
  unfold cleanup_credentials. apply (moves_bind _).
  - apply (moves_in_db _), (moves_atomic _). db_moves. apply rtc_once. by apply js_other.
  - intros [state|row] l1 _; moves; [|apply (moves_in_db _); by db_moves].
    apply (moves_catch _); [|intros; moves]. unfold clean_files, clean_state, call_cleanup, set_credential_state.
    moves; try (apply (moves_in_db _); by db_moves). unfold moves, on_lw. simpl. reflexivity.
Qed.

Lemma remove_journal source rev name credentials l :
  moves (on_lw journal_moves) (SourceLifecycle.remove sha256 time_str cleanup lock_path source rev name credentials) l.
Proof.
  unfold SourceLifecycle.remove. apply moves_apply_lock. intros l1. unfold remove_locked. moves; [|apply cleanup_journal|apply read_journal].
  apply (moves_in_db _), rtc_once, js_remove.
Qed.

Lemma rename_journal source rev name l : moves (on_lw journal_moves) (rename sha256 time_str lock_path source rev name) l.
Proof.
  unfold rename. moves; [|apply read_journal]. apply moves_apply_lock. intros l1. apply (moves_in_db _), rtc_once, js_rename.
Qed.


Definition on_qw (w w' : qworld W) : Prop := journal_moves (qw_db w) (qw_db w').
#[export] Instance on_qw_preorder : PreOrder on_qw.
Proof. unfold on_qw, journal_moves. split; [intros ?; reflexivity|]. intros ? ? ? H1 H2. by etrans. Qed.

Lemma moves_on_world {A} (m : M (cworld W) exn A) w : moves (on_cw journal_moves) m (qw_world w) → moves on_qw (on_world m) w.
Proof. unfold moves, on_cw, on_qw, on_world, qw_db. by destruct (m (qw_world w)). Qed.

Lemma runs_journal_moves {A} source operation (m : M (cworld W) exn A) w :
  moves (on_cw (rtc (coord_step schema sha256 time_str isoformat source operation))) m w → moves (on_cw journal_moves) m w.
Proof. unfold moves, on_cw. apply coord_steps_journal. Qed.

Lemma execute_journal source operation actor digest confirmed consent resume w :
  moves (on_cw journal_moves) (execute schema sha256 time_str isoformat cleanup lock_path source operation actor digest confirmed consent resume) w.
Proof. eapply runs_journal_moves, execute_runs. Qed.
Lemma review_journal source operation actor revision archive queued w :
  moves (on_cw journal_moves) (Coordinator.review sha256 time_str isoformat lock_path source operation actor revision archive queued) w.
Proof. eapply runs_journal_moves, review_runs. Qed.

Lemma other_journal s s' : sources s' = sources s → source_retirements s' = source_retirements s → journal_moves s s'.
Proof. intros E1 E2. apply rtc_once. by apply js_other. Qed.

Lemma reads_journal source (w : cworld W) : moves (on_cw journal_moves) (in_journal (reconcile_abandoned_reads schema source)) w.
Proof.
  apply (moves_in_journal _). unfold reconcile_abandoned_reads. db_moves; try (by apply other_journal).
  apply (moves_forM _). intros row s1 _. unfold fail_abandoned. db_moves; by apply other_journal.
Qed.

Lemma serve_journal source q w : moves (on_cw journal_moves) (serve_request schema sha256 time_str isoformat cleanup lock_path source q) w.
Proof.
  unfold serve_request. db_moves; try apply reads_journal; try apply execute_journal; try apply review_journal.
  apply (moves_in_journal _). by db_moves.
Qed.

Lemma tick_journal w : moves on_qw (tick schema sha256 time_str isoformat cleanup lock_path) w.
Proof.
  unfold tick. db_moves; [unfold on_qw; reflexivity|]. apply moves_on_world, (moves_catch _); [apply serve_journal|].
  intros e w1 _. destruct e; moves. apply (moves_in_journal _). moves. by apply other_journal.
Qed.

Lemma continuation_journal w : moves on_qw (continuation schema sha256 time_str isoformat cleanup lock_path) w.
Proof.
  unfold continuation, resume_one. apply (moves_catch _); [|intros; moves]. db_moves; [apply tick_journal|unfold on_qw; reflexivity|].
  apply moves_on_world, execute_journal.
Qed.

Lemma enqueue_journal source operation actor rev confirmed (w : cworld W) :
  moves (on_cw journal_moves) (in_journal (enqueue sha256 time_str source operation actor rev confirmed)) w.
Proof.
  apply (moves_in_journal _). unfold enqueue, save_request. db_moves; try (by apply other_journal).
  apply rtc_once. by apply js_source.
Qed.

Lemma system_step_journal w w' : system_step w w' → journal_moves (qw_db w) (qw_db w').
Proof.
  destruct 1.
  - apply (moves_on_world (Coordinator.review sha256 time_str isoformat lock_path source operation actor revision archive queued) w), review_journal.
  - apply (moves_on_world (execute schema sha256 time_str isoformat cleanup lock_path source operation actor digest confirmed consent resume) w),
      execute_journal.
  - apply (moves_on_world (in_store (rename sha256 time_str lock_path source rev name)) w), (moves_in_store _), rename_journal.
  - apply (moves_on_world (in_store (SourceLifecycle.remove sha256 time_str cleanup lock_path source rev name credentials)) w),
      (moves_in_store _), remove_journal.
  - apply (moves_on_world (in_journal (enqueue sha256 time_str source operation actor rev confirmed)) w), enqueue_journal.
  - apply continuation_journal.
  - by apply other_journal.
Qed.

Lemma system_steps_journal w w' : rtc system_step w w' → journal_moves (qw_db w) (qw_db w').
Proof. induction 1 as [|w1 w2 w3 H _ IH]; [reflexivity|]. etrans; [by apply system_step_journal|done]. Qed.

(** C6: the retirement subsystem implements the abstract machine of claims. However
    reviews, executions, queued requests, maintenance ticks, renames and removals
    of any sources follow each other, whatever the worker answers and whatever
    the deletion of files does, the journal moves only as the machine allows: a
    claim is dispatched only while no other claim holds its source, and closed or
    purged only when proved. In particular at most one claim holds a source at
    any time, and the safety of the journal carries over to every reachable
    database. A call is one step: the apply lock serialises those that dispatch. *)
Theorem system_refines_claims w w' :
  rtc system_step w w' → source_retirements (qw_db w) = ∅ →
  rtc spec_step ∅ (abs (qw_db w')) ∧ exclusive (abs (qw_db w')) ∧ journal_inv (qw_db w').
Proof.
  intros Hs He. pose proof (journal_steps_refine _ _ _ _ _ _ (system_steps_journal _ _ Hs) (empty_inv _ He)) as [Hi Hr].
  unfold abs in Hr at 1. rewrite He, fmap_empty in Hr. split; [done|]. split; [|done].
  assert (∀ a a', rtc spec_step a a' → exclusive a → exclusive a') as Hkeep.
  { induction 1; eauto using spec_exclusive. }
  eapply Hkeep; [exact Hr|]. intros op op' source p p' H. by apply lookup_empty_Some in H.
Qed.
End System.

(** ** A queued removal carried out by one maintenance tick *)

Definition sample_maintenance (w : qworld bool) : qworld bool :=
  (continuation (GuardRemote0 := sample_guard sample_succeeds) "netbox_sync" sample_hash sample_time sample_time sample_delete
     "/run/apply.lock" w).2.
Definition idle_world : qworld bool := mkQW (mkCW (mkLW retiring_db []) false []) 0 0.
Definition requested_world : qworld bool :=
  (on_world (in_journal (enqueue sample_hash sample_time "pve-a" 9 "admin" sample_revision (PBool true))) idle_world).2.

Lemma system_refines_claims_witness :
  sources (qw_db (sample_maintenance requested_world)) = ∅ ∧
  rtc spec_step ∅ (abs (qw_db (sample_maintenance requested_world))).
Proof.
  split; [vm_compute; reflexivity|].
  refine (proj1 (system_refines_claims (GuardRemote0 := sample_guard sample_succeeds) "netbox_sync" sample_hash sample_time sample_time
    sample_delete "/run/apply.lock" idle_world (sample_maintenance requested_world) _ _)); [|reflexivity].
  eapply rtc_l; [exact (ss_enqueue (GuardRemote0 := sample_guard sample_succeeds) "netbox_sync" sample_hash sample_time sample_time
    sample_delete "/run/apply.lock" idle_world "pve-a" 9 "admin" sample_revision (PBool true))|].
  eapply rtc_l; [exact (ss_continuation (GuardRemote0 := sample_guard sample_succeeds) "netbox_sync" sample_hash sample_time sample_time
    sample_delete "/run/apply.lock" requested_world)|]. apply rtc_refl.
Defined.
