(* ===== verification/HostIdentity.v ===== *)
(** * One source per host, system wide

    The claims on hosts under every transaction that can touch them:
    reservations, reviewed admissions, guarded registrations, renames, removals,
    queued removals and the whole retirement protocol with its archives and
    purges. The transactions that end a generation only give claims up; the
    three that make one check it first. *)

From S2P Require Import Prelude PyValue SourceConfig Schema PyUuid EsxiIdentity NetworkScopes RunHistory SourceOperations Registry.
From S2P Require Import SourceLifecycle Retirement HostRegistration IdentityReview SourceRecovery Coordinator RemovalQueue.
From stdpp Require Import base list strings gmap pretty relations.
From Stdlib Require Import ZArith Lia Ascii.
Local Open Scope string_scope.
#[local] Arguments py_eqb _ _ : simpl never.

(** ** Claims are given up *)

Definition shrinks (s s' : db) : Prop := ∀ x a, claims s' x a → claims s x a.

#[global] Instance shrinks_preorder : PreOrder shrinks.
Proof. split; [by intros s x a|]. intros s1 s2 s3 H1 H2 x a H. by apply H1, H2. Qed.

Lemma shrinks_keeps s s' : shrinks s s' → keeps one_claimant s s'.
Proof. intros Hs Hi a x y Hx Hy. by eapply Hi; apply Hs. Qed.

Lemma same_shrinks s s' : same_claims s s' → shrinks s s'.
Proof. intros Hs x a. by rewrite (same_claims_iff _ _ _ _ Hs). Qed.

(** A statement that changes neither the type nor the anchor of the row. *)
Lemma alter_shrinks_at f source s :
  (∀ r, sources s !! source = Some r → cfg_source_type (src_config (f r)) = cfg_source_type (src_config r) ∧
        registration_anchor (settings_of (f r)) = registration_anchor (settings_of r)) →
  shrinks s (on_sources (alter f source) s).
Proof.
  intros Hf x a [(r & Hr & Hl & Ha)|Hv]; [left|by right]. simpl in Hr. destruct (decide (x = source)) as [->|Hne].
  - rewrite lookup_alter_eq in Hr. apply fmap_Some in Hr as (r0 & Hr0 & ->). destruct (Hf r0 Hr0) as [Ht Hs]. exists r0.
    unfold live, is_esxi in *. rewrite Ht in Hl. by rewrite Hs in Ha.
  - rewrite lookup_alter_ne in Hr by done. eauto.
Qed.

Lemma alter_shrinks f source s :
  (∀ r, cfg_source_type (src_config (f r)) = cfg_source_type (src_config r) ∧
        cfg_settings (src_config (f r)) = cfg_settings (src_config r)) →
  shrinks s (on_sources (alter f source) s).
Proof. intros Hf. apply alter_shrinks_at. intros r _. destruct (Hf r) as [-> ->]. done. Qed.

(** An archive ends the claim of its row, a release that of a reservation. *)
Lemma archive_shrinks source row s :
  shrinks s (on_source_archives (<[source := row]>) s).
Proof.
  intros x a [(r & Hr & Hl & Ha)|Hv]; [left|by right]. exists r. split; [done|]. split; [|done].
  unfold live, archived in *. simpl in Hl. apply andb_prop in Hl as [-> Hn%negb_true_iff%bool_decide_eq_false]. simpl.
  apply negb_true_iff, bool_decide_eq_false. intros Hs. apply Hn. destruct (decide (x = source)) as [->|Hne].
  - by rewrite lookup_insert_eq.
  - by rewrite lookup_insert_ne.
Qed.

Lemma release_shrinks P f s :
  (∀ v, resv_released_at (f v) ≠ None) → shrinks s (on_host_reservations (update_where P f) s).
Proof.
  intros Hf x a [Hrow|(v & Hv & Hr)]; [by left|right]. simpl in Hv. rewrite lookup_update_where in Hv.
  apply fmap_Some in Hv as (v0 & Hv0 & ->). destruct (P _ _); [by destruct (Hf v0)|eauto].
Qed.

Lemma purged_shrinks source s : shrinks s (purged source s).
Proof.
  intros x a [(r & Hr & Hl & Ha)|(v & Hv & Hrel)]; simpl in *.
  - apply lookup_delete_Some in Hr as [Hne Hr]. left. exists r. split; [done|]. split; [|done].
    unfold live, archived in *. simpl in Hl. by rewrite lookup_delete_ne in Hl.
  - apply lookup_delete_where in Hv as [Hv _]. right. eauto.
Qed.

Ltac shrink :=
  db_moves;
  match goal with
  | |- shrinks _ (on_sources (alter _ _) _) => by apply alter_shrinks
  | |- shrinks _ (on_source_archives _ _) => apply archive_shrinks
  | |- shrinks _ (on_host_reservations (update_where _ _) _) => by apply release_shrinks
  | |- shrinks _ (purged _ _) => apply purged_shrinks
  | |- shrinks _ _ => apply same_shrinks; by split
  end.

Section Steps.
Context (schema : string) (sha256 : string → string) (time_str isoformat : Z → string).

Hint Extern 0 (moves ?R (Retirement.guard _ _ _ _ _ _ _) _) => apply (moves_guard _ _ _ R) : moves.
Hint Extern 0 (moves ?R (record_of _ _ _) _) => apply (moves_record R) : moves.
Hint Extern 0 (moves ?R (source_gate _ _ _) _) => apply (moves_gate R) : moves.
Hint Extern 0 (moves ?R (returning _) _) => apply (moves_returning R) : moves.
Hint Extern 0 (moves ?R (admission_lock _) _) => apply (moves_admission _ R) : moves.

Lemma coord_step_shrinks source operation s s' :
  coord_step schema sha256 time_str isoformat source operation s s' → shrinks s s'.
Proof.
  destruct 1;
    match goal with
    | |- shrinks s (?m s).2 => change (moves shrinks m s)
    | |- _ => apply same_shrinks; by split
    end.
  - unfold prepare. shrink.
  - unfold begin, dispatch, extend_consent, disable_source, update_retirement. shrink.
  - unfold resume_legacy_busy, update_retirement. shrink.
  - unfold uncertain, update_retirement. shrink.
  - unfold resolve, update_retirement. shrink.
  - unfold blocked, update_retirement. shrink.
  - unfold finalized, close_generation, insert_archive, purge_retired_source, update_retirement. shrink.
  - unfold cleanup_pending, update_retirement. shrink.
  - unfold cleanup_verified, update_retirement. shrink.
  - unfold remove_row, disable_source. shrink.
Qed.

Hint Extern 0 (moves ?R (recovery_guard _ _ _ _ _ _) _) => apply (recovery_guard_reads _ _ R) : moves.
Hint Extern 0 (moves ?R (attempt_row _ _ _) _) => apply (attempt_row_reads R) : moves.
Hint Extern 0 (moves ?R (recovery_row_of _) _) => apply (recovery_row_reads R) : moves.

Lemma complete_shrinks verify_owned source value actor proof m s :
  moves shrinks (complete_transaction sha256 time_str verify_owned source value actor proof m) s.
Proof.
  unfold complete_transaction, as_uuid, stale_plans. db_moves; try (apply same_shrinks; by split).
  repeat match goal with
  | H : recovery_row_of _ _ = (Ok _, _) |- _ => apply recovery_row_Ok in H as [-> ?]
  | H : recovery_guard _ _ _ _ _ _ _ = (Ok _, _) |- _ => apply recovery_guard_Ok in H as (-> & _)
  | H : restored_config _ _ _ = Ok _ |- _ => apply restored_config_Ok in H as (? & ? & _ & _ & Hset)
  end.
  apply alter_shrinks_at. intros r Hr. simplify_eq. split; [done|]. simpl. rewrite Hset. apply anchor_api_port.
Qed.

Lemma recovery_shrinks source operation value actor rev proof s :
  moves shrinks (prepare_transaction sha256 time_str isoformat source operation actor rev proof) s ∧
  moves shrinks (begin_transaction sha256 time_str source value actor) s ∧
  moves shrinks (abandon_transaction source value actor) s.
Proof.
  unfold prepare_transaction, begin_transaction, abandon_transaction, as_uuid.
  split_and!; db_moves; apply same_shrinks; by split.
Qed.

Lemma lifecycle_shrinks source rev name credentials retirement operation actor confirmed s :
  moves shrinks (rename_row sha256 time_str source rev name) s ∧
  moves shrinks (remove_row sha256 time_str source rev name credentials retirement) s ∧
  moves shrinks (enqueue sha256 time_str source operation actor rev confirmed) s.
Proof.
  split_and!.
  - unfold rename_row. shrink.
  - unfold remove_row, disable_source. shrink.
  - unfold enqueue, save_request. shrink.
Qed.
End Steps.

(** ** Claims are made *)

Lemma create_keeps c s :
  (∀ a y, cfg_source_type c = "esxi" → registration_anchor (PDict (cfg_settings c)) = Some a → claims s y a →
     y = cfg_source_instance c) →
  moves (keeps one_claimant) (create_source c) s.
Proof.
  intros Hfree. unfold create_source. db_moves.
  apply (moves_catch _); [|intros; db_moves]. apply (moves_atomic _).
  unfold insert_source. db_moves; [framed|]. intros Hi b0 x y.
  set (s1 := on_sources _ _).
  assert (∀ z b, claims s1 z b →
            claims s z b ∨ z = cfg_source_instance c ∧ cfg_source_type c = "esxi" ∧ registration_anchor (PDict (cfg_settings c)) = Some b) as Hc.
  { intros z b [(r & Hr & Hl & Ha)|Hv]; [|by left; right]. subst s1. simpl in Hr. apply lookup_insert_Some in Hr as [[<- <-]|[_ Hr]].
    - right. unfold live, is_esxi in Hl. apply andb_prop in Hl as [Ht%bool_decide_eq_true _]. done.
    - left; left. eauto. }
  intros [Hx|(-> & Tx & Hx)]%Hc [Hy|(-> & Ty & Hy)]%Hc; [by eapply Hi|by eapply Hfree|by symmetry; eapply Hfree|done].
Qed.

Lemma guard_checks_Ok anchor source operation actor s u s' :
  guard_checks anchor source operation actor s = (Ok u, s') →
  s' = s ∧ claims s source anchor.
Proof.
  unfold guard_checks, as_uuid. intros H. apply bind_Ok in H as (reserved & ? & [-> ->]%gets_Ok & H).
  apply bind_Ok in H as (? & ? & Hr & H). destruct (active_reservation s anchor) as [[[holder op] ac]|] eqn:E; [|by apply raise_Ok in Hr].
  inv_m. inv_bool. subst. simpl in *. match goal with H : live_rows _ = _ |- _ => apply live_rows_Ok in H as (-> & _ & _) end.
  split; [done|]. apply active_reservation_Some in E as (v & Hv & Hrel & _). right. eauto.
Qed.

Lemma guard_checks_reads (R : relation db) `{!PreOrder R} anchor source operation actor s :
  moves R (guard_checks anchor source operation actor) s.
Proof. unfold guard_checks, as_uuid, live_rows. db_moves. Qed.

(** A registration under its guard: the configuration carries the anchor of the
    preview the guard was taken for. *)
Lemma register_keeps schema c preview operation actor cfg s :
  (∀ a, registration_anchor (PDict (cfg_settings cfg)) = Some a → esxi_anchor preview = Ok a) →
  moves (keeps one_claimant) (registration_guard schema c preview (cfg_source_instance cfg) operation actor (create_source cfg)) s.
Proof.
  intros Ha. unfold registration_guard, guard_locks. db_moves; [framed|]. apply (moves_finally _); [|intros; framed].
  db_moves; [apply guard_checks_reads, _|].
  match goal with H : guard_checks _ _ _ _ _ = _ |- _ => apply guard_checks_Ok in H as [-> Hc] end.
  intros Hi. refine (create_keeps _ _ _ Hi). intros b y _ Hb Hy. apply Ha in Hb.
  match goal with Hc : claims _ (cfg_source_instance _) ?a |- _ => assert (a = b) as -> by congruence end.
  by eapply (Hi b).
Qed.

(** ** The system *)

Section System.
Context (schema : string) (sha256 : string → string) (time_str isoformat : Z → string).
Context (validate_request : pydict → result exn (pydict * string)) (host_dto : pyval → result exn pydict).
Context (verify_owned : pyval → pyval → result exn pyval).

(** The transactions that read or write rows, archives or reservations, except
    the placement review; [id_other] is anything that leaves all three alone. *)
Inductive identity_step (s : db) : db → Prop :=
| id_reserve c preview source operation actor i :
    identity_step s (reserve schema validate_request c preview source operation actor i s).2
| id_register c preview operation actor cfg :
    (∀ a, registration_anchor (PDict (cfg_settings cfg)) = Some a → esxi_anchor preview = Ok a) →
    identity_step s (registration_guard schema c preview (cfg_source_instance cfg) operation actor (create_source cfg) s).2
| id_create cfg : cfg_source_type cfg ≠ "esxi" → identity_step s (create_source cfg s).2
| id_admit c source actor operation rev text reason anchor d a :
    confirm_request text actor reason anchor = Ok (d, a) →
    identity_step s (confirm_transaction schema sha256 time_str c source actor operation rev d reason a s).2
| id_verify c source actor operation rev proof :
    identity_step s (verify_transaction schema sha256 time_str isoformat host_dto c source actor operation rev proof s).2
| id_retire source operation s' : coord_step schema sha256 time_str isoformat source operation s s' → identity_step s s'
| id_recover source value actor proof m :
    identity_step s (complete_transaction sha256 time_str verify_owned source value actor proof m s).2
| id_rename source rev name : identity_step s (rename_row sha256 time_str source rev name s).2
| id_remove source rev name credentials : identity_step s (remove_row sha256 time_str source rev name credentials None s).2
| id_enqueue source operation actor rev confirmed :
    identity_step s (enqueue sha256 time_str source operation actor rev confirmed s).2
| id_other s' : same_claims s s' → identity_step s s'.

Lemma identity_step_keeps s s' : identity_step s s' → keeps one_claimant s s'.
Proof.
  destruct 1 as [| | |c source actor operation rev text reason anchor d a Hreq| |source operation s' Hc| |source rev name
                |source rev name credentials|source operation actor rev confirmed|s' Hs].
  - apply reserve_keeps.
  - by apply register_keeps.
  - by apply create_keeps.
  - apply confirm_transaction_keeps. intros b ->. by eapply confirm_request_Ok.
  - apply verify_keeps.
  - by eapply shrinks_keeps, coord_step_shrinks.
  - apply shrinks_keeps, complete_shrinks.
  - apply shrinks_keeps. by apply (lifecycle_shrinks sha256 time_str source rev name false None 0 "" PNone s).
  - apply shrinks_keeps. by apply (lifecycle_shrinks sha256 time_str source rev name credentials None 0 "" PNone s).
  - apply shrinks_keeps. by apply (lifecycle_shrinks sha256 time_str source rev "" false None operation actor confirmed s).
  - by apply same_claims_keeps.
Qed.

(** C11: one source per host. However reservations, guarded registrations, reviewed
    admissions, identity verifications, recoveries, renames, removals and the
    transactions of the retirement protocol follow each other, from a registry
    in which no host is claimed twice no host is ever claimed by two sources,
    neither by two live rows, nor by two open reservations, nor by a row and the
    reservation of another source. A registration stores the anchor its guard has
    checked; saving a placement checks nothing and is not one of the steps. *)
Theorem hosts_have_one_claimant s s' anchor x y :
  rtc identity_step s s' → one_claimant s → claims s' x anchor → claims s' y anchor → x = y.
Proof.
  intros Hs Hi. enough (one_claimant s') as Hi' by apply Hi'.
  induction Hs as [|s1 s2 s3 H _ IH]; [done|]. by apply IH, (identity_step_keeps _ _ H).
Qed.
End System.

(** ** A registration and what competes with it *)

Definition host_preview : pyval :=
  PDict [("provider", PStr "esxi"); ("hosts", PList [PDict [("id", PStr "44454C4C-3600-104B-8034-B7C04F4D3432")]])].
Definition host_anchor : string := "44454c4c-3600-104b-8034-b7c04f4d3432".
Definition any_request (r : pydict) : result exn (pydict * string) := Ok (r, hex_digits 64 0).
Definition any_host (v : pyval) : result exn pydict := match v with PDict d => Ok d | _ => Err (ValueError "") end.
Definition idle : contention := mkContention false false.

Definition reserved_db : db :=
  (reserve "netbox_sync" any_request idle host_preview "esx-a" (PStr (uuid_str 3)) "admin" None empty_db).2.
Definition registered_db : db :=
  (registration_guard "netbox_sync" idle host_preview "esx-a" (PStr (uuid_str 3)) "admin" (create_source esxi_config) reserved_db).2.

Example second_registration_refused :
  (reserve "netbox_sync" any_request idle host_preview "esx-b" (PStr (uuid_str 4)) "admin" None reserved_db).1 =
    Err (HostRegistrationConflict "HOST_REGISTRATION_RESERVED" (Some "esx-a") [] false) ∧
  (reserve "netbox_sync" any_request idle host_preview "esx-b" (PStr (uuid_str 4)) "admin" None registered_db).1 =
    Err (HostRegistrationConflict "HOST_ALREADY_REGISTERED" (Some "esx-a") [] false).
Proof. vm_compute. done. Qed.

Lemma registered_claim : claims registered_db "esx-a" host_anchor.
Proof. right. exists (mkReservation 3 "admin" 0 None). split; vm_compute; reflexivity. Qed.

Lemma nobody_claims : one_claimant empty_db.
Proof. intros a x y [(r & Hr & _)|(v & Hv & _)] _; simpl in *; simplify_map_eq. Qed.

Lemma hosts_have_one_claimant_witness : claims registered_db "esx-a" host_anchor ∧ "esx-a" = "esx-a".
Proof.
  split; [exact registered_claim|].
  refine (hosts_have_one_claimant "netbox_sync" sample_hash sample_time sample_time any_request any_host broker_says_yes
    empty_db registered_db host_anchor "esx-a" "esx-a" _ nobody_claims registered_claim registered_claim).
  eapply rtc_l; [exact (id_reserve "netbox_sync" sample_hash sample_time sample_time any_request any_host broker_says_yes
    empty_db idle host_preview "esx-a" (PStr (uuid_str 3)) "admin" None)|].
  eapply rtc_l; [refine (id_register "netbox_sync" sample_hash sample_time sample_time any_request any_host broker_says_yes
    reserved_db idle host_preview (PStr (uuid_str 3)) "admin" esxi_config _)|apply rtc_refl].
  intros a. vm_compute. by intros [= <-].
Defined.

(** ** The fence at run time, and the review that needs it *)

Lemma assert_exclusive_Ok c s u s' :
  assert_exclusive_host c s = (Ok u, s') →
  s' = s ∧ archived s (cfg_source_instance c) = false ∧
  (cfg_source_type c = "esxi" → ∀ a k r,
     registration_anchor (PDict (cfg_settings c)) = Some a → sources s !! k = Some r → k ≠ cfg_source_instance c →
     cfg_source_type (src_config r) = "esxi" → cfg_enabled (src_config r) = true → registration_anchor (settings_of r) ≠ Some a).
Proof.
  unfold assert_exclusive_host. intros H. apply bind_Ok in H as (? & ? & [-> ->]%gets_Ok & H).
  apply bind_Ok in H as (? & ? & [Ha ->]%raise_if_Ok & H). unfold id in *.
  destruct (bool_decide (cfg_source_type c = "esxi")) eqn:Et; simpl in H.
  - apply bind_Ok in H as (? & ? & [_ ->]%lift_Ok & H). apply bind_Ok in H as (? & ? & [_ ->]%raise_if_Ok & H).
    destruct (registration_anchor (PDict (cfg_settings c))) as [anchor|].
    + apply raise_if_Ok in H as [Hx ->]. split; [done|]. split; [done|]. intros _ a k r [= <-] Hk Hne Hr He Ha'.
      apply exists_row_false with (k := k) (r := r) in Hx; [|done].
      apply not_true_iff_false in Hx. apply Hx.
      by rewrite !andb_true_iff, negb_true_iff, !bool_decide_eq_true, bool_decide_eq_false.
    + apply ret_Ok in H as [_ ->]. done.
  - apply ret_Ok in H as [_ ->]. split; [done|]. split; [done|]. intros E. by rewrite bool_decide_eq_true_2 in Et.
Qed.

(** No two sources synchronize one host. Of two different enabled ESXi rows that
    carry the same anchor, neither passes [assert_exclusive_host], which an
    apply of a registered source calls before it writes: however the second claim came about, both are
    refused until a review ends one of them. *)
Theorem duplicate_claims_never_run s a k k' r r' :
  sources s !! k = Some r → sources s !! k' = Some r' → k ≠ k' →
  cfg_source_instance (src_config r) = k → cfg_source_instance (src_config r') = k' →
  is_esxi r = true → is_esxi r' = true → cfg_enabled (src_config r) = true → cfg_enabled (src_config r') = true →
  registration_anchor (settings_of r) = Some a → registration_anchor (settings_of r') = Some a →
  (∃ e, assert_exclusive_host (src_config r) s = (Err e, s)) ∧ (∃ e, assert_exclusive_host (src_config r') s = (Err e, s)).
Proof.
  intros Hk Hk' Hne Ek Ek' T T' E E' A A'. unfold is_esxi in *. inv_bool.
  assert (∀ c, ∃ res, assert_exclusive_host c s = (res, s)) as Hreads.
  { intros c. destruct (assert_exclusive_host c s) as [res s1] eqn:Eq. exists res.
    assert (moves eq (assert_exclusive_host c) s) as Hm by (unfold assert_exclusive_host; db_moves).
    unfold moves in Hm. rewrite Eq in Hm. simpl in Hm. by subst. }
  split.
  - destruct (Hreads (src_config r)) as [[u|e] Eq]; [|eauto]. apply assert_exclusive_Ok in Eq as (_ & _ & Hx).
    exfalso. apply (Hx T a k' r' A Hk'); congruence.
  - destruct (Hreads (src_config r')) as [[u|e] Eq]; [|eauto]. apply assert_exclusive_Ok in Eq as (_ & _ & Hx).
    exfalso. apply (Hx T' a k r A' Hk); congruence.
Qed.

(** A legacy row without an anchor whose endpoint answers as the host of
    [esx-a]. *)
Definition legacy_row : source_row :=
  let c := src_config (create_row esxi_config 0) in
  mkSourceRow
    {| cfg_id := "esx-b"; cfg_source_instance := "esx-b"; cfg_name := "esx-b"; cfg_source_type := "esxi";
       cfg_address := "10.0.0.9"; cfg_enabled := true; cfg_sync_enabled := false; cfg_sync_interval_seconds := 600;
       cfg_verify_ssl := true; cfg_target := cfg_target c; cfg_credentials := cfg_credentials c; cfg_sync_calendar := PNone;
       cfg_schedule_changed_at := Some 0%Z; cfg_legacy_identity_owner := false; cfg_settings := [] |} 0 0.
Definition discovery_row : operation_row :=
  mkOperation "esx-b" "DISCOVERY" 9 OP_SUCCEEDED 0 0 (Some 0%Z) None
    (Some [("source_instance", PStr "esx-b"); ("hosts", PList [PDict [("id", PStr host_anchor); ("name", PStr "esx")]])]).
Definition two_rows_db : db :=
  on_source_operations (<[("esx-b", "DISCOVERY") := discovery_row]>)
    (on_sources (<["esx-b" := legacy_row]>) registered_db).

(** A reviewed choice, as the catalog projects it. *)
Definition chosen (kind : string) (row : pydict) : pyval :=
  match project sample_hash kind row with Ok d => PDict d | Err _ => PNone end.
Definition reviewed_mapping : pyval :=
  PDict [("version", PInt 1);
         ("references", PDict [("site", chosen "site" [("id", PInt 1); ("name", PStr "s"); ("slug", PStr "s")]);
            ("cluster", chosen "cluster" [("id", PInt 2); ("name", PStr "c"); ("type", PDict [("id", PInt 5); ("name", PStr "t")]);
                                          ("scope_type", PStr "dcim.site"); ("scope_id", PInt 1)]);
            ("platform", chosen "platform" [("id", PInt 3); ("name", PStr "p"); ("slug", PStr "p")]);
            ("device_role", chosen "device_role" [("id", PInt 4); ("name", PStr "r"); ("slug", PStr "r")]);
            ("cluster_type", chosen "cluster_type" [("id", PInt 5); ("name", PStr "t"); ("slug", PStr "t")])]);
         ("host_types", PDict [(host_anchor, chosen "device_type" [("id", PInt 6); ("model", PStr "m"); ("slug", PStr "m")])]);
         ("hosts", PList [PDict [("id", PStr host_anchor); ("name", PStr "esx")]])].
Definition saved : result exn unit * db :=
  save_transaction sample_hash sample_time any_host "esx-b" (revision sample_hash sample_time legacy_row) (uuid_str 9)
    reviewed_mapping two_rows_db.

Example saved_ok : saved.1 = Ok tt ∧
  (registration_anchor ∘ (λ r, settings_of r) <$> sources saved.2 !! "esx-b") = Some (Some host_anchor).
Proof. vm_compute. done. Qed.

Lemma insert_unclaimed source row s :
  registration_anchor (settings_of row) = None → sources s !! source = None → one_claimant s →
  one_claimant (on_sources (<[source := row]>) s).
Proof.
  intros Ha Hn Hi a x y.
  assert (∀ z b, claims (on_sources (<[source := row]>) s) z b → claims s z b) as Hc.
  { intros z b [(r & Hr & Hl & Hb)|Hv]; [|by right]. simpl in Hr. apply lookup_insert_Some in Hr as [[<- <-]|[_ Hr]]; [congruence|].
    left. eauto. }
  intros Hx%Hc Hy%Hc. by eapply Hi.
Qed.

Lemma registered_one : one_claimant registered_db.
Proof.
  refine (identity_step_keeps "netbox_sync" sample_hash sample_time sample_time any_request any_host broker_says_yes reserved_db _
    (id_register _ _ _ _ _ _ _ _ idle host_preview (PStr (uuid_str 3)) "admin" esxi_config _) _).
  - intros a. vm_compute. by intros [= <-].
  - refine (identity_step_keeps "netbox_sync" sample_hash sample_time sample_time any_request any_host broker_says_yes empty_db _
      (id_reserve _ _ _ _ _ _ _ _ idle host_preview "esx-a" (PStr (uuid_str 3)) "admin" None) nobody_claims).
Qed.

Lemma operations_same f s : same_claims s (on_source_operations f s).
Proof. by split. Qed.

Lemma two_rows_one : one_claimant two_rows_db.
Proof.
  refine (same_claims_keeps _ _ (operations_same _ _) (insert_unclaimed "esx-b" legacy_row registered_db _ _ registered_one));
    vm_compute; reflexivity.
Qed.

(** ** Saving a placement does not look at the other sources *)

(** Two databases that differ in the rows of the other sources and in the reservations
    only. *)
Definition other_registrations (source : string) (s s2 : db) : Prop :=
  sources s2 !! source = sources s !! source ∧ s2 = on_sources (λ _, sources s2) (on_host_reservations (λ _, host_reservations s2) s).

(** Two programs that answer alike on such databases and keep them such. *)
Definition together {A} (source : string) (m m2 : DB A) (s s2 : db) : Prop :=
  (m2 s2).1 = (m s).1 ∧ other_registrations source (m s).2 (m2 s2).2.
Section Together.
Context (source : string).
Lemma together_bind {A B} (m m2 : DB A) (k k2 : A → DB B) s s2 :
  together source m m2 s s2 → (∀ a t t2, other_registrations source t t2 → together source (k a) (k2 a) t t2) →
  together source (m ≫= k) (m2 ≫= k2) s s2.
Proof.
  unfold together, mbind, M_bind. destruct (m s) as [r t], (m2 s2) as [r2 t2]. cbn. intros [-> Ht] Hk. destruct r as [a|e]; [by apply Hk|done].
Qed.
Lemma together_state {A} (k k2 : db → DB A) s s2 :
  other_registrations source s s2 →
  (∀ t h, t !! source = sources s !! source → together source (k s) (k2 (on_sources (λ _, t) (on_host_reservations (λ _, h) s))) s s2) →
  together source (s ← gets id; k s) (s ← gets id; k2 s) s s2.
Proof. intros [Hr E] H. specialize (H _ (host_reservations s2) Hr). rewrite <-E in H. exact H. Qed.
Lemma together_pure {A} (r : result exn A) s s2 : other_registrations source s s2 → together source (lift r) (lift r) s s2.
Proof. intros H. unfold together, lift. by destruct r. Qed.
Lemma together_raise_if b e s s2 : other_registrations source s s2 → together source (raise_if b e) (raise_if b e) s s2.
Proof. intros H. by destruct b. Qed.
Lemma together_modify f s s2 : other_registrations source (f s) (f s2) → together source (modify f) (modify f) s s2.
Proof. done. Qed.
Lemma together_clock s s2 : other_registrations source s s2 → together source clock_timestamp clock_timestamp s s2.
Proof. intros [H E]. destruct s, s2. simpl in *. injection E as -> -> -> -> -> -> -> -> -> -> -> -> -> -> -> -> -> ->. done. Qed.
Lemma together_atomic {A} (m m2 : DB A) s s2 : other_registrations source s s2 → together source m m2 s s2 → together source (atomic m) (atomic m2) s s2.
Proof. unfold together, atomic. destruct (m s) as [r t], (m2 s2) as [r2 t2]. cbn. intros H [-> Ht]. by destruct r. Qed.
End Together.

(** Saving a placement answers and writes alike whatever the other registrations are. *)
Lemma save_together sha256 time_str host_dto source rev discovery_id mapping s s2 :
  other_registrations source s s2 →
  together source (save_transaction sha256 time_str host_dto source rev discovery_id mapping)
    (save_transaction sha256 time_str host_dto source rev discovery_id mapping) s s2.
Proof.
  intros H. unfold save_transaction. apply together_atomic; [done|]. apply together_bind.
  { unfold source_gate. apply together_state; [done|]. intros t h Ht. apply together_bind; [by apply together_raise_if|]. intros [] s3 s4 H3.
    apply together_bind; [by apply together_raise_if|]. intros [] s5 s6 H5. by apply together_raise_if. }
  intros [] s3 s4 H3. apply together_bind.
  { unfold active_row. apply together_state; [done|]. intros t h Ht. apply together_bind.
    { simpl. rewrite Ht. unfold require. by destruct (sources s3 !! source). }
    intros row s5 s6 H5. apply together_bind; [by apply together_raise_if|]. done. }
  intros row s5 s6 H5. apply together_bind; [by apply together_raise_if|]. intros [] s7 s8 H7.
  apply together_state; [done|]. intros t h Ht. apply together_bind; [by apply together_raise_if|]. intros [] s9 s10 H9.
  apply together_bind; [by apply together_raise_if|]. intros [] s11 s12 H11. apply together_bind.
  { unfold placement_evidence. apply together_bind; [by apply together_clock|]. intros now s13 s14 H13. apply together_state; [done|]. intros t2 h2 Ht2.
    apply together_bind.
    { change (recent_discovery (on_sources _ _) source now ONE_DAY) with (recent_discovery s13 source now ONE_DAY).
      unfold require. by destruct (recent_discovery s13 source now ONE_DAY). }
    intros o s15 s16 H15. apply together_bind; [by apply together_raise_if|]. intros [] s17 s18 H17. by destruct (placement_hosts host_dto source o). }
  intros found s13 s14 H13. apply together_bind; [by apply together_raise_if|]. intros [] s15 s16 H15.
  apply together_bind; [by apply together_pure|]. intros q s17 s18 H17. apply together_bind.
  { apply together_modify. destruct H17 as [Hr E]. split; [simpl; by rewrite !lookup_alter_eq, Hr|]. rewrite E at 1. by destruct s17. }
  intros [] s19 s20 H19. unfold stale_plans. apply together_bind; [by apply together_clock|]. intros now s21 s22 H21.
  apply together_modify. destruct H21 as [Hr E]. split; [done|]. rewrite E at 1. by destruct s21.
Qed.
(** It writes no other row and no reservation. *)
Definition only_row (source : string) (s s' : db) : Prop :=
  (∀ k, k ≠ source → sources s' !! k = sources s !! k) ∧ host_reservations s' = host_reservations s ∧ source_archives s' = source_archives s.
#[local] Instance only_row_preorder source : PreOrder (only_row source).
Proof. split; [done|]. intros s1 s2 s3 (A1 & A2 & A3) (B1 & B2 & B3). split_and!; [intros k Hk; by rewrite B1, A1|congruence..]. Qed.
Lemma save_only_row sha256 time_str host_dto source rev discovery_id mapping s :
  moves (only_row source) (save_transaction sha256 time_str host_dto source rev discovery_id mapping) s.
Proof.
  unfold save_transaction, source_gate, active_row, placement_evidence, stale_plans. db_moves; try done.
  split_and!; [|done..]. intros k Hk. simpl. by rewrite lookup_alter_ne.
Qed.

(** C34: saving a placement does not look at the other sources. Unlike every other
    transaction that records a host, [save] takes over the discovered host without
    asking whether another row or reservation claims it: where it succeeds, it succeeds
    with the same row whatever the registry holds for the other sources and whatever is
    reserved; so if the saved row is live and another source claims its host, by a row
    or by an open reservation, two sources claim that host afterwards. *)
Theorem placement_save_unchecked sha256 time_str host_dto source rev discovery_id mapping s s' s2 :
  save_transaction sha256 time_str host_dto source rev discovery_id mapping s = (Ok tt, s') → other_registrations source s s2 →
  ∃ s2', save_transaction sha256 time_str host_dto source rev discovery_id mapping s2 = (Ok tt, s2') ∧
    sources s2' !! source = sources s' !! source ∧
    ∀ row anchor other, sources s' !! source = Some row → live s' source row = true → registration_anchor (settings_of row) = Some anchor →
      other ≠ source → claims s2 other anchor →
      claims s2' source anchor ∧ claims s2' other anchor ∧ ¬ one_claimant s2'.
Proof.
  intros E H. destruct (save_together sha256 time_str host_dto source rev discovery_id mapping s s2 H) as [E1 H'].
  pose proof (save_only_row sha256 time_str host_dto source rev discovery_id mapping s2) as Hm. unfold moves in Hm.
  destruct (save_transaction sha256 time_str host_dto source rev discovery_id mapping s2) as [r2 s2'] eqn:E2. rewrite E in E1, H'. cbn in E1, H', Hm.
  subst r2. destruct H' as [Hrow Es2']. destruct Hm as (Hothers & Hres & Harch). exists s2'. split_and!; [done|done|].
  intros row anchor other Hsaved Hlive Hanchor Hne Hclaim.
  assert (source_archives s2' = source_archives s') as Ha by (by rewrite Es2').
  assert (claims s2' source anchor) as H1.
  { left. exists row. rewrite Hrow. split_and!; [done| |done]. unfold live, archived in *. by rewrite Ha. }
  assert (claims s2' other anchor) as H2.
  { destruct Hclaim as [(r & Hr & Hl & Hra)|(v & Hv & Hopen)]; [left; exists r|right; exists v]; rewrite ?Hothers, ?Hres by done; [|done].
    split_and!; [done| |done]. unfold live, archived in *. by rewrite Harch. }
  split_and!; [done|done|]. intros Hone. by destruct Hne; apply (Hone anchor other source).
Qed.

(** A legacy row whose endpoint answers as an already registered host: the database
    without the registered one, and the one with it. *)
Definition alone_db : db := on_host_reservations (λ _, ∅) (on_sources (λ _, {["esx-b" := legacy_row]}) two_rows_db).
Definition saved_alone : result exn unit * db :=
  save_transaction sample_hash sample_time any_host "esx-b" (revision sample_hash sample_time legacy_row) (uuid_str 9) reviewed_mapping alone_db.
Lemma saved_alone_row : saved_alone.1 = Ok tt ∧ ∃ row, sources saved_alone.2 !! "esx-b" = Some row ∧
  live saved_alone.2 "esx-b" row = true ∧ registration_anchor (settings_of row) = Some host_anchor.
Proof.
  split; [vm_compute; reflexivity|]. destruct (sources saved_alone.2 !! "esx-b") as [r|] eqn:E; [|vm_compute in E; done]. exists r. split; [done|].
  vm_compute in E. injection E as <-. split; vm_compute; reflexivity.
Qed.
Lemma registered_claims : claims two_rows_db "esx-a" host_anchor.
Proof. right. exists (mkReservation 3 "admin" 0 None). split; vm_compute; reflexivity. Qed.

Lemma placement_save_unchecked_witness :
  one_claimant two_rows_db ∧ saved.1 = Ok tt ∧ claims saved.2 "esx-b" host_anchor ∧ claims saved.2 "esx-a" host_anchor ∧ ¬ one_claimant saved.2.
Proof.
  split; [exact two_rows_one|].
  destruct saved_alone_row as (Hok & row & Hrow & Hlive & Hanchor).
  destruct (placement_save_unchecked sample_hash sample_time any_host "esx-b" (revision sample_hash sample_time legacy_row) (uuid_str 9) reviewed_mapping
    alone_db saved_alone.2 two_rows_db) as (s2' & E & _ & H).
  - unfold saved_alone in Hok |- *. destruct (save_transaction _ _ _ _ _ _ _ alone_db) as [r s']. cbn in *. by subst.
  - split; vm_compute; reflexivity.
  - unfold saved. rewrite E. split; [reflexivity|]. apply (H row host_anchor "esx-a" Hrow Hlive Hanchor); [intros X; discriminate X|exact registered_claims].
Defined.

Definition saved_row (k : string) : source_row := default legacy_row (sources saved.2 !! k).

Lemma saved_rows :
  (sources saved.2 !! "esx-a" = Some (saved_row "esx-a") ∧ sources saved.2 !! "esx-b" = Some (saved_row "esx-b")) ∧
  (cfg_source_instance (src_config (saved_row "esx-a")) = "esx-a" ∧ cfg_source_instance (src_config (saved_row "esx-b")) = "esx-b") ∧
  (is_esxi (saved_row "esx-a") = true ∧ is_esxi (saved_row "esx-b") = true) ∧
  (cfg_enabled (src_config (saved_row "esx-a")) = true ∧ cfg_enabled (src_config (saved_row "esx-b")) = true) ∧
  registration_anchor (settings_of (saved_row "esx-a")) = Some host_anchor ∧
  registration_anchor (settings_of (saved_row "esx-b")) = Some host_anchor.
Proof. split_and!; vm_compute; reflexivity. Qed.

Lemma duplicate_claims_never_run_witness : ∃ e, assert_exclusive_host (src_config (saved_row "esx-a")) saved.2 = (Err e, saved.2).
Proof.
  destruct saved_rows as ((Ha & Hb) & (Ia & Ib) & (Ta & Tb) & (Ea & Eb) & Aa & Ab).
  exact (proj1 (duplicate_claims_never_run saved.2 host_anchor "esx-a" "esx-b" _ _ Ha Hb ltac:(discriminate) Ia Ib Ta Tb Ea Eb Aa Ab)).
Defined.
