(* ===== verification/SecretBroker.v ===== *)
(** * The secret broker (netbox_sync/secret_broker.py)

    The broker keeps one file per credential below a directory only it writes:
    its singleton lock and the ownership of the directory exclude other writers,
    so that a descriptor and its name denote one file for the length of a
    request. Every system call may fail; which ones fail and how much a write
    takes are oracles in the state, and the theorems hold for all of them. *)

From S2P Require Import Prelude Hoare PyValue JsonCanonical Calendar SourceConfig PyBytes.
From stdpp Require Import base list strings gmap.
From Stdlib Require Import ZArith Lia Ascii.
Local Open Scope string_scope.

(** ** The directory *)

Inductive entry_kind := REGULAR | SYMLINK | SPECIAL.
#[global] Instance entry_kind_eq_dec : EqDecision entry_kind.
Proof. solve_decision. Defined.

(** What [fstat], [listxattr] and [read] say of a directory entry. *)
Record file := mkFile {
  f_kind : entry_kind; f_uid : Z; f_gid : Z; f_links : Z; f_mode : Z; f_attrs : gmap string string; f_content : string }.
#[global] Instance file_eq_dec : EqDecision file.
Proof. solve_decision. Defined.

Record broker := mkBroker { files : gmap string file; faults : list bool; counts : list nat }.
Abbreviation BR := (M broker exn).

Definition on_files (f : gmap string file → gmap string file) (s : broker) : broker := mkBroker (f (files s)) (faults s) (counts s).

Definition OSError : exn := OtherException "OSError" None.
Definition FileExistsError : exn := OtherException "FileExistsError" None.
Definition FileNotFoundError : exn := OtherException "FileNotFoundError" None.
Definition BrokerError (code : string) : exn := OtherException "BrokerError" (Some code).

(** [except OSError] and [except BrokerError]. *)
Definition is_os_error (e : exn) : bool := bool_decide (e ∈ [OSError; FileExistsError; FileNotFoundError]).
Definition is_broker_error (e : exn) : bool :=
  match e with OtherException "BrokerError" (Some _) => true | _ => false end.

(** A system call that has no other effect than to fail or not. *)
Definition syscall : BR unit := λ s,
  match faults s with
  | failed :: rest => ((if failed : bool then Err OSError else Ok tt), mkBroker (files s) rest (counts s))
  | [] => (Ok tt, s)
  end.

(** ** Requests *)

Definition key_char (c : ascii) : bool := is_upper c || is_lower c || is_digit c || one_of "_-" c.
Definition KEY_PATTERN (s : string) : bool :=
  match s with
  | String c rest =>
      (is_upper c || is_lower c || is_digit c) && all_chars key_char rest && Nat.leb 15 (String.length rest) &&
      Nat.leb (String.length rest) 127
  | "" => false
  end.
Definition OPERATION_PATTERN (s : string) : bool :=
  all_chars key_char s && Nat.leb 20 (String.length s) && Nat.leb (String.length s) 128.
Definition MAX_SECRET_BYTES : nat := 4096.
Definition MAX_REQUEST_BYTES : Z := 8192.
Definition REQUEST_DEADLINE : Z := 5.

Definition XATTR_OPERATION : string := "user.netbox_sync.operation".
Definition XATTR_RECEIPT : string := "user.netbox_sync.receipt".
Definition XATTR_COMPLETE : string := "user.netbox_sync.complete".
(** The names of one generation: operation, receipt, complete. *)
Definition XATTR_NAMES : string * string * string := (XATTR_OPERATION, XATTR_RECEIPT, XATTR_COMPLETE).
Definition LEGACY_XATTR_NAMES : string * string * string :=
  ("user.infra_sync.operation", "user.infra_sync.receipt", "user.infra_sync.complete").

Definition owned_regular_file (f : file) : bool :=
  bool_decide (f_kind f = REGULAR) && (f_uid f =? 0)%Z && (f_gid f =? 0)%Z && (f_links f =? 1)%Z && (f_mode f =? 384)%Z.

Definition not_authorized : exn := BrokerError "ROLLBACK_NOT_AUTHORIZED".

(** [_key] and [_operation]. *)
Definition check_key (key : pyval) : result exn string :=
  match key with PStr k => if KEY_PATTERN k then Ok k else Err (BrokerError "SECRET_KEY_INVALID") | _ => Err (BrokerError "SECRET_KEY_INVALID") end.
Definition check_operation (value : pyval) : result exn string :=
  match value with
  | PStr o => if OPERATION_PATTERN o then Ok o else Err (BrokerError "OPERATION_ID_INVALID")
  | _ => Err (BrokerError "OPERATION_ID_INVALID")
  end.

(** [bytes.decode()]. *)
Definition decode_text (bytes : string) : result exn string :=
  match utf8_decode bytes with Some t => Ok t | None => Err (OtherException "UnicodeDecodeError" None) end.

(** ** Descriptors *)

(** [os.open(key, O_RDONLY | O_NOFOLLOW | O_NONBLOCK)]. *)
Definition open_read (key : string) : BR file :=
  syscall;;
  s ← gets files;
  match s !! key with
  | Some f => raise_if (bool_decide (f_kind f = SYMLINK)) OSError;; mret f
  | None => raise FileNotFoundError
  end.

(** The values of one generation of attributes, when it is present at all. *)
Record attributes := mkAttributes { at_operation : string; at_receipt : string; at_complete : string }.
#[global] Instance attributes_eq_dec : EqDecision attributes.
Proof. solve_decision. Defined.

Definition generation (f : file) (names : string * string * string) : result exn (option attributes) :=
  let '(o, r, c) := names in
  match f_attrs f !! o, f_attrs f !! r, f_attrs f !! c with
  | Some ov, Some rv, Some cv => Ok (Some (mkAttributes ov rv cv))
  | None, None, None => Ok None
  | _, _, _ => Err not_authorized
  end.

(** [_stored_attributes]: the values, and whether they are stored under the
    names of this program. *)
Definition stored_attributes (f : file) : BR (attributes * bool) :=
  syscall;;
  current ← lift (generation f XATTR_NAMES);
  (if bool_decide (is_Some current) then syscall;; syscall;; syscall else mret tt);;
  legacy ← lift (generation f LEGACY_XATTR_NAMES);
  (if bool_decide (is_Some legacy) then syscall;; syscall;; syscall else mret tt);;
  match current, legacy with
  | Some a, Some b => raise_if (negb (bool_decide (a = b))) not_authorized;; mret (a, true)
  | Some a, None => mret (a, true)
  | None, Some b => mret (b, false)
  | None, None => raise not_authorized
  end.

(** [_unlink_owned]: the attributes it compares are those read from the same
    descriptor before. *)
Definition unlink_owned (key : string) : BR unit :=
  syscall;;
  s ← gets files;
  f ← require (s !! key) OSError;
  raise_if (negb (owned_regular_file f)) not_authorized;;
  syscall;; syscall;; syscall;;
  syscall;;
  syscall;;
  modify (on_files (delete key));;
  syscall.

(** ** Creation *)

(** The file [O_CREAT | O_EXCL] leaves before its mode is set. *)
Definition new_file (umask : Z) : file := mkFile REGULAR 0 0 1 (Z.land 384 (Z.lnot umask)) ∅ "".

Definition open_new (umask : Z) (key : string) : BR unit :=
  syscall;;
  s ← gets files;
  match s !! key with
  | Some _ => raise FileExistsError
  | None => modify (on_files (<[key := new_file umask]>))
  end.

Definition set_mode (f : file) : file := mkFile (f_kind f) (f_uid f) (f_gid f) (f_links f) 384 (f_attrs f) (f_content f).
Definition set_owner (f : file) : file := mkFile (f_kind f) 0 0 (f_links f) (f_mode f) (f_attrs f) (f_content f).
Definition set_attr (name value : string) (f : file) : file :=
  mkFile (f_kind f) (f_uid f) (f_gid f) (f_links f) (f_mode f) (<[name := value]> (f_attrs f)) (f_content f).
Definition add_bytes (bytes : string) (f : file) : file :=
  mkFile (f_kind f) (f_uid f) (f_gid f) (f_links f) (f_mode f) (f_attrs f) (f_content f +:+ bytes).

(** A call on the descriptor of the new file. *)
Definition change_file (key : string) (g : file → file) : BR unit := syscall;; modify (on_files (alter g key)).

(** [os.write(descriptor, rest)]: how many bytes it took. *)
Definition os_write (key rest : string) : BR nat :=
  syscall;;
  s ← gets counts;
  let n := match s with c :: _ => Nat.min c (String.length rest) | [] => String.length rest end in
  modify (λ s, mkBroker (alter (add_bytes (take_chars n rest)) key (files s)) (faults s) (tail (counts s)));;
  mret n.

Fixpoint drop_chars (n : nat) (s : string) : string :=
  match n, s with S n', String _ s' => drop_chars n' s' | _, _ => s end.

Definition out_of_fuel : exn := OtherException "OutOfFuel" None.

(** [while written < len(value)]. *)
Fixpoint write_all (fuel : nat) (key rest : string) : BR unit :=
  if bool_decide (rest = "") then mret tt
  else match fuel with
       | O => raise out_of_fuel
       | S fuel' =>
           count ← os_write key rest;
           raise_if (Nat.eqb count 0) OSError;;
           write_all fuel' key (drop_chars count rest)
       end.

Definition fill (key operation token value : string) : BR unit :=
  change_file key set_mode;;
  change_file key set_owner;;
  change_file key (set_attr XATTR_OPERATION operation);;
  change_file key (set_attr XATTR_RECEIPT (utf8_encode token));;
  write_all (String.length value) key value;;
  syscall;;
  change_file key (set_attr XATTR_COMPLETE "1");;
  syscall.

(** [_repeat_create]: a replay of the same operation returns its receipt. *)
Definition repeat_create (operation key value : string) : BR string :=
  catch (
    f ← open_read key;
    syscall;;
    stored ← stored_attributes f;
    raise_if (negb (owned_regular_file f) || negb (bool_decide (at_operation stored.1 = operation)) ||
              negb (bool_decide (at_complete stored.1 = "1"))) (BrokerError "SECRET_ALREADY_EXISTS");;
    syscall;;
    raise_if (negb (bool_decide (take_chars (MAX_SECRET_BYTES + 1) (f_content f) = value))) (BrokerError "SECRET_ALREADY_EXISTS");;
    syscall;;
    syscall;;
    lift (decode_text (at_receipt stored.1)))
  (λ e, raise (if is_os_error e then BrokerError "SECRET_ALREADY_EXISTS" else e)).

Definition swallow (m : BR unit) : BR unit :=
  r ← attempt m;
  match r with Ok _ => mret tt | Err e => if is_os_error e || is_broker_error e then mret tt else raise e end.

Definition has_nul (s : string) : bool := has_char zero s.

Definition secret_value (value : pyval) : result exn string :=
  match value with
  | PStr t =>
      match b64decode t with
      | Some v =>
          if bool_decide (v = "") || Nat.ltb MAX_SECRET_BYTES (String.length v) || has_nul v
          then Err (BrokerError "SECRET_VALUE_INVALID") else Ok v
      | None => Err (BrokerError "SECRET_VALUE_INVALID")
      end
  | _ => Err (BrokerError "SECRET_VALUE_INVALID")
  end.

(** What follows the creation of the name. *)
Definition create_new (token operation k v : string) : BR string :=
  catch (fill k operation token v)
    (λ e, if is_os_error e then swallow (unlink_owned k);; raise (BrokerError "SECRET_CREATE_FAILED") else raise e);;
  syscall;;
  mret token.

Section Store.
Context (umask : Z).

(** [create] with the random token it draws. *)
Definition create (token : string) (operation_id key value : pyval) : BR string :=
  k ← lift (check_key key);
  operation ← lift (check_operation operation_id);
  v ← lift (secret_value value);
  opened ← attempt (open_new umask k);
  match opened with
  | Err e =>
      if bool_decide (e = FileExistsError) then repeat_create operation k v
      else raise (if is_os_error e then BrokerError "SECRET_CREATE_FAILED" else e)
  | Ok _ => create_new token operation k v
  end.
End Store.

(** ** Ownership, rollback and removal *)

Definition verify_owned (operation_id key : pyval) : BR bool :=
  k ← lift (check_key key);
  operation ← lift (check_operation operation_id);
  catch (
    f ← open_read k;
    syscall;;
    stored ← stored_attributes f;
    mret (owned_regular_file f && bool_decide (at_operation stored.1 = operation) && bool_decide (at_complete stored.1 = "1")))
  (λ e, if is_os_error e || is_broker_error e then mret false else raise e).

(** [secrets.compare_digest] of two texts raises when one is not ASCII or no
    text. *)
Definition is_ascii (s : string) : bool := all_chars (λ c, Nat.ltb (nat_of_ascii c) 128) s.
Definition compare_digest (a : string) (b : pyval) : result exn bool :=
  match b with
  | PStr t =>
      if is_ascii a && is_ascii t then Ok (bool_decide (a = t)) else Err (TypeError "comparing strings with non-ASCII characters is not supported")
  | _ => Err (TypeError "unsupported operand types(s) or combination of types")
  end.

Definition rollback (operation_id key token : pyval) : BR unit :=
  k ← lift (check_key key);
  operation ← lift (check_operation operation_id);
  catch (
    f ← open_read k;
    syscall;;
    syscall;;
    stored ← stored_attributes f;
    raise_if (negb (owned_regular_file f) || negb (bool_decide (at_operation stored.1 = operation)) ||
              negb (bool_decide (at_complete stored.1 = "1"))) not_authorized;;
    receipt ← lift (decode_text (at_receipt stored.1));
    same ← lift (compare_digest receipt (if truthy token then token else PStr ""));
    raise_if (negb same) not_authorized;;
    unlink_owned k)
  (λ e, raise (if is_os_error e then not_authorized else e)).

(** The files of [remove_owned] that are there, all proved to be owned; [None]
    when one is not. *)
Fixpoint open_owned (keys : list pyval) : BR (option (list string)) :=
  match keys with
  | [] => mret (Some [])
  | key :: rest =>
      k ← lift (check_key key);
      opened ← attempt (open_read k);
      match opened with
      | Err e => if bool_decide (e = FileNotFoundError) then open_owned rest else raise e
      | Ok f =>
          syscall;;
          stored ← stored_attributes f;
          if negb (owned_regular_file f && bool_decide (at_complete stored.1 = "1") && (stored.2 : bool)) then mret None
          else later ← open_owned rest; mret (cons k <$> later)
      end
  end.

Definition remove_owned (keys : list pyval) : BR bool :=
  opened ← catch (open_owned keys) (λ e, if is_broker_error e then mret None else raise e);
  match opened with
  | None => mret false
  | Some ks => forM ks unlink_owned;; mret true
  end.

(** ** The protocol *)

Definition attribute_error : exn := OtherException "AttributeError" None.

Definition action_is (request : pydict) (action : string) : bool := py_eqb (dget "action" request) (PStr action).

Definition valid_keys (v : pyval) : option (list pyval) :=
  match v with
  | PList keys =>
      if Nat.leb 1 (length keys) && Nat.leb (length keys) 2 &&
         forallb (λ k, match k with PStr s => KEY_PATTERN s | _ => false end) keys && bool_decide (NoDup (map py_str keys))
      then Some keys else None
  | _ => None
  end.

Section Server.
Context (umask allowed_uid : Z).

(** [_dispatch_request]. *)
Definition dispatch_request (token : string) (uid : Z) (request : pyval) : BR pyval :=
  match request with
  | PDict d =>
      if action_is d "verify_owned" then
        raise_if (negb ((uid =? 0)%Z && Calendar.same_keys d ["action"; "operation_id"; "key"])) (BrokerError "PEER_NOT_AUTHORIZED");;
        verified ← verify_owned (dget "operation_id" d) (dget "key" d);
        mret (PDict [("ok", PBool true); ("verified", PBool verified)])
      else if action_is d "remove_owned" then
        raise_if (negb ((uid =? 0)%Z && Calendar.same_keys d ["action"; "keys"])) (BrokerError "PEER_NOT_AUTHORIZED");;
        keys ← require (valid_keys (dget "keys" d)) (BrokerError "REQUEST_INVALID");
        removed ← remove_owned keys;
        mret (PDict [("ok", PBool true); ("removed", PBool removed)])
      else
        raise_if (negb (uid =? allowed_uid)%Z) (BrokerError "PEER_NOT_AUTHORIZED");;
        lift (check_operation (dget "operation_id" d));;
        if action_is d "create" && Calendar.same_keys d ["action"; "operation_id"; "key"; "value"] then
          receipt ← create umask token (dget "operation_id" d) (dget "key" d) (dget "value" d);
          mret (PDict [("ok", PBool true); ("rollback_token", PStr receipt)])
        else if action_is d "rollback" && Calendar.same_keys d ["action"; "operation_id"; "key"; "rollback_token"] then
          rollback (dget "operation_id" d) (dget "key" d) (dget "rollback_token" d);;
          mret (PDict [("ok", PBool true)])
        else raise (BrokerError "OPERATION_NOT_ALLOWED")
  | _ => raise_if (negb (uid =? allowed_uid)%Z) (BrokerError "PEER_NOT_AUTHORIZED");; raise attribute_error
  end.

Definition refusal (code : string) : pyval := PDict [("ok", PBool false); ("error", PStr code)].

(** The code of a refused request: [except (BrokerError, JSONDecodeError)] and
    [except Exception]. *)
Definition refusal_of (e : exn) : pyval :=
  refusal match e with
          | OtherException "BrokerError" (Some code) => code
          | OtherException "JSONDecodeError" _ => "REQUEST_INVALID"
          | _ => "BROKER_INTERNAL_ERROR"
          end.

(** [_serve_connection]: the reply to what was received and parsed. *)
Definition serve_connection (token : string) (uid : Z) (received : result exn pyval) : BR pyval :=
  if negb ((uid =? allowed_uid)%Z || (uid =? 0)%Z) then mret (refusal "PEER_NOT_AUTHORIZED")
  else catch (request ← lift received; dispatch_request token uid request) (λ e, mret (refusal_of e)).
End Server.

(** ** Receiving a request *)

(** What one [recv] gives: bytes (none when the peer closed), no bytes in time,
    or an error. *)
Inductive received := Chunk (bytes : string) | TimedOut | Failed.

Fixpoint ends_newline (s : string) : bool :=
  match s with
  | "" => false
  | String c "" => bool_decide (c = "010"%char)
  | String _ rest => ends_newline rest
  end.
Definition byte_size (s : string) : Z := Z.of_nat (String.length s).

Section Receive.
(** The clock and the connection, read once per turn of the loop; the first
    reading of the clock sets the deadline. *)
Context (clock : nat → Z) (recv : nat → received).

Definition whole (raw : string) : result exn string :=
  if (MAX_REQUEST_BYTES <? byte_size raw)%Z || negb (ends_newline raw) then Err (BrokerError "REQUEST_INVALID") else Ok raw.

(** One run of the loop from its [n]th turn; [None] only without fuel. *)
Fixpoint receive (fuel n : nat) (raw : string) : option (result exn string) :=
  match fuel with
  | O => None
  | S fuel' =>
      if ends_newline raw || (MAX_REQUEST_BYTES <? byte_size raw)%Z then Some (whole raw)
      else if (clock 0%nat + REQUEST_DEADLINE - clock (S n) <=? 0)%Z then Some (Err (BrokerError "REQUEST_TIMEOUT"))
      else match recv n with
           | TimedOut => Some (Err (BrokerError "REQUEST_TIMEOUT"))
           | Failed => Some (Err OSError)
           | Chunk bytes =>
               let chunk := take_chars (Z.to_nat (MAX_REQUEST_BYTES + 1 - byte_size raw)) bytes in
               if bool_decide (chunk = "") then Some (whole raw) else receive fuel' (S n) (raw +:+ chunk)
           end
  end.

(** At most one turn per byte, and one to look at the result. *)
Definition read_request : option (result exn string) := receive (Z.to_nat (MAX_REQUEST_BYTES + 2)) 0 "".
End Receive.

(** ** What the operations do to the directory *)

Definition same_files (s s' : broker) : Prop := files s' = files s.
#[export] Instance same_files_preorder : PreOrder same_files.
Proof. split; [done|]. intros x y z Hxy Hyz. unfold same_files in *. congruence. Qed.

Lemma syscall_same s : moves same_files syscall s.
Proof. unfold moves, syscall, same_files. destruct (faults s) as [|[] ?]; done. Qed.
Lemma syscall_Ok s u s' : syscall s = (Ok u, s') → files s' = files s.
Proof. intros H. by apply (moves_end same_files _ _ _ _ (syscall_same s)) in H. Qed.
Hint Resolve syscall_same : moves.
Hint Extern 1 (moves _ (attempt _) _) => apply attempt_moves : moves.

Lemma open_read_same key s : moves same_files (open_read key) s.
Proof. unfold open_read. moves. destruct (_ !! key); moves. Qed.
Lemma open_read_Ok key s f s' : open_read key s = (Ok f, s') → files s !! key = Some f ∧ files s' = files s.
Proof.
  unfold open_read. intros H. inv_m. match goal with H : syscall _ = _ |- _ => apply syscall_Ok in H as E end.
  destruct (_ !! key) as [g|] eqn:Eg; inv_m. split; [by rewrite <-E|done].
Qed.

Lemma stored_attributes_same f s : moves same_files (stored_attributes f) s.
Proof.
  unfold stored_attributes. moves. repeat match goal with o : option attributes |- _ => destruct o end; moves.
Qed.

(** The values [_stored_attributes] can return for a file. *)
Definition attributed (f : file) (a : attributes) : Prop :=
  generation f XATTR_NAMES = Ok (Some a) ∨
  (generation f XATTR_NAMES = Ok None ∧ generation f LEGACY_XATTR_NAMES = Ok (Some a)).

Lemma stored_attributes_Ok f s a b s' :
  stored_attributes f s = (Ok (a, b), s') →
  attributed f a ∧ (b = true → generation f XATTR_NAMES = Ok (Some a)) ∧ files s' = files s.
Proof.
  intros H. pose proof (moves_end same_files _ _ _ _ (stored_attributes_same f s) H) as Hs. unfold stored_attributes in H.
  inv_m. unfold attributed.
  repeat match goal with H : generation f _ = Ok ?o |- _ => destruct o; revert H end; intros; inv_m; naive_solver.
Qed.
Hint Resolve open_read_same stored_attributes_same : moves.

Lemma catch_moves {A} (R : relation broker) `{!PreOrder R} (m : BR A) h s :
  (∀ s1, moves R m s1) → (∀ e s1, moves R (h e) s1) → moves R (catch m h) s.
Proof. intros Hm Hh. apply (moves_catch _); [apply Hm|intros e s1 _; apply Hh]. Qed.

Lemma repeat_create_same operation key value s : moves same_files (repeat_create operation key value) s.
Proof. apply (catch_moves _); intros; moves. Qed.
Lemma verify_owned_same operation key s : moves same_files (verify_owned operation key) s.
Proof. unfold verify_owned. moves. apply (catch_moves _); intros; moves. Qed.
Lemma open_owned_same keys s : moves same_files (open_owned keys) s.
Proof.
  revert s. induction keys as [|key keys IH]; intros s; cbn [open_owned]; moves.
  match goal with o : result _ _ |- _ => destruct o end; moves.
Qed.
Hint Resolve repeat_create_same verify_owned_same open_owned_same : moves.

(** The entries of [ks] may be gone, everything else is as it was. *)
Definition unlinked (ks : list string) (s s' : broker) : Prop :=
  ∀ j, files s' !! j = files s !! j ∨ (j ∈ ks ∧ files s' !! j = None).
#[export] Instance unlinked_preorder ks : PreOrder (unlinked ks).
Proof.
  split; [intros s j; by left|]. intros x y z Hxy Hyz j. destruct (Hyz j) as [->|?]; [|by right]. apply Hxy.
Qed.
Lemma same_unlinked ks s s' : same_files s s' → unlinked ks s s'.
Proof. intros E j. left. by rewrite E. Qed.

Lemma unlink_owned_moves ks key s : key ∈ ks → moves (unlinked ks) (unlink_owned key) s.
Proof.
  intros Hk. unfold unlink_owned. moves; try (apply same_unlinked; apply syscall_same).
  intros j. simpl. destruct (decide (j = key)) as [->|]; [right; by rewrite lookup_delete_eq|left; by rewrite lookup_delete_ne].
Qed.

Definition proved (f : file) (a : attributes) : Prop :=
  owned_regular_file f = true ∧ attributed f a ∧ at_complete a = "1".

Lemma open_owned_Ok keys s ks s' :
  open_owned keys s = (Ok (Some ks), s') →
  ∀ k, k ∈ ks → PStr k ∈ keys ∧ ∃ f a, files s !! k = Some f ∧ proved f a ∧ generation f XATTR_NAMES = Ok (Some a).
Proof.
  revert s ks. induction keys as [|key keys IH]; intros s ks H k Hk; cbn [open_owned] in H; inv_m; [set_solver|].
  match goal with H : check_key key = Ok _ |- _ => rename H into Hc end.
  destruct key as [| | |kk| |]; try done. cbn [check_key] in Hc. destruct (KEY_PATTERN kk); [|done]. injection Hc as <-.
  match goal with H : attempt _ _ = _ |- _ => apply attempt_Ok in H end.
  match goal with o : result _ _ |- _ => destruct o as [f|e] end.
  - match goal with H : open_read _ _ = _ |- _ => apply open_read_Ok in H as [Hf Ef] end. inv_m.
    match goal with H : syscall _ = _ |- _ => apply syscall_Ok in H as Es end.
    match goal with x : attributes * bool |- _ => destruct x as [a b] end.
    match goal with H : stored_attributes _ _ = _ |- _ => apply stored_attributes_Ok in H as (Ha & Hb & Ea) end. simpl in *.
    match goal with H : (if _ then _ else _) _ = _ |- _ => rename H into Hi end.
    destruct (negb _) eqn:En in Hi; inv_m. inv_bool.
    match goal with o : option (list string) |- _ => destruct o as [later|]; [|done] end. simplify_eq/=.
    apply elem_of_cons in Hk as [->|Hk].
    + split; [left|]. exists f, a. unfold proved. auto.
    + match goal with H : open_owned keys _ = _ |- _ => destruct (IH _ _ H k Hk) as (Hin & g & b' & Hg & Hp & Hgen) end.
      split; [by right|]. exists g, b'. split; [|done]. congruence.
  - match goal with H : open_read _ _ = _ |- _ => pose proof (moves_end same_files _ _ _ _ (open_read_same _ _) H) as Es end.
    case_bool_decide; [|by inv_m].
    match goal with H : open_owned keys _ = _ |- _ => destruct (IH _ _ H k Hk) as (Hin & g & b' & Hg & Hp & Hgen) end.
    split; [by right|]. exists g, b'. split; [|done]. by rewrite <-Es.
Qed.

(** ** What a creation writes *)

(** The directory is [base] with one file at [key], of which [Φ] holds. *)
Definition at_file (base : gmap string file) (key : string) (Φ : file → Prop) (s : broker) : Prop :=
  ∃ f, files s = <[key := f]> base ∧ Φ f.
Abbreviation failed Φ := (λ e s, e = OSError ∧ Φ s).

Definition complete_file (operation token value : string) : file :=
  mkFile REGULAR 0 0 1 384 (<[XATTR_COMPLETE := "1"]> (<[XATTR_RECEIPT := utf8_encode token]> {[XATTR_OPERATION := operation]})) value.
(** No operation of the broker accepts such a file as a credential. *)
Definition unfinished (f : file) : Prop := ∀ a, ¬ attributed f a.

Section Writing.
Context (base : gmap string file) (key : string).

Lemma syscall_at Φ : hoare (at_file base key Φ) syscall (λ _, at_file base key Φ) (failed (at_file base key Φ)).
Proof.
  intros s Hs. pose proof (syscall_same s) as E. unfold moves, same_files in E. unfold syscall, at_file in *.
  destruct (faults s) as [|[] ?]; simpl in *; [done| |done]. done.
Qed.

Lemma change_at (Φ Ψ : file → Prop) g :
  (∀ f, Φ f → Ψ (g f)) →
  hoare (at_file base key Φ) (change_file key g) (λ _, at_file base key Ψ) (failed (at_file base key Φ)).
Proof.
  intros Hg. unfold change_file. eapply hoare_bind; [apply syscall_at|]. intros ?; cbn beta. apply hoare_modify.
  intros s (f & E & Hf). exists (g f). simpl. rewrite E. split; [|auto]. apply map_eq. intros j.
  destruct (decide (j = key)) as [->|]; [by rewrite lookup_alter_eq, !lookup_insert_eq|].
  by rewrite lookup_alter_ne, !lookup_insert_ne.
Qed.

Lemma take_drop_chars n s : take_chars n s +:+ drop_chars n s = s.
Proof. revert s. induction n as [|n IH]; intros [|c s]; try done. change (String c (take_chars n s +:+ drop_chars n s) = String c s). by rewrite IH. Qed.
Lemma length_drop n s : String.length (drop_chars n s) = (String.length s - n)%nat.
Proof. revert s. induction n as [|n IH]; intros [|c s]; simpl; try done. Qed.
Lemma append_nothing (s : string) : s +:+ "" = s.
Proof. induction s as [|c s IH]; [done|]. change (String c (s +:+ "") = String c s). by rewrite IH. Qed.

Definition partial (attrs : gmap string string) (f : file) : Prop := ∃ w, f = mkFile REGULAR 0 0 1 384 attrs w.

(** With one unit of fuel per byte the loop ends: with all of [rest] written, or
    with the error of a system call. *)
Lemma write_all_at attrs fuel w rest :
  (String.length rest ≤ fuel)%nat →
  hoare (at_file base key (λ f, f = mkFile REGULAR 0 0 1 384 attrs w)) (write_all fuel key rest)
    (λ _, at_file base key (λ f, f = mkFile REGULAR 0 0 1 384 attrs (w +:+ rest))) (failed (at_file base key (partial attrs))).
Proof.
  set (written := λ w, at_file base key (λ f, f = mkFile REGULAR 0 0 1 384 attrs w)). fold (written w). fold (written (w +:+ rest)).
  revert w rest. induction fuel as [|fuel IH]; intros w rest Hn; cbn [write_all].
  - destruct rest; [|simpl in Hn; lia]. rewrite bool_decide_eq_true_2 by done. apply hoare_ret. by rewrite append_nothing.
  - case_bool_decide as Er; [subst; apply hoare_ret; by rewrite append_nothing|].
    apply (hoare_bind _ _ _ (λ n, written (w +:+ take_chars n rest))).
    + unfold os_write. eapply hoare_bind; [eapply hoare_conseq; [apply syscall_at|done|done|]|].
      { intros e s [-> (f & E & ->)]. split; [done|]. eexists. split; [done|]. by eexists. }
      intros ?; cbn beta. apply (hoare_bind _ _ _ (λ _, written w)); [by apply hoare_gets|]. intros cs.
      set (n := match cs with c :: _ => _ | [] => _ end). apply (hoare_bind _ _ _ (λ _, written (w +:+ take_chars n rest)));
        [|by intros ?; apply hoare_ret]. apply hoare_modify. intros s (f & E & ->).
      eexists. simpl. rewrite E. split; [|done]. apply map_eq. intros j.
      destruct (decide (j = key)) as [->|]; [by rewrite lookup_alter_eq, !lookup_insert_eq|].
      by rewrite lookup_alter_ne, !lookup_insert_ne.
    + intros n. eapply hoare_bind.
      { eapply hoare_raise_if with (Q := λ _ s, n ≠ 0%nat ∧ written (w +:+ take_chars n rest) s).
        - intros s _ (f & E & ->). split; [done|]. eexists. split; [done|]. by eexists.
        - intros s En Hs. apply Nat.eqb_neq in En. done. }
      intros ? s [Hn0 Hs]. destruct rest as [|c rest']; [done|].
      specialize (IH (w +:+ take_chars n (String c rest')) (drop_chars n (String c rest'))
        ltac:(rewrite length_drop; simpl in *; lia) s Hs).
      by rewrite string_app_assoc, take_drop_chars in IH.
Qed.

Lemma unfinished_partial attrs f :
  attrs !! XATTR_COMPLETE = None → attrs !! "user.infra_sync.operation" = None → f_attrs f = attrs → unfinished f.
Proof.
  intros H1 H2 <- a [H|[H1' H]]; unfold generation, XATTR_NAMES, LEGACY_XATTR_NAMES in H.
  - rewrite H1 in H. by repeat destruct (_ !! _).
  - rewrite H2 in H. by repeat destruct (_ !! _).
Qed.

Lemma fill_at operation token value mode :
  hoare (at_file base key (λ f, f = mkFile REGULAR 0 0 1 mode ∅ "")) (fill key operation token value)
    (λ _, at_file base key (λ f, f = complete_file operation token value))
    (failed (at_file base key (λ f, unfinished f ∨ f = complete_file operation token value))).
Proof.
  set (outcome := failed (at_file base key (λ f, unfinished f ∨ f = complete_file operation token value))).
  set (a1 := {[XATTR_OPERATION := operation]} : gmap string string). set (a2 := <[XATTR_RECEIPT := utf8_encode token]> a1).
  assert (∀ attrs (Φ : file → Prop), (∀ f, Φ f → f_attrs f = attrs) → attrs ∈ [∅; a1; a2] →
    ∀ e s, failed (at_file base key Φ) e s → outcome e s) as Hweak.
  { intros attrs Φ HΦ Hin e s [-> (f & E & Hf)]. split; [done|]. exists f. split; [done|]. left.
    eapply (unfinished_partial attrs); [| |by apply HΦ]; apply list_elem_of_In in Hin;
      destruct Hin as [<-|[<-|[<-|[]]]]; done. }
  assert (∀ m m' attrs attrs' g, attrs ∈ [∅; a1; a2] →
    g (mkFile REGULAR 0 0 1 m attrs "") = mkFile REGULAR 0 0 1 m' attrs' "" →
    hoare (at_file base key (λ f, f = mkFile REGULAR 0 0 1 m attrs "")) (change_file key g)
      (λ _, at_file base key (λ f, f = mkFile REGULAR 0 0 1 m' attrs' "")) outcome) as Hstep.
  { intros m m' attrs attrs' g Hin Hg.
    eapply hoare_conseq; [apply (change_at (λ f, f = mkFile REGULAR 0 0 1 m attrs "") (λ f, f = mkFile REGULAR 0 0 1 m' attrs' "")); intros f ->; exact Hg|done|done|].
    apply (Hweak attrs); [by intros f ->|done]. }
  pose (full attrs v := λ f, f = mkFile REGULAR 0 0 1 384 attrs v).
  unfold fill. eapply hoare_bind; [apply (Hstep mode 384%Z ∅ ∅); [set_solver|done]|]. intros ?; cbn beta.
  eapply hoare_bind; [apply (Hstep 384%Z 384%Z ∅ ∅); [set_solver|done]|]. intros ?; cbn beta.
  eapply hoare_bind; [apply (Hstep 384%Z 384%Z ∅ a1); [set_solver|done]|]. intros ?; cbn beta.
  eapply hoare_bind; [apply (Hstep 384%Z 384%Z a1 a2); [set_solver|done]|]. intros ?; cbn beta.
  apply (hoare_bind _ _ _ (λ _, at_file base key (full a2 value))).
  { eapply hoare_conseq; [apply (write_all_at a2 (String.length value) "" value); done|done|done|].
    apply (Hweak a2); [by intros f [w ->]|set_solver]. }
  intros ?; cbn beta. apply (hoare_bind _ _ _ (λ _, at_file base key (full a2 value))).
  { eapply hoare_conseq; [apply (syscall_at (full a2 value))|done|done|]. apply (Hweak a2); [by intros f ->|set_solver]. }
  intros ?; cbn beta. apply (hoare_bind _ _ _ (λ _, at_file base key (λ f, f = complete_file operation token value))).
  { eapply hoare_conseq; [apply (change_at (full a2 value) (λ f, f = complete_file operation token value)); by intros f ->|done|done|].
    apply (Hweak a2); [by intros f ->|set_solver]. }
  intros ?; cbn beta. eapply hoare_conseq; [apply (syscall_at (λ f, f = complete_file operation token value))|done|done|].
  intros e s [-> (f & E & ->)]. split; [done|]. exists (complete_file operation token value). auto.
Qed.
End Writing.

(** The name [k] was free and may now hold what a creation wrote. *)
Definition created (operation token value k : string) (s s' : broker) : Prop :=
  files s !! k = None ∧ (∀ j, j ≠ k → files s' !! j = files s !! j) ∧
  ∀ f, files s' !! k = Some f → unfinished f ∨ f = complete_file operation token value.

Lemma swallow_moves (R : relation broker) `{!PreOrder R} m s : moves R m s → moves R (swallow m) s.
Proof.
  intros Hm. unfold swallow. apply (moves_bind R); [by apply attempt_moves|]. intros [|e] s1 _; moves.
Qed.

Lemma open_new_cases umask k s r s' :
  open_new umask k s = (r, s') →
  (r = Ok tt ∧ files s !! k = None ∧ files s' = <[k := new_file umask]> (files s)) ∨
  ((∃ e, r = Err e) ∧ files s' = files s).
Proof.
  unfold open_new. intros H. pose proof (syscall_same s) as Hs. unfold moves, same_files in Hs.
  apply bind_cases in H as [(e & H & ->)|(u & s1 & H & H2)]; rewrite H in Hs; simpl in Hs; [right; eauto|].
  unfold gets, mbind, M_bind in H2. simpl in H2. destruct (files s1 !! k) eqn:E.
  - unfold raise in H2. simplify_eq. right. eauto.
  - unfold modify, on_files in H2. simplify_eq. left. simpl. by rewrite <-Hs.
Qed.

Lemma created_insert operation token value k s s' f :
  files s !! k = None → unfinished f ∨ f = complete_file operation token value → files s' = <[k := f]> (files s) →
  created operation token value k s s'.
Proof.
  intros Hn Hf E. split; [done|]. rewrite E. split; [intros j Hj; by rewrite lookup_insert_ne|].
  intros f'. rewrite lookup_insert_eq. by intros [= <-].
Qed.

(** A failed creation may leave its file behind, but never changes another. *)
Lemma discarded operation token value k s s1 s2 e :
  files s !! k = None → at_file (files s) k (λ f, unfinished f ∨ f = complete_file operation token value) s1 →
  (swallow (unlink_owned k) s1).2 = s2 → is_os_error e = true → created operation token value k s s2.
Proof.
  intros Hn (f & E & Hf) <- _.
  pose proof (swallow_moves (unlinked [k]) (unlink_owned k) s1 (unlink_owned_moves [k] k s1 ltac:(set_solver))) as Hu.
  unfold moves in Hu. split; [done|]. split.
  - intros j Hj. destruct (Hu j) as [->|[Hin _]]; [by rewrite E, lookup_insert_ne|set_solver].
  - intros f' Hf'. destruct (Hu k) as [Eq|[_ Eq]]; rewrite Eq in Hf'; [|done]. rewrite E, lookup_insert_eq in Hf'. by simplify_eq.
Qed.

Lemma create_new_at umask token o k v s :
  files s !! k = None →
  hoare (λ s1, files s1 = <[k := new_file umask]> (files s)) (create_new token o k v)
    (λ t s', t = token ∧ files s' = <[k := complete_file o token v]> (files s)) (λ _ s', created o token v k s s').
Proof.
  intros Hn. set (done_ := at_file (files s) k (λ f, f = complete_file o token v)).
  apply (hoare_bind _ _ _ (λ _, done_)); [apply (hoare_catch _ _ _ _ (failed (at_file (files s) k (λ f, unfinished f ∨ f = complete_file o token v))))|].
  - eapply hoare_conseq; [apply (fill_at (files s) k o token v (Z.land 384 (Z.lnot umask)))| |done|done].
    intros s1 E. by exists (new_file umask).
  - intros e s2 [-> Hf]. change (is_os_error OSError) with true. cbv iota.
    pose proof (discarded o token v k s s2 _ OSError Hn Hf eq_refl eq_refl) as Hd. unfold mbind, M_bind, raise.
    by destruct (swallow (unlink_owned k) s2) as [[[]|e'] s3].
  - intros ?. cbn beta. apply (hoare_bind _ _ _ (λ _, done_)).
    + eapply hoare_conseq; [apply (syscall_at (files s) k (λ f, f = complete_file o token v))|done|done|]. intros e s2 [-> (f & E & ->)].
      by eapply created_insert; [|right|].
    + intros ?. apply hoare_ret. intros s2 (f & E & ->). done.
Qed.

Lemma open_new_exists umask k s s' : open_new umask k s = (Err FileExistsError, s') → is_Some (files s !! k).
Proof.
  unfold open_new. intros H. apply bind_cases in H as [(e & H & ?)|(u & s2 & H & H2)].
  - unfold syscall in H. destruct (faults s) as [|[] ?]; simplify_eq.
  - apply syscall_Ok in H. unfold gets, mbind, M_bind in H2. simpl in H2. rewrite H in H2. by destruct (files s !! k).
Qed.

Lemma create_cases umask token operation_id key value s r s' :
  create umask token operation_id key value s = (r, s') →
  (files s' = files s ∧ ∀ t, r = Ok t →
     ∃ k o v s1, key = PStr k ∧ operation_id = PStr o ∧ secret_value value = Ok v ∧ is_Some (files s !! k) ∧
       files s1 = files s ∧ repeat_create o k v s1 = (Ok t, s')) ∨
  ∃ k o v, key = PStr k ∧ operation_id = PStr o ∧ secret_value value = Ok v ∧ created o token v k s s' ∧
    ∀ t, r = Ok t → t = token ∧ files s' !! k = Some (complete_file o token v).
Proof.
  unfold create. intros H.
  apply bind_cases in H as [(e & H & ->)|(k & s1 & [Hk ->]%lift_Ok & H)]; [left; unfold lift in H; by simplify_eq|].
  apply bind_cases in H as [(e & H & ->)|(o & s1 & [Ho ->]%lift_Ok & H)]; [left; unfold lift in H; by simplify_eq|].
  apply bind_cases in H as [(e & H & ->)|(v & s1 & [Hv ->]%lift_Ok & H)]; [left; unfold lift in H; by simplify_eq|].
  assert (key = PStr k) as -> by (destruct key; try done; cbn in Hk; destruct (KEY_PATTERN _); naive_solver).
  assert (operation_id = PStr o) as -> by (destruct operation_id; try done; cbn in Ho; destruct (OPERATION_PATTERN _); naive_solver).
  apply bind_cases in H as [(e & H & ->)|(opened & s1 & H1%attempt_Ok & H)]; [unfold attempt in H; by destruct (open_new _ _ _)|].
  pose proof (open_new_cases _ _ _ _ _ H1) as Hopen. destruct opened as [[]|e].
  - destruct Hopen as [(_ & Hn & E1)|[[? ?] _]]; [|done]. right. exists k, o, v. split_and!; try done.
    + pose proof (hoare_run _ _ _ _ _ _ _ (create_new_at umask token o k v s Hn) E1 H) as Hr.
      destruct r as [t|e]; [destruct Hr as [-> E2]; by eapply created_insert; [|right|]|done].
    + pose proof (hoare_run _ _ _ _ _ _ _ (create_new_at umask token o k v s Hn) E1 H) as Hr.
      intros t ->. destruct Hr as [-> E2]. split; [done|]. by rewrite E2, lookup_insert_eq.
  - destruct Hopen as [(? & _)|[_ E1]]; [done|]. left. case_bool_decide as Ee.
    + pose proof (moves_end same_files _ _ _ _ (repeat_create_same _ _ _ _) H) as E2. split; [unfold same_files in E2; congruence|].
      intros t ->. exists k, o, v, s1. subst e. split_and!; try done. by eapply open_new_exists.
    + unfold raise in H. simplify_eq. done.
Qed.

(** ** What a request may do *)

(** The entry [k] before and after a request of the peer [uid]. *)
Inductive disk_change (allowed_uid uid : Z) (token : string) (request : pyval) (k : string) : option file → option file → Prop :=
| dc_kept o : disk_change allowed_uid uid token request k o o
| dc_created d operation value f :
    uid = allowed_uid → request = PDict d → action_is d "create" = true → dget "key" d = PStr k →
    dget "operation_id" d = PStr operation → secret_value (dget "value" d) = Ok value →
    unfinished f ∨ f = complete_file operation token value →
    disk_change allowed_uid uid token request k None (Some f)
| dc_rolled_back d f a receipt :
    uid = allowed_uid → request = PDict d → action_is d "rollback" = true → dget "key" d = PStr k →
    dget "operation_id" d = PStr (at_operation a) → proved f a → utf8_decode (at_receipt a) = Some receipt →
    (if truthy (dget "rollback_token" d) then dget "rollback_token" d else PStr "") = PStr receipt →
    disk_change allowed_uid uid token request k (Some f) None
| dc_removed d keys f a :
    uid = 0%Z → request = PDict d → action_is d "remove_owned" = true → dget "keys" d = PList keys → PStr k ∈ keys →
    proved f a → generation f XATTR_NAMES = Ok (Some a) →
    disk_change allowed_uid uid token request k (Some f) None.

Lemma check_key_Ok key k : check_key key = Ok k → key = PStr k.
Proof. destruct key; try done. simpl. destruct (KEY_PATTERN _); naive_solver. Qed.
Lemma check_operation_Ok v o : check_operation v = Ok o → v = PStr o.
Proof. destruct v; try done. simpl. destruct (OPERATION_PATTERN _); naive_solver. Qed.

Lemma compare_digest_Ok a b : compare_digest a b = Ok true → b = PStr a.
Proof. destruct b; try done. simpl. destruct (_ && _); [|done]. intros [= E]. by apply bool_decide_eq_true in E as ->. Qed.

(** What the opened file must be for [rollback] to reach its unlink. *)
Definition rollback_permitted (operation_id key token : pyval) (s : broker) : Prop :=
  ∃ k f a receipt, key = PStr k ∧ operation_id = PStr (at_operation a) ∧ files s !! k = Some f ∧ proved f a ∧
    utf8_decode (at_receipt a) = Some receipt ∧ (if truthy token then token else PStr "") = PStr receipt.

(** Nothing changes, or [Π] holds and only entries of [ks] may be gone. *)
Definition guarded (Π : Prop) (ks : list string) (s s' : broker) : Prop := files s' = files s ∨ (Π ∧ unlinked ks s s').
#[export] Instance guarded_preorder Π ks : PreOrder (guarded Π ks).
Proof.
  split; [by left|]. intros x y z [E1|[P1 U1]] [E2|[P2 U2]].
  - left. congruence.
  - right. split; [done|]. etrans; [by apply same_unlinked|done].
  - right. split; [done|]. etrans; [done|by apply same_unlinked].
  - right. split; [done|]. by etrans.
Qed.

Lemma guarded_reads {A} Π ks (m : BR A) s : moves same_files m s → moves (guarded Π ks) m s.
Proof. by left. Qed.

Lemma rollback_moves operation_id k token s :
  moves (guarded (rollback_permitted operation_id (PStr k) token s) [k]) (rollback operation_id (PStr k) token) s.
Proof.
  unfold rollback. moves. apply (moves_catch _); [|intros; moves].
  repeat first [moves_step | apply guarded_reads; by eauto with moves].
  repeat match goal with
  | H : syscall _ = _ |- _ => apply syscall_Ok in H
  | H : open_read _ _ = _ |- _ => apply open_read_Ok in H as [??]
  | H : check_key _ = _ |- _ => apply check_key_Ok in H
  | H : check_operation _ = _ |- _ => apply check_operation_Ok in H
  | H : compare_digest _ _ = Ok true |- _ => apply compare_digest_Ok in H
  | H : compare_digest _ _ = Ok ?b |- _ => destruct b; [|done]
  | x : attributes * bool |- _ => destruct x
  | H : stored_attributes _ _ = _ |- _ => apply stored_attributes_Ok in H as (?&?&?)
  end. simplify_eq/=. inv_bool. subst.
  right. split; [|by apply unlink_owned_moves; left]. unfold rollback_permitted, proved, decode_text in *.
  match goal with H : match utf8_decode ?x with _ => _ end = Ok _ |- _ => destruct (utf8_decode x) eqn:Ed; [|done] end.
  simplify_eq. eexists _, _, _, _. split_and!; done.
Qed.

(** Whether the files of [remove_owned] are proved before any of them goes. *)
Lemma remove_owned_moves keys s j :
  files (remove_owned keys s).2 !! j = files s !! j ∨
  (files (remove_owned keys s).2 !! j = None ∧ PStr j ∈ keys ∧
   ∃ f a, files s !! j = Some f ∧ proved f a ∧ generation f XATTR_NAMES = Ok (Some a)).
Proof.
  unfold remove_owned, catch, mbind, M_bind. pose proof (open_owned_same keys s) as Hs. unfold moves in Hs.
  destruct (open_owned keys s) as [[[ks|]|e] s1] eqn:E; simpl in *; unfold same_files in Hs.
  - pose proof (moves_forM (unlinked ks) ks unlink_owned s1 (λ k s2 Hk, unlink_owned_moves ks k s2 Hk)) as Hm. unfold moves in Hm.
    destruct (forM ks unlink_owned s1) as [[[]|e] s2]; simpl in *;
      (destruct (Hm j) as [->|[Hj Hn]]; [left; by rewrite Hs|right; split; [done|]; by eapply open_owned_Ok]).
  - left. unfold mret, M_ret. simpl. by rewrite Hs.
  - left. destruct (is_broker_error e); unfold mret, M_ret, raise; simpl; by rewrite Hs.
Qed.

(** The same of each action, as a change of the entry [k]. *)
Section Change.
Context (umask allowed_uid : Z) (token : string) (s : broker) (k : string) (d : pydict).
Abbreviation change uid s' := (disk_change allowed_uid uid token (PDict d) k (files s !! k) (files s' !! k)).

Lemma change_same {A} uid (m : BR A) : moves same_files m s → change uid (m s).2.
Proof. intros E. unfold moves, same_files in E. rewrite E. constructor. Qed.

Lemma change_removed keys :
  action_is d "remove_owned" = true → dget "keys" d = PList keys → change 0%Z (remove_owned keys s).2.
Proof.
  intros Ha Ed. destruct (remove_owned_moves keys s k) as [->|(-> & Hin & f & a & -> & Hp & Hg)]; [constructor|].
  by eapply (dc_removed _ _ _ _ _ d keys).
Qed.

Lemma change_created :
  action_is d "create" = true → change allowed_uid (create umask token (dget "operation_id" d) (dget "key" d) (dget "value" d) s).2.
Proof.
  intros Ha. destruct (create _ _ _ _ _ s) as [r s1] eqn:E. simpl.
  apply create_cases in E as [[E _]|(kk & oo & v & Ek & Eop & Ev & (Hn & Hj & Hf) & _)]; [rewrite E; constructor|].
  destruct (decide (k = kk)) as [->|Hne]; [|rewrite Hj by done; constructor]. rewrite Hn.
  destruct (files s1 !! kk) as [f|] eqn:Ef; [|constructor]. by eapply dc_created; [..|apply Hf].
Qed.

Lemma change_rolled_back :
  action_is d "rollback" = true → change allowed_uid (rollback (dget "operation_id" d) (dget "key" d) (dget "rollback_token" d) s).2.
Proof.
  intros Ha. destruct (dget "key" d) as [| | |kk| |] eqn:Ek; try constructor.
  destruct (rollback_moves (dget "operation_id" d) kk (dget "rollback_token" d) s)
    as [->|[(k0 & f & a & receipt & [= <-] & Eop & Hf & Hp & Hd & Ht) Hu]]; [constructor|].
  destruct (Hu k) as [->|[Hin ->]]; [constructor|]. apply list_elem_of_singleton in Hin as ->. rewrite Hf.
  by eapply dc_rolled_back.
Qed.
End Change.

(** A computation followed by its reply. *)
Lemma after_reply {A B} (m : BR A) (k : A → B) s : ((m ≫= λ a, mret (k a)) s).2 = (m s).2.
Proof. unfold mbind, M_bind. by destruct (m s) as [[]]. Qed.

(** C17: a request changes no file it does not own. Whatever the peer, the request
    and the system calls that fail, every file is as it was before, except that a
    creation by the configured peer may add the file it names where there was
    none; it then holds exactly the decoded value with the ownership of its
    operation, or is not accepted as a credential by any operation. A file
    disappears only in a rollback by the configured peer with its operation and
    its receipt, or in a removal by root of files that are all proved to be
    complete and owned. *)
Theorem broker_touches_only_its_files umask allowed_uid token uid received s k :
  disk_change allowed_uid uid token (match received with Ok v => v | Err _ => PNone end) k
    (files s !! k) (files (serve_connection umask allowed_uid token uid received s).2 !! k).
Proof.
  unfold serve_connection. destruct (negb _); [constructor|].
  unfold catch. unfold lift at 1, mbind, M_bind. destruct received as [request|e]; [|constructor].
  set (m := dispatch_request umask allowed_uid token uid request).
  assert (disk_change allowed_uid uid token request k (files s !! k) (files (m s).2 !! k)) as Hm;
    [|by destruct (m s) as [[?|?] ?]].
  subst m. unfold dispatch_request. destruct request as [| | | | |d]; try (destruct (negb _); constructor).
  destruct (action_is d "verify_owned") eqn:Av; [apply change_same; moves|].
  destruct (action_is d "remove_owned") eqn:Ar.
  { destruct ((uid =? 0)%Z && _) eqn:Eu; [|constructor]. apply andb_true_iff in Eu as [->%Z.eqb_eq _].
    destruct (valid_keys _) as [keys|] eqn:Ek; [|constructor].
    rewrite (bind_step _ _ _ tt s), (bind_step _ _ _ keys s), after_reply by done. apply change_removed; [done|].
    unfold valid_keys in Ek. destruct (dget "keys" d); try done. by destruct (_ && _); simplify_eq. }
  destruct (uid =? allowed_uid)%Z eqn:Eu; [apply Z.eqb_eq in Eu as ->|constructor].
  destruct (check_operation (dget "operation_id" d)) as [o|e] eqn:Eo; [|constructor].
  rewrite (bind_step _ _ _ tt s), (bind_step _ _ _ o s) by done.
  destruct (action_is d "create" && _) eqn:Ac; [apply andb_true_iff in Ac as [Ac _]; rewrite after_reply; by apply change_created|].
  destruct (action_is d "rollback" && _) eqn:Ab; [|constructor]. apply andb_true_iff in Ab as [Ab _].
  rewrite after_reply. by apply change_rolled_back.
Qed.

(** ** Replays *)

(** [_stored_attributes] when no call fails. *)
Definition attributes_of (f : file) : result exn (attributes * bool) :=
  current ← generation f XATTR_NAMES;
  legacy ← generation f LEGACY_XATTR_NAMES;
  match current, legacy with
  | Some a, Some b => if bool_decide (a = b) then Ok (a, true) else Err not_authorized
  | Some a, None => Ok (a, true)
  | None, Some b => Ok (b, false)
  | None, None => Err not_authorized
  end.

Lemma syscall_calm s : faults s = [] → syscall s = (Ok tt, s).
Proof. intros E. unfold syscall. by rewrite E. Qed.

Lemma stored_attributes_calm f s : faults s = [] → stored_attributes f s = (attributes_of f, s).
Proof.
  intros E. unfold stored_attributes, attributes_of, lift, mbind, M_bind, result_bind. rewrite (syscall_calm _ E).
  generalize (generation f XATTR_NAMES) (generation f LEGACY_XATTR_NAMES).
  intros [[a|]|] [[b|]|]; simpl; repeat rewrite (syscall_calm _ E); try done. unfold raise_if. by case_bool_decide.
Qed.

Lemma stored_attributes_of f s a b s' : stored_attributes f s = (Ok (a, b), s') → attributes_of f = Ok (a, b).
Proof.
  unfold stored_attributes, attributes_of. intros H. inv_m.
  repeat match goal with H : generation f _ = Ok ?o |- _ => rewrite H; destruct o; clear H end; simpl; inv_m; try done.
  inv_bool. by rewrite bool_decide_eq_true_2.
Qed.

(** The file of a credential: whose it is, its receipt and its content. *)
Definition credential (operation receipt value : string) (f : file) : Prop :=
  ∃ a b, attributes_of f = Ok (a, b) ∧ owned_regular_file f = true ∧ at_operation a = operation ∧ at_complete a = "1" ∧
    utf8_decode (at_receipt a) = Some receipt ∧ f_content f = value.

Lemma take_short n s v : take_chars n s = v → (String.length v < n)%nat → s = v.
Proof.
  revert n v. induction s as [|c s IH]; intros [|n] v; simpl; try lia; [by intros <-|]. intros <- Hn. simpl in Hn.
  f_equal. apply (IH n); [done|lia].
Qed.
Lemma take_all n s : (String.length s ≤ n)%nat → take_chars n s = s.
Proof. revert n. induction s as [|c s IH]; intros [|n] Hn; simpl in *; try done; [lia|]. f_equal. apply IH. lia. Qed.

Lemma secret_value_bound value v : secret_value value = Ok v → (String.length v ≤ MAX_SECRET_BYTES)%nat.
Proof.
  unfold secret_value. destruct value; try done. destruct (b64decode _); [|done]. destruct (_ || _ || _) eqn:E; [done|].
  intros [= <-]. apply orb_false_iff in E as [E _]. apply orb_false_iff in E as [_ E]. by apply Nat.ltb_ge in E.
Qed.

Lemma take_chars_length n s : (String.length (take_chars n s) ≤ n)%nat.
Proof. revert s. induction n as [|n IH]; intros [|c s]; simpl; [lia..|]. specialize (IH s). lia. Qed.

#[local] Arguments take_chars : simpl never.
Lemma created_credential umask token operation k value s t s' v :
  create umask token (PStr operation) (PStr k) value s = (Ok t, s') → secret_value value = Ok v →
  ∃ f, files s' !! k = Some f ∧ credential operation t v f.
Proof.
  intros H Hv. apply create_cases in H as [[E Hrep]|(kk & o & w & [= <-] & [= <-] & Hw & _ & Hf)].
  - destruct (Hrep t eq_refl) as (kk & o & w & s1 & [= <-] & [= <-] & Hw & _ & E1 & H). simplify_eq.
    unfold repeat_create in H. apply catch_Ok in H as [H|(e & s2 & _ & H)]; [|by apply raise_Ok in H]. inv_m.
    repeat match goal with H : syscall _ = _ |- _ => apply syscall_Ok in H end. inv_bool.
    match goal with H : open_read _ _ = _ |- _ => apply open_read_Ok in H as [Hf Ef] end.
    match goal with x : attributes * bool |- _ => destruct x as [a b] end. cbn [fst snd] in *.
    match goal with H : stored_attributes _ _ = _ |- _ => apply stored_attributes_of in H as Ha end.
    match goal with f : file |- _ => exists f end. split; [congruence|]. exists a, b.
    pose proof (secret_value_bound _ _ Hv) as Hb. unfold decode_text in *.
    match goal with H : match utf8_decode ?x with _ => _ end = Ok _ |- _ => destruct (utf8_decode x) eqn:Ed; [|done] end.
    simplify_eq. split_and!; try congruence. apply (take_short (MAX_SECRET_BYTES + 1)); [congruence|lia].
  - destruct (Hf t eq_refl) as [-> Hk]. simplify_eq. eexists. split; [exact Hk|].
    eexists (mkAttributes operation (utf8_encode token) "1"), true. split_and!; try done. { apply utf8_decode_encode. } simpl. congruence.
Qed.

Lemma open_read_calm k f s : faults s = [] → files s !! k = Some f → f_kind f = REGULAR → open_read k s = (Ok f, s).
Proof.
  intros E Hf Hk. unfold open_read, mbind, M_bind, gets. rewrite (syscall_calm _ E), Hf. unfold raise_if.
  by rewrite bool_decide_eq_false_2 by (rewrite Hk; done).
Qed.

Lemma owned_regular f : owned_regular_file f = true → f_kind f = REGULAR.
Proof. unfold owned_regular_file. intros H. by inv_bool. Qed.

Lemma unlink_owned_calm k f s :
  faults s = [] → files s !! k = Some f → owned_regular_file f = true → unlink_owned k s = (Ok tt, on_files (delete k) s).
Proof.
  intros E Hf Ho. unfold unlink_owned, mbind, M_bind, gets, raise_if. rewrite (syscall_calm _ E), Hf. simpl. rewrite Ho. simpl.
  repeat rewrite (syscall_calm _ E). unfold modify. by rewrite syscall_calm.
Qed.

Lemma credential_parts o t v f :
  credential o t v f → ∃ a b, attributes_of f = Ok (a, b) ∧ owned_regular_file f = true ∧ f_kind f = REGULAR ∧
    bool_decide (at_operation a = o) = true ∧ bool_decide (at_complete a = "1") = true ∧ decode_text (at_receipt a) = Ok t ∧ f_content f = v.
Proof.
  intros (a & b & Ha & Ho & Eo & Ec & Et & Ev). exists a, b. unfold decode_text. rewrite Et, !bool_decide_eq_true_2 by done.
  split_and!; try done. by apply owned_regular.
Qed.

Lemma create_checks umask token o k value s t s' :
  create umask token (PStr o) (PStr k) value s = (Ok t, s') →
  KEY_PATTERN k = true ∧ OPERATION_PATTERN o = true ∧ ∃ v, secret_value value = Ok v.
Proof.
  unfold create. intros H. inv_m. unfold check_key, check_operation in *. destruct (KEY_PATTERN k); [|done].
  destruct (OPERATION_PATTERN o); [|done]. eauto.
Qed.

(** The requests about a file that holds a credential, on a store without faults: only
    the operation that created it, with the value it stored, is answered; only the
    receipt removes it. *)
Section Stored.
Context (o t v k : string) (f : file) (s : broker).
Context (Hcalm : faults s = []) (Hf : files s !! k = Some f) (Hcred : credential o t v f).
Context (Hkey : KEY_PATTERN k = true).

Lemma create_stored umask token o2 value2 v2 :
  OPERATION_PATTERN o2 = true → secret_value value2 = Ok v2 → (String.length v ≤ MAX_SECRET_BYTES)%nat →
  create umask token (PStr o2) (PStr k) value2 s =
  ((if bool_decide (o2 = o) && bool_decide (v2 = v) then Ok t else Err (BrokerError "SECRET_ALREADY_EXISTS")), s).
Proof.
  intros Ho2 Hv2 Hb. destruct (credential_parts _ _ _ _ Hcred) as (a & b & Ha & Ho & Hk & Eo & Ec & Et & Ev).
  pose proof (stored_attributes_calm f s Hcalm) as Hst. rewrite Ha in Hst. apply bool_decide_eq_true in Eo.
  unfold create, attempt, open_new, repeat_create, catch, lift, mbind, M_bind, gets. cbn [check_key check_operation].
  rewrite Hkey, Ho2, Hv2, (syscall_calm _ Hcalm), Hf. unfold raise. rewrite bool_decide_eq_true_2 by done.
  rewrite (open_read_calm k f s Hcalm Hf Hk), (syscall_calm _ Hcalm), Hst. unfold raise_if. cbn [fst]. rewrite Ho, Ec, Eo. cbn [negb orb]. rewrite orb_false_r.
  rewrite (bool_decide_ext (o2 = o) (o = o2)) by (split; congruence). destruct (bool_decide (o = o2)) eqn:E; cbn [negb andb]; [|done].
  rewrite (syscall_calm _ Hcalm), take_all, Ev by (rewrite Ev; lia). rewrite (bool_decide_ext (v2 = v) (v = v2)) by (split; congruence).
  destruct (bool_decide (v = v2)); cbn [negb]; [|done]. by rewrite !(syscall_calm _ Hcalm), Et.
Qed.
Lemma verify_stored o2 : OPERATION_PATTERN o2 = true → verify_owned (PStr o2) (PStr k) s = (Ok (bool_decide (o2 = o)), s).
Proof.
  intros Ho2. destruct (credential_parts _ _ _ _ Hcred) as (a & b & Ha & Ho & Hk & Eo & Ec & Et & Ev).
  pose proof (stored_attributes_calm f s Hcalm) as Hst. rewrite Ha in Hst. apply bool_decide_eq_true in Eo.
  unfold verify_owned, catch, lift, mbind, M_bind. cbn [check_key check_operation]. rewrite Hkey, Ho2, (open_read_calm k f s Hcalm Hf Hk), (syscall_calm _ Hcalm), Hst.
  cbn [fst]. rewrite Ho, Ec, Eo. cbn [andb]. rewrite andb_true_r. by rewrite (bool_decide_ext (o2 = o) (o = o2)) by (split; congruence).
Qed.
Lemma rollback_stored o2 t2 :
  OPERATION_PATTERN o2 = true → is_ascii t = true → is_ascii t2 = true →
  rollback (PStr o2) (PStr k) (PStr t2) s =
  if bool_decide (o2 = o) && bool_decide (t2 = t) then (Ok tt, on_files (delete k) s) else (Err (BrokerError "ROLLBACK_NOT_AUTHORIZED"), s).
Proof.
  intros Ho2 Hascii Hascii2. destruct (credential_parts _ _ _ _ Hcred) as (a & b & Ha & Ho & Hk & Eo & Ec & Et & Ev).
  pose proof (stored_attributes_calm f s Hcalm) as Hst. rewrite Ha in Hst. apply bool_decide_eq_true in Eo.
  unfold rollback, catch, lift, mbind, M_bind. cbn [check_key check_operation].
  rewrite Hkey, Ho2, (open_read_calm k f s Hcalm Hf Hk), !(syscall_calm _ Hcalm), Hst. unfold raise_if. cbn [fst]. rewrite Ho, Ec, Eo. cbn [negb orb]. rewrite orb_false_r.
  rewrite (bool_decide_ext (o2 = o) (o = o2)) by (split; congruence). destruct (bool_decide (o = o2)) eqn:E; cbn [negb andb]; [|done].
  rewrite Et. replace (if truthy (PStr t2) then PStr t2 else PStr "") with (PStr t2) by (by destruct t2).
  unfold compare_digest. rewrite Hascii, Hascii2. cbn [andb]. rewrite (bool_decide_ext (t2 = t) (t = t2)) by (split; congruence).
  destruct (bool_decide (t = t2)); cbn [negb]; [|done]. by rewrite (unlink_owned_calm _ _ _ Hcalm Hf Ho).
Qed.
End Stored.

(** C19: a stored secret can be asked for again, and only by its owner. Once a creation
    has replied with a receipt, the file holds exactly the secret. As long as nobody
    touches that file and no call fails: the same request repeated gives the same
    receipt, whatever token it would have drawn, and a creation of that file by another
    operation or with another value is refused as already existing; the broker
    confirms to the operation that it owns the file and to any other that it does not;
    the receipt removes exactly that file for the operation, and with another
    operation or another receipt the removal is refused. Every refused request
    leaves every file as it is. *)
Theorem secret_replays umask token o k value s t s' token2 s2 :
  create umask token (PStr o) (PStr k) value s = (Ok t, s') → files s2 !! k = files s' !! k → faults s2 = [] →
  ∃ f v, files s2 !! k = Some f ∧ secret_value value = Ok v ∧ f_content f = v ∧
  create umask token2 (PStr o) (PStr k) value s2 = (Ok t, s2) ∧
  (∀ o2 value2 v2, OPERATION_PATTERN o2 = true → secret_value value2 = Ok v2 → o2 ≠ o ∨ v2 ≠ v →
     create umask token2 (PStr o2) (PStr k) value2 s2 = (Err (BrokerError "SECRET_ALREADY_EXISTS"), s2)) ∧
  verify_owned (PStr o) (PStr k) s2 = (Ok true, s2) ∧
  (∀ o2, OPERATION_PATTERN o2 = true → o2 ≠ o → verify_owned (PStr o2) (PStr k) s2 = (Ok false, s2)) ∧
  (is_ascii t = true → rollback (PStr o) (PStr k) (PStr t) s2 = (Ok tt, on_files (delete k) s2)) ∧
  (∀ o2 t2, OPERATION_PATTERN o2 = true → is_ascii t = true → is_ascii t2 = true → o2 ≠ o ∨ t2 ≠ t →
     rollback (PStr o2) (PStr k) (PStr t2) s2 = (Err (BrokerError "ROLLBACK_NOT_AUTHORIZED"), s2)).
Proof.
  intros H E Hc. destruct (create_checks _ _ _ _ _ _ _ _ H) as (Kk & Ko & v & Hv).
  destruct (created_credential _ _ _ _ _ _ _ _ _ H Hv) as (f & Hf & Hcred). rewrite <-E in Hf.
  pose proof (secret_value_bound _ _ Hv) as Hb. pose proof (create_stored o t v k f s2 Hc Hf Hcred Kk umask token2) as Hcreate.
  pose proof (verify_stored o t v k f s2 Hc Hf Hcred Kk) as Hverify. pose proof (rollback_stored o t v k f s2 Hc Hf Hcred Kk) as Hroll.
  destruct (credential_parts _ _ _ _ Hcred) as (_ & _ & _ & _ & _ & _ & _ & _ & Ev). exists f, v. split_and!; try done.
  - by rewrite (Hcreate o value v), !bool_decide_eq_true_2.
  - intros o2 value2 v2 Ho2 Hv2 Hne. rewrite (Hcreate o2 value2 v2) by done. destruct Hne as [Hne|Hne]; rewrite (bool_decide_eq_false_2 _ Hne); [done|by rewrite andb_false_r].
  - by rewrite Hverify, bool_decide_eq_true_2.
  - intros o2 Ho2 Hne. by rewrite Hverify, bool_decide_eq_false_2.
  - intros Hascii. by rewrite Hroll, !bool_decide_eq_true_2.
  - intros o2 t2 Ho2 H1 H2 Hne. rewrite Hroll by done. destruct Hne as [Hne|Hne]; rewrite (bool_decide_eq_false_2 _ Hne); [done|by rewrite andb_false_r].
Qed.

(** A creation with short writes, and one whose third call on the new file and
    its cleanup fail. *)
Definition sample_key : string := "src-esx-a-secret-0011223344556677".
Definition sample_operation : string := "operation-000000000001".
Definition sample_value : pyval := PStr (b64encode "secret").
Definition short_writes : broker := mkBroker ∅ [] [2; 1]%nat.
Definition stored_secret : broker := (create 18 "token" (PStr sample_operation) (PStr sample_key) sample_value short_writes).2.
Definition failing : broker := mkBroker ∅ [false; false; false; true; true] [].

Example sample_runs :
  (f_content <$> files stored_secret !! sample_key) = Some "secret" ∧
  (create 18 "token" (PStr sample_operation) (PStr sample_key) sample_value failing).1 = Err (BrokerError "SECRET_CREATE_FAILED") ∧
  (verify_owned (PStr sample_operation) (PStr sample_key)
     (create 18 "token" (PStr sample_operation) (PStr sample_key) sample_value failing).2).1 = Ok false.
Proof. vm_compute. done. Qed.

Lemma stored_once :
  create 18 "token" (PStr sample_operation) (PStr sample_key) sample_value short_writes = (Ok "token", stored_secret) ∧
  faults stored_secret = [].
Proof. split; vm_compute; reflexivity. Qed.

Lemma secret_replays_witness :
  create 18 "another" (PStr sample_operation) (PStr sample_key) sample_value stored_secret = (Ok "token", stored_secret) ∧
  create 18 "another" (PStr "operation-000000000002") (PStr sample_key) sample_value stored_secret = (Err (BrokerError "SECRET_ALREADY_EXISTS"), stored_secret).
Proof.
  destruct (secret_replays 18 "token" sample_operation sample_key sample_value short_writes "token" stored_secret "another"
    stored_secret (proj1 stored_once) eq_refl (proj2 stored_once)) as (f & v & _ & Hv & _ & H1 & H2 & _).
  split; [exact H1|]. apply (H2 "operation-000000000002" sample_value v); [reflexivity|exact Hv|left; intros E; discriminate E].
Defined.

(** ** The loops end *)

Lemma length_append (a b : string) : String.length (a +:+ b) = (String.length a + String.length b)%nat.
Proof. induction a as [|c a IH]; [done|]. change (S (String.length (a +:+ b)) = (S (String.length a) + String.length b)%nat). lia. Qed.

Lemma whole_Ok raw r : whole raw = Ok r → r = raw ∧ (byte_size raw ≤ MAX_REQUEST_BYTES)%Z ∧ ends_newline raw = true.
Proof.
  unfold whole. destruct (_ || _) eqn:E; [done|]. intros [= <-]. apply orb_false_iff in E as [E1%Z.ltb_ge E2]. by inv_bool.
Qed.

(** A turn that goes on has received at least one byte. *)
Lemma receive_ends clock recv fuel n raw :
  (MAX_REQUEST_BYTES + 2 - byte_size raw ≤ Z.of_nat fuel)%Z → (byte_size raw ≤ MAX_REQUEST_BYTES + 1)%Z →
  ∃ r, receive clock recv fuel n raw = Some r ∧
    (∀ x, r = Ok x → (byte_size x ≤ MAX_REQUEST_BYTES)%Z ∧ ends_newline x = true) ∧
    ∀ fuel', (fuel ≤ fuel')%nat → receive clock recv fuel' n raw = Some r.
Proof.
  assert (∀ x r, whole x = Ok r → (byte_size r ≤ MAX_REQUEST_BYTES)%Z ∧ ends_newline r = true) as Hw
    by (intros x r (-> & ? & ?)%whole_Ok; done).
  revert n raw. induction fuel as [|fuel IH]; intros n raw Hf Hs; [unfold MAX_REQUEST_BYTES in *; lia|].
  assert (∀ fuel', (S fuel ≤ fuel')%nat → ∃ m, fuel' = S m ∧ (fuel ≤ m)%nat) as Hpred.
  { intros [|m] Hm; [lia|]. exists m. split; [done|lia]. }
  cbn [receive]. destruct (ends_newline raw || _) eqn:Eend.
  { eexists. split; [done|]. split; [apply Hw|]. intros ? (m & -> & _)%Hpred. cbn [receive]. by rewrite Eend. }
  destruct (_ <=? 0)%Z eqn:Eclock.
  { eexists. split; [done|]. split; [done|]. intros ? (m & -> & _)%Hpred. cbn [receive]. by rewrite Eend, Eclock. }
  destruct (recv n) as [bytes| |] eqn:Er.
  - set (chunk := take_chars _ bytes). case_bool_decide as Ec.
    + eexists. split; [done|]. split; [apply Hw|]. intros ? (m & -> & _)%Hpred. cbn [receive]. rewrite Eend, Eclock, Er.
      by rewrite bool_decide_eq_true_2.
    + apply orb_false_iff in Eend as [Enl Elen]. apply Z.ltb_ge in Elen.
      assert (String.length chunk ≤ Z.to_nat (MAX_REQUEST_BYTES + 1 - byte_size raw))%nat as Hlen by apply take_chars_length.
      assert (0 < String.length chunk)%nat as Hpos by (destruct chunk; [done|simpl; lia]).
      assert (byte_size (raw +:+ chunk) = (byte_size raw + Z.of_nat (String.length chunk))%Z) as Esize
        by (unfold byte_size; rewrite length_append; lia).
      destruct (IH (S n) (raw +:+ chunk)) as (r & Hr & Hok & Hmore); [lia|lia|]. exists r. split; [done|]. split; [done|].
      intros ? (m & -> & Hm)%Hpred. cbn [receive]. rewrite Enl, (proj2 (Z.ltb_ge _ _) Elen), Eclock, Er. cbn [orb].
      rewrite bool_decide_eq_false_2 by done. by apply Hmore.
  - eexists. split; [done|]. split; [done|]. intros ? (m & -> & _)%Hpred. cbn [receive]. by rewrite Eend, Eclock, Er.
  - eexists. split; [done|]. split; [done|]. intros ? (m & -> & _)%Hpred. cbn [receive]. by rewrite Eend, Eclock, Er.
Qed.

Lemma write_all_ends fuel key rest s : (String.length rest ≤ fuel)%nat → raises (λ e, e = OSError) (write_all fuel key rest) s.
Proof.
  revert rest s. induction fuel as [|fuel IH]; intros rest s Hn; cbn [write_all].
  - destruct rest; [by rewrite bool_decide_eq_true_2|simpl in Hn; lia].
  - case_bool_decide as Er; [done|]. apply raises_bind.
    + unfold os_write. apply raises_bind; [|done]. unfold raises, syscall. by destruct (faults s) as [|[] ?].
    + intros count s1 _. apply raises_bind; [by apply raises_raise_if|]. intros u s2 [E ->]%raise_if_Ok.
      apply Nat.eqb_neq in E. apply IH. rewrite length_drop. destruct rest; [done|simpl in *; lia].
Qed.

Lemma write_all_appends fuel key rest s u s' :
  write_all fuel key rest s = (Ok u, s') → files s' = alter (add_bytes rest) key (files s).
Proof.
  assert (∀ m : gmap string file, m = alter (add_bytes "") key m) as Hnil.
  { intros m. apply map_eq. intros j. destruct (decide (j = key)) as [->|]; [|by rewrite lookup_alter_ne].
    rewrite lookup_alter_eq. destruct (m !! key) as [[]|]; [|done]. unfold add_bytes. simpl. by rewrite append_nothing. }
  revert rest s. induction fuel as [|fuel IH]; intros rest s H; cbn [write_all] in H; case_bool_decide as Er; subst; inv_m; try apply Hnil.
  unfold os_write in *. inv_m. match goal with H : syscall _ = _ |- _ => apply syscall_Ok in H as Es end.
  match goal with H : write_all _ _ _ _ = _ |- _ => rewrite (IH _ _ H) end. cbn [files]. rewrite Es.
  set (n := match counts _ with c :: _ => _ | [] => _ end). apply map_eq. intros j.
  destruct (decide (j = key)) as [->|]; [|by rewrite !lookup_alter_ne]. rewrite !lookup_alter_eq.
  destruct (files s !! key) as [[]|]; [|done]. unfold add_bytes. simpl. by rewrite string_app_assoc, take_drop_chars.
Qed.

(** C21: the loops of the broker end. Whatever the clock shows and the peer sends,
    one byte at a time or without end, a request is read in at most as many turns
    as the size limit has bytes, and what is accepted is a line within the limit;
    more turns would not change the result. Writing a secret ends after at most
    one write per byte, with all of it written or with the error of a call. *)
Theorem broker_loops_end clock recv key value s :
  (∃ r, read_request clock recv = Some r ∧ (∀ raw, r = Ok raw → (byte_size raw ≤ MAX_REQUEST_BYTES)%Z ∧ ends_newline raw = true) ∧
     ∀ fuel, (Z.to_nat (MAX_REQUEST_BYTES + 2) ≤ fuel)%nat → receive clock recv fuel 0 "" = Some r) ∧
  match write_all (String.length value) key value s with
  | (Ok _, s') => files s' = alter (add_bytes value) key (files s)
  | (Err e, _) => e = OSError
  end.
Proof.
  split; [apply receive_ends; unfold byte_size, MAX_REQUEST_BYTES; simpl String.length; lia|].
  pose proof (write_all_ends (String.length value) key value s ltac:(lia)) as Hr. unfold raises in Hr.
  destruct (write_all _ key value s) as [[u|e] s'] eqn:E; [by eapply write_all_appends|done].
Qed.
