(* ===== verification/Onboarding.v ===== *)
(** * Onboarding a source (netbox_sync/application/onboarding.py,
    netbox_sync/api/onboarding_adapters.py, the registration adapter of
    netbox_sync/api/lifecycle_adapters.py)

    Tested credentials wait in memory under a random token; a registration
    consumes them, has the broker store the secrets and inserts the registry row.
    The two stores have no common transaction: the broker may act on a request
    whose answer is lost, and a commit may succeed although the client sees an
    error. Those events, the clock and the random texts are oracles in the
    state. *)

From S2P Require Import Prelude Hoare PyValue SourceConfig Schema PyUuid PyBytes EsxiIdentity RunHistory SourceOperations Registry.
From S2P Require Import SourceLifecycle Retirement HostRegistration SecretBroker.
From stdpp Require Import base list strings gmap.
From Stdlib Require Import ZArith Lia Ascii.
Local Open Scope string_scope.
#[local] Arguments py_eqb _ _ : simpl never.

Definition OnboardingError (code : string) : exn := OtherException "OnboardingError" (Some code).

(** ** State *)

Record PendingCredentials := mkPending {
  pc_source_type : string; pc_address : string; pc_verify_ssl : bool; pc_username : string; pc_token_id : string;
  pc_secret : string; pc_port : pyval }.

(** [__post_init__]. *)
Definition new_pending (c : PendingCredentials) : result exn PendingCredentials :=
  source_port (pc_source_type c) (pc_port c);; Ok c.

(** An item of [EphemeralOnboardingStore]. *)
Record handoff := mkHandoff { ho_expires : Z; ho_credentials : PendingCredentials; ho_preview : pyval }.

(** What becomes of one attempt to talk to the broker: not connected, the request
    lost, the request not understood, the answer lost. *)
Inductive net_event := NotConnected | RequestLost | Broken (e : exn) | ReplyLost | Answered.
(** What becomes of one database connection. *)
Inductive link_event := Up | Down | CommitLost.

Record station := mkStation {
  on_db : db; on_disk : broker; on_items : gmap string handoff; on_operations : gmap string string;
  on_random : list string; on_times : list Z; on_net : list net_event; on_link : list link_event }.
Abbreviation OB := (M station exn).

Definition set_db (d : db) (w : station) : station :=
  mkStation d (on_disk w) (on_items w) (on_operations w) (on_random w) (on_times w) (on_net w) (on_link w).
Definition set_disk (d : broker) (w : station) : station :=
  mkStation (on_db w) d (on_items w) (on_operations w) (on_random w) (on_times w) (on_net w) (on_link w).
Definition map_items (f : gmap string handoff → gmap string handoff) (w : station) : station :=
  mkStation (on_db w) (on_disk w) (f (on_items w)) (on_operations w) (on_random w) (on_times w) (on_net w) (on_link w).
Definition map_operations (f : gmap string string → gmap string string) (w : station) : station :=
  mkStation (on_db w) (on_disk w) (on_items w) (f (on_operations w)) (on_random w) (on_times w) (on_net w) (on_link w).

(** The next value of an oracle. *)
Definition draw : OB string := λ w,
  (Ok (default "" (head (on_random w))),
   mkStation (on_db w) (on_disk w) (on_items w) (on_operations w) (tail (on_random w)) (on_times w) (on_net w) (on_link w)).
Definition read_clock : OB Z := λ w,
  (Ok (default 0%Z (head (on_times w))),
   mkStation (on_db w) (on_disk w) (on_items w) (on_operations w) (on_random w) (tail (on_times w)) (on_net w) (on_link w)).
Definition next_net : OB net_event := λ w,
  (Ok (default Answered (head (on_net w))),
   mkStation (on_db w) (on_disk w) (on_items w) (on_operations w) (on_random w) (on_times w) (tail (on_net w)) (on_link w)).
Definition next_link : OB link_event := λ w,
  (Ok (default Up (head (on_link w))),
   mkStation (on_db w) (on_disk w) (on_items w) (on_operations w) (on_random w) (on_times w) (on_net w) (tail (on_link w))).

Definition through_db {A} (m : DB A) : OB A := λ w, let '(r, d) := m (on_db w) in (r, set_db d w).
Definition through_disk {A} (m : BR A) : OB A := λ w, let '(r, d) := m (on_disk w) in (r, set_disk d w).

(** ** The handoff of credentials *)

Section Handoff.
Context (ttl : Z).

Definition token_invalid : exn := OnboardingError "ONBOARDING_TOKEN_INVALID".

(** [issue]: expired items go first. *)
Definition issue (credentials : PendingCredentials) (preview : pyval) : OB string :=
  token ← draw;
  now ← read_clock;
  modify (map_items (filter (λ kv, (now < ho_expires kv.2)%Z)));;
  items ← gets on_items;
  raise_if (Nat.leb 128 (size items)) (OnboardingError "REGISTRATION_UNAVAILABLE");;
  modify (map_items (<[token := mkHandoff (now + ttl) credentials preview]>));;
  mret token.

(** [_expire], called by the timer, and [discard]. *)
Definition expire (token : string) : OB unit := modify (map_items (delete token)).
Definition discard (token : string) : OB unit := modify (map_items (delete token)).

(** The item of a token that has not expired. *)
Definition current_item (token : string) : OB handoff :=
  items ← gets on_items;
  item ← require (items !! token) token_invalid;
  now ← read_clock;
  raise_if (ho_expires item <=? now)%Z token_invalid;;
  mret item.

Definition pending_recovery_review (token source : string) (value : pyval) : OB pyval :=
  item ← current_item token;
  raise_if (negb (py_eqb (py_get "recovery_source" (ho_preview item)) (PStr source))) token_invalid;;
  match value with
  | PNone => mret (py_get "recovery_review" (ho_preview item))
  | _ =>
      preview ← lift (match ho_preview item with PDict d => Ok d | _ => Err (TypeError "object does not support item assignment") end);
      modify (map_items (<[token := mkHandoff (ho_expires item) (ho_credentials item) (PDict (dset "recovery_review" value preview))]>));;
      mret value
  end.

Definition pending_preview (token : string) : OB pyval := item ← current_item token; mret (ho_preview item).

(** [consume]: the item is gone whether or not it was still valid. *)
Definition consume (token : string) : OB PendingCredentials :=
  items ← gets on_items;
  modify (map_items (delete token));;
  item ← require (items !! token) token_invalid;
  now ← read_clock;
  raise_if (ho_expires item <=? now)%Z token_invalid;;
  mret (ho_credentials item).
End Handoff.

(** The application input of a registration. *)
Record RegistrationCommand := mkCommand {
  rq_token : string; rq_source_type : string; rq_source_instance : string; rq_name : string; rq_address : string;
  rq_verify_ssl : bool; rq_interval : pyval; rq_site_slug : string; rq_cluster_name : string; rq_platform_slug : string;
  rq_device_role_slug : string; rq_device_type_slug : string; rq_cluster_type_slug : string; rq_confirm : pyval;
  rq_mapping : pydict; rq_port : pyval }.

(** The receipt-bound destination of the tested credentials is the requested one. *)
Definition bound_to (c : PendingCredentials) (rq : RegistrationCommand) : result exn bool :=
  if negb (bool_decide (pc_source_type c = rq_source_type rq) && bool_decide (pc_address c = rq_address rq) &&
           bool_decide (pc_verify_ssl c = rq_verify_ssl rq)) then Ok false
  else
    mine ← source_port (pc_source_type c) (pc_port c);
    theirs ← source_port (rq_source_type rq) (rq_port rq);
    Ok (mine =? theirs)%Z.

Definition check_binding (rq : RegistrationCommand) : OB unit :=
  item ← current_item (rq_token rq);
  bound ← lift (bound_to (ho_credentials item) rq);
  raise_if (negb bound) token_invalid.

(** ** The broker as the API sees it *)

Record SecretReceipt := mkReceipt { rc_key : string; rc_token : string }.

Section BrokerClient.
Context (umask allowed_uid uid : Z).

Definition serve (received : result exn pyval) : OB pyval :=
  token ← draw; through_disk (serve_connection umask allowed_uid token uid received).

(** One connection: the reply, if one arrives, and whether it was connected. *)
Definition exchange (payload : pyval) : OB (option pyval * bool) :=
  event ← next_net;
  match event with
  | NotConnected => mret (None, false)
  | RequestLost => mret (None, true)
  | Broken e => reply ← serve (Err e); mret (Some reply, true)
  | ReplyLost => serve (Ok payload);; mret (None, true)
  | Answered => reply ← serve (Ok payload); mret (Some reply, true)
  end.

Definition accept_reply (reply : pyval) : result exn pydict :=
  match reply with
  | PDict d =>
      if is_True (dget "ok" d) then Ok d
      else if py_eqb (dget "error" d) (PStr "BROKER_INTERNAL_ERROR") || py_eqb (dget "error" d) (PStr "SECRET_CREATE_FAILED")
      then Err (OnboardingError "REGISTRATION_UNCERTAIN") else Err (OnboardingError "SECRET_STORE_FAILED")
  | _ => Err attribute_error
  end.

(** [_request]: the same operation is sent at most twice. *)
Definition broker_request (payload : pyval) : OB pydict :=
  first ← exchange payload;
  match first.1 with
  | Some reply => lift (accept_reply reply)
  | None =>
      second ← exchange payload;
      match second.1 with
      | Some reply => lift (accept_reply reply)
      | None => raise (OnboardingError (if (first.2 || second.2 : bool) then "REGISTRATION_UNCERTAIN" else "SECRET_STORE_FAILED"))
      end
  end.

Definition text_of (d : pydict) (key : string) : result exn string :=
  match dlookup key d with Some (PStr t) => Ok t | Some _ => Err (TypeError "unexpected value") | None => Err (KeyError key) end.

(** [BrokerSecretStore.create], with the operation it sends. *)
Definition secret_create (key value : string) (operation_id : option string) : OB SecretReceipt :=
  operation ← match operation_id with
              | Some o => if bool_decide (o = "") then draw else mret o
              | None => draw
              end;
  result ← broker_request (PDict [("action", PStr "create"); ("operation_id", PStr operation); ("key", PStr key);
                                  ("value", PStr (b64encode (utf8_encode value)))]);
  token ← lift (text_of result "rollback_token");
  modify (map_operations (<[key := operation]>));;
  mret (mkReceipt key token).

Definition secret_rollback (r : SecretReceipt) : OB unit :=
  operations ← gets on_operations;
  operation ← require (operations !! rc_key r) (KeyError (rc_key r));
  broker_request (PDict [("action", PStr "rollback"); ("operation_id", PStr operation); ("key", PStr (rc_key r));
                         ("rollback_token", PStr (rc_token r))]);;
  modify (map_operations (delete (rc_key r))).

Definition forget (receipts : list SecretReceipt) (w : station) : station :=
  map_operations (λ m, foldr (λ r m, delete (rc_key r) m) m receipts) w.
End BrokerClient.

(** ** The registry as a registration sees it *)

(** [RegistrationRegistry.create]: the stored configuration, or what is known of
    the failed write. *)
Inductive write_outcome := Written (c : SourceConfig) | WriteFailed (definitely_failed duplicate : bool).

(** A statement the server rejected. *)
Definition definite_code (code : string) : bool :=
  let cls := take_chars 2 code in bool_decide (cls = "22") || bool_decide (cls = "23") || bool_decide (cls = "42").

(** ** The public view of a request (application/sources.py) *)

(** What [urllib.parse.urlsplit] finds; reading the port may raise. *)
Record url := mkUrl {
  url_scheme : string; url_hostname : option string; url_username : option string; url_password : option string;
  url_port : result exn (option Z); url_path : string; url_query : string; url_fragment : string }.

Definition public_text (s : string) : bool :=
  negb (blank s) && Nat.leb (String.length s) 1024 && all_chars (λ c, Nat.leb 32 (nat_of_ascii c)) s.

Definition has_scheme (address : string) : bool := contains "://" address.
Definition origin_only (urlsplit : string → result exn url) (address : string) : result exn bool :=
  parsed ← urlsplit (if has_scheme address then address else "//" +:+ address);
  if negb (match url_hostname parsed with Some h => negb (bool_decide (h = "")) | None => false end &&
           bool_decide (url_username parsed = None) && bool_decide (url_password parsed = None) && bool_decide (url_query parsed = "") &&
           bool_decide (url_fragment parsed = "") && negb (has_char "%"%char address) &&
           (negb (has_scheme address) || bool_decide (url_scheme parsed ∈ ["http"; "https"])) &&
           bool_decide (url_path parsed ∈ [""; "/"])) then Ok false
  else _ ← url_port parsed; Ok true.

(** [source_view] of the request: no view, no registration. *)
Definition public_view (urlsplit : string → result exn url) (rq : RegistrationCommand) : result exn unit :=
  let invalid := OtherException "SourceReadError" (Some "SOURCE_DATA_INVALID") in
  if negb (forallb public_text [rq_source_instance rq; rq_name rq; rq_address rq; rq_site_slug rq; rq_cluster_name rq; rq_platform_slug rq;
                                rq_device_role_slug rq; rq_device_type_slug rq; rq_cluster_type_slug rq] &&
           source_instance_ok (rq_source_instance rq) && bool_decide (rq_source_type rq ∈ ["proxmox"; "esxi"])) then Err invalid
  else match origin_only urlsplit (rq_address rq), rq_interval rq with
       | Ok true, PInt z => if (0 <? z)%Z then Ok tt else Err invalid
       | _, _ => Err invalid
       end.

Section Adapter.
Context (dsn : bool) (schema_version : Z).

Definition registry_unavailable : exn := OnboardingError "REGISTRATION_UNAVAILABLE".
Definition connection_failed : exn := DatabaseError "08006".

(** A connection that is there, or not. *)
Definition connected : OB unit :=
  event ← next_link; match event with Up => mret tt | _ => raise connection_failed end.

(** [_registry]. *)
Definition open_registry : OB unit :=
  raise_if (negb dsn) registry_unavailable;;
  connected;;
  raise_if (negb (schema_version =? 1)%Z) registry_unavailable.

Definition registry_find (source : string) : OB (option SourceConfig) :=
  catch (open_registry;; connected;; record ← through_db (get_by_source_instance source); mret (src_config <$> record))
    (λ _, raise registry_unavailable).

(** [LifecycleRegistrationRegistry.find]: the name of a removed source that has not
    been restored is reserved ([ReservedSourceError], whose extra attribute only
    changes the text of the answer). *)
Definition removed_source (source : string) (w : station) : bool :=
  match source_tombstones (on_db w) !! source with Some t => bool_decide (tomb_restored_at t = None) | None => false end.
Definition find (source : string) : OB (option SourceConfig) :=
  catch (open_registry;; connected;; removed ← gets (removed_source source);
         raise_if removed (OnboardingError "SOURCE_ALREADY_EXISTS");; registry_find source)
    (λ e, raise match e with OtherException "OnboardingError" _ => e | _ => registry_unavailable end).

Definition reconcile (source : string) : OB (option SourceConfig) :=
  catch (find source) (λ _, raise (OnboardingError "REGISTRATION_UNCERTAIN")).

(** The failure of the INSERT and of its commit. *)
Definition insert_failure (e : exn) : write_outcome :=
  match e with
  | DatabaseError code => if bool_decide (e = unique_violation) then WriteFailed true true else WriteFailed (definite_code code) false
  | _ => WriteFailed false false
  end.

(** The INSERT in a connection that may break before it or at its commit. *)
Definition insert_row (c : SourceConfig) : OB (result exn source_row) :=
  event ← next_link;
  match event with
  | Down => mret (Err connection_failed)
  | Up => attempt (through_db (atomic (insert_source c)))
  | CommitLost => inserted ← attempt (through_db (atomic (insert_source c)));
                  mret match inserted with Ok _ => Err connection_failed | Err e => Err e end
  end.

Definition stored_outcome (inserted : result exn source_row) : write_outcome :=
  match inserted with
  | Ok row => match row_to_record row with Ok record => Written (src_config record) | Err _ => WriteFailed false false end
  | Err e => insert_failure e
  end.

Definition create_registered (c : SourceConfig) : OB write_outcome :=
  opened ← attempt (open_registry;; lift (validate_config c));
  match opened with
  | Err _ => mret (WriteFailed true false)
  | Ok _ => inserted ← insert_row c; mret (stored_outcome inserted)
  end.

(** A legacy row without an anchor keeps its site and cluster. *)
Definition legacy_placement (s : db) (site : pyval) (cluster : string) : option string :=
  fst <$> head (select (λ k r, live s k r && bool_decide (legacy_anchor (settings_of r) = None) &&
    py_eqb (PStr (site_slug (cfg_target (src_config r)))) site && bool_decide (cluster_name (cfg_target (src_config r)) = cluster)) (sources s)).
Definition check_legacy_placement (site : pyval) (cluster : string) : OB unit :=
  open_registry;;
  connected;;
  s ← gets on_db;
  raise_if (bool_decide (is_Some (legacy_placement s site cluster)))
    (HostRegistrationConflict "HOST_LEGACY_PLACEMENT_PROTECTED" (legacy_placement s site cluster) [] false).

(** ** Registration *)

Context (umask allowed_uid uid : Z).
Context (urlsplit : string → result exn url).

(** [f'src-{source_instance.replace(".", "-")}-{label}-{token_hex(8)}']. *)
Definition dashes (s : string) : string := concat_chars (λ c, if bool_decide (c = "."%char) then "-" else String c "") s.
Definition fresh_key (source label : string) : OB string :=
  nonce ← draw; mret ("src-" +:+ dashes source +:+ "-" +:+ label +:+ "-" +:+ nonce).

Definition check_registration (rq : RegistrationCommand) : OB unit :=
  check_binding rq;;
  existing ← find (rq_source_instance rq);
  raise_if (bool_decide (is_Some existing)) (OnboardingError "SOURCE_ALREADY_EXISTS").

(** [_rollback]: every receipt is tried, the last one first. *)
Fixpoint roll_back (receipts : list SecretReceipt) : OB bool :=
  match receipts with
  | [] => mret true
  | r :: rest =>
      undone ← attempt (secret_rollback umask allowed_uid uid r);
      later ← roll_back rest;
      mret (match undone with Ok _ => later | Err _ => false end)
  end.

(** The deterministic references of an ESXi registration: key and operation. *)
Definition references : Type := string * string.

Definition consume_registration (rq : RegistrationCommand) (registration : option references) : OB PendingCredentials :=
  raise_if (bool_decide (is_Some registration) && negb (bool_decide (rq_source_type rq = "esxi"))) (OnboardingError "REGISTRATION_FAILED");;
  raise_if (negb (is_True (rq_confirm rq))) (OnboardingError "REGISTRATION_FAILED");;
  lift (public_view urlsplit rq);;
  credentials ← consume (rq_token rq);
  bound ← lift (bound_to credentials rq);
  raise_if (negb bound) token_invalid;;
  existing ← find (rq_source_instance rq);
  raise_if (bool_decide (is_Some existing)) (OnboardingError "SOURCE_ALREADY_EXISTS");;
  mret credentials.

(** The secrets of a request: the token identifier of Proxmox first. The
    receipts so far are returned with the outcome. *)
Definition create_secrets (rq : RegistrationCommand) (c : PendingCredentials) (registration : option references) :
    OB (list SecretReceipt * result exn unit) :=
  first ← (if bool_decide (rq_source_type rq = "proxmox")
           then key ← fresh_key (rq_source_instance rq) "token-id";
                attempt (r ← secret_create umask allowed_uid uid key (pc_token_id c) None; mret [r])
           else mret (Ok []));
  match first with
  | Err e => mret ([], Err e)
  | Ok receipts =>
      key ← match registration with Some refs => mret refs.1 | None => fresh_key (rq_source_instance rq) "secret" end;
      second ← attempt (secret_create umask allowed_uid uid key (pc_secret c) (snd <$> registration));
      mret match second with Ok r => ((receipts ++ [r])%list, Ok tt) | Err e => (receipts, Err e) end
  end.

Definition uncertain : exn := OnboardingError "REGISTRATION_UNCERTAIN".
Definition is_onboarding_error (e : exn) : bool := match e with OtherException "OnboardingError" _ => true | _ => false end.

(** What [_create_registration_secrets] does about a failure. *)
Definition secrets_failed (receipts : list SecretReceipt) (registration : option references) (e : exn) : OB exn :=
  match registration with
  | Some _ => mret uncertain
  | None =>
      undone ← roll_back (reverse receipts);
      mret (if negb undone then uncertain else if is_onboarding_error e then e else OnboardingError "SECRET_STORE_FAILED")
  end.

(** [staged_config]. *)
Definition staged_config (rq : RegistrationCommand) (username token_key secret_key : string) : result exn SourceConfig :=
  token_ref ← new_secret_reference "file" token_key;
  target ← new_target (mkTarget (rq_site_slug rq) (rq_device_role_slug rq) (rq_platform_slug rq) (rq_device_type_slug rq)
                         (rq_cluster_type_slug rq) (rq_cluster_name rq) []);
  secret_ref ← new_secret_reference "file" secret_key;
  credentials ← new_credentials username token_ref secret_ref;
  new_source_config (rq_source_instance rq) (rq_source_instance rq) (rq_name rq) (rq_source_type rq) (rq_address rq) true false
    (rq_interval rq) (rq_verify_ssl rq) target credentials PNone None false
    (PDict ((if bool_decide (rq_mapping rq = []) then [] else [("onboarding_mapping", PDict (rq_mapping rq))]) ++
            match rq_port rq with PNone => [] | port => [("api_port", port)] end)%list).

(** The row as read back is the one that was sent. *)
Definition settle (source : string) (config : SourceConfig) : OB SourceConfig :=
  state ← reconcile source;
  raise_if (negb match state with Some c => config_eqb c config | None => false end) uncertain;;
  mret config.

(** [_persist_registration]. *)
Definition persist_registration (source : string) (config : SourceConfig) (receipts : list SecretReceipt) (registration : option references) :
    OB SourceConfig :=
  written ← create_registered config;
  match written, registration with
  | Written c, _ => mret c
  | WriteFailed _ _, Some _ => settle source config
  | WriteFailed true duplicate, None =>
      undone ← roll_back (reverse receipts);
      raise (if negb undone then uncertain
             else OnboardingError (if (duplicate : bool) then "SOURCE_ALREADY_EXISTS" else "REGISTRATION_FAILED"))
  | WriteFailed false _, None => settle source config
  end.

(** [_register] and [register]: the receipts are forgotten in the end. *)
Definition register_body (rq : RegistrationCommand) (registration : option references) : OB (list SecretReceipt * result exn SourceConfig) :=
  credentials ← attempt (consume_registration rq registration);
  match credentials with
  | Err e => mret ([], Err e)
  | Ok c =>
      secrets ← create_secrets rq c registration;
      match secrets with
      | (receipts, Err e) => e' ← secrets_failed receipts registration e; mret (receipts, Err e')
      | (receipts, Ok _) =>
          let secret_key := default "" (rc_key <$> last receipts) in
          let token_key := default "" (rc_key <$> head receipts) in
          registered ← attempt (config ← lift (staged_config rq (pc_username c) token_key secret_key);
                                persist_registration (rq_source_instance rq) config receipts registration);
          mret (receipts, registered)
      end
  end.
Definition register (rq : RegistrationCommand) (registration : option references) : OB SourceConfig :=
  result ← register_body rq registration;
  modify (forget result.1);;
  lift result.2.

(** [register_staged]: the secrets are already stored. *)
Definition register_staged (rq : RegistrationCommand) (username token_key secret_key : string) : OB SourceConfig :=
  config ← lift (staged_config rq username token_key secret_key);
  existing ← reconcile (rq_source_instance rq);
  match existing with
  | Some c => raise_if (negb (config_eqb c config)) (OnboardingError "SOURCE_ALREADY_EXISTS");; mret config
  | None =>
      written ← create_registered config;
      match written with Written c => mret c | WriteFailed _ _ => settle (rq_source_instance rq) config end
  end.
End Adapter.

(** ** Frames *)

(** The database is as it was and no file is lost or changed. *)
Definition grows (w w' : station) : Prop :=
  on_db w' = on_db w ∧ ∀ k f, files (on_disk w) !! k = Some f → files (on_disk w') !! k = Some f.
#[export] Instance grows_preorder : PreOrder grows.
Proof. split; [done|]. intros x y z [E1 F1] [E2 F2]. split; [congruence|auto]. Qed.

(** Neither store is touched. *)
Definition rests (w w' : station) : Prop := on_db w' = on_db w ∧ on_disk w' = on_disk w.
#[export] Instance rests_preorder : PreOrder rests.
Proof. split; [done|]. intros x y z [] []. split; congruence. Qed.

Lemma rests_grows w w' : rests w w' → grows w w'.
Proof. intros [E1 E2]. split; [done|]. by rewrite E2. Qed.
Lemma grows_rests w0 w w' : grows w0 w → rests w w' → grows w0 w'.
Proof. intros H1 H2%rests_grows. by etransitivity. Qed.

Lemma rests_items f w : rests w (map_items f w). Proof. done. Qed.
Lemma draw_rests w : moves rests draw w. Proof. done. Qed.
Lemma clock_rests w : moves rests read_clock w. Proof. done. Qed.
Lemma net_rests w : moves rests next_net w. Proof. done. Qed.
Lemma link_rests w : moves rests next_link w. Proof. done. Qed.
Hint Resolve draw_rests clock_rests net_rests link_rests rests_items : moves.

Section Frames.
Context (dsn : bool) (schema_version umask allowed_uid uid : Z) (urlsplit : string → result exn url).

Lemma connected_rests w : moves rests connected w.
Proof using Type. unfold connected. moves. match goal with e : link_event |- _ => destruct e end; moves. Qed.
Hint Resolve connected_rests : moves.
Lemma open_registry_rests w : moves rests (open_registry dsn schema_version) w.
Proof using Type. unfold open_registry. moves. Qed.
Hint Resolve open_registry_rests : moves.

Lemma read_row_same source s : (get_by_source_instance source s).2 = s.
Proof using Type. unfold get_by_source_instance, gets, lift, mbind, M_bind. simpl. by destruct (get_one (sources s !! source)). Qed.

Lemma registry_find_rests source w : moves rests (registry_find dsn schema_version source) w.
Proof using Type.
  unfold registry_find. apply (moves_catch _); [|intros; moves]. moves.
  match goal with |- moves _ (through_db _) ?w => unfold moves, through_db; pose proof (read_row_same source (on_db w)) as E end.
  destruct (get_by_source_instance _ _) as [r d]. simpl in *. subst. done.
Qed.
Hint Resolve registry_find_rests : moves.
Lemma find_rests source w : moves rests (find dsn schema_version source) w.
Proof using Type. unfold find. apply (moves_catch _); [moves|intros; moves]. Qed.
Hint Resolve find_rests : moves.
Lemma reconcile_rests source w : moves rests (reconcile dsn schema_version source) w.
Proof using Type. unfold reconcile. apply (moves_catch _); [apply find_rests|intros; moves]. Qed.
Hint Resolve reconcile_rests : moves.

Lemma settle_rests source config w : moves rests (settle dsn schema_version source config) w.
Proof using Type. unfold settle. moves. Qed.

Lemma consume_registration_rests rq registration w :
  moves rests (consume_registration dsn schema_version urlsplit rq registration) w.
Proof using Type. unfold consume_registration, consume. moves; apply rests_items. Qed.

(** ** A stored secret *)

Definition create_message (operation key value : string) : pyval :=
  PDict [("action", PStr "create"); ("operation_id", PStr operation); ("key", PStr key);
         ("value", PStr (b64encode (utf8_encode value)))].

(** The file a reference names holds [value]. *)
Definition holds (w : station) (key value : string) : Prop :=
  ∃ o t f, files (on_disk w) !! key = Some f ∧ credential o t (utf8_encode value) f.

Lemma holds_grows w w' key value : grows w w' → holds w key value → holds w' key value.
Proof using Type. intros [_ F] (o & t & f & Hf & Hc). exists o, t, f. auto. Qed.

Lemma dispatch_create token operation key value s :
  dispatch_request umask allowed_uid token uid (create_message operation key value) s =
  (raise_if (negb (uid =? allowed_uid)%Z) (BrokerError "PEER_NOT_AUTHORIZED");;
   lift (check_operation (PStr operation));;
   receipt ← create umask token (PStr operation) (PStr key) (PStr (b64encode (utf8_encode value)));
   mret (PDict [("ok", PBool true); ("rollback_token", PStr receipt)])) s.
Proof using Type. reflexivity. Qed.

Lemma create_grows token operation key value s r s' :
  create umask token (PStr operation) (PStr key) value s = (r, s') → ∀ k f, files s !! k = Some f → files s' !! k = Some f.
Proof using Type.
  intros H k f Hf. apply create_cases in H as [[-> _]|(kk & o & v & _ & _ & _ & (Hn & Hj & _) & _)]; [done|].
  destruct (decide (k = kk)) as [->|Hne]; [congruence|]. by rewrite Hj.
Qed.

(** The broker's answer to a creation. *)
Lemma refused_reply e d : accept_reply (refusal_of e) = Ok d → False.
Proof using Type. unfold accept_reply, refusal_of, refusal. cbn. by destruct (_ || _). Qed.

Lemma dispatch_created token operation key value s r s' :
  dispatch_request umask allowed_uid token uid (create_message operation key value) s = (r, s') →
  (∀ k f, files s !! k = Some f → files s' !! k = Some f) ∧
  ∀ reply, r = Ok reply → ∃ t f, reply = PDict [("ok", PBool true); ("rollback_token", PStr t)] ∧
    files s' !! key = Some f ∧ credential operation t (utf8_encode value) f.
Proof using Type.
  rewrite dispatch_create. intros H.
  apply bind_cases in H as [(e & H & ->)|([] & s1 & H & H1)].
  { pose proof (moves_raise_if eq (negb (uid =? allowed_uid)%Z) (BrokerError "PEER_NOT_AUTHORIZED") s) as M0.
    rewrite (moves_end _ _ _ _ _ M0 H). split; [done|by intros]. }
  apply raise_if_Ok in H as [_ ->]. apply bind_cases in H1 as [(e & H & ->)|(o & s2 & H & H1)].
  { injection H as _ <-. split; [done|by intros]. }
  apply lift_Ok in H as [_ ->]. apply bind_cases in H1 as [(e & H & ->)|(t & s3 & H & H1)].
  { split; [by eapply create_grows|by intros]. }
  injection H1 as <- <-. split; [by eapply create_grows|]. intros reply [= <-].
  pose proof H as (_ & _ & v & Hv)%create_checks. destruct (created_credential _ _ _ _ _ _ _ _ _ H Hv) as (f & Hf & Hc).
  exists t, f. split_and!; [done..|]. unfold secret_value in Hv. rewrite b64_roundtrip in Hv.
  destruct (_ || _ || _); [done|]. by injection Hv as ->.
Qed.

(** A reply that the client accepts for a creation is evidence of the stored file. *)
Definition evidence (key value : string) (reply : pyval) (w : station) : Prop :=
  ∀ d t, accept_reply reply = Ok d → text_of d "rollback_token" = Ok t → holds w key value.

Section Stored.
Context (w0 : station) (operation key value : string).
Abbreviation from := (grows w0).
Abbreviation lost := (λ (_ : exn) w, grows w0 w).

Lemma draw_from R : hoare from draw (λ _, from) R.
Proof using Type. by intros w [E F]. Qed.

Lemma serve_stored :
  hoare from (serve umask allowed_uid uid (Ok (create_message operation key value)))
    (λ reply w, from w ∧ evidence key value reply w) lost.
Proof using Type.
  unfold serve. eapply hoare_bind; [apply draw_from|]. intros token w [Ed Fd]. unfold through_disk, serve_connection.
  destruct (negb _); [split; [done|by intros]|]. unfold catch. rewrite (bind_step _ _ _ (create_message operation key value) (on_disk w)) by done.
  destruct (dispatch_request _ _ _ _ _ _) as [r s1] eqn:D. apply dispatch_created in D as [Hg Hr].
  assert (from (set_disk s1 w)) as Hfrom by (split; [done|auto]).
  destruct r as [reply|e]; simpl; (split; [done|]).
  - destruct (Hr reply eq_refl) as (t & f & -> & Hf & Hc). intros d t' [= <-] _. by exists operation, t, f.
  - intros d t Hd. by apply refused_reply in Hd.
Qed.

Lemma serve_broken e :
  hoare from (serve umask allowed_uid uid (Err e)) (λ reply w, from w ∧ evidence key value reply w) lost.
Proof using Type.
  unfold serve. eapply hoare_bind; [apply draw_from|]. intros token w [Ed Fd]. unfold through_disk, serve_connection.
  destruct (negb _); (split; [done|]).
  - by intros.
  - intros d t Hd. by apply refused_reply in Hd.
Qed.

Lemma net_from : hoare from next_net (λ _, from) lost.
Proof using Type. apply (hoare_moves rests); [apply grows_rests|intros; moves]. Qed.

Lemma exchange_stored :
  hoare from (exchange umask allowed_uid uid (create_message operation key value))
    (λ p w, from w ∧ ∀ reply, p.1 = Some reply → evidence key value reply w) lost.
Proof using Type.
  unfold exchange. eapply hoare_bind; [apply net_from|]. intros [| |e| |]; try (apply hoare_ret; by intros).
  - eapply hoare_bind; [apply serve_broken|]. intros reply. apply hoare_ret. intros w [H E]. split; [done|by intros ? [= <-]].
  - eapply hoare_bind; [apply serve_stored|]. intros reply. apply hoare_ret. intros w [H E]. by split.
  - eapply hoare_bind; [apply serve_stored|]. intros reply. apply hoare_ret. intros w [H E]. split; [done|by intros ? [= <-]].
Qed.

Lemma request_stored :
  hoare from (broker_request umask allowed_uid uid (create_message operation key value))
    (λ d w, from w ∧ ∀ t, text_of d "rollback_token" = Ok t → holds w key value) lost.
Proof using Type.
  unfold broker_request. eapply hoare_bind; [apply exchange_stored|]. intros [[reply|] c1]; simpl.
  - apply hoare_lift; [|by intros ? ? _ []]. intros d w Hd [H E]. split; [done|]. intros t Ht. by eapply E.
  - eapply hoare_bind; [|].
    { eapply hoare_conseq; [apply exchange_stored|by intros ? []|by intros|by intros]. }
    intros [[reply|] c2]; simpl; [|apply hoare_raise; by intros ? []].
    apply hoare_lift; [|by intros ? ? _ []]. intros d w Hd [H E]. split; [done|]. intros t Ht. by eapply E.
Qed.
End Stored.

(** [BrokerSecretStore.create]: no file is lost, and a receipt names a file that
    holds the value. *)
Lemma secret_create_stored w0 key value operation_id :
  hoare (grows w0) (secret_create umask allowed_uid uid key value operation_id)
    (λ r w, grows w0 w ∧ rc_key r = key ∧ holds w key value) (λ _, grows w0).
Proof using Type.
  unfold secret_create. apply (hoare_bind _ _ _ (λ _, grows w0)).
  { destruct operation_id as [o|]; [case_bool_decide|]; [apply draw_from|apply hoare_ret; by intros|apply draw_from]. }
  intros operation. cbn beta. eapply hoare_bind; [apply request_stored|]. intros d. cbn beta.
  apply (hoare_bind _ _ _ (λ t w, grows w0 w ∧ holds w key value)).
  { apply hoare_lift; [|by intros ? ? _ []]. intros t w Ht [H E]. split; [done|by eapply E]. }
  intros t. apply (hoare_bind _ _ _ (λ _ w, grows w0 w ∧ holds w key value)); [by apply hoare_modify|].
  intros []. apply hoare_ret. by intros w [H E].
Qed.

(** ** The pieces of a registration *)

Lemma registry_find_Ok source w o w' :
  registry_find dsn schema_version source w = (Ok o, w') → o = None ↔ sources (on_db w) !! source = None.
Proof using Type.
  unfold registry_find. intros H. apply catch_Ok in H as [H|(e & w1 & _ & H)]; [|by apply raise_Ok in H].
  apply bind_Ok in H as ([] & w1 & H1 & H). apply bind_Ok in H as ([] & w2 & H2 & H).
  pose proof (moves_end rests _ _ _ _ (open_registry_rests w) H1) as [E1 _].
  pose proof (moves_end rests _ _ _ _ (connected_rests w1) H2) as [E2 _]. rewrite <- E1, <- E2. clear - H.
  apply bind_Ok in H as (rec & w3 & H & [-> _]%ret_Ok). unfold through_db, get_by_source_instance, gets, lift, mbind, M_bind in H.
  simpl in H. injection H as H _. unfold get_one in H. destruct (sources _ !! source) as [row|]; [|by injection H as <-].
  destruct (row_to_record row); simplify_eq/=. by split.
Qed.

(** The configuration found is the one of the row, and the source is not a removed
    one. *)
Lemma find_Ok source w o w' :
  find dsn schema_version source w = (Ok o, w') →
  (o = None ↔ sources (on_db w) !! source = None) ∧ removed_source source w = false.
Proof using Type.
  unfold find. intros H. apply catch_Ok in H as [H|(e & w1 & _ & H)]; [|by apply raise_Ok in H].
  apply bind_Ok in H as ([] & w1 & H1 & H). apply bind_Ok in H as ([] & w2 & H2 & H).
  pose proof (moves_end rests _ _ _ _ (open_registry_rests w) H1) as [E1 _].
  pose proof (moves_end rests _ _ _ _ (connected_rests w1) H2) as [E2 _].
  apply bind_Ok in H as (removed & w3 & [-> ->]%gets_Ok & H). apply bind_Ok in H as ([] & w4 & [Hr ->]%raise_if_Ok & H).
  apply registry_find_Ok in H. unfold removed_source in *. by rewrite <- E1, <- E2.
Qed.

Lemma settle_Ok source config w c w' :
  settle dsn schema_version source config w = (Ok c, w') → c = config ∧ is_Some (sources (on_db w) !! source).
Proof using Type.
  unfold settle, reconcile. intros H. inv_m.
  match goal with H : catch _ _ _ = (Ok _, _) |- _ => apply catch_Ok in H as [H|(e & w1 & _ & H)]; [|by apply raise_Ok in H] end.
  match goal with H : find _ _ _ _ = (Ok ?o, _) |- _ => apply find_Ok in H as [H _]; destruct o; [|done]; rename H into Hf end.
  split; [done|]. apply not_eq_None_Some. intros E. by apply Hf in E.
Qed.

Lemma settle_Err source config w e w' :
  settle dsn schema_version source config w = (Err e, w') → e = uncertain.
Proof using Type.
  unfold settle. intros H. apply bind_cases in H as [(e' & H & [= <-])|(o & w1 & _ & H)].
  - unfold reconcile, catch in H. destruct (find _ _ _ _) as [[]]; by injection H.
  - apply bind_cases in H as [(e' & H & [= <-])|(? & ? & _ & H)]; [|done]. unfold raise_if in H. destruct (negb _); by injection H.
Qed.

(** What a valid request has passed when its credentials are consumed. *)
Definition handed_over (rq : RegistrationCommand) (c : PendingCredentials) (w : station) : Prop :=
  ∃ item, on_items w !! rq_token rq = Some item ∧ ho_credentials item = c ∧ bound_to c rq = Ok true.

Lemma consume_registration_Ok rq registration w c w' :
  consume_registration dsn schema_version urlsplit rq registration w = (Ok c, w') →
  handed_over rq c w ∧ sources (on_db w) !! rq_source_instance rq = None ∧ public_view urlsplit rq = Ok tt ∧
  (is_Some registration → rq_source_type rq = "esxi") ∧ rests w w'.
Proof using Type.
  intros H. pose proof (moves_end rests _ _ _ _ (consume_registration_rests rq registration w) H) as Hg.
  unfold consume_registration, consume in H. inv_m. simpl in *.
  match goal with H : find _ _ _ _ = (Ok ?o, _) |- _ => apply find_Ok in H as [H _]; destruct o; [done|]; rename H into Hf end.
  match goal with H : public_view _ _ = Ok ?u |- _ => destruct u end.
  split_and!; try done.
  - match goal with H : on_items _ !! _ = Some ?i |- _ => exists i end. split_and!; try done.
    match goal with H : bound_to _ _ = Ok ?b |- _ => destruct b; [done|] end. done.
  - match goal with H : read_clock _ = _ |- _ => injection H as _ <- end. by apply Hf.
  - intros Hr. match goal with H : bool_decide (is_Some _) && _ = false |- _ => rewrite (bool_decide_eq_true_2 _ Hr) in H; simpl in H end.
    by inv_bool.
Qed.

(** The receipts of a complete creation name files that hold the credentials. *)
Definition stored (rq : RegistrationCommand) (c : PendingCredentials) (token_key secret_key : string) (w : station) : Prop :=
  holds w secret_key (pc_secret c) ∧
  holds w token_key (if bool_decide (rq_source_type rq = "proxmox") then pc_token_id c else pc_secret c).

Lemma stored_grows rq c tk sk w w' : grows w w' → stored rq c tk sk w → stored rq c tk sk w'.
Proof using Type. intros Hg [H1 H2]. split; by eapply holds_grows. Qed.

Lemma fresh_key_from w0 source label : hoare (grows w0) (fresh_key source label) (λ _, grows w0) (λ _ _, False).
Proof using Type. eapply hoare_bind; [apply draw_from|]. intros nonce. by apply hoare_ret. Qed.

(** The first secret, of Proxmox only, and the second. *)
Lemma first_secret_stored w0 rq c :
  hoare (grows w0)
    (if bool_decide (rq_source_type rq = "proxmox")
     then key ← fresh_key (rq_source_instance rq) "token-id";
          attempt (r ← secret_create umask allowed_uid uid key (pc_token_id c) None; mret [r])
     else mret (Ok []))
    (λ first w, grows w0 w ∧ ∀ rs, first = Ok rs →
       if bool_decide (rq_source_type rq = "proxmox") then ∃ r, rs = [r] ∧ holds w (rc_key r) (pc_token_id c) else rs = [])
    (λ _ _, False).
Proof using Type.
  case_bool_decide; [|apply hoare_ret; intros w Hw; split; [done|by intros ? [= <-]]].
  eapply hoare_bind; [apply fresh_key_from|]. intros key. cbn beta. apply hoare_attempt.
  eapply hoare_bind; [eapply hoare_conseq; [apply secret_create_stored|done|by intros ? ? H1; exact H1|by intros]|].
  intros r. apply hoare_ret. intros w (Hg & <- & Hh). split; [done|]. intros rs [= <-]. by exists r.
Qed.

Lemma second_secret_stored w0 rq c registration rs :
  hoare (grows w0)
    (key ← match registration with Some refs => mret refs.1 | None => fresh_key (rq_source_instance rq) "secret" end;
     second ← attempt (secret_create umask allowed_uid uid key (pc_secret c) (snd <$> registration));
     mret (match second with Ok r => ((rs ++ [r])%list, Ok tt) | Err e => (rs, Err e) end))
    (λ p w, grows w0 w ∧ (p.2 = Ok tt → ∃ r, p.1 = (rs ++ [r])%list ∧ holds w (rc_key r) (pc_secret c) ∧
       ∀ refs, registration = Some refs → rc_key r = refs.1)) (λ _ _, False).
Proof using Type.
  apply (hoare_bind _ _ _ (λ k w, grows w0 w ∧ ∀ refs, registration = Some refs → k = refs.1)).
  { destruct registration as [refs|]; [apply hoare_ret; intros w Hw; split; [done|intros ? E; by injection E as <-]|].
    eapply hoare_conseq; [apply fresh_key_from|done|by intros|done]. }
  intros key. cbn beta. intros w1 [Hg1 Hk]. revert w1 Hg1.
  apply (hoare_bind _ _ _ (λ second w, grows w0 w ∧ ∀ r, second = Ok r → rc_key r = key ∧ holds w key (pc_secret c))).
  { apply hoare_attempt. eapply hoare_conseq; [apply secret_create_stored|done| |by intros].
    intros r w (Hg & Hr & Hh). split; [done|]. by intros ? [= <-]. }
  intros [r|e]; apply hoare_ret; intros w [Hg Hr]; (split; [done|]); [|by intros].
  intros _. destruct (Hr r eq_refl) as [Hkey Hh]. exists r. rewrite Hkey. by split_and!.
Qed.

Lemma create_secrets_stored w0 rq c registration :
  hoare (grows w0) (create_secrets umask allowed_uid uid rq c registration)
    (λ p w, grows w0 w ∧ (p.2 = Ok tt →
       stored rq c (default "" (rc_key <$> head p.1)) (default "" (rc_key <$> last p.1)) w ∧
       ∀ refs, registration = Some refs → rc_key <$> last p.1 = Some refs.1)) (λ _ _, False).
Proof using Type.
  unfold create_secrets. eapply hoare_bind; [apply first_secret_stored|].
  intros [rs|e]; cbn beta; [|apply hoare_ret; intros w [Hg _]; by split].
  intros w [Hg Hrs]. specialize (Hrs rs eq_refl).
  refine (hoare_conseq (λ w1, w1 = w) _ _ _ _ _ _ (second_secret_stored w rq c registration rs) _ _ _ w eq_refl);
    [by intros ? ->| |done].
  intros p w' [Hg' Hp]. split; [by etransitivity|]. intros Ep. destruct (Hp Ep) as (r & -> & Hh & Hk).
  rewrite last_snoc. simpl. split; [|intros refs Hr; by rewrite (Hk refs Hr)]. split; [done|].
  case_bool_decide; [|by subst]. destruct Hrs as (r1 & -> & Hh1). simpl. by eapply holds_grows.
Qed.

(** ** The registry row *)

(** The row of [config] has been inserted, and nothing else happened. *)
Definition inserted (config : SourceConfig) (d d' : db) : Prop :=
  let row := create_row config (clock d (ticks d)) in
  d' = on_sources (<[cfg_source_instance config := row]>) (on_ticks S d) ∧ sources d !! cfg_source_instance config = None.

Lemma try_insert config d r d' :
  atomic (insert_source config) d = (r, d') →
  (∃ e, r = Err e ∧ d' = d) ∨ r = Ok (create_row config (clock d (ticks d))) ∧ inserted config d d'.
Proof using Type.
  destruct r as [row|e]; intros H.
  - apply atomic_Ok in H as (-> & -> & _ & Hn & _)%insert_source_Ok. by right.
  - apply atomic_Err in H as ->. left. eauto.
Qed.

(** An outcome of [create]: the row is there unless the failure is definite, and it
    is known to be there only when it was read back. *)
Definition written (config : SourceConfig) (w : station) (out : write_outcome) (w' : station) : Prop :=
  on_disk w' = on_disk w ∧
  ((on_db w' = on_db w ∧ ∃ definite duplicate, out = WriteFailed definite duplicate) ∨
   (inserted config (on_db w) (on_db w') ∧ (out = Written config ∨ ∃ duplicate, out = WriteFailed false duplicate))).

Lemma attempted_insert config w r w' :
  attempt (through_db (atomic (insert_source config))) w = (Ok r, w') →
  on_disk w' = on_disk w ∧
  ((∃ e, r = Err e ∧ on_db w' = on_db w) ∨
   r = Ok (create_row config (clock (on_db w) (ticks (on_db w)))) ∧ inserted config (on_db w) (on_db w')).
Proof using Type.
  unfold attempt, through_db. destruct (atomic (insert_source config) (on_db w)) as [r1 d] eqn:E.
  intros [= <- <-]. simpl. split; [done|]. by apply try_insert in E.
Qed.

Lemma insert_row_written config w r w' :
  insert_row config w = (Ok r, w') →
  on_disk w' = on_disk w ∧
  ((∃ e, r = Err e ∧ on_db w' = on_db w) ∨
   inserted config (on_db w) (on_db w') ∧ (r = Ok (create_row config (clock (on_db w) (ticks (on_db w)))) ∨ r = Err connection_failed)).
Proof using Type.
  unfold insert_row. intros H. apply bind_Ok in H as (event & w1 & [= <- <-] & H). destruct (default Up _); simpl in H.
  - apply attempted_insert in H as (-> & [H|[-> H]]); (split; [done|]); [by left|]. right. split; [done|by left].
  - injection H as <- <-. split; [done|]. left. by exists connection_failed.
  - apply bind_Ok in H as (r1 & w2 & H & [= <- <-]).
    apply attempted_insert in H as (-> & [(e & -> & H)|[-> H]]); (split; [done|]); [left; eauto|]. right. split; [done|by right].
Qed.

Lemma create_registered_written config w out w' :
  built config → create_registered dsn schema_version config w = (Ok out, w') → written config w out w'.
Proof using Type.
  intros Hb H. unfold create_registered in H. apply bind_Ok in H as (opened & w1 & Ho%attempt_Ok & H).
  assert (rests w w1) as [Edb Edisk].
  { eapply (moves_end rests); [|exact Ho]. moves. }
  unfold written. rewrite <- Edb, <- Edisk. destruct opened as [[]|e].
  - assert (validate_config config = Ok tt) as Hv.
    { apply bind_Ok in Ho as (u & w2 & _ & Hl). by apply lift_Ok in Hl as [Hv _]. }
    apply bind_Ok in H as (r & w2 & H & [= <- <-]). apply insert_row_written in H as (-> & [(e & -> & H)|[Hi [-> | ->]]]);
      (split; [done|]).
    + left. split; [done|]. simpl. unfold insert_failure. destruct e; eauto. case_bool_decide; eauto.
    + right. split; [done|]. left. simpl. by rewrite row_of_built.
    + right. split; [done|]. right. by exists false.
  - injection H as <- <-. split; [done|]. left. split; [done|]. by exists true, false.
Qed.

Lemma staged_config_built rq username token_key secret_key z config :
  rq_interval rq = PInt z → staged_config rq username token_key secret_key = Ok config →
  built config ∧ cfg_source_instance config = rq_source_instance rq ∧
  cfg_credentials config = mkCredentials username (mkSecretReference "file" token_key) (mkSecretReference "file" secret_key).
Proof using Type.
  unfold staged_config. intros Hz H. rewrite Hz in H. inv_m.
  repeat match goal with
  | H : new_secret_reference _ _ = Ok _ |- _ => pose proof H as [-> _]%new_reference_Ok; revert H
  | H : new_credentials _ _ _ = Ok _ |- _ => pose proof H as [-> _]%new_credentials_Ok; revert H
  | H : new_target _ = Ok _ |- _ => pose proof H as [-> _]%new_target_Ok; revert H
  end.
  intros. match goal with H : new_source_config _ _ _ _ _ _ _ _ _ _ _ _ _ _ _ = Ok _ |- _ => rename H into Hn end.
  pose proof Hn as (m & -> & _)%new_source_config_fields. split; [|done]. eapply built_by; cycle 5; [exact Hn|eassumption|done|..]; cycle 2; eassumption.
Qed.

(** ** Rolling back *)

Definition db_kept (w w' : station) : Prop := on_db w' = on_db w.
#[export] Instance db_kept_preorder : PreOrder db_kept.
Proof using Type. split; [done|]. intros x y z H1 H2. unfold db_kept in *. congruence. Qed.

Lemma exchange_db payload w : moves db_kept (exchange umask allowed_uid uid payload) w.
Proof using Type.
  assert (∀ r w, moves db_kept (serve umask allowed_uid uid r) w) as Hs.
  { intros r w1. unfold serve. apply (moves_bind db_kept); [done|]. intros t w2 _. unfold moves, through_disk.
    by destruct (serve_connection _ _ _ _ _ _). }
  unfold exchange. apply (moves_bind db_kept); [done|]. intros [| |e| |] w1 _; moves; apply Hs.
Qed.

Lemma request_db payload w : moves db_kept (broker_request umask allowed_uid uid payload) w.
Proof using Type.
  unfold broker_request. apply (moves_bind db_kept); [apply exchange_db|]. intros [[reply|] b] w1 _; simpl; [moves|].
  apply (moves_bind db_kept); [apply exchange_db|]. intros [[reply|] b2] w2 _; simpl; moves.
Qed.
Hint Resolve request_db : moves.

Lemma roll_back_db receipts w : moves db_kept (roll_back umask allowed_uid uid receipts) w.
Proof using Type.
  revert w. induction receipts as [|r rest IH]; intros w; simpl; [moves|].
  apply (moves_bind db_kept); [apply attempt_moves; unfold secret_rollback; moves; done|]. intros u w1 _.
  apply (moves_bind db_kept); [apply IH|]. intros. moves.
Qed.

(** [roll_back] answers, whatever the broker does. *)
Lemma roll_back_returns receipts w : ∃ b w', roll_back umask allowed_uid uid receipts w = (Ok b, w').
Proof using Type.
  revert w. induction receipts as [|r rest IH]; intros w; simpl; [eauto|]. unfold attempt, mbind, M_bind.
  destruct (secret_rollback _ _ _ _ _) as [u w1]. destruct (IH w1) as (b & w2 & ->). eauto.
Qed.

Lemma create_registered_returns config w e w' : create_registered dsn schema_version config w = (Err e, w') → False.
Proof using Type.
  unfold create_registered. intros H. apply bind_cases in H as [(e' & H & _)|(opened & w1 & _ & H)]; [by apply attempt_returns in H|].
  destruct opened; [|done]. apply bind_cases in H as [(e' & H & _)|(? & ? & _ & H)]; [|done].
  unfold insert_row in H. apply bind_cases in H as [(? & H & _)|(event & w2 & _ & H)]; [done|].
  destruct event; [by apply attempt_returns in H|done|].
  apply bind_cases in H as [(? & H & _)|(? & ? & _ & H)]; [by apply attempt_returns in H|done].
Qed.

Lemma settle_written source config w r w1 w' (d : db) :
  settle dsn schema_version source config w1 = (r, w') →
  cfg_source_instance config = source → sources d !! source = None → on_db w = d → on_disk w1 = on_disk w →
  on_db w1 = d ∨ inserted config d (on_db w1) →
  on_disk w' = on_disk w ∧
  ((on_db w' = d ∧ r = Err uncertain) ∨ (inserted config d (on_db w') ∧ (r = Ok config ∨ r = Err uncertain))).
Proof using Type.
  intros H Hc Hn Hw Hd Hcase. pose proof (moves_end rests _ _ _ _ (settle_rests source config w1) H) as [Edb Edisk].
  rewrite Edb, Edisk. split; [done|]. destruct r as [c|e].
  - apply settle_Ok in H as [-> Hs]. destruct Hcase as [E|Hi]; [|right; auto]. rewrite E, Hn in Hs. by destruct Hs.
  - apply settle_Err in H as ->. destruct Hcase; auto.
Qed.

Lemma persist_cases source config receipts registration w r w' :
  built config → cfg_source_instance config = source → sources (on_db w) !! source = None →
  persist_registration dsn schema_version umask allowed_uid uid source config receipts registration w = (r, w') →
  (is_Some registration → on_disk w' = on_disk w) ∧
  ((on_db w' = on_db w ∧ ∃ e, r = Err e) ∨
   (inserted config (on_db w) (on_db w') ∧ on_disk w' = on_disk w ∧ (r = Ok config ∨ r = Err uncertain))).
Proof using Type.
  intros Hb Hc Hn H. unfold persist_registration in H.
  apply bind_cases in H as [(e & H & _)|(out & w1 & H & H1)].
  { by apply create_registered_returns in H. }
  apply create_registered_written in H as [Hd Hw]; [|done].
  assert (on_db w1 = on_db w ∨ inserted config (on_db w) (on_db w1)) as Hcase by (destruct Hw as [[]|[]]; auto).
  pose proof (λ H, settle_written source config w r w1 w' (on_db w) H Hc Hn eq_refl Hd Hcase) as Hsettle.
  destruct out as [c|definite duplicate].
  { destruct registration; injection H1 as <- <-; (split; [done|]); right;
      destruct Hw as [(_ & ? & ? & [=])|[Hi [[= ->]|(? & [=])]]]; auto. }
  destruct registration as [refs|], definite.
  1,2,4: destruct (Hsettle H1) as [Ed [[Edb ->]|[Hi Hr]]]; (split; [done|]); [left; eauto|right; auto].
  split; [by intros []|]. left. destruct Hw as [[Hdb _]|[_ [[=]|(? & [=])]]].
  apply bind_cases in H1 as [(e & H & ->)|(b & w2 & H & H1)].
  - split; [|eauto]. rewrite <- Hdb. by apply (moves_end db_kept _ _ _ _ (roll_back_db _ w1) H).
  - injection H1 as <- <-. split; [|eauto]. rewrite <- Hdb. by apply (moves_end db_kept _ _ _ _ (roll_back_db _ w1) H).
Qed.

Lemma viewed_interval rq : public_view urlsplit rq = Ok tt → ∃ z, rq_interval rq = PInt z.
Proof using Type.
  unfold public_view. intros Hv. destruct (negb _); [done|]. destruct (origin_only _ _) as [[]|], (rq_interval rq); eauto; done.
Qed.

Lemma register_body_cases rq registration w out w' :
  register_body dsn schema_version umask allowed_uid uid urlsplit rq registration w = (out, w') →
  ∃ receipts r, out = Ok (receipts, r) ∧
  (is_Some registration → ∀ k f, files (on_disk w) !! k = Some f → files (on_disk w') !! k = Some f) ∧
  ((on_db w' = on_db w ∧ ∃ e, r = Err e) ∨
   ∃ c token_key secret_key config,
     handed_over rq c w ∧ staged_config rq (pc_username c) token_key secret_key = Ok config ∧
     inserted config (on_db w) (on_db w') ∧ stored rq c token_key secret_key w' ∧
     (∀ refs, registration = Some refs → secret_key = refs.1) ∧ (r = Ok config ∨ r = Err uncertain)).
Proof using Type.
  unfold register_body. intros H. apply bind_cases in H as [(e & H & _)|(taken & w1 & Ht%attempt_Ok & H)]; [by apply attempt_returns in H|].
  destruct taken as [c|e].
  2:{ injection H as <- <-. eexists _, _. split; [done|].
      apply (moves_end rests _ _ _ _ (consume_registration_rests rq registration w)) in Ht as Hr.
      apply rests_grows in Hr as [Edb Hf]. eauto 6. }
  apply consume_registration_Ok in Ht as (Hh & Hn & Hv & He & [Edb1 Hf1]%rests_grows).
  pose proof (create_secrets_stored w1 rq c registration w1 ltac:(done)) as Hmade.
  apply bind_cases in H as [(e & H & _)|([receipts made] & w2 & H & H2)]; rewrite H in Hmade; [done|].
  destruct Hmade as [[Edb2 Hf2] Hmade]. simpl in Hmade. destruct made as [[]|e].
  - destruct (Hmade eq_refl) as [Hs Hk]. clear Hmade. set (tk := default "" _) in *. set (sk := default "" (rc_key <$> last receipts)) in *.
    apply bind_cases in H2 as [(e & H2 & _)|(r & w3 & H2%attempt_Ok & [= <- <-])]; [by apply attempt_returns in H2|].
    exists receipts, r. split; [done|]. apply bind_cases in H2 as [(e & [= Hst <-] & ->)|(config & w4 & [Hst ->]%lift_Ok & H2)].
    { split; [auto|]. left. split; [congruence|eauto]. }
    destruct (viewed_interval _ Hv) as [z Hz].
    destruct (staged_config_built _ _ _ _ _ _ Hz Hst) as (Hb & Hi & _).
    apply persist_cases in H2 as [Hdisk H2]; [|done|done|by rewrite Edb2, Edb1].
    split; [intros Hr k f Hf; rewrite (Hdisk Hr); auto|]. rewrite Edb2, Edb1 in H2. destruct H2 as [H2|(Hins & Ed & Hr)]; [by left|].
    right. exists c, tk, sk, config. split_and!; try done.
    + unfold stored, holds. by rewrite Ed.
    + intros refs Hrefs. unfold sk. by rewrite (Hk refs Hrefs).
  - apply bind_cases in H2 as [(e' & H2 & _)|(e' & w3 & H2 & [= <- <-])].
    + unfold secrets_failed in H2. destruct registration; [done|]. destruct (roll_back_returns (reverse receipts) w2) as (b & w3 & E).
      unfold mbind, M_bind in H2. by rewrite E in H2.
    + exists receipts, (Err e'). split; [done|]. unfold secrets_failed in H2. destruct registration as [refs|].
      * injection H2 as <- <-. split; [auto|]. left. split; [congruence|eauto].
      * split; [by intros []|]. left. split; [|eauto].
        apply bind_Ok in H2 as (b & w4 & H2 & [= _ <-]).
        pose proof (moves_end db_kept _ _ _ _ (roll_back_db _ w2) H2) as E. unfold db_kept in E. congruence.
Qed.
End Frames.

(** ** A registration that lost its commit's answer *)

Definition sample_urlsplit (address : string) : result exn url :=
  Ok (mkUrl "https" (Some "10.0.0.2") None None (Ok None) "" "" "").
Definition sample_credentials : PendingCredentials := mkPending "esxi" "https://10.0.0.2" true "root" "" "secret" PNone.
Definition sample_request : RegistrationCommand :=
  mkCommand "handoff-token" "esxi" "esx-b" "esx-b" "https://10.0.0.2" true (PInt 3600) "site" "cluster" "linux" "server" "generic" "vmware"
    (PBool true) [] PNone.
Definition sample_references : references := ("src-esx-b-secret-0123456789abcdef", "operation-0123456789abcdef").
Definition tested : station :=
  mkStation empty_db (mkBroker ∅ [] []) {["handoff-token" := mkHandoff 700 sample_credentials PNone]} ∅
    ["receipt"] [100%Z] [ReplyLost; Answered] [Up; Up; Up; Up; Up; CommitLost].
Definition run_sample : result exn SourceConfig * station :=
  register true 1 18 1000 1000 sample_urlsplit sample_request (Some sample_references) tested.

Section Claim.
Context (dsn : bool) (schema_version umask allowed_uid uid : Z) (urlsplit : string → result exn url).

(** C14: a registration never leaves a registry row without its credentials. Whatever
    answers of the broker and of the database are lost, and whatever the file
    system does, [register] either raises with the database as it was, or it has
    inserted exactly one row, for a new source instance: the configuration staged
    from the request and from the handed-over credentials that were bound to it.
    Then each file the row refers to exists, complete and owned by the broker, and
    holds the secret (for the token reference of Proxmox the token identifier) that
    was handed over, so no rollback took place; and the caller is given that
    configuration or told that the outcome is uncertain. A registration that is
    reported as done has its row. With the deterministic references of an ESXi
    registration no file at all is removed or changed. *)
Theorem registration_keeps_credentials rq registration w r w' :
  register dsn schema_version umask allowed_uid uid urlsplit rq registration w = (r, w') →
  (is_Some registration → ∀ k f, files (on_disk w) !! k = Some f → files (on_disk w') !! k = Some f) ∧
  ((on_db w' = on_db w ∧ ∃ e, r = Err e) ∨
   ∃ c token_key secret_key config,
     handed_over rq c w ∧ staged_config rq (pc_username c) token_key secret_key = Ok config ∧
     inserted config (on_db w) (on_db w') ∧ stored rq c token_key secret_key w' ∧
     (∀ refs, registration = Some refs → secret_key = refs.1) ∧ (r = Ok config ∨ r = Err uncertain)).
Proof using Type.
  unfold register. intros H. apply bind_cases in H as [(e & H & _)|(result & w1 & H & H1)].
  { by apply register_body_cases in H as (? & ? & [=] & _). }
  apply register_body_cases in H as (receipts & r1 & [= ->] & H). injection H1 as <- <-. exact H.
Qed.
End Claim.

Lemma sample_run : run_sample = (run_sample.1, run_sample.2).
Proof. apply surjective_pairing. Qed.
Lemma sample_reported : match run_sample.1 with Ok _ => True | Err _ => False end.
Proof. vm_compute. exact I. Qed.

Lemma registration_keeps_credentials_witness :
  ∃ c token_key secret_key, handed_over sample_request c tested ∧ secret_key = "src-esx-b-secret-0123456789abcdef" ∧
    stored sample_request c token_key secret_key run_sample.2.
Proof.
  destruct (registration_keeps_credentials true 1 18 1000 1000 sample_urlsplit sample_request (Some sample_references) tested
              run_sample.1 run_sample.2 sample_run) as [_ [[_ [e He]]|H]].
  - pose proof sample_reported as Hr. rewrite He in Hr. destruct Hr.
  - destruct H as (c & tk & sk & config & H1 & H2 & H3 & H4 & H5 & H6). exists c, tk, sk. split; [exact H1|].
    split; [exact (H5 _ eq_refl)|exact H4].
Defined.
