(* ===== verification/RegistrationJobs.v ===== *)
(** * Registration jobs (netbox_sync/registration_jobs.py, the request of
    netbox_sync/api/onboarding_dto.py and the broker client of
    netbox_sync/lifecycle_worker.py)

    An approved registration is a durable job: its request, the preview and the
    deterministic references of its credential files, never the credentials. A
    background pass continues one job at a time; it completes the registration only
    when the broker attests both files. The completion itself and the attestation
    are callbacks, as in the code. *)

From S2P Require Import Prelude Hoare PyValue SourceConfig Schema PyUuid PyBytes EsxiIdentity RunHistory SourceOperations Registry.
From S2P Require Import SourceLifecycle Retirement HostRegistration SecretBroker Onboarding FairCursor.
From stdpp Require Import base list strings gmap relations.
From Stdlib Require Import ZArith Lia Ascii.
Local Open Scope string_scope.
#[local] Arguments py_eqb _ _ : simpl never.

Definition TOKEN : string := "durable-registration-reference-only".

(** ** The request *)

Record RegistrationRequest := mkRequest {
  rr_token : string; rr_source_type : string; rr_source_instance : string; rr_name : string; rr_address : string;
  rr_verify_ssl : bool; rr_port : option Z; rr_interval : Z; rr_site_slug : string; rr_cluster_name : string;
  rr_platform_slug : string; rr_device_role_slug : string; rr_device_type_slug : string; rr_cluster_type_slug : string;
  rr_references : pydict; rr_host_types : pydict; rr_create_cluster : bool; rr_automatic_placement : bool;
  rr_registration_id : option N }.

Definition port_value (port : option Z) : pyval := match port with Some z => PInt z | None => PNone end.

(** [model_dump(mode="json")]: the onboarding token is excluded. *)
Definition model_dump (r : RegistrationRequest) : pydict :=
  [("source_type", PStr (rr_source_type r)); ("source_instance", PStr (rr_source_instance r)); ("name", PStr (rr_name r));
   ("address", PStr (rr_address r)); ("verify_ssl", PBool (rr_verify_ssl r)); ("port", port_value (rr_port r));
   ("sync_interval_seconds", PInt (rr_interval r)); ("site_slug", PStr (rr_site_slug r));
   ("cluster_name", PStr (rr_cluster_name r)); ("platform_slug", PStr (rr_platform_slug r));
   ("device_role_slug", PStr (rr_device_role_slug r)); ("device_type_slug", PStr (rr_device_type_slug r));
   ("cluster_type_slug", PStr (rr_cluster_type_slug r)); ("references", PDict (rr_references r));
   ("host_types", PDict (rr_host_types r)); ("create_cluster", PBool (rr_create_cluster r));
   ("automatic_placement", PBool (rr_automatic_placement r));
   ("registration_id", match rr_registration_id r with Some id => PStr (uuid_str id) | None => PNone end);
   ("confirm_sync_disabled", PBool true)].

Definition command (r : RegistrationRequest) (mapping : pydict) : RegistrationCommand :=
  mkCommand (rr_token r) (rr_source_type r) (rr_source_instance r) (rr_name r) (rr_address r) (rr_verify_ssl r) (PInt (rr_interval r))
    (rr_site_slug r) (rr_cluster_name r) (rr_platform_slug r) (rr_device_role_slug r) (rr_device_type_slug r) (rr_cluster_type_slug r)
    (PBool true) mapping (port_value (rr_port r)).

(** [address.lower().rstrip(".")]. *)
Definition endpoint (address : string) : string := rstrip_chars (λ c, bool_decide (c = "."%char)) (lower address).

Definition only_ids (d : pydict) : result exn pydict :=
  mapR (λ kv, id ← attr_get "id" kv.2; Ok (kv.1, PDict [("id", id)])) d.

Definition durable_request (r : RegistrationRequest) : result exn pydict :=
  port ← source_port (rr_source_type r) (port_value (rr_port r));
  references ← only_ids (rr_references r);
  host_types ← only_ids (rr_host_types r);
  Ok (dset "host_types" (PDict host_types) (dset "references" (PDict references)
        (dset "port" (PInt port) (dset "address" (PStr (endpoint (rr_address r))) (model_dump r))))).

Section Request.
Context (sha256 : string → string) (urlsplit : string → result exn url).

Definition intent_fingerprint (r : RegistrationRequest) : result exn string :=
  d ← durable_request r; Ok (sha256 (json_dumps (PDict d))).

(** [public_fields]. *)
Definition public_fields (r : RegistrationRequest) : result exn unit :=
  let invalid := ValueError "Invalid registration" in
  if rr_create_cluster r &&
     (bool_decide (rr_registration_id r = None) || negb (bool_decide (rr_cluster_name r = rr_name r)) ||
      Nat.ltb 100 (String.length (rr_name r)) || bool_decide ("cluster" ∈ dkeys (rr_references r))) then Err invalid
  else match public_view urlsplit (command r []) with Ok _ => Ok tt | Err _ => Err invalid end.

(** [model_validate]: the fields as Pydantic parses them, then the validator. *)
Definition model_validate (parse : pydict → result exn RegistrationRequest) (d : pydict) : result exn RegistrationRequest :=
  r ← parse d; public_fields r;; Ok r.
End Request.

(** ** Jobs *)

Definition job : Type := string * job_row.

(** A connection that writes: its commit may be lost. *)
Definition commit {A} (m : DB A) : OB A :=
  event ← next_link;
  match event with
  | Up => through_db m
  | Down => raise connection_failed
  | CommitLost => through_db m;; raise connection_failed
  end.

Section Jobs.
Context (schema : string).
(** [uuid5(UUID("59ecc401-..."), name).hex]. *)
Context (uuid5_hex : string → string).

Definition references (actor source : string) (operation : N) (provider : string) : pydict :=
  let op := uuid5_hex (actor +:+ ":" +:+ source +:+ ":" +:+ uuid_str operation) in
  let key := "src-registration-" +:+ op in
  [("operation", PStr op); ("secret", PStr key);
   ("token", PStr (if bool_decide (provider = "proxmox") then key +:+ "-token" else key))].

Definition job_key (source : string) : string := "netbox-sync:" +:+ schema +:+ ":registration-job:" +:+ source.
Definition map_locks (f : gset string → gset string) (w : station) : station := set_db (on_session_locks f (on_db w)) w.

(** [guard]: a session lock, for one continuation. *)
Definition job_guard {A} (source : string) (body : OB A) : OB A :=
  connected;;
  held ← gets (λ w, bool_decide (job_key source ∈ session_locks (on_db w)));
  raise_if held uncertain;;
  modify (map_locks (λ l, {[job_key source]} ∪ l));;
  finally body (map_locks (λ l, l ∖ {[job_key source]})).

Definition intent_changed : exn := host_conflict "HOST_REGISTRATION_INTENT_CHANGED".

Definition get_job (source : string) (operation actor : option string) : OB (option job_row) :=
  connected;;
  row ← gets (λ w, registration_jobs (on_db w) !! source);
  raise_if match row with
           | Some j => match operation with Some o => negb (bool_decide (uuid_str (job_operation j) = o)) | None => false end ||
                       match actor with Some a => negb (bool_decide (job_actor j = a)) | None => false end
           | None => false
           end intent_changed;;
  mret row.

(** [INSERT ... ON CONFLICT DO NOTHING]. *)
Definition insert_job (source : string) (operation : N) (actor : string) (payload : pydict) : DB unit :=
  now ← clock_timestamp;
  s ← gets id;
  if bool_decide (is_Some (registration_jobs s !! source)) ||
     exists_row (λ _ j, bool_decide (job_operation j = operation)) (registration_jobs s) then mret tt
  else modify (on_registration_jobs (<[source := mkJob operation actor payload JOB_STAGING None now]>)).

Definition job_payload_of (r : RegistrationRequest) (id : N) (actor : string) (preview : pydict) (username : string) : pydict :=
  [("request", PDict (model_dump r)); ("preview", PDict (dpop "registration_resume" preview)); ("username", PStr username);
   ("references", PDict (references actor (rr_source_instance r) id (rr_source_type r)))].

Definition begin (r : RegistrationRequest) (actor : string) (preview : pyval) (username : string) : OB job :=
  id ← require (rr_registration_id r) (host_conflict "HOST_REGISTRATION_INVALID");
  raise_if (negb (truthy preview) || bool_decide (actor = "")) (host_conflict "HOST_REGISTRATION_INVALID");;
  p ← lift (match preview with PDict p => Ok p | _ => Err attribute_error end);
  let payload := job_payload_of r id actor p username in
  commit (insert_job (rr_source_instance r) id actor payload);;
  row ← get_job (rr_source_instance r) (Some (uuid_str id)) (Some actor);
  j ← require row (TypeError "'NoneType' object is not subscriptable");
  raise_if (negb (py_eqb (PDict (job_payload j)) (PDict payload))) intent_changed;;
  mret (rr_source_instance r, j).

Definition with_job_state (state : JobState) (code : option string) (now : Z) (j : job_row) : job_row :=
  mkJob (job_operation j) (job_actor j) (job_payload j) state code now.

Definition mark_row (source : string) (state : JobState) (code : option string) : DB unit :=
  now ← clock_timestamp; modify (on_registration_jobs (alter (with_job_state state code now) source)).
Definition mark (source : string) (state : JobState) (code : option string) : OB unit := commit (mark_row source state code).

(** ** The queue *)

Definition waiting (j : job_row) : bool := bool_decide (job_state j ∈ [JOB_STAGING; JOB_READY]).
Definition pending_jobs (s : db) : list (string * N) := (prod_map id job_operation) <$> select (λ _ j, waiting j) (registration_jobs s).
Definition pending (after : N) : OB (option (string * N)) :=
  connected;; gets (λ w, next_turn snd after (pending_jobs (on_db w))).

(** ** Staging *)

Definition resume_staging (source operation actor : string) (c : PendingCredentials) (preview : pyval) : OB pyval :=
  row ← get_job source (Some operation) (Some actor);
  j ← require row (host_conflict "HOST_REGISTRATION_INVALID");
  raise_if (negb (bool_decide (job_state j = JOB_STAGING))) (host_conflict "HOST_REGISTRATION_INVALID");;
  request ← lift (py_item "request" (PDict (job_payload j)));
  source_type ← lift (py_item "source_type" request);
  raise_if (negb (py_eqb (PStr (pc_source_type c)) source_type)) intent_changed;;
  address ← lift (py_item "address" request);
  address ← lift (match address with PStr a => Ok a | _ => Err attribute_error end);
  raise_if (negb (bool_decide (endpoint (pc_address c) = endpoint address))) intent_changed;;
  mine ← lift (source_port (pc_source_type c) (pc_port c));
  port ← lift (attr_get "port" request);
  theirs ← lift (source_port (py_str source_type) port);
  raise_if (negb (mine =? theirs)%Z) intent_changed;;
  verify_ssl ← lift (py_item "verify_ssl" request);
  raise_if (negb (py_eqb (PBool (pc_verify_ssl c)) verify_ssl)) intent_changed;;
  username ← lift (py_item "username" (PDict (job_payload j)));
  raise_if (negb (py_eqb (PStr (pc_username c)) username)) intent_changed;;
  saved ← lift (py_item "preview" (PDict (job_payload j)));
  raise_if (negb (py_eqb preview saved)) intent_changed;;
  p ← lift (match preview with PDict p => Ok p | _ => Err (TypeError "object is not a mapping") end);
  mret (PDict (dset "registration_resume"
    (PDict [("source_instance", PStr source); ("registration_id", PStr operation); ("actor_id", PStr actor)]) p)).

Definition newest_job (a b : job) : bool := (job_updated_at b.2 <=? job_updated_at a.2)%Z.
Definition public_attempt (isoformat : Z → string) (j : job) : result exn pyval :=
  request ← py_item "request" (PDict (job_payload j.2));
  Ok (PDict [("source_instance", PStr j.1); ("registration_id", PStr (uuid_str (job_operation j.2))); ("request", request);
             ("created_at", PStr (isoformat (job_updated_at j.2)));
             ("server_continuing", PBool (bool_decide (job_state j.2 = JOB_READY)));
             ("safe_code", match job_safe_code j.2 with Some c => PStr c | None => PNone end)]).
Definition public_attempts (isoformat : Z → string) (actor : string) : OB (list pyval) :=
  connected;;
  s ← gets on_db;
  lift (mapR (public_attempt isoformat) (take 100 (isort newest_job
    (select (λ _ j, bool_decide (job_actor j = actor) && negb (bool_decide (job_state j = JOB_COMPLETED))) (registration_jobs s))))).

Definition payload_text (payload : pydict) (group key : string) : result exn string :=
  refs ← py_item group (PDict payload); v ← py_item key refs;
  match v with PStr t => Ok t | _ => Err (TypeError "unexpected value") end.

Section Staging.
Context (umask allowed_uid uid : Z).

(** [stage]: the receipts are forgotten in the end. *)
Definition stage_secrets (j : job) (c : PendingCredentials) : OB (list SecretReceipt * result exn unit) :=
  first ← (if bool_decide (pc_source_type c = "proxmox")
           then attempt (key ← lift (payload_text (job_payload j.2) "references" "token");
                         operation ← lift (payload_text (job_payload j.2) "references" "operation");
                         r ← secret_create umask allowed_uid uid key (pc_token_id c) (Some operation); mret [r])
           else mret (Ok []));
  match first with
  | Err e => mret ([], Err e)
  | Ok receipts =>
      second ← attempt (key ← lift (payload_text (job_payload j.2) "references" "secret");
                        operation ← lift (payload_text (job_payload j.2) "references" "operation");
                        secret_create umask allowed_uid uid key (pc_secret c) (Some operation));
      match second with
      | Err e => mret (receipts, Err e)
      | Ok r => marked ← attempt (mark j.1 JOB_READY None); mret ((receipts ++ [r])%list, marked)
      end
  end.
Definition stage (j : job) (c : PendingCredentials) : OB unit :=
  refs ← lift (py_item "references" (PDict (job_payload j.2)));
  done ← stage_secrets j c;
  modify (forget done.1);;
  lift done.2.

(** ** The attestation *)

(** [local_control.request] to the broker, as root. *)
Definition control_request (payload : pyval) : OB pydict :=
  answer ← exchange umask allowed_uid 0 payload;
  match answer.1 with
  | Some (PDict d) =>
      if is_True (dget "ok" d) then mret d
      else raise (ControlError (match dlookup "error" d with Some (PStr e) => e | _ => "CONTROL_UNAVAILABLE" end))
  | _ => raise (ControlError "CONTROL_UNAVAILABLE")
  end.

Definition client_verify_owned (key operation : string) : OB bool :=
  result ← control_request (PDict [("action", PStr "verify_owned"); ("key", PStr key); ("operation_id", PStr operation)]);
  match dget "verified" result with PBool b => mret b | _ => raise (ControlError "CONTROL_UNAVAILABLE") end.

Definition client_remove_owned (keys : list string) : OB bool :=
  result ← control_request (PDict [("action", PStr "remove_owned"); ("keys", PList (PStr <$> keys))]);
  match dget "removed" result with PBool b => mret b | _ => raise (ControlError "CONTROL_UNAVAILABLE") end.

(** [all(...)] stops at the first file that is not owned. *)
Fixpoint all_owned (keys : list string) (operation : string) : OB bool :=
  match keys with
  | [] => mret true
  | k :: rest => owned ← client_verify_owned k operation; if (owned : bool) then all_owned rest operation else mret false
  end.

Definition verify_staged (source operation actor : string) : OB bool :=
  connected;;
  row ← gets (λ w, registration_jobs (on_db w) !! source);
  j ← require row (LifecycleError "REQUEST_INVALID");
  raise_if (negb (bool_decide (uuid_str (job_operation j) = operation)) || negb (bool_decide (job_actor j = actor)))
    (LifecycleError "REQUEST_INVALID");;
  provider ← lift (payload_text (job_payload j) "request" "source_type");
  let expected := references actor source (job_operation j) provider in
  refs ← lift (py_item "references" (PDict (job_payload j)));
  raise_if (negb (py_eqb refs (PDict expected))) (LifecycleError "REQUEST_INVALID");;
  secret ← lift (text_of expected "secret");
  token ← lift (text_of expected "token");
  op ← lift (text_of expected "operation");
  all_owned (if bool_decide (secret = token) then [secret] else isort String.leb [secret; token]) op.
End Staging.

(** ** The continuation *)

Section Continuation.
Context {D : Type}.
Context (dsn : bool) (schema_version : Z) (sha256 : string → string) (urlsplit : string → result exn url).
Context (parse : pydict → result exn RegistrationRequest).
(** The callbacks of the constructor. *)
Context (complete : RegistrationRequest → job → OB D) (attest : job → OB bool).

Definition CATALOG_CODES : list string :=
  ["PERMISSION_DENIED"; "AUTH_FAILED"; "SELECTION_REQUIRED"; "CLUSTER_REVIEW_REQUIRED"; "CLUSTER_SCOPE_MISMATCH";
   "HOST_MAPPING_REQUIRED"; "CONFLICT"; "BUSY"; "UNAVAILABLE"].
Definition CONFLICT_CODES : list string :=
  ["HOST_REGISTRATION_INTENT_CHANGED"; "HOST_ALREADY_REGISTERED"; "HOST_IDENTITY_CONFLICT"; "HOST_SOURCE_CLOSED";
   "HOST_REGISTRY_REVIEW_REQUIRED"].
Definition CatalogError (code : string) : exn := OtherException "CatalogError" (Some code).

Definition failure_code (e : exn) : string :=
  match e with
  | OtherException "CatalogError" (Some code) => if bool_decide (code ∈ CATALOG_CODES) then "CATALOG_" +:+ code else "REGISTRATION_UNCERTAIN"
  | HostRegistrationConflict code _ _ _ => if bool_decide (code ∈ CONFLICT_CODES) then code else "REGISTRATION_UNCERTAIN"
  | ControlError _ => "REGISTRATION_UNAVAILABLE"
  | _ => "REGISTRATION_UNCERTAIN"
  end.
Definition blocking (code : string) : bool :=
  bool_decide (code ∈ (["CATALOG_SELECTION_REQUIRED"; "CATALOG_CLUSTER_REVIEW_REQUIRED"; "CATALOG_CLUSTER_SCOPE_MISMATCH";
                        "CATALOG_HOST_MAPPING_REQUIRED"; "CATALOG_CONFLICT"] ++ CONFLICT_CODES)%list).

(** The registered source is the one the job asked for. *)
Definition same_registration (c : SourceConfig) (payload : pydict) : result exn bool :=
  refs ← py_item "references" (PDict payload);
  value ← py_item "request" (PDict payload);
  source_type ← py_item "source_type" value;
  if negb (py_eqb (PStr (cfg_source_type c)) source_type) then Ok false
  else
    address ← py_item "address" value;
    if negb (py_eqb (PStr (cfg_address c)) address) then Ok false
    else
      secret ← py_item "secret" refs;
      if negb (py_eqb (PStr (secret_key (cred_token_secret (cfg_credentials c)))) secret) then Ok false
      else token ← py_item "token" refs; Ok (py_eqb (PStr (secret_key (cred_token_id (cfg_credentials c)))) token).

Definition saved_request (j : job_row) : result exn RegistrationRequest :=
  request ← py_item "request" (PDict (job_payload j));
  match request with
  | PDict d => model_validate urlsplit parse (dset "onboarding_token" (PStr TOKEN) d)
  | _ => Err (TypeError "object is not a mapping")
  end.

Definition run (j : job) : OB (SourceConfig + D) :=
  verified ← attest j;
  if negb (verified : bool) then
    mark j.1 JOB_STAGING (Some "REGISTRATION_ACCESS_REQUIRED");; raise uncertain
  else
    existing ← Onboarding.find dsn schema_version j.1;
    match existing with
    | Some c =>
        same ← lift (same_registration c (job_payload j.2));
        if (same : bool) then mark j.1 JOB_COMPLETED None;; mret (inl c)
        else mark j.1 JOB_BLOCKED (Some "HOST_REGISTRATION_INTENT_CHANGED");; raise intent_changed
    | None =>
        request ← lift (saved_request j.2);
        completed ← attempt (complete request j);
        match completed with
        | Ok d => mark j.1 JOB_COMPLETED None;; mret (inr d)
        | Err e =>
            let code := failure_code e in
            mark j.1 (if blocking code then JOB_BLOCKED else JOB_READY) (Some code);; raise e
        end
    end.

(** What a turn does with the job it has taken. *)
Definition continue_job (source : string) : OB unit :=
  job_guard source (
    j ← get_job source None None;
    match j with
    | Some row => if waiting row then run (source, row);; mret tt else mret tt
    | None => mret tt
    end).

(** [__call__], for the cursor [after]. *)
Definition continuation (after : N) : OB N :=
  taken ← pending after;
  match taken with
  | None => mret after
  | Some (source, operation) => attempt (continue_job source);; mret operation
  end.

(** A turn of the background thread, which survives every exception. *)
Definition turn (cw : N * station) : N * station :=
  match continuation cw.1 cw.2 with (Ok after, w) => (after, w) | (Err _, w) => (cw.1, w) end.
End Continuation.
End Jobs.

(** ** What a continuation may do *)

(** The files, the jobs and the sources are still there. *)
Definition steady (w w' : station) : Prop :=
  files (on_disk w') = files (on_disk w) ∧ registration_jobs (on_db w') = registration_jobs (on_db w) ∧
  ∀ k, is_Some (sources (on_db w) !! k) → is_Some (sources (on_db w') !! k).
#[export] Instance steady_preorder : PreOrder steady.
Proof.
  split; [done|]. intros x y z (F1 & J1 & S1) (F2 & J2 & S2). split_and!; [congruence|congruence|auto].
Qed.

Lemma rests_steady w w' : rests w w' → steady w w'.
Proof. intros [E1 E2]. unfold steady. by rewrite E1, E2. Qed.
Lemma rests_moves_steady {A} (m : OB A) w : moves rests m w → moves steady m w.
Proof. apply rests_steady. Qed.
Lemma connected_steady w : moves steady connected w. Proof. apply rests_moves_steady, connected_rests. Qed.
Lemma locks_steady f w : steady w (map_locks f w). Proof. done. Qed.
Hint Resolve connected_steady : moves.

(** What the continuation asks of its callbacks. *)
Class Completion {D} (complete : RegistrationRequest → job → OB D) : Prop := {
  complete_steady r j w : moves steady (complete r j) w;
  complete_registers r j w d w' : complete r j w = (Ok d, w') → is_Some (sources (on_db w') !! rr_source_instance r) }.

Class Attestation (attested : job → station → Prop) (attest : job → OB bool) : Prop := {
  attest_steady j w : moves steady (attest j) w;
  attest_true j w w' : registration_jobs (on_db w) !! j.1 = Some j.2 → attest j w = (Ok true, w') → attested j w';
  attested_files j w w' : files (on_disk w') = files (on_disk w) → attested j w → attested j w' }.

Lemma attested_steady {attested attest} `{!Attestation attested attest} j w w' : steady w w' → attested j w → attested j w'.
Proof. intros [E _]. by apply attested_files. Qed.

(** The saved request is for the source of its job. *)
Definition well_named (j : job) : Prop :=
  ∃ request, dget "request" (job_payload j.2) = PDict request ∧ dget "source_instance" request = PStr j.1.
Definition jobs_named (w : station) : Prop := ∀ k j, registration_jobs (on_db w) !! k = Some j → well_named (k, j).

(** Pydantic keeps the text of a field of type [str]. *)
Class ParsesSource (parse : pydict → result exn RegistrationRequest) : Prop :=
  parse_source d r : parse d = Ok r → dget "source_instance" d = PStr (rr_source_instance r).

Lemma py_item_dget k d v : py_item k (PDict d) = Ok v → dget k d = v.
Proof. unfold py_item, dget. destruct (dlookup k d); [|done]. by intros [= ->]. Qed.

Lemma saved_source urlsplit parse `{!ParsesSource parse} j r :
  well_named j → saved_request urlsplit parse j.2 = Ok r → rr_source_instance r = j.1.
Proof.
  intros (d & Hd & Hs) H. unfold saved_request in H. apply result_bind_Ok in H as (v & Hv & H). apply py_item_dget in Hv.
  rewrite Hd in Hv. subst v. unfold model_validate in H. apply result_bind_Ok in H as (r1 & Hp & H). apply parse_source in Hp.
  apply result_bind_Ok in H as ([] & _ & [= <-]). rewrite dget_dset_ne in Hp by done. rewrite Hs in Hp.
  by injection Hp as ->.
Qed.

Section Safety.
Context (schema : string).
Context {D : Type} (dsn : bool) (schema_version : Z) (urlsplit : string → result exn url).
Context (parse : pydict → result exn RegistrationRequest) `{!ParsesSource parse}.
Context (attested : job → station → Prop).
Context (complete : RegistrationRequest → job → OB D) (attest : job → OB bool).
Context `{!Completion complete} `{!Attestation attested attest}.

(** One job has been marked. *)
Definition marked (source : string) (st : JobState) (code : option string) (w w' : station) : Prop :=
  files (on_disk w') = files (on_disk w) ∧ sources (on_db w') = sources (on_db w) ∧
  ∃ now, registration_jobs (on_db w') = alter (with_job_state st code now) source (registration_jobs (on_db w)).

Lemma mark_cases source st code w r w' : mark source st code w = (r, w') → steady w w' ∨ marked source st code w w'.
Proof using Type.
  unfold mark, commit. intros H. apply bind_cases in H as [(e & H & _)|(event & w1 & [= _ <-] & H)]; [done|].
  destruct event; [| |].
  - right. injection H as _ <-. unfold marked. simpl. eauto.
  - left. by injection H as _ <-.
  - right. injection H as _ <-. unfold marked. simpl. eauto.
Qed.

(** A pass over one job: no mark, or one mark after everything else, and
    [COMPLETED] only for an attested job whose source is registered. *)
Definition progress (j : job) (w w' : station) : Prop :=
  steady w w' ∨ ∃ w1 st code, steady w w1 ∧ marked j.1 st code w1 w' ∧
    (st = JOB_COMPLETED → is_Some (sources (on_db w1) !! j.1) ∧ attested j w1).

Lemma progress_mark j st code w1 w r w' :
  steady w w1 → mark j.1 st code w1 = (r, w') →
  (st = JOB_COMPLETED → is_Some (sources (on_db w1) !! j.1) ∧ attested j w1) → progress j w w'.
Proof using Type.
  intros Hs [Hm|Hm]%mark_cases Hc; [left; by etransitivity|]. right. exists w1, st, code. by split_and!.
Qed.

(** A mark and what is returned or raised after it. *)
Lemma progress_after {A} j st code w1 w (k : OB A) r w' :
  (∀ u, (k u).2 = u) → steady w w1 → (mark j.1 st code ≫= λ _, k) w1 = (r, w') →
  (st = JOB_COMPLETED → is_Some (sources (on_db w1) !! j.1) ∧ attested j w1) → progress j w w'.
Proof using Type.
  intros Hk Hs H Hc. apply bind_cases in H as [(e & H & _)|(u & w2 & H & H2)].
  - by eapply progress_mark.
  - pose proof (Hk w2) as E. rewrite H2 in E. simpl in E. subst. by eapply progress_mark.
Qed.

Lemma run_progress j w r w' :
  registration_jobs (on_db w) !! j.1 = Some j.2 → well_named j → run dsn schema_version urlsplit parse complete attest j w = (r, w') → progress j w w'.
Proof using Type*.
  unfold run. intros Hj Hn H. apply bind_cases in H as [(e & H & _)|(verified & w1 & Ha & H)].
  { left. by apply (moves_end steady _ _ _ _ (attest_steady j w) H). }
  pose proof (moves_end steady _ _ _ _ (attest_steady j w) Ha) as S1.
  destruct verified; simpl in H; [|by eapply (progress_after _ _ _ _ _ (raise uncertain))].
  apply attest_true in Ha; [|done]. apply bind_cases in H as [(e & H & _)|(existing & w2 & Hf & H)].
  { left. etransitivity; [exact S1|]. by apply (moves_end steady _ _ _ _ (rests_moves_steady _ _ (find_rests _ _ _ w1)) H). }
  pose proof (moves_end steady _ _ _ _ (rests_moves_steady _ _ (find_rests _ _ _ w1)) Hf) as S2.
  pose proof (attested_steady j _ _ S2 Ha) as Ha2.
  assert (steady w w2) as S12 by (by etransitivity). destruct existing as [c|].
  - assert (is_Some (sources (on_db w2) !! j.1)) as Hreg.
    { apply S2. apply not_eq_None_Some. intros E. by apply (proj1 (find_Ok _ _ _ _ _ _ Hf)) in E. }
    apply bind_cases in H as [(e & [= _ <-] & _)|(same & w3 & [_ ->]%lift_Ok & H)]; [by left|].
    destruct same; [by eapply (progress_after _ _ _ _ _ (mret (inl c)))|by eapply (progress_after _ _ _ _ _ (raise intent_changed))].
  - apply bind_cases in H as [(e & [= _ <-] & _)|(request & w3 & [Hr ->]%lift_Ok & H)]; [by left|].
    apply bind_cases in H as [(e & H & _)|(completed & w4 & Hc%attempt_Ok & H)]; [by apply attempt_returns in H|].
    pose proof (moves_end steady _ _ _ _ (complete_steady request j w2) Hc) as S3.
    pose proof (attested_steady j _ _ S3 Ha2) as Ha4. assert (steady w w4) as S4 by (by etransitivity).
    destruct completed as [d|e].
    + apply complete_registers in Hc. rewrite (saved_source _ _ _ _ Hn Hr) in Hc. by eapply (progress_after _ _ _ _ _ (mret (inr d))).
    + eapply (progress_after _ _ _ _ _ (raise e)); [done|done|exact H|]. by destruct (blocking _).
Qed.

Lemma mark_Ok source st code w u w' : mark source st code w = (Ok u, w') → marked source st code w w'.
Proof using Type.
  unfold mark, commit. intros H. apply bind_Ok in H as (event & w1 & [= _ <-] & H). destruct event; [|done|].
  - injection H as _ <-. unfold marked. simpl. eauto.
  - apply bind_Ok in H as (? & ? & _ & H). by apply raise_Ok in H.
Qed.

(** A pass that returns has completed the job. *)
Lemma run_Ok j w x w' :
  registration_jobs (on_db w) !! j.1 = Some j.2 → well_named j → run dsn schema_version urlsplit parse complete attest j w = (Ok x, w') →
  is_Some (sources (on_db w') !! j.1) ∧ attested j w' ∧ ∃ w1, steady w w1 ∧ marked j.1 JOB_COMPLETED None w1 w'.
Proof using Completion0 Attestation0 ParsesSource0.
  unfold run. intros Hj Hn H. apply bind_Ok in H as (verified & w1 & Ha & H).
  pose proof (moves_end steady _ _ _ _ (attest_steady j w) Ha) as S1.
  destruct verified; simpl in H; [|apply bind_Ok in H as (? & ? & _ & H); by apply raise_Ok in H].
  apply attest_true in Ha; [|done]. apply bind_Ok in H as (existing & w2 & Hf & H).
  pose proof (moves_end steady _ _ _ _ (rests_moves_steady _ _ (find_rests _ _ _ w1)) Hf) as S2.
  assert (∀ w3, steady w2 w3 → is_Some (sources (on_db w3) !! j.1) → mark j.1 JOB_COMPLETED None w3 = (Ok tt, w') →
    is_Some (sources (on_db w') !! j.1) ∧ attested j w' ∧ ∃ w1, steady w w1 ∧ marked j.1 JOB_COMPLETED None w1 w') as Hend.
  { intros w3 S3 Hs Hm%mark_Ok. pose proof Hm as (F & E & _). split_and!; [by rewrite E| |].
    - eapply attested_files; [exact F|]. eapply attested_steady; [exact S3|]. by eapply attested_steady.
    - exists w3. split; [|done]. do 2 (etransitivity; [eassumption|]). done. }
  destruct existing as [c|].
  - apply bind_Ok in H as (same & w3 & [_ ->]%lift_Ok & H). destruct same; [|apply bind_Ok in H as (? & ? & _ & H); by apply raise_Ok in H].
    apply bind_Ok in H as ([] & w4 & Hm & [_ ->]%ret_Ok). apply (Hend w2); [done| |done].
    apply S2. apply not_eq_None_Some. intros E. by apply (proj1 (find_Ok _ _ _ _ _ _ Hf)) in E.
  - apply bind_Ok in H as (request & w3 & [Hr ->]%lift_Ok & H). apply bind_Ok in H as (completed & w4 & Hc%attempt_Ok & H).
    destruct completed as [d|e]; [|apply bind_Ok in H as (? & ? & _ & H); by apply raise_Ok in H].
    apply bind_Ok in H as ([] & w5 & Hm & [_ ->]%ret_Ok). apply (Hend w4); [|by rewrite <- (saved_source _ _ _ _ Hn Hr); eapply complete_registers|done].
    apply (moves_end steady _ _ _ _ (complete_steady request j w2) Hc).
Qed.

Definition same_job (j j' : job_row) : Prop :=
  job_operation j' = job_operation j ∧ job_actor j' = job_actor j ∧ job_payload j' = job_payload j.

(** What a pass leaves of a job. *)
Definition passed (k : string) (w w' : station) (j j' : job_row) : Prop :=
  j' = j ∨ (waiting j = true ∧ (job_key schema k ∉ session_locks (on_db w)) ∧ same_job j j' ∧
            (job_state j' = JOB_COMPLETED → is_Some (sources (on_db w') !! k) ∧ attested (k, j) w')).
Definition jobs_pass (w w' : station) : Prop :=
  files (on_disk w') = files (on_disk w) ∧ (∀ k, is_Some (sources (on_db w) !! k) → is_Some (sources (on_db w') !! k)) ∧
  (∃ source, ∀ k, k ≠ source → registration_jobs (on_db w') !! k = registration_jobs (on_db w) !! k) ∧
  ∀ k, match registration_jobs (on_db w) !! k, registration_jobs (on_db w') !! k with
       | Some j, Some j' => passed k w w' j j' | None, None => True | _, _ => False end.

Lemma steady_pass w w' : steady w w' → jobs_pass w w'.
Proof using Type.
  intros (F & J & K). split_and!; [done|done|exists ""; by rewrite J|]. intros k. rewrite J. unfold passed. by destruct (_ !! k); [left|].
Qed.

Lemma progress_pass source row w w' :
  registration_jobs (on_db w) !! source = Some row → waiting row = true → job_key schema source ∉ session_locks (on_db w) →
  progress (source, row) w w' → jobs_pass w w'.
Proof using Attestation0.
  intros Hrow Hwait Hlock [H|(w1 & st & code & (F1 & J1 & K1) & (F2 & S2 & now & J2) & Hc)]; [by apply steady_pass|].
  simpl in J2, Hc. split_and!; [congruence|intros k; rewrite S2; apply K1| |].
  { exists source. intros k Hk. by rewrite J2, J1, lookup_alter_ne. }
  intros k. rewrite J2, J1.
  destruct (decide (k = source)) as [->|Hne].
  - rewrite lookup_alter_eq, Hrow. simpl. unfold passed. right. split_and!; [done|done|done|]. simpl. intros ->.
    destruct (Hc eq_refl) as [Hs Ha]. split; [by rewrite S2|]. by eapply attested_files.
  - rewrite lookup_alter_ne by done. unfold passed. by destruct (_ !! k); [left|].
Qed.

Lemma progress_locks f j w w' : progress j w w' → progress j w (map_locks f w').
Proof using Type.
  intros [H|(w1 & st & code & H1 & H2 & H3)]; [left; by etransitivity; [|apply locks_steady]|]. right. by exists w1, st, code.
Qed.

Abbreviation continue_job' := (continue_job schema dsn schema_version urlsplit parse complete attest).

Lemma get_job_steady source o a w : moves steady (get_job source o a) w.
Proof using Type. unfold get_job. moves. Qed.
Lemma get_job_Ok source w row w' : get_job source None None w = (Ok row, w') → registration_jobs (on_db w) !! source = row.
Proof using Type.
  unfold get_job. intros H. apply bind_Ok in H as ([] & w1 & H1 & H).
  pose proof (moves_end rests _ _ _ _ (connected_rests w) H1) as [<- _].
  apply bind_Ok in H as (row' & w2 & [-> ->]%gets_Ok & H). apply bind_Ok in H as (? & w3 & [_ ->]%raise_if_Ok & [-> _]%ret_Ok). done.
Qed.

Lemma progress_steady j w w1 w' : steady w w1 → progress j w1 w' → progress j w w'.
Proof using Type.
  intros S1 [H|(w2 & st & code & H1 & H2 & H3)]; [left; by etransitivity|]. right. exists w2, st, code.
  split_and!; [by etransitivity|done|done].
Qed.

Lemma continue_pass source w r w' : jobs_named w → continue_job' source w = (r, w') → jobs_pass w w'.
Proof using Completion0 Attestation0 ParsesSource0.
  unfold continue_job, job_guard. intros Hnames H.
  apply bind_cases in H as [(e & H & _)|([] & w1 & H1 & H)].
  { apply steady_pass, (moves_end steady _ _ _ _ (connected_steady w) H). }
  pose proof (moves_end rests _ _ _ _ (connected_rests w) H1) as R1.
  apply bind_cases in H as [(e & [=] & _)|(held & w2 & [-> ->]%gets_Ok & H)].
  apply bind_cases in H as [(e & H & _)|([] & w3 & [Hl ->]%raise_if_Ok & H)].
  { apply steady_pass. etransitivity; [by apply rests_steady|]. eapply (moves_end steady); [|exact H]. moves. }
  apply bool_decide_eq_false in Hl. apply bind_cases in H as [(e & [=] & _)|([] & w4 & [= <-] & H)].
  apply finally_cases in H as (w5 & H & ->).
  assert (steady w (map_locks (λ l, {[job_key schema source]} ∪ l) w1)) as S1.
  { etransitivity; [by apply rests_steady|apply locks_steady]. }
  apply bind_cases in H as [(e & H & _)|(row & w6 & Hg & H)].
  { apply steady_pass. etransitivity; [exact S1|]. etransitivity; [|apply locks_steady].
    apply (moves_end steady _ _ _ _ (get_job_steady _ _ _ _) H). }
  pose proof (moves_end steady _ _ _ _ (get_job_steady _ _ _ _) Hg) as S2.
  assert (steady w w6) as S by (by etransitivity). apply get_job_Ok in Hg.
  destruct row as [row|]; [destruct (waiting row) eqn:Hw|].
  2-3: injection H as _ <-; apply steady_pass; etransitivity; [exact S|apply locks_steady].
  eapply (progress_pass source row); [destruct S1 as (_ & E & _); by rewrite <- E|done|destruct R1 as [E _]; by rewrite <- E|].
  apply progress_locks. eapply progress_steady; [exact S|].
  apply bind_cases in H as [(e & H & _)|(u & w7 & H & [= _ <-])]; apply run_progress in H; try done;
    try (destruct S2 as (_ & E & _); by rewrite E); (eapply Hnames; destruct S1 as (_ & E & _); by rewrite <- E).
Qed.

Lemma continuation_pass after w r w' :
  continuation schema dsn schema_version urlsplit parse complete attest after w = (r, w') → jobs_named w → jobs_pass w w'.
Proof using Completion0 Attestation0 ParsesSource0.
  unfold continuation, pending. intros H Hn.
  apply bind_cases in H as [(e & H & _)|(taken & w1 & Hp & H)].
  { apply steady_pass. eapply (moves_end steady); [|exact H]. moves. }
  apply bind_Ok in Hp as ([] & w2 & Hc & [-> ->]%gets_Ok). pose proof (moves_end rests _ _ _ _ (connected_rests w) Hc) as R.
  destruct (next_turn _ _ _) as [[source operation]|]; [|injection H as _ <-; by apply steady_pass, rests_steady].
  apply bind_cases in H as [(e & H & _)|(u & w3 & H%attempt_Ok & [= _ <-])]; [by apply attempt_returns in H|].
  destruct R as [Edb Ed]. apply continue_pass in H; [|unfold jobs_named; by rewrite Edb]. unfold jobs_pass, passed in *. by rewrite Edb, Ed in H.
Qed.

Lemma turn_pass after w after' w' :
  jobs_named w → turn schema dsn schema_version urlsplit parse complete attest (after, w) = (after', w') → jobs_pass w w'.
Proof using Completion0 Attestation0 ParsesSource0.
  unfold turn. simpl. intros Hn.
  destruct (continuation _ _ _ _ _ _ _ _ _) as [[a|e] w1] eqn:E; intros [= _ <-]; by apply continuation_pass in E.
Qed.

(** C15: the background pass completes a registration only on evidence. Whatever the
    broker, the database and the callbacks do, one turn of the continuation changes
    at most one job, one that was waiting and whose session lock nobody held; the
    operation, the actor and the payload of every job stay as they were approved,
    no file and no source is lost, and no job appears or vanishes. A job is marked
    [COMPLETED] only when its credential files have been attested in this very turn
    and its source is in the registry. *)
Theorem turn_completes_on_evidence after w after' w' :
  jobs_named w → turn schema dsn schema_version urlsplit parse complete attest (after, w) = (after', w') → jobs_pass w w'.
Proof using Completion0 Attestation0 ParsesSource0. apply turn_pass. Qed.
End Safety.

(** ** The broker's attestation *)

Section Attested.
Context (uuid5_hex : string → string) (umask allowed_uid : Z).

(** The file [key] is a complete file of the broker for [operation]. *)
Definition owned_by (operation key : string) (w : station) : Prop :=
  ∃ f a, files (on_disk w) !! key = Some f ∧ proved f a ∧ at_operation a = operation.

Lemma verify_owned_true operation key s s' :
  verify_owned (PStr operation) (PStr key) s = (Ok true, s') →
  ∃ f a, files s !! key = Some f ∧ proved f a ∧ at_operation a = operation.
Proof using Type.
  unfold verify_owned. intros H. apply bind_Ok in H as (k & s1 & [Hk ->]%lift_Ok & H). apply check_key_Ok in Hk as [= <-].
  apply bind_Ok in H as (o & s2 & [Ho ->]%lift_Ok & H). apply check_operation_Ok in Ho as [= <-].
  apply catch_Ok in H as [H|(e & s3 & _ & H)]; [|by destruct (_ || _)].
  apply bind_Ok in H as (f & s3 & [Hf Es]%open_read_Ok & H). apply bind_Ok in H as ([] & s4 & _ & H).
  apply bind_Ok in H as ([a b] & s5 & (Ha & _ & _)%stored_attributes_Ok & [Hb _]%ret_Ok). simpl in Hb.
  symmetry in Hb. apply andb_prop in Hb as [Hb Hc]. apply andb_prop in Hb as [Hb Ho]. inv_bool. exists f, a. done.
Qed.

Definition verify_message (operation key : string) : pyval :=
  PDict [("action", PStr "verify_owned"); ("key", PStr key); ("operation_id", PStr operation)].

Lemma dispatch_verify token operation key s :
  dispatch_request umask allowed_uid token 0 (verify_message operation key) s =
  (verified ← verify_owned (PStr operation) (PStr key); mret (PDict [("ok", PBool true); ("verified", PBool verified)])) s.
Proof using Type. reflexivity. Qed.

(** What a reply to [verify_owned] says. *)
Definition vouches (operation key : string) (reply : pyval) (w : station) : Prop :=
  ∀ d, reply = PDict d → is_True (dget "ok" d) = true → dget "verified" d = PBool true → owned_by operation key w.

Lemma serve_verify operation key (received : result exn pyval) w reply w' :
  (∀ m, received = Ok m → m = verify_message operation key) →
  serve umask allowed_uid 0 received w = (Ok reply, w') → steady w w' ∧ vouches operation key reply w'.
Proof using Type.
  intros Hr H. unfold serve in H. apply bind_Ok in H as (token & w1 & [= _ <-] & H). unfold through_disk in H.
  set (s0 := on_disk _) in H. assert (s0 = on_disk w) as E0 by done. clearbody s0.
  destruct (serve_connection _ _ _ _ _ _) as [r s1] eqn:E. injection H as -> <-.
  assert (files s1 = files s0 ∧ vouches operation key reply (set_disk s1 w)) as [Ef Hv].
  { unfold serve_connection in E. rewrite orb_true_r in E. simpl in E. unfold catch in E.
    destruct received as [m|e]; [|injection E as <- <-; split; [done|by intros d [= <-]]].
    rewrite (Hr m eq_refl), (bind_step _ _ _ (verify_message operation key) s0), dispatch_verify in E by done.
    unfold mbind, M_bind in E. pose proof (verify_owned_same (PStr operation) (PStr key) s0) as Hsame. unfold moves in Hsame.
    destruct (verify_owned _ _ s0) as [[b|e] s2] eqn:Ev; simpl in E, Hsame; injection E as <- <-; (split; [done|]); intros d [= <-]; [|done].
    intros _ [= ->]. apply verify_owned_true in Ev as (f & a & Hf & Hp). exists f, a. simpl. by rewrite Hsame. }
  split; [split_and!; [by rewrite <- E0|done|done]|done].
Qed.

Lemma exchange_verify operation key w p w' :
  exchange umask allowed_uid 0 (verify_message operation key) w = (Ok p, w') →
  steady w w' ∧ ∀ reply, p.1 = Some reply → vouches operation key reply w'.
Proof using Type.
  unfold exchange. intros H. apply bind_Ok in H as (event & w1 & [= _ <-] & H).
  destruct event; try (injection H as <- <-; by split);
    apply bind_Ok in H as (reply & w2 & Hs & [-> ->]%ret_Ok); apply (serve_verify operation key) in Hs as [S V]; try (by intros ? [= <-]);
    (split; [exact S|]); simpl; try done; by intros ? [= <-].
Qed.

Lemma serve_connection_returns um au token peer received s :
  ∃ reply s', serve_connection um au token peer received s = (Ok reply, s').
Proof using Type.
  unfold serve_connection. destruct (negb _); [eauto|]. unfold catch.
  match goal with |- context [match ?x with (_, _) => _ end] => destruct x as [[?|?] ?] end; eauto.
Qed.
Lemma serve_returns received w e w' : serve umask allowed_uid 0 received w = (Err e, w') → False.
Proof using Type.
  unfold serve. intros H. apply bind_cases in H as [(? & H & _)|(token & w1 & _ & H)]; [done|]. unfold through_disk in H.
  destruct (serve_connection_returns umask allowed_uid token 0 received (on_disk w1)) as (reply & s' & E). by rewrite E in H.
Qed.
Lemma exchange_returns payload w e w' : exchange umask allowed_uid 0 payload w = (Err e, w') → False.
Proof using Type.
  unfold exchange. intros H. apply bind_cases in H as [(? & H & _)|(event & w1 & _ & H)]; [done|].
  destruct event; try done; apply bind_cases in H as [(? & H & _)|(? & ? & _ & H)]; try done; by apply serve_returns in H.
Qed.

Lemma client_verify_spec w0 operation key :
  hoare (steady w0) (client_verify_owned umask allowed_uid key operation)
    (λ b w, steady w0 w ∧ (b = true → owned_by operation key w)) (λ _, steady w0).
Proof using Type.
  unfold client_verify_owned, control_request. apply (hoare_bind _ _ _ (λ d w, steady w0 w ∧ vouches operation key (PDict d) w ∧ is_True (dget "ok" d) = true)).
  - apply (hoare_bind _ _ _ (λ p w, steady w0 w ∧ ∀ reply, p.1 = Some reply → vouches operation key reply w)).
    { intros w Hw. destruct (exchange _ _ _ _ w) as [[p|e] w'] eqn:E; [|by apply exchange_returns in E].
      apply (exchange_verify operation key) in E as [S V]. split; [by etransitivity|done]. }
    intros [[v|] connected_]; [destruct v as [| | | | |d]|]; cbn -[is_True]; try (apply hoare_raise; by intros ? []).
    destruct (is_True _) eqn:Et; [|apply hoare_raise; by intros ? []]. apply hoare_ret. intros w [Hw V]. by split_and!; [|apply V|].
  - intros d w (Hw & V & Ht). destruct (dget "verified" d) eqn:Ed; simpl; try done.
    split; [done|]. intros ->. by apply (V d).
Qed.

Lemma owned_by_files operation key w w' : files (on_disk w') = files (on_disk w) → owned_by operation key w → owned_by operation key w'.
Proof using Type. intros E (f & a & Hf & H). exists f, a. by rewrite E. Qed.

Lemma all_owned_spec w0 operation keys :
  hoare (steady w0) (all_owned umask allowed_uid keys operation)
    (λ b w, steady w0 w ∧ (b = true → ∀ k, k ∈ keys → owned_by operation k w)) (λ _, steady w0).
Proof using Type.
  revert w0. induction keys as [|k keys IH]; intros w0; simpl.
  { apply hoare_ret. intros w Hw. split; [done|]. intros _ k Hk. by apply elem_of_nil in Hk. }
  eapply hoare_bind; [apply client_verify_spec|]. intros [|]; cbn beta; [|apply hoare_ret; by intros w [Hw _]].
  intros w [Hw Hk]. specialize (IH w w ltac:(done)). destruct (all_owned _ _ _ _ w) as [[b|e] w'] eqn:E; [|by etransitivity].
  destruct IH as [Hw' Hall]. split; [by etransitivity|]. intros Hb j [->|Hj]%elem_of_cons; [|by apply Hall].
  destruct Hw' as [Ef _]. by apply (owned_by_files _ _ w), Hk.
Qed.

(** The attestation of a job: the lifecycle worker's answer. *)
Definition attest_job (j : job) : OB bool := verify_staged uuid5_hex umask allowed_uid j.1 (uuid_str (job_operation j.2)) (job_actor j.2).

(** The files the job's own request asks for, for Proxmox the secret and the token,
    are complete files of its operation, under the references the job records. *)
Definition credentials_staged (j : job) (w : station) : Prop :=
  ∃ provider operation secret token,
    payload_text (job_payload j.2) "request" "source_type" = Ok provider ∧
    let refs := references uuid5_hex (job_actor j.2) j.1 (job_operation j.2) provider in
    py_eqb (dget "references" (job_payload j.2)) (PDict refs) = true ∧
    refs = [("operation", PStr operation); ("secret", PStr secret); ("token", PStr token)] ∧
    owned_by operation secret w ∧ owned_by operation token w.

(** [sorted({a, b})] has both. *)
Lemma both_listed (a b : string) :
  let keys := if bool_decide (a = b) then [a] else isort String.leb [a; b] in a ∈ keys ∧ b ∈ keys.
Proof using Type.
  cbn zeta. case_bool_decide as E; [subst; by split; apply list_elem_of_singleton|].
  split; apply elem_of_isort; [left|right; left].
Qed.

Lemma verify_staged_spec w0 source operation actor :
  hoare (steady w0) (verify_staged uuid5_hex umask allowed_uid source operation actor)
    (λ b w, steady w0 w ∧ (b = true → ∃ j, registration_jobs (on_db w0) !! source = Some j ∧ credentials_staged (source, j) w))
    (λ _, steady w0).
Proof using Type.
  unfold verify_staged. apply (hoare_bind _ _ _ (λ _, steady w0)).
  { apply (hoare_moves steady); [intros; by etransitivity|intros; moves]. }
  intros []. apply (hoare_bind _ _ _ (λ row w, registration_jobs (on_db w0) !! source = row ∧ steady w0 w)).
  { apply hoare_gets. intros w Hw. split; [by destruct Hw as (_ & -> & _)|done]. }
  intros row. apply hoare_pure. intros Hrow.
  apply (hoare_bind _ _ _ (λ j w, row = Some j ∧ steady w0 w)); [by apply hoare_require|]. intros j. apply hoare_pure. intros ->.
  apply (hoare_bind _ _ _ (λ _ w, job_actor j = actor ∧ steady w0 w)).
  { apply hoare_raise_if; [by intros|]. intros w E Hw. apply orb_false_iff in E as [_ E]. by inv_bool. }
  intros []. apply hoare_pure. intros <-.
  eapply hoare_bind; [apply (hoare_lift_eq _ (steady w0)); by intros|]. intros provider. apply hoare_pure. intros Hp. cbn zeta.
  set (refs := references _ _ _ _ _).
  eapply hoare_bind; [apply (hoare_lift_eq _ (steady w0)); by intros|]. intros saved. apply hoare_pure. intros Hsaved%py_item_dget.
  apply (hoare_bind _ _ _ (λ _ w, py_eqb saved (PDict refs) = true ∧ steady w0 w)).
  { apply hoare_raise_if; [by intros|]. intros w E Hw. by apply negb_false_iff in E. }
  intros []. apply hoare_pure. intros Hrefs.
  do 3 (eapply hoare_bind; [apply (hoare_lift_eq _ (steady w0)); by intros|intros ?; cbn beta; apply hoare_pure; intros [= <-]]).
  eapply hoare_conseq; [apply all_owned_spec|done| |by intros]. intros b w [Hw Hb]. split; [done|]. intros Eb. exists j. split; [done|].
  specialize (Hb Eb). eexists provider, _, _, _. split; [done|]. cbn zeta. split; [cbn [fst snd]; by rewrite Hsaved|]. split; [reflexivity|].
  split; apply Hb, both_listed.
Qed.

#[export] Instance attest_job_attestation : Attestation credentials_staged attest_job.
Proof using Type.
  split.
  - intros j w. pose proof (verify_staged_spec w j.1 (uuid_str (job_operation j.2)) (job_actor j.2) w ltac:(done)) as H.
    unfold moves, attest_job. destruct (verify_staged _ _ _ _ _ _ w) as [[b|e] w']; [by destruct H|done].
  - intros [source j] w w' Hj E. pose proof (verify_staged_spec w source (uuid_str (job_operation j)) (job_actor j) w ltac:(done)) as H.
    unfold attest_job in E. simpl in *. rewrite E in H. destruct H as [_ H]. destruct (H eq_refl) as (j' & Hj' & Hc).
    rewrite Hj in Hj'. by injection Hj' as <-.
  - intros j w w' E (provider & op & secret & token & Hp & Hrefs & Eq & Hs & Ht). exists provider, op, secret, token.
    cbn zeta. split_and!; try done; by eapply owned_by_files.
Qed.
End Attested.

(** ** Registering with staged credentials *)

Section Staged.
Context (dsn : bool) (schema_version : Z).

(** [StagedOnboarding.preview], [check_registration] and [register]. *)
Definition staged_preview (j : job) (token : string) : OB pyval :=
  raise_if (negb (bool_decide (token = TOKEN))) token_invalid;; lift (py_item "preview" (PDict (job_payload j.2))).
Definition staged_check (j : job) (r : RegistrationCommand) : OB unit :=
  staged_preview j (rq_token r);;
  existing ← Onboarding.find dsn schema_version (rq_source_instance r);
  raise_if (bool_decide (is_Some existing)) (OnboardingError "SOURCE_ALREADY_EXISTS").
Definition staged_register (j : job) (r : RegistrationCommand) : OB SourceConfig :=
  token ← lift (payload_text (job_payload j.2) "references" "token");
  secret ← lift (payload_text (job_payload j.2) "references" "secret");
  username ← lift (text_of (job_payload j.2) "username");
  register_staged dsn schema_version r username token secret.

Lemma reconcile_Some source w c w' :
  reconcile dsn schema_version source w = (Ok (Some c), w') → is_Some (sources (on_db w) !! source).
Proof using Type.
  unfold reconcile. intros H. apply catch_Ok in H as [H|(e & w1 & _ & H)]; [|by apply raise_Ok in H].
  apply find_Ok in H as [H _]. apply not_eq_None_Some. intros E. by apply H in E.
Qed.

(** The row is inserted, or nothing happens. *)
Lemma written_steady config w out w' :
  written config w out w' →
  steady w w' ∧ (inserted config (on_db w) (on_db w') → is_Some (sources (on_db w') !! cfg_source_instance config)).
Proof using Type.
  intros [Ed Hcases]. assert (∀ d d', inserted config d d' → is_Some (sources d' !! cfg_source_instance config) ∧
    registration_jobs d' = registration_jobs d ∧ ∀ k, is_Some (sources d !! k) → is_Some (sources d' !! k)) as Hi.
  { intros d d' [-> _]. simpl. split_and!; [rewrite lookup_insert_eq; eauto|done|]. intros k Hk.
    destruct (decide (k = cfg_source_instance config)) as [->|Hne]; [rewrite lookup_insert_eq; eauto|by rewrite lookup_insert_ne]. }
  split; [|intros H; by apply Hi in H as []].
  destruct Hcases as [(E & _)|[H _]]; [by apply rests_steady|]. apply Hi in H as (_ & J & K). unfold steady. by rewrite Ed.
Qed.

Lemma register_staged_spec r username token_key secret_key z w res w' :
  rq_interval r = PInt z → register_staged dsn schema_version r username token_key secret_key w = (res, w') →
  steady w w' ∧ ∀ c, res = Ok c → is_Some (sources (on_db w') !! rq_source_instance r).
Proof using Type.
  intros Hz H. unfold register_staged in H. apply bind_cases in H as [(e & [= _ <-] & ->)|(config & w1 & [Hs ->]%lift_Ok & H)]; [done|].
  destruct (staged_config_built _ _ _ _ _ _ Hz Hs) as (Hb & Hi & _).
  apply bind_cases in H as [(e & H & ->)|(existing & w2 & Hr & H)].
  { split; [|done]. by apply (moves_end steady _ _ _ _ (rests_moves_steady _ _ (reconcile_rests _ _ _ w)) H). }
  pose proof (moves_end steady _ _ _ _ (rests_moves_steady _ _ (reconcile_rests _ _ _ w)) Hr) as S2.
  destruct existing as [c|].
  { apply reconcile_Some in Hr. assert (w' = w2) as -> by (apply bind_cases in H as [(e & H & _)|([] & w3 & [_ ->]%raise_if_Ok & [= _ <-])];
      [unfold raise_if in H; destruct (negb _); by injection H|done]). split; [done|]. intros _ _. by apply S2. }
  apply bind_cases in H as [(e & H & _)|(out & w3 & Hc & H)]; [by apply create_registered_returns in H|].
  apply create_registered_written in Hc; [|done]. pose proof Hc as [S3 Hins]%written_steady. destruct out as [c|df dp].
  - injection H as <- <-. split; [by etransitivity|]. intros _ _. rewrite <- Hi. apply Hins.
    by destruct Hc as [_ [(_ & ? & ? & [=])|[Hi' _]]].
  - pose proof (moves_end steady _ _ _ _ (rests_moves_steady _ _ (settle_rests _ _ _ _ w3)) H) as S4.
    split; [do 2 (etransitivity; [eassumption|]); done|]. intros c ->. apply settle_Ok in H as [_ H]. by apply S4.
Qed.

Lemma staged_register_spec j r z w res w' :
  rq_interval r = PInt z → staged_register j r w = (res, w') →
  steady w w' ∧ ∀ c, res = Ok c → is_Some (sources (on_db w') !! rq_source_instance r).
Proof using Type.
  intros Hz H. unfold staged_register in H.
  do 3 (apply bind_cases in H as [(? & [= _ <-] & ->)|(? & ? & [_ ->]%lift_Ok & H)]; [done|]). by eapply register_staged_spec.
Qed.

(** Registering at once, with the mapping of a catalog that is already settled. *)
#[export] Instance staged_completion mapping : Completion (λ r j, staged_register j (command r mapping)).
Proof using Type.
  split.
  - intros r j w. unfold moves. destruct (staged_register _ _ w) as [res w'] eqn:E.
    by apply (staged_register_spec _ _ (rr_interval r)) in E as [H _].
  - intros r j w d w' E. apply (staged_register_spec _ _ (rr_interval r)) in E as [_ H]; [|done]. by eapply H.
Qed.
End Staged.

(** ** A job from its approval to its completion *)

Definition sample_rr (source : string) : RegistrationRequest :=
  mkRequest "handoff-token" "esxi" source source "https://10.0.0.2" true None 3600 "site" "cluster" "linux" "server" "generic" "vmware"
    [] [] false false (Some 7%N).
Definition sample_parse (d : pydict) : result exn RegistrationRequest :=
  match dget "source_instance" d with PStr s => Ok (sample_rr s) | _ => Err (ValueError "source_instance") end.
#[local] Instance sample_parses : ParsesSource sample_parse.
Proof. unfold ParsesSource, sample_parse. intros d r. destruct (dget _ d); try done. by intros [= <-]. Qed.
Definition sample_uuid5 (name : string) : string := "0123456789abcdef0123456789abcdef".
Definition sample_preview : pyval := PDict [("provider", PStr "esxi")].

(** The job is approved and its secret staged; the commit of [READY] is lost. *)
Definition approve : OB unit :=
  j ← begin sample_uuid5 (sample_rr "esx-b") "admin" sample_preview "root"; stage 18 1000 1000 j sample_credentials.
Definition approved : station :=
  (approve (mkStation empty_db (mkBroker ∅ [] []) ∅ ∅ ["receipt"] [] [] [Up; Up; CommitLost])).2.
Definition sample_turn : N * station :=
  turn "public" true 1 sample_urlsplit sample_parse (λ r j, staged_register true 1 j (command r []))
    (attest_job sample_uuid5 18 1000) (0%N, approved).

Lemma approved_jobs : registration_jobs (on_db approved) = {["esx-b" := default (mkJob 0 "" [] JOB_BLOCKED None 0) (registration_jobs (on_db approved) !! "esx-b")]}.
Proof. vm_compute. reflexivity. Qed.
Lemma approved_named : jobs_named approved.
Proof.
  intros k j. rewrite approved_jobs, lookup_singleton_Some. intros [<- <-]. exists (model_dump (sample_rr "esx-b")). by vm_compute.
Qed.
Lemma sample_turn_pair : turn "public" true 1 sample_urlsplit sample_parse (λ r j, staged_register true 1 j (command r []))
    (attest_job sample_uuid5 18 1000) (0%N, approved) = (sample_turn.1, sample_turn.2).
Proof. apply surjective_pairing. Qed.
Lemma sample_completed : job_state <$> registration_jobs (on_db sample_turn.2) !! "esx-b" = Some JOB_COMPLETED.
Proof. vm_compute. reflexivity. Qed.
Lemma sample_waiting : ∃ j, registration_jobs (on_db approved) !! "esx-b" = Some j ∧ job_state j = JOB_READY.
Proof. eexists. split; vm_compute; reflexivity. Qed.

Lemma turn_completes_on_evidence_witness :
  is_Some (sources (on_db sample_turn.2) !! "esx-b") ∧
  ∃ j, registration_jobs (on_db approved) !! "esx-b" = Some j ∧ credentials_staged sample_uuid5 ("esx-b", j) sample_turn.2.
Proof.
  destruct (turn_completes_on_evidence "public" true 1 sample_urlsplit sample_parse (credentials_staged sample_uuid5)
    (λ r j, staged_register true 1 j (command r [])) (attest_job sample_uuid5 18 1000) 0%N approved sample_turn.1 sample_turn.2
    approved_named sample_turn_pair) as (_ & _ & _ & H).
  specialize (H "esx-b"). destruct sample_waiting as (j & Hj & Hst). rewrite Hj in H. pose proof sample_completed as Hc.
  destruct (registration_jobs (on_db sample_turn.2) !! "esx-b") as [j'|] eqn:E; [|destruct H]. simpl in Hc. injection Hc as Hc.
  destruct H as [->|(_ & _ & _ & H)]; [congruence|]. destruct (H Hc) as [H1 H2]. split; [exact H1|]. exists j. split; [exact Hj|exact H2].
Defined.

(** ** No job starves *)

Section Fairness.
Context (schema : string).
Context {D : Type} (dsn : bool) (schema_version : Z) (urlsplit : string → result exn url).
Context (parse : pydict → result exn RegistrationRequest) `{!ParsesSource parse}.
Context (attested : job → station → Prop).
Context (complete : RegistrationRequest → job → OB D) (attest : job → OB bool).
Context `{!Completion complete} `{Ha : !Attestation attested attest}.

(** A turn that reaches the database. *)
Definition turn_step (x y : N * station) : Prop :=
  default Up (head (on_link x.2)) = Up ∧ jobs_named x.2 ∧ turn schema dsn schema_version urlsplit parse complete attest x = y.

Definition waiting_operations (x : N * station) : gset N := list_to_set (snd <$> pending_jobs (on_db x.2)).
Definition taken (x : N * station) : option N := snd <$> next_turn snd x.1 (pending_jobs (on_db x.2)).

Lemma elem_of_waiting t x :
  t ∈ waiting_operations x ↔ ∃ k j, registration_jobs (on_db x.2) !! k = Some j ∧ waiting j = true ∧ job_operation j = t.
Proof using Type.
  unfold waiting_operations, pending_jobs. rewrite elem_of_list_to_set, list_elem_of_fmap. split.
  - intros ([k o] & -> & Hin). apply list_elem_of_fmap in Hin as ([k' j] & [= -> ->] & Hin). apply elem_of_select in Hin as [H1 H2]. eauto.
  - intros (k & j & H1 & H2 & <-). exists (k, job_operation j). split; [done|]. apply list_elem_of_fmap. exists (k, j). split; [done|].
    by apply elem_of_select.
Qed.

Lemma turn_step_waiting x y : turn_step x y → waiting_operations y ⊆ waiting_operations x.
Proof using Type*.
  intros (_ & Hn & Ht) t. rewrite !elem_of_waiting. intros (k & j' & Hj' & Hw & Ho). destruct x as [a w], y as [a' w'].
  apply (turn_pass schema dsn schema_version urlsplit parse attested complete attest) in Ht as (_ & _ & _ & H); [|done]. specialize (H k). simpl in *. rewrite Hj' in H.
  destruct (registration_jobs (on_db w) !! k) as [j|] eqn:E; [|done]. exists k, j.
  destruct H as [->|(Hwj & _ & (Ho' & _) & _)]; [done|]. split_and!; [done|done|congruence].
Qed.

Lemma turn_step_cursor x y t : turn_step x y → taken x = Some t → y.1 = t.
Proof using Type.
  intros (Hup & _ & <-). destruct x as [a w]. unfold taken, turn, continuation, pending, connected. simpl.
  unfold mbind, M_bind, next_link, gets. simpl in *. rewrite Hup. simpl.
  destruct (next_turn _ _ _) as [[source op]|]; [|done]. simpl. intros [= <-]. unfold attempt. by destruct (continue_job _ _ _ _ _ _ _ _ _).
Qed.

#[export] Instance turns_rotate : RotatingCursor (N * station) turn_step.
Proof using Type*.
  refine {| cursor := fst; items := waiting_operations; serves := taken |}.
  - intros x t. unfold taken, waiting_operations. destruct (next_turn _ _ _) as [p|] eqn:E; [|done]. simpl. intros [= <-].
    apply next_turn_Some in E as [Hin Hmin]. split; [set_solver|]. intros y. rewrite elem_of_list_to_set, list_elem_of_fmap.
    intros (q & -> & Hq). by apply Hmin.
  - intros x Hne. unfold taken. destruct (next_turn _ _ _) eqn:E; [simpl; eauto|]. apply next_turn_None in E.
    unfold waiting_operations in Hne. by rewrite E in Hne.
  - intros x y t. apply turn_step_cursor.
  - apply turn_step_waiting.
Defined.

(** Within as many turns as there are waiting jobs, every one of them is taken or
    no longer waiting. *)
Lemma no_job_starves n x y t :
  nsteps turn_step n x y → t ∈ waiting_operations x → (size (waiting_operations x) ≤ n)%nat →
  ∃ i z, (i < n)%nat ∧ nsteps turn_step i x z ∧ (taken z = Some t ∨ (t ∉ waiting_operations z)).
Proof using Type*.
  intros Hn Ht Hle. destruct (@nobody_starves _ turn_step turns_rotate n x y t Hn Ht Hle) as (i & z & Hi & H1 & _ & H2). by exists i, z.
Qed.
End Fairness.
