(* ===== verification/RegistrationRoute.v ===== *)
(** * Registering a source (netbox_sync/api/onboarding_routes.py,
    netbox_sync/api/catalog.py, netbox_sync/registration_namespace.py, the rest of
    netbox_sync/application/onboarding.py and its registry adapter)

    The request of the API, from the handoff of the tested credentials to the
    registered source: the onboarding service with the reservations of hosts, the
    service a continuation uses in its place, the completion of a registration and
    the route. The bootstrap worker, which alone talks to NetBox here, and the
    authentication service are other processes: what they answer is arbitrary. *)

From S2P Require Import Prelude Hoare PyValue SourceConfig Schema PyUuid PyBytes EsxiIdentity RunHistory SourceOperations Registry.
From S2P Require Import SourceLifecycle Retirement HostRegistration HostIdentity SecretBroker Onboarding RegistrationJobs.
From stdpp Require Import base list strings gmap relations.
From Stdlib Require Import ZArith Lia Ascii.
Local Open Scope string_scope.
#[local] Arguments py_eqb _ _ : simpl never.

(** ** Names of an installation (registration_namespace.py) *)

Definition hex_lower (c : ascii) : bool := is_digit c || in_range "a" "f" c.
Definition namespace_prefix (namespace : string) : result exn string :=
  if all_chars hex_lower namespace && Nat.eqb (String.length namespace) 32 then Ok ("n" +:+ namespace +:+ "-")
  else Err (ValueError "Invalid installation namespace").
Definition belongs (source namespace : string) : result exn bool :=
  prefix ← namespace_prefix namespace; Ok (String.prefix prefix source).
Definition new_source (provider namespace hex : string) : result exn string :=
  if negb (bool_decide (provider ∈ ["esxi"; "proxmox"])) then Err (ValueError "Invalid provider")
  else prefix ← (if bool_decide (namespace = "") then Ok "" else namespace_prefix namespace);
       Ok (prefix +:+ provider +:+ "-" +:+ take_chars 20 hex).

(** ** The service behind a registration *)

(** An operation of the API: a UUID or nothing. *)
Definition operation_value (id : option N) : pyval := match id with Some n => PStr (uuid_str n) | None => PNone end.

(** What the completion of a registration needs of [SourceOnboardingService] or of
    [StagedOnboarding]. *)
Record service := mkService {
  sv_outcome : string → pyval → string → OB string;
  sv_reserve : RegistrationCommand → pyval → string → option intent → OB unit;
  sv_guard : ∀ A : Type, RegistrationCommand → pyval → string → OB A → OB A;
  sv_intent : RegistrationCommand → pyval → string → intent → OB (option Onboarding.references);
  sv_check : RegistrationCommand → OB unit;
  sv_preview : string → OB pyval;
  sv_placement : pyval → string → OB unit;
  sv_register : RegistrationCommand → option Onboarding.references → OB SourceConfig }.

Section Service.
Context (dsn : bool) (schema_version : Z) (schema : string) (umask allowed_uid uid ttl : Z).
Context (urlsplit : string → result exn url).
(** Pydantic and [uuid5], as in [HostRegistration]; the advisory locks of other
    sessions. *)
Context (validate_request : pydict → result exn (pydict * string)) (uuid5_hex : string → string) (busy : contention).

(** [host_reservations()] and a transaction of it. *)
Definition reservations {A} (m : DB A) : OB A := open_registry dsn schema_version;; commit m.

Definition esxi_preview (preview : pyval) : bool := py_eqb (py_get "provider" preview) (PStr "esxi").

Definition check_provider_identity (preview : pyval) : OB unit :=
  if esxi_preview preview then reservations (check preview None PNone) else mret tt.
Definition adapter_reserve (preview : pyval) (source : string) (operation : pyval) (actor : string) (i : option intent) : OB unit :=
  if esxi_preview preview then reservations (reserve schema validate_request busy preview source operation actor i);; mret tt
  else mret tt.

(** The host guard around work on both stores. *)
Definition adapter_guard {A} (preview : pyval) (source : string) (operation : pyval) (actor : string) (body : OB A) : OB A :=
  if esxi_preview preview then
    open_registry dsn schema_version;;
    anchor ← lift (esxi_anchor preview);
    connected;;
    shared ← through_db (guard_locks schema busy anchor source);
    finally (through_db (guard_checks anchor source operation actor);; body)
      (λ w, set_db (release schema shared anchor (on_db w)) w)
  else body.

Definition check_registration_resume (preview : pyval) (source : string) (operation : pyval) (actor : string) : OB unit :=
  reservations (check preview (Some (source, operation)) (PStr actor)).
Definition adapter_intent (preview : pyval) (source : string) (operation : pyval) (actor : string) (i : intent) : OB (option Onboarding.references) :=
  if esxi_preview preview
  then refs ← reservations (bind_intent validate_request uuid5_hex preview source operation actor i); mret (Some refs)
  else mret None.
Definition pending_registrations (actor : string) : OB (list (string * string * option pydict * Z)) :=
  reservations (pending_requests validate_request actor).
Definition registration_outcome (source : string) (operation : pyval) (actor : string) : OB string :=
  reservations (outcome source operation actor).

(** [registration_admission]: the shared admission lock. *)
Definition registration_admission {A} (body : OB A) : OB A :=
  open_registry dsn schema_version;;
  connected;;
  raise_if (admission_busy busy) (host_conflict "HOST_REGISTRATION_RESERVED");;
  held ← gets (λ w, bool_decide (admission_key schema ∈ session_locks (on_db w)));
  modify (map_locks (λ l, {[admission_key schema]} ∪ l));;
  finally body (map_locks (λ l, if (held : bool) then l else l ∖ {[admission_key schema]})).

(** *** Handing credentials over *)

Definition test_connection (testers : string → option (PendingCredentials → OB unit)) (c : PendingCredentials) : OB string :=
  tester ← require (testers (pc_source_type c)) (OnboardingError "SOURCE_UNSUPPORTED");
  tester c;;
  issue ttl c PNone.

Definition needs_esxi_preview (source_type : string) (preview : pyval) : bool :=
  bool_decide (source_type = "esxi") && negb (truthy preview && esxi_preview preview).

Definition accept_checked_credentials (c : PendingCredentials) (preview : pyval) : OB string :=
  raise_if (needs_esxi_preview (pc_source_type c) preview) (host_conflict "HOST_IDENTITY_UNAVAILABLE");;
  check_provider_identity preview;;
  issue ttl c preview.

(** [{**preview, key: value}]. *)
Definition with_key (key : string) (value preview : pyval) : result exn pyval :=
  match preview with PDict p => Ok (PDict (dset key value p)) | _ => Err (TypeError "object is not a mapping") end.
Definition resume_binding (source : string) (operation : pyval) (actor : string) : pyval :=
  PDict [("source_instance", PStr source); ("registration_id", PStr (py_str operation)); ("actor_id", PStr actor)].

Definition accept_registration_resume (c : PendingCredentials) (preview : pyval) (source : string) (operation : pyval) (actor : string) : OB string :=
  raise_if (negb (bool_decide (pc_source_type c = "esxi"))) (host_conflict "HOST_REGISTRATION_INVALID");;
  lift (esxi_anchor preview);;
  check_registration_resume preview source operation actor;;
  bound ← lift (with_key "registration_resume" (resume_binding source operation actor) preview);
  issue ttl c bound.

Definition accept_recovery_credentials (c : PendingCredentials) (preview : pyval) (source : string) (expected : pyval) : OB string :=
  raise_if (negb (bool_decide (pc_source_type c = "esxi"))) (host_conflict "HOST_IDENTITY_UNAVAILABLE");;
  anchor ← lift (esxi_anchor preview);
  raise_if (negb (py_eqb (PStr anchor) expected)) (host_conflict "HOST_IDENTITY_UNAVAILABLE");;
  bound ← lift (with_key "recovery_source" (PStr source) preview);
  issue ttl c bound.

Definition take_recovery_credentials (token source : string) : OB PendingCredentials :=
  pending_recovery_review token source PNone;; consume token.

Definition create_recovery_secret (c : PendingCredentials) (plan : pyval) : OB unit :=
  key ← lift (py_item "credential_key" plan);
  operation ← lift (py_item "broker_operation" plan);
  receipt ← secret_create umask allowed_uid uid (py_str key) (pc_secret c) (Some (py_str operation));
  modify (forget [receipt]).

(** *** The service *)

Definition service_reserve (rq : RegistrationCommand) (operation : pyval) (actor : string) (i : option intent) : OB unit :=
  check_registration dsn schema_version rq;;
  check_legacy_placement dsn schema_version (PStr (rq_site_slug rq)) (rq_cluster_name rq);;
  preview ← pending_preview (rq_token rq);
  let resume := py_get "registration_resume" preview in
  raise_if (truthy resume && negb (py_eqb resume (resume_binding (rq_source_instance rq) operation actor))) token_invalid;;
  raise_if (needs_esxi_preview (rq_source_type rq) preview) (host_conflict "HOST_IDENTITY_UNAVAILABLE");;
  adapter_reserve preview (rq_source_instance rq) operation actor i.

Definition service_guard (A : Type) (rq : RegistrationCommand) (operation : pyval) (actor : string) (body : OB A) : OB A :=
  preview ← pending_preview (rq_token rq);
  adapter_guard preview (rq_source_instance rq) operation actor
    (check_legacy_placement dsn schema_version (PStr (rq_site_slug rq)) (rq_cluster_name rq);; body).

Definition service_intent (rq : RegistrationCommand) (operation : pyval) (actor : string) (i : intent) : OB (option Onboarding.references) :=
  preview ← pending_preview (rq_token rq); adapter_intent preview (rq_source_instance rq) operation actor i.

Definition base_service : service :=
  mkService registration_outcome service_reserve service_guard service_intent (check_registration dsn schema_version) pending_preview
    (check_legacy_placement dsn schema_version) (register dsn schema_version umask allowed_uid uid urlsplit).

(** [StagedOnboarding]: the reservation and the intent were stored before the
    credentials were staged. *)
Definition staged_guard (j : job) (A : Type) (rq : RegistrationCommand) (operation : pyval) (actor : string) (body : OB A) : OB A :=
  preview ← staged_preview j (rq_token rq); adapter_guard preview (rq_source_instance rq) operation actor body.
Definition staged_intent (j : job) (rq : RegistrationCommand) (operation : pyval) (actor : string) (i : intent) : OB (option Onboarding.references) :=
  preview ← staged_preview j (rq_token rq); adapter_intent preview (rq_source_instance rq) operation actor i.
Definition staged_service (j : job) : service :=
  mkService registration_outcome (λ _ _ _ _, mret tt) (staged_guard j) (staged_intent j) (staged_check dsn schema_version j) (staged_preview j)
    (check_legacy_placement dsn schema_version) (λ rq _, staged_register dsn schema_version j rq).
End Service.

(** ** The catalog client (api/catalog.py) *)

Section Catalog.
(** The bootstrap worker's response to a request over its socket. *)
Context (bootstrap : pyval → OB pydict).
Context (configured : bool).

Definition result_of_response (response : pydict) : result exn pyval := py_item "result" (PDict response).
Definition as_dict (v : pyval) : result exn pydict := match v with PDict d => Ok d | _ => Err (TypeError "object is not a mapping") end.
Definition as_text (v : pyval) : result exn string := match v with PStr t => Ok t | _ => Err (TypeError "unexpected value") end.
Definition as_list (v : pyval) : result exn (list pyval) := match v with PList l => Ok l | _ => Err (TypeError "unexpected value") end.

Definition catalog_call (payload : pyval) : OB pydict :=
  raise_if (negb configured) (CatalogError "UNAVAILABLE");;
  result ← catch (response ← bootstrap (PDict [("action", PStr "catalog"); ("query", payload)]); lift (result_of_response response))
             (λ e, raise (match e with ControlError _ => CatalogError "UNAVAILABLE" | _ => e end));
  d ← lift (as_dict result);
  raise_if (bool_decide ("error" ∈ dkeys d)) (CatalogError (py_str (dget "error" d)));;
  mret d.

Definition create_call (payload : pyval) : OB pydict :=
  result ← catch (response ← bootstrap payload; lift (result_of_response response))
             (λ e, raise (match e with
                          | ControlError code => CatalogError (if bool_decide (code ∈ ["BOOTSTRAP_BUSY"; "SOURCE_APPLY_ACTIVE"]) then "BUSY" else "UNAVAILABLE")
                          | _ => e
                          end));
  d ← lift (as_dict result);
  raise_if (negb (bool_decide ("status" ∈ dkeys d))) (CatalogError (py_str (default (PStr "UNAVAILABLE") (dlookup "error" d))));;
  mret d.

(** One reviewed selection: [dict(kind=kind, id=..., fingerprint=...)]. *)
Definition selection (kind : string) (row : pyval) : result exn pyval :=
  id ← attr_get "id" row; fingerprint ← attr_get "fingerprint" row;
  Ok (PDict [("kind", PStr kind); ("id", id); ("fingerprint", fingerprint)]).
Definition without_kind (row : pyval) : result exn pyval := d ← as_dict row; Ok (PDict (dpop "kind" d)).
Definition by_kind (row : pyval) : result exn (string * pyval) :=
  kind ← py_item "kind" row; k ← as_text kind; v ← without_kind row; Ok (k, v).

(** The selections name exactly the hosts of the preview. *)
Definition host_ids (preview : pyval) : result exn (list string) :=
  hosts ← py_item "hosts" preview; rows ← as_list hosts; mapR (λ row, id ← py_item "id" row; as_text id) rows.
Definition same_set (a b : list string) : bool := forallb (λ x, bool_decide (x ∈ b)) a && forallb (λ x, bool_decide (x ∈ a)) b.

Definition required_kinds (pending_cluster : bool) : list string :=
  (["site"; "platform"; "device_role"; "cluster_type"] ++ if pending_cluster then [] else ["cluster"])%list.

(** The cluster is of the selected type and in the selected site. *)
Definition scope_matches (refs : pydict) : result exn bool :=
  cluster ← py_item "cluster" (PDict refs);
  site ← py_item "site" (PDict refs);
  ctype ← py_item "cluster_type" (PDict refs);
  type ← attr_get "type" cluster;
  type_id ← (if truthy type then attr_get "id" type else Ok PNone);
  wanted ← py_item "id" ctype;
  if negb (py_eqb type_id wanted) then Ok false
  else
    scope ← attr_get "scope_type" cluster;
    if negb (py_eqb scope (PStr "dcim.site")) then Ok false
    else scope_id ← attr_get "scope_id" cluster; site_id ← py_item "id" site; Ok (py_eqb scope_id site_id).

Definition catalog_validate (refs types : pydict) (preview : pyval) (pending_cluster require_empty : bool) : OB pydict :=
  raise_if (negb (same_set (dkeys refs) (required_kinds pending_cluster)) || negb (truthy preview)) (CatalogError "SELECTION_REQUIRED");;
  hosts ← lift (host_ids preview);
  raise_if (negb (same_set (dkeys types) hosts)) (CatalogError "HOST_MAPPING_REQUIRED");;
  chosen ← lift (mapR (λ kv, selection kv.1 kv.2) refs);
  typed ← lift (mapR (λ kv, selection "device_type" kv.2) types);
  empty ← lift (if require_empty && negb pending_cluster
                then cluster ← py_item "cluster" (PDict refs); id ← py_item "id" cluster; Ok [("empty_cluster_id", id)] else Ok []);
  answer ← catalog_call (PDict (("action", PStr "validate") :: ("selections", PList (chosen ++ typed)%list) :: empty));
  checked ← lift (v ← py_item "selections" (PDict answer); as_list v);
  crefs ← lift (mapR by_kind (take (length refs) checked));
  ctypes ← lift (mapR (λ p, v ← without_kind p.2; Ok (p.1, v)) (zip (dkeys types) (drop (length refs) checked)));
  let crefs := dupdate [] crefs in
  hosts_list ← lift (py_item "hosts" preview);
  let mapping := [("version", PInt 1); ("references", PDict crefs); ("host_types", PDict ctypes); ("hosts", hosts_list)] in
  if pending_cluster then mret mapping
  else ok ← lift (scope_matches crefs);
       raise_if (negb ok) (CatalogError "CLUSTER_SCOPE_MISMATCH");;
       mret mapping.
End Catalog.

(** ** Completing a registration *)

Section Completing.
Context (dsn : bool) (schema_version : Z) (schema : string) (busy : contention).
Context (sha256 : string → string) (urlsplit : string → result exn url).
Context (bootstrap : pyval → OB pydict) (configured injected : bool).
(** [uuid5(UUID("b6c311eb-..."), name)] and the settings. *)
Context (cluster_uuid5 : string → string) (source_namespace default_site_slug : string).

(** [namespace-check]: the namespace of the source is not closed. *)
Definition namespace_open (source : string) : OB unit :=
  state ← catch (response ← bootstrap (PDict [("action", PStr "namespace-check"); ("source_instance", PStr source)]);
                 lift (result_of_response response))
            (λ e, raise (match e with
                         | ControlError code => host_conflict (if bool_decide (code = "RETIREMENT_GUARD_CHANGED")
                                                               then "HOST_INTEGRATION_UPGRADE_REQUIRED" else "HOST_INTEGRATION_UNAVAILABLE")
                         | _ => e
                         end));
  d ← lift (match state with PDict d => Ok d | _ => Err attribute_error end);
  raise_if (negb (py_eqb (dget "source_instance" d) (PStr source)) || negb match dget "closed" d with PBool _ => true | _ => false end)
    (host_conflict "HOST_REGISTRATION_INVALID");;
  raise_if (truthy (dget "closed" d)) (host_conflict "HOST_SOURCE_CLOSED").

(** Only a stored attempt of the actor may keep a foreign namespace. *)
Definition namespace_admitted (outcome_of : OB string) (source : string) : OB unit :=
  if bool_decide (source_namespace = "") then mret tt
  else own ← lift (belongs source source_namespace);
       if (own : bool) then mret tt
       else status ← outcome_of; raise_if (negb (bool_decide (status = "OUTCOME_UNCERTAIN"))) (host_conflict "HOST_REGISTRATION_INVALID").

Definition set_placement (r : RegistrationRequest) (refs types : pydict) (create : bool) (cluster : string) : RegistrationRequest :=
  mkRequest (rr_token r) (rr_source_type r) (rr_source_instance r) (rr_name r) (rr_address r) (rr_verify_ssl r) (rr_port r) (rr_interval r)
    (rr_site_slug r) cluster (rr_platform_slug r) (rr_device_role_slug r) (rr_device_type_slug r) (rr_cluster_type_slug r)
    refs types create (rr_automatic_placement r) (rr_registration_id r).
Definition set_slugs (r : RegistrationRequest) (site cluster platform role ctype dtype : string) : RegistrationRequest :=
  mkRequest (rr_token r) (rr_source_type r) (rr_source_instance r) (rr_name r) (rr_address r) (rr_verify_ssl r) (rr_port r) (rr_interval r)
    site cluster platform role dtype ctype (rr_references r) (rr_host_types r) (rr_create_cluster r) (rr_automatic_placement r)
    (rr_registration_id r).

Section Steps.
Context (sv : service) (actor : string) (receipt_check receipt_consume : OB unit) (i : intent).

Definition request_operation (r : RegistrationRequest) : pyval := operation_value (rr_registration_id r).
Definition rebind (r : RegistrationRequest) : OB (option Onboarding.references) :=
  sv_intent sv (command r []) (request_operation r) actor i.
Definition cluster_operation (r : RegistrationRequest) : string :=
  cluster_uuid5 (actor +:+ ":" +:+ rr_source_instance r +:+ ":" +:+ py_str (request_operation r)).

Definition nested_id (v : pyval) : result exn pyval := if truthy v then attr_get "id" v else Ok PNone.

(** The outcome of an earlier creation is the resolved cluster. *)
Definition proves_cluster (outcome resolved : pydict) : result exn bool :=
  if negb (py_eqb (dget "status" outcome) (PStr "CREATED")) then Ok false
  else match dget "item" outcome with
       | PDict item =>
           refs ← py_item "references" (PDict resolved); cluster ← attr_get "cluster" refs; id ← nested_id cluster;
           Ok (py_eqb (dget "id" item) id)
       | _ => Ok false
       end.

(** [any(i["kind"] == "cluster" for i in issues)]. *)
Fixpoint cluster_issue (issues : list pyval) : result exn bool :=
  match issues with
  | [] => Ok false
  | x :: rest => kind ← py_item "kind" x; if py_eqb kind (PStr "cluster") then Ok true else cluster_issue rest
  end.

(** [if request.automatic_placement]. *)
Definition resolve_placement (r : RegistrationRequest) : OB RegistrationRequest :=
  receipt_check;;
  sv_check sv (command r []);;
  preview ← sv_preview sv (rr_token r);
  raise_if (negb (truthy preview) || bool_decide (rr_registration_id r = None)) (CatalogError "SELECTION_REQUIRED");;
  hosts ← lift (py_item "hosts" preview);
  site_id ← lift (nested_id (dget "site" (rr_references r)));
  resolved ← catalog_call bootstrap configured
    (PDict [("action", PStr "resolve-placement"); ("provider", PStr (rr_source_type r)); ("hosts", hosts); ("name", PStr (rr_name r));
            ("host_types", PDict (rr_host_types r)); ("site_id", site_id); ("default_site_slug", PStr default_site_slug)]);
  refs ← lift (attr_get_or "references" (PDict []) (PDict resolved));
  site ← lift (attr_get_or "site" (PDict []) refs);
  slug ← lift (attr_get "slug" site);
  (if truthy slug then sv_placement sv slug (rr_name r) else mret tt);;
  issues ← lift (py_item "issues" (PDict resolved));
  (if truthy issues
   then rows ← lift (py_iter issues); cluster ← lift (cluster_issue rows);
        raise (CatalogError (if (cluster : bool) then "CLUSTER_REVIEW_REQUIRED" else "SELECTION_REQUIRED"))
   else mret tt);;
  create ← lift (py_item "create_cluster" (PDict resolved));
  (if rr_create_cluster r && negb (truthy create)
   then rebind r;;
        outcome ← create_call bootstrap (PDict [("action", PStr "catalog-reconcile"); ("operation_id", PStr (cluster_operation r))]);
        proved ← lift (proves_cluster outcome resolved);
        raise_if (negb proved) uncertain
   else mret tt);;
  nrefs ← lift (v ← py_item "references" (PDict resolved); as_dict v);
  ntypes ← lift (v ← py_item "host_types" (PDict resolved); as_dict v);
  mret (set_placement r nrefs ntypes (truthy create) (rr_name r)).

(** [if request.create_cluster]. *)
Definition create_cluster (r : RegistrationRequest) : OB RegistrationRequest :=
  receipt_check;;
  sv_check sv (command r []);;
  preview ← sv_preview sv (rr_token r);
  pending ← catalog_validate bootstrap configured (rr_references r) (rr_host_types r) preview true false;
  rebind r;;
  refs ← lift (v ← py_item "references" (PDict pending); as_dict v);
  site_id ← lift (v ← py_item "site" (PDict refs); py_item "id" v);
  type_id ← lift (v ← py_item "cluster_type" (PDict refs); py_item "id" v);
  outcome ← catch (create_call bootstrap
      (PDict [("action", PStr "registration-cluster"); ("operation_id", PStr (cluster_operation r)); ("name", PStr (rr_name r));
              ("source_instance", PStr (rr_source_instance r)); ("site_id", site_id); ("cluster_type_id", type_id)]))
    (λ e, raise (if bool_decide (e = CatalogError "UNAVAILABLE") then uncertain else e));
  let status := dget "status" outcome in
  raise_if (py_eqb status (PStr "UNCERTAIN")) uncertain;;
  raise_if (py_eqb status (PStr "REFUSED")) (CatalogError (py_str (default (PStr "SELECTION_REQUIRED") (dlookup "error" outcome))));;
  raise_if (negb (py_eqb status (PStr "CREATED")) || negb (truthy (dget "item" outcome))) (CatalogError "CLUSTER_REVIEW_REQUIRED");;
  mret (set_placement r (dset "cluster" (dget "item" outcome) refs) (rr_host_types r) (rr_create_cluster r) (rr_cluster_name r)).

Definition slug_of (refs : pydict) (kind : string) : result exn string := v ← py_item kind (PDict refs); s ← py_item "slug" v; as_text s.

(** The reviewed placement, validated again, gives the slugs of the request. *)
Definition reviewed_mapping (r : RegistrationRequest) : OB (RegistrationRequest * pydict) :=
  preview ← sv_preview sv (rr_token r);
  mapping ← catalog_validate bootstrap configured (rr_references r) (rr_host_types r) preview false true;
  refs ← lift (v ← py_item "references" (PDict mapping); as_dict v);
  types ← lift (v ← py_item "host_types" (PDict mapping); as_dict v);
  cluster ← lift (v ← py_item "cluster" (PDict refs); py_item "name" v);
  raise_if (negb (py_eqb cluster (PStr (rr_name r)))) (CatalogError "CLUSTER_REVIEW_REQUIRED");;
  site ← lift (slug_of refs "site");
  platform ← lift (slug_of refs "platform");
  role ← lift (slug_of refs "device_role");
  ctype ← lift (slug_of refs "cluster_type");
  first ← require (head types) (OtherException "StopIteration" None);
  dtype ← lift (s ← py_item "slug" first.2; as_text s);
  mret (set_slugs r site (rr_name r) platform role ctype dtype, mapping).

(** The [try] block: placement, intent, receipt and registration. *)
Definition finish (r : RegistrationRequest) : OB RegistrationRequest :=
  usable ← (if bool_decide (rr_references r = []) && bool_decide (rr_host_types r = [])
            then preview ← sv_preview sv (rr_token r); mret (truthy preview) else mret true);
  placed ← (if (usable : bool) then reviewed_mapping r
            else raise_if (negb injected) (CatalogError "SELECTION_REQUIRED");; mret (r, []));
  registration ← rebind placed.1;
  receipt_consume;;
  sv_register sv (command placed.1 (dset "ip_conflict_policy" (PStr "observe") placed.2)) registration;;
  lift (public_view urlsplit (command placed.1 []));;
  mret placed.1.

Definition effects (r : RegistrationRequest) : OB RegistrationRequest :=
  rebind r;;
  r1 ← (if rr_automatic_placement r then resolve_placement r else mret r);
  r2 ← (if rr_create_cluster r1 then create_cluster r1 else mret r1);
  catch (finish r2) (λ e, raise (if rr_create_cluster r2 then OnboardingError "REGISTRATION_CLUSTER_RETAINED" else e)).
End Steps.

Definition complete_registration (sv : service) (r : RegistrationRequest) (actor : string) (receipt_check receipt_consume : OB unit) :
    OB RegistrationRequest :=
  registration_admission dsn schema_version schema busy (
    (if injected then mret tt else namespace_open (rr_source_instance r));;
    namespace_admitted (sv_outcome sv (rr_source_instance r) (request_operation r) actor) (rr_source_instance r);;
    fingerprint ← lift (intent_fingerprint sha256 r);
    durable ← lift (durable_request r);
    let i := mkIntentRequest fingerprint (Some durable) in
    receipt_check;;
    sv_reserve sv (command r []) (request_operation r) actor (Some i);;
    sv_guard sv _ (command r []) (request_operation r) actor (effects sv actor receipt_check receipt_consume i r)).
End Completing.

(** ** The route *)

Section Route.
Context (dsn : bool) (schema_version : Z) (schema : string) (umask allowed_uid uid : Z) (busy : contention).
Context (sha256 : string → string) (urlsplit : string → result exn url).
Context (validate_request : pydict → result exn (pydict * string)) (uuid5_hex cluster_uuid5 : string → string).
Context (parse : pydict → result exn RegistrationRequest).
Context (bootstrap : pyval → OB pydict) (configured : bool) (source_namespace default_site_slug : string).

Abbreviation service_of_job := (staged_service dsn schema_version schema validate_request uuid5_hex busy).
Abbreviation own_service := (base_service dsn schema_version schema umask allowed_uid uid urlsplit validate_request uuid5_hex busy).

(** The completion the continuation calls: no receipt to check or to consume. *)
Definition completion (r : RegistrationRequest) (j : job) : OB RegistrationRequest :=
  complete_registration dsn schema_version schema busy sha256 urlsplit bootstrap configured false cluster_uuid5 source_namespace default_site_slug
    (service_of_job j) r (job_actor j.2) (mret tt) (mret tt).

(** The attestation over the lifecycle socket: any failure there is a
    [ControlError]. *)
Definition attest_registration (j : job) : OB bool :=
  event ← next_net;
  match event with
  | Answered =>
      catch (attest_job uuid5_hex umask allowed_uid j) (λ e, raise (match e with ControlError _ => e | _ => ControlError "CONTROL_UNAVAILABLE" end))
  | ReplyLost => attempt (attest_job uuid5_hex umask allowed_uid j);; raise (ControlError "CONTROL_UNAVAILABLE")
  | _ => raise (ControlError "CONTROL_UNAVAILABLE")
  end.

Definition same_intent (r : RegistrationRequest) (j : job_row) : result exn bool :=
  request ← py_item "request" (PDict (job_payload j));
  d ← as_dict request;
  original ← model_validate urlsplit parse (dset "onboarding_token" (PStr "xxxxxxxxxxxxxxxxxxxxxxxxxxxxxxxx") d);
  a ← intent_fingerprint sha256 original;
  b ← intent_fingerprint sha256 r;
  Ok (bool_decide (a = b)).

(** The final confirmation: reserve, consume the receipt and the credentials, and
    store the job with its secrets. *)
Definition approve_registration (r : RegistrationRequest) (actor : string) (receipt_check receipt_consume : OB unit) : OB unit :=
  receipt_check;;
  check_registration dsn schema_version (command r []);;
  preview ← pending_preview (rr_token r);
  registration_admission dsn schema_version schema busy (
    namespace_admitted source_namespace
      (registration_outcome dsn schema_version (rr_source_instance r) (request_operation r) actor) (rr_source_instance r);;
    namespace_open bootstrap (rr_source_instance r);;
    fingerprint ← lift (intent_fingerprint sha256 r);
    durable ← lift (durable_request r);
    service_reserve dsn schema_version schema validate_request busy (command r []) (request_operation r) actor
      (Some (mkIntentRequest fingerprint (Some durable)));;
    service_guard dsn schema_version schema busy unit (command r []) (request_operation r) actor (
      receipt_consume;;
      credentials ← consume (rr_token r);
      j ← begin uuid5_hex r actor preview (pc_username credentials);
      stage umask allowed_uid uid j credentials)).

Definition text_option (id : option N) : option string := uuid_str <$> id.

(** [POST /sources] where jobs are configured. *)
Definition register_source (r : RegistrationRequest) (actor : string) (receipt_check receipt_consume : OB unit) : OB unit :=
  job_guard schema (rr_source_instance r) (
    saved ← get_job (rr_source_instance r) (text_option (rr_registration_id r)) (Some actor);
    match saved with
    | Some j => same ← lift (same_intent r j); raise_if (negb same) intent_changed
    | None => mret tt
    end;;
    (if match saved with Some j => bool_decide (job_state j = JOB_STAGING) | None => true end
     then approve_registration r actor receipt_check receipt_consume else mret tt);;
    current ← get_job (rr_source_instance r) (text_option (rr_registration_id r)) (Some actor);
    j ← require current (TypeError "'NoneType' object is not subscriptable");
    registered ← run dsn schema_version urlsplit parse completion attest_registration (rr_source_instance r, j);
    match registered with inl _ => lift (public_view urlsplit (command r [])) | inr _ => mret tt end).

(** Where they are not, the registration is completed at once. *)
Definition register_directly (injected : bool) (r : RegistrationRequest) (actor : string) (receipt_check receipt_consume : OB unit) : OB RegistrationRequest :=
  complete_registration dsn schema_version schema busy sha256 urlsplit bootstrap configured injected cluster_uuid5 source_namespace default_site_slug
    own_service r actor receipt_check receipt_consume.
End Route.

(** ** What a completion may do to the stores *)

Definition still (d d' : db) : Prop := sources d' = sources d ∧ registration_jobs d' = registration_jobs d.
#[export] Instance still_preorder : PreOrder still.
Proof. split; [done|]. intros x y z [] []. split; congruence. Qed.

Lemma through_db_steady {A} (m : DB A) w : moves still m (on_db w) → moves steady (through_db m) w.
Proof.
  unfold moves, through_db. destruct (m (on_db w)) as [r d]. simpl. intros [S J]. split_and!; [done|done|]. intros k. simpl. by rewrite S.
Qed.
Lemma commit_steady {A} (m : DB A) w : (∀ d, moves still m d) → moves steady (commit m) w.
Proof.
  intros Hm. unfold commit. apply (moves_bind steady); [apply rests_moves_steady, link_rests|]. intros [] w1 _.
  - by apply through_db_steady.
  - moves.
  - apply (moves_bind steady); [by apply through_db_steady|]. intros. moves.
Qed.

Lemma clock_still d : moves still clock_timestamp d.
Proof. done. Qed.

Section Still.
Context (schema : string) (validate_request : pydict → result exn (pydict * string)) (uuid5_hex : string → string) (busy : contention).

Lemma insert_intent_still source row d : moves still (insert_intent source row) d.
Proof using Type. unfold insert_intent. db_moves; done. Qed.
Lemma check_intent_still f r d : moves still (check_intent validate_request f r) d.
Proof using Type. unfold check_intent. db_moves. Qed.
Lemma bind_intent_row_still anchor source operation actor i d : moves still (bind_intent_row anchor source operation actor i) d.
Proof using Type.
  unfold bind_intent_row. apply (moves_bind still); [moves|]. intros. apply (moves_bind still); [moves|]. intros.
  apply (moves_bind still); [apply insert_intent_still|]. intros. moves.
Qed.
Lemma bind_intent_still preview source operation actor i d :
  moves still (bind_intent validate_request uuid5_hex preview source operation actor i) d.
Proof using Type.
  unfold bind_intent, as_uuid. apply (moves_bind still); [apply check_intent_still|]. intros. moves. apply bind_intent_row_still.
Qed.
Lemma outcome_still source operation actor d : moves still (outcome source operation actor) d.
Proof using Type. unfold outcome, as_uuid. moves. Qed.
Lemma guard_locks_still anchor source d : moves still (guard_locks schema busy anchor source) d.
Proof using Type. unfold guard_locks. moves. done. Qed.
Lemma reserve_still preview source operation actor i d : moves still (reserve schema validate_request busy preview source operation actor i) d.
Proof using Type.
  unfold reserve, as_uuid, bind_intent_inside, insert_reservation. db_moves; try done.
  all: try (apply reserve_locks_reads, _); try (apply admit_anchor_reads, _); try apply check_intent_still; try apply bind_intent_row_still.
Qed.
End Still.

(** The worker behind the bootstrap socket and the authentication service have
    access to neither store. *)
Class Outside {A} (m : OB A) : Prop := outside_rests w : moves rests m w.
#[export] Instance outside_ret {A} (a : A) : Outside (mret a).
Proof. intros w. moves. Qed.

(** A service whose operations keep the stores, apart from the row it registers. *)
Record tame (sv : service) : Prop := {
  tame_outcome source operation actor w : moves steady (sv_outcome sv source operation actor) w;
  tame_reserve rq operation actor i w : moves steady (sv_reserve sv rq operation actor i) w;
  tame_intent rq operation actor i w : moves steady (sv_intent sv rq operation actor i) w;
  tame_check rq w : moves steady (sv_check sv rq) w;
  tame_preview token w : moves steady (sv_preview sv token) w;
  tame_placement site cluster w : moves steady (sv_placement sv site cluster) w;
  tame_register rq registration z w res w' :
    rq_interval rq = PInt z → sv_register sv rq registration w = (res, w') →
    steady w w' ∧ ∀ c, res = Ok c → is_Some (sources (on_db w') !! rq_source_instance rq);
  tame_guard A rq operation actor (body : OB A) w :
    (∀ w1, moves steady body w1) → moves steady (sv_guard sv A rq operation actor body) w;
  tame_guarded A rq operation actor (body : OB A) w a w' :
    sv_guard sv A rq operation actor body w = (Ok a, w') → ∃ w1 w2, body w1 = (Ok a, w2) ∧ steady w2 w' }.

Section Tame.
Context (dsn : bool) (schema_version : Z) (schema : string) (busy : contention).
Context (validate_request : pydict → result exn (pydict * string)) (uuid5_hex : string → string).

Lemma open_steady w : moves steady (open_registry dsn schema_version) w.
Proof using Type. apply rests_moves_steady, open_registry_rests. Qed.
Lemma find_steady source w : moves steady (Onboarding.find dsn schema_version source) w.
Proof using Type. apply rests_moves_steady, find_rests. Qed.
Hint Resolve open_steady find_steady : moves.

Lemma reservations_steady {A} (m : DB A) w : (∀ d, moves still m d) → moves steady (reservations dsn schema_version m) w.
Proof using Type. intros Hm. unfold reservations. moves. by apply commit_steady. Qed.

Lemma adapter_intent_steady preview source operation actor i w :
  moves steady (adapter_intent dsn schema_version validate_request uuid5_hex preview source operation actor i) w.
Proof using Type. unfold adapter_intent. moves. apply reservations_steady, bind_intent_still. Qed.

(** The host guard and the admission around a body, for every relation that allows
    what they do themselves. *)
Lemma adapter_guard_moves (R : relation station) `{!PreOrder R} {A} preview source operation actor (body : OB A) w :
  (∀ x y, steady x y → R x y) → (∀ w1, moves R body w1) →
  moves R (adapter_guard dsn schema_version schema busy preview source operation actor body) w.
Proof using Type.
  intros HR Hb. unfold adapter_guard. apply (moves_if R); intros _; [|apply Hb].
  apply (moves_bind R); [apply HR, open_steady|intros ? ? _]. apply (moves_bind R); [moves|intros ? ? _].
  apply (moves_bind R); [apply HR, connected_steady|intros ? ? _].
  apply (moves_bind R); [apply HR, through_db_steady, guard_locks_still|intros ? ? _].
  apply (moves_finally R); [|intros; by apply HR].
  apply (moves_bind R); [apply HR, through_db_steady, guard_checks_reads, _|]. intros. apply Hb.
Qed.
Lemma admission_moves (R : relation station) `{!PreOrder R} {A} (body : OB A) w :
  (∀ x y, steady x y → R x y) → (∀ w1, moves R body w1) → moves R (registration_admission dsn schema_version schema busy body) w.
Proof using Type.
  intros HR Hb. unfold registration_admission. apply (moves_bind R); [apply HR, open_steady|intros ? ? _].
  apply (moves_bind R); [apply HR, connected_steady|intros ? ? _]. moves; [apply HR, locks_steady|].
  apply (moves_finally R); [apply Hb|intros; apply HR, locks_steady].
Qed.

Lemma adapter_guarded {A} preview source operation actor (body : OB A) w a w' :
  adapter_guard dsn schema_version schema busy preview source operation actor body w = (Ok a, w') →
  ∃ w1 w2, body w1 = (Ok a, w2) ∧ steady w2 w'.
Proof using Type.
  unfold adapter_guard. destruct (esxi_preview preview); [|intros H; by exists w, w'].
  intros H. do 4 (apply bind_Ok in H as (? & ? & _ & H)). apply finally_cases in H as (w2 & H & ->).
  apply bind_Ok in H as ([] & w1 & _ & H). by exists w1, w2.
Qed.

Lemma staged_preview_steady j token w : moves steady (staged_preview j token) w.
Proof using Type. unfold staged_preview. moves. Qed.
Hint Resolve staged_preview_steady : moves.
Lemma placement_steady site cluster w : moves steady (check_legacy_placement dsn schema_version site cluster) w.
Proof using Type. unfold check_legacy_placement. moves. Qed.

Lemma staged_tame j : tame (staged_service dsn schema_version schema validate_request uuid5_hex busy j).
Proof using Type.
  split; intros; unfold staged_service in *; cbn [sv_outcome sv_reserve sv_intent sv_check sv_preview sv_placement sv_register sv_guard] in *.
  - apply reservations_steady, outcome_still.
  - moves.
  - unfold staged_intent. moves. apply adapter_intent_steady.
  - unfold staged_check. moves.
  - apply staged_preview_steady.
  - apply placement_steady.
  - match goal with H : staged_register _ _ _ _ _ = _ |- _ => by eapply staged_register_spec in H end.
  - unfold staged_guard. moves. by apply (adapter_guard_moves steady).
  - match goal with H : staged_guard _ _ _ _ _ _ _ _ _ _ _ = _ |- _ => unfold staged_guard in H; apply bind_Ok in H as (p & w1 & _ & H) end.
    by eapply adapter_guarded.
Qed.
End Tame.

Section Completes.
Context (dsn : bool) (schema_version : Z) (schema : string) (busy : contention).
Context (sha256 : string → string) (urlsplit : string → result exn url).
Context (bootstrap : pyval → OB pydict) (configured injected : bool).
Context (cluster_uuid5 : string → string) (source_namespace default_site_slug : string).
Context `{Hout : !∀ m, Outside (bootstrap m)}.
Context (sv : service) (Htame : tame sv) (actor : string) (receipt_check receipt_consume : OB unit).
Context `{!Outside receipt_check} `{!Outside receipt_consume}.

Lemma outside_steady {A} (m : OB A) `{!Outside m} w : moves steady m w.
Proof using Type. apply rests_moves_steady, outside_rests. Qed.

Ltac tamed := solve [ apply outside_steady, _ | apply (tame_outcome sv Htame) | apply (tame_reserve sv Htame) | apply (tame_intent sv Htame)
                    | apply (tame_check sv Htame) | apply (tame_preview sv Htame) | apply (tame_placement sv Htame) | eauto with moves ].
(** Through a step of the completion. *)
Ltac flow := repeat first [ moves_step | tamed | apply (moves_catch steady); [|intros]
                          | match goal with |- moves _ (match ?x with _ => _ end) _ => destruct x end ].

Lemma catalog_call_steady payload w : moves steady (catalog_call bootstrap configured payload) w.
Proof using Hout. unfold catalog_call. flow. Qed.
Lemma create_call_steady payload w : moves steady (create_call bootstrap payload) w.
Proof using Hout. unfold create_call. flow. Qed.
Hint Resolve catalog_call_steady create_call_steady : moves.
Lemma catalog_validate_steady refs types preview p e w : moves steady (catalog_validate bootstrap configured refs types preview p e) w.
Proof using Hout. unfold catalog_validate. flow. Qed.
Hint Resolve catalog_validate_steady : moves.

Lemma resolve_placement_steady i r w :
  moves steady (resolve_placement bootstrap configured cluster_uuid5 default_site_slug sv actor receipt_check i r) w.
Proof using Type*. unfold resolve_placement, rebind. flow. Qed.
Lemma create_cluster_steady i r w : moves steady (create_cluster bootstrap configured cluster_uuid5 sv actor receipt_check i r) w.
Proof using Type*. unfold create_cluster, rebind. flow. Qed.
Lemma reviewed_mapping_steady r w : moves steady (reviewed_mapping bootstrap configured sv r) w.
Proof using Type*. unfold reviewed_mapping. flow. Qed.
Hint Resolve resolve_placement_steady create_cluster_steady reviewed_mapping_steady : moves.

(** *** The request keeps its source *)

Definition anything {A} : A → station → Prop := λ _ _, True.
Lemma hoare_anything {A} P (m : OB A) : hoare P m anything anything.
Proof using Type. intros w _. by destruct (m w) as [[] ?]. Qed.
Ltac yields :=
  repeat match goal with |- hoare _ (_ ≫= _) _ _ => apply (hoare_bind _ _ _ anything); [apply hoare_anything|intros ?; cbn beta] end;
  apply hoare_ret; by intros.

Lemma resolve_placement_source i r :
  hoare (λ _ : station, True) (resolve_placement bootstrap configured cluster_uuid5 default_site_slug sv actor receipt_check i r)
    (λ r' _, rr_source_instance r' = rr_source_instance r) anything.
Proof using Type. unfold resolve_placement. yields. Qed.
Lemma create_cluster_source i r :
  hoare (λ _ : station, True) (create_cluster bootstrap configured cluster_uuid5 sv actor receipt_check i r)
    (λ r' _, rr_source_instance r' = rr_source_instance r) anything.
Proof using Type. unfold create_cluster. yields. Qed.
Lemma reviewed_mapping_source r :
  hoare (λ _ : station, True) (reviewed_mapping bootstrap configured sv r) (λ p _, rr_source_instance p.1 = rr_source_instance r) anything.
Proof using Type. unfold reviewed_mapping. yields. Qed.

(** *** Registering *)

(** A first statement that keeps the stores. *)
Lemma steady_bind {A B} (m : OB A) (k : A → OB B) w res w' :
  (m ≫= k) w = (res, w') → moves steady m w →
  (steady w w' ∧ ∃ e, res = Err e) ∨ ∃ a w1, m w = (Ok a, w1) ∧ steady w w1 ∧ k a w1 = (res, w').
Proof using Type.
  intros H Hm. apply bind_cases in H as [(e & H & ->)|(a & w1 & H1 & H)].
  - left. split; [|eauto]. by apply (moves_end steady _ _ _ _ Hm H).
  - right. exists a, w1. split_and!; [done|by apply (moves_end steady _ _ _ _ Hm H1)|done].
Qed.

(** The stores are kept; if the whole succeeds, so does the row. *)
Definition registers (source : string) {A} (w : station) (res : result exn A) (w' : station) : Prop :=
  steady w w' ∧ ((∃ a, res = Ok a) → is_Some (sources (on_db w') !! source)).

Lemma registers_after source {A B} (m : OB A) (k : A → OB B) w res w' :
  (m ≫= k) w = (res, w') → moves steady m w →
  (∀ a w1, m w = (Ok a, w1) → k a w1 = (res, w') → registers source w1 res w') → registers source w res w'.
Proof using Type.
  intros H Hm Hk. apply steady_bind in H as [[S [e ->]]|(a & w1 & H1 & S1 & H)]; [split; [done|intros [? E0]; discriminate E0]| |done].
  destruct (Hk a w1 H1 H) as [S2 Hr]. split; [by transitivity w1|done].
Qed.

Lemma finish_spec i r w res w' :
  finish urlsplit bootstrap configured injected sv actor receipt_consume i r w = (res, w') → registers (rr_source_instance r) w res w'.
Proof using Type*.
  unfold finish. intros H. eapply registers_after; [exact H|flow|]. clear H. intros usable w1 _ H.
  eapply registers_after; [exact H|flow|]. clear H. intros [r1 mapping] w2 H2 H.
  assert (rr_source_instance r1 = rr_source_instance r) as <-.
  { destruct usable; [|apply bind_Ok in H2 as ([] & ? & _ & [[= -> _] _]%ret_Ok); done].
    by apply (hoare_run (λ _ : station, True) _ _ _ _ _ _ (reviewed_mapping_source r)) in H2. }
  clear H2. unfold rebind in H. eapply registers_after; [exact H|tamed|]. clear H. intros registration w3 _ H.
  eapply registers_after; [exact H|tamed|]. clear H. intros [] w4 _ H.
  apply bind_cases in H as [(e & H & ->)|(c & w5 & H5 & H)].
  { apply (tame_register sv Htame _ _ (rr_interval r1)) in H as [H _]; [|done]. split; [done|intros [? E0]; discriminate E0]. }
  apply (tame_register sv Htame _ _ (rr_interval r1)) in H5 as [S5 Hreg]; [|done].
  assert (w' = w5) as -> by (apply bind_cases in H as [(e & [= _ <-] & _)|([] & w6 & [_ ->]%lift_Ok & [= _ <-])]; done).
  split; [done|]. intros _. by eapply Hreg.
Qed.

Lemma effects_spec i r w res w' :
  effects urlsplit bootstrap configured injected cluster_uuid5 default_site_slug sv actor receipt_check receipt_consume i r w = (res, w') →
  registers (rr_source_instance r) w res w'.
Proof using Type*.
  unfold effects, rebind. intros H. eapply registers_after; [exact H|tamed|]. clear H. intros refs w1 _ H.
  eapply registers_after; [exact H|flow|]. clear H. intros r1 w2 H1 H.
  assert (rr_source_instance r1 = rr_source_instance r) as <-.
  { destruct (rr_automatic_placement r); [|by apply ret_Ok in H1 as [-> _]].
    by apply (hoare_run (λ _ : station, True) _ _ _ _ _ _ (resolve_placement_source i r)) in H1. }
  eapply registers_after; [exact H|flow|]. clear H H1. intros r2 w3 H2 H.
  assert (rr_source_instance r2 = rr_source_instance r1) as <-.
  { destruct (rr_create_cluster r1); [|by apply ret_Ok in H2 as [-> _]].
    by apply (hoare_run (λ _ : station, True) _ _ _ _ _ _ (create_cluster_source i r1)) in H2. }
  unfold catch in H. destruct (finish _ _ _ _ _ _ _ _ r2 w3) as [[r3|e] w4] eqn:E; injection H as <- <-; apply finish_spec in E as [S Hreg].
  - split; [done|]. intros _. apply Hreg. eauto.
  - split; [done|]. intros [? E0]; discriminate E0.
Qed.

Lemma namespace_open_steady source w : moves steady (namespace_open bootstrap source) w.
Proof using Hout. unfold namespace_open. flow. Qed.
Hint Resolve namespace_open_steady : moves.

Lemma admission_registers source {A} (body : OB A) w res w' :
  registration_admission dsn schema_version schema busy body w = (res, w') →
  (∀ w1 res1 w2, body w1 = (res1, w2) → registers source w1 res1 w2) → registers source w res w'.
Proof using Type.
  unfold registration_admission. intros H Hb.
  eapply registers_after; [exact H|apply open_steady|]. clear H. intros [] w1 _ H.
  eapply registers_after; [exact H|apply connected_steady|]. clear H. intros [] w2 _ H.
  eapply registers_after; [exact H|moves|]. clear H. intros [] w3 _ H.
  eapply registers_after; [exact H|moves|]. clear H. intros held w4 _ H.
  eapply registers_after; [exact H|apply (moves_modify steady), locks_steady|]. clear H. intros [] w5 _ H.
  apply finally_cases in H as (w6 & H & ->). apply Hb in H as [S Hr]. split; [|done].
  etransitivity; [exact S|apply locks_steady].
Qed.

Lemma complete_registration_spec r w res w' :
  complete_registration dsn schema_version schema busy sha256 urlsplit bootstrap configured injected cluster_uuid5 source_namespace
    default_site_slug sv r actor receipt_check receipt_consume w = (res, w') → registers (rr_source_instance r) w res w'.
Proof using Type*.
  intros H. refine (admission_registers _ _ _ _ _ H _). clear w res w' H. intros w res w' H.
  eapply registers_after; [exact H|flow|]. clear H. intros [] w1 _ H.
  eapply registers_after; [exact H|unfold namespace_admitted; flow|]. clear H. intros [] w2 _ H.
  eapply registers_after; [exact H|moves|]. clear H. intros fingerprint w3 _ H.
  eapply registers_after; [exact H|moves|]. clear H. intros durable w4 _ H. cbv zeta in H.
  eapply registers_after; [exact H|tamed|]. clear H. intros [] w5 _ H.
  eapply registers_after; [exact H|tamed|]. clear H. intros [] w6 _ H.
  split.
  - eapply (moves_end steady); [|exact H]. apply (tame_guard sv Htame). intros w7. unfold moves.
    destruct (effects _ _ _ _ _ _ _ _ _ _ _ r w7) as [res' w8] eqn:E. by apply effects_spec in E as [S _].
  - intros [r' ->]. apply (tame_guarded sv Htame) in H as (w7 & w8 & H & S8). apply effects_spec in H as [_ Hreg]. apply S8, Hreg. eauto.
Qed.
End Completes.

(** ** Nothing is lost *)

(** No source, no file and no job is lost; a job keeps what was approved. *)
Definition onward (w w' : station) : Prop :=
  (∀ k, is_Some (sources (on_db w) !! k) → is_Some (sources (on_db w') !! k)) ∧
  (∀ k f, files (on_disk w) !! k = Some f → files (on_disk w') !! k = Some f) ∧
  (∀ k j, registration_jobs (on_db w) !! k = Some j → ∃ j', registration_jobs (on_db w') !! k = Some j' ∧ same_job j j') ∧
  (jobs_named w → jobs_named w').
#[export] Instance onward_preorder : PreOrder onward.
Proof.
  split; [intros w; split_and!; try done; intros k j Hj; by exists j|].
  intros x y z (S1 & F1 & J1 & N1) (S2 & F2 & J2 & N2). split_and!; [auto|auto| |auto].
  intros k j Hj. destruct (J1 k j Hj) as (j1 & Hj1 & A1 & B1 & C1). destruct (J2 k j1 Hj1) as (j2 & Hj2 & A2 & B2 & C2).
  exists j2. split; [done|]. split_and!; congruence.
Qed.

Lemma same_job_refl j : same_job j j. Proof. done. Qed.
Lemma jobs_onward w w' :
  registration_jobs (on_db w') = registration_jobs (on_db w) →
  (∀ k, is_Some (sources (on_db w) !! k) → is_Some (sources (on_db w') !! k)) →
  (∀ k f, files (on_disk w) !! k = Some f → files (on_disk w') !! k = Some f) → onward w w'.
Proof.
  intros E S F. split_and!; [done|done|intros k j; rewrite E; by exists j|]. unfold jobs_named. by rewrite E.
Qed.
Lemma steady_onward w w' : steady w w' → onward w w'.
Proof. intros (F & J & S). apply jobs_onward; [done|done|by rewrite F]. Qed.
Lemma grows_onward w w' : grows w w' → onward w w'.
Proof. intros [E F]. apply jobs_onward; [by rewrite E|by rewrite E|done]. Qed.
Lemma steady_moves_onward {A} (m : OB A) w : moves steady m w → moves onward m w.
Proof. apply steady_onward. Qed.
Lemma grows_moves_onward {A} (m : OB A) w : moves grows m w → moves onward m w.
Proof. apply grows_onward. Qed.
Lemma rests_moves_onward {A} (m : OB A) w : moves rests m w → moves onward m w.
Proof. intros H. apply steady_onward, rests_steady, H. Qed.

Lemma marked_onward source st code w w' : marked source st code w w' → onward w w'.
Proof.
  intros (F & S & now & J).
  assert (∀ k j', registration_jobs (on_db w') !! k = Some j' → ∃ j, registration_jobs (on_db w) !! k = Some j ∧ same_job j j') as Hback.
  { intros k j'. rewrite J. destruct (decide (k = source)) as [->|Hne]; [|rewrite lookup_alter_ne by done; by exists j'].
    rewrite lookup_alter_eq. destruct (_ !! source) as [j|]; [|done]. intros [= <-]. by exists j. }
  split_and!; [by rewrite S|by rewrite F| |].
  - intros k j Hj. rewrite J. destruct (decide (k = source)) as [->|Hne]; [|rewrite lookup_alter_ne by done; by exists j].
    rewrite lookup_alter_eq, Hj. by eexists.
  - intros Hn k j' Hj'. destruct (Hback k j' Hj') as (j & Hj & _ & _ & Hp). destruct (Hn k j Hj) as (d & Hd & Hs). exists d. simpl in *.
    by rewrite Hp.
Qed.
Lemma mark_onward source st code w : moves onward (mark source st code) w.
Proof. unfold moves. destruct (mark source st code w) as [r w'] eqn:E. apply mark_cases in E as [H|H]; [by apply steady_onward|by eapply marked_onward]. Qed.

(** ** The route is sound *)

Section Sound.
Context (dsn : bool) (schema_version : Z) (schema : string) (umask allowed_uid uid : Z) (busy : contention).
Context (sha256 : string → string) (urlsplit : string → result exn url).
Context (validate_request : pydict → result exn (pydict * string)) (uuid5_hex cluster_uuid5 : string → string).
Context (parse : pydict → result exn RegistrationRequest) `{!ParsesSource parse}.
Context (bootstrap : pyval → OB pydict) (configured : bool) (source_namespace default_site_slug : string).
Context `{Hout : !∀ m, Outside (bootstrap m)}.

Abbreviation completion' := (completion dsn schema_version schema busy sha256 urlsplit validate_request uuid5_hex cluster_uuid5
  bootstrap configured source_namespace default_site_slug).
Abbreviation attest' := (attest_registration umask allowed_uid uuid5_hex).

#[export] Instance completion_completes : Completion completion'.
Proof using Hout.
  split; intros.
  - unfold moves. destruct (completion' r j w) as [res w'] eqn:E. unfold completion in E.
    eapply complete_registration_spec in E; [by destruct E|done|apply staged_tame|apply _|apply _].
  - unfold completion in H. eapply complete_registration_spec in H; [|done|apply staged_tame|apply _|apply _]. destruct H as [_ H]. apply H. eauto.
Qed.

#[export] Instance attest_registration_attests : Attestation (credentials_staged uuid5_hex) attest'.
Proof using Type.
  split.
  - intros j w. unfold attest_registration. apply (moves_bind steady); [apply rests_moves_steady, net_rests|]. intros [] w1 _; moves.
    + apply attempt_moves, attest_steady.
    + apply (moves_catch steady); [apply attest_steady|intros; moves].
  - intros j w w' Hj H. unfold attest_registration in H. apply bind_Ok in H as (event & w1 & Hev & H).
    pose proof (moves_end rests _ _ _ _ (net_rests w) Hev) as [Edb _]. rewrite <- Edb in Hj. destruct event; try done.
    + apply bind_Ok in H as (? & ? & _ & H). by apply raise_Ok in H.
    + apply catch_Ok in H as [H|(e & ? & _ & H)]; [by apply attest_true in H; [|done]|by apply raise_Ok in H].
  - intros j w w' E. by apply (attested_files (Attestation := attest_job_attestation uuid5_hex umask allowed_uid)).
Qed.

(** *** Approving *)

Lemma insert_job_onward r op actor preview username w :
  moves onward (through_db (insert_job (rr_source_instance r) op actor (job_payload_of uuid5_hex r op actor preview username))) w.
Proof using Type.
  unfold moves, through_db, insert_job, mbind, M_bind, clock_timestamp, gets. simpl.
  destruct (_ || _) eqn:E; simpl; [by apply jobs_onward|]. apply orb_false_iff in E as [E _]. apply bool_decide_eq_false in E.
  apply eq_None_not_Some in E. unfold id in E. split_and!; [done|done| |].
  - intros k j Hj. simpl. exists j. split; [|done]. rewrite lookup_insert_ne; [done|]. intros <-. simpl in E. congruence.
  - intros Hn k j. simpl. intros [[<- <-]|[_ Hj]]%lookup_insert_Some; [|by apply Hn]. by exists (model_dump r).
Qed.
Lemma commit_onward {A} (m : DB A) w : (∀ w1, moves onward (through_db m) w1) → moves onward (commit m) w.
Proof using Type.
  intros Hm. unfold commit. apply (moves_bind onward); [apply rests_moves_onward, link_rests|]. intros [] w1 _; moves; apply Hm.
Qed.
Lemma get_job_onward source o a w : moves onward (get_job source o a) w.
Proof using Type. apply steady_moves_onward, get_job_steady. Qed.
Hint Resolve get_job_onward mark_onward : moves.

Lemma begin_onward r actor preview username w : moves onward (begin uuid5_hex r actor preview username) w.
Proof using Type. unfold begin. moves. apply commit_onward. intros. apply insert_job_onward. Qed.

Lemma secret_create_onward key value o w : moves onward (secret_create umask allowed_uid uid key value o) w.
Proof using Type.
  apply grows_moves_onward. pose proof (secret_create_stored umask allowed_uid uid w key value o w ltac:(done)) as H. unfold moves.
  destruct (secret_create _ _ _ _ _ _ w) as [[r|e] w']; [by destruct H|done].
Qed.
Hint Resolve secret_create_onward begin_onward : moves.

Lemma stage_onward j c w : moves onward (stage umask allowed_uid uid j c) w.
Proof using Type.
  unfold stage, stage_secrets.
  repeat first [moves_step | apply attempt_moves | match goal with |- moves _ (match ?x with _ => _ end) _ => destruct x end].
  by apply jobs_onward.
Qed.
Hint Resolve stage_onward : moves.

Context (receipt_check receipt_consume : OB unit) `{!Outside receipt_check} `{!Outside receipt_consume}.

Lemma receipts_onward w : moves onward receipt_check w ∧ moves onward receipt_consume w.
Proof using Outside0 Outside1. split; apply rests_moves_onward, outside_rests. Qed.

Lemma preview_rests token w : moves rests (pending_preview token) w.
Proof using Type. unfold pending_preview, current_item. moves. Qed.
Lemma service_reserve_steady rq operation actor i w :
  moves steady (service_reserve dsn schema_version schema validate_request busy rq operation actor i) w.
Proof using Type.
  unfold service_reserve, check_registration, check_binding, current_item, adapter_reserve.
  repeat first [moves_step | apply rests_moves_steady; first [apply clock_rests | apply find_rests | apply preview_rests]
               | apply placement_steady | apply reservations_steady; intros; apply reserve_still].
Qed.

Lemma approve_onward r actor w :
  moves onward (approve_registration dsn schema_version schema umask allowed_uid uid busy sha256 validate_request uuid5_hex bootstrap
    source_namespace r actor receipt_check receipt_consume) w.
Proof using Hout Outside0 Outside1.
  unfold approve_registration. apply (moves_bind onward); [apply receipts_onward|intros ? ? _].
  apply (moves_bind onward); [|intros ? ? _].
  { apply rests_moves_onward. unfold check_registration, check_binding, current_item. repeat first [moves_step | apply find_rests]. }
  apply (moves_bind onward); [apply rests_moves_onward, preview_rests|intros preview ? _].
  apply (admission_moves _ _ _ _ onward); [apply steady_onward|]. intros w1.
  apply (moves_bind onward); [|intros ? ? _].
  { apply steady_moves_onward. unfold namespace_admitted. moves. apply reservations_steady, outcome_still. }
  apply (moves_bind onward); [apply steady_moves_onward, namespace_open_steady, _|intros ? ? _].
  apply (moves_bind onward); [moves|intros fingerprint ? _]. apply (moves_bind onward); [moves|intros durable ? _].
  apply (moves_bind onward); [apply steady_moves_onward, service_reserve_steady|intros ? ? _]. unfold service_guard.
  apply (moves_bind onward); [apply rests_moves_onward, preview_rests|intros ? ? _].
  apply (adapter_guard_moves _ _ _ _ onward); [apply steady_onward|]. intros w2.
  apply (moves_bind onward); [apply steady_moves_onward, placement_steady|intros ? ? _].
  apply (moves_bind onward); [apply receipts_onward|intros ? ? _].
  apply (moves_bind onward); [|intros; moves]. apply rests_moves_onward. unfold consume. moves. apply rests_items.
Qed.

Lemma progress_onward attested j w w' : progress attested j w w' → onward w w'.
Proof using Type.
  intros [H|(w1 & st & code & H1 & H2 & _)]; [by apply steady_onward|].
  etransitivity; [by apply steady_onward|by eapply marked_onward].
Qed.

Abbreviation route := (register_source dsn schema_version schema umask allowed_uid uid busy sha256 urlsplit validate_request uuid5_hex
  cluster_uuid5 parse bootstrap configured source_namespace default_site_slug).

(** A job the registry answers for. *)
Definition registered_job (r : RegistrationRequest) (actor : string) (w : station) : Prop :=
  is_Some (sources (on_db w) !! rr_source_instance r) ∧
  ∃ j, registration_jobs (on_db w) !! rr_source_instance r = Some j ∧ job_state j = JOB_COMPLETED ∧ job_actor j = actor ∧
    (∀ id, rr_registration_id r = Some id → uuid_str (job_operation j) = uuid_str id) ∧
    credentials_staged uuid5_hex (rr_source_instance r, j) w.

Lemma get_job_bound source o a w j w' :
  get_job source o a w = (Ok (Some j), w') →
  registration_jobs (on_db w') !! source = Some j ∧ (∀ x, o = Some x → uuid_str (job_operation j) = x) ∧ (∀ x, a = Some x → job_actor j = x).
Proof using Type.
  unfold get_job. intros H. apply bind_Ok in H as ([] & w1 & _ & H). apply bind_Ok in H as (row & w2 & [-> ->]%gets_Ok & H).
  apply bind_Ok in H as ([] & w3 & [Hc ->]%raise_if_Ok & [Hrow ->]%ret_Ok). rewrite <- Hrow in Hc. apply orb_false_iff in Hc as [H1 H2].
  split_and!; [done|intros x ->; by inv_bool|intros x ->; by inv_bool].
Qed.

(** The last step of the route: the pass over the stored job. *)
Lemma run_registered r actor j w res w' :
  jobs_named w → registration_jobs (on_db w) !! rr_source_instance r = Some j →
  (∀ x, text_option (rr_registration_id r) = Some x → uuid_str (job_operation j) = x) → job_actor j = actor →
  run dsn schema_version urlsplit parse completion' attest' (rr_source_instance r, j) w = (res, w') →
  onward w w' ∧ ((∃ x, res = Ok x) → registered_job r actor w').
Proof using ParsesSource0 Hout.
  intros Hn Hj Ho Ha H. pose proof (Hn _ _ Hj) as Hnamed. split.
  { apply (run_progress dsn schema_version urlsplit parse (credentials_staged uuid5_hex)) in H; [|apply _|apply _|done|done]. by eapply progress_onward. }
  intros [x ->]. apply (run_Ok dsn schema_version urlsplit parse (credentials_staged uuid5_hex)) in H as (Hs & Hc & w1 & S1 & F & Es & now & J); [|apply _|apply _|done|done].
  split; [done|]. exists (with_job_state JOB_COMPLETED None now j). simpl in *. destruct S1 as (_ & J1 & _).
  split_and!; [by rewrite J, J1, lookup_alter_eq, Hj|done|done|intros id E; apply Ho; by rewrite E|exact Hc].
Qed.

Lemma onward_bind {A B} (m : OB A) (k : A → OB B) (Φ : station → Prop) w res w' :
  (m ≫= k) w = (res, w') → moves onward m w →
  (∀ a w1, m w = (Ok a, w1) → onward w w1 → k a w1 = (res, w') → onward w1 w' ∧ ((∃ x, res = Ok x) → Φ w')) →
  onward w w' ∧ ((∃ x, res = Ok x) → Φ w').
Proof using Type.
  intros H Hm Hk. apply bind_cases in H as [(e & H & ->)|(a & w1 & H1 & H)].
  - split; [by apply (moves_end onward _ _ _ _ Hm H)|by intros [? [=]]].
  - pose proof (moves_end onward _ _ _ _ Hm H1) as O1. destruct (Hk a w1 H1 O1 H) as [O2 HΦ]. split; [by transitivity w1|done].
Qed.

Lemma registered_locks r actor f w : registered_job r actor w → registered_job r actor (map_locks f w).
Proof using Type. done. Qed.

(** C12: an accepted registration is complete, and a refused one loses nothing. From
    the request to the reply, through the host reservation, the staging of the
    credentials, the attestation by the broker, the catalog and the registry row,
    and whatever is lost or fails on the way, [POST /sources] removes no source, no
    credential file and no registration job, and no job changes its operation, its
    actor or its approved payload. When it answers that the source is registered,
    the registry has its row, the job of this actor and this operation is
    [COMPLETED], and the files its recorded references name for the provider it was
    approved for (the secret, for Proxmox the token too) exist, complete and owned by
    that operation. *)
Theorem accepted_registration_is_complete r actor w res w' :
  jobs_named w → route r actor receipt_check receipt_consume w = (res, w') →
  onward w w' ∧ ((∃ u, res = Ok u) → registered_job r actor w').
Proof using ParsesSource0 Hout Outside0 Outside1.
  intros Hn H. unfold register_source, job_guard in H.
  eapply onward_bind; [exact H|apply rests_moves_onward, connected_rests|]. clear H. intros [] w1 _ O1 H.
  eapply onward_bind; [exact H|moves|]. clear H. intros held w2 _ O2 H.
  eapply onward_bind; [exact H|moves|]. clear H. intros [] w3 _ O3 H.
  eapply onward_bind; [exact H|apply (moves_modify onward), steady_onward, locks_steady|]. clear H. intros [] w4 _ O4 H.
  assert (jobs_named w4) as Hn4 by (by apply O4, O3, O2, O1). clear O1 O2 O3 O4 Hn w w1 w2 w3.
  apply finally_cases in H as (w5 & H & ->).
  assert (onward w4 w5 ∧ ((∃ u, res = Ok u) → registered_job r actor w5)) as [O Hr].
  2:{ split; [etransitivity; [exact O|apply steady_onward, locks_steady]|]. intros Hu. by apply registered_locks, Hr. }
  eapply onward_bind; [exact H|moves|]. clear H. intros saved w6 _ O6 H.
  eapply onward_bind; [exact H|destruct saved; moves|]. clear H. intros [] w7 _ O7 H.
  eapply onward_bind; [exact H|apply (moves_if onward); intros _; [apply approve_onward|moves]|]. clear H. intros [] w8 _ O8 H.
  eapply onward_bind; [exact H|moves|]. clear H. intros current w9 H9 O9 H.
  eapply onward_bind; [exact H|moves|]. clear H. intros j w10 [-> ->]%require_Ok O10 H.
  apply get_job_bound in H9 as (Hj & Ho & Ha).
  assert (jobs_named w9) as Hn9 by (by apply O9, O8, O7, O6).
  apply bind_cases in H as [(e & H & ->)|(x & w11 & H1 & H)].
  - apply (run_registered r actor) in H as [O _]; [|done|done|done|by apply Ha]. split; [done|by intros [? [=]]].
  - apply (run_registered r actor) in H1 as [O Hreg]; [|done|done|done|by apply Ha].
    assert (w5 = w11) as -> by (destruct x; by injection H).
    split; [done|]. intros _. apply Hreg. eauto.
Qed.
End Sound.

(** ** A registration from the request to the reply *)

Definition choice (fields : pydict) : pyval := PDict (("id", PInt 1) :: ("fingerprint", PStr "f") :: fields).
Definition sample_request_of (token source : string) : RegistrationRequest :=
  mkRequest token "proxmox" source source "https://10.0.0.2" true None 3600 "site" source "linux" "server" "generic" "proxmox"
    [("site", choice []); ("platform", choice []); ("device_role", choice []); ("cluster_type", choice []); ("cluster", choice [])]
    [("pve1", choice [])] false false (Some 7%N).
Definition route_parse (d : pydict) : result exn RegistrationRequest :=
  match dget "source_instance" d, dget "onboarding_token" d with
  | PStr s, PStr t => Ok (sample_request_of t s)
  | _, _ => Err (ValueError "request")
  end.
#[local] Instance route_parses : ParsesSource route_parse.
Proof.
  unfold ParsesSource, route_parse. intros d r. destruct (dget "source_instance" d); try done.
  destruct (dget "onboarding_token" d); try done. by intros [= <-].
Qed.

(** A bootstrap worker with one site, one cluster and an open namespace. *)
Definition sample_answer (m : pyval) : pyval :=
  if py_eqb (py_get "action" m) (PStr "namespace-check") then PDict [("source_instance", py_get "source_instance" m); ("closed", PBool false)]
  else PDict [("selections", PList
    (((λ k, choice [("kind", PStr k); ("slug", PStr k)]) <$> ["site"; "platform"; "device_role"; "cluster_type"]) ++
     [choice [("kind", PStr "cluster"); ("name", PStr "pve-a"); ("type", PDict [("id", PInt 1)]); ("scope_type", PStr "dcim.site"); ("scope_id", PInt 1)];
      choice [("kind", PStr "device_type"); ("slug", PStr "generic")]])%list)].
Definition sample_bootstrap (m : pyval) : OB pydict := mret [("ok", PBool true); ("result", sample_answer m)].

Definition proxmox_credentials : PendingCredentials := mkPending "proxmox" "https://10.0.0.2" true "root@pam" "token" "secret" PNone.
Definition onboarded : station :=
  mkStation empty_db (mkBroker ∅ [] []) {["handoff-token" := mkHandoff 700 proxmox_credentials
    (PDict [("provider", PStr "proxmox"); ("hosts", PList [PDict [("id", PStr "pve1")]])])]} ∅ ["r1"; "r2"] [] [ReplyLost] [].
Abbreviation sample_route := (register_source true 1 "public" 18 1000 1000 (mkContention false false) sample_uuid5 sample_urlsplit
  (λ d, Ok (d, "")) sample_uuid5 sample_uuid5 route_parse sample_bootstrap true "" "" (sample_request_of "handoff-token" "pve-a") "admin"
  (mret tt) (mret tt)).
Definition route_run : result exn unit * station := sample_route onboarded.

Lemma onboarded_named : jobs_named onboarded.
Proof. intros k j. simpl. by rewrite lookup_empty. Qed.
Lemma route_accepts : sample_route onboarded = (Ok tt, route_run.2).
Proof. rewrite (surjective_pairing (sample_route onboarded)). unfold route_run. f_equal. Qed.

Lemma accepted_registration_is_complete_witness : registered_job sample_uuid5 (sample_request_of "handoff-token" "pve-a") "admin" route_run.2.
Proof.
  exact (proj2 (accepted_registration_is_complete true 1 "public" 18 1000 1000 (mkContention false false) sample_uuid5 sample_urlsplit
    (λ d, Ok (d, "")) sample_uuid5 sample_uuid5 route_parse sample_bootstrap true "" "" (mret tt) (mret tt)
    (sample_request_of "handoff-token" "pve-a") "admin" onboarded (Ok tt) route_run.2 onboarded_named route_accepts) (ex_intro _ tt eq_refl)).
Defined.
